(* ===== verification/_CoqProject ===== *)
-Q . S2P
Prelude.v
GoStrings.v
GoLib.v
Text.v
Http.v
Act.v
Threads.v
Domain.v
GoUrl.v
Shortcode.v
Base64.v
Destination.v
QrPolicy.v
Blob.v
FsBlob.v
FsPaths.v
FsRely.v
FsSafe.v
Rollup.v
MemStore.v
Concrete.v
MemStoreFacts.v
Store.v
Cache.v
Codes.v
BlobKeys.v
CodesFacts.v
CreateFacts.v
ResolveFacts.v
CodesProps.v
Listing.v
ScanPipeline.v
Recorder.v
Retention.v
Password.v
Auth.v
AuthProps.v
Visitor.v
Public.v
Qr.v
QrFacts.v
Svg.v
QrApi.v
CodesApi.v
CodesApiFacts.v
AccountApi.v
Mux.v
Router.v
RouterFacts.v
Export.v
Handlers.v
Config.v
ConfigFacts.v
ConsolePages.v
Console.v
ConsoleAdapters.v
ConsoleFacts.v
JsonRows.v
FsCrash.v
FsRefine.v
ExportFacts.v
ExportImport.v
Secret.v
SecretProps.v
Sql.v
Sqlite.v
SqliteRel.v
SqliteCodes.v
SqliteCreate.v
SqliteScans.v
SqliteProps.v
SqliteDemo.v
RateLimit.v
Postgres.v
PostgresRel.v
PostgresScans.v
PostgresProps.v
S3Blob.v
Cli.v
Middleware.v
