(* ===== verification/Prelude.v ===== *)
(** * qurator: a verification development

    qurator is a self-hosted service for dynamic QR codes.  A user creates a
    code: the service draws an id and a short code (or takes an alias), renders
    an image whose symbol carries the scan address, stores the image in a blob
    store and the row in a database.  A scan of the symbol requests
    [/r/<short code>]: the service resolves the short code (through a cache),
    records the scan and redirects to the destination, which the owner can
    change at any time.  Scans are aggregated hourly for analytics; raw scans
    are pruned; an instance can be exported and imported.

    ** The parts and the files

    The ground:
    - [Prelude]: results, automation, lemmas on lists, sums and maps.
      [GoStrings], [Text]: bytes, UTF-8, the functions of [strings], decimal
      texts.  [GoLib]: [int64] arithmetic, time, floating point,
      errors, [sort.Slice], the environment of an operation.  [GoUrl],
      [Base64]: [net/url], [path.Clean], [encoding/base64].  [Http]: requests,
      responses, query values and the error bodies of
      [internal/httpapi/errors.go].  [Mux]: the routing of [net/http.ServeMux].
    - [Act]: requests as sequences of calls interleaved with other requests,
      rely/guarantee and sequential triples.  [Threads]: programs over system
      calls, run by several threads.

    The data and the stores:
    - [Domain]: [internal/domain] (types, ids).  [Shortcode]:
      [internal/shortcode].  [Destination]: scan origins and destination
      validation of [internal/codes/service.go].
    - [MemStore]: [internal/store/storetest/memstore.go], the reference store
      that the contract suite is run against; [MemStoreFacts] and [Listing]
      its invariant and theorems; [Store]: the [store.Store] interface as
      classes with laws, which the reference store satisfies.
    - [Sql]: tables, keys and unique constraints, statements that may fail, and
      transactions.  [Sqlite]: the tables of [internal/store/migrations] and
      every operation of [internal/store/sqlite/sqlite.go] composed of its
      statements.  [SqliteRel], [SqliteCodes], [SqliteCreate], [SqliteScans]:
      the relation between a database and the reference store, and the
      simulation of each operation; [SqliteCreate] also the rules a new code
      may break and the errors that name them; [SqliteProps] the theorems;
      [SqliteDemo] concrete instances and histories.
    - [Postgres]: the tables and every operation of
      [internal/store/postgres/postgres.go]; [PostgresRel], [PostgresScans]:
      the relation between the rows of the two databases and the simulation of
      each operation; [PostgresProps] the theorem.
    - [Blob]: [internal/blob] (keys, interface with laws) and the in-memory
      blob store; [BlobKeys]: the keys the service derives.
    - [S3Blob]: [internal/blob/s3blob/s3blob.go] over an object-store client
      with laws, and its refinement of the in-memory store.
    - [FsBlob]: [internal/blob/fsblob] as programs over the system calls of a
      file system that can fail and crash; [FsPaths], [FsRely], [FsSafe],
      [FsCrash], [FsRefine]: confinement, crash safety, durability and the
      refinement of the in-memory store.

    The services:
    - [Cache], [Codes]: [internal/codes] (cache.go, service.go), over any
      store, blob store and cache that satisfy their laws.  [CodesFacts],
      [CreateFacts], [ResolveFacts] hold the lemmas, [CodesProps] the theorems.
    - [QrPolicy], [Qr], [Svg]: [internal/qr] (policy, encode, shape, logo, the
      gates of render, render_svg), the last with the theorem on vector images;
      [QrFacts] the other theorems.
    - [Rollup]: [internal/analytics/rollup.go] and the aggregator of
      [internal/store/sqlite/sqlite.go]; [ScanPipeline]: from recorded scans to
      query answers.  [Recorder]:
      [internal/analytics/recorder.go] as a labelled transition system.
      [Retention]: retention.go.  [Visitor]: referrer.go and ua.go.
    - [Password], [Secret], [SecretProps]: password hashing and the signing
      secret of [internal/auth].  [Auth], [AuthProps]: tokens,
      sessions, caches, the identity of a request.
    - [Export], [JsonRows], [ExportFacts], [ExportImport]:
      [internal/export].

    The edges:
    - [Public]: [internal/httpapi/public] (redirect, image) and the CSRF rule.
    - [QrApi], [CodesApi], [AccountApi]: the JSON handlers of
      [internal/httpapi/v1]; [CodesApiFacts] the theorems on codes, the others
      with theirs.
    - [Router], [RouterFacts]: [internal/httpapi/router.go].  [Handlers]: the
      handlers as the router sees them (their own muxes and guards), the
      export download and the health endpoints, the server of
      [cmd/qurator/main.go] over them, and what it tells the anonymous.
    - [Middleware]: request identifiers, panic recovery, the request log and
      the metrics of [internal/httpapi/middleware] and [internal/observability],
      in the chain main.go builds around the router.  [RateLimit]:
      [internal/httpapi/middleware/ratelimit.go].
    - [Config], [ConfigFacts]: [internal/config] and what
      [cmd/qurator/main.go] builds from it.
    - [Cli]: the commands of [cmd/qurator], the order of start-up and shutdown,
      and the registries of drivers ([internal/store/open.go],
      [internal/blob/open.go]).
    - [ConsolePages], [Console], [ConsoleAdapters], [ConsoleFacts]:
      [internal/console] over the interfaces of its types.go,
      and the adapters of [cmd/qurator/console_adapters.go].
    - [Concrete]: computable instances of the parameters.

    A request meets [Router.NewRouter], a handler of [Handlers], then a service
    ([Codes], [Auth]), which calls the store, the blob store and the cache
    through the classes of [Store], [Blob] and [Cache]; a theorem about the
    service holds for every implementation that satisfies the laws.  Each
    store, blob or cache operation is one turn of a schedule ([Act.Sched]):
    between two turns other requests may move.

    ** What the theorems show

    - The code service: creation is all or nothing across the three stores
      (up to objects under ids drawn for nothing, when a write or a clean-up of
      the blob store fails); under any interleaving a code keeps its identity and a deleted code is
      frozen; without interleaving a scan sees the last mutation; the outcomes
      of an update.  Three closed executions show the cases where a scan is
      answered from a stale or poisoned cache entry.  A [Put] that fails may
      have written: the laws of [Blob.BlobStore] leave the object of its key
      open, as the file and object-store drivers do.
    - The API: answers show only codes the store holds for the caller when the
      response is written, somebody else's code
      looks absent, the results of a batch are in the order of the request,
      what the schema admits is within the renderer's gates, a failed sign-in
      tells nothing about the account.
    - The router: which requests meet authentication and CSRF, and that no
      protected route can be reached without an identity, over the handlers the
      server mounts; a request is logged
      and counted at most once, under the pattern of its route; a limiter lets
      through exactly the budget of a burst.
    - The store: an invariant of every reachable state, the life of a code,
      atomic batches, compare-and-increment, the short-code namespace, paging,
      pruning.
    - The SQLite driver: over any history on arguments its columns can hold it
      answers as the reference store does, at instants truncated to the
      microsecond, with the same sentinel errors (where a batch of codes breaks
      several rules, [SqliteCreate.broken] of its first offending row bounds both);
      every reading, page and walk agrees afterwards; and an
      operation some of whose statements fail changes nothing or does exactly
      what it does when none fails.
    - The PostgreSQL driver: on a server that compares texts byte by byte and
      folds ASCII letters, over any history whose numbers fit the 32-bit
      columns and whose texts the server can hold, it answers exactly as the
      SQLite driver does, errors compared in the same way.
    - The blob store: keys stay below the root, a crash never leaves a
      half-written object, a completed write is durable, each operation is the
      one of the in-memory store; the S3 driver answers as that store does, up
      to entity tags and times.
    - Scans: no event is lost silently, shutdown drains, answers count exactly
      the stored scans, retention deletes old events only (and terminates), and
      a configuration for which it does not.
    - Authentication: what an accepted token or session means, revocation delay
      (after any history, [AuthProps.history], and against any requests that
      start after the revocation, [AuthProps.since]; and an execution that
      exceeds the documented bound), agreement of credentials and the method
      each is reported under, passwords, servers that start together agree on a secret.
    - Rendering: the geometry draws exactly the symbol, the vector image shows
      exactly the geometry, finder patterns are never covered, the gates of
      [Prepare].
    - Export: an export followed by an import restores the store, no credential
      leaves in an archive, and a store whose archive cannot be imported.
    - The console: what an anonymous or forged request can do (nothing), what
      an error can show, escaping, that it signs in whom the API signs in, and
      the axis of its chart.
    - Configuration: the order of the layers (and the flags that never count),
      and that an accepted configuration starts and runs with the values given.
    - The command line: the exit status of usage errors, what an export or an
      import that succeeded has done, that nothing is served before everything
      is in place and the store is closed last, that host and port survive
      joining and splitting.

    ** Bounds and fuel

    Integers are [Z] with [wrap64] where the code computes on [int64].  Loops
    that retry run on the number of attempts the code allows.
    [Retention.prune_loop] takes one unit of fuel per event, which the theorem
    shows to be enough; [Qr.extend] and [Qr.row_from] take the width of the
    symbol, since each step advances by a module; [GoStrings.strip_all] takes
    the length of its argument.

    ** Parameters

    Third-party packages (the otter cache, the QR encoder, image codecs, the
    user-agent parser, JWT signing, argon2, the S3 client) and tables of the
    standard library (Unicode case mapping, time layouts, [encoding/json],
    [net.ParseCIDR], SHA-256) are classes, as is what the configuration of a
    PostgreSQL server decides (collation, case folding, the constraint an
    INSERT reports); laws, where a theorem needs them, are separate classes
    with a computable instance.

    ** Not modelled

    The migrations as they are run (goose: the tables they produce are the
    ones modelled), concurrency inside a PostgreSQL server and its limits on
    index rows, the pixels of PNG images (float layout handed to a rasteriser),
    the page templates of the console, the log writer and the Prometheus
    registry, the network and signals behind a run of the process (outcomes of
    a host), test suites and development tools. *)
From Stdlib Require Import Ascii String.
From stdpp Require Export base tactics list gmap strings sorting.
From Stdlib Require Export ZArith Lia.

(** ** Results: Go's [(T, error)] pair. *)

(** Go's [error] values are described in [GoErrors]; the result type is
    generic in the error type. *)
Inductive res (E A : Type) : Type :=
| Ok (a : A)
| Err (e : E).
Global Arguments Ok {E A} a.
Global Arguments Err {E A} e.

Declare Scope go_scope.
Delimit Scope go_scope with go.

(** Early return on error ([if err != nil { return ..., err }]). *)
Definition res_bind {E A B} (m : res E A) (k : A -> res E B) : res E B :=
  match m with
  | Ok a => k a
  | Err e => Err e
  end.

Notation "'let*' x ':=' m 'in' k" := (res_bind m (fun x => k))
  (at level 10, x pattern, m at level 100, k at level 200) : go_scope.

Definition is_Ok {E A} (r : res E A) : bool :=
  match r with Ok _ => true | Err _ => false end.

Lemma res_bind_Ok {E A B} (m : res E A) (k : A -> res E B) b :
  res_bind m k = Ok b <-> exists a, m = Ok a /\ k a = Ok b.
Proof. destruct m; simpl; naive_solver. Qed.

(** ** Automation shared by the development. *)
Create HintDb qurator discriminated.
#[export] Hint Constants Opaque : qurator.

(** Split every [if]/[match] of the goal and of the hypotheses, closing what
    becomes contradictory. *)
Ltac destruct_match :=
  match goal with
  | |- context [match ?x with _ => _ end] => destruct x eqn:?
  | H : context [match ?x with _ => _ end] |- _ => destruct x eqn:?
  end.

Ltac branches := repeat (simplify_eq/=; try destruct_match); simplify_eq/=.

(** Turn boolean comparisons into propositions. *)
Ltac bool_to_prop :=
  repeat match goal with
  | H : andb _ _ = true |- _ => apply andb_prop in H as [? ?]
  | H : orb _ _ = false |- _ => apply orb_false_elim in H as [? ?]
  | H : negb _ = true |- _ => apply negb_true_iff in H
  | H : negb _ = false |- _ => apply negb_false_iff in H
  | H : bool_decide _ = true |- _ => apply bool_decide_eq_true_1 in H
  | H : bool_decide _ = false |- _ => apply bool_decide_eq_false_1 in H
  | H : (_ <? _)%Z = true |- _ => apply Z.ltb_lt in H
  | H : (_ <? _)%Z = false |- _ => apply Z.ltb_ge in H
  | H : (_ <=? _)%Z = true |- _ => apply Z.leb_le in H
  | H : (_ <=? _)%Z = false |- _ => apply Z.leb_gt in H
  | H : (_ =? _)%Z = true |- _ => apply Z.eqb_eq in H
  | H : (_ =? _)%Z = false |- _ => apply Z.eqb_neq in H
  end.

(** ** Lists *)

Lemma concat_singletons {A B} (g : A -> list B) (h : A -> B) l :
  (forall x, In x l -> g x = [h x]) -> concat (g <$> l) = h <$> l.
Proof.
  induction l as [|x l IH]; intros H; [done|].
  rewrite !fmap_cons. cbn [concat]. rewrite (H x (or_introl eq_refl)), IH; [done|].
  intros y Hy. apply H. by right.
Qed.

Lemma filter_all {A} (P : A -> Prop) `{!forall x, Decision (P x)} (l : list A) :
  (forall x : A, x ∈ l -> P x) -> filter P l = l.
Proof.
  induction l as [|x l IH]; intros HP; [done|].
  rewrite filter_cons_True by (apply HP; by left). f_equal. apply IH. intros y Hy. apply HP. by right.
Qed.

Lemma filter_fmap {A B} (P : B -> Prop) `{!forall x, Decision (P x)} (g : A -> B) (l : list A) :
  filter P (g <$> l) = g <$> filter (fun x => P (g x)) l.
Proof.
  induction l as [|x l IH]; [done|]. rewrite fmap_cons, !filter_cons. case_decide; simpl; by rewrite IH.
Qed.

(** [lia] with division and remainder by constants. *)
Ltac dlia := Z.to_euclidean_division_equations; lia.

Definition sumZ {A} (f : A -> Z) (l : list A) : Z := foldr (fun x acc => (f x + acc)%Z) 0%Z l.

Lemma sumZ_app {A} (f : A -> Z) l k : sumZ f (l ++ k) = (sumZ f l + sumZ f k)%Z.
Proof. induction l as [|x l IH]; simpl; [done|]. rewrite IH. lia. Qed.

Lemma sumZ_Permutation {A} (f : A -> Z) l k : l ≡ₚ k -> sumZ f l = sumZ f k.
Proof. induction 1; simpl; lia. Qed.

Lemma sumZ_ext {A} (f g : A -> Z) l : (forall x, x ∈ l -> f x = g x) -> sumZ f l = sumZ g l.
Proof.
  induction l as [|x l IH]; intros H; simpl; [done|].
  rewrite IH, (H x); [done| |]; [by left|]. intros y Hy. apply H. by right.
Qed.

Lemma sumZ_fmap {A B} (f : B -> Z) (g : A -> B) l : sumZ f (g <$> l) = sumZ (fun x => f (g x)) l.
Proof. induction l as [|x l IH]; simpl; [done|]. by rewrite <- IH. Qed.

(** ** Sums over the entries of a map *)
Section msum.
Context {K V : Type} `{Countable K}.
Local Open Scope Z_scope.

Definition msum (f : K -> V -> Z) (m : gmap K V) : Z :=
  sumZ (fun p => f p.1 p.2) (map_to_list m).

Lemma msum_empty f : msum f ∅ = 0.
Proof. unfold msum. by rewrite map_to_list_empty. Qed.

Lemma msum_insert_new f m k v : m !! k = None -> msum f (<[k:=v]> m) = f k v + msum f m.
Proof. intros Hk. unfold msum. by rewrite (sumZ_Permutation _ _ _ (map_to_list_insert _ _ _ Hk)). Qed.

Lemma msum_delete f m k v : m !! k = Some v -> msum f m = f k v + msum f (delete k m).
Proof.
  intros Hk. rewrite <- (insert_delete_id m k v) at 1 by done.
  apply msum_insert_new, lookup_delete_eq.
Qed.

(** Replacing an entry changes the sum by the difference of its terms. *)
Lemma msum_insert f m k v :
  msum f (<[k:=v]> m) = msum f m - from_option (f k) 0 (m !! k) + f k v.
Proof.
  destruct (m !! k) as [w|] eqn:Hk; simpl.
  - rewrite (msum_delete f m k w Hk), <- insert_delete_eq, msum_insert_new
      by apply lookup_delete_eq. lia.
  - rewrite msum_insert_new by done. lia.
Qed.
End msum.

Lemma pair_of_fst {A B} (p : A * B) x : p.1 = x -> p = (x, p.2).
Proof. destruct p. simpl. by intros ->. Qed.
