(* ===== verification/GoStrings.v ===== *)
(** * Go strings

    Go strings are byte sequences: [string], a list of 8-bit [ascii].  The
    file models the parts of [strings], [unicode/utf8] and [strconv] the
    program calls.  Unicode tables (case mapping and case folding above
    U+007F) are data this development does not reproduce: they are the
    operations of the class [UnicodeTable]; everything below U+0080, and the
    set of Unicode spaces, is concrete. *)
From Stdlib Require Import Ascii String.
From S2P Require Import Prelude.
From stdpp Require Import pretty.
Local Open Scope Z_scope.

(** ** Bytes *)
Definition code (c : ascii) : Z := Z.of_N (N_of_ascii c).
Definition byte_of (z : Z) : ascii := ascii_of_N (Z.to_N z).

Definition is_upper (c : ascii) : bool := (65 <=? code c) && (code c <=? 90).
Definition is_lower (c : ascii) : bool := (97 <=? code c) && (code c <=? 122).
Definition is_digit (c : ascii) : bool := (48 <=? code c) && (code c <=? 57).
Definition lower_byte (c : ascii) : ascii := if is_upper c then byte_of (code c + 32) else c.

(** [len(s)] counts bytes. *)
Definition len (s : string) : Z := Z.of_nat (String.length s).

Fixpoint bytes (s : string) : list ascii :=
  match s with
  | EmptyString => []
  | String c s' => c :: bytes s'
  end.

Fixpoint of_bytes (l : list ascii) : string :=
  match l with
  | [] => EmptyString
  | c :: l' => String c (of_bytes l')
  end.

Definition string_map (f : ascii -> ascii) (s : string) : string := of_bytes (f <$> bytes s).
Definition string_forall (P : ascii -> bool) (s : string) : bool := forallb P (bytes s).

(** Go compares strings bytewise. *)
Fixpoint str_ltb (a b : string) : bool :=
  match a, b with
  | _, EmptyString => false
  | EmptyString, String _ _ => true
  | String x a', String y b' =>
      if code x <? code y then true
      else if code y <? code x then false
      else str_ltb a' b'
  end.

(** ** [strings] on byte patterns *)
Fixpoint HasPrefix (s p : string) : bool :=
  match p, s with
  | EmptyString, _ => true
  | String c p', String d s' => Ascii.eqb c d && HasPrefix s' p'
  | String _ _, EmptyString => false
  end.

Fixpoint drop_bytes (n : nat) (s : string) : string :=
  match n, s with
  | O, _ => s
  | S _, EmptyString => EmptyString
  | S k, String _ s' => drop_bytes k s'
  end.

Fixpoint take_bytes (n : nat) (s : string) : string :=
  match n, s with
  | O, _ => EmptyString
  | S _, EmptyString => EmptyString
  | S k, String c s' => String c (take_bytes k s')
  end.

Definition rev_string (s : string) : string := of_bytes (rev (bytes s)).
Definition HasSuffix (s p : string) : bool := HasPrefix (rev_string s) (rev_string p).
Definition TrimPrefix (s p : string) : string :=
  if HasPrefix s p then drop_bytes (String.length p) s else s.

Fixpoint Contains (s p : string) : bool :=
  HasPrefix s p || match s with EmptyString => false | String _ s' => Contains s' p end.

Fixpoint IndexByte (s : string) (c : ascii) : option nat :=
  match s with
  | EmptyString => None
  | String d s' => if Ascii.eqb d c then Some O else S <$> IndexByte s' c
  end.

(** [strings.Cut] at a one-byte separator. *)
Fixpoint CutByte (s : string) (c : ascii) : string * string * bool :=
  match s with
  | EmptyString => (EmptyString, EmptyString, false)
  | String d s' =>
      if Ascii.eqb d c then (EmptyString, s', true)
      else let '(a, b, ok) := CutByte s' c in (String d a, b, ok)
  end.

(** [strings.Split] at a one-byte separator: always at least one part. *)
Fixpoint SplitByte (s : string) (c : ascii) : list string :=
  match s with
  | EmptyString => [EmptyString]
  | String d s' =>
      let parts := SplitByte s' c in
      if Ascii.eqb d c then EmptyString :: parts
      else match parts with
           | [] => [String d EmptyString]
           | p :: ps => String d p :: ps
           end
  end.

(** [strings.TrimRight(s, cutset)] for a one-byte cutset. *)
Fixpoint drop_while_byte (c : ascii) (l : list ascii) : list ascii :=
  match l with
  | [] => []
  | d :: l' => if Ascii.eqb d c then drop_while_byte c l' else l
  end.
Definition TrimRightByte (s : string) (c : ascii) : string :=
  of_bytes (rev (drop_while_byte c (rev (bytes s)))).

(** [strconv.Itoa]. *)
Definition Itoa (n : Z) : string := pretty n.

(** ** UTF-8 *)

Definition RuneError : Z := 65533.

Definition is_cont (c : ascii) : bool := (128 <=? code c) && (code c <=? 191).
Definition cont_bits (c : ascii) : Z := code c - 128.

(** [utf8.DecodeRuneInString]: the first rune of a non-empty string and its
    width; an ill-formed sequence is [RuneError] of width one. *)
Definition DecodeRune (s : string) : Z * nat :=
  match s with
  | EmptyString => (RuneError, 0%nat)
  | String c0 s1 =>
      let b0 := code c0 in
      if b0 <? 128 then (b0, 1%nat)
      else if (194 <=? b0) && (b0 <=? 223) then
        match s1 with
        | String c1 _ =>
            if is_cont c1 then ((b0 - 192) * 64 + cont_bits c1, 2%nat) else (RuneError, 1%nat)
        | EmptyString => (RuneError, 1%nat)
        end
      else if (224 <=? b0) && (b0 <=? 239) then
        match s1 with
        | String c1 (String c2 _) =>
            let lo := if b0 =? 224 then 160 else 128 in
            let hi := if b0 =? 237 then 159 else 191 in
            if (lo <=? code c1) && (code c1 <=? hi) && is_cont c2
            then ((b0 - 224) * 4096 + cont_bits c1 * 64 + cont_bits c2, 3%nat)
            else (RuneError, 1%nat)
        | _ => (RuneError, 1%nat)
        end
      else if (240 <=? b0) && (b0 <=? 244) then
        match s1 with
        | String c1 (String c2 (String c3 _)) =>
            let lo := if b0 =? 240 then 144 else 128 in
            let hi := if b0 =? 244 then 143 else 191 in
            if (lo <=? code c1) && (code c1 <=? hi) && is_cont c2 && is_cont c3
            then ((b0 - 240) * 262144 + cont_bits c1 * 4096 + cont_bits c2 * 64 + cont_bits c3, 4%nat)
            else (RuneError, 1%nat)
        | _ => (RuneError, 1%nat)
        end
      else (RuneError, 1%nat)
  end.

(** The runes of a string, as [for _, r := range s] visits them; [skip]
    counts the bytes of the current rune still to be passed over. *)
Fixpoint runes_from (skip : nat) (s : string) : list Z :=
  match s with
  | EmptyString => []
  | String _ s' =>
      match skip with
      | S k => runes_from k s'
      | O => let '(r, w) := DecodeRune s in r :: runes_from (pred w) s'
      end
  end.
Definition runes (s : string) : list Z := runes_from 0 s.
Definition RuneCountInString (s : string) : Z := Z.of_nat (length (runes s)).

(** [utf8.AppendRune]: surrogates and out-of-range values encode as
    [RuneError]. *)
Definition EncodeRune (r : Z) : list ascii :=
  if (0 <=? r) && (r <? 128) then [byte_of r]
  else if (128 <=? r) && (r <? 2048) then [byte_of (192 + r / 64); byte_of (128 + r mod 64)]
  else
    let r := if (2048 <=? r) && (r <? 1114112) && negb ((55296 <=? r) && (r <=? 57343))
             then r else RuneError in
    if r <? 65536 then
      [byte_of (224 + r / 4096); byte_of (128 + (r / 64) mod 64); byte_of (128 + r mod 64)]
    else
      [byte_of (240 + r / 262144); byte_of (128 + (r / 4096) mod 64);
       byte_of (128 + (r / 64) mod 64); byte_of (128 + r mod 64)].

(** ** Case mapping *)

(** The part of the [unicode] tables the program reads above U+007F. *)
Class UnicodeTable := {
  uni_lower : Z -> Z;               (* unicode.ToLower *)
  uni_fold_eq : Z -> Z -> bool;     (* same unicode.SimpleFold orbit *)
}.

(** The tables of a build with no case pairs above U+007F, used to evaluate
    the model on concrete inputs. *)
Definition ascii_unicode : UnicodeTable :=
  {| uni_lower := fun r => r; uni_fold_eq := Z.eqb |}.

Section case_mapping.
Context `{U : UnicodeTable}.

Definition rune_lower (r : Z) : Z :=
  if r <? 128 then (if (65 <=? r) && (r <=? 90) then r + 32 else r) else uni_lower r.

(** [strings.ToLower]: [strings.Map(unicode.ToLower, s)]; its ASCII fast path
    computes the same bytes ([ToLower_ascii]). *)
Definition ToLower (s : string) : string :=
  of_bytes (concat (EncodeRune ∘ rune_lower <$> runes s)).

Definition rune_fold_eq (a b : Z) : bool :=
  if (a <? 128) && (b <? 128) then rune_lower a =? rune_lower b else uni_fold_eq a b.

Fixpoint fold_eq_list (a b : list Z) : bool :=
  match a, b with
  | [], [] => true
  | x :: a', y :: b' => ((x =? y) || rune_fold_eq x y) && fold_eq_list a' b'
  | _, _ => false
  end.

(** [strings.EqualFold]. *)
Definition EqualFold (s t : string) : bool := fold_eq_list (runes s) (runes t).
End case_mapping.

(** ** [strings.TrimSpace] *)

(** The runes [unicode.IsSpace] accepts: Latin-1 ones and the
    [unicode.White_Space] table. *)
Definition space_runes : list Z :=
  [9; 10; 11; 12; 13; 32; 133; 160; 5760; 8192; 8193; 8194; 8195; 8196; 8197; 8198; 8199;
   8200; 8201; 8202; 8232; 8233; 8239; 8287; 12288].
Definition space_encodings : list (list ascii) := EncodeRune <$> space_runes.

Fixpoint strip_prefix (p l : list ascii) : option (list ascii) :=
  match p, l with
  | [], _ => Some l
  | c :: p', d :: l' => if Ascii.eqb c d then strip_prefix p' l' else None
  | _ :: _, [] => None
  end.

Fixpoint strip_one (ps : list (list ascii)) (l : list ascii) : option (list ascii) :=
  match ps with
  | [] => None
  | p :: ps' => match strip_prefix p l with Some l' => Some l' | None => strip_one ps' l end
  end.

(** Strip leading encodings until none is left; every step removes at least
    one byte, so the length of the string is enough fuel. *)
Fixpoint strip_all (fuel : nat) (ps : list (list ascii)) (l : list ascii) : list ascii :=
  match fuel with
  | O => l
  | S k => match strip_one ps l with Some l' => strip_all k ps l' | None => l end
  end.

Definition trim_left (ps : list (list ascii)) (l : list ascii) : list ascii :=
  strip_all (length l) ps l.

Definition TrimSpace (s : string) : string :=
  let l := trim_left space_encodings (bytes s) in
  of_bytes (rev (trim_left (map (@rev ascii) space_encodings) (rev l))).

(** ** Lemmas *)

Lemma code_bounds c : 0 <= code c < 256.
Proof.
  unfold code. pose proof (N_ascii_bounded c). lia.
Qed.

Lemma code_inj a b : code a = code b -> a = b.
Proof.
  unfold code. intros H.
  rewrite <- (ascii_N_embedding a), <- (ascii_N_embedding b). f_equal. lia.
Qed.

Lemma code_byte_of z : 0 <= z < 256 -> code (byte_of z) = z.
Proof.
  intros H. unfold code, byte_of. rewrite N_ascii_embedding by lia. lia.
Qed.

Lemma byte_of_code c : byte_of (code c) = c.
Proof. unfold code, byte_of. rewrite N2Z.id. apply ascii_N_embedding. Qed.

Lemma of_bytes_bytes s : of_bytes (bytes s) = s.
Proof. induction s; simpl; congruence. Qed.

Lemma bytes_of_bytes l : bytes (of_bytes l) = l.
Proof. induction l; simpl; congruence. Qed.

Lemma length_bytes s : length (bytes s) = String.length s.
Proof. induction s; simpl; congruence. Qed.

Lemma bytes_app s t : bytes (s +:+ t) = bytes s ++ bytes t.
Proof.
  induction s as [|c s IH]; [done|].
  change (String c s +:+ t) with (String c (s +:+ t)). simpl. by rewrite IH.
Qed.

Lemma of_bytes_app l k : of_bytes (l ++ k) = of_bytes l +:+ of_bytes k.
Proof. induction l as [|c l IH]; [done|]. simpl. by rewrite IH. Qed.

Lemma CutByte_app s t c : c ∉ bytes s -> CutByte (s +:+ String c t) c = (s, t, true).
Proof.
  unfold bytes. induction s as [|d s IH]; cbn [append list_ascii_of_string CutByte]; intros H.
  - change ("" +:+ String c t) with (String c t). simpl. by rewrite Ascii.eqb_refl.
  - apply not_elem_of_cons in H as [H1 H2].
    change (String d s +:+ String c t) with (String d (s +:+ String c t)). simpl.
    destruct (Ascii.eqb_spec d c); [by subst|]. by rewrite (IH H2).
Qed.

Lemma bytes_inj s t : bytes s = bytes t -> s = t.
Proof. intros H. by rewrite <- (of_bytes_bytes s), <- (of_bytes_bytes t), H. Qed.

(** *** The byte order *)

Lemma str_ltb_irrefl s : str_ltb s s = false.
Proof. induction s as [|c s IH]; simpl; [done|]. rewrite Z.ltb_irrefl. done. Qed.

Lemma str_ltb_trans a b c : str_ltb a b = true -> str_ltb b c = true -> str_ltb a c = true.
Proof.
  revert b c. induction a as [|x a IH]; intros [|y b] [|z c]; simpl; try done.
  intros H1 H2.
  destruct (Z.ltb_spec (code x) (code y)), (Z.ltb_spec (code y) (code x)),
    (Z.ltb_spec (code y) (code z)), (Z.ltb_spec (code z) (code y)),
    (Z.ltb_spec (code x) (code z)), (Z.ltb_spec (code z) (code x)); try done; try lia; eauto.
Qed.

Lemma str_ltb_total a b : str_ltb a b = false -> str_ltb b a = false -> a = b.
Proof.
  revert b. induction a as [|x a IH]; intros [|y b]; simpl; try done.
  destruct (Z.ltb_spec (code x) (code y)), (Z.ltb_spec (code y) (code x)); try done.
  intros H1 H2. f_equal; [apply code_inj; lia | eauto].
Qed.

Lemma str_ltb_asym a b : str_ltb a b = true -> str_ltb b a = false.
Proof.
  intros H. destruct (str_ltb b a) eqn:E; [|done].
  pose proof (str_ltb_trans _ _ _ H E) as F. by rewrite str_ltb_irrefl in F.
Qed.

(** *** ASCII strings *)

Definition is_ascii (c : ascii) : bool := code c <? 128.

Lemma runes_ascii s : string_forall is_ascii s = true -> runes s = code <$> bytes s.
Proof.
  unfold string_forall, runes. induction s as [|c s IH]; [done|].
  cbn [bytes forallb]. intros [Hc Hs]%andb_prop. unfold is_ascii in Hc.
  cbn [runes_from DecodeRune]. rewrite Hc. simpl. by rewrite IH.
Qed.

Lemma EncodeRune_ascii c : 0 <= c < 128 -> EncodeRune c = [byte_of c].
Proof.
  intros H. unfold EncodeRune.
  destruct (Z.leb_spec 0 c), (Z.ltb_spec c 128); simpl; (done || lia).
Qed.

(** On ASCII input [ToLower] is the bytewise loop of its fast path. *)
Lemma ToLower_ascii `{UnicodeTable} s :
  string_forall is_ascii s = true -> ToLower s = string_map lower_byte s.
Proof.
  intros Hs. unfold ToLower, string_map. f_equal. rewrite runes_ascii by done.
  unfold string_forall in Hs. rewrite forallb_forall in Hs.
  assert (E : forall c, In c (bytes s) -> (EncodeRune ∘ rune_lower) (code c) = [lower_byte c]).
  { intros c Hc%Hs. unfold is_ascii in Hc. pose proof (code_bounds c).
    unfold compose, rune_lower, lower_byte, is_upper. rewrite Hc. apply Z.ltb_lt in Hc.
    destruct (Z.leb_spec 65 (code c)), (Z.leb_spec (code c) 90); simpl;
      rewrite EncodeRune_ascii by lia; by rewrite ?byte_of_code. }
  rewrite <- list_fmap_compose. by apply concat_singletons.
Qed.

(** A string of ASCII bytes none of which is upper case is its own lower-case
    form. *)
Lemma ToLower_id `{UnicodeTable} s :
  string_forall (fun c => is_ascii c && negb (is_upper c)) s = true -> ToLower s = s.
Proof.
  intros Hs.
  assert (Ha : string_forall is_ascii s = true).
  { unfold string_forall in *. rewrite forallb_forall in *. intros x Hx.
    specialize (Hs x Hx). by apply andb_prop in Hs as [? _]. }
  rewrite ToLower_ascii by done. unfold string_map. rewrite <- (of_bytes_bytes s) at 2.
  f_equal. clear Ha. unfold string_forall in Hs.
  induction (bytes s) as [|c l IH]; [done|].
  cbn in Hs. apply andb_prop in Hs as [Hc Hs]. rewrite fmap_cons, IH by done.
  apply andb_prop in Hc as [_ Hc%negb_true_iff]. unfold lower_byte. by rewrite Hc.
Qed.

(** *** Trimming *)

(** A byte that starts (and ends) no space encoding. *)
Definition is_graph (c : ascii) : bool := (33 <=? code c) && (code c <=? 126).

Lemma strip_one_graph ps c l :
  Forall (fun p => match p with [] => False | d :: _ => is_graph d = false end) ps ->
  is_graph c = true -> strip_one ps (c :: l) = None.
Proof.
  intros Hps Hc. induction Hps as [|p ps Hp _ IH]; [done|].
  simpl. destruct p as [|d p]; [done|]. simpl.
  destruct (Ascii.eqb_spec d c) as [->|_]; [congruence | done].
Qed.

Lemma trim_left_graph ps c l :
  Forall (fun p => match p with [] => False | d :: _ => is_graph d = false end) ps ->
  is_graph c = true -> trim_left ps (c :: l) = c :: l.
Proof. intros Hps Hc. unfold trim_left. simpl. by rewrite strip_one_graph. Qed.

Lemma space_heads :
  Forall (fun p => match p with [] => False | d :: _ => is_graph d = false end) space_encodings
  /\ Forall (fun p => match p with [] => False | d :: _ => is_graph d = false end)
       (map (@rev ascii) space_encodings).
Proof. split; vm_compute; repeat constructor. Qed.

(** [TrimSpace] leaves alone a string that starts and ends with a graphic
    ASCII byte. *)
Lemma TrimSpace_graph_edges c l d :
  is_graph c = true -> is_graph d = true ->
  (c :: l) = rev (d :: tail (rev (c :: l))) ->
  TrimSpace (of_bytes (c :: l)) = of_bytes (c :: l).
Proof.
  intros Hc Hd Hl. unfold TrimSpace. rewrite bytes_of_bytes.
  rewrite (trim_left_graph _ _ _ (proj1 space_heads) Hc).
  rewrite Hl, rev_involutive.
  rewrite (trim_left_graph _ _ _ (proj2 space_heads) Hd). done.
Qed.

Lemma TrimSpace_graph s : string_forall is_graph s = true -> TrimSpace s = s.
Proof.
  intros Hs. rewrite <- (of_bytes_bytes s). unfold string_forall in Hs.
  destruct (bytes s) as [|c l] eqn:E; [done|].
  destruct (rev (c :: l)) as [|d k] eqn:Er.
  { apply (f_equal (@length ascii)) in Er. rewrite length_rev in Er. done. }
  rewrite forallb_forall in Hs.
  apply (TrimSpace_graph_edges c l d).
  - apply Hs. by left.
  - apply Hs. apply in_rev. rewrite Er. by left.
  - rewrite Er. simpl tail. by rewrite <- Er, rev_involutive.
Qed.

(** One line break after graphic ASCII bytes is all [TrimSpace] removes. *)
Lemma TrimSpace_graph_line s :
  string_forall is_graph s = true -> s <> EmptyString -> TrimSpace (s +:+ String "010" EmptyString) = s.
Proof.
  intros Hs Hne. transitivity (of_bytes (bytes s)); [|apply of_bytes_bytes]. unfold TrimSpace.
  assert (Hb : bytes (s +:+ String "010" EmptyString) = bytes s ++ ["010"%char]).
  { by rewrite bytes_app. }
  rewrite Hb. unfold string_forall in Hs. rewrite forallb_forall in Hs.
  destruct (bytes s) as [|c l] eqn:E; [by destruct s|].
  assert (Hc : is_graph c = true) by (apply Hs; by left).
  rewrite <- app_comm_cons, (trim_left_graph _ _ _ (proj1 space_heads) Hc), app_comm_cons, rev_unit.
  destruct (rev (c :: l)) as [|d k] eqn:Er.
  { apply (f_equal (@length ascii)) in Er. rewrite length_rev in Er. done. }
  assert (Hd : is_graph d = true) by (apply Hs, in_rev; rewrite Er; by left).
  assert (Ht : trim_left (map (@rev ascii) space_encodings) ("010"%char :: d :: k)
               = strip_all (length (d :: k)) (map (@rev ascii) space_encodings) (d :: k)) by done.
  rewrite Ht. change (strip_all (length (d :: k)) (map (@rev ascii) space_encodings) (d :: k))
    with (trim_left (map (@rev ascii) space_encodings) (d :: k)).
  by rewrite (trim_left_graph _ _ _ (proj2 space_heads) Hd), <- Er, rev_involutive.
Qed.

(** *** Concatenation and slices *)
Lemma string_forall_app P s t : string_forall P (s +:+ t) = string_forall P s && string_forall P t.
Proof. unfold string_forall. by rewrite bytes_app, forallb_app. Qed.

Lemma string_forall_cons P c s : string_forall P (String c s) = P c && string_forall P s.
Proof. done. Qed.

Lemma string_forall_take P n s : string_forall P s = true -> string_forall P (take_bytes n s) = true.
Proof.
  revert s. induction n as [|n IH]; intros [|c s]; try done. cbn [take_bytes]. rewrite !string_forall_cons.
  intros [-> Hs]%andb_prop. by apply IH.
Qed.

Lemma string_forall_drop P n s : string_forall P s = true -> string_forall P (drop_bytes n s) = true.
Proof.
  revert s. induction n as [|n IH]; intros [|c s]; try done. cbn [drop_bytes]. rewrite string_forall_cons.
  intros [_ Hs]%andb_prop. by apply IH.
Qed.

Lemma take_bytes_length n s : (n <= String.length s)%nat -> String.length (take_bytes n s) = n.
Proof.
  revert s. induction n as [|n IH]; intros [|c s]; simpl; try done; try lia.
  intros H. rewrite IH; lia.
Qed.

Lemma drop_bytes_length n s : String.length (drop_bytes n s) = (String.length s - n)%nat.
Proof. revert s. induction n as [|n IH]; intros [|c s]; simpl; try done. Qed.

Lemma append_cons c s t : String c s +:+ t = String c (s +:+ t).
Proof. done. Qed.

Lemma append_empty s : s +:+ "" = s.
Proof. induction s as [|c s IH]; [done|]. by rewrite append_cons, IH. Qed.

Lemma len_app s t : len (s +:+ t) = len s + len t.
Proof. unfold len. rewrite <- !length_bytes, bytes_app, length_app. lia. Qed.

Lemma HasPrefix_app p s : HasPrefix (p +:+ s) p = true.
Proof. induction p as [|c p IH]; [by destruct s|]. simpl. by rewrite Ascii.eqb_refl. Qed.

Lemma drop_bytes_app p s : drop_bytes (String.length p) (p +:+ s) = s.
Proof. induction p as [|c p IH]; [by destruct s|]. done. Qed.

Lemma string_app_length s t : String.length (s +:+ t) = (String.length s + String.length t)%nat.
Proof. induction s as [|c s IH]; [done|]. simpl. by rewrite IH. Qed.

Lemma string_forall_spec P s : string_forall P s = true <-> forall c, c ∈ bytes s -> P c = true.
  Proof.
    unfold string_forall. rewrite forallb_forall.
    split; intros H c Hc; apply H; by apply list_elem_of_In.
  Qed.

(** Splitting at a separator that ends a piece. *)
Lemma SplitByte_piece c s t :
  string_forall (fun d => negb (Ascii.eqb d c)) s = true ->
  SplitByte (s +:+ String c t) c = s :: SplitByte t c.
Proof.
  induction s as [|d s IH].
  - intros _. change ("" +:+ String c t) with (String c t). cbn [SplitByte]. by rewrite Ascii.eqb_refl.
  - rewrite string_forall_cons. intros [Hd Hs]%andb_prop. rewrite append_cons. cbn [SplitByte].
    rewrite (IH Hs). apply negb_true_iff in Hd. by rewrite Hd.
Qed.

#[export] Hint Resolve code_bounds str_ltb_irrefl : qurator.
#[export] Hint Rewrite of_bytes_bytes bytes_of_bytes length_bytes bytes_app : qurator.

Lemma string_forall_impl (P Q : ascii -> bool) s :
  (forall c, P c = true -> Q c = true) -> string_forall P s = true -> string_forall Q s = true.
Proof. intros H. rewrite !string_forall_spec. eauto. Qed.

Lemma string_app_assoc s t u : (s +:+ t) +:+ u = s +:+ t +:+ u.
Proof. induction s as [|c s IH]; [done|]. by rewrite !append_cons, IH. Qed.
