(* ===== verification/GoLib.v ===== *)
(** * Go run-time vocabulary

    Machine integers, instants of time, error values, sorting, and the
    environment an operation runs in (its context, its clock reading and its
    random bytes). *)
From Stdlib Require Import Ascii String.
From Stdlib Require Export SpecFloat.
From S2P Require Export Prelude GoStrings.
Local Open Scope Z_scope.

(** ** [int64] *)
Definition wrap64 (z : Z) : Z := (z + 2 ^ 63) mod 2 ^ 64 - 2 ^ 63.
Definition incr64 (z : Z) : Z := wrap64 (z + 1).
Definition add64 (a b : Z) : Z := wrap64 (a + b).
Definition int64_ok (z : Z) : Prop := - 2 ^ 63 <= z < 2 ^ 63.

Lemma wrap64_id z : int64_ok z -> wrap64 z = z.
Proof. unfold int64_ok, wrap64. intros H. rewrite Z.mod_small by lia. lia. Qed.

Lemma wrap64_ok z : int64_ok (wrap64 z).
Proof.
  unfold int64_ok, wrap64. pose proof (Z.mod_pos_bound (z + 2 ^ 63) (2 ^ 64)). lia.
Qed.

(** A counter never repeats its previous value, even when it wraps. *)
Lemma incr64_neq z : int64_ok z -> incr64 z <> z.
Proof.
  unfold incr64, wrap64, int64_ok. intros H E.
  destruct (decide (z = 2 ^ 63 - 1)) as [->|Hne]; [by vm_compute in E|].
  rewrite Z.mod_small in E by lia. lia.
Qed.

(** Arithmetic modulo [2^64]. *)
Lemma wrap64_spec z : exists q, wrap64 z = z + q * 2 ^ 64.
Proof.
  exists (- ((z + 2 ^ 63) / 2 ^ 64)). unfold wrap64.
  pose proof (Z.div_mod (z + 2 ^ 63) (2 ^ 64)). lia.
Qed.

Lemma wrap64_cong a b q : a = b + q * 2 ^ 64 -> wrap64 a = wrap64 b.
Proof.
  intros ->. unfold wrap64. f_equal.
  replace (b + q * 2 ^ 64 + 2 ^ 63) with (b + 2 ^ 63 + q * 2 ^ 64) by lia.
  apply Z.mod_add. lia.
Qed.

Lemma wrap64_eq a b : wrap64 a = wrap64 b -> exists q, a = b + q * 2 ^ 64.
Proof.
  intros H. destruct (wrap64_spec a) as [p Hp], (wrap64_spec b) as [q Hq].
  exists (q - p). lia.
Qed.

Lemma wrap64_idemp z : wrap64 (wrap64 z) = wrap64 z.
Proof. apply wrap64_id, wrap64_ok. Qed.

Lemma wrap64_add_l a b : wrap64 (wrap64 a + b) = wrap64 (a + b).
Proof. destruct (wrap64_spec a) as [q ->]. apply (wrap64_cong _ _ q). lia. Qed.

Lemma wrap64_add_r a b : wrap64 (a + wrap64 b) = wrap64 (a + b).
Proof. by rewrite Z.add_comm, wrap64_add_l, Z.add_comm. Qed.

Lemma wrap64_add_cong a b c d :
  wrap64 a = wrap64 b -> wrap64 c = wrap64 d -> wrap64 (a + c) = wrap64 (b + d).
Proof. intros H1 H2. by rewrite <- wrap64_add_l, H1, wrap64_add_l, <- wrap64_add_r, H2, wrap64_add_r. Qed.

(** ** [time.Time] and [time.Duration]

    An instant is the number of nanoseconds since Go's zero time
    (0001-01-01T00:00:00Z), so [IsZero] is [= 0] and [Truncate] rounds down
    to a multiple of the duration.  All instants are taken in UTC. *)
Definition Microsecond : Z := 1000.
Definition Second : Z := 1000000000.
Definition Minute : Z := 60 * Second.
Definition Hour : Z := 60 * Minute.
Definition Day : Z := 24 * Hour.

Definition IsZero (t : Z) : bool := t =? 0.
Definition Truncate (t d : Z) : Z := if d <=? 0 then t else t - t mod d.
Definition Before (t u : Z) : bool := t <? u.
Definition After (t u : Z) : bool := u <? t.

Lemma Truncate_le t d : 0 < d -> Truncate t d <= t < Truncate t d + d.
Proof.
  intros H. unfold Truncate. destruct (Z.leb_spec d 0); [lia|].
  pose proof (Z.mod_pos_bound t d). lia.
Qed.

Lemma Truncate_multiple t d : 0 < d -> Truncate t d mod d = 0.
Proof.
  intros H. unfold Truncate. destruct (Z.leb_spec d 0); [lia|].
  rewrite Zminus_mod_idemp_r, Z.sub_diag. apply Z.mod_0_l. lia.
Qed.

Lemma Truncate_id t d : 0 < d -> t mod d = 0 -> Truncate t d = t.
Proof. intros H E. unfold Truncate. destruct (Z.leb_spec d 0); lia. Qed.

Lemma Truncate_idemp t d : 0 < d -> Truncate (Truncate t d) d = Truncate t d.
Proof. intros H. apply Truncate_id; [done|]. by apply Truncate_multiple. Qed.

(** ** [float64]

    IEEE 754 binary64 values are the Standard Library's [spec_float], with
    its correctly rounded operations. *)
Notation float64 := spec_float.
Definition f64_of_Z (z : Z) : float64 := binary_normalize 53 1024 z 0 false.
Definition f64_div (a b : float64) : float64 := SFdiv 53 1024 a b.
Definition f64_mul (a b : float64) : float64 := SFmul 53 1024 a b.
Definition f64_leb (a b : float64) : bool := SFleb a b.
Definition f64_ltb (a b : float64) : bool := SFltb a b.
Definition f64_eqb (a b : float64) : bool := SFeqb a b.
Definition f64_zero : float64 := S754_zero false.
(** The binary64 value of the decimal literal [n / d]: both are exact, so the
    rounded quotient is the nearest double. *)
Definition f64_lit (n d : Z) : float64 := f64_div (f64_of_Z n) (f64_of_Z d).

#[export] Instance float64_eq_dec : EqDecision spec_float.
Proof. solve_decision. Defined.

(** ** Errors *)

(** Package-level error values, one inductive per package. *)
Inductive store_sentinel := ErrNotFound | ErrConflict | ErrAliasTaken | ErrClientRefTaken | ErrUnknownDriver.
Inductive blob_sentinel := ErrBlobNotFound | ErrInvalidKey | blob_ErrUnknownDriver.
Inductive codes_sentinel :=
| ErrUnsupportedScheme | ErrSelfReferential | ErrInvalidDestination | ErrDestinationTooLong
| codes_ErrAliasInvalid | codes_ErrAliasReserved | ErrInvalidStyling | ErrInvalidMode
| ErrScanURLNotConfigured | ErrDirectImmutable | ErrClientRefInvalid.
Inductive shortcode_sentinel :=
| ErrAliasInvalid | ErrAliasTooShort | ErrAliasTooLong | ErrAliasBadChar | ErrAliasBadEdge
| ErrAliasDoubleHyphen | ErrAliasReserved | ErrAliasLooksGenerated.
Inductive qr_sentinel :=
| ErrContentTooLarge | ErrDimensionsExceeded | ErrRenderTimeout | ErrInvalidOption
| ErrContrastTooLow | ErrLogoTooLarge.
Inductive auth_sentinel := ErrUnauthorized | ErrTokenRevoked | auth_errConflict | errMalformedPHC.
Inductive context_sentinel := Canceled | DeadlineExceeded.

Inductive sentinel :=
| SStore (s : store_sentinel)
| SBlob (s : blob_sentinel)
| SCodes (s : codes_sentinel)
| SShortcode (s : shortcode_sentinel)
| SQr (s : qr_sentinel)
| SAuth (s : auth_sentinel)
| SContext (s : context_sentinel).

#[export] Instance sentinel_eq_dec : EqDecision sentinel.
Proof. unfold EqDecision, Decision. decide equality; decide equality. Defined.

Coercion SStore : store_sentinel >-> sentinel.
Coercion SBlob : blob_sentinel >-> sentinel.
Coercion SCodes : codes_sentinel >-> sentinel.
Coercion SShortcode : shortcode_sentinel >-> sentinel.
Coercion SQr : qr_sentinel >-> sentinel.
Coercion SAuth : auth_sentinel >-> sentinel.
Coercion SContext : context_sentinel >-> sentinel.

(** The values of a [map[string]any] details map. *)
Inductive detail := DStr (s : string) | DInt (z : Z) | DStrs (l : list string) | DFloat (f : float64).

Inductive error :=
| Sentinel (s : sentinel)
| NewErr (msg : string)                       (* errors.New in a function body *)
| Wrap (msg : string) (e : error)             (* fmt.Errorf("msg ... %w", e); message arguments left out *)
| ValidationError (e : error) (details : list (string * detail))
| ConflictError (Expected Actual : Z)
| ClientRefConflictError (ClientRef ExistingID : string)
| ContentTooLargeError (Limit Actual : Z) (Level : string)
| DimensionsExceededError (Requested Maximum : Z)
| RenderTimeoutError (Timeout : Z)
| InvalidOptionError (Field Reason : string)
| ContrastTooLowError (Ratio Minimum : float64)
| LogoTooLargeError (Scale MaxScale : float64) (Level : string)
| FieldError (field msg : string).                 (* v1.fieldError *)

Coercion Sentinel : sentinel >-> error.

#[export] Instance detail_eq_dec : EqDecision detail.
Proof. solve_decision. Defined.
#[export] Instance error_eq_dec : EqDecision error.
Proof.
  unfold EqDecision. fix rec 1. intros x y. unfold Decision.
  decide equality; solve [apply rec | apply decide_rel, _].
Defined.

(** Every alias failure of [shortcode] wraps the package's [ErrAliasInvalid]. *)
Definition sentinel_unwrap (s : sentinel) : option sentinel :=
  match s with
  | SShortcode ErrAliasInvalid => None
  | SShortcode _ => Some (SShortcode ErrAliasInvalid)
  | _ => None
  end.

(** [errors.Is]: walk the [Unwrap] chain. *)
Fixpoint errors_Is (e : error) (t : sentinel) : bool :=
  match e with
  | Sentinel s => bool_decide (s = t) || bool_decide (sentinel_unwrap s = Some t)
  | NewErr _ | ClientRefConflictError _ _ | FieldError _ _ => false
  | Wrap _ e' | ValidationError e' _ => errors_Is e' t
  | ConflictError _ _ => bool_decide (t = SStore ErrConflict)
  | ContentTooLargeError _ _ _ => bool_decide (t = SQr ErrContentTooLarge)
  | DimensionsExceededError _ _ => bool_decide (t = SQr ErrDimensionsExceeded)
  | RenderTimeoutError _ => bool_decide (t = SQr ErrRenderTimeout)
  | InvalidOptionError _ _ => bool_decide (t = SQr ErrInvalidOption)
  | ContrastTooLowError _ _ => bool_decide (t = SQr ErrContrastTooLow)
  | LogoTooLargeError _ _ _ => bool_decide (t = SQr ErrLogoTooLarge)
  end.

(** [errors.As] at a type that is the leaf of a chain: the first error of the
    chain the projection accepts. *)
Fixpoint errors_As {A} (f : error -> option A) (e : error) : option A :=
  match f e with
  | Some a => Some a
  | None =>
      match e with
      | Wrap _ e' | ValidationError e' _ => errors_As f e'
      | _ => None
      end
  end.

Notation result := (res error).

(** ** The environment of one operation *)

(** What an operation reads from outside the program: the state of its
    [context.Context], the clock, and the bytes [crypto/rand] yields. *)
Record Env := {
  ctx_Err : option context_sentinel;
  time_Now : Z;
  rand_byte : nat -> ascii;
}.

(** ** System calls and JSON

    What a file-system call returns: its value, one of the two errors the code tells
    apart, or another error. *)
Inductive os_result (A : Type) := Done (a : A) | NotExist | Exist | OtherErr (e : error).
Global Arguments Done {A}.
Global Arguments NotExist {A}.
Global Arguments Exist {A}.
Global Arguments OtherErr {A}.

(** [json.Marshal] and [json.Unmarshal] at one type: [None] is an error. *)
Class Json (R : Type) := {
  Marshal : R -> option string;
  Unmarshal : string -> option R;
}.

(** ** [sort.Slice]

    [sort.Slice] permutes a slice into an order its [less] does not
    contradict.  Every comparison of the program is a strict total order on
    the elements it sorts, for which that permutation is unique
    ([sort_Slice_unique]). *)
Definition not_less {A} (less : A -> A -> bool) (x y : A) : Prop := less y x = false.
#[export] Instance not_less_dec {A} (less : A -> A -> bool) : RelDecision (not_less less).
Proof. intros x y. unfold not_less. apply _. Defined.

Definition sort_Slice {A} (less : A -> A -> bool) (l : list A) : list A :=
  merge_sort (not_less less) l.

(** A strict weak order, as [sort.Slice] requires of [less]. *)
Class StrictWeakOrder {A} (less : A -> A -> bool) : Prop := {
  less_irrefl x : less x x = false;
  less_trans x y z : less x y = true -> less y z = true -> less x z = true;
  less_cotrans x y z : less x z = true -> less x y = true \/ less y z = true;
}.

Section sort_Slice.
Context {A} (less : A -> A -> bool) `{!StrictWeakOrder less}.

Lemma less_asym x y : less x y = true -> less y x = false.
Proof.
  intros H. destruct (less y x) eqn:E; [|done].
  pose proof (less_trans _ _ _ H E) as F. by rewrite less_irrefl in F.
Qed.

#[export] Instance not_less_total : Total (not_less less).
Proof.
  intros x y. unfold not_less.
  destruct (less y x) eqn:E; [right; by apply less_asym | by left].
Qed.

#[export] Instance not_less_trans : Transitive (not_less less).
Proof.
  unfold not_less. intros x y z H1 H2. destruct (less z x) eqn:E; [|done].
  destruct (less_cotrans z y x E); congruence.
Qed.

Lemma sort_Slice_Permutation l : sort_Slice less l ≡ₚ l.
Proof. apply merge_sort_Permutation. Qed.

Lemma sort_Slice_sorted l : StronglySorted (not_less less) (sort_Slice less l).
Proof. apply StronglySorted_merge_sort; apply _. Qed.

(** Elements the comparison cannot tell apart are equal. *)
Definition distinguishes (l : list A) : Prop :=
  forall x y, x ∈ l -> y ∈ l -> less x y = false -> less y x = false -> x = y.

Lemma sort_Slice_unique l k :
  distinguishes l -> StronglySorted (not_less less) k -> k ≡ₚ l -> k = sort_Slice less l.
Proof.
  intros Hd Hk Hp. apply (StronglySorted_unique_strong (not_less less)).
  - unfold not_less. intros x y Hx Hy H1 H2. rewrite Hp in Hx.
    rewrite sort_Slice_Permutation in Hy. by apply Hd.
  - done.
  - apply sort_Slice_sorted.
  - by rewrite Hp, sort_Slice_Permutation.
Qed.
End sort_Slice.

Lemma StronglySorted_filter {A} (R : A -> A -> Prop) (P : A -> Prop) `{!forall x, Decision (P x)} l :
  StronglySorted R l -> StronglySorted R (filter P l).
Proof.
  induction 1 as [|x l Hl IH Hx]; [constructor|]. rewrite filter_cons. case_decide; [|done].
  constructor; [done|]. rewrite Forall_forall in *. intros y [_ Hy]%list_elem_of_filter. by apply Hx.
Qed.

(** A filter and a sort commute. *)
Lemma sort_Slice_filter {A} (less : A -> A -> bool) `{!StrictWeakOrder less}
    (P : A -> Prop) `{!forall x, Decision (P x)} l :
  distinguishes less l -> filter P (sort_Slice less l) = sort_Slice less (filter P l).
Proof.
  intros Hd. apply sort_Slice_unique; [done| | |].
  - intros x y [_ Hx]%list_elem_of_filter [_ Hy]%list_elem_of_filter. by apply Hd.
  - apply StronglySorted_filter, sort_Slice_sorted; done.
  - by rewrite sort_Slice_Permutation.
Qed.

(** Sorting the images of the elements under a map that the comparisons do not
    see is mapping the sorted list. *)
Section sort_fmap.
Context {A B : Type} (less : A -> A -> bool) (less' : B -> B -> bool) (g : A -> B).
Context (Hg : forall x y, less' (g x) (g y) = less x y).

Lemma list_merge_fmap l k :
  list_merge (not_less less') (g <$> l) (g <$> k) = g <$> list_merge (not_less less) l k.
Proof.
  revert k. induction l as [|x l IHl]; [by intros []|]. induction k as [|y k IHk]; [done|].
  rewrite !fmap_cons, !list_merge_cons, <- !fmap_cons, IHk, IHl.
  destruct (decide (not_less less x y)) as [E|E]; unfold not_less in E; rewrite <- Hg in E.
  - by rewrite decide_True.
  - by rewrite decide_False.
Qed.

Lemma merge_list_to_stack_fmap st l :
  merge_list_to_stack (not_less less') (fmap (M := option) (fmap (M := list) g) <$> st) (g <$> l)
  = fmap (M := option) (fmap (M := list) g) <$> merge_list_to_stack (not_less less) st l.
Proof.
  revert l. induction st as [|[k|] st IH]; intros l; [done| |done]. cbn [fmap list_fmap merge_list_to_stack].
  simpl. rewrite list_merge_fmap. f_equal. apply IH.
Qed.

Lemma merge_stack_fmap st :
  merge_stack (not_less less') (fmap (M := option) (fmap (M := list) g) <$> st)
  = g <$> merge_stack (not_less less) st.
Proof.
  induction st as [|[k|] st IH]; [done| |apply IH].
  etransitivity; [|apply list_merge_fmap]. by apply (f_equal (list_merge (not_less less') (g <$> k))).
Qed.

Lemma merge_sort_aux_fmap l st :
  merge_sort_aux (not_less less') (fmap (M := option) (fmap (M := list) g) <$> st) (g <$> l)
  = g <$> merge_sort_aux (not_less less) st l.
Proof.
  revert st. induction l as [|x l IH]; intros st; [apply merge_stack_fmap|].
  rewrite fmap_cons. cbn [merge_sort_aux]. rewrite <- IH. f_equal.
  apply (merge_list_to_stack_fmap st [x]).
Qed.

Lemma sort_Slice_fmap l : sort_Slice less' (g <$> l) = g <$> sort_Slice less l.
Proof. apply (merge_sort_aux_fmap l []). Qed.
End sort_fmap.

(** *** Lexicographic comparisons on two keys *)
Definition lex_less {A} (lt1 lt2 : A -> A -> bool) (x y : A) : bool :=
  if lt1 x y then true else if lt1 y x then false else lt2 x y.

Lemma less_equiv_l {A} (less : A -> A -> bool) `{!StrictWeakOrder less} x y z :
  less x y = false -> less y x = false -> less x z = less y z.
Proof.
  intros H1 H2. destruct (less x z) eqn:E1, (less y z) eqn:E2; try done.
  - destruct (less_cotrans x y z E1); congruence.
  - destruct (less_cotrans y x z E2); congruence.
Qed.

Lemma less_equiv_r {A} (less : A -> A -> bool) `{!StrictWeakOrder less} x y z :
  less x y = false -> less y x = false -> less z x = less z y.
Proof.
  intros H1 H2. destruct (less z x) eqn:E1, (less z y) eqn:E2; try done.
  - destruct (less_cotrans z y x E1); congruence.
  - destruct (less_cotrans z x y E2); congruence.
Qed.

(** The three ways two elements compare. *)
Lemma less_cases {A} (less : A -> A -> bool) `{!StrictWeakOrder less} x y :
  (less x y = true /\ less y x = false) \/ (less x y = false /\ less y x = true)
  \/ (less x y = false /\ less y x = false).
Proof.
  destruct (less x y) eqn:E.
  - left. split; [done|]. by apply less_asym.
  - destruct (less y x); auto.
Qed.

#[export] Instance lex_less_order {A} (lt1 lt2 : A -> A -> bool)
  `{!StrictWeakOrder lt1, !StrictWeakOrder lt2} : StrictWeakOrder (lex_less lt1 lt2).
Proof.
  unfold lex_less. split; intros *.
  - by rewrite !less_irrefl.
  - destruct (less_cases lt1 x y) as [[Ha Hb]|[[Ha Hb]|[Ha Hb]]]; rewrite Ha, ?Hb; try done.
    + destruct (less_cases lt1 y z) as [[Hc Hd]|[[Hc Hd]|[Hc Hd]]]; rewrite Hc, ?Hd; try done.
      * by rewrite (less_trans _ _ _ Ha Hc).
      * by rewrite <- (less_equiv_r lt1 y z x), Ha.
    + rewrite (less_equiv_l lt1 x y z Ha Hb), (less_equiv_r lt1 x y z Ha Hb).
      destruct (lt1 y z); [done|]. destruct (lt1 z y); [done|]. apply less_trans.
  - destruct (less_cases lt1 x y) as [[Ha Hb]|[[Ha Hb]|[Ha Hb]]]; rewrite Ha, ?Hb; auto.
    + destruct (less_cases lt1 y z) as [[Hc Hd]|[[Hc Hd]|[Hc Hd]]]; rewrite Hc, ?Hd; auto.
      * by rewrite (less_asym lt1 z x), (less_trans _ _ _ Hd Hb) by (by apply (less_trans _ y)).
      * rewrite <- (less_equiv_r lt1 y z x), <- (less_equiv_l lt1 y z x), Ha, Hb by done. done.
    + rewrite (less_equiv_l lt1 x y z Ha Hb), (less_equiv_r lt1 x y z Ha Hb).
      destruct (lt1 y z); [auto|]. destruct (lt1 z y); [done|]. apply less_cotrans.
Qed.

#[export] Instance Z_less_order {A} (f : A -> Z) : StrictWeakOrder (fun x y => f x <? f y).
Proof.
  split; intros *; repeat match goal with |- context [?a <? ?b] => destruct (Z.ltb_spec a b) end;
    auto; lia.
Qed.

#[export] Instance Z_greater_order {A} (f : A -> Z) : StrictWeakOrder (fun x y => f y <? f x).
Proof.
  split; intros *; repeat match goal with |- context [?a <? ?b] => destruct (Z.ltb_spec a b) end;
    auto; lia.
Qed.

Lemma str_ltb_cotrans x y z : str_ltb x z = true -> str_ltb x y = true \/ str_ltb y z = true.
Proof.
  intros H. destruct (str_ltb x y) eqn:E; [by left|right].
  destruct (str_ltb y x) eqn:E2; [by apply (str_ltb_trans _ x)|].
  by rewrite <- (str_ltb_total _ _ E E2).
Qed.

#[export] Instance str_less_order {A} (f : A -> string) :
  StrictWeakOrder (fun x y => str_ltb (f x) (f y)).
Proof.
  split; intros *; [apply str_ltb_irrefl | apply str_ltb_trans | apply str_ltb_cotrans].
Qed.

#[export] Instance str_greater_order {A} (f : A -> string) :
  StrictWeakOrder (fun x y => str_ltb (f y) (f x)).
Proof.
  split; intros *; [apply str_ltb_irrefl | |].
  - intros H1 H2. by apply (str_ltb_trans _ (f y)).
  - intros H. destruct (str_ltb_cotrans _ (f y) _ H); auto.
Qed.
