(* ===== verification/Text.v ===== *)
(** * Decimal numerals and texts put together from pieces

    Reading back what [strconv.Itoa] and the [%d] verb write; splitting a text
    at a byte its pieces do not have, and the normal form of a concatenation:
    what the readers of printed documents share. *)
From Stdlib Require Import Ascii String.
From stdpp Require Import pretty.
From S2P Require Import GoLib.
Local Open Scope string_scope.
Local Open Scope Z_scope.

Definition digit_step (acc : Z) (c : ascii) : Z := 10 * acc + (code c - 48).
Definition digits_value (l : list ascii) : Z := foldl digit_step 0 l.

Definition read_nat (s : string) : option Z :=
  if string_forall is_digit s && negb (String.eqb s "") then Some (digits_value (bytes s)) else None.

Lemma pretty_N_char_digit x :
  (x < 10)%N -> is_digit (pretty_N_char x) = true /\ code (pretty_N_char x) - 48 = Z.of_N x.
Proof.
  intros Hx.
  assert (Hall : forallb (fun n => is_digit (pretty_N_char (N.of_nat n))
                            && (code (pretty_N_char (N.of_nat n)) - 48 =? Z.of_nat n)) (seq 0 10) = true)
    by (vm_compute; reflexivity).
  rewrite forallb_forall in Hall. specialize (Hall (N.to_nat x) ltac:(apply in_seq; lia)).
  rewrite N2Nat.id in Hall. apply andb_prop in Hall as [H1 H2%Z.eqb_eq]. split; [done|]. lia.
Qed.

Lemma pretty_N_go_value x s : foldl digit_step 0 (bytes (pretty_N_go x s)) = foldl digit_step (Z.of_N x) (bytes s).
Proof.
  revert s. induction (N.lt_wf_0 x) as [x _ IH]; intros s.
  assert (x = 0 \/ 0 < x)%N as [->|Hx] by lia; [by rewrite pretty_N_go_0|].
  rewrite pretty_N_go_step, IH by (done || by apply N.div_lt). cbn [bytes foldl]. f_equal. unfold digit_step.
  destruct (pretty_N_char_digit (x `mod` 10)) as [_ ->]; [by apply N.mod_lt|].
  pose proof (N.div_mod x 10 ltac:(done)). lia.
Qed.

Lemma pretty_N_go_digits x s :
  string_forall is_digit s = true -> string_forall is_digit (pretty_N_go x s) = true.
Proof.
  revert s. induction (N.lt_wf_0 x) as [x _ IH]; intros s Hs.
  assert (x = 0 \/ 0 < x)%N as [->|Hx] by lia; [by rewrite pretty_N_go_0|].
  rewrite pretty_N_go_step by done. apply IH; [by apply N.div_lt|]. rewrite string_forall_cons, Hs.
  destruct (pretty_N_char_digit (x `mod` 10)) as [-> _]; [by apply N.mod_lt|done].
Qed.

Lemma pretty_N_go_length x s : (String.length s <= String.length (pretty_N_go x s))%nat.
Proof.
  revert s. induction (N.lt_wf_0 x) as [x _ IH]; intros s.
  assert (x = 0 \/ 0 < x)%N as [->|Hx] by lia; [by rewrite pretty_N_go_0|].
  rewrite pretty_N_go_step by done. etransitivity; [|apply IH; by apply N.div_lt]. simpl. lia.
Qed.

Lemma Itoa_N n : 0 <= n -> Itoa n = pretty (Z.to_N n).
Proof. destruct n; [done|done|lia]. Qed.

(** A numeral is digits, and at least one. *)
Lemma Itoa_digits n : 0 <= n -> string_forall is_digit (Itoa n) = true /\ Itoa n <> "".
Proof.
  intros Hn. rewrite Itoa_N by done. unfold pretty, pretty_N. case_decide as E; [done|].
  split; [by apply pretty_N_go_digits|]. rewrite pretty_N_go_step by lia.
  set (s := String _ ""). pose proof (pretty_N_go_length (Z.to_N n `div` 10) s) as H.
  intros H0. rewrite H0 in H. simpl in H. lia.
Qed.

Lemma Itoa_value n : 0 <= n -> digits_value (bytes (Itoa n)) = n.
Proof.
  intros Hn. rewrite Itoa_N by done. unfold pretty, pretty_N, digits_value. case_decide as E.
  - replace n with 0 by lia. done.
  - rewrite pretty_N_go_value. simpl. lia.
Qed.

Lemma read_Itoa n : 0 <= n -> read_nat (Itoa n) = Some n.
Proof.
  intros Hn. unfold read_nat. destruct (Itoa_digits n Hn) as [-> H%String.eqb_neq]. rewrite H. simpl.
  by rewrite Itoa_value.
Qed.

(** ** Splitting *)
(** No byte of the text is the separator. *)
Definition without (c : ascii) (s : string) : bool := string_forall (fun d => negb (Ascii.eqb d c)) s.

Lemma SplitByte_without s c : without c s = true -> SplitByte s c = [s].
Proof.
  unfold without. induction s as [|d s IH]; [done|]. rewrite string_forall_cons.
  intros [Hd%negb_true_iff Hs]%andb_prop. cbn [SplitByte]. by rewrite Hd, IH.
Qed.

Lemma SplitByte_at s t c : without c s = true -> SplitByte (s +:+ String c t) c = s :: SplitByte t c.
Proof. apply SplitByte_piece. Qed.

Lemma without_app c s t : without c (s +:+ t) = without c s && without c t.
Proof. apply string_forall_app. Qed.

Lemma without_app_2 c s t : without c s = true -> without c t = true -> without c (s +:+ t) = true.
Proof. intros H1 H2. by rewrite without_app, H1, H2. Qed.

Lemma without_String c d s : d <> c -> without c s = true -> without c (String d s) = true.
Proof. intros H1%Ascii.eqb_neq H2. unfold without in *. by rewrite string_forall_cons, H1, H2. Qed.

(** A character that is not of the kind the string is made of. *)
Lemma without_kind (P : ascii -> bool) c s : P c = false -> string_forall P s = true -> without c s = true.
Proof.
  intros Hc. apply string_forall_impl. intros d Hd. apply negb_true_iff, Ascii.eqb_neq. congruence.
Qed.

Lemma Itoa_without c n : 0 <= n -> is_digit c = false -> without c (Itoa n) = true.
Proof. intros Hn Hc. by apply (without_kind is_digit), Itoa_digits. Qed.

(** A text put together from pieces that do not have the character. *)
Ltac solve_without :=
  repeat first
    [ apply without_app_2
    | apply without_String; [congruence|]
    | apply Itoa_without; [lia|done]
    | assumption
    | reflexivity ].

(** ** Concatenation *)
(** Two ways to put the same text together. *)
Lemma append_String c s t : String c s +:+ t = String c (s +:+ t).
Proof. done. Qed.
Ltac solve_text := repeat (progress rewrite ?append_String, ?string_app_assoc, ?append_empty); reflexivity.

Definition cat (l : list string) : string := foldr append "" l.

Lemma cat_app l1 l2 : cat (l1 ++ l2) = cat l1 +:+ cat l2.
Proof. induction l1 as [|s l1 IH]; [done|]. simpl. by rewrite IH, string_app_assoc. Qed.

Lemma Split_pieces c s l :
  without c s = true -> Forall (fun x => without c x = true) l -> SplitByte (s +:+ cat (String c <$> l)) c = s :: l.
Proof.
  intros Hs Hl. revert s Hs. induction Hl as [|x l Hx Hl IH]; intros s Hs.
  - simpl. rewrite append_empty. by apply SplitByte_without.
  - change (cat (String c <$> x :: l)) with (String c (x +:+ cat (String c <$> l))).
    by rewrite SplitByte_at, IH.
Qed.

Lemma Split_document c l : Forall (fun x => without c x = true) l -> SplitByte (cat (String c <$> l)) c = "" :: l.
Proof. apply (Split_pieces c ""). done. Qed.

Lemma without_cat c l : Forall (fun x => without c x = true) l -> without c (cat l) = true.
Proof. induction 1; [done|]. by apply without_app_2. Qed.
