(* ===== verification/Http.v ===== *)
(** * The HTTP layer

    Requests as [net/http] presents them, responses as the handlers write
    them, the error envelope ([internal/httpapi/errors.go]), the CSRF rule
    ([internal/httpapi/middleware/csrf.go]) and the decoding of JSON bodies
    ([internal/httpapi/v1/json.go]). *)
From Stdlib Require Import Ascii String.
From S2P Require Import GoLib.
Local Open Scope string_scope.
Local Open Scope Z_scope.

(** ** [internal/httpapi/errors.go] *)
Inductive ErrorCode :=
| CodeInvalidRequest | CodeContentTooLarge | CodeUnsupportedScheme | CodeSelfReferentialDestination
| CodeAliasInvalid | CodeAliasReserved | CodeAliasTaken | CodeContrastTooLow | CodeLogoTooLarge
| CodeDimensionsExceeded | CodeRenderTimeout | CodeNotFound | CodeCodeDisabled | CodeUnauthorized
| CodeForbidden | CodeTokenRevoked | CodeConflict | CodeDirectCodeImmutable | CodeNotTracked
| CodeBatchTooLarge | CodeClientRefConflict | CodeRateLimited | CodeScanURLNotConfigured | CodeInternal
| CodeNotImplemented.

Definition Status (c : ErrorCode) : Z :=
  match c with
  | CodeContentTooLarge | CodeBatchTooLarge => 413
  | CodeAliasReserved | CodeAliasTaken | CodeConflict | CodeDirectCodeImmutable | CodeClientRefConflict => 409
  | CodeNotFound => 404
  | CodeCodeDisabled => 410
  | CodeUnauthorized | CodeTokenRevoked => 401
  | CodeForbidden => 403
  | CodeRateLimited => 429
  | CodeScanURLNotConfigured => 503
  | CodeInternal => 500
  | CodeNotImplemented => 501
  | _ => 400
  end.

(** The identifiers on the wire. *)
Definition code_string (c : ErrorCode) : string :=
  match c with
  | CodeInvalidRequest => "invalid_request" | CodeContentTooLarge => "content_too_large"
  | CodeUnsupportedScheme => "unsupported_scheme"
  | CodeSelfReferentialDestination => "self_referential_destination"
  | CodeAliasInvalid => "alias_invalid" | CodeAliasReserved => "alias_reserved" | CodeAliasTaken => "alias_taken"
  | CodeContrastTooLow => "contrast_too_low" | CodeLogoTooLarge => "logo_too_large"
  | CodeDimensionsExceeded => "dimensions_exceeded" | CodeRenderTimeout => "render_timeout"
  | CodeNotFound => "not_found" | CodeCodeDisabled => "code_disabled" | CodeUnauthorized => "unauthorized"
  | CodeForbidden => "forbidden" | CodeTokenRevoked => "token_revoked" | CodeConflict => "conflict"
  | CodeDirectCodeImmutable => "direct_code_immutable" | CodeNotTracked => "not_tracked"
  | CodeBatchTooLarge => "batch_too_large" | CodeClientRefConflict => "client_ref_conflict"
  | CodeRateLimited => "rate_limited" | CodeScanURLNotConfigured => "scan_url_not_configured"
  | CodeInternal => "internal" | CodeNotImplemented => "not_implemented"
  end.

Record ErrorDetail := { ed_Code : ErrorCode; ed_Message : string; ed_Details : list (string * detail) }.

(** ** Values [encoding/json] writes

    An instant stands for its RFC 3339 text; members are in the order of the
    struct's fields, those with [omitempty] left out when empty. *)
Inductive json :=
| JNull
| JBool (b : bool)
| JInt (z : Z)
| JFloat (f : float64)
| JString (s : string)
| JTime (t : Z)
| JArray (l : list json)
| JObject (l : list (string * json)).

(** A pointer: [null] when it is nil. *)
Definition JPtr {A} (f : A -> json) (o : option A) : json := match o with Some a => f a | None => JNull end.
Definition omitempty (name s : string) : list (string * json) :=
  if String.eqb s "" then [] else [(name, JString s)].

Inductive Body :=
| NoBody
| Raw (data : list ascii)
| ErrorJSON (code : ErrorCode) (message : string) (details : list (string * detail))
| ValueJSON (v : json).

Record Response := { rs_Status : Z; rs_Header : gmap string string; rs_Body : Body }.

Definition WriteError (code : ErrorCode) (msg : string) (details : list (string * detail))
    (h : gmap string string) : Response := {|
  rs_Status := Status code;
  rs_Header := <["Cache-Control" := "no-store"]> (<["Content-Type" := "application/json; charset=utf-8"]> h);
  rs_Body := ErrorJSON code msg details |}.
(** [WriteJSON]. *)
Definition WriteJSON (status : Z) (v : json) (h : gmap string string) : Response := {|
  rs_Status := status;
  rs_Header := <["Content-Type" := "application/json; charset=utf-8"]> h;
  rs_Body := ValueJSON v |}.

(** [w.WriteHeader(status)] and no body. *)
Definition WriteStatus (status : Z) (h : gmap string string) : Response :=
  {| rs_Status := status; rs_Header := h; rs_Body := NoBody |}.

(** A handler that returns without having written answers 200 and no body. *)
Definition Silent (h : gmap string string) : Response := WriteStatus 200 h.

Definition Internal (h : gmap string string) : Response :=
  WriteError CodeInternal "An unexpected error occurred." [] h.

(** [NotImplemented]. *)
Definition NotImplemented (pattern : string) : Response :=
  WriteError CodeNotImplemented "This endpoint is not implemented yet." [("route", DStr pattern)] ∅.

(** ** [internal/httpapi/middleware/csrf.go]: the refusal, if any *)
Definition CSRFHeader : string := "X-Qurator-Requested-With".
Definition CSRF (http_method auth_method csrf_header : string) : option Response :=
  if bool_decide (http_method ∈ ["GET"; "HEAD"; "OPTIONS"]) then None
  else if String.eqb auth_method "cookie" && String.eqb csrf_header "" then
    Some (WriteError CodeForbidden
            ("Cookie-authenticated requests must include the " +:+ CSRFHeader +:+ " header.") [] ∅)
  else None.

(** ** Requests *)
Notation Values := (gmap string (list string)) (only parsing).

(** [r.Pattern], [r.PathValue], [r.URL.Query()], [r.Header.Get] and the body. *)
Record HttpRequest := {
  hr_Method : string;
  hr_Pattern : string;
  hr_PathValue : string -> string;
  hr_Query : Values;
  hr_Header : string -> string;
  hr_Body : list ascii;
}.

Definition Values_Has (q : Values) (k : string) : bool := bool_decide (is_Some (q !! k)).
Definition Values_Get (q : Values) (k : string) : string := default "" (q !! k ≫= head).

(** ** Decoding a body *)
Inductive json_error :=
| SyntaxError (offset : Z)
| UnmarshalTypeError (field : string)
| UnknownField (text : string)
| UnexpectedEnd
| OtherJSONError.

(** [json.Decoder] with [DisallowUnknownFields]: the value [Decode] reads from
    a stream and whether [More] says another one follows. *)
Class JsonDecode (R : Type) := { json_Decode : list ascii -> res json_error (R * bool) }.

(** [io.LimitReader]. *)
Fixpoint LimitReader (limit : Z) (l : list ascii) : list ascii :=
  match l with
  | [] => []
  | c :: l' => if limit <=? 0 then [] else c :: LimitReader (limit - 1) l'
  end.

(** ** [internal/httpapi/v1/json.go] *)
Definition maxJSONBody : Z := Z.shiftl 64 10.

Definition decodeJSONLimit {R} `{JsonDecode R} (body : list ascii) (limit : Z) : res Response R :=
  match json_Decode (LimitReader limit body) with
  | Err _ => Err (WriteError CodeInvalidRequest "The request body is not valid JSON for this endpoint."
                    [("field", DStr "body")] ∅)
  | Ok (_, true) => Err (WriteError CodeInvalidRequest "The request body must contain a single JSON object."
                           [("field", DStr "body")] ∅)
  | Ok (v, false) => Ok v
  end.
Definition decodeJSON {R} `{JsonDecode R} (body : list ascii) : res Response R := decodeJSONLimit body maxJSONBody.

(** ** The verb [%.nf] of [fmt]: the nearest decimal, ties to even. *)
Definition div_even (a b : Z) : Z :=
  let q := a / b in let r := a mod b in
  if 2 * r <? b then q else if b <? 2 * r then q + 1 else if Z.even q then q else q + 1.

Fixpoint zeros (n : nat) : string := match n with O => "" | S k => String "0" (zeros k) end.
Definition pad_left (n : nat) (s : string) : string := zeros (n - String.length s) +:+ s.

Definition FormatFixed (prec : nat) (f : float64) : string :=
  let p := 10 ^ Z.of_nat prec in
  let text v := Itoa (v / p) +:+ (if Nat.eqb prec 0 then "" else "." +:+ pad_left prec (Itoa (v mod p))) in
  match f with
  | S754_nan => "NaN"
  | S754_infinity s => if s then "-Inf" else "+Inf"
  | S754_zero s => (if s then "-" else "") +:+ text 0
  | S754_finite s m e =>
      let n := Zpos m * p in
      (if s then "-" else "") +:+ text (if 0 <=? e then n * 2 ^ e else div_even n (2 ^ (- e)))
  end.
