(* ===== verification/Act.v ===== *)
(** * Requests as interleaved actions

    A request handler runs against state it shares with other requests (a
    database, a blob store, a cache).  It is a sequence of calls; between two
    of its calls anything the other requests do can happen.  [Act W A] is such
    a computation over a shared state [W]: each external call takes one turn,
    in which first the other requests move ([sc_others]), then the call runs in
    that turn's environment ([sc_env]: context, clock, random bytes).

    Properties that must survive interleaving are proved with rely/guarantee
    triples ([triple]): a transition relation holds of what the others do, and
    the triple shows that the action keeps to it too. *)
From S2P Require Import GoLib.

Definition Act (W A : Type) : Type := nat * W -> A * (nat * W).

Record Sched (W : Type) := {
  sc_env : nat -> Env;
  sc_others : nat -> W -> W;
}.
Global Arguments sc_env {W}.
Global Arguments sc_others {W}.

#[export] Instance act_ret {W} : MRet (Act W) := fun A a st => (a, st).
#[export] Instance act_bind {W} : MBind (Act W) := fun A B k m st => let '(a, st') := m st in k a st'.

(** Nobody else runs. *)
Definition quiet {W} (sc : Sched W) : Prop := forall n w, sc_others sc n w = w.

Section act.
Context {W : Type} (sc : Sched W).

(** One external call that reads the state, or reads and updates it. *)
Definition call {A} (f : Env -> W -> A * W) : Act W A := fun '(n, w) =>
  let '(a, w') := f (sc_env sc n) (sc_others sc n w) in (a, (S n, w')).
Definition look {A} (f : Env -> W -> A) : Act W A := call (fun env w => (f env w, w)).

(** The rest of the function after [x, err := m; if err != nil { return err }]. *)
Definition try {E A B} (m : Act W (res E A)) (k : A -> Act W (res E B)) : Act W (res E B) :=
  r ← m; match r with Ok a => k a | Err e => mret (Err e) end.
End act.

Notation "x <-! m ; k" := (try m (fun x => k)) (at level 20, m at level 100, k at level 200) : go_scope.

(** ** Rely/guarantee triples *)
Section triple.
Context {W : Type} (sc : Sched W) (R : relation W) `{!Reflexive R, !Transitive R}.
Context (rely : forall n w, R w (sc_others sc n w)).

(** From a state that satisfies [P], the action ends with a result and a
    state that satisfy [Q], having moved within [R]. *)
Definition triple {A} (P : W -> Prop) (a : Act W A) (Q : A -> W -> Prop) : Prop :=
  forall n w, P w -> let '(x, (_, w')) := a (n, w) in Q x w' /\ R w w'.

Definition stable (P : W -> Prop) : Prop := forall w w', R w w' -> P w -> P w'.

Lemma triple_ret {A} (P : W -> Prop) (x : A) : triple P (mret x) (fun y w => y = x /\ P w).
Proof. intros n w Hw. by split. Qed.

Lemma triple_bind {A B} P (a : Act W A) (k : A -> Act W B) Q Q' :
  triple P a Q -> (forall x, triple (Q x) (k x) Q') -> triple P (a ≫= k) Q'.
Proof.
  intros Ha Hk n w Hw. specialize (Ha n w Hw). unfold mbind, act_bind.
  destruct (a (n, w)) as [x [n' w']]. destruct Ha as [Hq Hr]. specialize (Hk x n' w' Hq).
  destruct (k x (n', w')) as [y [n'' w'']]. destruct Hk as [Hq' Hr']. split; [done|]. by etransitivity.
Qed.

Lemma triple_conseq {A} (P P' : W -> Prop) (a : Act W A) (Q Q' : A -> W -> Prop) :
  triple P' a Q' -> (forall w, P w -> P' w) -> (forall x w, Q' x w -> Q x w) -> triple P a Q.
Proof.
  intros Ha HP HQ n w Hw. specialize (Ha n w (HP w Hw)). destruct (a (n, w)) as [x [n' w']].
  destruct Ha. auto.
Qed.

Lemma triple_call {A} P (f : Env -> W -> A * W) (Q : A -> W -> Prop) :
  stable P -> (forall env w, P w -> R w (f env w).2 /\ Q (f env w).1 (f env w).2) ->
  triple P (call sc f) Q.
Proof.
  intros Hs Hf n w Hw. unfold call.
  pose proof (Hs _ _ (rely n w) Hw) as Hw'. specialize (Hf (sc_env sc n) _ Hw').
  destruct (f (sc_env sc n) (sc_others sc n w)) as [x w']. simpl in Hf. destruct Hf as [Hr Hq].
  split; [done|]. etransitivity; [apply rely|done].
Qed.

Lemma triple_look {A} P (f : Env -> W -> A) (Q : A -> W -> Prop) :
  stable P -> (forall env w, P w -> Q (f env w) w) -> triple P (look sc f) Q.
Proof. intros Hs Hf. apply triple_call; [done|]. intros env w Hw. split; [done|]. by apply Hf. Qed.

Lemma triple_try {E A B} P (a : Act W (res E A)) (k : A -> Act W (res E B)) Q Q' :
  triple P a Q -> (forall x, triple (Q (Ok x)) (k x) Q') ->
  (forall e w, Q (Err e) w -> Q' (Err e) w) -> triple P (try a k) Q'.
Proof.
  intros Ha Hk He. apply (triple_bind P _ _ Q); [done|]. intros [x|e]; [apply Hk|].
  eapply triple_conseq; [apply (triple_ret (Q (Err e)))|done|]. intros x w [-> Hq]. auto.
Qed.
End triple.

(** ** Sequential reasoning: one call of a quiet schedule *)
Lemma call_quiet {W A} (sc : Sched W) (f : Env -> W -> A * W) n w :
  quiet sc -> call sc f (n, w) = let '(a, w') := f (sc_env sc n) w in (a, (S n, w')).
Proof. intros Hq. unfold call. by rewrite Hq. Qed.

Lemma bind_step {W A B} (a : Act W A) (k : A -> Act W B) st :
  (a ≫= k) st = let '(x, st') := a st in k x st'.
Proof. done. Qed.

Lemma bind_inv {W A B} (m : Act W A) (k : A -> Act W B) st x st' :
  (m ≫= k) st = (x, st') -> exists y st1, m st = (y, st1) /\ k y st1 = (x, st').
Proof. rewrite bind_step. destruct (m st) as [y st1]. eauto. Qed.

Lemma try_inv {W E A B} (m : Act W (res E A)) (k : A -> Act W (res E B)) st x st' :
  try m k st = (Ok x, st') -> exists y st1, m st = (Ok y, st1) /\ k y st1 = (Ok x, st').
Proof. intros ([y|e] & st1 & Em & Ek)%bind_inv; [eauto|done]. Qed.

(** ** Sequential triples

    From a state that satisfies [P], with nobody else running, the action ends
    with a result and a state that satisfy [Q]. *)
Definition live {W} (sc : Sched W) : Prop := forall n, ctx_Err (sc_env sc n) = None.

Section runs.
Context {W : Type}.

Definition runs {A} (P : W -> Prop) (a : Act W A) (Q : A -> W -> Prop) : Prop :=
  forall n w, P w -> let '(x, (_, w')) := a (n, w) in Q x w'.

Lemma runs_ret {A} (P : W -> Prop) (x : A) (Q : A -> W -> Prop) :
  (forall w, P w -> Q x w) -> runs P (mret x) Q.
Proof. intros H n w Hw. by apply H. Qed.

Lemma runs_bind {A B} P (a : Act W A) (k : A -> Act W B) Q Q' :
  runs P a Q -> (forall x, runs (Q x) (k x) Q') -> runs P (a ≫= k) Q'.
Proof.
  intros Ha Hk n w Hw. specialize (Ha n w Hw). unfold mbind, act_bind.
  destruct (a (n, w)) as [x [n' w']]. by apply Hk.
Qed.

Lemma runs_conseq {A} (P P' : W -> Prop) (a : Act W A) (Q Q' : A -> W -> Prop) :
  runs P' a Q' -> (forall w, P w -> P' w) -> (forall x w, Q' x w -> Q x w) -> runs P a Q.
Proof.
  intros Ha HP HQ n w Hw. specialize (Ha n w (HP w Hw)). destruct (a (n, w)) as [x [n' w']]. auto.
Qed.

Lemma runs_call (sc : Sched W) {A} P (f : Env -> W -> A * W) (Q : A -> W -> Prop) :
  quiet sc -> (forall n w, P w -> Q (f (sc_env sc n) w).1 (f (sc_env sc n) w).2) ->
  runs P (call sc f) Q.
Proof.
  intros Hq Hf n w Hw. rewrite call_quiet by done. specialize (Hf n w Hw).
  by destruct (f (sc_env sc n) w).
Qed.

Lemma runs_look (sc : Sched W) {A} P (f : Env -> W -> A) (Q : A -> W -> Prop) :
  quiet sc -> (forall n w, P w -> Q (f (sc_env sc n) w) w) -> runs P (look sc f) Q.
Proof. intros Hq Hf. apply runs_call; [done|]. intros n w Hw. by apply Hf. Qed.

Lemma runs_from {A} (P : W -> Prop) (a : Act W A) Q : (forall w0, P w0 -> runs (eq w0) a Q) -> runs P a Q.
Proof. intros H n w Hw. by apply (H w Hw). Qed.

(** An action that leaves the state alone, and the rest of the function. *)
Lemma runs_reads {A B} w0 (a : Act W A) (phi : A -> Prop) (k : A -> Act W B) Q :
  runs (eq w0) a (fun x w => w0 = w /\ phi x) -> (forall x, phi x -> runs (eq w0) (k x) Q) ->
  runs (eq w0) (a ≫= k) Q.
Proof.
  intros Ha Hk. eapply runs_bind; [done|]. intros x n w [<- Hx]. by apply (Hk x Hx n w0).
Qed.

(** A call and the rest of the function. *)
Lemma runs_call_then (sc : Sched W) {A B} P (f : Env -> W -> A * W) (k : A -> Act W B) Q :
  quiet sc ->
  (forall n w, P w -> runs (eq (f (sc_env sc n) w).2) (k (f (sc_env sc n) w).1) Q) ->
  runs P (call sc f ≫= k) Q.
Proof.
  intros Hq Hk n w Hw. rewrite bind_step, call_quiet by done. specialize (Hk n w Hw).
  destruct (f (sc_env sc n) w) as [x w']. by apply (Hk (S n) w').
Qed.
End runs.
