(* ===== verification/Threads.v ===== *)
(** * Programs over system calls, interleaved

    An operation that works through system calls is a program [prog]: a call,
    and what the operation does with its result.  Several programs run against
    one machine state, one call of one of them at a time, and between two calls
    the machine may crash.  A call's outcome depends on a [turn] (its clock, its
    faults), and a call that has to wait has none.

    [wp] is what a program guarantees against interference: its calls respect
    what the others rely on, whatever the others do between them within what
    it relies on itself ([wp_reachable]). *)
From S2P Require Import GoLib.

Inductive prog (Sys : Type -> Type) (A : Type) :=
| Ret (a : A)
| Call {X : Type} (c : Sys X) (k : X -> prog Sys A).
Global Arguments Ret {Sys A}.
Global Arguments Call {Sys A X}.

Fixpoint prog_bind {Sys A B} (p : prog Sys A) (k : A -> prog Sys B) : prog Sys B :=
  match p with
  | Ret a => k a
  | Call c h => Call c (fun x => prog_bind (h x) k)
  end.

#[export] Instance prog_ret {Sys} : MRet (prog Sys) := fun A a => Ret a.
#[export] Instance prog_mbind {Sys} : MBind (prog Sys) := fun A B k p => prog_bind p k.
Definition sys {Sys A} (c : Sys A) : prog Sys A := Call c Ret.

Section threads.
Context {Sys : Type -> Type} {M Turn : Type}.

(** The call [c] of thread [i]: its result and the machine after it, or none
    when it has to wait. *)
Context (exec : nat -> Turn -> forall X, Sys X -> M -> option (X * M)).

(** ** One program alone *)
Fixpoint alone {A} (turn : M -> Turn) (i : nat) (p : prog Sys A) (m : M) : option (A * M) :=
  match p with
  | Ret a => Some (a, m)
  | Call c k => match exec i (turn m) _ c m with Some (x, m') => alone turn i (k x) m' | None => None end
  end.

Lemma alone_bind {A B} turn i (p : prog Sys A) (k : A -> prog Sys B) m :
  alone turn i (p ≫= k) m
  = match alone turn i p m with Some (a, m') => alone turn i (k a) m' | None => None end.
Proof.
  revert m. induction p as [a|X c h IH]; intros m; [done|]. simpl.
  destruct (exec i (turn m) X c m) as [[x m']|]; [|done]. apply IH.
Qed.

(** ** Many programs *)
Definition pool (A : Type) : Type := M * list (prog Sys A).

Definition pool_step {A} (i : nat) (t : Turn) (s : pool A) : option (pool A) :=
  match s.2 !! i with
  | Some (Call c k) =>
      match exec i t _ c s.1 with
      | Some (x, m') => Some (m', <[i := k x]> s.2)
      | None => None
      end
  | _ => None
  end.

Inductive reachable {A} (s0 : pool A) : pool A -> Prop :=
| reach_start : reachable s0 s0
| reach_step s i t s' : reachable s0 s -> pool_step i t s = Some s' -> reachable s0 s'.

(** A schedule: which thread makes its next call, and in which turn. *)
Definition pool_steps {A} (l : list (nat * Turn)) (s : pool A) : option (pool A) :=
  foldl (fun os x => s ← os; pool_step x.1 x.2 s) (Some s) l.

Lemma pool_steps_reachable {A} (s0 : pool A) l s s' :
  reachable s0 s -> pool_steps l s = Some s' -> reachable s0 s'.
Proof.
  unfold pool_steps. revert s. induction l as [|x l IH]; intros s Hr Hs; cbn [foldl] in Hs; [congruence|].
  destruct (pool_step x.1 x.2 s) as [s1|] eqn:E; simpl in Hs; rewrite E in Hs.
  - apply (IH s1); [|done]. by eapply reach_step.
  - exfalso. clear -Hs. induction l as [|y l IH]; [done|]. by apply IH.
Qed.

(** ** What a program guarantees under interference *)
Context (R : nat -> relation M) (HR : forall i, Reflexive (R i)) (HT : forall i, Transitive (R i)).

(** A call of thread [i] respects what every other thread relies on. *)
Definition guarantees (i : nat) (m m' : M) : Prop := forall j, j <> i -> R j m m'.

Fixpoint wp {A} (i : nat) (p : prog Sys A) (Q : A -> M -> Prop) (m : M) : Prop :=
  match p with
  | Ret a => forall m', R i m m' -> Q a m'
  | Call c k => forall m1, R i m m1 -> forall t x m2,
      exec i t _ c m1 = Some (x, m2) -> guarantees i m1 m2 /\ wp i (k x) Q m2
  end.

Lemma wp_stable {A} i (p : prog Sys A) Q m m' : wp i p Q m -> R i m m' -> wp i p Q m'.
Proof.
  destruct p as [a|X c k]; simpl; intros H Hr.
  - intros m1 H1. apply H. by transitivity m'.
  - intros m1 H1. apply H. by transitivity m'.
Qed.

Lemma wp_conseq {A} i (p : prog Sys A) (Q Q' : A -> M -> Prop) m :
  wp i p Q m -> (forall a m', Q a m' -> Q' a m') -> wp i p Q' m.
Proof.
  intros H HQ. revert m H. induction p as [a|X c k IH]; simpl; intros m H; [auto|].
  intros m1 H1 t x m2 He. destruct (H m1 H1 t x m2 He). eauto.
Qed.

Lemma wp_bind {A B} i (p : prog Sys A) (k : A -> prog Sys B) Q m :
  wp i p (fun a m' => wp i (k a) Q m') m -> wp i (p ≫= k) Q m.
Proof.
  revert m. induction p as [a|X c h IH]; intros m H; simpl in *.
  - apply H. reflexivity.
  - intros m1 H1 t x m2 He. destruct (H m1 H1 t x m2 He). split; [done|]. by apply IH.
Qed.

Lemma wp_ret {A} i (a : A) (Q : A -> M -> Prop) m : (forall m', R i m m' -> Q a m') -> wp i (Ret a) Q m.
Proof. done. Qed.

(** The rule of a call, for an assertion that interference preserves. *)
Lemma wp_call {A X} i (c : Sys X) (k : X -> prog Sys A) (P : M -> Prop) Q m :
  P m -> (forall m m', P m -> R i m m' -> P m') ->
  (forall t m1 x m2, P m1 -> exec i t _ c m1 = Some (x, m2) -> guarantees i m1 m2 /\ wp i (k x) Q m2) ->
  wp i (Call c k) Q m.
Proof. intros Hm Hs H m1 H1 t x m2 He. apply (H t); [|done]. by eapply Hs. Qed.

(** Every thread keeps what it guarantees, wherever the others are. *)
Theorem wp_reachable {A} (Q : nat -> A -> M -> Prop) (s0 s : pool A) :
  (forall i p, s0.2 !! i = Some p -> wp i p (Q i) s0.1) ->
  reachable s0 s -> forall i p, s.2 !! i = Some p -> wp i p (Q i) s.1.
Proof.
  intros H0. induction 1 as [|s i t s' _ IH Hs]; [done|]. intros j q Hq.
  unfold pool_step in Hs. destruct (s.2 !! i) as [[a|X c k]|] eqn:Hi; try done.
  destruct (exec i t X c s.1) as [[x m']|] eqn:He; [|done]. injection Hs as <-. simpl in *.
  destruct (IH i _ Hi s.1 (HR i s.1) t x m' He) as [Hg Hw].
  apply list_lookup_insert_Some in Hq as [(<- & <- & _)|[Hne Hq]]; [done|].
  eapply wp_stable; [by apply IH|]. by apply Hg.
Qed.

(** A property of the machine that no call of a thread breaks. *)
Lemma wp_invariant {A} (Q : nat -> A -> M -> Prop) (I : M -> Prop) (s0 s : pool A) :
  (forall i p, s0.2 !! i = Some p -> wp i p (Q i) s0.1) ->
  I s0.1 -> (forall i m m', I m -> guarantees i m m' -> I m') ->
  reachable s0 s -> I s.1.
Proof.
  intros H0 HI Hg Hr. induction Hr as [|s i t s' Hr IH Hs]; [done|].
  pose proof (wp_reachable Q s0 s H0 Hr i) as Hw.
  unfold pool_step in Hs. destruct (s.2 !! i) as [[a|X c k]|] eqn:Hi; try done.
  destruct (exec i t X c s.1) as [[x m']|] eqn:He; [|done]. injection Hs as <-. simpl.
  destruct (Hw _ eq_refl s.1 (HR i s.1) t x m' He) as [Hgu _]. by apply (Hg i s.1).
Qed.
End threads.
