(* ===== verification/Domain.v ===== *)
(** * Domain types and identifiers ([internal/domain])

    The records every other component exchanges, the string-typed
    enumerations with the values the program gives them, and the generator of
    identifiers and short codes. *)
From Stdlib Require Import Ascii String.
From S2P Require Import GoLib.
Local Open Scope string_scope.
Local Open Scope Z_scope.

(** ** [types.go] *)

(** String-typed enumerations may hold any string, so they stay strings. *)
Notation UserSource := string (only parsing).
Notation CodeState := string (only parsing).
Notation CodeMode := string (only parsing).
Notation ECLevel := string (only parsing).
Notation ModuleShape := string (only parsing).
Notation DeviceCategory := string (only parsing).
Notation Dimension := string (only parsing).
Notation Bucket := string (only parsing).

Definition UserSourceLocal : UserSource := "local".
Definition UserSourceForwardAuth : UserSource := "forward_auth".

Record User := {
  user_ID : string;
  user_Email : string;
  user_PasswordHash : string;
  user_IsAdmin : bool;
  user_TokenVersion : Z;
  user_Source : UserSource;
  user_CreatedAt : Z;
  user_LastLoginAt : option Z;
}.

Record APIToken := {
  token_ID : string;
  token_UserID : string;
  token_Name : string;
  token_SecretHash : list ascii;
  token_CreatedAt : Z;
  token_LastUsedAt : option Z;
  token_RevokedAt : option Z;
  token_ExpiresAt : option Z;
}.

Definition Revoked (t : APIToken) : bool :=
  match token_RevokedAt t with Some _ => true | None => false end.

Definition CodeActive : CodeState := "active".
Definition CodeDisabled : CodeState := "disabled".
Definition CodeDeleted : CodeState := "deleted".

Definition ModeDynamic : CodeMode := "dynamic".
Definition ModeDirect : CodeMode := "direct".

Definition ECLow : ECLevel := "L".
Definition ECMedium : ECLevel := "M".
Definition ECQuartile : ECLevel := "Q".
Definition ECHigh : ECLevel := "H".

Definition ShapeSquare : ModuleShape := "square".
Definition ShapeDot : ModuleShape := "dot".
Definition ShapeRounded : ModuleShape := "rounded".

Record Styling := {
  styling_ID : string;
  FgColor : string;
  BgColor : string;
  styling_ModuleShape : ModuleShape;
  MarginModules : Z;
  SizePx : Z;
  styling_ECLevel : ECLevel;
  ECLevelEffective : ECLevel;
  LogoBlobKey : string;
  LogoScale : float64;
}.

Record Code := {
  code_ID : string;
  ShortCode : string;
  IsAlias : bool;
  code_UserID : string;
  Mode : CodeMode;
  ClientRef : string;
  Destination : string;
  State : CodeState;
  code_Styling : Styling;
  BlobKey : string;
  BlobETag : string;
  Version : Z;
  code_CreatedAt : Z;
  UpdatedAt : Z;
  DeletedAt : option Z;
}.

Record ScanEvent := {
  ev_CodeID : string;
  OccurredAt : Z;
  UAFamily : string;
  ev_DeviceCategory : DeviceCategory;
  ReferrerHost : string;
  IsBot : bool;
}.

Definition DeviceDesktop : DeviceCategory := "desktop".
Definition DeviceMobile : DeviceCategory := "mobile".
Definition DeviceTablet : DeviceCategory := "tablet".
Definition DeviceTV : DeviceCategory := "tv".
Definition DeviceBot : DeviceCategory := "bot".
Definition DeviceUnknown : DeviceCategory := "unknown".

Definition DimTotal : Dimension := "total".
Definition DimUAFamily : Dimension := "ua_family".
Definition DimDeviceCategory : Dimension := "device_category".
Definition DimReferrerHost : Dimension := "referrer_host".
Definition DimIsBot : Dimension := "is_bot".

Record RollupDelta := {
  rd_CodeID : string;
  HourBucket : Z;
  rd_Dimension : Dimension;
  rd_Value : string;
  rd_Count : Z;
}.

Record ScanBatch := {
  Events : list ScanEvent;
  Rollups : list RollupDelta;
}.

Definition BucketHour : Bucket := "hour".
Definition BucketDay : Bucket := "day".
Definition BucketWeek : Bucket := "week".

Record AnalyticsQuery := {
  q_CodeID : string;
  q_From : Z;
  q_To : Z;
  q_Bucket : Bucket;
}.

Record SeriesPoint := { Start : Z; sp_Count : Z }.
Record BreakdownValue := { bv_Value : string; bv_Count : Z }.

Record AnalyticsResult := {
  Total : Z;
  Series : list SeriesPoint;
  Breakdowns : gmap Dimension (list BreakdownValue);
}.

Record CodeFilter := {
  f_UserID : string;
  CreatedAfter : option Z;
  CreatedBefore : option Z;
  f_Destination : string;
  Limit : Z;
  Cursor : string;
}.

Record AliasReservation := {
  ar_ShortCode : string;
  ar_CodeID : string;
  ReservedAt : Z;
  ReleasedAt : option Z;
}.

#[export] Instance User_eq_dec : EqDecision User. Proof. solve_decision. Defined.
#[export] Instance APIToken_eq_dec : EqDecision APIToken. Proof. solve_decision. Defined.
#[export] Instance Styling_eq_dec : EqDecision Styling. Proof. solve_decision. Defined.
#[export] Instance Code_eq_dec : EqDecision Code. Proof. solve_decision. Defined.
#[export] Instance ScanEvent_eq_dec : EqDecision ScanEvent. Proof. solve_decision. Defined.
#[export] Instance RollupDelta_eq_dec : EqDecision RollupDelta. Proof. solve_decision. Defined.

(** ** [ids.go] *)

Definition idAlphabet : string := "0123456789abcdefghjkmnpqrstvwxyz".
Definition idRandomLen : nat := 16.

(** [idAlphabet[i]]. *)
Definition idChar (i : Z) : ascii :=
  default "0"%char (bytes idAlphabet !! Z.to_nat i).

(** [n] characters from the random bytes that start at offset [off]; each byte
    is masked to five bits. *)
Definition RandomCrockford (rand : nat -> ascii) (off n : nat) : string :=
  of_bytes ((fun i => idChar (Z.land (code (rand (off + i)%nat)) 31)) <$> seq 0 n).

Definition NewID (rand : nat -> ascii) (off : nat) (prefix : string) : string :=
  prefix +:+ "_" +:+ RandomCrockford rand off idRandomLen.

Definition NewUserID (rand : nat -> ascii) (off : nat) : string := NewID rand off "usr".
Definition NewTokenID (rand : nat -> ascii) (off : nat) : string := NewID rand off "tok".
Definition NewCodeID (rand : nat -> ascii) (off : nat) : string := NewID rand off "cod".

(** The alphabet of identifiers: digits and lower-case letters but i, l, o, u. *)
Definition is_crockford (c : ascii) : bool :=
  is_digit c
  || (is_lower c && negb (bool_decide (c ∈ ["i"; "l"; "o"; "u"]%char))).

Lemma idChar_crockford i : 0 <= i < 32 -> is_crockford (idChar i) = true.
Proof.
  intros H.
  assert (Hall : forallb (fun n => is_crockford (idChar (Z.of_nat n))) (seq 0 32) = true)
    by (vm_compute; reflexivity).
  rewrite forallb_forall in Hall.
  specialize (Hall (Z.to_nat i)). rewrite Z2Nat.id in Hall by lia. apply Hall, in_seq. lia.
Qed.

Lemma land_31 z : 0 <= Z.land z 31 < 32.
Proof. change 31 with (Z.ones 5). rewrite Z.land_ones by lia. apply Z.mod_pos_bound. lia. Qed.

Lemma RandomCrockford_chars rand off n :
  string_forall is_crockford (RandomCrockford rand off n) = true.
Proof.
  unfold string_forall, RandomCrockford. rewrite bytes_of_bytes, forallb_forall.
  intros c (i & <- & _)%in_map_iff. apply idChar_crockford, land_31.
Qed.

Lemma RandomCrockford_length rand off n :
  String.length (RandomCrockford rand off n) = n.
Proof.
  unfold RandomCrockford. rewrite <- length_bytes, bytes_of_bytes, length_fmap. apply length_seq.
Qed.

#[export] Hint Resolve RandomCrockford_chars RandomCrockford_length : qurator.
