(* ===== verification/GoUrl.v ===== *)
(** * [net/url] and [path]

    The reading of URLs the program relies on, transcribed from the standard
    library of the toolchain [go.mod] names (1.26): [url.Parse], [Hostname],
    [Port], [String] on an origin, and [path.Clean].  The check that a
    bracketed host is an IPv6 address, and [net.ParseIP], are the operations
    of the class [IPParser].  Parse errors carry no information the program
    reads, so they are [None]. *)
From Stdlib Require Import Ascii String.
From S2P Require Import Prelude GoStrings.
Local Open Scope string_scope.
Local Open Scope Z_scope.

Class IPParser := {
  netip_is_IPv6 : string -> bool;   (* netip.ParseAddr succeeds with an IPv6 address *)
  net_ParseIP : string -> bool;     (* net.ParseIP is not nil *)
}.

(** ** Bytes and strings *)
Definition ascii_in (c : ascii) (s : string) : bool := bool_decide (c ∈ bytes s).
Definition is_alnum (c : ascii) : bool := is_upper c || is_lower c || is_digit c.

Definition ishex (c : ascii) : bool :=
  is_digit c || ((97 <=? code c) && (code c <=? 102)) || ((65 <=? code c) && (code c <=? 70)).
Definition unhex (c : ascii) : Z :=
  if is_digit c then code c - 48 else if 97 <=? code c then code c - 97 + 10 else code c - 65 + 10.
Definition upperhex (z : Z) : ascii := byte_of (if z <? 10 then 48 + z else 55 + z).

(** The parts before and after the last [c]. *)
Fixpoint CutLastByte (s : string) (c : ascii) : option (string * string) :=
  match s with
  | EmptyString => None
  | String d s' =>
      match CutLastByte s' c with
      | Some (a, b) => Some (String d a, b)
      | None => if Ascii.eqb d c then Some (EmptyString, s') else None
      end
  end.

(** The parts before and from the first occurrence of [p]. *)
Fixpoint CutAt (s p : string) : option (string * string) :=
  if HasPrefix s p then Some (EmptyString, s)
  else match s with
  | EmptyString => None
  | String d s' => match CutAt s' p with Some (a, b) => Some (String d a, b) | None => None end
  end.

(** [strings.Join(parts, "/")]. *)
Fixpoint JoinSlash (parts : list string) : string :=
  match parts with
  | [] => ""
  | [p] => p
  | p :: ps => p +:+ "/" +:+ JoinSlash ps
  end.

(** ** [path.Clean]

    The stack of the segments kept so far, last first. *)
Definition clean_step (rooted : bool) (stack : list string) (seg : string) : list string :=
  if String.eqb seg "" || String.eqb seg "." then stack
  else if String.eqb seg ".." then
    match stack with
    | [] => if rooted then [] else [".."]
    | top :: rest => if String.eqb top ".." then ".." :: stack else rest
    end
  else seg :: stack.

Definition path_Clean (p : string) : string :=
  let rooted := HasPrefix p "/" in
  let kept := rev (foldl (clean_step rooted) [] (SplitByte p "/")) in
  if rooted then "/" +:+ JoinSlash kept
  else match kept with [] => "." | _ => JoinSlash kept end.

(** ** Percent-encoding *)
Inductive encoding := encodePath | encodeHost | encodeZone | encodeOther.

Definition shouldEscape (c : ascii) (mode : encoding) : bool :=
  if is_alnum c then false
  else
    let host := match mode with encodeHost | encodeZone => true | _ => false end in
    if host && (ascii_in c "!$&'()*+,;=:[]<>" || (code c =? 34)) then false
    else if ascii_in c "-_.~" then false
    else if ascii_in c "$&+,/:;=?@" then
      match mode with encodePath => Ascii.eqb c "?" | _ => true end
    else true.

(** The [%XX] a host may hold: only non-ASCII bytes, and [%25] before a zone. *)
Definition escape_allowed (mode : encoding) (a b : ascii) : bool :=
  let is25 := Ascii.eqb a "2" && Ascii.eqb b "5" in
  match mode with
  | encodeHost => negb (unhex a <? 8) || is25
  | encodeZone =>
      let v := unhex a * 16 + unhex b in
      is25 || (v =? 32) || negb (shouldEscape (byte_of v) encodeHost)
  | _ => true
  end.

Fixpoint unescape (mode : encoding) (s : string) : option string :=
  match s with
  | EmptyString => Some EmptyString
  | String c s1 =>
      if Ascii.eqb c "%" then
        match s1 with
        | String a (String b s2) =>
            if ishex a && ishex b && escape_allowed mode a b
            then String (byte_of (unhex a * 16 + unhex b)) <$> unescape mode s2
            else None
        | _ => None
        end
      else
        let host := match mode with encodeHost | encodeZone => true | _ => false end in
        if host && (code c <? 128) && shouldEscape c mode then None
        else String c <$> unescape mode s1
  end.

Fixpoint escape (mode : encoding) (s : string) : string :=
  match s with
  | EmptyString => EmptyString
  | String c s' =>
      if shouldEscape c mode
      then String "%" (String (upperhex (code c / 16)) (String (upperhex (code c mod 16)) (escape mode s')))
      else String c (escape mode s')
  end.

(** ** [url.URL] *)
Record URL := {
  Scheme : string;
  Opaque : string;
  url_User : option string;    (* the userinfo, when there is one *)
  Host : string;
  Path : string;
  RawPath : string;
  RawQuery : string;
  ForceQuery : bool;
  Fragment : string;
}.

Section parse.
Context `{U : UnicodeTable} `{IP : IPParser}.

Definition stringContainsCTLByte (s : string) : bool :=
  negb (string_forall (fun c => (32 <=? code c) && negb (code c =? 127)) s).

(** [getScheme]: the scheme and the rest. *)
Fixpoint scheme_scan (first : bool) (s : string) (acc : string) (whole : string)
    : option (string * string) :=
  match s with
  | EmptyString => Some ("", whole)
  | String c s' =>
      if is_upper c || is_lower c then scheme_scan false s' (acc +:+ String c "") whole
      else if is_digit c || ascii_in c "+-." then
        if first then Some ("", whole) else scheme_scan false s' (acc +:+ String c "") whole
      else if Ascii.eqb c ":" then
        if first then None else Some (acc, s')
      else Some ("", whole)
  end.
Definition getScheme (raw : string) : option (string * string) := scheme_scan true raw "" raw.

Definition validOptionalPort (port : string) : bool :=
  match port with
  | EmptyString => true
  | String c ds => Ascii.eqb c ":" && string_forall is_digit ds
  end.

Definition validUserinfo (s : string) : bool :=
  string_forall (fun c => is_alnum c || ascii_in c "-._:~!$&'()*+,;=%@") s.

Definition parseHost (host : string) : option string :=
  match CutLastByte host "[" with
  | Some (pre, _) =>
      if negb (String.eqb pre "") then None
      else match CutLastByte host "]" with
      | None => None
      | Some (open_name, colonPort) =>
          if negb (validOptionalPort colonPort) then None
          else match unescape encodeHost colonPort with
          | None => None
          | Some port =>
              let hostname := drop_bytes 1 open_name in
              let unescaped :=
                match CutAt hostname "%25" with
                | Some (h, z) =>
                    match unescape encodeHost h, unescape encodeZone z with
                    | Some h', Some z' => Some (h' +:+ z')
                    | _, _ => None
                    end
                | None => unescape encodeHost hostname
                end in
              match unescaped with
              | Some name => if netip_is_IPv6 name then Some ("[" +:+ name +:+ "]" +:+ port) else None
              | None => None
              end
          end
      end
  | None =>
      let '(_, rest, colon) := CutByte host ":" in
      if colon && negb (validOptionalPort (":" +:+ rest)) then None
      else unescape encodeHost host
  end.

Definition parseAuthority (authority : string) : option (option string * string) :=
  match CutLastByte authority "@" with
  | None => match parseHost authority with Some h => Some (None, h) | None => None end
  | Some (userinfo, rest) =>
      match parseHost rest with
      | None => None
      | Some h =>
          if negb (validUserinfo userinfo) then None
          else
            let '(user, pass, _) := CutByte userinfo ":" in
            match unescape encodeOther user, unescape encodeOther pass with
            | Some _, Some _ => Some (Some userinfo, h)
            | _, _ => None
            end
      end
  end.

Definition with_path (u : URL) (p : string) : option URL :=
  match unescape encodePath p with
  | None => None
  | Some path =>
      Some {| Scheme := Scheme u; Opaque := Opaque u; url_User := url_User u; Host := Host u;
              Path := path; RawPath := if String.eqb p (escape encodePath path) then "" else p;
              RawQuery := RawQuery u; ForceQuery := ForceQuery u; Fragment := Fragment u |}
  end.

Definition parse (raw : string) : option URL :=
  let url scheme opaque user host path query force :=
    {| Scheme := scheme; Opaque := opaque; url_User := user; Host := host; Path := path;
       RawPath := ""; RawQuery := query; ForceQuery := force; Fragment := "" |} in
  if stringContainsCTLByte raw then None
  else if String.eqb raw "*" then Some (url "" "" None "" "*" "" false)
  else match getScheme raw with
  | None => None
  | Some (scheme, rest) =>
      let scheme := ToLower scheme in
      let '(before, after, has) := CutByte rest "?" in
      let force := has && String.eqb after "" in
      if negb (HasPrefix before "/") && negb (String.eqb scheme "")
      then Some (url scheme before None "" "" after force)
      else if negb (HasPrefix before "/") && ascii_in ":" (CutByte before "/").1.1 then None
      else if (negb (String.eqb scheme "") || negb (HasPrefix before "///")) && HasPrefix before "//" then
        let authority := drop_bytes 2 before in
        let '(auth, path) := default (authority, "") (CutAt authority "/") in
        match parseAuthority auth with
        | None => None
        | Some (user, host) => with_path (url scheme "" user host "" after force) path
        end
      else with_path (url scheme "" None "" "" after force) before
  end.

Definition Parse (raw : string) : option URL :=
  let '(u, frag, _) := CutByte raw "#" in
  match parse u with
  | None => None
  | Some url =>
      if String.eqb frag "" then Some url
      else match unescape encodeOther frag with
      | None => None
      | Some f =>
          Some {| Scheme := Scheme url; Opaque := Opaque url; url_User := url_User url;
                  Host := Host url; Path := Path url; RawPath := RawPath url;
                  RawQuery := RawQuery url; ForceQuery := ForceQuery url; Fragment := f |}
      end
  end.

Definition splitHostPort (hostPort : string) : string * string :=
  let '(host, port) :=
    match CutLastByte hostPort ":" with
    | Some (h, p) => if validOptionalPort (":" +:+ p) then (h, p) else (hostPort, "")
    | None => (hostPort, "")
    end in
  (if HasPrefix host "[" && HasSuffix host "]"
   then take_bytes (String.length host - 2) (drop_bytes 1 host) else host, port).

Definition Hostname (u : URL) : string := (splitHostPort (Host u)).1.
Definition Port (u : URL) : string := (splitHostPort (Host u)).2.
End parse.

(** [strconv.Atoi] on a string of digits (the only kind [Port] returns); its
    range errors are values above every bound the program compares with. *)
Definition Atoi_digits (s : string) : Z :=
  foldl (fun acc c => acc * 10 + (code c - 48)) 0 (bytes s).
