(* ===== verification/Shortcode.v ===== *)
(** * Short codes and aliases ([internal/shortcode])

    The generator of short codes, the reserved words, and the validation of
    custom aliases. *)
From Stdlib Require Import Ascii String.
From S2P Require Import GoLib Domain.
Local Open Scope string_scope.
Local Open Scope Z_scope.

(** ** [generate.go] *)

Definition GeneratedLen : nat := 12.

(** The class of the regular expression [^[0-9a-hjkmnp-tv-z]{12}$]. *)
Definition generated_char (c : ascii) : bool :=
  is_digit c
  || ((code "a" <=? code c) && (code c <=? code "h"))
  || Ascii.eqb c "j" || Ascii.eqb c "k" || Ascii.eqb c "m" || Ascii.eqb c "n"
  || ((code "p" <=? code c) && (code c <=? code "t"))
  || ((code "v" <=? code c) && (code c <=? code "z")).

Definition GeneratedShape (s : string) : bool :=
  (len s =? 12) && string_forall generated_char s.

Definition Generate (rand : nat -> ascii) (off : nat) : string :=
  RandomCrockford rand off GeneratedLen.

Definition IsGeneratedShape (s : string) : bool := GeneratedShape s.

(** ** [reserved.go] *)

Definition reserved : list string := [
  "r"; "i"; "ui"; "assets";
  "v1"; "qr"; "codes"; "disable"; "enable"; "analytics";
  "auth"; "signin"; "signout"; "me";
  "tokens"; "admin"; "aliases"; "export";
  "healthz"; "readyz"; "metrics"; "health"; "ready"; "status"; "ping"; "version";
  "login"; "logout"; "register"; "signup"; "password";
  "reset-password"; "forgot-password"; "change-password";
  "code"; "user"; "users"; "token"; "alias"; "api"; "console";
  "dashboard"; "settings"; "static";
  "robots.txt"; "favicon.ico"; "sitemap.xml"; "humans.txt"; "security.txt";
  ".well-known";
  "verify"; "secure"; "security"; "billing"; "account"; "support"; "help";
  "bank"; "paypal"; "confirm"; "update"; "unsubscribe"].

Definition toLowerASCII (s : string) : string := string_map lower_byte s.

Definition IsReserved (s : string) : bool := bool_decide (toLowerASCII s ∈ reserved).

Definition ReservedWords : list string := sort_Slice str_ltb reserved.

(** ** [alias.go] *)

Definition AliasMinLen : Z := 3.
Definition AliasMaxLen : Z := 64.

Definition isAlphanumeric (c : ascii) : bool :=
  ((code "a" <=? code c) && (code c <=? code "z"))
  || ((code "0" <=? code c) && (code c <=? code "9")).

Definition isAliasChar (c : ascii) : bool := isAlphanumeric c || Ascii.eqb c "-".

(** [a[0]] and [a[len(a)-1]]: read after the length checks, where they exist. *)
Definition first_byte (s : string) : ascii := default "0"%char (head (bytes s)).
Definition last_byte (s : string) : ascii := default "0"%char (last (bytes s)).

Section alias.
Context `{U : UnicodeTable}.

Definition NormalizeAlias (s : string) : string := ToLower (TrimSpace s).

Definition ValidateAlias (s : string) : option error :=
  let a := NormalizeAlias s in
  if len a <? AliasMinLen then Some (ErrAliasTooShort : error)
  else if AliasMaxLen <? len a then Some (ErrAliasTooLong : error)
  else if negb (string_forall isAliasChar a) then Some (ErrAliasBadChar : error)
  else if negb (isAlphanumeric (first_byte a)) || negb (isAlphanumeric (last_byte a))
       then Some (ErrAliasBadEdge : error)
  else if Contains a "--" then Some (ErrAliasDoubleHyphen : error)
  else if IsReserved a then Some (ErrAliasReserved : error)
  else if IsGeneratedShape a then Some (ErrAliasLooksGenerated : error)
  else None.

(** The rules of the package, stated without the order of the checks. *)
Record alias_ok (a : string) : Prop := {
  alias_length : 3 <= len a <= 64;
  alias_charset : forall c, c ∈ bytes a -> isAlphanumeric c = true \/ c = "-"%char;
  alias_edges : isAlphanumeric (first_byte a) = true /\ isAlphanumeric (last_byte a) = true;
  alias_hyphens : Contains a "--" = false;
  alias_free : toLowerASCII a ∉ reserved;
  alias_not_generated : GeneratedShape a = false;
}.

Lemma isAliasChar_spec c : isAliasChar c = true <-> isAlphanumeric c = true \/ c = "-"%char.
Proof. unfold isAliasChar. rewrite orb_true_iff. by rewrite Ascii.eqb_eq. Qed.


Lemma ValidateAlias_ok s : ValidateAlias s = None -> alias_ok (NormalizeAlias s).
Proof.
  unfold ValidateAlias, AliasMinLen, AliasMaxLen, IsReserved, IsGeneratedShape. intros H.
  repeat match type of H with (if ?b then _ else _) = _ => destruct b eqn:?; [done|] end.
  bool_to_prop. split; try done; try lia.
  intros c Hc. apply isAliasChar_spec.
  by apply (proj1 (string_forall_spec isAliasChar (NormalizeAlias s))).
Qed.

Lemma alias_ok_Validate s : alias_ok (NormalizeAlias s) -> ValidateAlias s = None.
Proof.
  intros [Hl Hc [He1 He2] Hh Hr Hg].
  unfold ValidateAlias, AliasMinLen, AliasMaxLen, IsReserved, IsGeneratedShape.
  destruct (Z.ltb_spec (len (NormalizeAlias s)) 3); [lia|].
  destruct (Z.ltb_spec 64 (len (NormalizeAlias s))); [lia|].
  assert (E : string_forall isAliasChar (NormalizeAlias s) = true).
  { apply string_forall_spec. intros c Hin. by apply isAliasChar_spec, Hc. }
  by rewrite E, He1, He2, Hh, bool_decide_eq_false_2, Hg by done.
Qed.

(** Every failure is one of the package's errors and wraps [ErrAliasInvalid]. *)
Lemma ValidateAlias_error s e :
  ValidateAlias s = Some e -> errors_Is e ErrAliasInvalid = true.
Proof. unfold ValidateAlias. intros H. repeat case_match; simplify_eq; reflexivity. Qed.
End alias.

(** ** Alias characters are graphic lower-case ASCII *)

Lemma isAliasChar_graph c : isAliasChar c = true -> is_graph c = true.
Proof.
  unfold isAliasChar, isAlphanumeric, is_graph. intros H.
  apply orb_prop in H as [[H|H]%orb_prop|H].
  - apply andb_prop in H as [H1 H2]. bool_to_prop.
    change (code "a") with 97 in *. change (code "z") with 122 in *. apply andb_true_intro. lia.
  - apply andb_prop in H as [H1 H2]. bool_to_prop.
    change (code "0") with 48 in *. change (code "9") with 57 in *. apply andb_true_intro. lia.
  - apply Ascii.eqb_eq in H as ->. reflexivity.
Qed.

Lemma isAliasChar_lower c : isAliasChar c = true -> is_ascii c && negb (is_upper c) = true.
Proof.
  unfold isAliasChar, isAlphanumeric, is_ascii, is_upper. intros H.
  apply orb_prop in H as [[H|H]%orb_prop|H].
  - apply andb_prop in H as [H1 H2]. bool_to_prop.
    change (code "a") with 97 in *. change (code "z") with 122 in *.
    destruct (Z.ltb_spec (code c) 128), (Z.leb_spec 65 (code c)), (Z.leb_spec (code c) 90);
      simpl; lia.
  - apply andb_prop in H as [H1 H2]. bool_to_prop.
    change (code "0") with 48 in *. change (code "9") with 57 in *.
    destruct (Z.ltb_spec (code c) 128), (Z.leb_spec 65 (code c)), (Z.leb_spec (code c) 90);
      simpl; lia.
  - apply Ascii.eqb_eq in H as ->. reflexivity.
Qed.

(** A key is a string of alias characters: trimming and lower-casing leave it
    alone.  Every alias and every generated code is one. *)
Definition is_key (s : string) : bool := string_forall isAliasChar s.

Lemma is_key_TrimSpace s : is_key s = true -> TrimSpace s = s.
Proof. intros H. apply TrimSpace_graph. exact (string_forall_impl _ _ s isAliasChar_graph H). Qed.

Lemma is_key_ToLower `{UnicodeTable} s : is_key s = true -> ToLower s = s.
Proof. intros H0. apply ToLower_id. exact (string_forall_impl _ _ s isAliasChar_lower H0). Qed.

Lemma is_key_normal `{UnicodeTable} s : is_key s = true -> NormalizeAlias s = s.
Proof.
  intros Hs. unfold NormalizeAlias. rewrite is_key_TrimSpace by done. by apply is_key_ToLower.
Qed.

Lemma alias_ok_key `{UnicodeTable} s : ValidateAlias s = None -> is_key (NormalizeAlias s) = true.
Proof.
  intros H0. apply string_forall_spec. intros c Hc. apply isAliasChar_spec.
  by apply (alias_charset _ (ValidateAlias_ok s H0)).
Qed.

Lemma crockford_bytes (P : ascii -> bool) :
  forallb (fun n => implb (is_crockford (ascii_of_nat n)) (P (ascii_of_nat n))) (seq 0 256) = true ->
  forall c, is_crockford c = true -> P c = true.
Proof.
  intros H c Hc. rewrite forallb_forall in H.
  specialize (H (nat_of_ascii c)). rewrite ascii_nat_embedding, Hc in H. apply H, in_seq.
  pose proof (nat_ascii_bounded c). lia.
Qed.

Lemma crockford_generated c : is_crockford c = true -> generated_char c = true.
Proof. apply crockford_bytes. vm_compute. reflexivity. Qed.

Lemma crockford_alias c : is_crockford c = true -> isAliasChar c = true.
Proof. apply crockford_bytes. vm_compute. reflexivity. Qed.

Lemma Generate_shape rand off : GeneratedShape (Generate rand off) = true.
Proof.
  unfold GeneratedShape, Generate, len. rewrite RandomCrockford_length. simpl.
  apply (string_forall_impl is_crockford generated_char); [exact crockford_generated|].
  apply RandomCrockford_chars.
Qed.

Lemma Generate_key rand off : is_key (Generate rand off) = true.
Proof.
  apply (string_forall_impl is_crockford isAliasChar); [exact crockford_alias|].
  apply RandomCrockford_chars.
Qed.

#[export] Hint Resolve Generate_key Generate_shape alias_ok_key : qurator.
#[export] Hint Rewrite @is_key_ToLower is_key_TrimSpace using done : qurator.

(** ** Properties *)

(** [ValidateAlias] accepts exactly the aliases whose normal form has 3 to
    64 characters of [a-z0-9-], an alphanumeric first and last one, no double
    hyphen, is not reserved and does not look generated. *)
Theorem ValidateAlias_exact `{UnicodeTable} (s : string) :
  ValidateAlias s = None <-> alias_ok (NormalizeAlias s).
Proof. split; [apply ValidateAlias_ok | apply alias_ok_Validate]. Qed.

(** The two kinds of short code never meet: a generated code always has
    the generated shape, and no accepted alias equals one. *)
Theorem alias_never_generated `{UnicodeTable} (s : string) (rand : nat -> ascii) (off : nat) :
  ValidateAlias s = None ->
  IsGeneratedShape (Generate rand off) = true /\ NormalizeAlias s <> Generate rand off.
Proof.
  intros Hv. split; [apply Generate_shape|]. intros E.
  pose proof (alias_not_generated _ (ValidateAlias_ok s Hv)) as Hg.
  rewrite E, Generate_shape in Hg. done.
Qed.

Lemma alias_never_generated_witness :
  @ValidateAlias ascii_unicode " Spring-Sale " = None
  /\ @NormalizeAlias ascii_unicode " Spring-Sale " <> Generate (fun _ => "a"%char) 0.
Proof.
  split; [vm_compute; reflexivity|].
  apply (@alias_never_generated ascii_unicode " Spring-Sale " (fun _ => "a"%char) 0%nat).
  vm_compute. reflexivity.
Defined.
