(* ===== verification/Base64.v ===== *)
(** * Unpadded base64 ([encoding/base64]) and lower-case base32

    The encodings behind list cursors, API tokens, password hashes and
    identifiers.  [RawURLEncoding] and [RawStdEncoding] differ by their
    alphabet only. *)
From Stdlib Require Import Ascii String.
From S2P Require Import GoLib.
Local Open Scope string_scope.
Local Open Scope Z_scope.

Definition alphabet_std : string :=
  "ABCDEFGHIJKLMNOPQRSTUVWXYZabcdefghijklmnopqrstuvwxyz0123456789+/".
Definition alphabet_url : string :=
  "ABCDEFGHIJKLMNOPQRSTUVWXYZabcdefghijklmnopqrstuvwxyz0123456789-_".

Definition enc_char (alpha : string) (v : Z) : ascii :=
  default "A"%char (bytes alpha !! Z.to_nat v).

Fixpoint index_of (c : ascii) (l : list ascii) : option Z :=
  match l with
  | [] => None
  | d :: l' => if Ascii.eqb c d then Some 0 else Z.succ <$> index_of c l'
  end.
Definition dec_char (alpha : string) (c : ascii) : option Z := index_of c (bytes alpha).

(** Three bytes make four six-bit digits; one or two trailing bytes make two
    or three. *)
Fixpoint encode_digits (l : list Z) : list Z :=
  match l with
  | a :: b :: c :: l' =>
      a / 4 :: (a mod 4) * 16 + b / 16 :: (b mod 16) * 4 + c / 64 :: c mod 64 :: encode_digits l'
  | [a; b] => [a / 4; (a mod 4) * 16 + b / 16; (b mod 16) * 4]
  | [a] => [a / 4; (a mod 4) * 16]
  | [] => []
  end.

(** The inverse; the unused bits of a trailing digit are ignored, as Go's
    non-strict decoder does, and a single trailing digit is an error. *)
Fixpoint decode_digits (l : list Z) : option (list Z) :=
  match l with
  | a :: b :: c :: d :: l' =>
      rest ← decode_digits l';
      Some (a * 4 + b / 16 :: (b mod 16) * 16 + c / 4 :: (c mod 4) * 64 + d :: rest)
  | [a; b; c] => Some [a * 4 + b / 16; (b mod 16) * 16 + c / 4]
  | [a; b] => Some [a * 4 + b / 16]
  | [_] => None
  | [] => Some []
  end.

Definition EncodeToString (alpha : string) (l : list ascii) : string :=
  of_bytes (enc_char alpha <$> encode_digits (code <$> l)).

Definition is_newline (c : ascii) : bool := (code c =? 10) || (code c =? 13).

(** [DecodeString]: line breaks are skipped, any other byte outside the
    alphabet is an error. *)
Definition DecodeString (alpha : string) (s : string) : option (list ascii) :=
  digits ← mapM (dec_char alpha) (filter (fun c => is_newline c = false) (bytes s));
  fmap (M := list) byte_of <$> decode_digits digits.

(** [base64.StdEncoding]: the alphabet of [RawStdEncoding], padded to a
    multiple of four. *)
Definition padding (n : nat) : string := match n mod 3 with 1 => "==" | 2 => "=" | _ => "" end%nat.
Definition EncodeStd (l : list ascii) : string := EncodeToString alphabet_std l +:+ padding (length l).

(** What is left of the digits once the one or two padding bytes are off. *)
Definition strip_padding (l : list ascii) : list ascii :=
  match rev l with
  | c :: d :: r => if Ascii.eqb c "=" then if Ascii.eqb d "=" then rev r else rev (d :: r) else l
  | _ => l
  end.

(** Its [DecodeString]: padding is required, and only at the end. *)
Definition DecodeStd (s : string) : option (list ascii) :=
  let l := filter (fun c => is_newline c = false) (bytes s) in
  if negb (Nat.eqb (length l mod 4) 0) then None
  else DecodeString alphabet_std (of_bytes (strip_padding l)).

(** ** The round trip *)

Definition good_alphabet (alpha : string) : Prop :=
  forall v, 0 <= v < 64 ->
    dec_char alpha (enc_char alpha v) = Some v /\ is_newline (enc_char alpha v) = false.

Lemma good_alphabet_check alpha :
  forallb (fun n => bool_decide (dec_char alpha (enc_char alpha (Z.of_nat n)) = Some (Z.of_nat n))
                    && negb (is_newline (enc_char alpha (Z.of_nat n)))) (seq 0 64) = true ->
  good_alphabet alpha.
Proof.
  intros H v Hv. rewrite forallb_forall in H. specialize (H (Z.to_nat v)).
  rewrite Z2Nat.id in H by lia.
  assert (Hin : In (Z.to_nat v) (seq 0 64)) by (apply in_seq; lia).
  apply H, andb_prop in Hin as [H1 H2]. bool_to_prop. done.
Qed.

Lemma good_alphabet_url : good_alphabet alphabet_url.
Proof. apply good_alphabet_check. vm_compute. reflexivity. Qed.
Lemma good_alphabet_std : good_alphabet alphabet_std.
Proof. apply good_alphabet_check. vm_compute. reflexivity. Qed.

Definition byte_range (z : Z) : Prop := 0 <= z < 256.
Definition digit_range (z : Z) : Prop := 0 <= z < 64.

(** Induction three elements at a time. *)
Lemma list_ind3 {A} (P : list A -> Prop) :
  P [] -> (forall a, P [a]) -> (forall a b, P [a; b]) ->
  (forall a b c l, P l -> P (a :: b :: c :: l)) -> forall l, P l.
Proof.
  intros H0 H1 H2 H3. fix rec 1. intros [|a [|b [|c l]]]; [done..|]. apply H3, rec.
Qed.

Lemma encode_digits_range l : Forall byte_range l -> Forall digit_range (encode_digits l).
Proof.
  unfold byte_range, digit_range. revert l. refine (list_ind3 _ _ _ _ _).
  - done.
  - intros a Ha. inversion_clear Ha. cbn. repeat (constructor; [dlia|]). constructor.
  - intros a b Ha. inversion_clear Ha as [|?? H1 Hb]. inversion_clear Hb. cbn.
    repeat (constructor; [dlia|]). constructor.
  - intros a b c l IH Ha. inversion_clear Ha as [|?? H1 Hb]. inversion_clear Hb as [|?? H2 Hc].
    inversion_clear Hc. cbn. repeat (constructor; [dlia|]). auto.
Qed.

Lemma decode_encode_digits l : Forall byte_range l -> decode_digits (encode_digits l) = Some l.
Proof.
  unfold byte_range. revert l. refine (list_ind3 _ _ _ _ _).
  - done.
  - intros a Ha. inversion_clear Ha. cbn. repeat (f_equal; try dlia).
  - intros a b Ha. inversion_clear Ha as [|?? H1 Hb]. inversion_clear Hb. cbn.
    repeat (f_equal; try dlia).
  - intros a b c l IH Ha. inversion_clear Ha as [|?? H1 Hb]. inversion_clear Hb as [|?? H2 Hc].
    inversion_clear Hc. cbn. rewrite IH by done. cbn. repeat (f_equal; try dlia).
Qed.

Lemma mapM_dec_enc alpha l :
  good_alphabet alpha -> Forall digit_range l ->
  mapM (dec_char alpha) (filter (fun c => is_newline c = false) (enc_char alpha <$> l)) = Some l.
Proof.
  intros Ha. induction 1 as [|v l Hv Hl IH]; [done|].
  rewrite fmap_cons, filter_cons. destruct (Ha v Hv) as [Hd Hn].
  rewrite decide_True by done. simpl. by rewrite Hd, IH.
Qed.

Lemma decode_encode alpha l :
  good_alphabet alpha -> DecodeString alpha (EncodeToString alpha l) = Some l.
Proof.
  intros Ha. unfold DecodeString, EncodeToString. rewrite bytes_of_bytes.
  assert (Hr : Forall byte_range (code <$> l)).
  { apply Forall_fmap, Forall_true. intros c. apply code_bounds. }
  rewrite mapM_dec_enc by (done || by apply encode_digits_range). simpl.
  rewrite decode_encode_digits by done. simpl. f_equal.
  rewrite <- list_fmap_compose. rewrite <- (list_fmap_id l) at 2.
  apply list_fmap_ext. intros i c _. apply byte_of_code.
Qed.

Lemma encode_digits_length l :
  length (encode_digits l) = ((length l * 4 + 2) / 3)%nat.
Proof.
  revert l. refine (list_ind3 _ _ _ _ _); [done..|].
  intros a b c l IH. cbn [encode_digits length]. rewrite IH.
  change (S (S (S (length l))))%nat with (3 + length l)%nat.
  replace ((3 + length l) * 4 + 2)%nat with (length l * 4 + 2 + 4 * 3)%nat by lia.
  rewrite Nat.div_add by lia. lia.
Qed.

Lemma EncodeToString_length alpha l :
  String.length (EncodeToString alpha l) = ((length l * 4 + 2) / 3)%nat.
Proof.
  unfold EncodeToString. rewrite <- length_bytes, bytes_of_bytes, length_fmap, encode_digits_length.
  by rewrite length_fmap.
Qed.

#[export] Hint Resolve good_alphabet_url good_alphabet_std : qurator.

(** ** The padded round trip *)
Lemma EncodeToString_no_newline alpha l :
  good_alphabet alpha -> filter (fun c => is_newline c = false) (bytes (EncodeToString alpha l)) = bytes (EncodeToString alpha l).
Proof.
  intros Ha. unfold EncodeToString. rewrite bytes_of_bytes.
  assert (Hr : Forall digit_range (encode_digits (code <$> l))).
  { apply encode_digits_range, Forall_fmap, Forall_true. intros c. apply code_bounds. }
  induction Hr as [|v k Hv Hk IH]; [done|]. rewrite fmap_cons, filter_cons. destruct (Ha v Hv) as [_ Hn].
  by rewrite decide_True, IH.
Qed.

Lemma std_no_padding l : Forall (fun c => Ascii.eqb c "=" = false) (bytes (EncodeToString alphabet_std l)).
Proof.
  unfold EncodeToString. rewrite bytes_of_bytes. apply Forall_fmap, Forall_true. intros v. unfold compose, enc_char.
  destruct (bytes alphabet_std !! Z.to_nat v) as [c|] eqn:E; [|vm_compute; reflexivity]. apply list_elem_of_lookup_2 in E. simpl.
  assert (Hall : forallb (fun c => negb (Ascii.eqb c "=")) (bytes alphabet_std) = true) by (vm_compute; reflexivity).
  rewrite forallb_forall in Hall. apply negb_true_iff, Hall. by apply list_elem_of_In.
Qed.

Lemma strip_padding_app l p :
  Forall (fun c => Ascii.eqb c "=" = false) l -> p = [] \/ p = ["="]%char \/ p = ["="; "="]%char ->
  (p = ["="]%char -> l <> []) -> strip_padding (l ++ p) = l.
Proof.
  intros Hl Hp Hne. unfold strip_padding. rewrite rev_app_distr.
  assert (Hr : forall c r, rev l = c :: r -> Ascii.eqb c "=" = false /\ rev (c :: r) = l).
  { intros c r E. split; [|by rewrite <- E, rev_involutive]. rewrite Forall_forall in Hl. apply Hl.
    apply list_elem_of_In, in_rev. rewrite E. by left. }
  destruct Hp as [->|[->| ->]].
  - simpl. rewrite app_nil_r. destruct (rev l) as [|c [|d r]]; [done..|]. by destruct (Hr c (d :: r) eq_refl) as [-> _].
  - simpl. destruct (rev l) as [|c r] eqn:E.
    + exfalso. apply (Hne eq_refl). by rewrite <- (rev_involutive l), E.
    + destruct (Hr c r eq_refl) as [-> H]. done.
  - simpl. by rewrite rev_involutive.
Qed.

Lemma padding_length (n : nat) :
  (((n * 4 + 2) / 3 + String.length (padding n)) mod 4 = 0)%nat /\
  (padding n = "" \/ padding n = "=" /\ n <> 0%nat \/ padding n = "==").
Proof.
  pose proof (Nat.div_mod n 3 ltac:(lia)) as Hd. pose proof (Nat.mod_upper_bound n 3 ltac:(lia)) as Hm.
  unfold padding. remember (n / 3)%nat as k. remember (n mod 3)%nat as r. clear Heqk Heqr.
  destruct r as [|[|[|]]]; [| | |lia]; subst n; split; try (auto; fail).
  - replace ((3 * k + 0) * 4 + 2)%nat with (2 + (4 * k) * 3)%nat by lia. rewrite Nat.div_add by lia.
    simpl String.length. replace (2 / 3 + 4 * k + 0)%nat with (0 + k * 4)%nat by (simpl; lia). by rewrite Nat.Div0.mod_add.
  - replace ((3 * k + 1) * 4 + 2)%nat with (6 + (4 * k) * 3)%nat by lia. rewrite Nat.div_add by lia.
    simpl String.length. replace (6 / 3 + 4 * k + 2)%nat with (0 + (S k) * 4)%nat by (simpl; lia). by rewrite Nat.Div0.mod_add.
  - replace ((3 * k + 2) * 4 + 2)%nat with (10 + (4 * k) * 3)%nat by lia. rewrite Nat.div_add by lia.
    simpl String.length. replace (10 / 3 + 4 * k + 1)%nat with (0 + (S k) * 4)%nat by (simpl; lia). by rewrite Nat.Div0.mod_add.
  - right. left. split; [done|lia].
Qed.

Lemma DecodeStd_EncodeStd l : DecodeStd (EncodeStd l) = Some l.
Proof.
  destruct (padding_length (length l)) as [Hlen Hpad]. unfold DecodeStd, EncodeStd. cbv zeta.
  rewrite bytes_app, filter_app, EncodeToString_no_newline by apply good_alphabet_std.
  assert (Hp : filter (fun c => is_newline c = false) (bytes (padding (length l))) = bytes (padding (length l)))
    by (destruct Hpad as [->|[[-> _]| ->]]; reflexivity).
  rewrite Hp, length_app, !length_bytes, EncodeToString_length, Hlen. cbn [Nat.eqb negb].
  rewrite strip_padding_app.
  - rewrite of_bytes_bytes. apply decode_encode, good_alphabet_std.
  - apply std_no_padding.
  - destruct Hpad as [->|[[-> _]| ->]]; auto.
  - intros E H. destruct Hpad as [E'|[[_ Hn]|E']]; [by rewrite E' in E| |by rewrite E' in E].
    apply (f_equal length) in H. rewrite length_bytes, EncodeToString_length in H. cbn [length] in H.
    pose proof (Nat.Div0.div_le_mono 6 (length l * 4 + 2) 3 ltac:(lia)) as Hd. change (6 / 3)%nat with 2%nat in Hd. lia.
Qed.
