(* ===== verification/Destination.v ===== *)
(** * Scan origins and destinations ([internal/domain/scan_origin.go], the
    destination rules of [internal/codes/service.go])

    What the operator may configure as the origin printed in dynamic codes,
    and what a code may redirect to. *)
From Stdlib Require Import Ascii String.
From S2P Require Import GoLib GoUrl Domain.
Local Open Scope string_scope.
Local Open Scope Z_scope.

(** ** [ParseScanOrigin] *)
Section origin.
Context `{U : UnicodeTable} `{IP : IPParser}.

Definition clear_path (u : URL) : URL :=
  {| Scheme := Scheme u; Opaque := Opaque u; url_User := url_User u; Host := Host u; Path := "";
     RawPath := RawPath u; RawQuery := RawQuery u; ForceQuery := ForceQuery u; Fragment := Fragment u |}.

Definition ParseScanOrigin (raw : string) : result (option URL) :=
  if String.eqb raw "" then Ok None
  else
    let bad : result (option URL) := Err (NewErr
      "must be an absolute http or https origin without credentials, path prefix, query, or fragment") in
    match Parse raw with
    | None => bad
    | Some u =>
        if negb (String.eqb (Scheme u) "http") && negb (String.eqb (Scheme u) "https")
           || String.eqb (Hostname u) "" || bool_decide (is_Some (url_User u))
           || negb (String.eqb (Path u) "") && negb (String.eqb (Path u) "/")
           || negb (String.eqb (RawPath u) "") || negb (String.eqb (RawQuery u) "") || ForceQuery u
           || Contains raw "#" || HasSuffix (Host u) ":"
        then bad
        else
          let port := Port u in
          if negb (String.eqb port "") && ((Atoi_digits port <? 1) || (65535 <? Atoi_digits port))
          then Err (NewErr "port must be between 1 and 65535")
          else if Contains (Hostname u) ":" && negb (net_ParseIP (Hostname u))
          then Err (NewErr "invalid IP host")
          else Ok (Some (clear_path u))
    end.

(** [URL.String] of a URL that is a scheme and a host, as every origin is. *)
Definition URL_String (u : URL) : string := Scheme u +:+ "://" +:+ escape encodeHost (Host u).
End origin.

(** ** Destinations *)

(** [sortStrings]: insertion of each element into the sorted prefix, from its
    end. *)
Fixpoint insert_from_end (x : string) (rev_prefix : list string) : list string :=
  match rev_prefix with
  | [] => [x]
  | y :: ys => if str_ltb x y then y :: insert_from_end x ys else x :: rev_prefix
  end.
Definition sortStrings (a : list string) : list string :=
  rev (foldl (fun rev_prefix x => insert_from_end x rev_prefix) [] a).

Definition MaxDestinationLength : Z := 2048.

Section destination.
Context `{U : UnicodeTable} `{IP : IPParser}.
Context (base : option URL) (schemes : gset string).

Definition AllowedSchemes : list string := sortStrings (elements schemes).

Definition effectivePort (u : URL) : string :=
  if negb (String.eqb (Port u) "") then Port u
  else
    let s := ToLower (Scheme u) in
    if String.eqb s "http" || String.eqb s "" then "80"
    else if String.eqb s "https" then "443" else "".

Definition sameOrigin (a b : URL) : bool :=
  if negb (EqualFold (Hostname a) (Hostname b)) then false
  else
    let pa := if String.eqb (Scheme a) "" && String.eqb (Port a) ""
              then effectivePort b else effectivePort a in
    String.eqb pa (effectivePort b).

Definition isSelfReferential (u : URL) : bool :=
  let p := ToLower (path_Clean ("/" +:+ Path u)) in
  let onScanPath := String.eqb p "/r" || HasPrefix p "/r/" in
  if negb onScanPath then false
  else if String.eqb (Host u) "" then true
  else match base with
  | None => false
  | Some b => sameOrigin u b
  end.

Definition vErr (e : error) (details : list (string * detail)) : error := ValidationError e details.

Definition ValidateDestination (raw : string) : option error :=
  let raw := TrimSpace raw in
  let invalid := vErr ErrInvalidDestination [("field", DStr "destination")] in
  if String.eqb raw "" then Some invalid
  else if MaxDestinationLength <? RuneCountInString raw
  then Some (vErr ErrDestinationTooLong
               [("field", DStr "destination"); ("max_length", DInt MaxDestinationLength)])
  else match Parse raw with
  | None => Some invalid
  | Some u =>
      if isSelfReferential u then Some (vErr ErrSelfReferential [])
      else
        let scheme := ToLower (Scheme u) in
        if bool_decide (scheme ∉ schemes)
        then Some (vErr ErrUnsupportedScheme [("scheme", DStr scheme); ("allowed", DStrs AllowedSchemes)])
        else if String.eqb (Host u) "" then Some invalid
        else None
  end.
End destination.
