(* ===== verification/QrPolicy.v ===== *)
(** * QR policy ([internal/qr/encode.go], [policy.go], [logo.go])

    The limits a render is held to: payload capacity per error-correction
    level, configured bounds, and the level a logo forces. *)
From Stdlib Require Import Ascii String.
From S2P Require Import GoLib Domain.
Local Open Scope string_scope.
Local Open Scope Z_scope.

(** ** Levels ([encode.go]) *)
Definition Capacity (ec : ECLevel) : Z :=
  if String.eqb ec ECLow then 2953
  else if String.eqb ec ECMedium then 2331
  else if String.eqb ec ECQuartile then 1663
  else if String.eqb ec ECHigh then 1273
  else 0.

Definition levelOrder : list ECLevel := [ECLow; ECMedium; ECQuartile; ECHigh].

Fixpoint index_of (ec : ECLevel) (l : list ECLevel) (i : Z) : Z :=
  match l with
  | [] => -1
  | x :: l' => if String.eqb x ec then i else index_of ec l' (i + 1)
  end.
Definition levelRank (ec : ECLevel) : Z := index_of ec levelOrder 0.

(** ** Bounds ([policy.go]) *)
Record Bounds := { MaxPx : Z; MaxDuration : Z; MaxPayload : Z }.

Definition DefaultBounds : Bounds := {| MaxPx := 4096; MaxDuration := 2 * Second; MaxPayload := 2953 |}.

Definition normalised (b : Bounds) : Bounds :=
  {| MaxPx := if MaxPx b <=? 0 then MaxPx DefaultBounds else MaxPx b;
     MaxDuration := MaxDuration b;
     MaxPayload := if MaxPayload b <=? 0 then MaxPayload DefaultBounds else MaxPayload b |}.

Definition checkSize (b : Bounds) (px : Z) : option error :=
  if MaxPx b <? px then Some (DimensionsExceededError px (MaxPx b)) else None.

Definition payloadLimit (b : Bounds) (ec : ECLevel) : Z :=
  let limit := Capacity ec in
  if MaxPayload b <? limit then MaxPayload b else limit.

Definition checkPayload (b : Bounds) (n : Z) (ec : ECLevel) : option error :=
  let limit := payloadLimit b ec in
  if limit <? n then Some (ContentTooLargeError limit n ec) else None.

(** A deadline is a render timeout; a cancellation passes through. *)
Definition budgetError (b : Bounds) (e : error) : error :=
  if errors_Is e DeadlineExceeded then RenderTimeoutError (MaxDuration b) else e.

(** ** Logos ([logo.go]) *)
Definition MaxLogoBytes : Z := Z.shiftl 2 20.
Definition MaxLogoPixels : Z := 2048.
Definition MaxLogoScale : float64 := f64_lit 25 100.

Definition LogoBudget (ec : ECLevel) : float64 :=
  if String.eqb ec ECLow then f64_lit 5 100
  else if String.eqb ec ECMedium then f64_lit 12 100
  else if String.eqb ec ECQuartile then f64_lit 20 100
  else if String.eqb ec ECHigh then f64_lit 25 100
  else f64_zero.

Fixpoint first_level (scale : float64) (ls : list ECLevel) : option ECLevel :=
  match ls with
  | [] => None
  | l :: ls' => if f64_leb scale (LogoBudget l) then Some l else first_level scale ls'
  end.

Definition resolveLogoLevel (requested : ECLevel) (scale : float64) (autoRaise : bool) : result ECLevel :=
  if f64_leb scale (LogoBudget requested) then Ok requested
  else if negb autoRaise then Err (LogoTooLargeError scale (LogoBudget requested) requested)
  else match first_level scale (drop (Z.to_nat (levelRank requested + 1)) levelOrder) with
  | Some l => Ok l
  | None => Err (LogoTooLargeError scale (LogoBudget ECHigh) ECHigh)
  end.
