(* ===== verification/Blob.v ===== *)
(** * Blob storage ([internal/blob], [internal/blob/blobtest/memblob.go])

    [ValidateKey], the contract every driver implements (a class of
    operations, and a class of the laws its clients may rely on), and the
    in-memory driver, which satisfies it. *)
From Stdlib Require Import Ascii String.
From S2P Require Import GoLib GoUrl Base64.
Local Open Scope string_scope.
Local Open Scope Z_scope.

(** ** Keys ([key.go]) *)
Definition ValidateKey (key : string) : option error :=
  if String.eqb key "" || (512 <? len key) || ascii_in "000" key || HasPrefix key "/"
     || HasPrefix key "\" || Contains key "\" || Contains key "//"
  then Some (ErrInvalidKey : error)
  else if existsb (fun seg => String.eqb seg "." || String.eqb seg "..") (SplitByte key "/")
  then Some (ErrInvalidKey : error)
  else if negb (String.eqb (path_Clean key) key) then Some (ErrInvalidKey : error)
  else None.

(** ** The contract ([blob.go]) *)
Record BlobInfo := {
  bi_Key : string;
  bi_Size : Z;
  bi_ContentType : string;
  bi_ETag : string;
  bi_ModTime : Z;
}.

(** A reader is the bytes it yields. *)
Class BlobStore (B : Type) := {
  blob_Put : Env -> string -> list ascii -> Z -> string -> B -> result string * B;
  blob_Get : Env -> string -> B -> result (list ascii * BlobInfo);
  blob_Stat : Env -> string -> B -> result BlobInfo;
  blob_Delete : Env -> string -> B -> result unit * B;
}.

(** The optional capability of handing out addresses. *)
Class URLer := {
  url_PublicURL : string -> string -> result string;
  url_PresignedURL : Env -> string -> Z -> result string;
}.

(** What clients rely on: the store is a map from keys to objects, an operation
    touches no other key than its own (a failing one may leave that key in any
    state), what is reported missing is missing, and an entity tag is stable. *)
Class BlobLaws (B : Type) `{BlobStore B} := {
  objects : B -> gmap string (list ascii * string);
  blob_Put_Ok env k d n ct b etag b' :
    blob_Put env k d n ct b = (Ok etag, b') ->
    objects b' = <[k := (d, ct)]> (objects b) /\
    forall env', exists t, blob_Stat env' k b' =
      Ok {| bi_Key := k; bi_Size := Z.of_nat (length d); bi_ContentType := ct; bi_ETag := etag; bi_ModTime := t |};
  blob_Put_Err env k d n ct b e b' :
    blob_Put env k d n ct b = (Err e, b') -> forall k', k' <> k -> objects b' !! k' = objects b !! k';
  blob_Delete_Ok env k b b' :
    blob_Delete env k b = (Ok tt, b') -> objects b' = delete k (objects b);
  blob_Delete_Err env k b e b' :
    blob_Delete env k b = (Err e, b') ->
    (forall k', k' <> k -> objects b' !! k' = objects b !! k')
    /\ (errors_Is e ErrBlobNotFound = true -> objects b' = objects b /\ objects b !! k = None);
  blob_Get_Ok env k b d info :
    blob_Get env k b = Ok (d, info) ->
    objects b !! k = Some (d, bi_ContentType info) /\ bi_Size info = Z.of_nat (length d)
    /\ blob_Stat env k b = Ok info;
}.

(** ** [crypto/sha256] *)
Class SHA256 := { sha256_Sum256 : list ascii -> list ascii }.

Definition hex_digit (z : Z) : ascii := byte_of (if z <? 10 then 48 + z else 87 + z).
Definition hex_EncodeToString (l : list ascii) : string :=
  of_bytes (concat ((fun c => [hex_digit (code c / 16); hex_digit (code c mod 16)]) <$> l)).

(** ** The in-memory driver *)
Record memEntry := { me_data : list ascii; me_contentType : string; me_etag : string; me_modTime : Z }.
Notation memBlob := (gmap string memEntry).
Definition NewMemBlob : memBlob := ∅.

Section memblob.
Context `{D : SHA256}.

Definition etagFor (data : list ascii) : string := hex_EncodeToString (sha256_Sum256 data).

Definition mb_Put (env : Env) (key : string) (r : list ascii) (size : Z) (contentType : string)
    (m : memBlob) : result string * memBlob :=
  match ValidateKey key with
  | Some e => (Err e, m)
  | None =>
      let etag := etagFor r in
      (Ok etag, <[key := {| me_data := r; me_contentType := contentType; me_etag := etag;
                            me_modTime := time_Now env |}]> m)
  end.

Definition info_of (key : string) (e : memEntry) : BlobInfo :=
  {| bi_Key := key; bi_Size := Z.of_nat (length (me_data e)); bi_ContentType := me_contentType e;
     bi_ETag := me_etag e; bi_ModTime := me_modTime e |}.

Definition mb_Get (env : Env) (key : string) (m : memBlob) : result (list ascii * BlobInfo) :=
  match ValidateKey key with
  | Some e => Err e
  | None =>
      match m !! key with
      | None => Err (ErrBlobNotFound : error)
      | Some e => Ok (me_data e, info_of key e)
      end
  end.

Definition mb_Stat (env : Env) (key : string) (m : memBlob) : result BlobInfo :=
  match ValidateKey key with
  | Some e => Err e
  | None =>
      match m !! key with
      | None => Err (ErrBlobNotFound : error)
      | Some e => Ok (info_of key e)
      end
  end.

Definition mb_Delete (env : Env) (key : string) (m : memBlob) : result unit * memBlob :=
  match ValidateKey key with
  | Some e => (Err e, m)
  | None =>
      match m !! key with
      | None => (Err (ErrBlobNotFound : error), m)
      | Some _ => (Ok tt, delete key m)
      end
  end.

Definition PublicURL (key base : string) : result string :=
  match ValidateKey key with
  | Some e => Err e
  | None =>
      if String.eqb base "" then Err (NewErr "memblob: public base URL is empty")
      else Ok (TrimRightByte base "/" +:+ "/" +:+ key)
  end.

Definition PresignedURL (env : Env) (key : string) (ttl : Z) : result string :=
  match ValidateKey key with
  | Some e => Err e
  | None =>
      if ttl <=? 0 then Err (NewErr "memblob: presign ttl must be positive")
      else Ok ("mem://" +:+ key +:+ "?exp=" +:+ Itoa ((time_Now env + ttl) / Second - 62135596800))
  end.

#[export] Instance memBlob_store : BlobStore memBlob := {|
  blob_Put := mb_Put; blob_Get := mb_Get; blob_Stat := mb_Stat; blob_Delete := mb_Delete |}.

#[export] Instance memBlob_urler : URLer := {|
  url_PublicURL := PublicURL; url_PresignedURL := PresignedURL |}.

Definition mem_objects (m : memBlob) : gmap string (list ascii * string) :=
  (fun e => (me_data e, me_contentType e)) <$> m.

#[export] Program Instance memBlob_laws : BlobLaws memBlob := {| objects := mem_objects |}.
Next Obligation.
  intros env k d n ct b etag b'. simpl. unfold mb_Put, mb_Stat, mem_objects.
  destruct (ValidateKey k) eqn:Hk; [done|]. intros [= <- <-]. split; [by rewrite fmap_insert|].
  intros env'. rewrite lookup_insert_eq. by eexists.
Qed.
Next Obligation.
  intros env k d n ct b e b'. simpl. unfold mb_Put. destruct (ValidateKey k); by intros [= _ <-].
Qed.
Next Obligation.
  intros env k b b'. simpl. unfold mb_Delete, mem_objects. destruct (ValidateKey k); [done|].
  destruct (b !! k); [|done]. intros [= <-]. by rewrite fmap_delete.
Qed.
Next Obligation.
  intros env k b e b'. simpl. unfold mb_Delete, mem_objects.
  destruct (ValidateKey k) as [e0|] eqn:Hk.
  - intros [= <- <-]. split; [done|]. unfold ValidateKey in Hk.
    by repeat case_match; simplify_eq.
  - destruct (b !! k) eqn:E; [done|]. intros [= <- <-]. split; [done|].
    intros _. split; [done|]. by rewrite lookup_fmap, E.
Qed.
Next Obligation.
  intros env k b d info. simpl. unfold mb_Get, mb_Stat, mem_objects.
  destruct (ValidateKey k); [done|]. rewrite lookup_fmap.
  destruct (b !! k) as [e|]; [|done]. by intros [= <- <-].
Qed.
End memblob.
