(* ===== verification/FsBlob.v ===== *)
(** * The file blob store ([internal/blob/fsblob/fsblob.go])

    Every object is a file under [objects/] with a JSON sidecar under [meta/].
    The operations are programs over system calls ([Threads]): several run at
    once on one file system, any call may fail ([t_fault]: an I/O error, a full
    disk, a file where a directory should be), and the machine may crash
    between any two calls ([crashed]).

    A path is its list of segments.  Files and directories are separate maps,
    so a clash of the two is one of the faults.  What reached the disk is
    modelled as POSIX states it: the contents of a file after an [fsync] of it,
    an entry of a directory after an [fsync] of that directory. *)
From Stdlib Require Import Ascii String.
From S2P Require Import GoLib GoUrl Base64 Blob Threads.
Local Open Scope string_scope.
Local Open Scope Z_scope.

(** ** The machine *)
Notation path := (list string).

Record inode := { i_bytes : list ascii; i_mtime : Z; i_synced : bool }.

(** [fs_past] holds what an entry was since its directory was last synced, and
    [fs_dirs] tells for each directory whether its own entry is on disk. *)
Record FS := {
  fs_files : gmap path nat;
  fs_past : gmap path (list (option nat));
  fs_dirs : gmap path bool;
  fs_inodes : gmap nat inode;
  fs_next : nat;
}.

(** The file system, the holder of each striped lock, and which thread created
    a temporary file (no call reads the last). *)
Record machine := { m_fs : FS; m_locks : gmap Z nat; m_temps : gmap path nat }.

Definition past (fs : FS) (p : path) : list (option nat) := default [] (fs_past fs !! p).

(** An entry changes: its former value may come back in a crash. *)
Definition set_entry (p : path) (e : option nat) (fs : FS) : FS :=
  {| fs_files := partial_alter (fun _ => e) p (fs_files fs);
     fs_past := <[p := fs_files fs !! p :: past fs p]> (fs_past fs);
     fs_dirs := fs_dirs fs; fs_inodes := fs_inodes fs; fs_next := fs_next fs |}.

Definition set_inode (n : nat) (i : inode) (fs : FS) : FS :=
  {| fs_files := fs_files fs; fs_past := fs_past fs; fs_dirs := fs_dirs fs;
     fs_inodes := <[n := i]> (fs_inodes fs); fs_next := Nat.max (S n) (fs_next fs) |}.

Definition filepath_Dir (p : path) : path := removelast p.

(** The directories [MkdirAll] makes sure of. *)
Fixpoint prefixes (p : path) : list path :=
  match p with [] => [] | x :: p' => [x] :: (cons x <$> prefixes p') end.

Definition add_dirs (d : path) (fs : FS) : FS :=
  {| fs_files := fs_files fs; fs_past := fs_past fs;
     fs_dirs := foldr (fun d' m => match m !! d' with Some _ => m | None => <[d' := false]> m end)
                  (fs_dirs fs) (prefixes d);
     fs_inodes := fs_inodes fs; fs_next := fs_next fs |}.

Definition in_dir (d p : path) : Prop := p <> [] /\ filepath_Dir p = d.
#[export] Instance in_dir_dec d p : Decision (in_dir d p).
Proof. unfold in_dir. apply _. Defined.

(** [fsync] of a directory: its entries are on disk. *)
Definition sync_dir (d : path) (fs : FS) : FS :=
  {| fs_files := fs_files fs;
     fs_past := filter (fun e => ~ in_dir d e.1) (fs_past fs);
     fs_dirs := map_imap (fun d' b => Some (b || bool_decide (in_dir d d'))) (fs_dirs fs);
     fs_inodes := fs_inodes fs; fs_next := fs_next fs |}.

(** ** System calls *)
Record turn := {
  t_ctx : option context_sentinel;
  t_fault : option error;
  t_now : Z;
  t_name : string;                     (* what [os.CreateTemp] draws last *)
  t_written : nat;                     (* how much a failing write wrote *)
}.

Inductive call : Type -> Type :=
| CtxErr : call (option context_sentinel)
| MkdirAll (d : path) : call (os_result unit)
| CreateTemp (d : path) (pattern : string) : call (os_result (path * nat))
| Write (h : nat) (data : list ascii) : call (os_result unit)
| Sync (h : nat) : call (os_result unit)
| Close (h : nat) : call (os_result unit)
| Rename (p q : path) : call (os_result unit)
| Remove (p : path) : call (os_result unit)
| OpenDir (d : path) : call (os_result unit)
| SyncDir (d : path) : call (os_result unit)
| StatDir (d : path) : call (os_result bool)    (* whether it is a directory *)
| ReadFile (p : path) : call (os_result (list ascii))
| Stat (p : path) : call (os_result (Z * Z))
| Lock (l : Z) : call unit
| Unlock (l : Z) : call unit.

Definition dir_exists (fs : FS) (d : path) : bool := bool_decide (is_Some (fs_dirs fs !! d)).

Definition the_inode (fs : FS) (n : nat) : inode :=
  default {| i_bytes := []; i_mtime := 0; i_synced := false |} (fs_inodes fs !! n).

Definition with_fs (m : machine) (fs : FS) : machine :=
  {| m_fs := fs; m_locks := m_locks m; m_temps := m_temps m |}.
Definition with_locks (m : machine) (l : gmap Z nat) : machine :=
  {| m_fs := m_fs m; m_locks := l; m_temps := m_temps m |}.

Definition temp_name (pattern : string) (t : turn) : string := pattern +:+ t_name t.

Definition write_inode (h : nat) (data : list ascii) (now : Z) (m : machine) : machine :=
  with_fs m (set_inode h {| i_bytes := i_bytes (the_inode (m_fs m) h) ++ data; i_mtime := now; i_synced := false |}
               (m_fs m)).

Definition fault_or {A} (t : turn) (m : machine) (r : os_result A * machine) : option (os_result A * machine) :=
  Some (match t_fault t with Some e => (OtherErr e, m) | None => r end).

Definition exec (i : nat) (t : turn) (X : Type) (c : call X) (m : machine) : option (X * machine) :=
  let fs := m_fs m in
  match c in call X return option (X * machine) with
  | CtxErr => Some (t_ctx t, m)
  | MkdirAll d => fault_or t m (Done tt, with_fs m (add_dirs d fs))
  | CreateTemp d pattern =>
      let p := (d ++ [temp_name pattern t])%list in
      fault_or t m
        (if negb (dir_exists fs d) then (NotExist, m)
         else match fs_files fs !! p with
              | Some _ => (Exist, m)
              | None =>
                  let n := fs_next fs in
                  (Done (p, n),
                   {| m_fs := set_inode n {| i_bytes := []; i_mtime := t_now t; i_synced := false |}
                                (set_entry p (Some n) fs);
                      m_locks := m_locks m; m_temps := <[p := i]> (m_temps m) |})
              end)
  | Write h data =>
      Some match t_fault t with
           | Some e => (OtherErr e, write_inode h (take (t_written t) data) (t_now t) m)
           | None => (Done tt, write_inode h data (t_now t) m)
           end
  | Sync h =>
      fault_or t m (Done tt, with_fs m (set_inode h {| i_bytes := i_bytes (the_inode fs h);
                                          i_mtime := i_mtime (the_inode fs h); i_synced := true |} fs))
  | Close h => fault_or t m (Done tt, m)
  | Rename p q =>
      fault_or t m
        match fs_files fs !! p with
        | None => (NotExist, m)
        | Some n => (Done tt, with_fs m (set_entry q (Some n) (set_entry p None fs)))
        end
  | Remove p =>
      fault_or t m
        match fs_files fs !! p with
        | None => (NotExist, m)
        | Some _ => (Done tt, with_fs m (set_entry p None fs))
        end
  | OpenDir d => fault_or t m (if dir_exists fs d then (Done tt, m) else (NotExist, m))
  | StatDir d =>
      fault_or t m
        (if dir_exists fs d then (Done true, m)
         else match fs_files fs !! d with Some _ => (Done false, m) | None => (NotExist, m) end)
  | SyncDir d => fault_or t m (Done tt, with_fs m (sync_dir d fs))
  | ReadFile p =>
      fault_or t m
        match fs_files fs !! p with
        | None => (NotExist, m)
        | Some n => (Done (i_bytes (the_inode fs n)), m)
        end
  | Stat p =>
      fault_or t m
        match fs_files fs !! p with
        | None => (NotExist, m)
        | Some n => (Done (Z.of_nat (length (i_bytes (the_inode fs n))), i_mtime (the_inode fs n)), m)
        end
  | Lock l =>
      match m_locks m !! l with
      | Some _ => None
      | None => Some (tt, with_locks m (<[l := i]> (m_locks m)))
      end
  | Unlock l => Some (tt, with_locks m (delete l (m_locks m)))
  end.

(** ** Crashes

    Entries of directories that were not synced may be as before, directories
    whose own entry was not synced may be gone with all they hold, and the
    contents of files that were not synced may be anything. *)
Record crashed (fs fs' : FS) : Prop := {
  cr_lost : exists lost : path -> Prop,
    (forall d, lost d -> fs_dirs fs !! d = Some false)
    /\ forall p, (fs_files fs' !! p = None /\ exists d, lost d /\ d `prefix_of` filepath_Dir p)
                 \/ ((forall d, lost d -> ~ d `prefix_of` filepath_Dir p)
                     /\ (fs_files fs' !! p = fs_files fs !! p \/ fs_files fs' !! p ∈ past fs p));
  cr_data n i : fs_inodes fs !! n = Some i -> i_synced i = true -> fs_inodes fs' !! n = Some i;
}.

(** What a path holds. *)
Definition file_at (fs : FS) (p : path) : option (list ascii) :=
  n ← fs_files fs !! p; i ← fs_inodes fs !! n; Some (i_bytes i).

(** ** The driver *)
Record meta := { ContentType : string; ETag : string; meta_Size : Z }.

(** [filepath.Join] of an absolute path and further elements: [filepath.Clean]
    of them all, on the segments. *)
Definition filepath_Join (base : path) (elems : list string) : path :=
  rev (foldl (clean_step true) (rev base) (concat ((fun e => SplitByte e "/") <$> elems))).

(** [filepath.Join] of relative elements: the empty ones are left out. *)
Definition rel_Join (elems : list string) : string :=
  path_Clean (JoinSlash (filter (fun e => e <> "") elems)).

(** [hash/fnv.New32a]. *)
Definition fnv32a (l : list ascii) : Z :=
  foldl (fun h c => Z.lxor h (code c) * 16777619 mod 2 ^ 32) 2166136261 l.

Definition locks_len : Z := 64.
Definition lock (key : string) : Z := fnv32a (bytes key) mod locks_len.

Section fsblob.
Context (root : path) `{D : SHA256} `{J : Json meta}.

Definition paths (key : string) : result (path * path) :=
  match ValidateKey key with
  | Some e => Err e
  | None =>
      let h := hex_EncodeToString (take 4 (sha256_Sum256 (bytes key))) in
      let rel := rel_Join [take_bytes 2 h; take_bytes 2 (drop_bytes 2 h); key] in
      Ok (filepath_Join root ["objects"; rel], filepath_Join root ["meta"; rel +:+ ".json"])
  end.

Definition translate (e : os_result unit) : error :=
  match e with
  | NotExist => Wrap "fsblob: " ErrBlobNotFound
  | OtherErr e => e
  | _ => NewErr "file exists"
  end.

(** The error of a call that did not succeed. *)
Definition os_err {X} (r : os_result X) : os_result unit :=
  match r with Done _ => Done tt | NotExist => NotExist | Exist => Exist | OtherErr e => OtherErr e end.
Definition err_of {X} (r : os_result X) : error :=
  match r with NotExist => NewErr "file does not exist" | OtherErr e => e | _ => NewErr "file exists" end.

(** [x, err := c; if err != nil { return fail(err) }]. *)
Definition attempt {X A} (c : call (os_result X)) (fail : os_result X -> prog call (result A))
    (k : X -> prog call (result A)) : prog call (result A) :=
  Call c (fun r => match r with Done x => k x | _ => fail r end).

(** The failure paths: what they clean up, and the error they wrap. *)
Definition fails {X A} (msg : string) (r : os_result X) : prog call (result A) :=
  Ret (Err (Wrap msg (err_of r))).
Definition removing {X A} (name : path) (k : os_result X -> prog call (result A)) (r : os_result X)
    : prog call (result A) := Call (Remove name) (fun _ => k r).
Definition closing {X A} (h : nat) (k : os_result X -> prog call (result A)) (r : os_result X)
    : prog call (result A) := Call (Close h) (fun _ => k r).

Definition syncDir (dir : path) : prog call (result unit) :=
  attempt (OpenDir dir) (fails "fsblob: open dir") (fun _ =>
  attempt (SyncDir dir) (fails "fsblob: fsync dir") (fun _ => Ret (Ok tt))).

Definition writeFileDurably (p : path) (data : list ascii) : prog call (result unit) :=
  attempt (CreateTemp (filepath_Dir p) ".tmp-") (fails "fsblob: temp file") (fun '(tmpName, tmp) =>
  attempt (Write tmp data) (closing tmp (removing tmpName (fails "fsblob: write"))) (fun _ =>
  attempt (Sync tmp) (closing tmp (removing tmpName (fails "fsblob: fsync"))) (fun _ =>
  attempt (Close tmp) (removing tmpName (fails "fsblob: close")) (fun _ =>
  attempt (Rename tmpName p) (removing tmpName (fails "fsblob: rename")) (fun _ =>
  syncDir (filepath_Dir p)))))).

(** [mu.Lock(); defer mu.Unlock()]. *)
Definition locked {A} (key : string) (body : prog call (result A)) : prog call (result A) :=
  Call (Lock (lock key)) (fun _ => r ← body; Call (Unlock (lock key)) (fun _ => Ret r)).

(** The two renames, under the lock. *)
Definition commit (tmpName objPath metaPath : path) (etag : string) (metaRaw : list ascii)
    : prog call (result string) :=
  attempt (Rename tmpName objPath) (removing tmpName (fails "fsblob: rename")) (fun _ =>
  s ← syncDir (filepath_Dir objPath);
  match s with
  | Err e => Ret (Err e)
  | Ok _ =>
      w ← writeFileDurably metaPath metaRaw;
      Ret (match w with Err e => Err e | Ok _ => Ok etag end)
  end).

Definition Put (key : string) (r : list ascii) (size : Z) (contentType : string) : prog call (result string) :=
  match paths key with
  | Err e => Ret (Err e)
  | Ok (objPath, metaPath) =>
      Call CtxErr (fun cerr => match cerr with Some e => Ret (Err (Sentinel (SContext e))) | None =>
      attempt (MkdirAll (filepath_Dir objPath)) (fails "fsblob: mkdir") (fun _ =>
      attempt (MkdirAll (filepath_Dir metaPath)) (fails "fsblob: mkdir") (fun _ =>
      attempt (CreateTemp (filepath_Dir objPath) ".tmp-") (fails "fsblob: temp file") (fun '(tmpName, tmp) =>
      let cleanup := fun msg => closing tmp (removing tmpName (fails msg)) in
      attempt (Write tmp r) (cleanup "fsblob: write") (fun _ =>
      let n := Z.of_nat (length r) in
      if (0 <=? size) && negb (n =? size) then cleanup "fsblob: wrote other than declared" (Done tt) else
      attempt (Sync tmp) (cleanup "fsblob: fsync") (fun _ =>
      attempt (Close tmp) (removing tmpName (fails "fsblob: close")) (fun _ =>
      let etag := hex_EncodeToString (sha256_Sum256 r) in
      match Marshal {| ContentType := contentType; ETag := etag; meta_Size := n |} with
      | None => Call (Remove tmpName) (fun _ => Ret (Err (NewErr "json")))
      | Some metaRaw => locked key (commit tmpName objPath metaPath etag (bytes metaRaw))
      end)))))) end)
  end.

Definition readMeta (metaPath : path) : prog call (result meta) :=
  attempt (ReadFile metaPath) (fun e => Ret (Err (translate (os_err e)))) (fun raw =>
  Ret match Unmarshal (of_bytes raw) with
      | None => Err (NewErr "fsblob: corrupt sidecar")
      | Some m => Ok m
      end).

Definition stat (key : string) : prog call (result (BlobInfo * path)) :=
  match paths key with
  | Err e => Ret (Err e)
  | Ok (objPath, metaPath) =>
      locked key (attempt (Stat objPath) (fun e => Ret (Err (translate (os_err e)))) (fun '(size, mtime) =>
      m ← readMeta metaPath;
      Ret match m with
          | Err e => Err e
          | Ok m => Ok ({| bi_Key := key; bi_Size := size; bi_ContentType := ContentType m;
                           bi_ETag := ETag m; bi_ModTime := mtime |}, objPath)
          end))
  end.

(** The reader is the contents of the file [Get] opened. *)
Definition Get (key : string) : prog call (result (list ascii * BlobInfo)) :=
  Call CtxErr (fun cerr => match cerr with Some e => Ret (Err (Sentinel (SContext e))) | None =>
  s ← stat key;
  match s with
  | Err e => Ret (Err e)
  | Ok (info, objPath) =>
      attempt (ReadFile objPath) (fun e => Ret (Err (translate (os_err e)))) (fun f => Ret (Ok (f, info)))
  end end).

Definition StatBlob (key : string) : prog call (result BlobInfo) :=
  Call CtxErr (fun cerr => match cerr with Some e => Ret (Err (Sentinel (SContext e))) | None =>
  s ← stat key;
  Ret match s with Err e => Err e | Ok (info, _) => Ok info end end).

Definition Delete (key : string) : prog call (result unit) :=
  match paths key with
  | Err e => Ret (Err e)
  | Ok (objPath, metaPath) =>
      Call CtxErr (fun cerr => match cerr with Some e => Ret (Err (Sentinel (SContext e))) | None =>
      locked key (attempt (Remove objPath) (fun e => Ret (Err (translate (os_err e)))) (fun _ =>
      Call (Remove metaPath) (fun r =>
      match r with
      | Done _ | NotExist => syncDir (filepath_Dir objPath)
      | _ => Ret (Err (Wrap "fsblob: remove sidecar" (err_of r)))
      end))) end)
  end.

Definition Open : prog call (result unit) :=
  attempt (MkdirAll (filepath_Join root ["objects"])) (fails "fsblob: create") (fun _ =>
  attempt (MkdirAll (filepath_Join root ["meta"])) (fails "fsblob: create") (fun _ => Ret (Ok tt))).

Definition Ping : prog call (result unit) :=
  Call CtxErr (fun cerr => match cerr with Some e => Ret (Err (Sentinel (SContext e))) | None =>
  attempt (StatDir root) (fails "fsblob: ") (fun is_dir =>
  if negb is_dir then Ret (Err (NewErr "fsblob: not a directory")) else
  attempt (CreateTemp root ".ping-") (fails "fsblob: root not writable") (fun '(name, probe) =>
  Call (Close probe) (fun _ => Call (Remove name) (fun _ => Ret (Ok tt))))) end).
End fsblob.
