(* ===== verification/FsPaths.v ===== *)
(** * Where the file blob store keeps an object

    The paths of a valid key stay below the root, and two keys never share a
    file.  The key conditions of [ValidateKey] are what this needs: every
    segment of a valid key is an ordinary name. *)
From Stdlib Require Import Ascii String.
From S2P Require Import GoLib GoUrl Base64 Blob Threads FsBlob.
Local Open Scope string_scope.
Local Open Scope Z_scope.

(** ** Splitting and joining at slashes *)
Definition no_slash (s : string) : Prop := string_forall (fun c => negb (Ascii.eqb c "/")) s = true.
Definition name (s : string) : Prop := s <> "" /\ s <> "." /\ s <> ".." /\ no_slash s.

Lemma SplitByte_single s : no_slash s -> SplitByte s "/" = [s].
Proof.
  unfold no_slash. induction s as [|c s IH]; [done|]. rewrite string_forall_cons.
  intros [Hc%negb_true_iff Hs]%andb_prop. cbn [SplitByte]. by rewrite Hc, IH.
Qed.

Lemma SplitByte_not_nil s c : SplitByte s c <> [].
Proof. destruct s as [|d s]; [done|]. simpl. by repeat case_match. Qed.

Lemma Join_cons p l : l <> [] -> JoinSlash (p :: l) = p +:+ String "/" (JoinSlash l).
Proof. by destruct l. Qed.

Lemma Join_Split s : JoinSlash (SplitByte s "/") = s.
Proof.
  induction s as [|c s IH]; [done|]. cbn [SplitByte].
  pose proof (SplitByte_not_nil s "/") as Hne. destruct (SplitByte s "/") as [|p l] eqn:E; [done|].
  destruct (Ascii.eqb_spec c "/") as [->|].
  - rewrite Join_cons, IH by done. done.
  - rewrite <- IH. destruct l as [|q l]; [done|]. by rewrite !Join_cons, append_cons by done.
Qed.

Lemma Split_Join l : l <> [] -> Forall no_slash l -> SplitByte (JoinSlash l) "/" = l.
Proof.
  intros Hne Hl. induction Hl as [|p l Hp Hl IH]; [done|]. destruct l as [|q l]; [by apply SplitByte_single|].
  rewrite Join_cons, SplitByte_piece, IH by done. done.
Qed.

Lemma SplitByte_no_slash s : Forall no_slash (SplitByte s "/").
Proof.
  unfold no_slash. induction s as [|c s IH]; [by constructor|]. cbn [SplitByte].
  destruct (SplitByte s "/") as [|p l] eqn:E; [by destruct (SplitByte_not_nil s "/")|].
  destruct (Ascii.eqb c "/") eqn:Ec; [by constructor|].
  inversion IH; subst. constructor; [|done]. rewrite string_forall_cons, Ec. by apply andb_true_intro.
Qed.

Lemma Join_app_last l s t : JoinSlash (l ++ [s]) +:+ t = JoinSlash (l ++ [s +:+ t]).
Proof.
  induction l as [|p l IH]; [done|]. cbn [app].
  rewrite !Join_cons by by destruct l. by rewrite <- IH, string_app_assoc.
Qed.

(** The length of a joined path. *)
Definition weight (l : list string) : nat := foldr (fun s n => S (String.length s) + n)%nat O l.

Lemma weight_cons s l : weight (s :: l) = (S (String.length s) + weight l)%nat.
Proof. done. Qed.

Lemma Join_length l : l <> [] -> S (String.length (JoinSlash l)) = weight l.
Proof.
  intros Hne. induction l as [|p l IH]; [done|]. destruct l as [|q l].
  - unfold weight. simpl. lia.
  - rewrite Join_cons, string_app_length by done. cbn [String.length].
    specialize (IH ltac:(done)). rewrite weight_cons. lia.
Qed.

Lemma filter_weight (P : string -> Prop) `{!forall s, Decision (P s)} l :
  weight (filter P l) = weight l -> Forall P l.
Proof.
  assert (Hle : forall l, (weight (filter P l) <= weight l)%nat).
  { intros k. induction k as [|s k IH]; [done|]. rewrite filter_cons. case_decide; rewrite ?weight_cons; lia. }
  induction l as [|s l IH]; [constructor|]. rewrite filter_cons. case_decide; intros H'.
  - constructor; [done|]. apply IH. rewrite !weight_cons in H'. lia.
  - specialize (Hle l). rewrite weight_cons in H'. lia.
Qed.

(** ** The segments of a valid key *)
Lemma clean_no_dots rooted l st :
  Forall (fun s => s <> "." /\ s <> "..") l ->
  foldl (clean_step rooted) st l = (rev (filter (fun s => s <> "") l) ++ st)%list.
Proof.
  intros Hl. revert st. induction Hl as [|s l [H1 H2] _ IH]; intros st; [done|]. simpl. rewrite IH, filter_cons.
  unfold clean_step at 1. rewrite (proj2 (String.eqb_neq _ _) H1), (proj2 (String.eqb_neq _ _) H2).
  rewrite orb_false_r. destruct (String.eqb_spec s "") as [->|Hs].
  - rewrite decide_False; [done|]. by intros [].
  - rewrite decide_True by done. simpl. by rewrite <- app_assoc.
Qed.

Lemma clean_names rooted l st : Forall name l -> foldl (clean_step rooted) st l = (rev l ++ st)%list.
Proof.
  intros Hl. rewrite clean_no_dots; [|eapply Forall_impl; [done|]; intros s (_ & ? & ? & _); done].
  rewrite filter_all; [done|]. intros s Hs. rewrite Forall_forall in Hl. by destruct (Hl s Hs).
Qed.

Definition segments (key : string) : list string := SplitByte key "/".

Lemma ValidateKey_names key : ValidateKey key = None -> Forall name (segments key).
Proof.
  unfold ValidateKey, segments. intros Hv. destruct (_ || _) eqn:Hfirst in Hv; [done|].
  assert (Hroot : HasPrefix key "/" = false) by by repeat apply orb_false_elim in Hfirst as [Hfirst ?].
  assert (Hne : key <> "").
  { repeat apply orb_false_elim in Hfirst as [Hfirst _]. by apply String.eqb_neq. }
  destruct (existsb _ _) eqn:Hdots in Hv; [done|]. destruct (negb _) eqn:Hclean in Hv; [done|].
  apply negb_false_iff, String.eqb_eq in Hclean.
  assert (Hd : Forall (fun s => s <> "." /\ s <> "..") (SplitByte key "/")).
  { apply Forall_forall. intros s Hs. apply not_true_iff_false in Hdots.
    split; intros ->; apply Hdots, existsb_exists; eexists; (split; [by apply list_elem_of_In|done]). }
  unfold path_Clean in Hclean. rewrite Hroot, clean_no_dots, app_nil_r, rev_involutive in Hclean by done.
  pose proof (SplitByte_no_slash key) as Hs.
  assert (Hf : Forall (fun s => s <> "") (SplitByte key "/")).
  { apply (filter_weight (fun s => s <> "")). set (kept := filter (fun s => s <> "") (SplitByte key "/")) in *.
    assert (Hk : kept <> []).
    { intros E. rewrite E in Hclean. subst key. by rewrite Forall_forall in Hd; destruct (Hd "." ltac:(by left)). }
    rewrite <- (Join_length kept Hk), <- (Join_length _ (SplitByte_not_nil key "/")), Join_Split.
    do 2 f_equal. by destruct kept. }
  rewrite Forall_forall in *. intros s Hin. destruct (Hd s Hin). by repeat split; auto.
Qed.

(** ** The paths of a valid key *)

(** SHA-256 yields 32 bytes. *)
Class SHA256Ok `{SHA256} : Prop := sha256_length l : length (sha256_Sum256 l) = 32%nat.

Lemma hex_digit_bytes z : 0 <= z < 16 ->
  Ascii.eqb (hex_digit z) "/" = false /\ Ascii.eqb (hex_digit z) "." = false.
Proof.
  intros Hz. assert (Hall : forallb (fun n => negb (Ascii.eqb (hex_digit (Z.of_nat n)) "/")
                              && negb (Ascii.eqb (hex_digit (Z.of_nat n)) ".")) (seq 0 16) = true)
    by (vm_compute; reflexivity).
  rewrite forallb_forall in Hall. specialize (Hall (Z.to_nat z)). rewrite Z2Nat.id in Hall by lia.
  destruct (andb_prop _ _ (Hall ltac:(apply in_seq; lia))) as [?%negb_true_iff ?%negb_true_iff]. done.
Qed.

(** The bytes of a string that is not a path operator. *)
Lemma hex_name c d : name (hex_EncodeToString [c]) /\ hex_EncodeToString [c; d] = hex_EncodeToString [c] +:+ hex_EncodeToString [d].
Proof.
  split; [|done]. unfold hex_EncodeToString. cbn [fmap list_fmap concat app of_bytes].
  assert (H1 : 0 <= code c / 16 < 16) by (pose proof (code_bounds c); dlia).
  assert (H2 : 0 <= code c mod 16 < 16) by (pose proof (code_bounds c); dlia).
  destruct (hex_digit_bytes _ H1) as [S1 D1], (hex_digit_bytes _ H2) as [S2 D2].
  split; [done|]. split; [done|]. split.
  - intros [= E _]. by rewrite E in D1.
  - unfold no_slash. by rewrite !string_forall_cons, S1, S2.
Qed.

Section paths.
Context (root : path) `{D : SHA256} `{!SHA256Ok} `{J : Json meta}.

(** The two shard directories. *)
Lemma shard key :
  exists a b, name a /\ name b /\
    let h := hex_EncodeToString (take 4 (sha256_Sum256 (bytes key))) in
    take_bytes 2 h = a /\ take_bytes 2 (drop_bytes 2 h) = b.
Proof.
  pose proof (sha256_length (bytes key)) as Hl.
  destruct (sha256_Sum256 (bytes key)) as [|c [|d [|e [|f l]]]]; try done.
  exists (hex_EncodeToString [c]), (hex_EncodeToString [d]).
  destruct (hex_name c d) as [Hc _], (hex_name d c) as [Hd _]. done.
Qed.

Definition last_seg (l : list string) : string := default "" (last l).

Lemma segments_split key : segments key = (removelast (segments key) ++ [last_seg (segments key)])%list.
Proof.
  unfold segments. pose proof (SplitByte_not_nil key "/") as Hne.
  destruct (SplitByte key "/") as [|x l] using rev_ind; [done|].
  unfold last_seg. by rewrite removelast_last, last_snoc.
Qed.

Lemma Join_names e rel : name e -> Forall name rel -> rel <> [] ->
  filepath_Join root [e; JoinSlash rel] = (root ++ e :: rel)%list.
Proof.
  intros He Hrel Hne. unfold filepath_Join. cbn [fmap list_fmap concat].
  rewrite app_nil_r, SplitByte_single, Split_Join, clean_names by
    (done || apply He || by constructor || (eapply Forall_impl; [done|]; intros s Hs; apply Hs)).
  by rewrite rev_app_distr, !rev_involutive.
Qed.

Lemma json_name s : name s -> name (s +:+ ".json").
Proof.
  intros (H1 & H2 & H3 & H4). unfold name, no_slash in *. rewrite string_forall_app, H4.
  repeat split; destruct s as [|c [|d [|e s]]]; try done; intros [= ->]; done.
Qed.

(** An object is at [root/objects/xx/yy/key], its sidecar at
    [root/meta/xx/yy/key.json]. *)
Lemma paths_valid key :
  ValidateKey key = None ->
  exists a b, name a /\ name b /\ paths root key = Ok
    (root ++ "objects" :: a :: b :: segments key,
     root ++ "meta" :: a :: b :: removelast (segments key) ++ [last_seg (segments key) +:+ ".json"])%list.
Proof.
  intros Hv. pose proof (ValidateKey_names key Hv) as Hn. unfold paths. rewrite Hv.
  destruct (shard key) as (a & b & Ha & Hb & -> & ->). exists a, b. split; [done|]. split; [done|].
  assert (Hkey : key <> "") by (intros ->; done).
  assert (E : rel_Join [a; b; key] = JoinSlash (a :: b :: segments key)).
  { unfold rel_Join. rewrite filter_all.
    - assert (Ej : JoinSlash [a; b; key] = JoinSlash (a :: b :: segments key)).
      { pose proof (SplitByte_not_nil key "/") as Hsk. unfold segments.
        rewrite (Join_cons a (b :: SplitByte key "/")), (Join_cons b (SplitByte key "/")), Join_Split by done.
        done. }
      rewrite Ej. unfold path_Clean.
      assert (Hall : Forall name (a :: b :: segments key)) by by do 2 (apply Forall_cons_2; [done|]).
      rewrite Split_Join by (done || (eapply Forall_impl; [exact Hall|]; intros s Hs; apply Hs)).
      rewrite clean_names, app_nil_r, rev_involutive by done.
      rewrite Join_cons by done.
      assert (HasPrefix (a +:+ String "/" (JoinSlash (b :: segments key))) "/" = false) as ->; [|done].
      destruct Ha as (Hane & _ & _ & Hs). destruct a as [|c a]; [done|]. unfold no_slash in Hs.
      rewrite string_forall_cons in Hs. apply andb_prop in Hs as [Hc _]. apply negb_true_iff in Hc.
      rewrite append_cons. cbn [HasPrefix]. rewrite Ascii.eqb_sym, Hc. done.
    - intros s Hs. destruct Ha as [Ha _], Hb as [Hb _].
      apply list_elem_of_In in Hs as [<-|[<-|[<-|[]]]]; done. }
  rewrite E. rewrite Join_names by (done || by do 2 (apply Forall_cons_2; [done|])).
  rewrite (segments_split key) at 2. rewrite !app_comm_cons, Join_app_last, Join_names; [done|done| |by destruct (segments key)].
  rewrite <- !app_comm_cons. rewrite (segments_split key) in Hn. apply Forall_app in Hn as [Hn1 Hn2].
  do 2 (apply Forall_cons_2; [done|]). apply Forall_app. split; [done|]. constructor; [|done].
  apply json_name. by inversion Hn2.
Qed.

Definition objPath (key : string) : path :=
  match paths root key with Ok (o, _) => o | Err _ => [] end.
Definition metaPath (key : string) : path :=
  match paths root key with Ok (_, p) => p | Err _ => [] end.

Lemma paths_Ok key : ValidateKey key = None -> paths root key = Ok (objPath key, metaPath key).
Proof.
  intros Hv. destruct (paths_valid key Hv) as (a & b & _ & _ & E). unfold objPath, metaPath. by rewrite E.
Qed.

Lemma paths_Err key e : ValidateKey key = Some e -> paths root key = Err e.
Proof. intros Hv. unfold paths. by rewrite Hv. Qed.

Lemma segments_inj k k' : segments k = segments k' -> k = k'.
Proof. intros E. rewrite <- (Join_Split k), <- (Join_Split k'). unfold segments in E. by rewrite E. Qed.

Lemma append_inj_l s t u : s +:+ u = t +:+ u -> s = t.
Proof.
  intros E. assert (Hl : String.length s = String.length t).
  { apply (f_equal String.length) in E. rewrite !string_app_length in E. lia. }
  revert t Hl E. induction s as [|c s IH]; intros [|d t] Hl E; try done. rewrite !append_cons in E.
  injection E as -> E. f_equal. apply IH; [|done]. simpl in Hl. lia.
Qed.

(** Valid keys do not share files. *)
Lemma objPath_inj k k' :
  ValidateKey k = None -> ValidateKey k' = None -> objPath k = objPath k' -> k = k'.
Proof.
  intros Hk Hk'. destruct (paths_valid k Hk) as (a & b & _ & _ & E), (paths_valid k' Hk') as (a' & b' & _ & _ & E').
  unfold objPath. rewrite E, E'. intros [= _ _ Es]%app_inv_head. by apply segments_inj.
Qed.

Lemma metaPath_inj k k' :
  ValidateKey k = None -> ValidateKey k' = None -> metaPath k = metaPath k' -> k = k'.
Proof.
  intros Hk Hk'. destruct (paths_valid k Hk) as (a & b & _ & _ & E), (paths_valid k' Hk') as (a' & b' & _ & _ & E').
  unfold metaPath. rewrite E, E'. intros [= _ _ Es]%app_inv_head. apply app_inj_tail in Es as [Es El].
  apply append_inj_l in El. apply segments_inj. by rewrite (segments_split k), (segments_split k'), Es, El.
Qed.

Lemma objPath_metaPath k k' : ValidateKey k = None -> ValidateKey k' = None -> objPath k <> metaPath k'.
Proof.
  intros Hk Hk'. destruct (paths_valid k Hk) as (a & b & _ & _ & E), (paths_valid k' Hk') as (a' & b' & _ & _ & E').
  unfold objPath, metaPath. rewrite E, E'. by intros [=]%app_inv_head.
Qed.

(** The keys of a file store cannot reach outside it. The object and the
    sidecar of a valid key are files below the [objects] and [meta] directories
    of the root, and different keys have different files. *)
Theorem paths_confined (key : string) (Hv : ValidateKey key = None) :
  paths root key = Ok (objPath key, metaPath key)
  /\ (root ++ ["objects"])%list `prefix_of` filepath_Dir (objPath key)
  /\ (root ++ ["meta"])%list `prefix_of` filepath_Dir (metaPath key)
  /\ forall key', ValidateKey key' = None ->
       objPath key <> metaPath key'
       /\ (objPath key = objPath key' \/ metaPath key = metaPath key' -> key = key').
Proof.
  split; [by apply paths_Ok|]. destruct (paths_valid key Hv) as (a & b & _ & _ & E).
  unfold objPath at 1, metaPath at 1. rewrite E. rewrite segments_split. unfold filepath_Dir.
  rewrite !app_comm_cons, !app_assoc, !removelast_last.
  split; [|split].
  - exists (a :: b :: removelast (segments key)). by rewrite <- app_assoc.
  - exists (a :: b :: removelast (segments key)). by rewrite <- app_assoc.
  - intros key' Hv'. split; [by apply objPath_metaPath|]. intros [?|?]; [by apply objPath_inj|by apply metaPath_inj].
Qed.
End paths.

Lemma paths_confined_witness :
  let root := ["srv"; "qurator"] in
  let _ : SHA256 := {| sha256_Sum256 := fun l => take 32 (l ++ replicate 32 "a"%char) |} in
  paths root "logos/a" = Ok (objPath root "logos/a", metaPath root "logos/a").
Proof.
  intros root sha. assert (Hok : SHA256Ok).
  { intros l. cbn [sha256_Sum256 sha]. rewrite length_take, length_app, length_replicate. lia. }
  apply (paths_confined root "logos/a"). reflexivity.
Defined.
