(* ===== verification/FsRely.v ===== *)
(** * Reasoning about programs that share a file system

    What every thread may rely on while others run ([kept]), the invariant of
    the machine ([inv]), and a rule for each system call.  A set of managed
    paths is fixed, each guarded by a lock; an entry of a managed path is
    always one of the contents allowed for it, on disk and complete. *)
From Stdlib Require Import Ascii String.
From S2P Require Import GoLib Threads FsBlob.
Local Open Scope Z_scope.

Section rely.
(** [guards l p]: the lock [l] guards the managed path [p]. [allowed p d]: the
    path may hold [d] (or nothing). [mine i p]: only thread [i] changes [p].
    [solid d]: the entry of directory [d] is on disk. *)
Context (guards : Z -> path -> Prop) (allowed : path -> option (list ascii) -> Prop).
Context (mine : nat -> path -> Prop) (solid : path -> Prop).
Context (guards_fun : forall l l' p, guards l p -> guards l' p -> l = l').

Definition managed (p : path) : Prop := exists l, guards l p.

Definition entries (fs : FS) (p : path) : list (option nat) := fs_files fs !! p :: past fs p.

Definition good_entry (fs : FS) (p : path) (e : option nat) : Prop :=
  match e with
  | None => allowed p None
  | Some n => exists i, fs_inodes fs !! n = Some i /\ i_synced i = true /\ allowed p (Some (i_bytes i))
  end.

Record inv (m : machine) : Prop := {
  inv_entries p : managed p -> Forall (good_entry (m_fs m) p) (entries (m_fs m) p);
  inv_files p n : fs_files (m_fs m) !! p = Some n -> is_Some (fs_inodes (m_fs m) !! n);
  inv_bound n i : fs_inodes (m_fs m) !! n = Some i -> (n < fs_next (m_fs m))%nat;
  inv_inj p q n : fs_files (m_fs m) !! p = Some n -> fs_files (m_fs m) !! q = Some n -> p = q;
  inv_temps p j : m_temps m !! p = Some j -> ~ managed p;
  inv_solid d : solid d -> fs_dirs (m_fs m) !! d = Some true;
}.

(** What thread [i] relies on, but for the paths in [X]: its temporary files,
    its locks, the paths it holds, and that synced contents do not change. *)
Record kept (i : nat) (X : path -> Prop) (m m' : machine) : Prop := {
  kept_temp p n : ~ X p -> m_temps m !! p = Some i -> fs_files (m_fs m) !! p = Some n ->
    m_temps m' !! p = Some i /\ fs_files (m_fs m') !! p = Some n
    /\ fs_inodes (m_fs m') !! n = fs_inodes (m_fs m) !! n;
  kept_lock l : m_locks m !! l = Some i -> m_locks m' !! l = Some i;
  kept_held l p : ~ X p -> guards l p -> m_locks m !! l = Some i \/ mine i p ->
    fs_files (m_fs m') !! p = fs_files (m_fs m) !! p /\ past (m_fs m') p ⊆ past (m_fs m) p;
  kept_sync n ino : fs_inodes (m_fs m) !! n = Some ino -> i_synced ino = true ->
    fs_inodes (m_fs m') !! n = Some ino;
}.

Definition nothing : path -> Prop := fun _ => False.
Definition R (i : nat) (m m' : machine) : Prop := inv m -> inv m' /\ kept i nothing m m'.

Lemma kept_refl i X m : kept i X m m.
Proof. split; try done; auto. Qed.

Lemma kept_weaken i (X Y : path -> Prop) m m' : (forall p, Y p -> X p) -> kept i Y m m' -> kept i X m m'.
Proof. intros HX [? ? ? ?]. split; eauto. Qed.

Lemma kept_trans i X m1 m2 m3 : kept i X m1 m2 -> kept i X m2 m3 -> kept i X m1 m3.
Proof.
  intros [T1 L1 H1 S1] [T2 L2 H2 S2]. split; auto.
  - intros p n HX Ht Hf. destruct (T1 p n HX Ht Hf) as (A & B & C), (T2 p n HX A B) as (? & ? & ?).
    split_and!; congruence.
  - intros l p HX Hg Hor. destruct (H1 l p HX Hg Hor) as [A B].
    destruct (H2 l p HX Hg) as [C E]; [naive_solver|]. split; [congruence|]. by etransitivity.
Qed.

Global Instance R_refl i : Reflexive (R i).
Proof. intros m Hm. split; [done|apply kept_refl]. Qed.

Global Instance R_trans i : Transitive (R i).
Proof.
  intros m1 m2 m3 H1 H2 Hm. destruct (H1 Hm) as [Hm2 K1], (H2 Hm2) as [Hm3 K2].
  split; [done|]. by eapply kept_trans.
Qed.

(** ** Assertions *)

(** [P] survives changes within [kept i X]. *)
Definition stays (i : nat) (X : path -> Prop) (P : machine -> Prop) : Prop :=
  forall m m', inv m -> kept i X m m' -> P m -> P m'.

Definition temp_file (i : nat) (p : path) (n : nat) (b : list ascii) (sy : bool) (m : machine) : Prop :=
  m_temps m !! p = Some i /\ fs_files (m_fs m) !! p = Some n
  /\ exists ino, fs_inodes (m_fs m) !! n = Some ino /\ i_bytes ino = b /\ i_synced ino = sy.

Definition holds (i : nat) (l : Z) (m : machine) : Prop := m_locks m !! l = Some i.

(** The path has these contents, synced; and its directory is synced. *)
Definition current (p : path) (b : list ascii) (m : machine) : Prop :=
  exists n ino, fs_files (m_fs m) !! p = Some n /\ fs_inodes (m_fs m) !! n = Some ino
    /\ i_synced ino = true /\ i_bytes ino = b.
Definition durable (p : path) (b : list ascii) (m : machine) : Prop := current p b m /\ past (m_fs m) p = [].

Lemma stays_and i X P P' : stays i X P -> stays i X P' -> stays i X (fun m => P m /\ P' m).
Proof. intros H1 H2 m m' Hm Hk []. split; eauto. Qed.

Lemma stays_true i X : stays i X (fun _ => True).
Proof. done. Qed.

Lemma stays_pure i X (P : Prop) : stays i X (fun _ => P).
Proof. by intros m m' _ _. Qed.

Lemma stays_weaken i (X Y : path -> Prop) P : (forall p, Y p -> X p) -> stays i X P -> stays i Y P.
Proof. intros HX H m m' Hm Hk. apply H; [done|]. by eapply kept_weaken. Qed.

Lemma stays_nothing i X P : stays i X P -> stays i nothing P.
Proof. by apply stays_weaken. Qed.

Lemma stays_temp i (X : path -> Prop) p n b sy : ~ X p -> stays i X (temp_file i p n b sy).
Proof.
  intros HX m m' _ [Ht _ _ _] (H1 & H2 & ino & H3 & H4). destruct (Ht p n HX H1 H2) as (A & B & C).
  split; [done|]. split; [done|]. exists ino. by rewrite C.
Qed.

Lemma stays_holds i X l : stays i X (holds i l).
Proof. intros m m' _ [_ Hl _ _]. apply Hl. Qed.

Lemma stays_current i (X : path -> Prop) l p b :
  ~ X p -> guards l p -> stays i X (fun m => mine i p -> current p b m).
Proof.
  intros HX Hg m m' _ [_ _ Hh Hs] Hc Hm. destruct (Hc Hm) as (n & ino & H1 & H2 & H3 & H4).
  destruct (Hh l p HX Hg (or_intror Hm)) as [Hf _]. exists n, ino. rewrite Hf. auto.
Qed.

Lemma stays_durable i (X : path -> Prop) l p b :
  ~ X p -> guards l p -> stays i X (fun m => mine i p -> durable p b m).
Proof.
  intros HX Hg m m' Hm Hk Hc Hmine. destruct (Hc Hmine) as [Hcur Hpast]. split.
  - by apply (stays_current i X l p b HX Hg m m' Hm Hk (fun _ => Hcur)).
  - destruct Hk as [_ _ Hh _]. destruct (Hh l p HX Hg (or_intror Hmine)) as [_ Hp].
    rewrite Hpast in Hp. by apply list_nil_subseteq.
Qed.

(** ** The rule of a call *)

(** One call of thread [i]: the invariant holds again, the others keep what
    they rely on, and so does [i] but for the paths in [X]. *)
Definition steps (i : nat) (X : path -> Prop) (m m' : machine) : Prop :=
  inv m' /\ (forall j, j <> i -> kept j nothing m m') /\ kept i X m m'.

Lemma steps_refl i X m : inv m -> steps i X m m.
Proof. intros Hm. split; [done|]. split; intros; apply kept_refl. Qed.

Notation wpf i p Q m := (wp exec R i p Q m).

Lemma wp_rule {A C} i X (F P : machine -> Prop) (New : C -> machine -> Prop) (c : call C)
    (k : C -> prog call A) Q m :
  inv m -> F m -> P m -> stays i X F -> stays i nothing P ->
  (forall t m1 x m2, inv m1 -> P m1 -> exec i t _ c m1 = Some (x, m2) -> steps i X m1 m2 /\ New x m2) ->
  (forall x m2, inv m2 -> F m2 -> New x m2 -> wpf i (k x) Q m2) ->
  wpf i (Call c k) Q m.
Proof.
  intros Hm HF HP SF SP Hc Hk m1 Hr t x m2 He. destruct (Hr Hm) as [Hm1 K1].
  destruct (Hc t m1 x m2 Hm1) as [(Hm2 & Ho & K2) HN]; [by apply (SP m m1 Hm K1)|done|]. split.
  - intros j Hj _. split; [done|by apply Ho].
  - apply Hk; [done| |done]. apply (SF m1 m2 Hm1 K2). by apply (stays_nothing i X F SF m m1 Hm K1).
Qed.

(** Returning: the assertion is there whatever the others do. *)
Lemma wp_done {A} i (P : machine -> Prop) (a : A) (Q : A -> machine -> Prop) m :
  inv m -> P m -> stays i nothing P -> (forall m', inv m' -> P m' -> Q a m') -> wpf i (Ret a) Q m.
Proof. intros Hm HP HS HQ m' Hr. destruct (Hr Hm) as [Hm' Hk]. apply HQ; [done|]. by apply (HS m m' Hm Hk). Qed.

(** ** What each call does *)

(** Calls that change no file: directories appear, entries reach the disk,
    locks are taken. *)
Lemma steps_quiet i X m m' :
  inv m -> fs_files (m_fs m') = fs_files (m_fs m) -> fs_inodes (m_fs m') = fs_inodes (m_fs m) ->
  fs_next (m_fs m') = fs_next (m_fs m) -> m_temps m' = m_temps m ->
  (forall p, past (m_fs m') p ⊆ past (m_fs m) p) ->
  (forall d, fs_dirs (m_fs m) !! d = Some true -> fs_dirs (m_fs m') !! d = Some true) ->
  (forall l j, m_locks m !! l = Some j -> m_locks m' !! l = Some j \/ j = i /\ forall k, m_locks m !! l = Some k -> k = i) ->
  (forall l, m_locks m !! l = Some i -> m_locks m' !! l = Some i) ->
  steps i X m m'.
Proof.
  intros [E F B J T S] Hf Hi Hn Ht Hp Hd Hl Hli.
  assert (Hk : forall j Y, (forall l, m_locks m !! l = Some j -> m_locks m' !! l = Some j) -> kept j Y m m').
  { intros j Y Hj. split; rewrite ?Hf, ?Hi, ?Ht; auto. }
  split; [|split; [|by apply Hk]].
  - split; rewrite ?Hf, ?Hi, ?Hn, ?Ht; auto.
    intros p Hm. unfold entries. rewrite Hf. specialize (E p Hm).
    unfold entries in E. inversion E as [|? ? E1 E2]; subst. constructor.
    + unfold good_entry in *. by rewrite Hi.
    + rewrite Forall_forall in *. intros e He. specialize (E2 e (Hp p e He)). unfold good_entry in *. by rewrite Hi.
  - intros j Hj. apply Hk. intros l Hlj. destruct (Hl l j Hlj) as [|[-> _]]; done.
Qed.

Lemma past_set_entry p e fs q :
  past (set_entry p e fs) q = if decide (p = q) then fs_files fs !! p :: past fs p else past fs q.
Proof.
  unfold past, set_entry. simpl. case_decide as E; [subst; by rewrite lookup_insert_eq|].
  by rewrite lookup_insert_ne.
Qed.

Lemma past_sync_dir d fs p : past (sync_dir d fs) p = if decide (in_dir d p) then [] else past fs p.
Proof.
  unfold past, sync_dir. simpl. case_decide as E.
  - rewrite map_lookup_filter_None_2; [done|]. right. intros x _ Hn. by apply Hn.
  - destruct (fs_past fs !! p) as [x|] eqn:Ex.
    + by rewrite (map_lookup_filter_Some_2 _ _ _ _ Ex E).
    + rewrite map_lookup_filter_None_2; [done|]. by left.
Qed.

Lemma sync_dir_solid d fs d' : fs_dirs fs !! d' = Some true -> fs_dirs (sync_dir d fs) !! d' = Some true.
Proof. intros H. unfold sync_dir. simpl. by rewrite map_lookup_imap, H. Qed.

Lemma add_dirs_solid d fs d' : fs_dirs fs !! d' = Some true -> fs_dirs (add_dirs d fs) !! d' = Some true.
Proof.
  unfold add_dirs. simpl. intros H. induction (prefixes d) as [|x l IH]; [done|]. simpl.
  set (f := foldr _ _ _) in *. destruct (f !! x) eqn:Ex; [done|].
  rewrite lookup_insert_ne; [done|]. intros ->. congruence.
Qed.

(** A new temporary file. *)
Lemma steps_create i X m p now :
  inv m -> fs_files (m_fs m) !! p = None -> ~ managed p ->
  let m' := {| m_fs := set_inode (fs_next (m_fs m)) {| i_bytes := []; i_mtime := now; i_synced := false |}
                         (set_entry p (Some (fs_next (m_fs m))) (m_fs m));
               m_locks := m_locks m; m_temps := <[p := i]> (m_temps m) |} in
  steps i X m m' /\ temp_file i p (fs_next (m_fs m)) [] false m'.
Proof.
  intros [E F B J T S] Hp Hm m'. set (n := fs_next (m_fs m)) in *.
  assert (Hfresh : fs_inodes (m_fs m) !! n = None).
  { destruct (fs_inodes (m_fs m) !! n) eqn:En; [|done]. apply B in En. unfold n in En. lia. }
  assert (Hfile : forall q k, fs_files (m_fs m) !! q = Some k -> fs_files (m_fs m') !! q = Some k /\ k <> n).
  { intros q k Hq. split.
    - simpl. rewrite lookup_partial_alter_ne; [done|]. intros ->. congruence.
    - intros ->. destruct (F q n Hq). congruence. }
  assert (Hino : forall k x, fs_inodes (m_fs m) !! k = Some x -> fs_inodes (m_fs m') !! k = Some x).
  { intros k x Hk. simpl. rewrite lookup_insert_ne; [done|]. intros <-. congruence. }
  assert (Hpast : forall q, p <> q -> past (m_fs m') q = past (m_fs m) q).
  { intros q Hq. etransitivity; [apply (past_set_entry p (Some n) (m_fs m) q)|by rewrite decide_False]. }
  assert (Hk : forall j Y, kept j Y m m').
  { intros j Y. split; [| done | |eauto].
    - intros q k _ Ht Hq. destruct (Hfile q k Hq) as [Hq' Hkn]. split; [|split; [done|]].
      + simpl. rewrite lookup_insert_ne; [done|]. intros ->. congruence.
      + simpl. by rewrite lookup_insert_ne.
    - intros l q _ Hg _. assert (p <> q) by (intros ->; apply Hm; by exists l).
      split; [simpl; by rewrite lookup_partial_alter_ne|]. by rewrite Hpast. }
  split; [split; [|by split; intros; apply Hk]|].
  - split.
    + intros q Hq. assert (p <> q) by (by intros ->). unfold entries.
      rewrite Hpast by done. simpl. rewrite lookup_partial_alter_ne by done.
      eapply Forall_impl; [by apply (E q Hq)|]. intros [k|]; [|done]. intros (x & H1 & H2). exists x.
      split; [by apply Hino|done].
    + intros q k. simpl. destruct (decide (p = q)) as [->|Hne].
      * rewrite lookup_partial_alter_eq. intros [= <-]. by rewrite lookup_insert_eq.
      * rewrite lookup_partial_alter_ne by done. intros Hq. destruct (F q k Hq) as [x Hx].
        exists x. by apply (Hino k x).
    + intros k x. simpl. destruct (decide (n = k)) as [<-|Hne]; [lia|]. rewrite lookup_insert_ne by done.
      intros Hx. apply B in Hx. lia.
    + intros q r k. simpl.
      destruct (decide (q = p)) as [->|Hq], (decide (r = p)) as [->|Hr]; try done;
        rewrite ?lookup_partial_alter_eq, ?lookup_partial_alter_ne by done.
      * intros [= <-] Hk'. by destruct (Hfile r n Hk').
      * intros Hk' [= <-]. by destruct (Hfile q n Hk').
      * apply J.
    + intros q j. simpl. destruct (decide (p = q)) as [->|Hne]; [done|]. rewrite lookup_insert_ne by done. apply T.
    + apply S.
  - split; [simpl; by rewrite lookup_insert_eq|]. split; [simpl; by rewrite lookup_partial_alter_eq|].
    eexists. simpl. by rewrite lookup_insert_eq.
Qed.

(** Writing to or syncing a temporary file of one's own. *)
Lemma steps_inode i m p n b ino :
  inv m -> temp_file i p n b false m ->
  let m' := with_fs m (set_inode n ino (m_fs m)) in
  steps i (eq p) m m' /\ temp_file i p n (i_bytes ino) (i_synced ino) m'.
Proof.
  intros [E F B J T S] (Ht & Hp & old & Hold & Hb & Hsy) m'.
  assert (Hino : forall k x, fs_inodes (m_fs m) !! k = Some x -> i_synced x = true ->
                 fs_inodes (m_fs m') !! k = Some x).
  { intros k x Hk Hx. simpl. destruct (decide (n = k)) as [<-|Hne]; [|by rewrite lookup_insert_ne].
    congruence. }
  assert (Hk : forall j (Y : path -> Prop), (forall q, ~ Y q -> m_temps m !! q = Some j -> q <> p) -> kept j Y m m').
  { intros j Y HY. split; [|done|done|exact Hino]. intros q k HYq Hq Hf. split; [done|]. split; [done|]. simpl.
    rewrite lookup_insert_ne; [done|]. intros <-. apply (HY q HYq Hq). by apply (J q p n). }
  split.
  - split; [|split].
    + split; try done.
      * intros q Hq. eapply Forall_impl; [by apply (E q Hq)|]. intros [k|]; [|done]. intros (x & H1 & H2 & H3).
        exists x. split; [by apply Hino|done].
      * intros q k Hq. simpl. destruct (decide (n = k)) as [->|]; [by rewrite lookup_insert_eq|].
        rewrite lookup_insert_ne by done. by apply (F q k).
      * intros k x. simpl. destruct (decide (n = k)) as [<-|]; [lia|]. rewrite lookup_insert_ne by done.
        intros Hx%B. lia.
    + intros j Hj. apply Hk. intros q _ Hq ->. congruence.
    + apply Hk. intros q Hq _ ->. by apply Hq.
  - split; [done|]. split; [done|]. exists ino. simpl. by rewrite lookup_insert_eq.
Qed.

(** A path a thread may change: a temporary file of its own, or a managed path
    whose lock it holds. *)
Definition owns (i : nat) (m : machine) (p : path) : Prop :=
  m_temps m !! p = Some i \/ (exists l, guards l p /\ holds i l m) /\ forall j, mine j p -> j = i.

(** Changing entries one owns. *)
Lemma steps_entries i (X : path -> Prop) m fs' :
  inv m -> (forall p, X p -> owns i m p) ->
  (forall p, ~ X p -> fs_files fs' !! p = fs_files (m_fs m) !! p /\ past fs' p = past (m_fs m) p) ->
  fs_inodes fs' = fs_inodes (m_fs m) -> fs_next fs' = fs_next (m_fs m) -> fs_dirs fs' = fs_dirs (m_fs m) ->
  (forall p, X p \/ ~ X p) ->
  (forall p, X p -> managed p -> Forall (good_entry (m_fs m) p) (entries fs' p)) ->
  (forall p n, fs_files fs' !! p = Some n -> is_Some (fs_inodes (m_fs m) !! n)) ->
  (forall p q n, fs_files fs' !! p = Some n -> fs_files fs' !! q = Some n -> p = q) ->
  steps i X m (with_fs m fs').
Proof.
  intros [E F B J T S] Hown Hout Hi Hn Hd Hdec Hgood Hsome Hinj.
  assert (Hk : forall j (Y : path -> Prop), (j = i -> forall p, X p -> Y p) -> kept j Y m (with_fs m fs')).
  { intros j Y HY. split; simpl.
    - intros q n Hq Ht Hf. destruct (Hdec q) as [HX|HX].
      + destruct (Hown q HX) as [Ho|[(l & Hg & _) _]]; [|destruct (T q j Ht); by exists l].
        destruct Hq. apply HY; [congruence|done].
      + destruct (Hout q HX) as [-> _]. by rewrite Hi.
    - done.
    - intros l q Hq Hg Hor. destruct (Hdec q) as [HX|HX]; [|by destruct (Hout q HX) as [-> ->]].
      destruct Hq. apply HY; [|done].
      destruct (Hown q HX) as [Ho|[(l' & Hg' & Hl) Hmine]]; [destruct (T q i Ho); by exists l|].
      destruct Hor as [Hl'|Hm]; [|by apply Hmine]. rewrite (guards_fun _ _ _ Hg' Hg) in Hl. unfold holds in Hl.
      congruence.
    - intros n x. by rewrite Hi. }
  split; [|split; [|by apply Hk]].
  - split; simpl; rewrite ?Hi, ?Hn, ?Hd; auto. intros q Hq.
    assert (Hsame : forall l, Forall (good_entry (m_fs m) q) l -> Forall (good_entry fs' q) l).
    { intros l Hl. eapply Forall_impl; [exact Hl|]. intros [n|]; [|done]. unfold good_entry. by rewrite Hi. }
    apply Hsame. destruct (Hdec q) as [HX|HX]; [by apply Hgood|].
    unfold entries. destruct (Hout q HX) as [-> ->]. by apply E.
  - intros j Hj. apply Hk. by intros ->.
Qed.

Lemma files_set_entry p e fs q : fs_files (set_entry p e fs) !! q = if decide (p = q) then e else fs_files fs !! q.
Proof.
  unfold set_entry. simpl. case_decide as E; [subst; by rewrite lookup_partial_alter_eq|].
  by rewrite lookup_partial_alter_ne.
Qed.

(** Removing an entry. *)
Lemma steps_remove i p m :
  inv m -> owns i m p -> (managed p -> allowed p None) -> steps i (eq p) m (with_fs m (set_entry p None (m_fs m))).
Proof.
  intros Hm Ho Ha. apply steps_entries; try done.
  - by intros q <-.
  - intros q Hq. by rewrite files_set_entry, past_set_entry, !decide_False by done.
  - intros q. destruct (decide (p = q)); auto.
  - intros q <- Hmg. unfold entries. rewrite files_set_entry, past_set_entry, !decide_True by done.
    constructor; [by apply Ha|]. by apply (inv_entries m Hm p).
  - intros q n. rewrite files_set_entry. case_decide; [done|]. by apply (inv_files m Hm).
  - intros q r n. rewrite !files_set_entry. repeat case_decide; try done. by apply (inv_inj m Hm).
Qed.

(** Renaming a temporary file onto a managed path. *)
Lemma steps_rename i p q m n b :
  inv m -> temp_file i p n b true m -> managed q -> owns i m q -> allowed q (Some b) ->
  let m' := with_fs m (set_entry q (Some n) (set_entry p None (m_fs m))) in
  steps i (fun r => r = p \/ r = q) m m' /\ current q b m'.
Proof.
  intros Hm (Ht & Hp & ino & Hino & Hb & Hs) Hq Ho Ha m'.
  assert (Hpq : p <> q) by (intros <-; by apply (inv_temps m Hm p i)).
  split.
  - apply steps_entries; try done.
    + intros r [->| ->]; [by left|done].
    + intros r Hr. assert (q <> r /\ p <> r) as [Hr1 Hr2] by (split; intros ->; tauto).
      by rewrite !files_set_entry, !past_set_entry, !decide_False.
    + intros r. destruct (decide (r = p)), (decide (r = q)); tauto.
    + intros r [->| ->] Hmr; [by destruct (inv_temps m Hm p i Ht)|]. unfold entries.
      rewrite !files_set_entry, !past_set_entry, !files_set_entry.
      rewrite (decide_True (P := q = q)), (decide_True (P := q = q)) by done.
      rewrite !decide_False by done. constructor; [exists ino; by rewrite Hb|]. by apply (inv_entries m Hm q).
    + intros r k. rewrite !files_set_entry. repeat case_decide; try done.
      * intros [= <-]. by exists ino.
      * by apply (inv_files m Hm).
    + intros r r' k. rewrite !files_set_entry. repeat case_decide; try done; subst; try done.
      * intros [= <-] Hr. by rewrite (inv_inj m Hm r' p n Hr Hp) in *.
      * intros Hr [= <-]. by rewrite (inv_inj m Hm r p n Hr Hp) in *.
      * by apply (inv_inj m Hm).
  - exists n, ino. simpl. by rewrite lookup_partial_alter_eq.
Qed.

(** ** Rules for the calls the driver makes

    [F] is what the thread knows besides; a rule returns it after the call. *)
Section rules.
Context {A : Type} (i : nat) (F : machine -> Prop) (Q : A -> machine -> Prop).

Lemma wp_same {C} (c : call C) k m :
  (forall t m1 x m2, exec i t _ c m1 = Some (x, m2) -> m2 = m1) ->
  inv m -> F m -> stays i nothing F -> (forall x m2, inv m2 -> F m2 -> wpf i (k x) Q m2) ->
  wpf i (Call c k) Q m.
Proof.
  intros Hc Hm HF SF Hk.
  apply (wp_rule i nothing F (fun _ => True) (fun _ _ => True)); try done; try apply stays_true; [|auto].
  intros t m1 x m2 Hm1 _ ->%Hc. split; [by apply steps_refl|done].
Qed.

Lemma wp_MkdirAll d k m :
  inv m -> F m -> stays i nothing F -> (forall x m2, inv m2 -> F m2 -> wpf i (k x) Q m2) ->
  wpf i (Call (MkdirAll d) k) Q m.
Proof.
  intros Hm HF SF Hk.
  apply (wp_rule i nothing F (fun _ => True) (fun _ _ => True)); try done; try apply stays_true; [|auto].
  intros t m1 x m2 Hm1 _ He. split; [|done]. simpl in He. unfold fault_or in He.
  destruct (t_fault t); injection He as <- <-; [by apply steps_refl|].
  apply steps_quiet; try done; [|by left]. intros d'. apply add_dirs_solid.
Qed.

(** After a directory is synced none of its past entries can come back. *)
Lemma wp_SyncDir d k m :
  inv m -> F m -> stays i nothing F ->
  (forall x m2, inv m2 -> F m2 -> (x = Done tt -> forall p, in_dir d p -> past (m_fs m2) p = []) ->
     wpf i (k x) Q m2) ->
  wpf i (Call (SyncDir d) k) Q m.
Proof.
  intros Hm HF SF Hk.
  apply (wp_rule i nothing F (fun _ => True)
           (fun x m2 => x = Done tt -> forall p, in_dir d p -> past (m_fs m2) p = [])); try done; try apply stays_true.
  intros t m1 x m2 Hm1 _ He. simpl in He. unfold fault_or in He.
  destruct (t_fault t); injection He as <- <-; [by split; [apply steps_refl|]|]. split.
  - apply steps_quiet; try done; [| |by left].
    + intros p. simpl. rewrite past_sync_dir. case_decide; [apply list_subseteq_nil|done].
    + intros d'. apply sync_dir_solid.
  - intros _ p Hp. simpl. by rewrite past_sync_dir, decide_True.
Qed.

Lemma wp_Lock l k m :
  inv m -> F m -> stays i nothing F -> (forall x m2, inv m2 -> F m2 -> holds i l m2 -> wpf i (k x) Q m2) ->
  wpf i (Call (Lock l) k) Q m.
Proof.
  intros Hm HF SF Hk.
  apply (wp_rule i nothing F (fun _ => True) (fun _ => holds i l)); try done; try apply stays_true.
  intros t m1 x m2 Hm1 _ He. simpl in He. destruct (m_locks m1 !! l) eqn:El; [done|]. injection He as <- <-.
  split; [|unfold holds; simpl; by rewrite lookup_insert_eq].
  apply steps_quiet; try done; simpl.
  - intros l' j Hj. left. rewrite lookup_insert_ne; [done|]. intros ->. congruence.
  - intros l' Hj. rewrite lookup_insert_ne; [done|]. intros ->. congruence.
Qed.

Lemma wp_Unlock l k m :
  inv m -> F m -> (forall m1 m2, inv m1 -> F m1 -> m_fs m2 = m_fs m1 -> m_temps m2 = m_temps m1 -> F m2) ->
  stays i nothing F -> holds i l m -> (forall x m2, inv m2 -> F m2 -> wpf i (k x) Q m2) ->
  wpf i (Call (Unlock l) k) Q m.
Proof.
  intros Hm HF HFs SF Hl Hk m1 Hr t x m2 He. destruct (Hr Hm) as [Hm1 K1].
  pose proof (stays_holds i nothing l m m1 Hm K1 Hl) as Hl1. simpl in He. injection He as <- <-.
  assert (Hm2 : inv (with_locks m1 (delete l (m_locks m1)))) by by destruct Hm1.
  assert (Hkeep : forall j, j <> i -> kept j nothing m1 (with_locks m1 (delete l (m_locks m1)))).
  { intros j Hj. split; try done. intros l' Hl'. simpl. rewrite lookup_delete_ne; [done|]. intros ->.
    unfold holds in Hl1. congruence. }
  split; [intros j Hj _; split; [done|by apply Hkeep]|]. apply Hk; [done|].
  apply (HFs m1); try done. by apply (SF m m1).
Qed.

Lemma wp_CreateTemp d pattern k m :
  inv m -> F m -> stays i nothing F -> (forall x, ~ managed (d ++ [pattern +:+ x])%list) ->
  (forall x m2, inv m2 -> F m2 ->
     (forall p n, x = Done (p, n) ->
        (exists y, p = (d ++ [pattern +:+ y])%list) /\ temp_file i p n [] false m2) -> wpf i (k x) Q m2) ->
  wpf i (Call (CreateTemp d pattern) k) Q m.
Proof.
  intros Hm HF SF Hd Hk.
  apply (wp_rule i nothing F (fun _ => True)
           (fun x m2 => forall p n, x = Done (p, n) ->
              (exists y, p = (d ++ [pattern +:+ y])%list) /\ temp_file i p n [] false m2));
    try done; try apply stays_true.
  intros t m1 x m2 Hm1 _ He. simpl in He. unfold fault_or in He.
  destruct (t_fault t); [injection He as <- <-; by split; [apply steps_refl|]|].
  destruct (negb (dir_exists (m_fs m1) d)); [injection He as <- <-; by split; [apply steps_refl|]|].
  destruct (fs_files (m_fs m1) !! _) eqn:Ef; injection He as <- <-; [by split; [apply steps_refl|]|].
  destruct (steps_create i nothing m1 _ (t_now t) Hm1 Ef (Hd (t_name t))) as [H1 H2].
  split; [done|]. intros p n [= <- <-]. split; [by eexists|done].
Qed.

(** The calls on a temporary file of one's own. *)
Lemma wp_Write p n b data k m :
  inv m -> F m -> stays i (eq p) F -> temp_file i p n b false m ->
  (forall x m2, inv m2 -> F m2 ->
     (exists b', temp_file i p n b' false m2) /\ (x = Done tt -> temp_file i p n (b ++ data) false m2) ->
     wpf i (k x) Q m2) ->
  wpf i (Call (Write n data) k) Q m.
Proof.
  intros Hm HF SF HT Hk.
  apply (wp_rule i (eq p) F (temp_file i p n b false)
           (fun x m2 => (exists b', temp_file i p n b' false m2)
                        /\ (x = Done tt -> temp_file i p n (b ++ data) false m2))); try done.
  { apply stays_temp. by intros []. }
  intros t m1 x m2 Hm1 Ht He. simpl in He. unfold write_inode, the_inode in He.
  pose proof Ht as (_ & _ & ino & Hi & Hb & _). rewrite Hi in He. simpl in He. rewrite Hb in He.
  destruct (t_fault t); injection He as <- <-.
  - eassert (H := steps_inode i m1 p n b _ Hm1 Ht). destruct H as [H1 H2]. split; [exact H1|]. split; [|done].
    eexists. exact H2.
  - eassert (H := steps_inode i m1 p n b _ Hm1 Ht). destruct H as [H1 H2]. split; [exact H1|].
    split; [eexists; exact H2|]. intros _. exact H2.
Qed.

Lemma wp_Sync p n b k m :
  inv m -> F m -> stays i (eq p) F -> temp_file i p n b false m ->
  (forall x m2, inv m2 -> F m2 ->
     (exists sy, temp_file i p n b sy m2) /\ (x = Done tt -> temp_file i p n b true m2) -> wpf i (k x) Q m2) ->
  wpf i (Call (Sync n) k) Q m.
Proof.
  intros Hm HF SF HT Hk.
  apply (wp_rule i (eq p) F (temp_file i p n b false)
           (fun x m2 => (exists sy, temp_file i p n b sy m2)
                        /\ (x = Done tt -> temp_file i p n b true m2))); try done.
  { apply stays_temp. by intros []. }
  intros t m1 x m2 Hm1 Ht He. simpl in He. unfold the_inode, fault_or in He.
  pose proof Ht as (_ & _ & ino & Hi & Hb & _). rewrite Hi in He. simpl in He. rewrite Hb in He.
  destruct (t_fault t); injection He as <- <-.
  { split; [by apply steps_refl|]. split; [by exists false|done]. }
  eassert (H := steps_inode i m1 p n b _ Hm1 Ht). destruct H as [H1 H2]. split; [exact H1|].
  split; [eexists; exact H2|]. intros _. exact H2.
Qed.

Lemma wp_Remove p (P : machine -> Prop) k m :
  inv m -> F m -> stays i (eq p) F -> P m -> stays i nothing P -> (forall m, P m -> owns i m p) ->
  (managed p -> allowed p None) ->
  (forall x m2, inv m2 -> F m2 -> wpf i (k x) Q m2) ->
  wpf i (Call (Remove p) k) Q m.
Proof.
  intros Hm HF SF HP SP Ho Ha Hk.
  apply (wp_rule i (eq p) F P (fun _ _ => True)); try done; [|auto].
  intros t m1 x m2 Hm1 Ho1%Ho He. split; [|done]. simpl in He. unfold fault_or in He.
  destruct (t_fault t); [injection He as <- <-; by apply steps_refl|].
  destruct (fs_files (m_fs m1) !! p); injection He as <- <-; [by apply steps_remove|by apply steps_refl].
Qed.

Lemma wp_Rename p n b q l k m :
  inv m -> F m -> stays i (fun r => r = p \/ r = q) F -> temp_file i p n b true m ->
  guards l q -> holds i l m -> (forall j, mine j q -> j = i) -> allowed q (Some b) ->
  (forall x m2, inv m2 -> F m2 ->
     (x = Done tt -> current q b m2) /\ (x <> Done tt -> temp_file i p n b true m2) -> wpf i (k x) Q m2) ->
  wpf i (Call (Rename p q) k) Q m.
Proof.
  intros Hm HF SF HT Hg Hl Hmine Ha Hk.
  apply (wp_rule i (fun r => r = p \/ r = q) F (fun m => temp_file i p n b true m /\ holds i l m)
           (fun x m2 => (x = Done tt -> current q b m2) /\ (x <> Done tt -> temp_file i p n b true m2))); try done.
  { apply stays_and; [apply stays_temp; by intros []|apply stays_holds]. }
  intros t m1 x m2 Hm1 [Ht Hh] He. simpl in He. unfold fault_or in He.
  destruct (t_fault t); [injection He as <- <-; by split; [apply steps_refl|]|].
  pose proof Ht as (_ & Hf & _). rewrite Hf in He. injection He as <- <-.
  destruct (steps_rename i p q m1 n b Hm1 Ht) as [H1 H2]; [by exists l|by right; split; [exists l|]|done|].
  split; [exact H1|]. split; [intros _; exact H2|done].
Qed.

Lemma wp_ReadFile p k m :
  managed p -> inv m -> F m -> stays i nothing F ->
  (forall x m2, inv m2 -> F m2 -> (forall d, x = Done d -> allowed p (Some d)) -> wpf i (k x) Q m2) ->
  wpf i (Call (ReadFile p) k) Q m.
Proof.
  intros Hp Hm HF SF Hk.
  apply (wp_rule i nothing F (fun _ => True) (fun x _ => forall d, x = Done d -> allowed p (Some d)));
    try done; try apply stays_true.
  intros t m1 x m2 Hm1 _ He. simpl in He. unfold fault_or in He.
  destruct (t_fault t); [injection He as <- <-; by split; [apply steps_refl|]|].
  destruct (fs_files (m_fs m1) !! p) as [n|] eqn:Hf; injection He as <- <-; [|by split; [apply steps_refl|]].
  split; [by apply steps_refl|]. intros d [= <-].
  pose proof (inv_entries m1 Hm1 p Hp) as He. unfold entries in He. rewrite Hf in He.
  apply Forall_inv in He as (ino & Hi & _ & Ha). unfold the_inode. by rewrite Hi.
Qed.
End rules.
End rely.
