(* ===== verification/FsSafe.v ===== *)
(** * The file blob store under concurrency and crashes, and alone

    Each operation keeps to what the others rely on ([FsRely]), so any number
    of them may be interleaved in any order, with any call failing, and the
    machine may crash at any moment.  With nobody else running and no call
    failing: what each operation returns and what it leaves on the disk. *)
From Stdlib Require Import Ascii String.
From S2P Require Import GoLib Threads GoUrl Base64 Blob FsBlob FsPaths FsRely.
Local Open Scope string_scope.
Local Open Scope Z_scope.

Section safe.
Context (root : path) `{D : SHA256} `{!SHA256Ok} `{J : Json meta}.

(** A key no temporary file can be mistaken for. *)
Definition usable (key : string) : Prop :=
  ValidateKey key = None /\ HasPrefix (last_seg (segments key)) ".tmp-" = false.

Definition guards (l : Z) (p : path) : Prop :=
  exists k, usable k /\ lock k = l /\ (p = objPath root k \/ p = metaPath root k).

Lemma guards_fun l l' p : guards l p -> guards l' p -> l = l'.
Proof.
  intros (k & [Hk _] & <- & Hp) (k' & [Hk' _] & <- & Hp'). f_equal.
  destruct Hp as [-> | ->], Hp' as [E|E].
  - by apply (objPath_inj root).
  - by apply objPath_metaPath in E.
  - symmetry in E. by apply objPath_metaPath in E.
  - by apply (metaPath_inj root).
Qed.

Lemma tmp_json s : HasPrefix s ".tmp-" = false -> HasPrefix (s +:+ ".json") ".tmp-" = false.
Proof.
  intros Hs. apply not_true_iff_false in Hs. apply not_true_iff_false. intros E. apply Hs. clear Hs.
  do 5 (destruct s as [|? s]; [by repeat (simpl in E; try case_match)|
        rewrite ?append_cons in E; cbn [HasPrefix] in *; try (apply andb_prop in E as [-> E]); try done]).
  by destruct s.
Qed.

Lemma tmp_not_managed d x : ~ managed guards (d ++ [".tmp-" +:+ x])%list.
Proof.
  intros (l & k & [Hk Hu] & _ & Hp).
  destruct (paths_valid root k Hk) as (a & b & _ & _ & E). unfold objPath, metaPath in Hp. rewrite E in Hp.
  assert (Hx : HasPrefix (".tmp-" +:+ x) ".tmp-" = true) by apply HasPrefix_app.
  destruct Hp as [Hp|Hp].
  - rewrite segments_split, !app_comm_cons, app_assoc in Hp. apply app_inj_tail in Hp as [_ Hp]. congruence.
  - rewrite !app_comm_cons, app_assoc in Hp. apply app_inj_tail in Hp as [_ Hp].
    apply tmp_json in Hu. congruence.
Qed.

Lemma ping_not_managed x : ~ managed guards (root ++ [x])%list.
Proof.
  intros (l & k & [Hk Hu] & _ & Hp).
  destruct (paths_valid root k Hk) as (a & b & _ & _ & E). unfold objPath, metaPath in Hp. rewrite E in Hp.
  destruct Hp as [Hp%app_inv_head|Hp%app_inv_head]; [|by destruct (removelast (segments k))].
  by destruct (segments k).
Qed.

(** ** The operations keep what the others rely on *)
Section ops.
Context (allowed : path -> option (list ascii) -> Prop) (mine : nat -> path -> Prop) (solid : path -> Prop).
Context (i : nat).
Notation inv := (inv guards allowed solid).
Notation stays := (stays guards allowed mine solid).
Notation wpf p Q m := (wp exec (R guards allowed mine solid) i p Q m).
Notation managed := (managed guards).

(** Where the temporary files of a path are made. *)
Definition near (p r : path) : Prop := r = p \/ exists x, r = (filepath_Dir p ++ [".tmp-" +:+ x])%list.

Lemma stays_near (X : path -> Prop) F : stays i X F -> stays i nothing F.
Proof. by apply stays_nothing. Qed.

(** A failure path: it removes the temporary file and leaves the rest. *)
Lemma wp_removing {A C} (p : path) n b sy (F : machine -> Prop) (k : os_result C -> prog call (result A)) r Q m :
  inv m -> F m -> stays i (eq p) F -> temp_file i p n b sy m ->
  (forall m2, inv m2 -> F m2 -> wpf (k r) Q m2) -> wpf (removing p k r) Q m.
Proof.
  intros Hm HF SF HT Hk. unfold removing.
  apply (wp_Remove guards allowed mine solid guards_fun i F Q p (temp_file i p n b sy)); auto.
  - apply stays_temp. by intros [].
  - intros m' Ht. left. apply Ht.
  - intros Hmg. destruct HT as [HT _]. by destruct (inv_temps _ _ _ _ Hm p i HT).
Qed.

Lemma wp_closing {A C} n (F : machine -> Prop) (k : os_result C -> prog call (result A)) r Q m :
  inv m -> F m -> stays i nothing F -> (forall m2, inv m2 -> F m2 -> wpf (k r) Q m2) -> wpf (closing n k r) Q m.
Proof.
  intros Hm HF SF Hk. unfold closing.
  apply (wp_same guards allowed mine solid i F Q); auto.
  intros t m1 x m2 He. simpl in He. unfold fault_or in He. destruct (t_fault t); by injection He.
Qed.

Lemma wp_fails {A C} msg (r : os_result C) (F : machine -> Prop) (Q : result A -> machine -> Prop) m :
  inv m -> F m -> stays i nothing F -> (forall e m2, inv m2 -> F m2 -> Q (Err e) m2) -> wpf (fails msg r) Q m.
Proof. intros Hm HF SF HQ. unfold fails. by apply (wp_done _ _ _ _ i F); auto. Qed.

(** The failure paths once there is a temporary file. *)
Section failing.
Context {A : Type} (F : machine -> Prop) (Q : result A -> machine -> Prop) (p : path) (n : nat).
Context (SF : stays i (eq p) F) (HQ : forall e m, inv m -> F m -> Q (Err e) m).

Lemma wp_rm_fails {C} msg (r : os_result C) b sy m :
  inv m -> F m -> temp_file i p n b sy m -> wpf (removing p (fails msg) r) Q m.
Proof.
  intros Hm HF HT. apply (wp_removing p n b sy F); try done. intros m2 Hm2 HF2.
  apply (wp_fails _ _ F); auto. by apply stays_nothing in SF.
Qed.

Lemma wp_cl_fails {C} msg (r : os_result C) b sy m :
  inv m -> F m -> temp_file i p n b sy m -> wpf (closing n (removing p (fails msg)) r) Q m.
Proof.
  intros Hm HF HT. apply (wp_closing n (fun m => F m /\ temp_file i p n b sy m)); [done|done| |].
  - apply stays_and; [by apply stays_nothing in SF|]. apply stays_temp. by intros [].
  - intros m2 Hm2 [HF2 HT2]. by apply (wp_rm_fails _ _ b sy).
Qed.
End failing.

Lemma wp_Close {C} n (F : machine -> Prop) (k : os_result unit -> prog call C) (Q : C -> machine -> Prop) m :
  inv m -> F m -> stays i nothing F -> (forall x m2, inv m2 -> F m2 -> wpf (k x) Q m2) -> wpf (Call (Close n) k) Q m.
Proof.
  intros Hm HF SF Hk. apply (wp_same guards allowed mine solid i F Q); auto.
  intros t m1 x m2 He. simpl in He. unfold fault_or in He. destruct (t_fault t); by injection He.
Qed.

(** [F], and on success that the entry is on disk. *)
Definition synced_or {A} (F : machine -> Prop) (P : machine -> Prop) (r : result A) (m : machine) : Prop :=
  inv m /\ F m /\ (is_Ok r = true -> P m).

Lemma wp_syncDir F p b m :
  managed p -> inv m -> F m -> stays i nothing F -> (mine i p -> current p b m) -> p <> [] ->
  wpf (syncDir (filepath_Dir p)) (synced_or F (fun m => mine i p -> durable p b m)) m.
Proof.
  intros [l Hp] Hm HF SF Hc Hne. unfold syncDir, attempt.
  set (F' := fun m => F m /\ (mine i p -> current p b m)).
  assert (SF' : stays i nothing F') by (apply stays_and; [done|apply (stays_current _ _ _ _ i _ l); [intros []|done]]).
  assert (Hfail : forall r e (m : machine), inv m -> F' m ->
    wpf (fails (A := unit) (X := unit) e r) (synced_or F (fun m => mine i p -> durable p b m)) m).
  { intros r e m0 Hm0 HF0. apply (wp_fails _ _ F'); try done. by intros e' m2 ? []. }
  apply (wp_same guards allowed mine solid i F'); try done.
  { intros t m1 x m2 He. simpl in He. unfold fault_or in He. destruct (t_fault t); [by injection He|].
    destruct (dir_exists (m_fs m1) (filepath_Dir p)); by injection He. }
  intros x m1 Hm1 HF1. destruct x; try by apply Hfail.
  apply (wp_SyncDir guards allowed mine solid i F'); try done.
  intros x m2 Hm2 HF2 Hpast. destruct x as [[]| | |]; try by apply Hfail.
  apply (wp_done _ _ _ _ i (fun m => F m /\ (mine i p -> durable p b m))); [done| | |].
  - destruct HF2 as [H1 H2]. split; [done|]. intros Hmi. split; [by apply H2|]. by apply Hpast.
  - apply stays_and; [done|]. apply (stays_durable _ _ _ _ i _ l); [by intros []|done].
  - intros m' Hm' [H1 H2]. by split_and!.
Qed.


Lemma wp_syncDir_any F d m :
  inv m -> F m -> stays i nothing F -> wpf (syncDir d) (fun _ m2 => inv m2 /\ F m2) m.
Proof.
  intros Hm HF SF. unfold syncDir, attempt. apply (wp_same guards allowed mine solid i F); try done.
  { intros t m1 x m2 He. simpl in He. unfold fault_or in He. destruct (t_fault t); [by injection He|].
    destruct (dir_exists (m_fs m1) d); by injection He. }
  intros x m1 Hm1 HF1. destruct x as [[]| | |]; try by apply (wp_fails _ _ F).
  apply (wp_SyncDir guards allowed mine solid i F); try done. intros x m2 Hm2 HF2 _.
  destruct x as [[]| | |]; try by apply (wp_fails _ _ F). by apply (wp_done _ _ _ _ i F).
Qed.

(** ** [writeFileDurably] *)
Lemma wp_writeFileDurably F l p data m :
  guards l p -> inv m -> F m -> stays i (near p) F -> (forall m, F m -> holds i l m) ->
  (forall j, mine j p -> j = i) -> allowed p (Some data) -> p <> [] ->
  wpf (writeFileDurably p data) (synced_or F (fun m => mine i p -> durable p data m)) m.
Proof.
  intros Hg Hm HF SF HL Hmine Ha Hne. unfold writeFileDurably, attempt.
  assert (SF0 : stays i nothing F) by by apply stays_nothing in SF.
  set (Q := synced_or F (fun m => mine i p -> durable p data m)).
  assert (HQ : forall e m, inv m -> F m -> Q (Err e) m) by done.
  apply (wp_CreateTemp guards allowed mine solid i F); try done.
  { intros x. apply tmp_not_managed. }
  intros x m1 Hm1 HF1 HT. destruct x as [[tmpName tmp]| | |]; try by apply (wp_fails _ _ F).
  destruct (HT tmpName tmp eq_refl) as [[y Hy] HT1]. clear HT.
  assert (SFt : stays i (eq tmpName) F) by (eapply stays_weaken; [|exact SF]; intros r <-; right; eauto).
  apply (wp_Write guards allowed mine solid i F _ tmpName tmp []); try done.
  intros x m2 Hm2 HF2 [[b' HTf] HT2]. destruct x as [[]| | |]; try by eapply (wp_cl_fails F); eauto.
  specialize (HT2 eq_refl). clear HTf b'.
  apply (wp_Sync guards allowed mine solid i F _ tmpName tmp data); try done.
  intros x m3 Hm3 HF3 [[sy HTf] HT3]. destruct x as [[]| | |]; try by eapply (wp_cl_fails F); eauto.
  specialize (HT3 eq_refl). clear HTf sy.
  apply (wp_Close tmp (fun m => F m /\ temp_file i tmpName tmp data true m)); try done.
  { apply stays_and; [done|]. apply stays_temp. by intros []. }
  intros x m4 Hm4 [HF4 HT4]. destruct x as [[]| | |]; try by eapply (wp_rm_fails F); eauto.
  apply (wp_Rename guards allowed mine solid guards_fun i F _ tmpName tmp data p l); try done.
  { eapply stays_weaken; [|exact SF]. intros r [->| ->]; [right; eauto|by left]. }
  { by apply HL. }
  intros x m5 Hm5 HF5 [Hc HT5]. destruct x as [[]| | |]; try by eapply (wp_rm_fails F); [..|apply HT5]; eauto.
  apply wp_syncDir; try done; [by exists l|auto].
Qed.

(** ** [mu.Lock(); defer mu.Unlock()] *)
Lemma wp_locked {A} key (F : machine -> Prop) (body : prog call (result A)) (P : result A -> machine -> Prop) m :
  inv m -> F m -> stays i nothing F ->
  (forall m1, inv m1 -> F m1 -> holds i (lock key) m1 ->
     wpf body (fun r m2 => inv m2 /\ holds i (lock key) m2 /\ P r m2) m1) ->
  (forall r, stays i nothing (P r)) -> (forall r m1 m2, m_fs m2 = m_fs m1 -> P r m1 -> P r m2) ->
  wpf (locked key body) (fun r m2 => inv m2 /\ P r m2) m.
Proof.
  intros Hm HF SF Hb SP HP. unfold locked.
  apply (wp_Lock guards allowed mine solid i F); try done. intros _ m1 Hm1 HF1 Hl.
  apply (wp_bind exec (R guards allowed mine solid) _). eapply wp_conseq; [by apply Hb|].
  intros r m2 (Hm2 & Hl2 & HP2).
  apply (wp_Unlock guards allowed mine solid i (P r)); try done; [by intros; eapply HP|].
  intros _ m3 Hm3 HP3. by apply (wp_done _ _ _ _ i (P r)).
Qed.

Section one_key.
Context (key : string) (Hu : usable key).
Notation obj := (objPath root key).
Notation mt := (metaPath root key).

Lemma guards_obj : guards (lock key) obj.
Proof. exists key. auto. Qed.
Lemma guards_meta : guards (lock key) mt.
Proof. exists key. auto. Qed.
Hint Resolve guards_obj guards_meta : core.

Lemma path_not_nil l p : guards l p -> p <> [].
Proof.
  intros (k & [Hk _] & _ & Hp). destruct (paths_valid root k Hk) as (a & b & _ & _ & E).
  unfold objPath, metaPath in Hp. rewrite E in Hp.
  destruct Hp as [-> | ->]; intros [_ Hnil]%app_eq_nil; done.
Qed.
Hint Resolve path_not_nil : core.

Lemma obj_not_near : ~ near mt obj.
Proof.
  intros [E|[x E]]; [by destruct Hu; apply (objPath_metaPath root) in E|].
  apply (tmp_not_managed (filepath_Dir mt) x). rewrite <- E. by exists (lock key).
Qed.

(** Only thread [i] changes the files of the key, if any thread claims them. *)
Context (Hmine : forall j, mine j obj \/ mine j mt -> j = i).

(** *** [Put] *)
Definition stored (r : list ascii) (raw : string) (m : machine) : Prop :=
  (mine i obj -> durable obj r m) /\ (mine i mt -> durable mt (bytes raw) m).

Lemma stays_stored r raw : stays i nothing (stored r raw).
Proof.
  apply stays_and; by apply (stays_durable _ _ _ _ i _ (lock key)); [intros []|].
Qed.

Lemma wp_commit tmpName n etag r raw m :
  allowed obj (Some r) -> allowed mt (Some (bytes raw)) ->
  inv m -> temp_file i tmpName n r true m -> holds i (lock key) m ->
  wpf (commit tmpName obj mt etag (bytes raw))
    (fun x m2 => inv m2 /\ holds i (lock key) m2 /\ (is_Ok x = true -> x = Ok etag /\ stored r raw m2)) m.
Proof.
  intros Ha1 Ha2 Hm HT Hl. unfold commit, attempt.
  set (Q := fun x m2 => _). set (L := holds i (lock key)).
  assert (SH : forall X, stays i X L) by (intros X; apply stays_holds).
  assert (HQ : forall e m, inv m -> L m -> Q (Err e) m) by done.
  apply (wp_Rename guards allowed mine solid guards_fun i L _ tmpName n r obj (lock key)); try done; auto.
  intros x m1 Hm1 HF1 [Hc HT1]. destruct x as [[]| | |]; try by eapply (wp_rm_fails L); [..|apply HT1]; eauto.
  apply (wp_bind exec (R guards allowed mine solid) _). eapply wp_conseq.
  { apply (wp_syncDir L obj r); [by exists (lock key)|done|done|done|by intros _; apply Hc|eauto]. }
  intros [[]|e] m2 (Hm2 & HF2 & Hd); [|by apply (wp_done _ _ _ _ i L); auto].
  apply (wp_bind exec (R guards allowed mine solid) _). eapply wp_conseq.
  { apply (wp_writeFileDurably (fun m => L m /\ (mine i obj -> durable obj r m)) (lock key)); eauto.
    - apply stays_and; [done|]. apply (stays_durable _ _ _ _ i _ (lock key)); [apply obj_not_near|done].
    - by intros m0 []. }
  intros w m3 (Hm3 & [HF3 Hd3] & Hw).
  apply (wp_done _ _ _ _ i (fun m => L m /\ (is_Ok w = true -> stored r raw m))); [done| | |].
  - split; [done|]. intros Hok. split; [done|by apply Hw].
  - apply stays_and; [done|]. intros m4 m5 Hm4 Hk Hs Hok. by apply (stays_stored r raw m4 m5 Hm4 Hk), Hs.
  - intros m4 Hm4 [H1 H2]. split; [done|]. split; [done|]. destruct w; [|done]. by split; [|apply H2].
Qed.

Lemma paths_key : paths root key = Ok (obj, mt).
Proof. apply (paths_Ok root), Hu. Qed.

Lemma wp_CtxErr {A} (F : machine -> Prop) (k : option context_sentinel -> prog call A) (Q : A -> machine -> Prop) m :
  inv m -> F m -> stays i nothing F -> (forall x m2, inv m2 -> F m2 -> wpf (k x) Q m2) -> wpf (Call CtxErr k) Q m.
Proof.
  intros Hm HF SF Hk. apply (wp_same guards allowed mine solid i F Q); auto.
  intros t m1 x m2 He. simpl in He. congruence.
Qed.

Definition sidecar (r : list ascii) (ct : string) : meta :=
  {| ContentType := ct; ETag := hex_EncodeToString (sha256_Sum256 r); meta_Size := Z.of_nat (length r) |}.

Definition put_done (r : list ascii) (ct : string) (x : result string) (m : machine) : Prop :=
  is_Ok x = true -> x = Ok (ETag (sidecar r ct)) /\ exists raw, Marshal (sidecar r ct) = Some raw /\ stored r raw m.

Lemma put_done_stays r ct x : stays i nothing (put_done r ct x).
Proof.
  intros m m' Hm Hk H1 H2. destruct (H1 H2) as (E & raw & H3 & H4). split; [done|]. exists raw. split; [done|].
  by apply (stays_stored r raw m m' Hm Hk).
Qed.

Notation yes := (fun _ : machine => True).

Lemma wp_Put r size ct m :
  allowed obj (Some r) -> (forall raw, Marshal (sidecar r ct) = Some raw -> allowed mt (Some (bytes raw))) ->
  inv m -> wpf (Put root key r size ct) (fun x m2 => inv m2 /\ put_done r ct x m2) m.
Proof.
  intros Ha1 Ha2 Hm. unfold Put. rewrite paths_key. unfold attempt.
  assert (SY : forall X, stays i X yes) by done. set (Q := fun x m => inv m /\ put_done r ct x m).
  assert (HQ : forall e m, inv m -> yes m -> Q (Err e) m) by done.
  apply (wp_CtxErr yes); auto. intros [e|] m1 Hm1 _; [by apply (wp_done _ _ _ _ i yes)|].
  apply (wp_MkdirAll guards allowed mine solid i yes); auto. intros x m2 Hm2 _.
  destruct x as [[]| | |]; try by apply (wp_fails _ _ yes).
  apply (wp_MkdirAll guards allowed mine solid i yes); auto. intros x m3 Hm3 _.
  destruct x as [[]| | |]; try by apply (wp_fails _ _ yes).
  apply (wp_CreateTemp guards allowed mine solid i yes); auto; [intros x; apply tmp_not_managed|].
  intros x m4 Hm4 _ HT. destruct x as [[tmpName tmp]| | |]; try by apply (wp_fails _ _ yes).
  destruct (HT tmpName tmp eq_refl) as [_ HT4]. clear HT.
  apply (wp_Write guards allowed mine solid i yes _ tmpName tmp []); auto.
  intros x m5 Hm5 _ [[b' HTf] HT5]. destruct x as [[]| | |]; try by eapply (wp_cl_fails yes); eauto.
  case_match; [by eapply (wp_cl_fails yes); eauto|]. specialize (HT5 eq_refl). clear HTf b'.
  apply (wp_Sync guards allowed mine solid i yes _ tmpName tmp r); auto.
  intros x m6 Hm6 _ [[sy HTf] HT6]. destruct x as [[]| | |]; try by eapply (wp_cl_fails yes); eauto.
  specialize (HT6 eq_refl). clear HTf sy. set (T := temp_file i tmpName tmp r true) in *.
  assert (ST : stays i nothing T) by (apply stays_temp; by intros []).
  apply (wp_Close tmp T); auto.
  intros x m7 Hm7 HT7. destruct x as [[]| | |]; try by eapply (wp_rm_fails yes); eauto.
  fold (sidecar r ct). destruct (Marshal (sidecar r ct)) as [raw|] eqn:Hraw.
  - apply (wp_locked key T _ (put_done r ct)); auto.
    + intros m8 Hm8 HT8 Hl. eapply wp_conseq; [by eapply (wp_commit tmpName tmp _ r raw); eauto|].
      intros y m9 (Hm9 & Hl9 & Hs). split; [done|]. split; [done|]. intros Hok. destruct (Hs Hok) as [-> Hst]. split; [done|]. exists raw. auto.
    + apply put_done_stays.
    + intros y ma mb E H1 H2. destruct (H1 H2) as (E' & raw' & H3 & H4). split; [done|]. exists raw'. split; [done|].
      unfold stored, durable, current in *. by rewrite E.
  - apply (wp_removing tmpName tmp r true yes (fun _ => Ret (Err (NewErr "json"))) (Done tt)); auto.
    intros m8 Hm8 _. by apply (wp_done _ _ _ _ i yes).
Qed.

(** *** [Get] and [Stat] *)
Definition read_ok (x : result (BlobInfo * path)) : Prop :=
  forall info o, x = Ok (info, o) -> o = obj /\ bi_Key info = key
    /\ exists raw c, allowed mt (Some raw) /\ Unmarshal (of_bytes raw) = Some c
         /\ bi_ContentType info = ContentType c /\ bi_ETag info = ETag c.

Lemma wp_stat m : inv m -> wpf (stat root key) (fun x m2 => inv m2 /\ read_ok x) m.
Proof.
  intros Hm. unfold stat. rewrite paths_key. apply (wp_locked key yes _ (fun x _ => read_ok x)); try done; [|intros; apply stays_pure].
  intros m1 Hm1 _ Hl. set (L := holds i (lock key)) in *.
  assert (SL : stays i nothing L) by apply stays_holds.
  unfold readMeta, attempt.
  apply (wp_same guards allowed mine solid i L); try done.
  { intros t m2 x m3 He. simpl in He. unfold fault_or in He. destruct (t_fault t); [by injection He|].
    by destruct (fs_files (m_fs m2) !! obj); injection He. }
  intros x m2 Hm2 HL2. destruct x as [[sz mtime]| | |]; try by apply (wp_done _ _ _ _ i L).
  apply (wp_bind exec (R guards allowed mine solid) _).
  apply (wp_ReadFile guards allowed mine solid i L); try done; [by exists (lock key)|].
  intros x m3 Hm3 HL3 Hall.
  apply (wp_conseq _ _ _ _ (fun y m => inv m /\ L m /\ forall c, y = Ok c ->
           exists raw, allowed mt (Some raw) /\ Unmarshal (of_bytes raw) = Some c)).
  { destruct x as [raw| | |]; try by apply (wp_done _ _ _ _ i L).
    apply (wp_done _ _ _ _ i L); try done. intros m4 Hm4 HL4. split; [done|]. split; [done|].
    intros c Hc. exists raw. split; [by apply Hall|]. destruct (Unmarshal (of_bytes raw)); congruence. }
  intros y m4 (Hm4 & HL4 & Hy). apply (wp_done _ _ _ _ i L); try done. intros m5 Hm5 HL5.
  split; [done|]. split; [done|]. intros info o E. destruct y as [c|]; [|done].
  destruct (Hy c eq_refl) as (raw & H1 & H2). injection E as <- <-. eauto 10.
Qed.

Lemma wp_Get m :
  inv m ->
  wpf (Get root key) (fun x _ => forall d info, x = Ok (d, info) ->
    allowed obj (Some d) /\ read_ok (Ok (info, obj))) m.
Proof.
  intros Hm. unfold Get. apply (wp_CtxErr yes); try done. intros [e|] m1 Hm1 _.
  { by apply (wp_done _ _ _ _ i yes). }
  apply (wp_bind exec (R guards allowed mine solid) _). eapply wp_conseq; [by apply wp_stat|].
  intros [[info o]|e] m2 [Hm2 Hs]; [|by apply (wp_done _ _ _ _ i yes)].
  destruct (Hs info o eq_refl) as (-> & Hinfo). unfold attempt.
  apply (wp_ReadFile guards allowed mine solid i yes); try done; [by exists (lock key)|].
  intros x m3 Hm3 _ Hall. destruct x as [d| | |]; try by apply (wp_done _ _ _ _ i yes).
  apply (wp_done _ _ _ _ i yes); try done. intros m4 _ _ d' info' [= <- <-]. split; [by apply Hall|done].
Qed.

Lemma wp_StatBlob m :
  inv m -> wpf (StatBlob root key) (fun x _ => forall info, x = Ok info -> read_ok (Ok (info, obj))) m.
Proof.
  intros Hm. unfold StatBlob. apply (wp_CtxErr yes); try done. intros [e|] m1 Hm1 _.
  { by apply (wp_done _ _ _ _ i yes). }
  apply (wp_bind exec (R guards allowed mine solid) _). eapply wp_conseq; [by apply wp_stat|].
  intros [[info o]|e] m2 [Hm2 Hs]; apply (wp_done _ _ _ _ i yes); try done.
  intros m3 _ _ info' [= <-]. by destruct (Hs info o eq_refl) as (-> & ?).
Qed.

(** *** [Delete] *)
Lemma wp_Delete m :
  allowed obj None -> allowed mt None -> inv m -> wpf (Delete root key) (fun _ _ => True) m.
Proof.
  intros Ha1 Ha2 Hm. unfold Delete. rewrite paths_key. apply (wp_CtxErr yes); try done.
  intros [e|] m1 Hm1 _; [by apply (wp_done _ _ _ _ i yes)|].
  eapply wp_conseq; [|by intros]. apply (wp_locked key yes _ (fun _ _ => True)); try done.
  intros m2 Hm2 _ Hl. set (L := holds i (lock key)) in *.
  assert (SL : forall X, stays i X L) by (intros X; apply stays_holds).
  assert (Ho : forall m p, p = obj \/ p = mt -> L m -> owns guards mine i m p).
  { intros m' p Hp HL. right. split; [exists (lock key); by destruct Hp as [-> | ->]|].
    intros j Hj. apply Hmine. destruct Hp as [-> | ->]; auto. }
  unfold attempt. apply (wp_Remove guards allowed mine solid guards_fun i L _ obj L); auto.
  intros x m3 Hm3 HL3. destruct x as [[]| | |]; try by apply (wp_done _ _ _ _ i L).
  apply (wp_Remove guards allowed mine solid guards_fun i L _ mt L); auto.
  intros x m4 Hm4 HL4.
  assert (Hsync : wpf (syncDir (filepath_Dir obj)) (fun _ m2 => inv m2 /\ L m2 /\ True) m4).
  { eapply wp_conseq; [by apply (wp_syncDir_any L)|]. by intros ? ? []. }
  destruct x; try done; by apply (wp_done _ _ _ _ i L).
Qed.
End one_key.

(** *** The other operations *)
Lemma wp_Ping m : inv m -> wpf (Ping root) (fun _ _ => True) m.
Proof.
  intros Hm. set (yes := fun _ : machine => True). unfold Ping, attempt. apply (wp_CtxErr yes); try done.
  intros [e|] m1 Hm1 _; [by apply (wp_done _ _ _ _ i yes)|].
  apply (wp_same guards allowed mine solid i yes); try done.
  { intros t m2 x m3 He. simpl in He. unfold fault_or in He. destruct (t_fault t); [by injection He|].
    destruct (dir_exists (m_fs m2) root); [by injection He|]. by destruct (fs_files (m_fs m2) !! root); injection He. }
  intros x m2 Hm2 _. destruct x as [[]| | |]; try by apply (wp_fails _ _ yes).
  2: by apply (wp_done _ _ _ _ i yes).
  apply (wp_CreateTemp guards allowed mine solid i yes); try done; [intros x; apply ping_not_managed|].
  intros x m3 Hm3 _ HT. destruct x as [[tmpName tmp]| | |]; try by apply (wp_fails _ _ yes).
  destruct (HT tmpName tmp eq_refl) as [_ HT4].
  apply (wp_Close tmp (temp_file i tmpName tmp [] false)); try done; [apply stays_temp; by intros []|].
  intros x m5 Hm5 HT5.
  apply (wp_removing (A := unit) tmpName tmp [] false yes (fun _ => Ret (Ok tt)) (Done tt)); try done.
Qed.
End ops.
End safe.

(** No call fails, the context is live, and [os.CreateTemp] finds a free name. *)
Record calm (turns : machine -> turn) : Prop := {
  calm_ctx m : t_ctx (turns m) = None;
  calm_fault m : t_fault (turns m) = None;
  calm_name m d pattern : fs_files (m_fs m) !! (d ++ [pattern +:+ t_name (turns m)])%list = None;
}.

Section alone.
Context (root : path) `{D : SHA256} `{!SHA256Ok} `{J : Json meta}.
Context (turns : machine -> turn) (Hcalm : calm turns) (i : nat).

Notation run p m := (alone exec turns i p m).

Lemma run_call {A X} (c : call X) (k : X -> prog call A) m x m' :
  exec i (turns m) _ c m = Some (x, m') -> run (Call c k) m = run (k x) m'.
Proof. intros E. simpl. by rewrite E. Qed.

Lemma no_fault {A} m (r : os_result A * machine) : fault_or (turns m) m r = Some r.
Proof. unfold fault_or. by rewrite (calm_fault turns Hcalm). Qed.

(** A body that leaves the locks as they are. *)
Lemma run_locked {A} key (body : prog call (result A)) m r fs' tm' :
  m_locks m !! lock key = None ->
  run body (with_locks m (<[lock key := i]> (m_locks m)))
    = Some (r, {| m_fs := fs'; m_locks := <[lock key := i]> (m_locks m); m_temps := tm' |}) ->
  run (locked key body) m = Some (r, {| m_fs := fs'; m_locks := m_locks m; m_temps := tm' |}).
Proof.
  intros Hl Hb. unfold locked.
  rewrite (run_call _ _ m tt (with_locks m (<[lock key := i]> (m_locks m)))) by (simpl; by rewrite Hl).
  cbv beta. rewrite alone_bind, Hb. simpl. unfold with_locks. simpl. by rewrite delete_insert_id.
Qed.

Section one_key.
Context (key : string) (Hv : ValidateKey key = None).
Notation obj := (objPath root key).
Notation mt := (metaPath root key).

Definition present (m : machine) (ino : inode) (raw : list ascii) (c : meta) : Prop :=
  (exists n, fs_files (m_fs m) !! obj = Some n /\ fs_inodes (m_fs m) !! n = Some ino)
  /\ file_at (m_fs m) mt = Some raw /\ Unmarshal (of_bytes raw) = Some c.

Definition info_of_file (ino : inode) (c : meta) : BlobInfo :=
  {| bi_Key := key; bi_Size := Z.of_nat (length (i_bytes ino)); bi_ContentType := ContentType c;
     bi_ETag := ETag c; bi_ModTime := i_mtime ino |}.

Lemma exec_ReadFile m p d :
  file_at (m_fs m) p = Some d -> exec i (turns m) _ (ReadFile p) m = Some (Done d, m).
Proof.
  unfold file_at. intros Hf. simpl. rewrite no_fault.
  destruct (fs_files (m_fs m) !! p) as [n|]; [|done]. simpl in Hf. unfold the_inode.
  destruct (fs_inodes (m_fs m) !! n) as [ino|]; [|done]. simpl in Hf. injection Hf as <-. done.
Qed.

Lemma exec_CtxErr m : exec i (turns m) _ CtxErr m = Some (None, m).
Proof. simpl. by rewrite (calm_ctx turns Hcalm). Qed.

Lemma run_stat m ino raw c :
  m_locks m !! lock key = None -> present m ino raw c ->
  run (stat root key) m = Some (Ok (info_of_file ino c, obj), m).
Proof.
  intros Hl ((n & Hn & Hi) & Hm & Hu). unfold stat. rewrite (paths_Ok root key Hv).
  replace m with {| m_fs := m_fs m; m_locks := m_locks m; m_temps := m_temps m |} at 2 by by destruct m.
  apply run_locked; [done|]. set (m1 := with_locks m _). unfold attempt, readMeta, attempt.
  rewrite (run_call _ _ m1 (Done (Z.of_nat (length (i_bytes ino)), i_mtime ino)) m1).
  2: { simpl. rewrite no_fault, Hn. unfold the_inode. by rewrite Hi. }
  cbv beta iota. rewrite alone_bind. rewrite (run_call _ _ m1 (Done raw) m1) by by apply exec_ReadFile.
  simpl. by rewrite Hu.
Qed.

Lemma run_Get m ino raw c :
  m_locks m !! lock key = None -> present m ino raw c ->
  run (Get root key) m = Some (Ok (i_bytes ino, info_of_file ino c), m).
Proof.
  intros Hl Hp. unfold Get. rewrite (run_call _ _ m None m) by apply exec_CtxErr. cbv beta iota.
  rewrite alone_bind, (run_stat m ino raw c) by done. cbv beta iota.
  destruct Hp as ((n & Hn & Hi) & _). unfold attempt.
  rewrite (run_call _ _ m (Done (i_bytes ino)) m); [done|]. apply exec_ReadFile.
  unfold file_at. rewrite Hn. simpl. by rewrite Hi.
Qed.

Lemma run_StatBlob m ino raw c :
  m_locks m !! lock key = None -> present m ino raw c ->
  run (StatBlob root key) m = Some (Ok (info_of_file ino c), m).
Proof.
  intros Hl Hp. unfold StatBlob. rewrite (run_call _ _ m None m) by apply exec_CtxErr. cbv beta iota.
  by rewrite alone_bind, (run_stat m ino raw c).
Qed.

(** Nothing at the path. *)
Lemma run_stat_missing m :
  m_locks m !! lock key = None -> fs_files (m_fs m) !! obj = None ->
  run (stat root key) m = Some (Err (Wrap "fsblob: " ErrBlobNotFound), m).
Proof.
  intros Hl Hn. unfold stat. rewrite (paths_Ok root key Hv).
  replace m with {| m_fs := m_fs m; m_locks := m_locks m; m_temps := m_temps m |} at 2 by by destruct m.
  apply run_locked; [done|]. set (m1 := with_locks m _). unfold attempt.
  rewrite (run_call _ _ m1 NotExist m1); [done|]. simpl. by rewrite no_fault, Hn.
Qed.

Lemma run_missing m :
  m_locks m !! lock key = None -> fs_files (m_fs m) !! obj = None ->
  run (Get root key) m = Some (Err (Wrap "fsblob: " ErrBlobNotFound), m)
  /\ run (StatBlob root key) m = Some (Err (Wrap "fsblob: " ErrBlobNotFound), m).
Proof.
  intros Hl Hn. unfold Get, StatBlob.
  split; rewrite (run_call _ _ m None m) by apply exec_CtxErr; cbv beta iota; by rewrite alone_bind, run_stat_missing.
Qed.
End one_key.

(** A key that may not be used. *)
Lemma run_invalid key e m :
  ValidateKey key = Some e ->
  (forall r n ct, run (Put root key r n ct) m = Some (Err e, m))
  /\ run (Get root key) m = Some (Err e, m) /\ run (StatBlob root key) m = Some (Err e, m)
  /\ run (Delete root key) m = Some (Err e, m).
Proof.
  intros Hv. unfold Put, Get, StatBlob, Delete, stat. rewrite (paths_Err root key e Hv).
  split_and!; try done; rewrite (run_call _ _ m None m) by apply exec_CtxErr; done.
Qed.

(** ** Writing a file *)
Lemma dir_exists_add d fs : d <> [] -> dir_exists (add_dirs d fs) d = true.
Proof.
  intros Hd. apply bool_decide_eq_true_2. unfold add_dirs. cbn [fs_dirs].
  assert (Hin : d ∈ prefixes d).
  { clear -Hd. induction d as [|x d IH]; [done|]. simpl. destruct d as [|y d]; [by left|]. right.
    apply list_elem_of_fmap. exists (y :: d). split; [done|]. by apply IH. }
  induction (prefixes d) as [|x l IH]; [by apply not_elem_of_nil in Hin|]. simpl.
  set (f := foldr _ _ _) in *. apply elem_of_cons in Hin as [->|Hin].
  - destruct (f !! x) eqn:E; [by rewrite E|]. rewrite lookup_insert_eq. by eexists.
  - specialize (IH Hin). destruct (f !! x) eqn:E; [done|].
    destruct (decide (x = d)) as [->|]; [rewrite lookup_insert_eq; by eexists|]. by rewrite lookup_insert_ne.
Qed.

Lemma dir_exists_mono d d' fs : dir_exists fs d = true -> dir_exists (add_dirs d' fs) d = true.
Proof.
  unfold dir_exists, add_dirs. cbn [fs_dirs]. rewrite !bool_decide_eq_true. intros [b Hb].
  induction (prefixes d') as [|x l [b' IH]]; [by exists b|]. simpl. set (f := foldr _ _ _) in *.
  destruct (f !! x) eqn:E; [by exists b'|]. exists b'. rewrite lookup_insert_ne; [done|]. intros ->. congruence.
Qed.

Lemma dir_exists_sync d d' fs : dir_exists fs d = true -> dir_exists (sync_dir d' fs) d = true.
Proof.
  unfold dir_exists, sync_dir. cbn [fs_dirs]. rewrite !bool_decide_eq_true, map_lookup_imap. intros [b ->].
  by eexists.
Qed.

(** A temporary file with its contents, beside the files there were. *)
Context (now : Z) (Hnow : forall m, t_now (turns m) = now).

Record staged (tmp : path) (data : list ascii) (m m' : machine) : Prop := {
  sg_locks : m_locks m' = m_locks m;
  sg_free : fs_files (m_fs m) !! tmp = None;
  sg_files p : fs_files (m_fs m') !! p = if decide (p = tmp) then Some (fs_next (m_fs m)) else fs_files (m_fs m) !! p;
  sg_inodes n : fs_inodes (m_fs m') !! n =
    if decide (n = fs_next (m_fs m)) then Some {| i_bytes := data; i_mtime := now; i_synced := true |}
    else fs_inodes (m_fs m) !! n;
  sg_next : fs_next (m_fs m') = S (fs_next (m_fs m));
  sg_dirs : fs_dirs (m_fs m') = fs_dirs (m_fs m);
}.

Lemma stage_steps d data m :
  dir_exists (m_fs m) d = true ->
  let n := fs_next (m_fs m) in
  exists tmp m1 m2 m3,
    exec i (turns m) _ (CreateTemp d ".tmp-") m = Some (Done (tmp, n), m1)
    /\ exec i (turns m1) _ (Write n data) m1 = Some (Done tt, m2)
    /\ exec i (turns m2) _ (Sync n) m2 = Some (Done tt, m3)
    /\ staged tmp data m m3.
Proof.
  intros Hd n. exists (d ++ [".tmp-" +:+ t_name (turns m)])%list.
  eexists _, _, _. split; [|split; [|split]].
  - cbn [exec]. rewrite no_fault, Hd. cbn [negb]. unfold temp_name.
    rewrite (calm_name turns Hcalm m d ".tmp-"). reflexivity.
  - cbn [exec]. rewrite (calm_fault turns Hcalm). reflexivity.
  - cbn [exec]. rewrite no_fault. reflexivity.
  - unfold write_inode, the_inode. simpl. rewrite !lookup_insert_eq. simpl.
    split; try done; simpl.
    + apply (calm_name turns Hcalm).
    + intros p. case_decide as E; [subst; by rewrite lookup_partial_alter_eq|].
      rewrite lookup_partial_alter_ne; [done|]. congruence.
    + intros k. case_decide as E; [subst; by rewrite lookup_insert_eq, Hnow|].
      rewrite !lookup_insert_ne by (unfold n; congruence). done.
    + lia.
Qed.

Lemma exec_Close n m : exec i (turns m) _ (Close n) m = Some (Done tt, m).
Proof. simpl. by rewrite no_fault. Qed.

(** A file written, and nothing else changed. *)
Record written (p : path) (data : list ascii) (m m' : machine) : Prop := {
  wr_locks : m_locks m' = m_locks m;
  wr_files q : fs_files (m_fs m') !! q = if decide (q = p) then Some (fs_next (m_fs m)) else fs_files (m_fs m) !! q;
  wr_inodes n : fs_inodes (m_fs m') !! n =
    if decide (n = fs_next (m_fs m)) then Some {| i_bytes := data; i_mtime := now; i_synced := true |}
    else fs_inodes (m_fs m) !! n;
  wr_next : fs_next (m_fs m') = S (fs_next (m_fs m));
  wr_dirs d : dir_exists (m_fs m) d = true -> dir_exists (m_fs m') d = true;
}.

Lemma rename_steps tmp data p d m0 m :
  staged tmp data m0 m -> dir_exists (m_fs m) d = true ->
  exists m1 m2,
    exec i (turns m) _ (Rename tmp p) m = Some (Done tt, m1)
    /\ run (syncDir d) m1 = Some (Ok tt, m2)
    /\ written p data (with_locks m0 (m_locks m)) m2.
Proof.
  intros [Sl Sf Sfi Si Sn Sd] Hd. set (n := fs_next (m_fs m0)) in *.
  exists (with_fs m (set_entry p (Some n) (set_entry tmp None (m_fs m)))). eexists. split; [|split].
  - simpl. rewrite no_fault, Sfi, decide_True by done. reflexivity.
  - unfold syncDir, attempt. set (m1 := with_fs _ _).
    rewrite (run_call _ _ m1 (Done tt) m1).
    2: { simpl. rewrite no_fault. unfold dir_exists in *. simpl. by rewrite Hd. }
    cbv beta iota. rewrite (run_call _ _ m1 (Done tt) (with_fs m1 (sync_dir d (m_fs m1)))); [reflexivity|].
    simpl. by rewrite no_fault.
  - split.
    + done.
    + intros q. cbn [with_fs with_locks m_fs sync_dir fs_files]. rewrite files_set_entry.
      destruct (decide (p = q)) as [->|Hne]; [by rewrite decide_True|]. rewrite files_set_entry.
      rewrite (decide_False (P := q = p)) by congruence.
      destruct (decide (tmp = q)) as [<-|Hne2]; [done|]. rewrite Sfi, decide_False by congruence. done.
    + intros k. simpl. apply Si.
    + simpl. done.
    + intros d' Hd'. simpl. apply dir_exists_sync. unfold dir_exists in *. simpl in *. by rewrite Sd.
Qed.

Lemma run_writeFileDurably p data m :
  dir_exists (m_fs m) (filepath_Dir p) = true ->
  exists m', run (writeFileDurably p data) m = Some (Ok tt, m') /\ written p data m m'.
Proof.
  intros Hd. destruct (stage_steps (filepath_Dir p) data m Hd) as (tmp & m1 & m2 & m3 & E1 & E2 & E3 & Hst).
  destruct (rename_steps tmp data p (filepath_Dir p) m m3 Hst) as (m4 & m5 & E4 & E5 & Hw).
  { unfold dir_exists. by rewrite (sg_dirs _ _ _ _ Hst). }
  exists m5. split.
  - unfold writeFileDurably, attempt. rewrite (run_call _ _ _ _ _ E1). cbv beta iota.
    rewrite (run_call _ _ _ _ _ E2). cbv beta iota. rewrite (run_call _ _ _ _ _ E3). cbv beta iota.
    rewrite (run_call _ _ _ _ _ (exec_Close _ _)). cbv beta iota. rewrite (run_call _ _ _ _ _ E4). exact E5.
  - rewrite (sg_locks _ _ _ _ Hst) in Hw. by destruct m.
Qed.
End alone.
