(* ===== verification/Rollup.v ===== *)
(** * Analytics rollups ([internal/analytics/rollup.go], the aggregator of the
    stores)

    [BuildRollups] turns a batch of scan events into the deltas stored with
    it; the aggregator folds stored rollup rows into a query's answer.  The
    theorems are the conservation law of the pipeline: every breakdown counts
    exactly the scans the total counts. *)
From Stdlib Require Import Ascii String.
From S2P Require Import GoLib Domain.
Local Open Scope string_scope.
Local Open Scope Z_scope.

(** ** Keys *)
Record rollupKey := {
  rk_code : string;
  rk_hour : Z;
  rk_dim : Dimension;
  rk_val : string;
}.

#[export] Instance rollupKey_eq_dec : EqDecision rollupKey. Proof. solve_decision. Defined.
#[export] Instance rollupKey_countable : Countable rollupKey.
Proof.
  apply (inj_countable' (fun k => (rk_code k, rk_hour k, rk_dim k, rk_val k))
    (fun '(c, h, d, v) => {| rk_code := c; rk_hour := h; rk_dim := d; rk_val := v |})).
  by intros [].
Defined.

(** ** [BuildRollups] *)

(** [counts[k] += n] on a Go map, whose missing entries read as zero. *)
Definition bump {K} `{Countable K} (k : K) (n : Z) (m : gmap K Z) : gmap K Z :=
  <[k := add64 (default 0 (m !! k)) n]> m.

(** The five keys one event increments. *)
Definition event_keys (ev : ScanEvent) : list rollupKey :=
  let hour := Truncate (OccurredAt ev) Hour in
  let bot := if IsBot ev then "true" else "false" in
  let key d v := {| rk_code := ev_CodeID ev; rk_hour := hour; rk_dim := d; rk_val := v |} in
  [key DimTotal ""; key DimUAFamily (UAFamily ev); key DimDeviceCategory (ev_DeviceCategory ev);
   key DimReferrerHost (ReferrerHost ev); key DimIsBot bot].

Definition count_event (counts : gmap rollupKey Z) (ev : ScanEvent) : gmap rollupKey Z :=
  foldl (fun m k => bump k 1 m) counts (event_keys ev).

Definition delta_of (p : rollupKey * Z) : RollupDelta :=
  {| rd_CodeID := rk_code p.1; HourBucket := rk_hour p.1; rd_Dimension := rk_dim p.1;
     rd_Value := rk_val p.1; rd_Count := p.2 |}.

Definition rollup_less (a b : RollupDelta) : bool :=
  lex_less (fun a b => str_ltb (rd_CodeID a) (rd_CodeID b))
    (lex_less (fun a b => HourBucket a <? HourBucket b)
      (lex_less (fun a b => str_ltb (rd_Dimension a) (rd_Dimension b))
        (fun a b => str_ltb (rd_Value a) (rd_Value b)))) a b.

Definition BuildRollups (events : list ScanEvent) : list RollupDelta :=
  let counts := foldl count_event ∅ events in
  sort_Slice rollup_less (delta_of <$> map_to_list counts).

(** ** Buckets *)

(** Midnight (UTC) of the day of [t], and the weekday of [t] with Sunday as 0:
    the zero time, 0001-01-01, is a Monday. *)
Definition midnight (t : Z) : Z := Truncate t Day.
Definition Weekday (t : Z) : Z := (t / Day + 1) mod 7.

Definition bucketStart (t : Z) (b : Bucket) : Z :=
  if String.eqb b BucketHour then Truncate t Hour
  else if String.eqb b BucketWeek then
    let d := midnight t in
    let offset := (Weekday d + 6) mod 7 in
    d - offset * Day
  else midnight t.

(** ** The aggregator *)
Record aggregator := {
  a_bucket : Bucket;
  a_total : Z;
  a_series : gmap Z Z;
  a_breakdown : gmap Dimension (gmap string Z);
}.

Definition newAggregator (b : Bucket) : aggregator :=
  {| a_bucket := b; a_total := 0; a_series := ∅; a_breakdown := ∅ |}.

Definition add (a : aggregator) (hour : Z) (dim : Dimension) (value : string) (n : Z) : aggregator :=
  if String.eqb dim DimTotal then
    {| a_bucket := a_bucket a; a_total := add64 (a_total a) n;
       a_series := bump (bucketStart hour (a_bucket a)) n (a_series a);
       a_breakdown := a_breakdown a |}
  else
    {| a_bucket := a_bucket a; a_total := a_total a; a_series := a_series a;
       a_breakdown :=
         <[dim := bump value n (default ∅ (a_breakdown a !! dim))]> (a_breakdown a) |}.

Definition breakdown_less (x y : BreakdownValue) : bool :=
  lex_less (fun x y => bv_Count y <? bv_Count x) (fun x y => str_ltb (bv_Value x) (bv_Value y)) x y.

Definition breakdown_rows (vals : gmap string Z) : list BreakdownValue :=
  sort_Slice breakdown_less
    ((fun p : string * Z => {| bv_Value := p.1; bv_Count := p.2 |}) <$> map_to_list vals).

Definition series_rows (series : gmap Z Z) : list SeriesPoint :=
  sort_Slice (fun x y => Start x <? Start y)
    ((fun p : Z * Z => {| Start := p.1; sp_Count := p.2 |}) <$> map_to_list series).

(** The four breakdowns every answer carries, empty when nothing was recorded. *)
Definition empty_breakdowns : gmap Dimension (list BreakdownValue) :=
  {[ DimUAFamily := []; DimDeviceCategory := []; DimReferrerHost := []; DimIsBot := [] ]}.

Definition agg_result (a : aggregator) : AnalyticsResult :=
  {| Total := a_total a;
     Series := series_rows (a_series a);
     Breakdowns := (breakdown_rows <$> a_breakdown a) ∪ empty_breakdowns |}.

(** ** Sums over the keys a predicate selects *)
Section psum.
Context {K} `{Countable K}.

Definition psum (P : K -> bool) (m : gmap K Z) : Z :=
  msum (fun k v => if P k then v else 0) m.

Lemma psum_empty P : psum P ∅ = 0.
Proof. apply msum_empty. Qed.

Lemma psum_bump P k n m :
  wrap64 (psum P (bump k n m)) = wrap64 (psum P m + if P k then n else 0).
Proof.
  unfold psum, bump, add64. rewrite msum_insert.
  destruct (wrap64_spec (default 0 (m !! k) + n)) as [q ->].
  destruct (m !! k) as [w|]; simpl; destruct (P k);
    first [apply (wrap64_cong _ _ q); lia | apply (wrap64_cong _ _ 0); lia].
Qed.

Lemma psum_foldl_bump P (ks : list K) m :
  wrap64 (psum P (foldl (fun m k => bump k 1 m) m ks))
  = wrap64 (psum P m + sumZ (fun k => if P k then 1 else 0) ks).
Proof.
  revert m. induction ks as [|k ks IH]; intros m; simpl; [f_equal; lia|].
  rewrite IH. rewrite <- wrap64_add_l, psum_bump, wrap64_add_l. f_equal. lia.
Qed.
End psum.

(** The dimensions [BuildRollups] records. *)
Definition dimensions : list Dimension :=
  [DimTotal; DimUAFamily; DimDeviceCategory; DimReferrerHost; DimIsBot].

(** Selecting the keys of dimension [d] whose code and hour satisfy [Q]. *)
Definition in_dim (Q : string -> Z -> bool) (d : Dimension) (k : rollupKey) : bool :=
  Q (rk_code k) (rk_hour k) && String.eqb (rk_dim k) d.

Definition in_scope (Q : string -> Z -> bool) (ev : ScanEvent) : bool :=
  Q (ev_CodeID ev) (Truncate (OccurredAt ev) Hour).

(** One event contributes once to each dimension. *)
Lemma event_keys_dim Q d ev :
  d ∈ dimensions ->
  sumZ (fun k => if in_dim Q d k then 1 else 0) (event_keys ev) = if in_scope Q ev then 1 else 0.
Proof.
  unfold dimensions, in_dim, in_scope, event_keys. intros Hd.
  destruct (Q (ev_CodeID ev) (Truncate (OccurredAt ev) Hour)) eqn:E.
  - repeat (apply elem_of_cons in Hd as [->|Hd]; [simpl; by rewrite E|]). by apply elem_of_nil in Hd.
  - simpl. by rewrite E.
Qed.

Definition count_events (Q : string -> Z -> bool) (events : list ScanEvent) : Z :=
  sumZ (fun ev => if in_scope Q ev then 1 else 0) events.

Lemma counts_dim Q d events m :
  d ∈ dimensions ->
  wrap64 (psum (in_dim Q d) (foldl count_event m events))
  = wrap64 (psum (in_dim Q d) m + count_events Q events).
Proof.
  intros Hd. revert m. induction events as [|ev events IH]; intros m; simpl; [f_equal; lia|].
  rewrite IH. unfold count_event.
  rewrite <- wrap64_add_l, psum_foldl_bump, wrap64_add_l, event_keys_dim by done.
  f_equal. lia.
Qed.

(** The key a delta is stored under ([InsertScanBatch] truncates the hour
    again). *)
Definition delta_key (r : RollupDelta) : rollupKey :=
  {| rk_code := rd_CodeID r; rk_hour := Truncate (HourBucket r) Hour;
     rk_dim := rd_Dimension r; rk_val := rd_Value r |}.

Definition delta_sum (P : rollupKey -> bool) (rs : list RollupDelta) : Z :=
  sumZ (fun r => if P (delta_key r) then rd_Count r else 0) rs.

Lemma bump_lookup {K} `{Countable K} (k k' : K) n m :
  bump k n m !! k' = if decide (k = k') then Some (add64 (default 0 (m !! k)) n) else m !! k'.
Proof. unfold bump. rewrite lookup_insert. done. Qed.

(** Every key of the counts is truncated to its hour. *)
Lemma counts_hours events m :
  (forall k, is_Some (m !! k) -> Truncate (rk_hour k) Hour = rk_hour k) ->
  forall k, is_Some (foldl count_event m events !! k) -> Truncate (rk_hour k) Hour = rk_hour k.
Proof.
  revert m. induction events as [|ev events IH]; intros m Hm; simpl; [done|].
  apply IH. unfold count_event.
  assert (Hk : forall k, k ∈ event_keys ev -> Truncate (rk_hour k) Hour = rk_hour k).
  { intros k Hk. unfold event_keys in Hk.
    repeat (apply elem_of_cons in Hk as [->|Hk]; [by apply Truncate_idemp|]). by apply elem_of_nil in Hk. }
  revert m Hm Hk. generalize (event_keys ev) as ks. induction ks as [|k0 ks IHk]; intros m Hm Hk; simpl; [done|].
  apply IHk; [|intros; apply Hk; by right].
  intros k. rewrite bump_lookup. case_decide as E; [|apply Hm]. subst. intros _. apply Hk. by left.
Qed.

Lemma BuildRollups_sum P events :
  delta_sum P (BuildRollups events) = psum P (foldl count_event ∅ events).
Proof.
  unfold delta_sum, psum, msum, BuildRollups.
  rewrite (sumZ_Permutation _ _ _ (sort_Slice_Permutation rollup_less _)), sumZ_fmap.
  apply sumZ_ext. intros [k n] Hk%elem_of_map_to_list. simpl.
  assert (E : delta_key (delta_of (k, n)) = k); [|by rewrite E].
  unfold delta_key, delta_of. simpl.
  rewrite (counts_hours events ∅); [by destruct k| |by eexists].
  intros k0 [? H0]. by rewrite lookup_empty in H0.
Qed.

Lemma BuildRollups_dim Q d events :
  d ∈ dimensions ->
  wrap64 (delta_sum (in_dim Q d) (BuildRollups events)) = wrap64 (count_events Q events).
Proof. intros Hd. rewrite BuildRollups_sum, counts_dim, psum_empty by done. f_equal. Qed.

(** ** The aggregator *)

(** The rows of one breakdown add up to the map they list. *)
Lemma breakdown_rows_sum vals :
  sumZ bv_Count (breakdown_rows vals) = psum (fun _ => true) vals.
Proof.
  unfold breakdown_rows, psum, msum.
  by rewrite (sumZ_Permutation _ _ _ (sort_Slice_Permutation breakdown_less _)), sumZ_fmap.
Qed.

Lemma series_rows_sum series :
  sumZ sp_Count (series_rows series) = psum (fun _ => true) series.
Proof.
  unfold series_rows, psum, msum.
  by rewrite (sumZ_Permutation _ _ _ (sort_Slice_Permutation (fun x y => Start x <? Start y) _)),
    sumZ_fmap.
Qed.

(** Feeding the rows of a rollup table. *)
Definition add_row (a : aggregator) (p : rollupKey * Z) : aggregator :=
  add a (rk_hour p.1) (rk_dim p.1) (rk_val p.1) p.2.

Definition row_sum (P : rollupKey -> bool) (rows : list (rollupKey * Z)) : Z :=
  sumZ (fun p => if P p.1 then p.2 else 0) rows.

Definition is_dim (d : Dimension) (k : rollupKey) : bool := String.eqb (rk_dim k) d.

Definition breakdown_of (a : aggregator) (d : Dimension) : gmap string Z :=
  default ∅ (a_breakdown a !! d).

Lemma add_rows_total rows a :
  wrap64 (a_total (foldl add_row a rows)) = wrap64 (a_total a + row_sum (is_dim DimTotal) rows)
  /\ wrap64 (psum (fun _ => true) (a_series (foldl add_row a rows)))
     = wrap64 (psum (fun _ => true) (a_series a) + row_sum (is_dim DimTotal) rows).
Proof.
  revert a. induction rows as [|[k n] rows IH]; intros a; simpl; [by rewrite !Z.add_0_r|].
  destruct (IH (add_row a (k, n))) as [-> ->]. unfold add_row, add, is_dim. simpl.
  destruct (String.eqb (rk_dim k) DimTotal); simpl; [|done].
  split.
  - unfold add64. rewrite wrap64_add_l. f_equal. lia.
  - rewrite <- wrap64_add_l, psum_bump, wrap64_add_l. f_equal. lia.
Qed.

Lemma add_rows_breakdown d rows a :
  d <> DimTotal ->
  wrap64 (psum (fun _ => true) (breakdown_of (foldl add_row a rows) d))
  = wrap64 (psum (fun _ => true) (breakdown_of a d) + row_sum (is_dim d) rows).
Proof.
  intros Hd. revert a. induction rows as [|[k n] rows IH]; intros a; simpl; [by rewrite !Z.add_0_r|].
  rewrite IH. unfold add_row, add, is_dim. simpl.
  destruct (String.eqb_spec (rk_dim k) DimTotal) as [E|E].
  - destruct (String.eqb_spec (rk_dim k) d); [congruence|]. done.
  - unfold breakdown_of at 1. simpl. rewrite lookup_insert. case_decide as Ed.
    + subst d. rewrite String.eqb_refl. simpl.
      rewrite <- wrap64_add_l, psum_bump, wrap64_add_l. f_equal. unfold breakdown_of. lia.
    + destruct (String.eqb_spec (rk_dim k) d); [congruence|]. done.
Qed.

Lemma agg_result_breakdown a d :
  sumZ bv_Count (default [] (Breakdowns (agg_result a) !! d)) = psum (fun _ => true) (breakdown_of a d).
Proof.
  unfold agg_result, breakdown_of. simpl. rewrite lookup_union, lookup_fmap.
  destruct (a_breakdown a !! d) as [vals|]; simpl.
  - rewrite union_Some_l. simpl. apply breakdown_rows_sum.
  - rewrite psum_empty, option_union_left_id. unfold empty_breakdowns.
    rewrite !lookup_insert, lookup_singleton. by repeat case_decide.
Qed.

Ltac same_wrap :=
  lazymatch goal with
  | |- Some (wrap64 ?a) = Some (wrap64 ?b) => replace a with b by lia; reflexivity
  end.

(** ** Occurrences: the exact content of [BuildRollups] *)

Definition occurrences (k : rollupKey) (events : list ScanEvent) : Z :=
  sumZ (fun ev => sumZ (fun k' => if bool_decide (k' = k) then 1 else 0) (event_keys ev)) events.

Lemma foldl_bump_lookup (ks : list rollupKey) m k :
  foldl (fun m k => bump k 1 m) m ks !! k
  = if bool_decide (k ∈ ks)
    then Some (wrap64 (default 0 (m !! k) + sumZ (fun k' => if bool_decide (k' = k) then 1 else 0) ks))
    else m !! k.
Proof.
  revert m. induction ks as [|k0 ks IH]; intros m; simpl; [done|].
  rewrite IH, bump_lookup. destruct (decide (k0 = k)) as [->|Hne].
  - rewrite (bool_decide_eq_true_2 (k ∈ k :: ks)) by (by left). simpl.
    unfold add64. rewrite wrap64_add_l. case_bool_decide as Hin.
    + rewrite bool_decide_eq_true_2 by done. same_wrap.
    + assert (E : sumZ (fun k' => if bool_decide (k' = k) then 1 else 0) ks = 0).
      { rewrite (sumZ_ext _ (fun _ => 0)); [clear; induction ks; simpl; lia|].
        intros x Hx. rewrite bool_decide_eq_false_2; [done|]. congruence. }
      rewrite E, bool_decide_eq_true_2 by done. same_wrap.
  - rewrite (bool_decide_eq_false_2 (k0 = k)) by done. simpl.
    assert (Hiff : k ∈ k0 :: ks <-> k ∈ ks) by (rewrite elem_of_cons; naive_solver).
    by rewrite (bool_decide_ext _ _ Hiff).
Qed.

Definition key_count (k : rollupKey) (ks : list rollupKey) : Z :=
  sumZ (fun k' => if bool_decide (k' = k) then 1 else 0) ks.

Lemma key_count_nonneg k ks : 0 <= key_count k ks.
Proof. unfold key_count. induction ks as [|k' ks IH]; simpl; [lia|]. case_bool_decide; lia. Qed.

Lemma key_count_pos k ks : k ∈ ks <-> 0 < key_count k ks.
Proof.
  induction ks as [|k' ks IH].
  - split; [by intros ?%elem_of_nil | unfold key_count; simpl; lia].
  - rewrite elem_of_cons, IH. pose proof (key_count_nonneg k ks). unfold key_count in *. simpl.
    case_bool_decide; split; intros; [lia | left; congruence | naive_solver lia | right; lia].
Qed.

Lemma occurrences_cons k ev events :
  occurrences k (ev :: events) = key_count k (event_keys ev) + occurrences k events.
Proof. done. Qed.

Lemma occurrences_nonneg k events : 0 <= occurrences k events.
Proof.
  induction events as [|ev events IH]; [done|]. rewrite occurrences_cons.
  pose proof (key_count_nonneg k (event_keys ev)). lia.
Qed.

Lemma counts_lookup events m k :
  foldl count_event m events !! k
  = if bool_decide (0 < occurrences k events)
    then Some (wrap64 (default 0 (m !! k) + occurrences k events)) else m !! k.
Proof.
  revert m. induction events as [|ev events IH]; intros m; [done|].
  cbn [foldl]. rewrite IH, occurrences_cons. unfold count_event. rewrite foldl_bump_lookup.
  fold (key_count k (event_keys ev)).
  pose proof (key_count_pos k (event_keys ev)) as H1. pose proof (key_count_nonneg k (event_keys ev)) as H2.
  pose proof (occurrences_nonneg k events) as H3.
  clear IH. remember (key_count k (event_keys ev)) as o1. remember (occurrences k events) as o2.
  destruct (decide (k ∈ event_keys ev)) as [Hin|Hin], (decide (0 < o2)) as [Ho|Ho].
  - rewrite !bool_decide_eq_true_2 by (done || lia || tauto). simpl.
    rewrite wrap64_add_l. same_wrap.
  - assert (0 < o1) by tauto.
    rewrite (bool_decide_eq_false_2 (0 < o2)), !bool_decide_eq_true_2 by (done || tauto || lia).
    cbn iota. same_wrap.
  - assert (~ 0 < o1) by tauto.
    rewrite (bool_decide_eq_false_2 (k ∈ _)), !bool_decide_eq_true_2 by (done || tauto || lia).
    cbn iota. same_wrap.
  - assert (~ 0 < o1) by tauto. by rewrite !bool_decide_eq_false_2 by (done || lia).
Qed.

(** The key a delta names. *)
Definition delta_id (r : RollupDelta) : rollupKey :=
  {| rk_code := rd_CodeID r; rk_hour := HourBucket r; rk_dim := rd_Dimension r; rk_val := rd_Value r |}.

Lemma delta_id_of p : delta_id (delta_of p) = p.1.
Proof. by destruct p as [[] ?]. Qed.

Lemma delta_of_id r : delta_of (delta_id r, rd_Count r) = r.
Proof. by destruct r. Qed.

Lemma BuildRollups_elem events r :
  r ∈ BuildRollups events
  <-> 0 < occurrences (delta_id r) events /\ rd_Count r = wrap64 (occurrences (delta_id r) events).
Proof.
  unfold BuildRollups. rewrite sort_Slice_Permutation, list_elem_of_fmap. split.
  - intros ([k n] & -> & Hk%elem_of_map_to_list). rewrite counts_lookup, lookup_empty in Hk.
    rewrite delta_id_of. simpl. case_bool_decide; [by simplify_eq|done].
  - intros [Hpos Hn]. exists (delta_id r, rd_Count r). rewrite delta_of_id. split; [done|].
    apply elem_of_map_to_list. rewrite counts_lookup, lookup_empty, bool_decide_eq_true_2 by done.
    simpl. by rewrite Hn.
Qed.

Lemma BuildRollups_NoDup events : NoDup (delta_id <$> BuildRollups events).
Proof.
  unfold BuildRollups. rewrite sort_Slice_Permutation, <- list_fmap_compose.
  erewrite list_fmap_ext; [apply NoDup_fst_map_to_list|].
  intros i p _. apply delta_id_of.
Qed.

#[export] Instance rollup_less_order : StrictWeakOrder rollup_less.
Proof. unfold rollup_less. apply _. Qed.

(** ** Bucket boundaries *)
Definition bucket_width (b : Bucket) : Z :=
  if String.eqb b BucketHour then Hour else if String.eqb b BucketWeek then 7 * Day else Day.

Lemma bucket_width_pos b : 0 < bucket_width b.
Proof. unfold bucket_width. repeat case_match; done. Qed.

Lemma bucketStart_Truncate t b : bucketStart t b = Truncate t (bucket_width b).
Proof.
  unfold bucketStart, bucket_width, midnight, Weekday.
  repeat case_match; try done. unfold Truncate, Day, Hour, Minute, Second.
  change (24 * (60 * (60 * 1000000000)) <=? 0) with false.
  change (7 * (24 * (60 * (60 * 1000000000))) <=? 0) with false. cbn iota. dlia.
Qed.

(** ** Properties *)

(** [BuildRollups] lists exactly the keys some event increments, each once
    and in key order, with the number of events that increment it. *)
Theorem BuildRollups_exact (events : list ScanEvent) :
  (forall r, r ∈ BuildRollups events
     <-> 0 < occurrences (delta_id r) events
         /\ rd_Count r = wrap64 (occurrences (delta_id r) events))
  /\ NoDup (delta_id <$> BuildRollups events)
  /\ StronglySorted (not_less rollup_less) (BuildRollups events).
Proof.
  split; [|split].
  - intros r. apply BuildRollups_elem.
  - apply BuildRollups_NoDup.
  - apply sort_Slice_sorted, _.
Qed.

(** A query bucket is the interval of its width that contains the instant;
    a week starts on a Monday at midnight UTC. *)
Theorem bucketStart_spec (t : Z) (b : Bucket) :
  bucketStart t b <= t < bucketStart t b + bucket_width b
  /\ bucketStart (bucketStart t b) b = bucketStart t b
  /\ bucketStart t b mod bucket_width b = 0
  /\ Weekday (bucketStart t BucketWeek) = 1.
Proof.
  pose proof (bucket_width_pos b). rewrite !bucketStart_Truncate.
  split; [by apply Truncate_le|]. split; [by apply Truncate_idemp|].
  split; [by apply Truncate_multiple|].
  change (bucket_width BucketWeek) with (7 * Day). unfold Weekday, Truncate.
  change (7 * Day <=? 0) with false. cbn iota. unfold Day, Hour, Minute, Second. dlia.
Qed.
