(* ===== verification/MemStore.v ===== *)
(** * The in-memory store ([internal/store/storetest/memstore.go])

    The store the packages above the drivers are tested against: "it follows
    every rule the contract suite pins".  Each operation is one critical
    section of the mutex, so it is a function from the store to a result and
    the store it leaves; the pointers it keeps are never shared with callers
    (every value is copied in and out), so updating through a pointer is
    updating the map entry. *)
From Stdlib Require Import Ascii String.
From S2P Require Import GoLib Act Domain Base64 Rollup.
Local Open Scope string_scope.
Local Open Scope Z_scope.

(** The layouts of [time] used for cursors. *)
Class TimeFormat := {
  Format_RFC3339Nano : Z -> string;
  Parse_RFC3339Nano : string -> option Z;
}.

(** Instants with a four-digit year. *)
Definition year_ok (t : Z) : Prop := 0 <= t < 3652059 * Day.

Class TimeFormatOk `{TimeFormat} : Prop := {
  parse_format t : year_ok t -> Parse_RFC3339Nano (Format_RFC3339Nano t) = Some t;
  format_no_nul t : year_ok t -> "000"%char ∉ bytes (Format_RFC3339Nano t);
}.

Record reservation := {
  res_codeID : string;
  res_reservedAt : Z;
  res_releasedAt : option Z;
}.

Definition taken (r : reservation) : bool :=
  match res_releasedAt r with None => true | Some _ => false end.

Record scanRow := { sr_seq : Z; sr_ev : ScanEvent }.

Record memStore := {
  users : gmap string User;
  emails : gmap string string;
  tokens : gmap string APIToken;
  codes : gmap string Code;
  byCode : gmap string string;
  byRef : gmap (string * string) string;
  reservations : gmap string reservation;
  events : list scanRow;
  nextSeq : Z;
  rollups : gmap rollupKey Z;
}.

Definition NewMemStore : memStore :=
  {| users := ∅; emails := ∅; tokens := ∅; codes := ∅; byCode := ∅; byRef := ∅;
     reservations := ∅; events := []; nextSeq := 0; rollups := ∅ |}.

Definition defaultListLimit : Z := 50.

(** ** Record updates *)
Definition set_users (f : gmap string User -> gmap string User) (m : memStore) : memStore :=
  {| users := f (users m); emails := emails m; tokens := tokens m; codes := codes m; byCode :=
     byCode m; byRef := byRef m; reservations := reservations m; events := events m; nextSeq :=
     nextSeq m; rollups := rollups m |}.
Definition set_emails (f : gmap string string -> gmap string string) (m : memStore) : memStore
     :=
  {| users := users m; emails := f (emails m); tokens := tokens m; codes := codes m; byCode :=
     byCode m; byRef := byRef m; reservations := reservations m; events := events m; nextSeq :=
     nextSeq m; rollups := rollups m |}.
Definition set_tokens (f : gmap string APIToken -> gmap string APIToken) (m : memStore) :
     memStore :=
  {| users := users m; emails := emails m; tokens := f (tokens m); codes := codes m; byCode :=
     byCode m; byRef := byRef m; reservations := reservations m; events := events m; nextSeq :=
     nextSeq m; rollups := rollups m |}.
Definition set_codes (f : gmap string Code -> gmap string Code) (m : memStore) : memStore :=
  {| users := users m; emails := emails m; tokens := tokens m; codes := f (codes m); byCode :=
     byCode m; byRef := byRef m; reservations := reservations m; events := events m; nextSeq :=
     nextSeq m; rollups := rollups m |}.
Definition set_byCode (f : gmap string string -> gmap string string) (m : memStore) : memStore
     :=
  {| users := users m; emails := emails m; tokens := tokens m; codes := codes m; byCode := f
     (byCode m); byRef := byRef m; reservations := reservations m; events := events m; nextSeq
     := nextSeq m; rollups := rollups m |}.
Definition set_byRef (f : gmap (string * string) string -> gmap (string * string) string) (m :
     memStore) : memStore :=
  {| users := users m; emails := emails m; tokens := tokens m; codes := codes m; byCode :=
     byCode m; byRef := f (byRef m); reservations := reservations m; events := events m; nextSeq
     := nextSeq m; rollups := rollups m |}.
Definition set_reservations (f : gmap string reservation -> gmap string reservation) (m :
     memStore) : memStore :=
  {| users := users m; emails := emails m; tokens := tokens m; codes := codes m; byCode :=
     byCode m; byRef := byRef m; reservations := f (reservations m); events := events m; nextSeq
     := nextSeq m; rollups := rollups m |}.
Definition set_events (f : list scanRow -> list scanRow) (m : memStore) : memStore :=
  {| users := users m; emails := emails m; tokens := tokens m; codes := codes m; byCode :=
     byCode m; byRef := byRef m; reservations := reservations m; events := f (events m); nextSeq
     := nextSeq m; rollups := rollups m |}.
Definition set_nextSeq (f : Z -> Z) (m : memStore) : memStore :=
  {| users := users m; emails := emails m; tokens := tokens m; codes := codes m; byCode :=
     byCode m; byRef := byRef m; reservations := reservations m; events := events m; nextSeq :=
     f (nextSeq m); rollups := rollups m |}.
Definition set_rollups (f : gmap rollupKey Z -> gmap rollupKey Z) (m : memStore) : memStore :=
  {| users := users m; emails := emails m; tokens := tokens m; codes := codes m; byCode :=
     byCode m; byRef := byRef m; reservations := reservations m; events := events m; nextSeq :=
     nextSeq m; rollups := f (rollups m) |}.
Definition set_user_TokenVersion (v : Z) (u : User) : User :=
  {| user_ID := user_ID u; user_Email := user_Email u; user_PasswordHash := user_PasswordHash u;
     user_IsAdmin := user_IsAdmin u; user_TokenVersion := v; user_Source := user_Source u;
     user_CreatedAt := user_CreatedAt u; user_LastLoginAt := user_LastLoginAt u |}.
Definition set_user_CreatedAt (t : Z) (u : User) : User :=
  {| user_ID := user_ID u; user_Email := user_Email u; user_PasswordHash := user_PasswordHash u;
     user_IsAdmin := user_IsAdmin u; user_TokenVersion := user_TokenVersion u;
     user_Source := user_Source u; user_CreatedAt := t; user_LastLoginAt := user_LastLoginAt u |}.
Definition set_token_times (created : Z) (used revoked : option Z) (t : APIToken) : APIToken :=
  {| token_ID := token_ID t; token_UserID := token_UserID t; token_Name := token_Name t;
     token_SecretHash := token_SecretHash t; token_CreatedAt := created;
     token_LastUsedAt := used; token_RevokedAt := revoked; token_ExpiresAt := token_ExpiresAt t |}.
(** The fields the mutating operations write on a stored code. *)
Definition set_code (dest : string) (state : CodeState) (version updated : Z) (deleted : option Z)
    (c : Code) : Code :=
  {| code_ID := code_ID c; ShortCode := ShortCode c; IsAlias := IsAlias c;
     code_UserID := code_UserID c; Mode := Mode c; ClientRef := ClientRef c;
     Destination := dest; State := state; code_Styling := code_Styling c;
     BlobKey := BlobKey c; BlobETag := BlobETag c; Version := version;
     code_CreatedAt := code_CreatedAt c; UpdatedAt := updated; DeletedAt := deleted |}.
Definition set_styling_ID (id : string) (s : Styling) : Styling :=
  {| styling_ID := id; FgColor := FgColor s; BgColor := BgColor s;
     styling_ModuleShape := styling_ModuleShape s; MarginModules := MarginModules s;
     SizePx := SizePx s; styling_ECLevel := styling_ECLevel s;
     ECLevelEffective := ECLevelEffective s; LogoBlobKey := LogoBlobKey s;
     LogoScale := LogoScale s |}.

(** Every operation starts with [if err := ctx.Err(); err != nil]. *)
Definition with_ctx {A} (env : Env) (m : memStore) (k : result A * memStore) : result A * memStore :=
  match ctx_Err env with Some e => (Err (e : error), m) | None => k end.
Definition read_ctx {A} (env : Env) (k : result A) : result A :=
  match ctx_Err env with Some e => Err (e : error) | None => k end.

Section memstore.
Context `{U : UnicodeTable} `{TF : TimeFormat}.

(** ** Users *)
Definition CreateUser (env : Env) (u : User) (m : memStore) : result unit * memStore :=
  with_ctx env m (
    if String.eqb (user_ID u) "" || String.eqb (user_Email u) ""
    then (Err (NewErr "memstore: user id and email are required"), m)
    else match users m !! user_ID u with
    | Some _ => (Err (Wrap "memstore: user id" ErrConflict), m)
    | None =>
        let key := ToLower (user_Email u) in
        match emails m !! key with
        | Some _ => (Err (Wrap "memstore: email" ErrConflict), m)
        | None =>
            let cp := if IsZero (user_CreatedAt u) then set_user_CreatedAt (time_Now env) u else u in
            (Ok tt, set_emails <[key := user_ID cp]> (set_users <[user_ID cp := cp]> m))
        end
    end).

Definition GetUserByID (env : Env) (id : string) (m : memStore) : result User :=
  read_ctx env
    match users m !! id with
    | None => Err (Wrap "memstore: user" ErrNotFound)
    | Some u => Ok u
    end.

(** [m.users[id]] of an indexed address: the index and the users are kept in
    step, so a missing user (a nil dereference in the code) cannot occur
    ([wf_emails]). *)
Definition GetUserByEmail (env : Env) (email : string) (m : memStore) : result User :=
  read_ctx env
    match emails m !! ToLower email with
    | None => Err (Wrap "memstore: email" ErrNotFound)
    | Some id =>
        match users m !! id with
        | Some u => Ok u
        | None => Err (NewErr "nil dereference")
        end
    end.

Definition BumpTokenVersion (env : Env) (userID : string) (m : memStore) : result Z * memStore :=
  with_ctx env m
    match users m !! userID with
    | None => (Err (Wrap "memstore: user" ErrNotFound), m)
    | Some u =>
        let v := incr64 (user_TokenVersion u) in
        (Ok v, set_users <[userID := set_user_TokenVersion v u]> m)
    end.

Definition CountUsers (env : Env) (m : memStore) : result Z :=
  read_ctx env (Ok (Z.of_nat (size (users m)))).

(** ** Tokens *)
Definition CreateToken (env : Env) (t : APIToken) (m : memStore) : result unit * memStore :=
  with_ctx env m (
    if String.eqb (token_ID t) "" || String.eqb (token_UserID t) ""
    then (Err (NewErr "memstore: token id and user id are required"), m)
    else match tokens m !! token_ID t with
    | Some _ => (Err (Wrap "memstore: token id" ErrConflict), m)
    | None =>
        let cp := if IsZero (token_CreatedAt t)
                  then set_token_times (time_Now env) (token_LastUsedAt t) (token_RevokedAt t) t
                  else t in
        (Ok tt, set_tokens <[token_ID cp := cp]> m)
    end).

Definition GetTokenByID (env : Env) (id : string) (m : memStore) : result APIToken :=
  read_ctx env
    match tokens m !! id with
    | None => Err (Wrap "memstore: token" ErrNotFound)
    | Some t => Ok t
    end.

Definition token_less (a b : APIToken) : bool :=
  lex_less (fun a b => token_CreatedAt a <? token_CreatedAt b)
    (fun a b => str_ltb (token_ID a) (token_ID b)) a b.

Definition ListTokens (env : Env) (userID : string) (m : memStore) : result (list APIToken) :=
  read_ctx env
    (Ok (sort_Slice token_less
           (filter (fun t => token_UserID t = userID) ((map_to_list (tokens m)).*2)))).

Definition RevokeToken (env : Env) (id userID : string) (m : memStore) : result unit * memStore :=
  with_ctx env m
    match tokens m !! id with
    | None => (Err (Wrap "memstore: token" ErrNotFound), m)
    | Some t =>
        if negb (String.eqb (token_UserID t) userID)
        then (Err (Wrap "memstore: token" ErrNotFound), m)
        else match token_RevokedAt t with
        | Some _ => (Ok tt, m)
        | None =>
            let t' := set_token_times (token_CreatedAt t) (token_LastUsedAt t) (Some (time_Now env)) t in
            (Ok tt, set_tokens <[id := t']> m)
        end
    end.

Definition TouchTokenLastUsed (env : Env) (id : string) (at_ : Z) (m : memStore)
    : result unit * memStore :=
  with_ctx env m
    match tokens m !! id with
    | None => (Err (Wrap "memstore: token" ErrNotFound), m)
    | Some t =>
        let t' := set_token_times (token_CreatedAt t) (Some at_) (token_RevokedAt t) t in
        (Ok tt, set_tokens <[id := t']> m)
    end.

(** ** Codes *)

(** The first pass of [CreateCodes]: every row is checked against the store
    and against the rows before it in the batch. *)
Fixpoint check_rows (m : memStore) (cs : list Code)
    (seenID seenCode : gset string) (seenRef : gset (string * string)) : option error :=
  match cs with
  | [] => None
  | c :: cs' =>
      if String.eqb (code_ID c) "" || String.eqb (ShortCode c) "" || String.eqb (code_UserID c) ""
      then Some (NewErr "memstore: code id, short code and user id are required")
      else if bool_decide (is_Some (codes m !! code_ID c)) || bool_decide (code_ID c ∈ seenID)
      then Some (Wrap "memstore: code id" ErrConflict)
      else
        let key := ToLower (ShortCode c) in
        if bool_decide (is_Some (byCode m !! key)) || bool_decide (key ∈ seenCode)
        then Some (Wrap "memstore: short code" ErrAliasTaken)
        else if from_option taken false (reservations m !! key)
        then Some (Wrap "memstore: short code reserved" ErrAliasTaken)
        else if String.eqb (ClientRef c) ""
        then check_rows m cs' ({[code_ID c]} ∪ seenID) ({[key]} ∪ seenCode) seenRef
        else
          let rk := (code_UserID c, ClientRef c) in
          if bool_decide (is_Some (byRef m !! rk)) || bool_decide (rk ∈ seenRef)
          then Some (Wrap "memstore: client_ref" ErrClientRefTaken)
          else check_rows m cs' ({[code_ID c]} ∪ seenID) ({[key]} ∪ seenCode) ({[rk]} ∪ seenRef)
  end.

(** The row stored for [c]: defaults applied, version 1, not deleted.  [off]
    is the offset of the next unused random byte. *)
Definition stored_row (env : Env) (off : nat) (c : Code) : Code :=
  let created := if IsZero (code_CreatedAt c) then time_Now env else code_CreatedAt c in
  {| code_ID := code_ID c; ShortCode := ToLower (ShortCode c); IsAlias := IsAlias c;
     code_UserID := code_UserID c;
     Mode := if String.eqb (Mode c) "" then ModeDynamic else Mode c;
     ClientRef := ClientRef c; Destination := Destination c;
     State := if String.eqb (State c) "" then CodeActive else State c;
     code_Styling :=
       if String.eqb (styling_ID (code_Styling c)) ""
       then set_styling_ID (NewID (rand_byte env) off "sty") (code_Styling c)
       else code_Styling c;
     BlobKey := BlobKey c; BlobETag := BlobETag c; Version := 1;
     code_CreatedAt := created;
     UpdatedAt := if IsZero (UpdatedAt c) then created else UpdatedAt c;
     DeletedAt := None |}.

(** The random bytes [stored_row] uses up. *)
Definition styling_draws (c : Code) : nat :=
  if String.eqb (styling_ID (code_Styling c)) "" then idRandomLen else 0%nat.

Definition insert_row (now : Z) (cp : Code) (m : memStore) : memStore :=
  let key := ShortCode cp in
  let m := set_codes <[code_ID cp := cp]> m in
  let m := set_byCode <[key := code_ID cp]> m in
  let m := if String.eqb (ClientRef cp) "" then m
           else set_byRef <[(code_UserID cp, ClientRef cp) := code_ID cp]> m in
  set_reservations
    <[key := {| res_codeID := code_ID cp; res_reservedAt := now; res_releasedAt := None |}]> m.

(** What the caller's struct reads after the call: every persisted value but
    the deletion time. *)
Definition reflect_row (c cp : Code) : Code :=
  {| code_ID := code_ID c; ShortCode := ShortCode cp; IsAlias := IsAlias c;
     code_UserID := code_UserID c; Mode := Mode cp; ClientRef := ClientRef c;
     Destination := Destination c; State := State cp; code_Styling := code_Styling cp;
     BlobKey := BlobKey c; BlobETag := BlobETag c; Version := Version cp;
     code_CreatedAt := code_CreatedAt cp; UpdatedAt := UpdatedAt cp; DeletedAt := DeletedAt c |}.

Fixpoint write_rows (env : Env) (off : nat) (cs : list Code) (m : memStore)
    : list Code * memStore :=
  match cs with
  | [] => ([], m)
  | c :: cs' =>
      let cp := stored_row env off c in
      let '(out, m') :=
        write_rows env (off + styling_draws c) cs' (insert_row (time_Now env) cp m) in
      (reflect_row c cp :: out, m')
  end.

Definition CreateCodes (env : Env) (cs : list Code) (m : memStore)
    : result (list Code) * memStore :=
  with_ctx env m
    match check_rows m cs ∅ ∅ ∅ with
    | Some e => (Err e, m)
    | None => let '(out, m') := write_rows env 0 cs m in (Ok out, m')
    end.

(** [CreateCode] passes the one-element slice; the element is the caller's
    struct. *)
Definition CreateCode (env : Env) (c : Code) (m : memStore) : result Code * memStore :=
  let '(r, m') := CreateCodes env [c] m in
  (res_bind r (fun out => Ok (default c (head out))), m').

(** [copyCode(m.codes[id])] for an id taken from an index; see [wf_store] for
    why the entry exists. *)
Definition code_at (id : string) (m : memStore) : result Code :=
  match codes m !! id with
  | Some c => Ok c
  | None => Err (NewErr "nil dereference")
  end.

Definition GetCodeByClientRef (env : Env) (userID ref : string) (m : memStore) : result Code :=
  read_ctx env
    match byRef m !! (userID, ref) with
    | Some id =>
        if String.eqb ref "" then Err (Wrap "memstore: client_ref" ErrNotFound) else code_at id m
    | None => Err (Wrap "memstore: client_ref" ErrNotFound)
    end.

Definition GetCodeByShortCode (env : Env) (shortCode : string) (m : memStore) : result Code :=
  read_ctx env
    match byCode m !! ToLower shortCode with
    | None => Err (Wrap "memstore: short code" ErrNotFound)
    | Some id => code_at id m
    end.

Definition owned (id userID : string) (m : memStore) : result Code :=
  match codes m !! id with
  | None => Err (Wrap "memstore: code" ErrNotFound)
  | Some c =>
      if String.eqb (code_UserID c) userID then Ok c else Err (Wrap "memstore: code" ErrNotFound)
  end.

Definition GetCodeByID (env : Env) (id userID : string) (m : memStore) : result Code :=
  read_ctx env (owned id userID m).

(** *** Listing *)
Record cursorPos := { cp_createdAt : Z; cp_id : string }.

Definition encodeCursor (p : cursorPos) : string :=
  EncodeToString alphabet_url
    (bytes (Format_RFC3339Nano (cp_createdAt p) +:+ String "000" (cp_id p))).

Definition decodeCursor (s : string) : result cursorPos :=
  match DecodeString alphabet_url s with
  | None => Err (Wrap "memstore: invalid cursor" (NewErr "base64"))
  | Some raw =>
      let '(ts, id, ok) := CutByte (of_bytes raw) "000" in
      if negb ok || String.eqb id "" then Err (NewErr "memstore: invalid cursor")
      else match Parse_RFC3339Nano ts with
      | None => Err (Wrap "memstore: invalid cursor" (NewErr "time"))
      | Some t => Ok {| cp_createdAt := t; cp_id := id |}
      end
  end.

Definition beforeInListing (c : Code) (p : cursorPos) : bool :=
  if negb (code_CreatedAt c =? cp_createdAt p) then Before (code_CreatedAt c) (cp_createdAt p)
  else str_ltb (code_ID c) (cp_id p).

Definition list_less (a b : Code) : bool :=
  lex_less (fun a b => After (code_CreatedAt a) (code_CreatedAt b))
    (fun a b => str_ltb (code_ID b) (code_ID a)) a b.

(** The filter of [ListCodes], its [continue]s in order. *)
Definition list_match (f : CodeFilter) (after : option cursorPos) (c : Code) : bool :=
  let dest := ToLower (f_Destination f) in
  if negb (String.eqb (code_UserID c) (f_UserID f)) || String.eqb (State c) CodeDeleted then false
  else if from_option (fun t => negb (After (code_CreatedAt c) t)) false (CreatedAfter f) then false
  else if from_option (fun t => negb (Before (code_CreatedAt c) t)) false (CreatedBefore f) then false
  else if negb (String.eqb dest "") && negb (Contains (ToLower (Destination c)) dest) then false
  else from_option (beforeInListing c) true after.

Definition page_limit (f : CodeFilter) : nat :=
  Z.to_nat (if Limit f <=? 0 then defaultListLimit else Limit f).

Definition list_rows (f : CodeFilter) (after : option cursorPos) (m : memStore) : list Code :=
  sort_Slice list_less (filter (fun c => list_match f after c = true) (map_to_list (codes m)).*2).

Definition ListCodes (env : Env) (f : CodeFilter) (m : memStore) : result (list Code * string) :=
  read_ctx env (
    res_bind
      (if String.eqb (Cursor f) "" then Ok None
       else res_bind (decodeCursor (Cursor f)) (fun p => Ok (Some p)))
      (fun after =>
         let rows := list_rows f after m in
         if bool_decide (page_limit f < length rows)%nat then
           let page := take (page_limit f) rows in
           let next := from_option (fun c => encodeCursor
                         {| cp_createdAt := code_CreatedAt c; cp_id := code_ID c |}) "" (last page) in
           Ok (page, next)
         else Ok (rows, ""))).

(** *** Mutations of one code *)
Definition UpdateDestination (env : Env) (id userID dest : string) (expectedVersion : Z)
    (m : memStore) : result unit * memStore :=
  with_ctx env m
    match owned id userID m with
    | Err e => (Err e, m)
    | Ok c =>
        if String.eqb (State c) CodeDeleted
        then (Err (Wrap "memstore: code is deleted" ErrConflict), m)
        else if negb (Version c =? expectedVersion)
        then (Err (Wrap "memstore: code version" ErrConflict), m)
        else
          let c' := set_code dest (State c) (incr64 (Version c)) (time_Now env) (DeletedAt c) c in
          (Ok tt, set_codes <[id := c']> m)
    end.

Definition SetCodeState (env : Env) (id userID : string) (state : CodeState) (m : memStore)
    : result unit * memStore :=
  with_ctx env m (
    if String.eqb state CodeDeleted then (Err (NewErr "memstore: use DeleteCode to delete"), m)
    else if negb (String.eqb state CodeActive || String.eqb state CodeDisabled)
    then (Err (NewErr "memstore: unknown state"), m)
    else match owned id userID m with
    | Err e => (Err e, m)
    | Ok c =>
        if String.eqb (State c) CodeDeleted
        then (Err (Wrap "memstore: code is deleted" ErrConflict), m)
        else
          let c' := set_code (Destination c) state (incr64 (Version c)) (time_Now env) (DeletedAt c) c in
          (Ok tt, set_codes <[id := c']> m)
    end).

Definition DeleteCode (env : Env) (id userID : string) (m : memStore) : result unit * memStore :=
  with_ctx env m
    match owned id userID m with
    | Err e => (Err e, m)
    | Ok c =>
        if String.eqb (State c) CodeDeleted then (Ok tt, m)
        else
          let c' := set_code (Destination c) CodeDeleted (incr64 (Version c)) (time_Now env)
                      (Some (time_Now env)) c in
          (Ok tt, set_codes <[id := c']> m)
    end.

(** ** Aliases *)
Definition IsAliasAvailable (env : Env) (shortCode : string) (m : memStore) : result bool :=
  read_ctx env (
    let key := ToLower shortCode in
    if bool_decide (is_Some (byCode m !! key)) then Ok false
    else if from_option taken false (reservations m !! key) then Ok false
    else Ok true).

Definition is_deleted (c : Code) : bool := String.eqb (State c) CodeDeleted.

Definition ReleaseAlias (env : Env) (shortCode : string) (m : memStore) : result unit * memStore :=
  with_ctx env m (
    let key := ToLower shortCode in
    match reservations m !! key with
    | None => (Err (Wrap "memstore: alias not reserved" ErrNotFound), m)
    | Some r =>
        if negb (taken r) then (Err (Wrap "memstore: alias not reserved" ErrNotFound), m)
        else if from_option (fun c => negb (is_deleted c)) false (codes m !! res_codeID r)
        then (Err (Wrap "memstore: alias owned by live code" ErrConflict), m)
        else
          let r' := {| res_codeID := res_codeID r; res_reservedAt := res_reservedAt r;
                       res_releasedAt := Some (time_Now env) |} in
          let m := set_reservations <[key := r']> m in
          match byCode m !! key with
          | None => (Ok tt, m)
          | Some id =>
              if from_option is_deleted false (codes m !! id)
              then (Ok tt, set_byCode (delete key) m) else (Ok tt, m)
          end
    end).

(** ** Analytics *)
Fixpoint check_events (m : memStore) (evs : list ScanEvent) : option error :=
  match evs with
  | [] => None
  | ev :: evs' =>
      if bool_decide (codes m !! ev_CodeID ev = None)
      then Some (Wrap "memstore: event references unknown code" ErrNotFound)
      else if IsZero (OccurredAt ev) then Some (NewErr "memstore: event has zero OccurredAt")
      else check_events m evs'
  end.

Fixpoint check_rollups (m : memStore) (rs : list RollupDelta) : option error :=
  match rs with
  | [] => None
  | r :: rs' =>
      if bool_decide (codes m !! rd_CodeID r = None)
      then Some (Wrap "memstore: rollup references unknown code" ErrNotFound)
      else if String.eqb (rd_Dimension r) "" || IsZero (HourBucket r)
      then Some (NewErr "memstore: rollup is malformed")
      else check_rollups m rs'
  end.

Definition append_event (m : memStore) (ev : ScanEvent) : memStore :=
  let s := incr64 (nextSeq m) in
  set_events (fun l => l ++ [{| sr_seq := s; sr_ev := ev |}])%list (set_nextSeq (fun _ => s) m).

Definition apply_delta (m : memStore) (r : RollupDelta) : memStore :=
  set_rollups (bump (delta_key r) (rd_Count r)) m.

Definition InsertScanBatch (env : Env) (b : ScanBatch) (m : memStore) : result unit * memStore :=
  with_ctx env m
    match check_events m (Events b) with
    | Some e => (Err e, m)
    | None =>
        match check_rollups m (Rollups b) with
        | Some e => (Err (e : error), m)
        | None => (Ok tt, foldl apply_delta (foldl append_event m (Events b)) (Rollups b))
        end
    end.

(** The rollup rows a query reads: the code's hours in [[From, To)]. *)
Definition in_query (q : AnalyticsQuery) (k : rollupKey) : bool :=
  String.eqb (rk_code k) (q_CodeID q) && negb (Before (rk_hour k) (q_From q))
  && Before (rk_hour k) (q_To q).

Definition QueryAnalytics (env : Env) (q : AnalyticsQuery) (m : memStore) : result AnalyticsResult :=
  read_ctx env (
    let bucket := if String.eqb (q_Bucket q) "" then BucketDay else q_Bucket q in
    let rows := filter (fun p : rollupKey * Z => in_query q p.1 = true) (map_to_list (rollups m)) in
    Ok (agg_result (foldl add_row (newAggregator bucket) rows))).

(** Victims are the indices of the rows to drop, oldest first. *)
Definition victim_less (a b : nat * scanRow) : bool :=
  lex_less (fun a b => Before (OccurredAt (sr_ev a.2)) (OccurredAt (sr_ev b.2)))
    (fun a b => sr_seq a.2 <? sr_seq b.2) a b.

Definition indexed {A} (l : list A) : list (nat * A) := zip (seq 0 (length l)) l.

Definition victims (before : Z) (limit : Z) (evs : list scanRow) : list (nat * scanRow) :=
  take (Z.to_nat limit)
    (sort_Slice victim_less
       (filter (fun p => Before (OccurredAt (sr_ev p.2)) before = true) (indexed evs))).

Definition PruneScanEvents (env : Env) (before limit : Z) (m : memStore) : result Z * memStore :=
  with_ctx env m (
    if limit <=? 0 then (Ok 0, m)
    else
      let vs := victims before limit (events m) in
      let drop : gset nat := list_to_set vs.*1 in
      let kept := (filter (fun p => p.1 ∉ drop) (indexed (events m))).*2 in
      (Ok (Z.of_nat (length vs)), set_events (fun _ => kept) m)).

(** ** Bulk iteration

    A walker snapshots its rows under the lock, then calls [fn] on each with
    the lock released, polling the context before every row: [fn] may itself
    use the store, and other requests may change it in between, so a walk is
    an action.  [fn] is a closure over the caller's variables [S]. *)
Section walkers.
Context {S : Type} (sc : Sched memStore).

Fixpoint walk {R} (fn : R -> S -> Act memStore (result unit * S)) (rows : list R) (s : S)
    : Act memStore (result unit * S) :=
  match rows with
  | [] => mret (Ok tt, s)
  | r :: rows' =>
      alive ← look sc (fun env _ => read_ctx env (Ok tt));
      match alive with
      | Err e => mret (Err e, s)
      | Ok _ =>
          rs ← fn r s;
          match rs with
          | (Err e, s') => mret (Err e, s')
          | (Ok _, s') => walk fn rows' s'
          end
      end
  end.

Definition for_each {R} (rows : memStore -> list R)
    (fn : R -> S -> Act memStore (result unit * S)) (s : S) : Act memStore (result unit * S) :=
  snapshot ← look sc (fun env m => read_ctx env (Ok (rows m)));
  match snapshot with
  | Err e => mret (Err e, s)
  | Ok rows => walk fn rows s
  end.

Definition user_rows (m : memStore) : list User :=
  sort_Slice (fun a b => str_ltb (user_ID a) (user_ID b)) (map_to_list (users m)).*2.
Definition ForEachUser := for_each user_rows.

Definition code_rows (m : memStore) : list Code :=
  sort_Slice (fun a b => str_ltb (code_ID a) (code_ID b)) (map_to_list (codes m)).*2.
Definition ForEachCode := for_each code_rows.

Definition rollup_rows (m : memStore) : list RollupDelta :=
  sort_Slice rollup_less (delta_of <$> map_to_list (rollups m)).
Definition ForEachRollup := for_each rollup_rows.

Definition reservation_row (p : string * reservation) : AliasReservation :=
  {| ar_ShortCode := p.1; ar_CodeID := res_codeID p.2; ReservedAt := res_reservedAt p.2;
     ReleasedAt := res_releasedAt p.2 |}.
Definition reservation_rows (m : memStore) : list AliasReservation :=
  sort_Slice (fun a b => str_ltb (ar_ShortCode a) (ar_ShortCode b))
    (reservation_row <$> map_to_list (reservations m)).
Definition ForEachReservation := for_each reservation_rows.
End walkers.
End memstore.

Arguments insert_row : simpl never.
Arguments stored_row : simpl never.
