(* ===== verification/Concrete.v ===== *)
(** * Concrete parameters

    The development is parametric in what lies outside the repository (Unicode
    tables, the layout of time stamps, the clock, randomness).  This file
    gives each a computable interpretation that satisfies the laws assumed of
    it, so that the model can be evaluated on concrete inputs. *)
From Stdlib Require Import Ascii String BinaryString.
From S2P Require Import GoLib Domain MemStore.
Local Open Scope string_scope.
Local Open Scope Z_scope.

#[export] Instance plain_unicode : UnicodeTable := ascii_unicode.

(** Time stamps as signed binary numerals. *)
#[export] Instance binary_time : TimeFormat := {|
  Format_RFC3339Nano := BinaryString.of_Z;
  Parse_RFC3339Nano := fun s => Some (BinaryString.to_Z s);
|}.

Lemma binary_pos_no_nul p rest :
  "000"%char ∉ bytes rest -> "000"%char ∉ bytes (BinaryString.Raw.of_pos p rest).
Proof.
  revert rest. induction p as [p IH|p IH|]; intros rest Hr; simpl; [apply IH|apply IH|];
    simpl; by apply not_elem_of_cons.
Qed.

#[export] Instance binary_time_ok : TimeFormatOk.
Proof.
  split.
  - intros t _. simpl. by rewrite BinaryString.Z_of_of_Z.
  - intros t [Ht _]. destruct t as [|p|p]; [|cbn [Format_RFC3339Nano binary_time BinaryString.of_Z]|lia].
    + apply (bool_decide_unpack _). vm_compute. done.
    + unfold BinaryString.of_pos. cbn [bytes]. apply not_elem_of_cons. split; [done|].
      apply not_elem_of_cons. split; [done|]. apply binary_pos_no_nul. cbn [bytes]. apply not_elem_of_nil.
Qed.

(** A live context, the clock [n] seconds after a fixed instant, and random
    bytes that differ from turn to turn. *)
Definition epoch : Z := 738000 * Day.
Definition env_at (n : nat) : Env := {|
  ctx_Err := None;
  time_Now := epoch + Z.of_nat n * Second;
  rand_byte := fun i => byte_of (Z.of_nat (i * n + n) mod 256);
|}.
Definition env0 : Env := env_at 0.
Definition env_cancelled : Env := {| ctx_Err := Some Canceled; time_Now := epoch; rand_byte := fun _ => "a"%char |}.

(** A row a caller might insert. *)
Definition sample_styling : Styling :=
  {| styling_ID := "sty_1"; FgColor := "#000000"; BgColor := "#FFFFFF"; styling_ModuleShape := ShapeSquare;
     MarginModules := 4; SizePx := 512; styling_ECLevel := ECMedium; ECLevelEffective := ECMedium;
     LogoBlobKey := ""; LogoScale := f64_zero |}.
Definition sample_code (id short user : string) : Code :=
  {| code_ID := id; ShortCode := short; IsAlias := true; code_UserID := user; Mode := ""; ClientRef := "";
     Destination := "https://example.com/a"; State := ""; code_Styling := sample_styling;
     BlobKey := "codes/aa/bb/x.png"; BlobETag := "etag"; Version := 0; code_CreatedAt := epoch;
     UpdatedAt := epoch; DeletedAt := None |}.
