(* ===== verification/MemStoreFacts.v ===== *)
(** * Properties of the in-memory store

    Well-formedness of every reachable store, the life of one code, listing,
    pruning and the analytics totals. *)
From Stdlib Require Import Ascii String.
From S2P Require Import GoLib Domain Base64 Rollup MemStore Concrete.
Local Open Scope string_scope.
Local Open Scope Z_scope.

Section facts.
Context `{U : UnicodeTable} `{TF : TimeFormat}.

(** ** Well-formedness *)
Record wf_store (m : memStore) : Prop := {
  wf_users id u : users m !! id = Some u -> user_ID u = id;
  wf_emails key id :
    emails m !! key = Some id <-> exists u, users m !! id = Some u /\ ToLower (user_Email u) = key;
  wf_tokens id t : tokens m !! id = Some t -> token_ID t = id;
  wf_codes id c : codes m !! id = Some c -> code_ID c = id;
  (** The resolver index is the set of unreleased reservations... *)
  wf_index key : byCode m !! key = (r ← reservations m !! key; if taken r then Some (res_codeID r) else None);
  (** ... each held by a code of that name... *)
  wf_byCode key id : byCode m !! key = Some id -> exists c, codes m !! id = Some c /\ ShortCode c = key;
  (** ... and every live code holds one. *)
  wf_live id c : codes m !! id = Some c -> is_deleted c = false -> byCode m !! ShortCode c = Some id;
  wf_byRef u ref id :
    byRef m !! (u, ref) = Some id
    <-> ref <> "" /\ exists c, codes m !! id = Some c /\ code_UserID c = u /\ ClientRef c = ref;
}.

Lemma wf_NewMemStore : wf_store NewMemStore.
Proof.
  split; unfold NewMemStore; simpl; intros *; rewrite ?lookup_empty; try done.
  - split; [done|]. intros (u & Hu & _). simpl in Hu. done.
  - split; [done|]. intros (_ & c & Hc & _). simpl in Hc. done.
Qed.

(** Operations that leave everything but one component alone keep the rest
    of the invariant. *)
Lemma wf_same_codes m m' :
  wf_store m -> users m' = users m -> emails m' = emails m -> tokens m' = tokens m ->
  codes m' = codes m -> byCode m' = byCode m -> byRef m' = byRef m ->
  reservations m' = reservations m -> wf_store m'.
Proof.
  intros [H1 H2 H3 H4 H5 H6 H7 H8] E1 E2 E3 E4 E5 E6 E7.
  split; rewrite ?E1, ?E2, ?E3, ?E4, ?E5, ?E6, ?E7; done.
Qed.

Lemma wf_CreateUser env u m : wf_store m -> wf_store (CreateUser env u m).2.
Proof.
  intros Hwf. unfold CreateUser, with_ctx.
  destruct (ctx_Err env); [done|]. case_match; [done|].
  destruct (users m !! user_ID u) eqn:Hu; [done|].
  destruct (emails m !! ToLower (user_Email u)) eqn:He; [done|]. simpl.
  set (cp := if IsZero (user_CreatedAt u) then _ else u).
  assert (Hcp : user_ID cp = user_ID u /\ user_Email cp = user_Email u).
  { unfold cp. by case_match. }
  destruct Hcp as [Hid Hem]. rewrite Hid. destruct Hwf as [H1 H2 H3 H4 H5 H6 H7 H8].
  split; simpl; try done.
  - intros id u'. rewrite lookup_insert. case_decide; naive_solver.
  - intros key id. destruct (decide (user_ID u = id)) as [<-|Hi].
    + rewrite lookup_insert_eq, lookup_insert. case_decide as Ek.
      * split; [|done]. intros _. exists cp. split; [done|]. congruence.
      * split; [|intros (u' & [= <-] & Hk); congruence].
        intros (u' & Hu' & _)%H2. congruence.
    + rewrite (lookup_insert_ne (users m)) by done. rewrite lookup_insert. case_decide as Ek; [|apply H2].
      split; [naive_solver|]. intros (u' & Hu' & Hk). exfalso.
      assert (emails m !! key = Some id) by (apply H2; eauto). congruence.
Qed.

Lemma wf_set_user m id u u' :
  wf_store m -> users m !! id = Some u -> user_ID u' = id -> user_Email u' = user_Email u ->
  wf_store (set_users <[id := u']> m).
Proof.
  intros [H1 H2 H3 H4 H5 H6 H7 H8] Hu Hid Hem. split; simpl; try done.
  - intros id' v. rewrite lookup_insert. case_decide; naive_solver.
  - intros key id'. rewrite H2. split; intros (v & Hv & Hk).
    + destruct (decide (id = id')) as [<-|Hne].
      * exists u'. rewrite lookup_insert_eq. split; [done|]. congruence.
      * exists v. by rewrite lookup_insert_ne.
    + rewrite lookup_insert in Hv. case_decide; [|by exists v]. simplify_eq. exists u.
      split; [done|]. congruence.
Qed.

Lemma wf_BumpTokenVersion env id m : wf_store m -> wf_store (BumpTokenVersion env id m).2.
Proof.
  intros Hwf. unfold BumpTokenVersion, with_ctx. destruct (ctx_Err env); [done|].
  destruct (users m !! id) as [u|] eqn:Hu; [|done]. simpl.
  apply (wf_set_user _ _ u); try done. simpl. by apply (wf_users _ Hwf).
Qed.

Lemma wf_set_token m id t :
  wf_store m -> token_ID t = id -> wf_store (set_tokens <[id := t]> m).
Proof.
  intros [H1 H2 H3 H4 H5 H6 H7 H8] Hid. split; simpl; try done.
  intros id' t'. rewrite lookup_insert. case_decide; naive_solver.
Qed.

Lemma wf_CreateToken env t m : wf_store m -> wf_store (CreateToken env t m).2.
Proof.
  intros Hwf. unfold CreateToken, with_ctx. destruct (ctx_Err env); [done|].
  case_match; [done|]. destruct (tokens m !! token_ID t); [done|]. simpl.
  by apply wf_set_token.
Qed.

Lemma wf_RevokeToken env id u m : wf_store m -> wf_store (RevokeToken env id u m).2.
Proof.
  intros Hwf. unfold RevokeToken, with_ctx. destruct (ctx_Err env); [done|].
  destruct (tokens m !! id) as [t|] eqn:Ht; [|done].
  case_match; [done|]. case_match; [done|]. simpl.
  apply wf_set_token; [done|]. simpl. by apply (wf_tokens _ Hwf).
Qed.

Lemma wf_TouchTokenLastUsed env id at_ m : wf_store m -> wf_store (TouchTokenLastUsed env id at_ m).2.
Proof.
  intros Hwf. unfold TouchTokenLastUsed, with_ctx. destruct (ctx_Err env); [done|].
  destruct (tokens m !! id) as [t|] eqn:Ht; [|done]. simpl.
  apply wf_set_token; [done|]. simpl. by apply (wf_tokens _ Hwf).
Qed.

(** Rewriting a stored code keeps the invariant when its name, owner and
    reference stay, and a deleted code stays deleted. *)
Lemma wf_set_code m id c c' :
  wf_store m -> codes m !! id = Some c ->
  code_ID c' = code_ID c -> ShortCode c' = ShortCode c -> code_UserID c' = code_UserID c ->
  ClientRef c' = ClientRef c -> (is_deleted c' = false -> is_deleted c = false) ->
  wf_store (set_codes <[id := c']> m).
Proof.
  intros [H1 H2 H3 H4 H5 H6 H7 H8] Hc E1 E2 E3 E4 E5. split; simpl; try done.
  - intros id' d. rewrite lookup_insert. case_decide as Ei; [|apply H4].
    intros [= <-]. rewrite E1. subst id'. by apply H4.
  - intros key id' (d & Hd & Hk)%H6. rewrite lookup_insert. case_decide; [|by exists d].
    simplify_eq. by exists c'.
  - intros id' d. rewrite lookup_insert. case_decide as Ei; [|apply H7].
    intros [= <-] Hdel. subst id'. rewrite E2. apply H7; auto.
  - intros u ref id'. rewrite H8, lookup_insert. case_decide as Ei; [|done]. subst id'.
    split; intros (Hne & d & Hd & Hu & Hr); (split; [done|]); simplify_eq.
    + by exists c'.
    + by exists c.
Qed.

Lemma owned_Ok id u m c : owned id u m = Ok c <-> codes m !! id = Some c /\ code_UserID c = u.
Proof.
  unfold owned. destruct (codes m !! id) as [d|]; [|naive_solver].
  destruct (String.eqb_spec (code_UserID d) u); naive_solver.
Qed.

Lemma wf_UpdateDestination env id u dest v m :
  wf_store m -> wf_store (UpdateDestination env id u dest v m).2.
Proof.
  intros Hwf. unfold UpdateDestination, with_ctx. destruct (ctx_Err env); [done|].
  destruct (owned id u m) as [c|] eqn:Hc; [|done]. apply owned_Ok in Hc as [Hc _].
  repeat case_match; try done. by apply (wf_set_code _ _ c).
Qed.

Lemma wf_SetCodeState env id u st m : wf_store m -> wf_store (SetCodeState env id u st m).2.
Proof.
  intros Hwf. unfold SetCodeState, with_ctx. destruct (ctx_Err env); [done|].
  case_match; [done|]. case_match; [done|].
  destruct (owned id u m) as [c|] eqn:Hc; [|done]. apply owned_Ok in Hc as [Hc _].
  destruct (String.eqb (State c) CodeDeleted) eqn:Ed; [done|].
  by apply (wf_set_code _ _ c).
Qed.

Lemma wf_DeleteCode env id u m : wf_store m -> wf_store (DeleteCode env id u m).2.
Proof.
  intros Hwf. unfold DeleteCode, with_ctx. destruct (ctx_Err env); [done|].
  destruct (owned id u m) as [c|] eqn:Hc; [|done]. apply owned_Ok in Hc as [Hc _].
  destruct (String.eqb (State c) CodeDeleted) eqn:Ed; [done|].
  by apply (wf_set_code _ _ c).
Qed.

(** A deleted code's reservation, once released, leaves the resolver index. *)
Lemma wf_ReleaseAlias env sc m : wf_store m -> wf_store (ReleaseAlias env sc m).2.
Proof.
  intros Hwf. unfold ReleaseAlias, with_ctx. destruct (ctx_Err env); [done|].
  set (key := ToLower sc). destruct (reservations m !! key) as [r|] eqn:Hr; [|done].
  destruct (taken r) eqn:Ht; [simpl|done].
  pose proof (wf_index _ Hwf key) as Hidx. rewrite Hr in Hidx. simpl in Hidx. rewrite Ht in Hidx.
  destruct (wf_byCode _ Hwf _ _ Hidx) as (c & Hc & Hk). rewrite Hc. simpl.
  destruct (is_deleted c) eqn:Hd; [simpl|done]. rewrite Hidx, Hc. simpl. rewrite Hd.
  destruct Hwf as [H1 H2 H3 H4 H5 H6 H7 H8]. split; simpl; try done.
  - intros k. rewrite lookup_delete, lookup_insert. by case_decide.
  - intros k id. rewrite lookup_delete. case_decide; [done|]. apply H6.
  - intros id d Hd1 Hd2. rewrite lookup_delete. case_decide as Ek; [|by apply H7].
    specialize (H7 _ _ Hd1 Hd2). rewrite <- Ek in H7. congruence.
Qed.

(** *** Insertion of a batch *)
Definition fresh_row (m : memStore) (cp : Code) : Prop :=
  codes m !! code_ID cp = None /\ byCode m !! ShortCode cp = None
  /\ (ClientRef cp = "" \/ byRef m !! (code_UserID cp, ClientRef cp) = None).

Lemma insert_row_codes now cp m : codes (insert_row now cp m) = <[code_ID cp := cp]> (codes m).
Proof. unfold insert_row. by case_match. Qed.
Lemma insert_row_byCode now cp m : byCode (insert_row now cp m) = <[ShortCode cp := code_ID cp]> (byCode m).
Proof. unfold insert_row. by case_match. Qed.
Lemma insert_row_byRef now cp m :
  byRef (insert_row now cp m)
  = if String.eqb (ClientRef cp) "" then byRef m
    else <[(code_UserID cp, ClientRef cp) := code_ID cp]> (byRef m).
Proof. unfold insert_row. by case_match. Qed.
Lemma insert_row_reservations now cp m :
  reservations (insert_row now cp m)
  = <[ShortCode cp := {| res_codeID := code_ID cp; res_reservedAt := now; res_releasedAt := None |}]>
      (reservations m).
Proof. unfold insert_row. by case_match. Qed.
Lemma insert_row_rest now cp m :
  users (insert_row now cp m) = users m /\ emails (insert_row now cp m) = emails m
  /\ tokens (insert_row now cp m) = tokens m /\ events (insert_row now cp m) = events m
  /\ nextSeq (insert_row now cp m) = nextSeq m /\ rollups (insert_row now cp m) = rollups m.
Proof. unfold insert_row. by case_match. Qed.

Lemma wf_insert_row now cp m : wf_store m -> fresh_row m cp -> wf_store (insert_row now cp m).
Proof.
  intros [H1 H2 H3 H4 H5 H6 H7 H8] (Hid & Hkey & Href).
  destruct (insert_row_rest now cp m) as (Eu & Ee & Et & _).
  split; rewrite ?Eu, ?Ee, ?Et, ?insert_row_codes, ?insert_row_byCode, ?insert_row_reservations;
    try done.
  - intros id c. rewrite lookup_insert. case_decide; [naive_solver|apply H4].
  - intros k. rewrite !lookup_insert. case_decide; [done|apply H5].
  - intros k id. rewrite (lookup_insert (byCode m)). case_decide as Ek.
    + intros [= <-]. exists cp. by rewrite lookup_insert_eq.
    + intros (c & Hc & Hk)%H6. exists c. split; [|done]. rewrite lookup_insert_ne; [done|congruence].
  - intros id c. rewrite lookup_insert. case_decide as Ei.
    + intros [= <-] _. subst id. apply lookup_insert_eq.
    + intros Hc Hd. rewrite lookup_insert_ne; [by apply H7|].
      intros Ek. specialize (H7 _ _ Hc Hd). congruence.
  - intros u ref id. rewrite insert_row_byRef, lookup_insert.
    assert (Hold : byRef m !! (u, ref) = Some id -> code_ID cp <> id).
    { intros (_ & c & Hc & _)%H8 E. rewrite <- E in Hc. congruence. }
    destruct (String.eqb_spec (ClientRef cp) "") as [E0|E0].
    + case_decide as Ei; [|apply H8]. subst id. split; [by intros ?%Hold|].
      intros (Hne & c & [= <-] & _ & Hr). congruence.
    + destruct Href as [|Href]; [done|]. rewrite lookup_insert.
      destruct (decide ((code_UserID cp, ClientRef cp) = (u, ref))) as [[= <- <-]|Hne].
      * split; [intros [= <-]; rewrite decide_True by done; eauto|].
        case_decide as Ei; [congruence|]. intros H. exfalso.
        assert (byRef m !! (code_UserID cp, ClientRef cp) = Some id) by (by apply H8). congruence.
      * case_decide as Ei; [|apply H8]. subst id. split; [by intros ?%Hold|].
        intros (_ & c & [= <-] & Hu & Hr). congruence.
Qed.

(** [m'] is [m] with rows added whose keys are in the given sets. *)
Record grown (m m' : memStore) (sID sCode : gset string) (sRef : gset (string * string)) : Prop := {
  grown_id id : is_Some (codes m' !! id) -> is_Some (codes m !! id) \/ id ∈ sID;
  grown_code k : is_Some (byCode m' !! k) -> is_Some (byCode m !! k) \/ k ∈ sCode;
  grown_ref k : is_Some (byRef m' !! k) -> is_Some (byRef m !! k) \/ k ∈ sRef;
}.

Lemma grown_refl m : grown m m ∅ ∅ ∅.
Proof. split; auto. Qed.

Definition add_ref (c : Code) (sRef : gset (string * string)) : gset (string * string) :=
  if String.eqb (ClientRef c) "" then sRef else {[(code_UserID c, ClientRef c)]} ∪ sRef.

Lemma grown_insert m m' sID sCode sRef now cp :
  grown m m' sID sCode sRef ->
  grown m (insert_row now cp m') ({[code_ID cp]} ∪ sID) ({[ShortCode cp]} ∪ sCode) (add_ref cp sRef).
Proof.
  intros [G1 G2 G3]. split.
  - intros id. rewrite insert_row_codes, lookup_insert, elem_of_union, elem_of_singleton.
    case_decide; [auto|]. intros [|]%G1; auto.
  - intros k. rewrite insert_row_byCode, lookup_insert, elem_of_union, elem_of_singleton.
    case_decide; [auto|]. intros [|]%G2; auto.
  - intros k. rewrite insert_row_byRef. unfold add_ref. case_match; [apply G3|].
    rewrite lookup_insert, elem_of_union, elem_of_singleton. case_decide; [auto|].
    intros [|]%G3; auto.
Qed.

(** One accepted row of the checking pass. *)
Lemma check_rows_cons m c cs sID sCode sRef :
  check_rows m (c :: cs) sID sCode sRef = None ->
  ~ is_Some (codes m !! code_ID c) /\ code_ID c ∉ sID
  /\ ~ is_Some (byCode m !! ToLower (ShortCode c)) /\ ToLower (ShortCode c) ∉ sCode
  /\ (ClientRef c = "" \/ ~ is_Some (byRef m !! (code_UserID c, ClientRef c))
                         /\ (code_UserID c, ClientRef c) ∉ sRef)
  /\ check_rows m cs ({[code_ID c]} ∪ sID) ({[ToLower (ShortCode c)]} ∪ sCode) (add_ref c sRef) = None.
Proof.
  cbn [check_rows]. unfold add_ref. destruct (String.eqb_spec (ClientRef c) "") as [Er|Er]; intros H;
    repeat match type of H with (if ?b then _ else _) = _ => destruct b eqn:?; try done end;
    bool_to_prop; auto 10.
Qed.

Lemma stored_row_keys env off c :
  code_ID (stored_row env off c) = code_ID c /\ ShortCode (stored_row env off c) = ToLower (ShortCode c)
  /\ code_UserID (stored_row env off c) = code_UserID c
  /\ ClientRef (stored_row env off c) = ClientRef c.
Proof. done. Qed.

Lemma check_rows_fresh env off m m' c cs sID sCode sRef :
  grown m m' sID sCode sRef -> check_rows m (c :: cs) sID sCode sRef = None ->
  fresh_row m' (stored_row env off c).
Proof.
  intros [G1 G2 G3] (N1 & N2 & N3 & N4 & N5 & _)%check_rows_cons. repeat split; simpl.
  - apply eq_None_not_Some. by intros [|]%G1.
  - apply eq_None_not_Some. by intros [|]%G2.
  - destruct N5 as [|[N5 N6]]; [by left|right]. apply eq_None_not_Some. by intros [|]%G3.
Qed.

Lemma wf_write_rows env m cs off m' sID sCode sRef :
  wf_store m' -> grown m m' sID sCode sRef -> check_rows m cs sID sCode sRef = None ->
  wf_store (write_rows env off cs m').2.
Proof.
  revert off m' sID sCode sRef. induction cs as [|c cs IH]; intros off m' sID sCode sRef Hwf Hg Hc; [done|].
  cbn [write_rows]. pose proof (check_rows_fresh env off _ _ _ _ _ _ _ Hg Hc) as Hf.
  apply check_rows_cons in Hc as (_ & _ & _ & _ & _ & Hc).
  specialize (IH (off + styling_draws c)%nat (insert_row (time_Now env) (stored_row env off c) m')
    _ _ _ (wf_insert_row _ _ _ Hwf Hf) (grown_insert _ _ _ _ _ _ _ Hg) Hc).
  destruct (write_rows _ _ cs _). done.
Qed.

Lemma wf_CreateCodes env cs m : wf_store m -> wf_store (CreateCodes env cs m).2.
Proof.
  intros Hwf. unfold CreateCodes, with_ctx. destruct (ctx_Err env); [done|].
  destruct (check_rows m cs ∅ ∅ ∅) eqn:Hc; [done|].
  pose proof (wf_write_rows env m cs 0 m ∅ ∅ ∅ Hwf (grown_refl m) Hc) as H.
  by destruct (write_rows env 0 cs m).
Qed.

Lemma wf_foldl_events evs m : wf_store m -> wf_store (foldl append_event m evs).
Proof.
  revert m. induction evs as [|ev evs IH]; intros m Hwf; [done|]. apply IH.
  by apply (wf_same_codes m).
Qed.

Lemma wf_foldl_deltas rs m : wf_store m -> wf_store (foldl apply_delta m rs).
Proof.
  revert m. induction rs as [|r rs IH]; intros m Hwf; [done|]. apply IH.
  by apply (wf_same_codes m).
Qed.

Lemma wf_InsertScanBatch env b m : wf_store m -> wf_store (InsertScanBatch env b m).2.
Proof.
  intros Hwf. unfold InsertScanBatch, with_ctx. destruct (ctx_Err env); [done|].
  do 2 (case_match; [done|]). by apply wf_foldl_deltas, wf_foldl_events.
Qed.

Lemma wf_PruneScanEvents env before limit m : wf_store m -> wf_store (PruneScanEvents env before limit m).2.
Proof.
  intros Hwf. unfold PruneScanEvents, with_ctx. destruct (ctx_Err env); [done|].
  case_match; [done|]. by apply (wf_same_codes m).
Qed.

(** ** Traces of operations *)
Inductive op :=
| OpCreateUser (u : User) | OpBumpTokenVersion (id : string)
| OpCreateToken (t : APIToken) | OpRevokeToken (id userID : string)
| OpTouchTokenLastUsed (id : string) (at_ : Z)
| OpCreateCodes (cs : list Code)
| OpUpdateDestination (id userID dest : string) (expectedVersion : Z)
| OpSetCodeState (id userID : string) (state : CodeState)
| OpDeleteCode (id userID : string) | OpReleaseAlias (shortCode : string)
| OpInsertScanBatch (b : ScanBatch) | OpPruneScanEvents (before limit : Z).

Definition exec (env : Env) (o : op) (m : memStore) : memStore :=
  match o with
  | OpCreateUser u => (CreateUser env u m).2
  | OpBumpTokenVersion id => (BumpTokenVersion env id m).2
  | OpCreateToken t => (CreateToken env t m).2
  | OpRevokeToken id u => (RevokeToken env id u m).2
  | OpTouchTokenLastUsed id t => (TouchTokenLastUsed env id t m).2
  | OpCreateCodes cs => (CreateCodes env cs m).2
  | OpUpdateDestination id u d v => (UpdateDestination env id u d v m).2
  | OpSetCodeState id u s => (SetCodeState env id u s m).2
  | OpDeleteCode id u => (DeleteCode env id u m).2
  | OpReleaseAlias sc => (ReleaseAlias env sc m).2
  | OpInsertScanBatch b => (InsertScanBatch env b m).2
  | OpPruneScanEvents b l => (PruneScanEvents env b l m).2
  end.

Definition run (tr : list (Env * op)) (m : memStore) : memStore :=
  foldl (fun m p => exec p.1 p.2 m) m tr.

Lemma wf_exec env o m : wf_store m -> wf_store (exec env o m).
Proof.
  destruct o; simpl; auto using wf_CreateUser, wf_BumpTokenVersion, wf_CreateToken,
    wf_RevokeToken, wf_TouchTokenLastUsed, wf_CreateCodes, wf_UpdateDestination,
    wf_SetCodeState, wf_DeleteCode, wf_ReleaseAlias, wf_InsertScanBatch, wf_PruneScanEvents.
Qed.

Lemma wf_run tr m : wf_store m -> wf_store (run tr m).
Proof. revert m. induction tr as [|[env o] tr IH]; intros m; simpl; auto using wf_exec. Qed.

(** ** The life of one code *)

(** One operation changes a live code's destination, state and deletion time
    and moves its version on; it changes a deleted code not at all. *)
Definition code_step (c c' : Code) : Prop :=
  is_deleted c = false /\
  exists dest state updated deleted,
    c' = set_code dest state (incr64 (Version c)) updated deleted c.

Lemma write_rows_codes env cs off m id :
  id ∉ code_ID <$> cs -> codes (write_rows env off cs m).2 !! id = codes m !! id.
Proof.
  revert off m. induction cs as [|c cs IH]; intros off m; [done|].
  rewrite fmap_cons, not_elem_of_cons. intros [Hne Hn]. cbn [write_rows].
  specialize (IH (off + styling_draws c)%nat (insert_row (time_Now env) (stored_row env off c) m) Hn).
  destruct (write_rows _ _ cs _). cbn [snd] in *. rewrite IH, insert_row_codes.
  by rewrite lookup_insert_ne.
Qed.

Lemma check_rows_absent m cs sID sCode sRef id :
  check_rows m cs sID sCode sRef = None -> is_Some (codes m !! id) -> id ∉ code_ID <$> cs.
Proof.
  revert sID sCode sRef. induction cs as [|c cs IH]; intros sID sCode sRef Hc Hid.
  - apply not_elem_of_nil.
  - apply check_rows_cons in Hc as (N1 & _ & _ & _ & _ & Hc).
    rewrite fmap_cons, not_elem_of_cons. split; [|by eapply IH]. by intros ->.
Qed.

Lemma foldl_keeps {A B} (f : memStore -> A -> memStore) (proj : memStore -> B) l m :
  (forall m x, proj (f m x) = proj m) -> proj (foldl f m l) = proj m.
Proof. intros H. revert m. induction l as [|x l IH]; intros m; simpl; [done|]. by rewrite IH, H. Qed.

(** Whether the operation is a change of the code [id]: an update or a state
    change that reports success, or the deletion of the code while it lives. *)
Definition changes (id : string) (env : Env) (o : op) (m : memStore) : bool :=
  match o with
  | OpUpdateDestination i u d v => String.eqb i id && is_Ok (UpdateDestination env i u d v m).1
  | OpSetCodeState i u st => String.eqb i id && is_Ok (SetCodeState env i u st m).1
  | OpDeleteCode i u => String.eqb i id && is_Ok (DeleteCode env i u m).1
                        && negb (from_option is_deleted true (codes m !! i))
  | _ => false
  end.

Fixpoint count_changes (id : string) (tr : list (Env * op)) (m : memStore) : nat :=
  match tr with
  | [] => 0
  | (env, o) :: tr => (if changes id env o m then 1 else 0) + count_changes id tr (exec env o m)
  end.

(** The row stays as it is, the operation being none that changes it. *)
Local Ltac idle := cbn [fst snd is_Ok]; rewrite ?andb_false_r; cbn; eauto.

Lemma exec_code env o m id c :
  codes m !! id = Some c ->
  exists c', codes (exec env o m) !! id = Some c' /\ (if changes id env o m then code_step c c' else c' = c).
Proof.
  intros Hc. destruct o; cbn [changes exec].
  - unfold CreateUser, with_ctx. repeat case_match; simpl; eauto.
  - unfold BumpTokenVersion, with_ctx. repeat case_match; simpl; eauto.
  - unfold CreateToken, with_ctx. repeat case_match; simpl; eauto.
  - unfold RevokeToken, with_ctx. repeat case_match; simpl; eauto.
  - unfold TouchTokenLastUsed, with_ctx. repeat case_match; simpl; eauto.
  - unfold CreateCodes, with_ctx. destruct (ctx_Err env); [eauto|].
    destruct (check_rows m cs ∅ ∅ ∅) eqn:Hk; [eauto|].
    pose proof (write_rows_codes env cs 0 m id) as Hw.
    destruct (write_rows env 0 cs m) as [out m'] eqn:Ew. simpl in *.
    exists c. split; [|done]. rewrite Hw; [done|]. by eapply check_rows_absent.
  - unfold UpdateDestination, with_ctx. destruct (ctx_Err env); [idle|].
    destruct (owned id0 userID m) as [d|] eqn:Ho; [|idle]. apply owned_Ok in Ho as [Ho _].
    destruct (String.eqb (State d) CodeDeleted) eqn:Ed; [idle|].
    case_match; [idle|]. simpl. rewrite andb_true_r, lookup_insert.
    destruct (String.eqb_spec id0 id) as [->|Hne]; [rewrite decide_True by done|rewrite decide_False by done; eauto].
    simplify_eq. eexists. split; [done|]. split; [done|]. by do 4 eexists.
  - unfold SetCodeState, with_ctx. destruct (ctx_Err env); [idle|].
    do 2 (case_match; [idle|]).
    destruct (owned id0 userID m) as [d|] eqn:Ho; [|idle]. apply owned_Ok in Ho as [Ho _].
    destruct (String.eqb (State d) CodeDeleted) eqn:Ed; [idle|]. simpl. rewrite andb_true_r, lookup_insert.
    destruct (String.eqb_spec id0 id) as [->|Hne]; [rewrite decide_True by done|rewrite decide_False by done; eauto].
    simplify_eq. eexists. split; [done|]. split; [done|]. by do 4 eexists.
  - unfold DeleteCode, with_ctx. destruct (ctx_Err env); [idle|].
    destruct (owned id0 userID m) as [d|] eqn:Ho; [|idle]. apply owned_Ok in Ho as [Ho _].
    rewrite Ho. cbn [from_option]. unfold is_deleted at 1.
    destruct (String.eqb (State d) CodeDeleted) eqn:Ed; [idle|]. simpl. rewrite !andb_true_r, lookup_insert.
    destruct (String.eqb_spec id0 id) as [->|Hne]; [rewrite decide_True by done|rewrite decide_False by done; eauto].
    simplify_eq. eexists. split; [done|]. split; [done|]. by do 4 eexists.
  - unfold ReleaseAlias, with_ctx. repeat case_match; simpl; eauto.
  - unfold InsertScanBatch, with_ctx. repeat case_match; simpl; eauto.
    rewrite (foldl_keeps apply_delta codes) by done.
    rewrite (foldl_keeps append_event codes) by done. eauto.
  - unfold PruneScanEvents, with_ctx. repeat case_match; simpl; eauto.
Qed.

(** A trace takes the row through as many steps as it changes the code. *)
Lemma run_code tr m id c :
  codes m !! id = Some c ->
  exists c', codes (run tr m) !! id = Some c' /\ nsteps code_step (count_changes id tr m) c c'.
Proof.
  revert m c. induction tr as [|[env o] tr IH]; intros m c Hc; simpl.
  - exists c. split; [done|]. apply nsteps_O.
  - destruct (exec_code env o m id c Hc) as (c1 & Hc1 & Hs).
    destruct (IH _ _ Hc1) as (c2 & Hc2 & Hr). exists c2. split; [done|].
    destruct (changes id env o m); [by eapply nsteps_l|by subst].
Qed.

(** What never changes about a code. *)
Definition same_identity (c c' : Code) : Prop :=
  code_ID c' = code_ID c /\ ShortCode c' = ShortCode c /\ IsAlias c' = IsAlias c
  /\ code_UserID c' = code_UserID c /\ Mode c' = Mode c /\ ClientRef c' = ClientRef c
  /\ code_Styling c' = code_Styling c /\ BlobKey c' = BlobKey c /\ BlobETag c' = BlobETag c
  /\ code_CreatedAt c' = code_CreatedAt c.

Lemma code_steps_identity c c' : rtc code_step c c' -> same_identity c c'.
Proof.
  induction 1 as [c|c c1 c2 [_ (d & s & u & del & ->)] _ IH]; [by repeat split|].
  unfold same_identity in *. simpl in IH. destruct_and!. repeat split; congruence.
Qed.

Lemma code_steps_deleted c c' : rtc code_step c c' -> is_deleted c = true -> c' = c.
Proof. intros H Hdel. inversion H as [|x y z [Hd _] _]; [done|]. congruence. Qed.

(** The version counts the changes. *)
Lemma code_steps_version n c c' :
  nsteps code_step n c c' -> wrap64 (Version c') = wrap64 (Version c + Z.of_nat n).
Proof.
  induction 1 as [c|n c c1 c2 [_ (d & s & u & del & ->)] _ IH]; [f_equal; lia|].
  rewrite IH. simpl. unfold incr64. rewrite wrap64_add_l. f_equal. lia.
Qed.

(** ** Functional specifications *)

(** The random bytes used before row [i] of a batch. *)
Fixpoint draws_before (i : nat) (cs : list Code) : nat :=
  match i, cs with
  | S i', c :: cs' => (styling_draws c + draws_before i' cs')%nat
  | _, _ => 0%nat
  end.

Lemma check_rows_ids m cs sID sCode sRef :
  check_rows m cs sID sCode sRef = None ->
  NoDup (code_ID <$> cs) /\ (forall c, c ∈ cs -> code_ID c ∉ sID).
Proof.
  revert sID sCode sRef. induction cs as [|c cs IH]; intros sID sCode sRef Hc.
  - split; [constructor|]. by intros c ?%elem_of_nil.
  - apply check_rows_cons in Hc as (_ & N2 & _ & _ & _ & Hc). destruct (IH _ _ _ Hc) as [Hnd Hin].
    split.
    + rewrite fmap_cons. constructor; [|done]. intros (d & Hd & Hdin)%list_elem_of_fmap.
      specialize (Hin _ Hdin). set_solver.
    + intros d [->|Hd]%elem_of_cons; [done|]. specialize (Hin _ Hd). set_solver.
Qed.

Lemma check_rows_keys m cs sID sCode sRef :
  check_rows m cs sID sCode sRef = None ->
  NoDup ((fun c => ToLower (ShortCode c)) <$> cs)
  /\ (forall c, c ∈ cs -> ToLower (ShortCode c) ∉ sCode).
Proof.
  revert sID sCode sRef. induction cs as [|c cs IH]; intros sID sCode sRef Hc.
  - split; [constructor|]. by intros c ?%elem_of_nil.
  - apply check_rows_cons in Hc as (_ & _ & _ & N4 & _ & Hc). destruct (IH _ _ _ Hc) as [Hnd Hin].
    split.
    + rewrite fmap_cons. constructor; [|done]. intros (d & Hd & Hdin)%list_elem_of_fmap.
      specialize (Hin _ Hdin). set_solver.
    + intros d [->|Hd]%elem_of_cons; [done|]. specialize (Hin _ Hd). set_solver.
Qed.

Lemma write_rows_byCode env cs off m k :
  k ∉ (fun c => ToLower (ShortCode c)) <$> cs ->
  byCode (write_rows env off cs m).2 !! k = byCode m !! k.
Proof.
  revert off m. induction cs as [|c cs IH]; intros off m; [done|].
  rewrite fmap_cons, not_elem_of_cons. intros [Hne Hn]. cbn [write_rows].
  specialize (IH (off + styling_draws c)%nat (insert_row (time_Now env) (stored_row env off c) m) Hn).
  destruct (write_rows _ _ cs _). cbn [snd] in *. rewrite IH, insert_row_byCode.
  by rewrite lookup_insert_ne.
Qed.

(** The rows a successful batch leaves. *)
Lemma write_rows_lookup env cs off m i c :
  NoDup (code_ID <$> cs) -> NoDup ((fun c => ToLower (ShortCode c)) <$> cs) -> cs !! i = Some c ->
  let cp := stored_row env (off + draws_before i cs) c in
  (write_rows env off cs m).1 !! i = Some (reflect_row c cp)
  /\ codes (write_rows env off cs m).2 !! code_ID c = Some cp
  /\ byCode (write_rows env off cs m).2 !! ToLower (ShortCode c) = Some (code_ID c).
Proof.
  revert off m i. induction cs as [|d cs IH]; intros off m i Hid Hkey; [done|].
  rewrite fmap_cons in Hid, Hkey. apply NoDup_cons in Hid as [Hid1 Hid2], Hkey as [Hk1 Hk2].
  destruct i as [|i]; cbn [lookup list_lookup].
  - intros [= ->]. cbn [draws_before write_rows]. rewrite Nat.add_0_r.
    set (m1 := insert_row _ _ m).
    pose proof (write_rows_codes env cs (off + styling_draws c) m1 (code_ID c) Hid1) as E1.
    pose proof (write_rows_byCode env cs (off + styling_draws c) m1 (ToLower (ShortCode c)) Hk1) as E2.
    destruct (write_rows env _ cs m1) as [out m']. cbn [fst snd] in *.
    split; [done|]. rewrite E1, E2. unfold m1. rewrite insert_row_codes, insert_row_byCode.
    split; apply lookup_insert_eq.
  - intros Hc. cbn [draws_before write_rows].
    specialize (IH (off + styling_draws d)%nat (insert_row (time_Now env) (stored_row env off d) m) i Hid2 Hk2 Hc).
    destruct (write_rows env _ cs _) as [out m']. cbn [fst snd] in *.
    by rewrite Nat.add_assoc.
Qed.

Lemma write_rows_length env cs off m : length (write_rows env off cs m).1 = length cs.
Proof.
  revert off m. induction cs as [|c cs IH]; intros off m; [done|]. cbn [write_rows].
  specialize (IH (off + styling_draws c)%nat (insert_row (time_Now env) (stored_row env off c) m)).
  destruct (write_rows _ _ cs _). simpl in *. by f_equal.
Qed.

Lemma CreateCodes_inv env cs m out m' :
  CreateCodes env cs m = (Ok out, m') ->
  ctx_Err env = None /\ check_rows m cs ∅ ∅ ∅ = None /\ write_rows env 0 cs m = (out, m').
Proof.
  unfold CreateCodes, with_ctx. destruct (ctx_Err env); [done|].
  destruct (check_rows m cs ∅ ∅ ∅); [done|]. destruct (write_rows env 0 cs m). by intros [= <- <-].
Qed.

Lemma CreateCodes_Err env cs m e m' : CreateCodes env cs m = (Err e, m') -> m' = m.
Proof.
  unfold CreateCodes, with_ctx. destruct (ctx_Err env); [by intros [= _ <-]|].
  destruct (check_rows m cs ∅ ∅ ∅); [by intros [= _ <-]|]. by destruct (write_rows env 0 cs m).
Qed.

(** Reading back through the resolver. *)
Lemma GetCodeByShortCode_byCode env s m id c :
  ctx_Err env = None -> byCode m !! ToLower s = Some id -> codes m !! id = Some c ->
  GetCodeByShortCode env s m = Ok c.
Proof.
  intros Hctx Hb Hc. unfold GetCodeByShortCode, read_ctx, code_at. by rewrite Hctx, Hb, Hc.
Qed.
End facts.

(** ** Properties *)
Section properties.
Context `{U : UnicodeTable} `{TF : TimeFormat}.

(** C13: every store reached by any sequence of operations, failing ones
    included, is well-formed, and no two live codes share a short code. *)
Theorem store_invariant (tr : list (Env * op)) :
  wf_store (run tr NewMemStore)
  /\ forall id1 id2 c1 c2,
       codes (run tr NewMemStore) !! id1 = Some c1 -> codes (run tr NewMemStore) !! id2 = Some c2 ->
       is_deleted c1 = false -> is_deleted c2 = false -> ShortCode c1 = ShortCode c2 -> id1 = id2.
Proof.
  pose proof (wf_run tr _ wf_NewMemStore) as Hwf. split; [done|].
  intros id1 id2 c1 c2 H1 H2 L1 L2 E.
  pose proof (wf_live _ Hwf _ _ H1 L1) as B1. pose proof (wf_live _ Hwf _ _ H2 L2) as B2.
  rewrite E in B1. congruence.
Qed.

(** C32: the life of a code.  Whatever operations follow, its row stays, its
    identity (id, short code, owner, mode, reference, styling, image) never
    changes, and its version moves on, in 64 bits, by exactly the number of
    operations that changed it: the updates and state changes of this code
    that report success and its deletion; between those nothing in the row
    changes, and once the code is deleted nothing ever does. *)
Theorem code_lifecycle (tr : list (Env * op)) (m : memStore) (id : string) (c : Code) :
  codes m !! id = Some c ->
  exists c', codes (run tr m) !! id = Some c' /\ same_identity c c'
    /\ wrap64 (Version c') = wrap64 (Version c + Z.of_nat (count_changes id tr m))
    /\ (count_changes id tr m = 0%nat -> c' = c)
    /\ (is_deleted c = true -> c' = c).
Proof.
  intros Hc. destruct (run_code tr m id c Hc) as (c' & Hc' & Hr).
  pose proof (proj2 (rtc_nsteps c c') (ex_intro _ _ Hr)) as Hrtc.
  exists c'. split; [done|]. split; [by apply code_steps_identity|].
  split; [by apply code_steps_version|]. split; [|intros Hd; by apply code_steps_deleted].
  intros E. rewrite E in Hr. by inversion Hr.
Qed.

(** [CreateCodes] is all or nothing.  On an error the store is exactly
    what it was; on success every input row is stored with its defaults and
    version 1, is what the caller's struct now reads, resolves under any
    spelling that lower-cases to its short code, and no other row changed. *)
Theorem CreateCodes_atomic (env : Env) (cs : list Code) (m : memStore) :
  match CreateCodes env cs m with
  | (Err _, m') => m' = m
  | (Ok out, m') =>
      length out = length cs
      /\ (forall i c, cs !! i = Some c ->
            let cp := stored_row env (draws_before i cs) c in
            out !! i = Some (reflect_row c cp) /\ codes m' !! code_ID c = Some cp
            /\ Version cp = 1
            /\ forall env' s, ctx_Err env' = None -> ToLower s = ToLower (ShortCode c) ->
                 GetCodeByShortCode env' s m' = Ok cp)
      /\ (forall id, id ∉ code_ID <$> cs -> codes m' !! id = codes m !! id)
  end.
Proof.
  destruct (CreateCodes env cs m) as [[out|e] m'] eqn:E; [|by apply CreateCodes_Err in E].
  apply CreateCodes_inv in E as (_ & Hc & Hw).
  destruct (check_rows_ids _ _ _ _ _ Hc) as [Hid _]. destruct (check_rows_keys _ _ _ _ _ Hc) as [Hk _].
  split; [|split].
  - pose proof (write_rows_length env cs 0 m) as Hl. by rewrite Hw in Hl.
  - intros i c Hi. pose proof (write_rows_lookup env cs 0 m i c Hid Hk Hi) as Hl.
    rewrite Hw in Hl. destruct Hl as (L1 & L2 & L3). cbn [fst snd Nat.add] in *.
    split; [done|]. split; [done|]. split; [done|].
    intros env' s Hctx Hs. apply (GetCodeByShortCode_byCode _ _ _ (code_ID c)); congruence.
  - intros id Hn. pose proof (write_rows_codes env cs 0 m id Hn) as Hl. by rewrite Hw in Hl.
Qed.

(** [UpdateDestination] is a compare-and-increment.  It succeeds exactly
    for the owner of a live code presenting its current version, changes
    that row only (destination, version, update time), and a second update
    presenting the same version is then refused as a conflict. *)
Theorem UpdateDestination_cas (env : Env) (id u dest : string) (v : Z) (m : memStore) :
  ctx_Err env = None ->
  match codes m !! id with
  | None => exists e, UpdateDestination env id u dest v m = (Err e, m) /\ errors_Is e ErrNotFound = true
  | Some c =>
      if negb (String.eqb (code_UserID c) u) then
        exists e, UpdateDestination env id u dest v m = (Err e, m) /\ errors_Is e ErrNotFound = true
      else if is_deleted c || negb (Version c =? v) then
        exists e, UpdateDestination env id u dest v m = (Err e, m) /\ errors_Is e ErrConflict = true
      else
        let c' := set_code dest (State c) (incr64 v) (time_Now env) (DeletedAt c) c in
        UpdateDestination env id u dest v m = (Ok tt, set_codes <[id := c']> m)
        /\ (int64_ok v -> forall env2 dest2, ctx_Err env2 = None ->
             exists e, UpdateDestination env2 id u dest2 v (set_codes <[id := c']> m)
                       = (Err e, set_codes <[id := c']> m) /\ errors_Is e ErrConflict = true)
  end.
Proof.
  intros Hctx. unfold UpdateDestination, with_ctx, owned. rewrite Hctx.
  destruct (codes m !! id) as [c|] eqn:Hc; [|by eexists].
  destruct (String.eqb (code_UserID c) u) eqn:Hu; simpl; [|by eexists].
  unfold is_deleted. destruct (String.eqb (State c) CodeDeleted) eqn:Hd; simpl; [by eexists|].
  destruct (Z.eqb_spec (Version c) v) as [<-|Hv]; simpl; [|by eexists].
  split; [done|]. intros Hok env2 dest2 Hctx2. rewrite Hctx2, lookup_insert_eq. simpl.
  rewrite Hu. simpl. rewrite Hd.
  destruct (Z.eqb_spec (incr64 (Version c)) (Version c)) as [E|_]; [|by eexists].
  by apply incr64_neq in E.
Qed.

(** The short-code namespace.  A short code is unavailable exactly while
    a reservation of it is unreleased; releasing one is refused for an
    unreserved short code and for a live code, and otherwise frees the
    short code, which then no longer resolves. *)
Theorem alias_namespace (env : Env) (sc : string) (m : memStore) :
  wf_store m -> ctx_Err env = None ->
  let key := ToLower sc in
  let reserved := from_option taken false (reservations m !! key) in
  IsAliasAvailable env sc m = Ok (negb reserved)
  /\ (reserved = false -> exists e, ReleaseAlias env sc m = (Err e, m) /\ errors_Is e ErrNotFound = true)
  /\ (reserved = true -> exists id c, byCode m !! key = Some id /\ codes m !! id = Some c /\
       if is_deleted c then
         (ReleaseAlias env sc m).1 = Ok tt
         /\ let m' := (ReleaseAlias env sc m).2 in
           codes m' = codes m /\ IsAliasAvailable env sc m' = Ok true
           /\ exists e, GetCodeByShortCode env sc m' = Err e /\ errors_Is e ErrNotFound = true
       else exists e, ReleaseAlias env sc m = (Err e, m) /\ errors_Is e ErrConflict = true).
Proof.
  intros Hwf Hctx key reserved.
  pose proof (wf_index _ Hwf key) as Hidx.
  unfold IsAliasAvailable, ReleaseAlias, GetCodeByShortCode, read_ctx, with_ctx. rewrite Hctx.
  fold key. unfold reserved. destruct (reservations m !! key) as [r|] eqn:Hr; simpl in *;
    [destruct (taken r) eqn:Ht; simpl in *|].
  - rewrite Hidx. destruct (wf_byCode _ Hwf _ _ Hidx) as (c & Hc & _). rewrite Hc. simpl.
    split; [done|]. split; [done|]. intros _.
    exists (res_codeID r), c. split; [done|]. split; [done|].
    destruct (is_deleted c) eqn:Hd; simpl; [|by eexists].
    rewrite lookup_delete_eq, lookup_insert_eq. simpl.
    split; [done|]. split; [done|]. split; [done|]. by eexists.
  - rewrite Hidx. simpl. split; [done|]. split; [|done].
    intros _. by eexists.
  - rewrite Hidx. simpl. split; [done|]. split; [|done].
    intros _. by eexists.
Qed.

(** [CreateCode] accepts a row exactly when its required fields are set
    and its id, its short code and its reference are free; the failure says
    which was taken. *)
Theorem CreateCode_branches (env : Env) (c : Code) (m : memStore) :
  wf_store m -> ctx_Err env = None -> code_ID c <> "" -> ShortCode c <> "" -> code_UserID c <> "" ->
  match CreateCode env c m with
  | (Ok c', m') =>
      codes m !! code_ID c = None /\ IsAliasAvailable env (ShortCode c) m = Ok true
      /\ (ClientRef c <> "" -> byRef m !! (code_UserID c, ClientRef c) = None)
      /\ c' = reflect_row c (stored_row env 0 c) /\ codes m' !! code_ID c = Some (stored_row env 0 c)
      /\ IsAliasAvailable env (ShortCode c) m' = Ok false
  | (Err e, m') =>
      m' = m /\
      ((is_Some (codes m !! code_ID c) /\ errors_Is e ErrConflict = true)
       \/ (IsAliasAvailable env (ShortCode c) m = Ok false /\ errors_Is e ErrAliasTaken = true)
       \/ (ClientRef c <> "" /\ is_Some (byRef m !! (code_UserID c, ClientRef c))
           /\ errors_Is e ErrClientRefTaken = true))
  end.
Proof.
  intros Hwf Hctx Hid Hsc Hu. unfold CreateCode, CreateCodes, with_ctx, IsAliasAvailable, read_ctx.
  rewrite Hctx. cbn [check_rows].
  rewrite (proj2 (String.eqb_neq _ _) Hid), (proj2 (String.eqb_neq _ _) Hsc),
    (proj2 (String.eqb_neq _ _) Hu). simpl.
  rewrite (bool_decide_eq_false_2 (code_ID c ∈ ∅)) by set_solver.
  rewrite (bool_decide_eq_false_2 (ToLower (ShortCode c) ∈ ∅)) by set_solver.
  rewrite (bool_decide_eq_false_2 ((code_UserID c, ClientRef c) ∈ ∅)) by set_solver.
  rewrite !orb_false_r.
  destruct (codes m !! code_ID c) eqn:Ec; simpl; [split; [done|]; left; split; [by eexists|done]|].
  destruct (bool_decide (is_Some (byCode m !! ToLower (ShortCode c)))) eqn:Eb; simpl; [split; [done|]; right; left; done|].
  destruct (from_option taken false _) eqn:Er; simpl; [split; [done|]; right; left; done|].
  assert (Hnew : bool_decide (is_Some (byCode (insert_row (time_Now env) (stored_row env 0 c) m)
                   !! ToLower (ShortCode c))) = true).
  { apply bool_decide_eq_true_2. rewrite insert_row_byCode. simpl.
    change (ShortCode (stored_row env 0 c)) with (ToLower (ShortCode c)).
    rewrite lookup_insert_eq. eauto. }
  assert (Hcode : codes (insert_row (time_Now env) (stored_row env 0 c) m) !! code_ID c
                  = Some (stored_row env 0 c)).
  { rewrite insert_row_codes. apply lookup_insert_eq. }
  destruct (String.eqb_spec (ClientRef c) "") as [Ef|Ef]; cbn -[bool_decide].
  - rewrite Hnew. split_and!; done.
  - destruct (bool_decide (is_Some (byRef m !! (code_UserID c, ClientRef c)))) eqn:Eq; cbn -[bool_decide].
    + apply bool_decide_eq_true_1 in Eq. split; [done|]. right. right. done.
    + apply bool_decide_eq_false_1 in Eq. rewrite Hnew. split_and!; try done.
      intros _. by apply eq_None_not_Some.
Qed.
End properties.

(** ** Witnesses *)
Definition demo_store : memStore :=
  run [(env0, OpCreateCodes [sample_code "cod_1" "Abc" "usr_1"])] NewMemStore.
Definition demo_row : Code := stored_row env0 0 (sample_code "cod_1" "Abc" "usr_1").

Lemma demo_store_wf : wf_store demo_store.
Proof. apply wf_run, wf_NewMemStore. Qed.

Lemma demo_store_row : codes demo_store !! "cod_1" = Some demo_row.
Proof. vm_compute. reflexivity. Qed.

(** Two changes, a refused update in between, and an update after the deletion. *)
Definition demo_life : list (Env * op) :=
  [(env0, OpSetCodeState "cod_1" "usr_1" CodeDisabled); (env0, OpUpdateDestination "cod_1" "usr_1" "https://example.com/b" 1);
   (env0, OpDeleteCode "cod_1" "usr_1"); (env0, OpUpdateDestination "cod_1" "usr_1" "https://example.com/c" 3)].

Lemma code_lifecycle_witness :
  exists c', codes (run demo_life demo_store) !! "cod_1" = Some c' /\ same_identity demo_row c'
    /\ wrap64 (Version c') = 3 /\ Version demo_row = 1.
Proof.
  destruct (code_lifecycle demo_life demo_store "cod_1" demo_row demo_store_row) as (c' & Hc' & Hi & Hv & _).
  exists c'. split; [exact Hc'|]. split; [exact Hi|]. split; [rewrite Hv; vm_compute; reflexivity|reflexivity].
Defined.

Lemma UpdateDestination_cas_witness :
  fst (UpdateDestination env0 "cod_1" "usr_1" "https://example.com/b" 1 demo_store) = Ok tt
  /\ exists e, UpdateDestination env0 "cod_1" "usr_1" "https://example.com/b" 7 demo_store = (Err e, demo_store)
       /\ errors_Is e ErrConflict = true.
Proof.
  split; [vm_compute; reflexivity|].
  pose proof (UpdateDestination_cas env0 "cod_1" "usr_1" "https://example.com/b" 7 demo_store eq_refl) as H.
  rewrite demo_store_row in H. exact H.
Defined.

Lemma alias_namespace_witness :
  IsAliasAvailable env0 "ABC" demo_store = Ok false
  /\ exists e, ReleaseAlias env0 "ABC" demo_store = (Err e, demo_store) /\ errors_Is e ErrConflict = true.
Proof.
  pose proof (alias_namespace env0 "ABC" demo_store demo_store_wf eq_refl) as (H1 & _ & H3).
  split; [exact H1|]. destruct (H3 eq_refl) as (id & c & Hi & Hc & H).
  assert (Hi' : byCode demo_store !! ToLower "ABC" = Some "cod_1") by (vm_compute; reflexivity).
  assert (id = "cod_1") as -> by congruence. rewrite demo_store_row in Hc. injection Hc as <-. exact H.
Defined.

Lemma CreateCode_branches_witness :
  exists e, CreateCode env0 (sample_code "cod_2" "ABC" "usr_1") demo_store = (Err e, demo_store)
    /\ errors_Is e ErrAliasTaken = true.
Proof.
  pose proof (CreateCode_branches env0 (sample_code "cod_2" "ABC" "usr_1") demo_store demo_store_wf eq_refl
    ltac:(done) ltac:(done) ltac:(done)) as H.
  destruct (CreateCode env0 (sample_code "cod_2" "ABC" "usr_1") demo_store) as [[c|e] m'].
  - destruct H as (_ & H & _). vm_compute in H. discriminate H.
  - exists e. destruct H as [-> H]. split; [reflexivity|].
    destruct H as [[[c Hc] _]|[[_ H]|(H & _)]]; [vm_compute in Hc; discriminate Hc|exact H|].
    vm_compute in H. by destruct H.
Defined.
