(* ===== verification/Store.v ===== *)
(** * The metadata store contract ([internal/store/store.go])

    The part of the [Store] interface the code service uses, as a class of
    operations, and what the contract suite pins about it, as a class of laws
    over an abstract view of the store: its rows by id and the short codes
    currently held.  Services are verified against the laws; the in-memory
    store discharges them. *)
From Stdlib Require Import Ascii String.
From S2P Require Import GoLib Domain Rollup MemStore MemStoreFacts.
Local Open Scope string_scope.
Local Open Scope Z_scope.

(** ** Operations *)

(** [CreateCode] and [CreateCodes] return, on success, what the caller's
    structs read after the call. *)
Class CodeStore (S : Type) := {
  st_CreateCode : Env -> Code -> S -> result Code * S;
  st_CreateCodes : Env -> list Code -> S -> result (list Code) * S;
  st_GetCodeByShortCode : Env -> string -> S -> result Code;
  st_GetCodeByID : Env -> string -> string -> S -> result Code;
  st_GetCodeByClientRef : Env -> string -> string -> S -> result Code;
  st_ListCodes : Env -> CodeFilter -> S -> result (list Code * string);
  st_UpdateDestination : Env -> string -> string -> string -> Z -> S -> result unit * S;
  st_SetCodeState : Env -> string -> string -> CodeState -> S -> result unit * S;
  st_DeleteCode : Env -> string -> string -> S -> result unit * S;
  st_IsAliasAvailable : Env -> string -> S -> result bool;
}.

(** ** Laws *)

(** The row stored for a new code: defaults for an empty mode and state,
    version 1. *)
Definition stored_for `{UnicodeTable} (c r : Code) : Prop :=
  code_ID r = code_ID c /\ ShortCode r = ToLower (ShortCode c) /\ IsAlias r = IsAlias c
  /\ code_UserID r = code_UserID c
  /\ Mode r = (if String.eqb (Mode c) "" then ModeDynamic else Mode c)
  /\ ClientRef r = ClientRef c /\ Destination r = Destination c
  /\ State r = (if String.eqb (State c) "" then CodeActive else State c)
  /\ BlobKey r = BlobKey c /\ BlobETag r = BlobETag c
  /\ LogoBlobKey (code_Styling r) = LogoBlobKey (code_Styling c)
  /\ Version r = 1.

Section laws.
Context `{U : UnicodeTable} {S : Type} `{ST : CodeStore S}.

Class CodeStoreLaws := {
  store_ok : S -> Prop;
  rows : S -> gmap string Code;
  names : S -> gmap string string;

  rows_id s id c : store_ok s -> rows s !! id = Some c -> code_ID c = id;
  names_row s k id :
    store_ok s -> names s !! k = Some id -> exists c, rows s !! id = Some c /\ ShortCode c = k;
  row_named s id c :
    store_ok s -> rows s !! id = Some c -> is_deleted c = false -> names s !! ShortCode c = Some id;

  (** Reads. *)
  GetCodeByID_Ok env id u s c :
    store_ok s -> st_GetCodeByID env id u s = Ok c -> rows s !! id = Some c /\ code_UserID c = u;
  GetCodeByShortCode_Ok env sc s c :
    store_ok s -> st_GetCodeByShortCode env sc s = Ok c ->
    names s !! ToLower sc = Some (code_ID c) /\ rows s !! code_ID c = Some c;
  GetCodeByShortCode_NotFound env sc s e :
    store_ok s -> st_GetCodeByShortCode env sc s = Err e -> errors_Is e ErrNotFound = true ->
    names s !! ToLower sc = None;
  GetCodeByClientRef_Ok env u ref s c :
    store_ok s -> st_GetCodeByClientRef env u ref s = Ok c ->
    rows s !! code_ID c = Some c /\ code_UserID c = u /\ ClientRef c = ref;
  GetCodeByClientRef_NotFound env u ref s e :
    store_ok s -> st_GetCodeByClientRef env u ref s = Err e -> errors_Is e ErrNotFound = true ->
    ref <> "" -> forall id c, rows s !! id = Some c -> code_UserID c = u -> ClientRef c <> ref;
  ListCodes_Ok env f s out next :
    store_ok s -> st_ListCodes env f s = Ok (out, next) ->
    Forall (fun c => rows s !! code_ID c = Some c /\ code_UserID c = f_UserID f) out;
  IsAliasAvailable_Ok env sc s b :
    store_ok s -> st_IsAliasAvailable env sc s = Ok b -> b = bool_decide (names s !! ToLower sc = None);

  (** A failing operation changes nothing. *)
  CreateCodes_Err_same env cs s e s' :
    store_ok s -> st_CreateCodes env cs s = (Err e, s') ->
    store_ok s' /\ rows s' = rows s /\ names s' = names s;
  UpdateDestination_Err_same env id u d v s e s' :
    store_ok s -> st_UpdateDestination env id u d v s = (Err e, s') ->
    store_ok s' /\ rows s' = rows s /\ names s' = names s;
  SetCodeState_Err_same env id u st s e s' :
    store_ok s -> st_SetCodeState env id u st s = (Err e, s') ->
    store_ok s' /\ rows s' = rows s /\ names s' = names s;
  DeleteCode_Err_same env id u s e s' :
    store_ok s -> st_DeleteCode env id u s = (Err e, s') ->
    store_ok s' /\ rows s' = rows s /\ names s' = names s;

  (** Successful writes. *)
  CreateCode_batch env c s :
    st_CreateCode env c s =
      let '(r, s') := st_CreateCodes env [c] s in
      (res_bind r (fun out => Ok (default c (head out))), s');
  CreateCodes_Ok env cs s out s' :
    store_ok s -> st_CreateCodes env cs s = (Ok out, s') ->
    store_ok s' /\ length out = length cs
    /\ (forall i c, cs !! i = Some c -> exists o r,
          out !! i = Some o /\ rows s !! code_ID c = None /\ rows s' !! code_ID c = Some r
          /\ stored_for c r /\ DeletedAt r = None /\ stored_for c o
          /\ names s !! ToLower (ShortCode c) = None
          /\ names s' !! ToLower (ShortCode c) = Some (code_ID c))
    /\ (forall id, id ∉ code_ID <$> cs -> rows s' !! id = rows s !! id)
    /\ (forall k, k ∉ (fun c => ToLower (ShortCode c)) <$> cs -> names s' !! k = names s !! k);
  UpdateDestination_Ok env id u d v s s' :
    store_ok s -> st_UpdateDestination env id u d v s = (Ok tt, s') ->
    exists c t, rows s !! id = Some c /\ code_UserID c = u /\ is_deleted c = false /\ Version c = v
    /\ store_ok s' /\ rows s' = <[id := set_code d (State c) (incr64 v) t (DeletedAt c) c]> (rows s)
    /\ names s' = names s;
  UpdateDestination_Conflict env id u d v s e s' :
    store_ok s -> st_UpdateDestination env id u d v s = (Err e, s') -> errors_Is e ErrConflict = true ->
    exists c, rows s !! id = Some c /\ code_UserID c = u /\ (is_deleted c = true \/ Version c <> v);
  SetCodeState_Ok env id u st s s' :
    store_ok s -> st_SetCodeState env id u st s = (Ok tt, s') ->
    exists c t, rows s !! id = Some c /\ code_UserID c = u /\ is_deleted c = false
    /\ (st = CodeActive \/ st = CodeDisabled)
    /\ store_ok s' /\ rows s' = <[id := set_code (Destination c) st (incr64 (Version c)) t (DeletedAt c) c]> (rows s)
    /\ names s' = names s;
  DeleteCode_Ok env id u s s' :
    store_ok s -> st_DeleteCode env id u s = (Ok tt, s') ->
    exists c, rows s !! id = Some c /\ code_UserID c = u /\ store_ok s' /\ names s' = names s
    /\ (if is_deleted c then rows s' = rows s
        else exists t, rows s' = <[id := set_code (Destination c) CodeDeleted (incr64 (Version c)) t
                                            (Some t) c]> (rows s));
}.
End laws.
Arguments CodeStoreLaws {U} S {ST}.

(** ** The in-memory store is a store *)
Section memstore.
Context `{U : UnicodeTable} `{TF : TimeFormat}.

#[export] Instance memStore_codes : CodeStore memStore := {|
  st_CreateCode := CreateCode; st_CreateCodes := CreateCodes;
  st_GetCodeByShortCode := GetCodeByShortCode; st_GetCodeByID := GetCodeByID;
  st_GetCodeByClientRef := GetCodeByClientRef; st_ListCodes := ListCodes;
  st_UpdateDestination := UpdateDestination; st_SetCodeState := SetCodeState;
  st_DeleteCode := DeleteCode; st_IsAliasAvailable := IsAliasAvailable |}.

Lemma stored_row_for env off c : stored_for c (stored_row env off c).
Proof.
  unfold stored_for. split_and!; try done. unfold stored_row. simpl.
  by destruct (String.eqb (styling_ID (code_Styling c)) "").
Qed.

Lemma reflect_row_for env off c : stored_for c (reflect_row c (stored_row env off c)).
Proof. destruct (stored_row_for env off c) as (_ & E & _ & _ & F & _ & _ & G & _ & _ & H & I). by split_and!. Qed.

Lemma check_rows_free m cs sID sCode sRef k :
  check_rows m cs sID sCode sRef = None -> k ∈ (fun c => ToLower (ShortCode c)) <$> cs -> byCode m !! k = None.
Proof.
  revert sID sCode sRef. induction cs as [|c cs IH]; intros sID sCode sRef Hc; [by intros ?%elem_of_nil|].
  apply check_rows_cons in Hc as (_ & _ & N & _ & _ & Hc). rewrite fmap_cons.
  intros [->|Hk]%elem_of_cons; [by apply eq_None_not_Some|]. by eapply IH.
Qed.

Lemma with_ctx_Ok {A} env m (k : result A * memStore) a m' :
  with_ctx env m k = (Ok a, m') -> ctx_Err env = None /\ k = (Ok a, m').
Proof. unfold with_ctx. by destruct (ctx_Err env). Qed.

Lemma read_ctx_Ok {A} env (k : result A) a : read_ctx env k = Ok a -> ctx_Err env = None /\ k = Ok a.
Proof. unfold read_ctx. by destruct (ctx_Err env). Qed.


Ltac open_op := unfold GetCodeByID, GetCodeByShortCode, GetCodeByClientRef, IsAliasAvailable,
  UpdateDestination, SetCodeState, DeleteCode, read_ctx, with_ctx, code_at.

Lemma mem_CreateCodes_Ok env cs m out m' :
  wf_store m -> CreateCodes env cs m = (Ok out, m') ->
  wf_store m' /\ length out = length cs
  /\ (forall i c, cs !! i = Some c -> exists o r,
        out !! i = Some o /\ codes m !! code_ID c = None /\ codes m' !! code_ID c = Some r
        /\ stored_for c r /\ DeletedAt r = None /\ stored_for c o
        /\ byCode m !! ToLower (ShortCode c) = None
        /\ byCode m' !! ToLower (ShortCode c) = Some (code_ID c))
  /\ (forall id, id ∉ code_ID <$> cs -> codes m' !! id = codes m !! id)
  /\ (forall k, k ∉ (fun c => ToLower (ShortCode c)) <$> cs -> byCode m' !! k = byCode m !! k).
Proof.
  intros Hwf E. pose proof (wf_CreateCodes env cs m Hwf) as Hwf'. rewrite E in Hwf'. split; [done|].
  apply CreateCodes_inv in E as (_ & Hc & Hw).
  destruct (check_rows_ids _ _ _ _ _ Hc) as [Hid _]. destruct (check_rows_keys _ _ _ _ _ Hc) as [Hk _].
  split_and!.
  - pose proof (write_rows_length env cs 0 m) as Hl. by rewrite Hw in Hl.
  - intros i c Hi. pose proof (write_rows_lookup env cs 0 m i c Hid Hk Hi) as Hl.
    rewrite Hw in Hl. destruct Hl as (L1 & L2 & L3). cbn [fst snd Nat.add] in *.
    eexists _, _. split; [done|]. split_and!; [|done| | | | |done].
    + destruct (codes m !! code_ID c) eqn:Ec; [|done]. exfalso.
      refine (check_rows_absent _ _ _ _ _ (code_ID c) Hc _ _); [by eexists|].
      apply list_elem_of_fmap. exists c. split; [done|]. by eapply list_elem_of_lookup_2.
    + apply stored_row_for.
    + done.
    + apply reflect_row_for.
    + eapply check_rows_free; [done|]. apply list_elem_of_fmap. exists c. split; [done|].
      by eapply list_elem_of_lookup_2.
  - intros id Hn. pose proof (write_rows_codes env cs 0 m id Hn) as Hl. by rewrite Hw in Hl.
  - intros k Hn. pose proof (write_rows_byCode env cs 0 m k Hn) as Hl. by rewrite Hw in Hl.
Qed.

Lemma list_rows_owned f after m :
  wf_store m -> Forall (fun c => codes m !! code_ID c = Some c /\ code_UserID c = f_UserID f) (list_rows f after m).
Proof.
  intros Hwf. unfold list_rows, sort_Slice. rewrite merge_sort_Permutation.
  apply Forall_forall. intros c [Hm Hc]%list_elem_of_filter. apply list_elem_of_fmap in Hc as ([id d] & -> & Hd).
  apply elem_of_map_to_list in Hd. simpl in *. split; [by rewrite (wf_codes _ Hwf _ _ Hd)|].
  unfold list_match in Hm. destruct (String.eqb_spec (code_UserID d) (f_UserID f)); [done|]. by rewrite orb_true_l in Hm.
Qed.

#[export] Program Instance memStore_laws : CodeStoreLaws memStore := {|
  store_ok := wf_store; rows := codes; names := byCode;
  rows_id := fun s id c Hok => wf_codes s Hok id c;
  names_row := fun s k id Hok => wf_byCode s Hok k id;
  row_named := fun s id c Hok => wf_live s Hok id c;
  CreateCodes_Ok := mem_CreateCodes_Ok |}.
Next Obligation.
  intros env id u s c _. simpl. open_op. destruct (ctx_Err env); [done|]. by intros ?%owned_Ok.
Qed.
Next Obligation.
  intros env sc s c Hok. simpl. open_op. destruct (ctx_Err env); [done|].
  destruct (byCode s !! ToLower sc) as [id|] eqn:E; [|done].
  destruct (codes s !! id) as [d|] eqn:Ed; [|done]. intros [= ->].
  by rewrite (wf_codes _ Hok _ _ Ed).
Qed.
Next Obligation.
  intros env sc s e Hok. simpl. open_op. destruct (ctx_Err env) as [[]|]; [by intros [= <-]..|].
  destruct (byCode s !! ToLower sc) as [id|] eqn:E; [|done].
  destruct (wf_byCode _ Hok _ _ E) as (c & -> & _). done.
Qed.
Next Obligation.
  intros env u ref s c Hok. simpl. open_op. destruct (ctx_Err env); [done|].
  destruct (byRef s !! (u, ref)) as [id|] eqn:E; [|done].
  destruct (String.eqb ref ""); [done|].
  apply (wf_byRef _ Hok) in E as (_ & d & Hd & Hu & Hr). rewrite Hd. intros [= ->].
  by rewrite (wf_codes _ Hok _ _ Hd).
Qed.
Next Obligation.
  intros env u ref s e Hok. simpl. open_op. destruct (ctx_Err env) as [[]|]; [by intros [= <-]..|].
  destruct (byRef s !! (u, ref)) as [id|] eqn:E.
  - destruct (String.eqb_spec ref ""); [done|].
    apply (wf_byRef _ Hok) in E as (_ & d & Hd & Hu & Hr). by rewrite Hd.
  - intros _ _ Hr id c Hc Hu Hr'.
    assert (byRef s !! (u, ref) = Some id) by (apply (wf_byRef _ Hok); eauto). congruence.
Qed.
Next Obligation.
  intros env f s out next Hok. simpl. unfold ListCodes, read_ctx. destruct (ctx_Err env); [done|].
  destruct (if String.eqb (Cursor f) "" then _ else _) as [after|]; [|done]. cbn [res_bind].
  pose proof (list_rows_owned f after s Hok) as H.
  destruct (bool_decide _); intros [= <- _]; [by apply Forall_take|done].
Qed.
Next Obligation.
  intros env sc s b Hok. simpl. open_op. destruct (ctx_Err env); [done|].
  pose proof (wf_index _ Hok (ToLower sc)) as E. rewrite E.
  destruct (reservations s !! ToLower sc) as [r|]; simpl; [|by intros [= <-]].
  destruct (taken r); simpl; by intros [= <-].
Qed.
Next Obligation.
  intros env cs s e s' Hok E. simpl in E. pose proof (wf_CreateCodes env cs s Hok) as H.
  rewrite E in H. by rewrite (CreateCodes_Err _ _ _ _ _ E).
Qed.
Next Obligation.
  intros env id u d v s e s' Hok. simpl. open_op. destruct (ctx_Err env); [by intros [= _ <-]|].
  destruct (owned id u s); [|by intros [= _ <-]]. by repeat case_match; intros; simplify_eq.
Qed.
Next Obligation.
  intros env id u st s e s' Hok. simpl. open_op. destruct (ctx_Err env); [by intros [= _ <-]|].
  by repeat case_match; intros; simplify_eq.
Qed.
Next Obligation.
  intros env id u s e s' Hok. simpl. open_op. destruct (ctx_Err env); [by intros [= _ <-]|].
  by repeat case_match; intros; simplify_eq.
Qed.
Next Obligation. done. Qed.
Next Obligation.
  intros env id u d v s s' Hok E. simpl in *. pose proof (wf_UpdateDestination env id u d v s Hok) as Hok'.
  rewrite E in Hok'. revert E. open_op. destruct (ctx_Err env); [done|].
  destruct (owned id u s) as [c|] eqn:Ho; [|done]. apply owned_Ok in Ho as [Hc Hu].
  destruct (String.eqb (State c) CodeDeleted) eqn:Hd; [done|].
  destruct (Z.eqb_spec (Version c) v) as [Hv|]; [|done]. intros [= <-].
  exists c, (time_Now env). subst v. by split_and!.
Qed.
Next Obligation.
  intros env id u d v s e s' Hok. simpl. open_op. destruct (ctx_Err env) as [[]|]; [by intros [= <- _]..|].
  destruct (owned id u s) as [c|] eqn:Ho.
  - apply owned_Ok in Ho as [Hc Hu]. destruct (String.eqb (State c) CodeDeleted) eqn:Hd.
    + intros _ _. exists c. auto.
    + destruct (Z.eqb_spec (Version c) v) as [Hv|]; [done|]. intros _ _. exists c. auto.
  - intros [= <- _]. revert Ho. unfold owned. repeat case_match; by intros [= <-].
Qed.
Next Obligation.
  intros env id u st s s' Hok E. simpl in *. pose proof (wf_SetCodeState env id u st s Hok) as Hok'.
  rewrite E in Hok'. revert E. open_op. destruct (ctx_Err env); [done|].
  destruct (String.eqb st CodeDeleted); [done|].
  destruct (negb _) eqn:Hst; [done|]. apply negb_false_iff, orb_prop in Hst.
  destruct (owned id u s) as [c|] eqn:Ho; [|done]. apply owned_Ok in Ho as [Hc Hu].
  destruct (String.eqb (State c) CodeDeleted) eqn:Hd; [done|]. intros [= <-].
  exists c, (time_Now env). split_and!; try done. by destruct Hst as [?%String.eqb_eq|?%String.eqb_eq]; auto.
Qed.
Next Obligation.
  intros env id u s s' Hok E. simpl in *. pose proof (wf_DeleteCode env id u s Hok) as Hok'.
  rewrite E in Hok'. revert E. open_op. destruct (ctx_Err env); [done|].
  destruct (owned id u s) as [c|] eqn:Ho; [|done]. apply owned_Ok in Ho as [Hc Hu].
  unfold is_deleted. destruct (String.eqb (State c) CodeDeleted) eqn:Hd; intros [= <-];
    exists c; rewrite Hd; split_and!; eauto.
Qed.
End memstore.

(** ** The scan side of the contract *)
Class ScanStore (S : Type) := {
  st_InsertScanBatch : Env -> ScanBatch -> S -> result unit * S;
  st_PruneScanEvents : Env -> Z -> Z -> S -> result Z * S;
}.

Definition is_old (before : Z) (ev : ScanEvent) : bool := Before (OccurredAt ev) before.

(** A batch is stored whole or not at all; pruning removes old events, as many
    as the limit allows, and reports how many. *)
Class ScanStoreLaws (S : Type) `{ScanStore S} := {
  scans : S -> list ScanEvent;
  InsertScanBatch_Ok env b s s' :
    st_InsertScanBatch env b s = (Ok tt, s') -> scans s' = (scans s ++ Events b)%list;
  InsertScanBatch_Err env b s e s' :
    st_InsertScanBatch env b s = (Err e, s') -> scans s' = scans s;
  PruneScanEvents_Ok env before limit s n s' :
    st_PruneScanEvents env before limit s = (Ok n, s') ->
    0 < limit ->
    exists gone, n = Z.of_nat (length gone) /\ scans s ≡ₚ gone ++ scans s'
      /\ Forall (fun ev => is_old before ev = true) gone
      /\ length gone = Nat.min (Z.to_nat limit) (length (filter (fun ev => is_old before ev = true) (scans s)));
  PruneScanEvents_Err env before limit s e s' :
    st_PruneScanEvents env before limit s = (Err e, s') -> scans s' = scans s;
}.
