(* ===== verification/Cache.v ===== *)
(** * The resolver cache ([internal/codes/cache.go])

    The cache itself is a third-party library (otter), a parameter here: the
    operations the package calls, and the documented behaviour it relies on
    (entries expire a fixed time after their creation; the policy may evict
    any entry at any time, and never invents one). *)
From Stdlib Require Import Ascii String.
From S2P Require Import GoLib Domain.
Local Open Scope string_scope.
Local Open Scope Z_scope.

Definition CacheEntries : Z := 50000.
Definition CacheTTL : Z := 30 * Second.

Record Resolution := {
  r_CodeID : string;
  r_Destination : string;
  r_State : CodeState;
  r_Found : bool;
}.
#[export] Instance Resolution_eq_dec : EqDecision Resolution. Proof. solve_decision. Defined.

(** [otter.Cache] built with the given capacity and time to live. *)
Class OtterCache (C : Type) := {
  oc_New : Z -> Z -> C;
  oc_GetIfPresent : Env -> string -> C -> option Resolution * C;
  oc_Set : Env -> string -> Resolution -> C -> C;
  oc_Invalidate : Env -> string -> C -> C;
}.

(** The entries a cache may answer from, each with its creation time. *)
Class OtterLaws (C : Type) `{OtterCache C} := {
  entries : C -> gmap string (Resolution * Z);
  entries_New n ttl : entries (oc_New n ttl) = ∅;
  Get_hit env k c r c' :
    oc_GetIfPresent env k c = (Some r, c') ->
    exists t, entries c !! k = Some (r, t) /\ time_Now env < t + CacheTTL;
  Get_keeps env k c : entries (oc_GetIfPresent env k c).2 ⊆ entries c;
  Set_entries env k r c k' e :
    entries (oc_Set env k r c) !! k' = Some e ->
    (k' <> k /\ entries c !! k' = Some e)
    \/ (k' = k /\ e.1 = r /\ (e.2 = time_Now env \/ exists r0, entries c !! k = Some (r0, e.2)));
  Invalidate_entries env k c :
    entries (oc_Invalidate env k c) !! k = None /\ entries (oc_Invalidate env k c) ⊆ entries c;
}.

Section cache.
Context `{U : UnicodeTable} {C : Type} `{OC : OtterCache C}.

Definition NewCache : C := oc_New CacheEntries CacheTTL.

Definition cacheKey (shortCode : string) : string := ToLower (TrimSpace shortCode).

Definition cache_Get (env : Env) (shortCode : string) (c : C) : option Resolution * C :=
  oc_GetIfPresent env (cacheKey shortCode) c.

Definition cache_Set (env : Env) (shortCode : string) (r : Resolution) (c : C) : C :=
  oc_Set env (cacheKey shortCode) r c.

Definition cache_Invalidate (env : Env) (shortCode : string) (c : C) : C :=
  oc_Invalidate env (cacheKey shortCode) c.
End cache.

(** ** A cache that never evicts before expiry, to evaluate the model *)
Notation mapCache := (gmap string (Resolution * Z)).

#[export] Instance mapCache_ops : OtterCache mapCache := {|
  oc_New := fun _ _ => ∅;
  oc_GetIfPresent := fun env k c =>
    match c !! k with
    | Some (r, t) => if time_Now env <? t + CacheTTL then (Some r, c) else (None, delete k c)
    | None => (None, c)
    end;
  oc_Set := fun env k r c => <[k := (r, time_Now env)]> c;
  oc_Invalidate := fun _ k c => delete k c;
|}.

#[export] Program Instance mapCache_laws : OtterLaws mapCache := {| entries := fun c => c |}.
Next Obligation. done. Qed.
Next Obligation.
  intros env k c r c'. simpl. destruct (c !! k) as [[r0 t]|]; [|done].
  destruct (Z.ltb_spec (time_Now env) (t + CacheTTL)); [|done]. intros [= -> <-]. eauto.
Qed.
Next Obligation.
  intros env k c. simpl. destruct (c !! k) as [[r0 t]|]; [|done].
  destruct (time_Now env <? t + CacheTTL); simpl; [done|]. apply delete_subseteq.
Qed.
Next Obligation.
  intros env k r c k' e. simpl. rewrite lookup_insert. case_decide as E; [|auto].
  intros [= <-]. right. auto.
Qed.
Next Obligation. intros env k c. simpl. split; [apply lookup_delete_eq|apply delete_subseteq]. Qed.
