(* ===== verification/Codes.v ===== *)
(** * The code service ([internal/codes/service.go])

    Creation (single and batch), updates, and the resolution of scans, over
    the store and blob contracts, the renderer and the resolver cache.  The
    service runs concurrently with other requests: every call on the store,
    the blob store or the cache is one turn of an [Act] over the shared
    [World]. *)
From Stdlib Require Import Ascii String.
From S2P Require Import GoLib Act GoUrl Domain Shortcode Destination QrPolicy Blob Rollup MemStore Store Cache.
Local Open Scope string_scope.
Local Open Scope Z_scope.

(** [Render(ctx, content, styling, logo, autoRaise)]: the PNG and the level
    actually encoded. *)
Class Renderer := {
  Render : Env -> string -> Styling -> list ascii -> bool -> result (list ascii * ECLevel);
}.

(** [http.DetectContentType]. *)
Class Sniffer := { DetectContentType : list ascii -> string }.

(** ** Configuration *)
Record Config := {
  BaseURL : string;
  cfg_AllowedSchemes : list string;
  cfg_URLMode : string;
  PublicBaseURL : string;
  PresignTTL : Z;
  cfg_BatchMax : Z;
  BatchWorkers : Z;
}.

Definition URLModeInstance : string := "instance".
Definition URLModePublic : string := "public".
Definition URLModePresigned : string := "presigned".

Definition DefaultBatchMax : Z := 500.
Definition DefaultBatchWorkers : Z := 4.
Definition DefaultPresignTTL : Z := Hour.
Definition MaxClientRefLen : Z := 128.
Definition generateAttempts : nat := 5.

(** The fields of [Service] that are not the shared state. *)
Record Service := {
  s_urler : option URLer;
  s_base : option URL;
  s_baseRaw : string;
  s_schemes : gset string;
  s_urlMode : string;
  s_publicBase : string;
  s_presignTTL : Z;
  s_batchMax : Z;
  s_batchWorkers : Z;
}.

Definition default_Z (z d : Z) : Z := if z <=? 0 then d else z.

Definition NewService `{UnicodeTable} `{IPParser} (urler : option URLer) (cfg : Config) : Service :=
  let schemes : gset string :=
    list_to_set ((fun s => ToLower (TrimSpace s)) <$> cfg_AllowedSchemes cfg) in
  let base := match ParseScanOrigin (BaseURL cfg) with Ok b => b | Err _ => None end in
  {| s_urler := urler; s_base := base;
     s_baseRaw := from_option URL_String "" base;
     s_schemes := if decide (schemes = ∅) then {["http"; "https"]} else schemes;
     s_urlMode := if String.eqb (cfg_URLMode cfg) "" then URLModeInstance else cfg_URLMode cfg;
     s_publicBase := TrimRightByte (PublicBaseURL cfg) "/";
     s_presignTTL := default_Z (PresignTTL cfg) DefaultPresignTTL;
     s_batchMax := default_Z (cfg_BatchMax cfg) DefaultBatchMax;
     s_batchWorkers := default_Z (BatchWorkers cfg) DefaultBatchWorkers |}.

(** ** Addresses *)
Definition ScanURL (svc : Service) (shortCode : string) : string :=
  s_baseRaw svc +:+ "/r/" +:+ shortCode.

Definition InstanceImageURL (svc : Service) (id : string) : string :=
  s_baseRaw svc +:+ "/i/" +:+ id +:+ ".png".

Definition publicURL (svc : Service) (c : Code) : option string :=
  match s_urler svc with
  | None => None
  | Some u =>
      if String.eqb (s_publicBase svc) "" || String.eqb (BlobKey c) "" then None
      else match @url_PublicURL u (BlobKey c) (s_publicBase svc) with Ok s => Some s | Err _ => None end
  end.

Definition presignedURL (svc : Service) (env : Env) (c : Code) : option string :=
  match s_urler svc with
  | None => None
  | Some u =>
      if String.eqb (BlobKey c) "" then None
      else match @url_PresignedURL u env (BlobKey c) (s_presignTTL svc) with Ok s => Some s | Err _ => None end
  end.

Definition ImageURL (svc : Service) (env : Env) (c : Code) : string :=
  let u := if String.eqb (s_urlMode svc) URLModePublic then publicURL svc c
           else if String.eqb (s_urlMode svc) URLModePresigned then presignedURL svc env c
           else None in
  default (InstanceImageURL svc (code_ID c)) u.

Definition StorageURL (svc : Service) (env : Env) (c : Code) : option string :=
  match s_urler svc with
  | None => None
  | Some _ =>
      if String.eqb (BlobKey c) "" then None
      else if negb (String.eqb (s_publicBase svc) "") then publicURL svc c
      else presignedURL svc env c
  end.

(** The random part of an id, padded to four characters. *)
Definition id_random (id : string) : string :=
  let rnd := match IndexByte id "_" with Some i => drop_bytes (S i) id | None => id end in
  rnd +:+ take_bytes (4 - String.length rnd) "0000".

Definition BlobKeyFor (id : string) : string :=
  let rnd := id_random id in
  "codes/" +:+ take_bytes 2 rnd +:+ "/" +:+ take_bytes 2 (drop_bytes 2 rnd) +:+ "/" +:+ id +:+ ".png".

Definition LogoBlobKeyFor (id : string) : string :=
  let rnd := id_random id in
  "logos/" +:+ take_bytes 2 rnd +:+ "/" +:+ take_bytes 2 (drop_bytes 2 rnd) +:+ "/" +:+ id.

(** ** Styling defaults *)
Definition DefaultStyling : Styling :=
  {| styling_ID := ""; FgColor := "#000000"; BgColor := "#FFFFFF"; styling_ModuleShape := ShapeSquare;
     MarginModules := 4; SizePx := 512; styling_ECLevel := ECMedium; ECLevelEffective := "";
     LogoBlobKey := ""; LogoScale := f64_zero |}.

Definition DefaultLogoScale : float64 := f64_lit 15 100.

Definition or_default (s d : string) : string := if String.eqb s "" then d else s.

Definition fillStyling (i : Styling) : Styling :=
  let d := DefaultStyling in
  let level := or_default (styling_ECLevel i) (styling_ECLevel d) in
  {| styling_ID := styling_ID i;
     FgColor := or_default (FgColor i) (FgColor d);
     BgColor := or_default (BgColor i) (BgColor d);
     styling_ModuleShape := or_default (styling_ModuleShape i) (styling_ModuleShape d);
     MarginModules := if MarginModules i =? 0 then MarginModules d else MarginModules i;
     SizePx := if SizePx i =? 0 then SizePx d else SizePx i;
     styling_ECLevel := level;
     ECLevelEffective := or_default (ECLevelEffective i) level;
     LogoBlobKey := LogoBlobKey i; LogoScale := LogoScale i |}.

(** Updates of a styling's logo fields. *)
Definition set_logo (key : string) (scale : float64) (s : Styling) : Styling :=
  {| styling_ID := styling_ID s; FgColor := FgColor s; BgColor := BgColor s;
     styling_ModuleShape := styling_ModuleShape s; MarginModules := MarginModules s;
     SizePx := SizePx s; styling_ECLevel := styling_ECLevel s; ECLevelEffective := ECLevelEffective s;
     LogoBlobKey := key; LogoScale := scale |}.
Definition set_effective (level : ECLevel) (s : Styling) : Styling :=
  {| styling_ID := styling_ID s; FgColor := FgColor s; BgColor := BgColor s;
     styling_ModuleShape := styling_ModuleShape s; MarginModules := MarginModules s;
     SizePx := SizePx s; styling_ECLevel := styling_ECLevel s; ECLevelEffective := level;
     LogoBlobKey := LogoBlobKey s; LogoScale := LogoScale s |}.

(** ** Preparation *)
Record CreateInput := {
  in_UserID : string;
  in_Mode : CodeMode;
  in_Destination : string;
  in_Alias : string;
  in_Styling : Styling;
  in_Logo : list ascii;
  in_LogoAutoRaise : bool;
  in_ClientRef : string;
}.

Record prepared := {
  p_mode : CodeMode;
  p_destination : string;
  p_styling : Styling;
  p_isAlias : bool;
  p_shortCode : string;
  p_logo : list ascii;
  p_autoRaise : bool;
  p_clientRef : string;
}.

Definition reason (e : error) : string :=
  if errors_Is e ErrAliasTooShort then "too_short"
  else if errors_Is e ErrAliasTooLong then "too_long"
  else if errors_Is e ErrAliasBadChar then "bad_character"
  else if errors_Is e ErrAliasBadEdge then "bad_edge"
  else if errors_Is e ErrAliasDoubleHyphen then "double_hyphen"
  else if errors_Is e ErrAliasLooksGenerated then "looks_generated"
  else "invalid".

(** [modeOf]: the pre-002 default applied. *)
Definition modeOf (m : CodeMode) : CodeMode := if String.eqb m "" then ModeDynamic else m.

(** The conditions of [prepare] in order, then its value. *)
Definition prepare `{UnicodeTable} `{IPParser} (svc : Service) (i : CreateInput) : result prepared :=
  let mode := modeOf (in_Mode i) in
  if String.eqb (in_UserID i) "" then Err (NewErr "codes: user id is required")
  else if negb (String.eqb mode ModeDynamic) && negb (String.eqb mode ModeDirect)
  then Err (vErr ErrInvalidMode [("field", DStr "mode")])
  else if String.eqb mode ModeDynamic && bool_decide (s_base svc = None)
  then Err (vErr ErrScanURLNotConfigured [])
  else if MaxClientRefLen <? len (in_ClientRef i)
  then Err (vErr ErrClientRefInvalid [("field", DStr "client_ref"); ("reason", DStr "too_long");
                                      ("max_length", DInt MaxClientRefLen)])
  else match ValidateDestination (s_base svc) (s_schemes svc) (in_Destination i) with
  | Some e => Err e
  | None =>
      let destination := TrimSpace (in_Destination i) in
      let filled := fillStyling (in_Styling i) in
      let scale := match in_Logo i with
                   | [] => f64_zero
                   | _ => if f64_eqb (LogoScale filled) f64_zero then DefaultLogoScale else LogoScale filled
                   end in
      let styling := set_logo "" scale filled in
      let limit := Capacity (styling_ECLevel styling) in
      if String.eqb mode ModeDirect && (limit <? len destination)
      then Err (ContentTooLargeError limit (len destination) (styling_ECLevel styling))
      else
        let p isAlias shortCode :=
          {| p_mode := mode; p_destination := destination; p_styling := styling; p_isAlias := isAlias;
             p_shortCode := shortCode; p_logo := in_Logo i; p_autoRaise := in_LogoAutoRaise i;
             p_clientRef := in_ClientRef i |} in
        if String.eqb (in_Alias i) "" then Ok (p false "")
        else
          let a := NormalizeAlias (in_Alias i) in
          match ValidateAlias a with
          | Some e =>
              if errors_Is e ErrAliasReserved
              then Err (vErr codes_ErrAliasReserved [("alias", DStr a)])
              else Err (vErr codes_ErrAliasInvalid [("alias", DStr a); ("reason", DStr (reason e))])
          | None => Ok (p true a)
          end
  end.

(** ** The shared state *)
Record World (S B C : Type) := { w_store : S; w_blob : B; w_cache : C }.
Global Arguments w_store {S B C}.
Global Arguments w_blob {S B C}.
Global Arguments w_cache {S B C}.
Global Arguments Build_World {S B C}.

(** [BatchResult]. *)
Inductive BatchStatus := BatchCreated | BatchExisting | BatchError.
Record BatchResult := {
  b_Index : nat;
  b_Status : BatchStatus;
  b_Code : option Code;
  b_Err : option error;
}.

Definition lastWriteWinsAttempts : nat := 3.

Section service.
Context `{U : UnicodeTable} `{IP : IPParser} `{RD : Renderer} `{SN : Sniffer}.
Context {DB BL CA : Type} `{ST : CodeStore DB} `{BS : BlobStore BL} `{OC : OtterCache CA}.
Notation W := (World DB BL CA).
Context (sc : Sched W) (svc : Service).
Local Open Scope go_scope.

(** Calls on each component, one turn each. *)
Definition on_store {A} (f : Env -> DB -> A * DB) : Act W A :=
  call sc (fun env w => let '(a, s) := f env (w_store w) in (a, Build_World s (w_blob w) (w_cache w))).
Definition ask_store {A} (f : Env -> DB -> A) : Act W A := look sc (fun env w => f env (w_store w)).
Definition on_blob {A} (f : Env -> BL -> A * BL) : Act W A :=
  call sc (fun env w => let '(a, b) := f env (w_blob w) in (a, Build_World (w_store w) b (w_cache w))).
Definition on_cache {A} (f : Env -> CA -> A * CA) : Act W A :=
  call sc (fun env w => let '(a, c) := f env (w_cache w) in (a, Build_World (w_store w) (w_blob w) c)).
Definition ask_env {A} (f : Env -> A) : Act W A := look sc (fun env _ => f env).

Definition Invalidate (shortCode : string) : Act W unit :=
  on_cache (fun env c => (tt, cache_Invalidate env shortCode c)).

(** [removeBlobs]: failures are only logged. *)
Fixpoint removeBlobs (keys : list string) : Act W unit :=
  match keys with
  | [] => mret tt
  | k :: ks =>
      if String.eqb k "" then removeBlobs ks
      else _ ← on_blob (fun env b => blob_Delete env k b); removeBlobs ks
  end.

Definition blobKeysOf (c : Code) : list string := [BlobKey c; LogoBlobKey (code_Styling c)].

(** [materialise]: render, then store the logo and the image; [written] are
    the blobs to take back on a failure. *)
Definition store_image (userID id shortCode : string) (p : prepared) (styling : Styling)
    (png : list ascii) (written : list string) : Act W (result Code) :=
  r ← on_blob (fun env b =>
        blob_Put env (BlobKeyFor id) png (Z.of_nat (length png)) "image/png" b);
  match r with
  | Err e => _ ← removeBlobs written; mret (Err (Wrap "codes: store image" e))
  | Ok etag =>
      now ← ask_env time_Now;
      mret (Ok {|
        code_ID := id; ShortCode := shortCode; IsAlias := p_isAlias p; code_UserID := userID;
        Mode := p_mode p; ClientRef := p_clientRef p; Destination := p_destination p;
        State := CodeActive; code_Styling := styling; BlobKey := BlobKeyFor id; BlobETag := etag;
        Version := 0; code_CreatedAt := now; UpdatedAt := now; DeletedAt := None |})
  end.

Definition content_of (p : prepared) (shortCode : string) : string :=
  if String.eqb (p_mode p) ModeDirect then p_destination p else ScanURL svc shortCode.

Definition materialise (userID id shortCode : string) (p : prepared) : Act W (result Code) :=
  rendered <-! ask_env (fun env =>
      Render env (content_of p shortCode) (p_styling p) (p_logo p) (p_autoRaise p));
  let '(png, effective) := rendered in
  let styling := if String.eqb effective "" then p_styling p else set_effective effective (p_styling p) in
  match p_logo p with
  | [] => store_image userID id shortCode p styling png []
  | _ =>
      let logoKey := LogoBlobKeyFor id in
      r ← on_blob (fun env b => blob_Put env logoKey (p_logo p) (Z.of_nat (length (p_logo p)))
                                  (DetectContentType (p_logo p)) b);
      match r with
      | Err e => mret (Err (Wrap "codes: store logo" e))
      | Ok _ => store_image userID id shortCode p (set_logo logoKey (LogoScale styling) styling) png [logoKey]
      end
  end.

(** A fresh short code, or the alias. *)
Definition choose_code (p : prepared) : Act W string :=
  if p_isAlias p then mret (p_shortCode p) else ask_env (fun env => Generate (rand_byte env) 0).

(** [Create]: the loop with [attempts] tries left. *)
Fixpoint create_loop (userID : string) (p : prepared) (attempts : nat) (lastErr : error)
    : Act W (result Code) :=
  match attempts with
  | O => mret (Err lastErr)
  | S attempts' =>
      shortCode ← choose_code p;
      id ← ask_env (fun env => NewCodeID (rand_byte env) 0);
      c <-! materialise userID id shortCode p;
      r ← on_store (fun env s => st_CreateCode env c s);
      match r with
      | Ok c' => _ ← Invalidate shortCode; mret (Ok c')
      | Err e =>
          _ ← removeBlobs (blobKeysOf c);
          if negb (errors_Is e ErrAliasTaken) then mret (Err e)
          else if p_isAlias p then mret (Err (vErr ErrAliasTaken [("alias", DStr shortCode)]))
          else create_loop userID p attempts' e
      end
  end.

Definition Create (i : CreateInput) : Act W (result Code) :=
  match prepare svc i with
  | Err e => mret (Err e)
  | Ok p =>
      create_loop (in_UserID i) p (if p_isAlias p then 1%nat else generateAttempts) (NewErr "nil")
  end.

(** ** Batches *)
Definition with_user (userID : string) (i : CreateInput) : CreateInput :=
  {| in_UserID := userID; in_Mode := in_Mode i; in_Destination := in_Destination i;
     in_Alias := in_Alias i; in_Styling := in_Styling i; in_Logo := in_Logo i;
     in_LogoAutoRaise := in_LogoAutoRaise i; in_ClientRef := in_ClientRef i |}.

Definition failed (i : nat) (e : error) : BatchResult :=
  {| b_Index := i; b_Status := BatchError; b_Code := None; b_Err := Some e |}.

(** What phases 1 and 2 decide about an item. *)
Inductive verdict :=
| VDone (r : BatchResult)
| VPending (p : prepared).

Record scan := {
  sn_results : list BatchResult;
  sn_pending : list (nat * prepared);
  sn_seenRef : gset string;
  sn_seenAlias : gset string;
}.

(** The client_ref part; [None] lets the item through. *)
Definition check_ref (userID : string) (n : nat) (i : CreateInput) (seen : gset string)
    : Act W (option BatchResult * gset string) :=
  let ref := in_ClientRef i in
  if negb (String.eqb ref "") && (len ref <=? MaxClientRefLen) then
    if bool_decide (ref ∈ seen)
    then mret (Some (failed n (vErr ErrClientRefInvalid
                 [("field", DStr "client_ref"); ("reason", DStr "duplicate_in_batch");
                  ("client_ref", DStr ref)])), seen)
    else
      r ← ask_store (fun env s => st_GetCodeByClientRef env userID ref s);
      let seen := {[ref]} ∪ seen in
      match r with
      | Ok existing =>
          if String.eqb (Destination existing) (TrimSpace (in_Destination i))
             && String.eqb (modeOf (Mode existing)) (modeOf (in_Mode i))
          then mret (Some {| b_Index := n; b_Status := BatchExisting; b_Code := Some existing; b_Err := None |}, seen)
          else mret (Some (failed n (ClientRefConflictError ref (code_ID existing))), seen)
      | Err e =>
          if errors_Is e ErrNotFound then mret (None, seen) else mret (Some (failed n e), seen)
      end
  else mret (None, seen).

(** Validation and alias availability. *)
Definition check_alias (n : nat) (p : prepared) (seen : gset string) : Act W (verdict * gset string) :=
  let taken := VDone (failed n (vErr ErrAliasTaken [("alias", DStr (p_shortCode p))])) in
  if p_isAlias p then
    if bool_decide (p_shortCode p ∈ seen) then mret (taken, seen)
    else
      r ← ask_store (fun env s => st_IsAliasAvailable env (p_shortCode p) s);
      match r with
      | Err e => mret (VDone (failed n e), seen)
      | Ok false => mret (taken, seen)
      | Ok true => mret (VPending p, {[p_shortCode p]} ∪ seen)
      end
  else mret (VPending p, seen).

Definition scan_item (userID : string) (n : nat) (i : CreateInput) (st : scan) : Act W scan :=
  let i := with_user userID i in
  '(early, seenRef) ← check_ref userID n i (sn_seenRef st);
  let done r seenAlias :=
    {| sn_results := <[n := r]> (sn_results st); sn_pending := sn_pending st;
       sn_seenRef := seenRef; sn_seenAlias := seenAlias |} in
  match early with
  | Some r => mret (done r (sn_seenAlias st))
  | None =>
      match prepare svc i with
      | Err e => mret (done (failed n e) (sn_seenAlias st))
      | Ok p =>
          '(v, seenAlias) ← check_alias n p (sn_seenAlias st);
          match v with
          | VDone r => mret (done r seenAlias)
          | VPending p =>
              mret {| sn_results := sn_results st; sn_pending := sn_pending st ++ [(n, p)];
                      sn_seenRef := seenRef; sn_seenAlias := seenAlias |}
          end
      end
  end.

Fixpoint scan_items (userID : string) (n : nat) (items : list CreateInput) (st : scan) : Act W scan :=
  match items with
  | [] => mret st
  | i :: items' => st' ← scan_item userID n i st; scan_items userID (S n) items' st'
  end.

(** Phase 3.  The workers write disjoint slots, so the order in which they
    finish their renders is all that distinguishes their schedules: [order]
    lists the pending items in that order. *)
Fixpoint render_items (userID : string) (pending : list (nat * prepared)) (order : list nat)
    (results : list BatchResult) (rendered : list (option Code))
    : Act W (list BatchResult * list (option Code)) :=
  match order with
  | [] => mret (results, rendered)
  | j :: order' =>
      match pending !! j with
      | None => render_items userID pending order' results rendered
      | Some (idx, p) =>
          shortCode ← choose_code p;
          id ← ask_env (fun env => NewCodeID (rand_byte env) 0);
          r ← materialise userID id shortCode p;
          match r with
          | Err e => render_items userID pending order' (<[idx := failed idx e]> results) rendered
          | Ok c => render_items userID pending order' results (<[j := Some c]> rendered)
          end
      end
  end.

(** The rendered items with the index of their result. *)
Definition to_insert (pending : list (nat * prepared)) (rendered : list (option Code)) : list (nat * Code) :=
  omap (fun '((idx, _), oc) => (fun c => (idx, c)) <$> oc) (zip pending rendered).

Fixpoint remove_all (cs : list Code) : Act W unit :=
  match cs with
  | [] => mret tt
  | c :: cs' => _ ← removeBlobs (blobKeysOf c); remove_all cs'
  end.

Fixpoint invalidate_all (cs : list Code) : Act W unit :=
  match cs with
  | [] => mret tt
  | c :: cs' => _ ← Invalidate (ShortCode c); invalidate_all cs'
  end.

Definition lost_race (e : error) : error :=
  if errors_Is e ErrAliasTaken || errors_Is e ErrClientRefTaken
  then vErr e [("reason", DStr "lost_race")] else e.

Definition CreateBatch (userID : string) (items : list CreateInput) (order : list nat)
    : Act W (list BatchResult) :=
  if String.eqb userID ""
  then mret (imap (fun i _ => failed i (NewErr "codes: user id is required")) items)
  else
    let blank := imap (fun i _ => {| b_Index := i; b_Status := BatchError; b_Code := None; b_Err := None |}) items in
    st ← scan_items userID 0 items
           {| sn_results := blank; sn_pending := []; sn_seenRef := ∅; sn_seenAlias := ∅ |};
    let pending := sn_pending st in
    '(results, rendered) ← render_items userID pending order (sn_results st)
                             (replicate (length pending) None);
    let ins := to_insert pending rendered in
    match ins with
    | [] => mret results
    | _ =>
        r ← on_store (fun env s => st_CreateCodes env ins.*2 s);
        match r with
        | Err e =>
            _ ← remove_all ins.*2;
            mret (foldl (fun rs p => <[p.1 := failed p.1 (lost_race e)]> rs) results ins)
        | Ok out =>
            _ ← invalidate_all out;
            mret (foldl (fun rs p => <[p.1 := {| b_Index := p.1; b_Status := BatchCreated;
                                                b_Code := Some p.2; b_Err := None |}]> rs)
                    results (zip ins.*1 out))
        end
    end.

(** ** Reads and updates *)
Definition Get (id userID : string) : Act W (result Code) :=
  ask_store (fun env s => st_GetCodeByID env id userID s).

Definition List_ (f : CodeFilter) : Act W (result (list Code * string)) :=
  ask_store (fun env s => st_ListCodes env f s).

Definition immutable (c : Code) : error := vErr ErrDirectImmutable [("mode", DStr (Mode c))].

(** The loop of [UpdateDestination]; [cur] was read before the loop. *)
Fixpoint update_loop (id userID dest : string) (expectedVersion : Z) (first : bool) (attempts : nat)
    (cur : Code) : Act W (result Code) :=
  match attempts with
  | O => mret (Err (Wrap "codes: update kept losing the race" ErrConflict))
  | S attempts' =>
      cur <-! (if first then mret (Ok cur) else Get id userID);
      let v := if expectedVersion <=? 0 then Version cur else expectedVersion in
      r ← on_store (fun env s => st_UpdateDestination env id userID dest v s);
      match r with
      | Ok _ => _ ← Invalidate (ShortCode cur); Get id userID
      | Err e =>
          if negb (errors_Is e ErrConflict) then mret (Err e)
          else if (0 <? expectedVersion) || is_deleted cur then
            latest <-! Get id userID;
            mret (Err (ConflictError v (Version latest)))
          else update_loop id userID dest expectedVersion false attempts' cur
      end
  end.

Definition svc_UpdateDestination (id userID dest : string) (expectedVersion : Z) : Act W (result Code) :=
  cur <-! Get id userID;
  if String.eqb (Mode cur) ModeDirect then mret (Err (immutable cur))
  else match ValidateDestination (s_base svc) (s_schemes svc) dest with
  | Some e => mret (Err e)
  | None =>
      update_loop id userID (TrimSpace dest) expectedVersion true
        (if expectedVersion <=? 0 then lastWriteWinsAttempts else 1%nat) cur
  end.

Definition SetState (id userID : string) (state : CodeState) : Act W (result Code) :=
  cur <-! Get id userID;
  if String.eqb (Mode cur) ModeDirect then mret (Err (immutable cur))
  else
    _ <-! on_store (fun env s => st_SetCodeState env id userID state s);
    c <-! Get id userID;
    _ ← Invalidate (ShortCode c);
    mret (Ok c).

Definition Delete (id userID : string) : Act W (result unit) :=
  c <-! Get id userID;
  _ <-! on_store (fun env s => st_DeleteCode env id userID s);
  _ ← Invalidate (ShortCode c);
  mret (Ok tt).

(** ** The scan path *)
Definition not_found : Resolution :=
  {| r_CodeID := ""; r_Destination := ""; r_State := ""; r_Found := false |}.
Definition resolution_of (c : Code) : Resolution :=
  {| r_CodeID := code_ID c; r_Destination := Destination c; r_State := State c; r_Found := true |}.

Definition Resolve (shortCode : string) : Act W (result Resolution) :=
  hit ← on_cache (fun env c => cache_Get env shortCode c);
  match hit with
  | Some r => mret (Ok r)
  | None =>
      r ← ask_store (fun env s => st_GetCodeByShortCode env shortCode s);
      match r with
      | Err e =>
          if errors_Is e ErrNotFound then
            _ ← on_cache (fun env c => (tt, cache_Set env shortCode not_found c));
            mret (Ok not_found)
          else mret (Err e)
      | Ok c =>
          _ ← on_cache (fun env cc => (tt, cache_Set env (ShortCode c) (resolution_of c) cc));
          mret (Ok (resolution_of c))
      end
  end.
End service.
