(* ===== verification/BlobKeys.v ===== *)
(** * The blob keys of codes

    The keys the service derives from the ids it draws are always accepted by
    [ValidateKey], and different codes have different keys. *)
From Stdlib Require Import Ascii String.
From S2P Require Import GoLib GoUrl Domain Shortcode Blob Codes.
Local Open Scope string_scope.
Local Open Scope Z_scope.

(** ** Paths made of plain segments *)
Definition plain_byte (c : ascii) : bool :=
  is_alnum c || Ascii.eqb c "_" || Ascii.eqb c ".".
Definition plain_segment (s : string) : Prop :=
  string_forall plain_byte s = true /\ s <> "" /\ s <> "." /\ s <> "..".

Lemma plain_byte_ne c d : plain_byte c = true -> plain_byte d = false -> Ascii.eqb c d = false.
Proof. intros H1 H2. destruct (Ascii.eqb_spec c d) as [->|]; congruence. Qed.

Lemma SplitByte_plain s : string_forall plain_byte s = true -> SplitByte s "/" = [s].
Proof.
  induction s as [|c s IH]; [done|]. rewrite string_forall_cons. intros [Hc Hs]%andb_prop.
  simpl. by rewrite (plain_byte_ne c "/" Hc eq_refl), (IH Hs).
Qed.

Lemma SplitByte_slash s t :
  string_forall plain_byte s = true -> SplitByte (s +:+ String "/" t) "/" = s :: SplitByte t "/".
Proof.
  induction s as [|c s IH].
  - intros _. done.
  - rewrite string_forall_cons. intros [Hc Hs]%andb_prop. rewrite append_cons. simpl.
    by rewrite (plain_byte_ne c "/" Hc eq_refl), (IH Hs).
Qed.

Lemma SplitByte_Join parts :
  parts <> [] -> Forall plain_segment parts -> SplitByte (JoinSlash parts) "/" = parts.
Proof.
  intros Hne Hp. induction Hp as [|p parts [Hc _] Hp IH]; [done|].
  destruct parts as [|q parts]; [by apply SplitByte_plain|].
  change (JoinSlash (p :: q :: parts)) with (p +:+ String "/" (JoinSlash (q :: parts))).
  by rewrite SplitByte_slash, IH.
Qed.

Lemma clean_plain parts stack :
  Forall plain_segment parts -> foldl (clean_step false) stack parts = (rev parts ++ stack)%list.
Proof.
  intros Hp. revert stack. induction Hp as [|p parts (_ & H1 & H2 & H3) _ IH]; intros stack; [done|].
  simpl. rewrite IH. unfold clean_step.
  rewrite (proj2 (String.eqb_neq _ _) H1), (proj2 (String.eqb_neq _ _) H2), (proj2 (String.eqb_neq _ _) H3).
  simpl. by rewrite <- app_assoc.
Qed.

Lemma HasPrefix_cons c s t d : HasPrefix (String c s) (String d t) = Ascii.eqb d c && HasPrefix s t.
Proof. done. Qed.

Lemma Join_first p parts : plain_segment p -> exists c s, JoinSlash (p :: parts) = String c s /\ plain_byte c = true.
Proof.
  intros (Hc & Hne & _). destruct p as [|c p]; [done|]. rewrite string_forall_cons in Hc.
  apply andb_prop in Hc as [Hc _]. destruct parts as [|q parts]; [by exists c, p|].
  exists c, (p +:+ "/" +:+ JoinSlash (q :: parts)). split; [reflexivity|exact Hc].
Qed.

(** Clean leaves such a path as it is. *)
Lemma path_Clean_plain parts :
  parts <> [] -> Forall plain_segment parts -> path_Clean (JoinSlash parts) = JoinSlash parts.
Proof.
  intros Hne Hp. unfold path_Clean. destruct parts as [|p parts]; [done|].
  destruct (Join_first p parts (Forall_inv Hp)) as (c & s & E & Hc).
  assert (Hroot : HasPrefix (JoinSlash (p :: parts)) "/" = false).
  { rewrite E, HasPrefix_cons. destruct (Ascii.eqb_spec "/" c) as [<-|]; [discriminate Hc|done]. }
  rewrite Hroot, SplitByte_Join, clean_plain, app_nil_r, rev_involutive by done. done.
Qed.

Lemma Contains_absent s c t : string_forall (fun d => negb (Ascii.eqb c d)) s = true -> Contains s (String c t) = false.
Proof.
  induction s as [|d s IH]; [done|]. rewrite string_forall_cons. intros [Hd Hs]%andb_prop.
  simpl. apply negb_true_iff in Hd. by rewrite Hd, (IH Hs).
Qed.

Lemma Contains_double_plain s rest :
  string_forall plain_byte s = true -> Contains (s +:+ rest) "//" = Contains rest "//".
Proof.
  induction s as [|c s IH]; [done|]. rewrite string_forall_cons. intros [Hc Hs]%andb_prop.
  rewrite append_cons. cbn [Contains]. rewrite HasPrefix_cons, (IH Hs).
  destruct (Ascii.eqb_spec "/" c) as [<-|]; [discriminate Hc|reflexivity].
Qed.

Lemma Contains_slash_plain c s :
  plain_byte c = true -> Contains (String "/" (String c s)) "//" = Contains (String c s) "//".
Proof.
  intros Hc. cbn [Contains]. rewrite !HasPrefix_cons.
  destruct (Ascii.eqb_spec "/" c) as [<-|]; [discriminate Hc|reflexivity].
Qed.

Lemma Contains_double parts : Forall plain_segment parts -> Contains (JoinSlash parts) "//" = false.
Proof.
  intros Hp. induction Hp as [|p parts Hp Hps IH]; [done|].
  destruct parts as [|q parts].
  - simpl. destruct Hp as [Hp _]. pose proof (Contains_double_plain p "" Hp) as E.
    by rewrite append_empty in E.
  - change (JoinSlash (p :: q :: parts)) with (p +:+ String "/" (JoinSlash (q :: parts))).
    rewrite Contains_double_plain by apply Hp.
    destruct (Join_first q parts (Forall_inv Hps)) as (c & s & E & Hc).
    rewrite E in *. by rewrite Contains_slash_plain.
Qed.

Lemma Join_bytes (P : ascii -> bool) parts :
  P "/"%char = true -> (forall c, plain_byte c = true -> P c = true) ->
  Forall plain_segment parts -> string_forall P (JoinSlash parts) = true.
Proof.
  intros Hs Hc Hp. induction Hp as [|p parts Hp Hps IH]; [done|].
  assert (string_forall P p = true) by (apply (string_forall_impl plain_byte P); [done|apply Hp]).
  destruct parts as [|q parts]; [done|].
  change (JoinSlash (p :: q :: parts)) with (p +:+ String "/" (JoinSlash (q :: parts))).
  rewrite string_forall_app, string_forall_cons, IH, Hs. by rewrite andb_true_r.
Qed.

(** Keys made of plain segments are valid. *)
Lemma ValidateKey_plain parts :
  parts <> [] -> Forall plain_segment parts -> len (JoinSlash parts) <= 512 ->
  ValidateKey (JoinSlash parts) = None.
Proof.
  intros Hne Hp Hlen. unfold ValidateKey.
  destruct parts as [|p parts]; [done|].
  destruct (Join_first p parts (Forall_inv Hp)) as (c & s & E & Hc).
  assert (H1 : String.eqb (JoinSlash (p :: parts)) "" = false) by by rewrite E.
  assert (H2 : (512 <? len (JoinSlash (p :: parts))) = false) by (apply Z.ltb_ge; done).
  assert (Hbyte : forall d, plain_byte d = false -> d <> "/"%char ->
    string_forall (fun x => negb (Ascii.eqb d x)) (JoinSlash (p :: parts)) = true).
  { intros d Hd Hds. apply Join_bytes; [by apply negb_true_iff, Ascii.eqb_neq| |done].
    intros x Hx. apply negb_true_iff, Ascii.eqb_neq. intros ->. congruence. }
  assert (H3 : ascii_in "000" (JoinSlash (p :: parts)) = false).
  { apply bool_decide_eq_false_2. intros Hin. specialize (Hbyte "000"%char eq_refl ltac:(done)).
    unfold string_forall in Hbyte. rewrite forallb_forall in Hbyte.
    specialize (Hbyte "000"%char). rewrite <- list_elem_of_In in Hbyte. specialize (Hbyte Hin). done. }
  assert (H4 : HasPrefix (JoinSlash (p :: parts)) "/" = false).
  { rewrite E, HasPrefix_cons. destruct (Ascii.eqb_spec "/" c) as [<-|]; [discriminate Hc|done]. }
  assert (H5 : HasPrefix (JoinSlash (p :: parts)) "\" = false).
  { rewrite E, HasPrefix_cons. destruct (Ascii.eqb_spec "\" c) as [<-|]; [discriminate Hc|done]. }
  rewrite H1, H2, H3, H4, H5, Contains_absent, Contains_double by (done || by apply Hbyte).
  cbn [orb]. rewrite SplitByte_Join, path_Clean_plain by done.
  assert (H6 : existsb (fun seg => String.eqb seg "." || String.eqb seg "..") (p :: parts) = false).
  { apply not_true_is_false. intros (x & Hx & Hd)%existsb_exists. rewrite Forall_forall in Hp.
    apply list_elem_of_In, Hp in Hx as (_ & _ & N1 & N2).
    rewrite (proj2 (String.eqb_neq _ _) N1), (proj2 (String.eqb_neq _ _) N2) in Hd. done. }
  by rewrite H6, String.eqb_refl.
Qed.

(** ** The keys of an id *)

(** What [NewCodeID] draws. *)
Definition code_id (id : string) : Prop :=
  exists rnd, id = "cod_" +:+ rnd /\ String.length rnd = 16%nat /\ string_forall is_crockford rnd = true.

Lemma NewCodeID_id rand off : code_id (NewCodeID rand off).
Proof.
  exists (RandomCrockford rand off idRandomLen).
  split; [done|]. split; [apply RandomCrockford_length|apply RandomCrockford_chars].
Qed.

Lemma crockford_plain c : is_crockford c = true -> plain_byte c = true.
Proof. apply crockford_bytes. vm_compute. reflexivity. Qed.

Lemma crockford_not_dot c : is_crockford c = true -> c <> "."%char.
Proof. intros H ->. done. Qed.

Lemma plain_crockford s : s <> "" -> string_forall is_crockford s = true -> plain_segment s.
Proof.
  intros Hne Hs. split; [apply (string_forall_impl is_crockford plain_byte); [apply crockford_plain|done]|].
  split; [done|]. destruct s as [|c s]; [done|]. rewrite string_forall_cons in Hs.
  apply andb_prop in Hs as [Hc _]. apply crockford_not_dot in Hc. split; congruence.
Qed.

Lemma id_random_code rnd : String.length rnd = 16%nat -> id_random ("cod_" +:+ rnd) = rnd.
Proof.
  intros Hl. change (id_random ("cod_" +:+ rnd)) with (rnd +:+ take_bytes (4 - String.length rnd) "0000").
  rewrite Hl. apply append_empty.
Qed.

(** Both keys, as lists of plain segments. *)
Lemma blob_keys id :
  code_id id -> exists a b,
    BlobKeyFor id = JoinSlash ["codes"; a; b; id +:+ ".png"]
    /\ LogoBlobKeyFor id = JoinSlash ["logos"; a; b; id]
    /\ Forall plain_segment ["codes"; a; b; id +:+ ".png"]
    /\ Forall plain_segment ["logos"; a; b; id]
    /\ String.length a = 2%nat /\ String.length b = 2%nat /\ String.length id = 20%nat.
Proof.
  intros (rnd & -> & Hl & Hc). unfold BlobKeyFor, LogoBlobKeyFor. rewrite id_random_code by done.
  exists (take_bytes 2 rnd), (take_bytes 2 (drop_bytes 2 rnd)).
  assert (La : String.length (take_bytes 2 rnd) = 2%nat) by (apply take_bytes_length; lia).
  assert (Lb : String.length (take_bytes 2 (drop_bytes 2 rnd)) = 2%nat)
    by (apply take_bytes_length; rewrite drop_bytes_length; lia).
  assert (Ha : plain_segment (take_bytes 2 rnd)).
  { apply plain_crockford; [by destruct (take_bytes 2 rnd)|by apply string_forall_take]. }
  assert (Hb : plain_segment (take_bytes 2 (drop_bytes 2 rnd))).
  { apply plain_crockford; [by destruct (take_bytes 2 (drop_bytes 2 rnd))|].
    by apply string_forall_take, string_forall_drop. }
  assert (Hr : string_forall plain_byte rnd = true)
    by (apply (string_forall_impl is_crockford plain_byte); [apply crockford_plain|done]).
  assert (Hid : forall t, string_forall plain_byte t = true -> plain_segment ("cod_" +:+ rnd +:+ t)).
  { intros t Ht. split; [|done]. rewrite !string_forall_app, Hr, Ht. done. }
  split; [reflexivity|]. split; [reflexivity|]. split; [|split; [|split; [done|split; [done|]]]].
  - repeat apply Forall_cons_2; try done. apply (Hid ".png" eq_refl).
  - pose proof (Hid "" eq_refl) as Hid0. rewrite append_empty in Hid0.
    by repeat apply Forall_cons_2.
  - change (String.length ("cod_" +:+ rnd)) with (4 + String.length rnd)%nat. by rewrite Hl.
Qed.

Lemma app_inj_l a b s t : String.length a = String.length b -> a +:+ s = b +:+ t -> a = b /\ s = t.
Proof.
  revert b. induction a as [|c a IH]; intros [|d b]; simpl; try done.
  intros [= Hl] [= -> E]. destruct (IH b Hl E) as [-> ->]. done.
Qed.

Lemma app_inj_r a b s : String.length a = String.length b -> a +:+ s = b +:+ s -> a = b.
Proof. intros Hl E. by apply (app_inj_l a b s s Hl E). Qed.

Lemma code_keys_valid id :
  code_id id -> ValidateKey (BlobKeyFor id) = None /\ ValidateKey (LogoBlobKeyFor id) = None.
Proof.
  intros Hid. destruct (blob_keys id Hid) as (a & b & -> & -> & P1 & P2 & La & Lb & Lid).
  split; (apply ValidateKey_plain; [done|done|]); cbn [JoinSlash]; rewrite !len_app; unfold len; simpl; lia.
Qed.

(** C38: every key the service derives from an id it drew is accepted by the
    blob store, and two codes never share an image or a logo object. *)
Theorem blob_keys_valid (rand rand' : nat -> ascii) (off off' : nat) :
  let id := NewCodeID rand off in let id' := NewCodeID rand' off' in
  ValidateKey (BlobKeyFor id) = None /\ ValidateKey (LogoBlobKeyFor id) = None
  /\ BlobKeyFor id <> LogoBlobKeyFor id'
  /\ (BlobKeyFor id = BlobKeyFor id' -> id = id') /\ (LogoBlobKeyFor id = LogoBlobKeyFor id' -> id = id').
Proof.
  intros id id'.
  destruct (blob_keys id (NewCodeID_id rand off)) as (a & b & E1 & E2 & P1 & P2 & La & Lb & Lid).
  destruct (blob_keys id' (NewCodeID_id rand' off')) as (a' & b' & E1' & E2' & _ & _ & La' & Lb' & Lid').
  split; [by apply code_keys_valid, NewCodeID_id|]. split; [by apply code_keys_valid, NewCodeID_id|].
  rewrite E1, E2, E1', E2'. split_and!.
  - done.
  - cbn [JoinSlash]. intros E. apply app_inj_l in E as [_ E]; [|done]. apply app_inj_l in E as [_ E]; [|done].
    apply app_inj_l in E as [_ E]; [|congruence]. apply app_inj_l in E as [_ E]; [|done].
    apply app_inj_l in E as [_ E]; [|congruence]. apply app_inj_l in E as [_ E]; [|done].
    apply app_inj_r in E; congruence.
  - cbn [JoinSlash]. intros E. apply app_inj_l in E as [_ E]; [|done]. apply app_inj_l in E as [_ E]; [|done].
    apply app_inj_l in E as [_ E]; [|congruence]. apply app_inj_l in E as [_ E]; [|done].
    apply app_inj_l in E as [_ E]; [|congruence]. apply app_inj_l in E as [_ E]; [|done]. done.
Qed.
