(* ===== verification/CodesFacts.v ===== *)
(** * The code service: what every interleaving of requests preserves *)
From Stdlib Require Import Ascii String.
From S2P Require Import GoLib Act GoUrl Domain Shortcode Destination QrPolicy.
From S2P Require Import Blob Rollup MemStore MemStoreFacts Store Cache Codes.
Local Open Scope string_scope.
Local Open Scope Z_scope.

(** ** How a stored code may evolve *)

(** Its identity is fixed; a deleted code is frozen; a direct code keeps its
    destination and can only be deleted. *)
Definition evolves (c c' : Code) : Prop :=
  same_identity c c'
  /\ (is_deleted c = true -> c' = c)
  /\ (Mode c = ModeDirect -> Destination c' = Destination c /\ (State c' = State c \/ State c' = CodeDeleted)).

#[export] Instance same_identity_equiv : Equivalence same_identity.
Proof.
  unfold same_identity. split.
  - intros c. by split_and!.
  - intros c d H. repeat destruct H as [? H]. by split_and!.
  - intros c d e H1 H2. repeat destruct H1 as [? H1]. repeat destruct H2 as [? H2]. split_and!; congruence.
Qed.

#[export] Instance evolves_preorder : PreOrder evolves.
Proof.
  split.
  - intros c. split_and!; auto. reflexivity.
  - intros c d e (I1 & D1 & M1) (I2 & D2 & M2). split_and!.
    + by transitivity d.
    + intros H. rewrite (D2), (D1 H); [done|]. by rewrite (D1 H).
    + intros H. assert (Hm : Mode d = ModeDirect) by (destruct I1 as (_ & _ & _ & _ & E & _); congruence).
      destruct (M1 H) as [E1 S1], (M2 Hm) as [E2 S2]. split; [congruence|].
      destruct S2 as [->|]; auto.
Qed.

(** ** Rely and guarantee *)
Section guarantee.
Context `{U : UnicodeTable} `{IP : IPParser} `{RD : Renderer} `{SN : Sniffer}.
Context {DB BL CA : Type} `{ST : CodeStore DB} `{SL : !CodeStoreLaws DB}
  `{BS : BlobStore BL} `{OC : OtterCache CA}.
Notation W := (World DB BL CA).

Definition ok (w : W) : Prop := store_ok (w_store w).

(** What a request, and every other request, may do to the stored codes. *)
Definition moves (w w' : W) : Prop :=
  ok w -> ok w' /\ forall id c, rows (w_store w) !! id = Some c ->
                   exists c', rows (w_store w') !! id = Some c' /\ evolves c c'.

#[export] Instance moves_refl : Reflexive moves.
Proof. intros w Hw. split; [done|]. intros id c Hc. exists c. split; [done|reflexivity]. Qed.
#[export] Instance moves_trans : Transitive moves.
Proof.
  intros u v w Huv Hvw Hu. destruct (Huv Hu) as [Hv E1]. destruct (Hvw Hv) as [Hw E2].
  split; [done|]. intros id c Hc. destruct (E1 id c Hc) as (c1 & Hc1 & L1).
  destruct (E2 id c1 Hc1) as (c2 & Hc2 & L2). exists c2. split; [done|]. by transitivity c1.
Qed.

Lemma moves_same (w w' : W) : w_store w' = w_store w -> moves w w'.
Proof.
  intros E Hw. unfold ok in *. rewrite E. split; [done|]. intros id c Hc. exists c.
  split; [done|reflexivity].
Qed.

Lemma moves_same_rows (w w' : W) : ok w' -> rows (w_store w') = rows (w_store w) -> moves w w'.
Proof. intros Hok E _. split; [done|]. rewrite E. intros id c Hc. exists c. split; [done|reflexivity]. Qed.

Lemma moves_row (w w' : W) id c c' :
  ok w' -> rows (w_store w) !! id = Some c -> rows (w_store w') = <[id := c']> (rows (w_store w)) ->
  evolves c c' -> moves w w'.
Proof.
  intros Hok Hc E He _. split; [done|]. rewrite E. intros id' d Hd.
  destruct (decide (id = id')) as [<-|Hne].
  - exists c'. rewrite lookup_insert_eq. split; [done|]. congruence.
  - exists d. rewrite lookup_insert_ne by done. split; [done|reflexivity].
Qed.

(** A code read earlier is still there, up to its evolution. *)
Definition knows (id : string) (cur : Code) (w : W) : Prop :=
  ok w /\ exists c, rows (w_store w) !! id = Some c /\ same_identity cur c.

Lemma stable_ok : stable moves ok.
Proof. intros w w' Hm Hw. by apply Hm. Qed.

Lemma stable_knows id cur : stable moves (knows id cur).
Proof.
  intros w w' Hm [Hw (c & Hc & Hi)]. destruct (Hm Hw) as [Hw' He]. split; [done|].
  destruct (He id c Hc) as (c' & Hc' & [Hi' _]). exists c'. split; [done|]. by transitivity c.
Qed.

Section actions.
Context (sc : Sched W) (svc : Service).
Context (rely : forall n w, moves w (sc_others sc n w)).

Definition guards {A} (P : W -> Prop) (a : Act W A) : Prop := triple moves P a (fun _ => P).

Lemma guards_ret {A} P (x : A) : guards P (mret x).
Proof. eapply triple_conseq; [apply _..|apply triple_ret; apply _|done|]. by intros y w [_ ?]. Qed.

Lemma guards_bind {A B} P (a : Act W A) (k : A -> Act W B) :
  guards P a -> (forall x, guards P (k x)) -> guards P (a ≫= k).
Proof. intros Ha Hk. by eapply triple_bind; [apply _..|apply Ha|apply Hk]. Qed.

Lemma guards_try {E A B} P (a : Act W (res E A)) (k : A -> Act W (res E B)) :
  guards P a -> (forall x, guards P (k x)) -> guards P (try a k).
Proof. intros Ha Hk. by eapply triple_try; [apply _..|apply Ha|apply Hk|]. Qed.

Lemma guards_unstored {A} P (f : Env -> W -> A * W) :
  stable moves P -> (forall env w, w_store (f env w).2 = w_store w) -> guards P (call sc f).
Proof.
  intros Hs Hf. apply (triple_call sc moves rely); [done|]. intros env w Hw.
  assert (Hm : moves w (f env w).2) by by apply moves_same. split; [done|]. by apply (Hs w).
Qed.

Lemma guards_blob {A} P (f : Env -> BL -> A * BL) : stable moves P -> guards P (on_blob sc f).
Proof. intros Hs. apply guards_unstored; [done|]. intros env w. by destruct (f env (w_blob w)). Qed.
Lemma guards_cache {A} P (f : Env -> CA -> A * CA) : stable moves P -> guards P (on_cache sc f).
Proof. intros Hs. apply guards_unstored; [done|]. intros env w. by destruct (f env (w_cache w)). Qed.
Lemma guards_ask {A} P (f : Env -> DB -> A) : stable moves P -> guards P (ask_store sc f).
Proof. intros Hs. by apply guards_unstored. Qed.
Lemma guards_env {A} P (f : Env -> A) : stable moves P -> guards P (ask_env sc f).
Proof. intros Hs. by apply guards_unstored. Qed.

(** A store operation is safe when it moves the rows of a good store. *)
Lemma guards_store {A} P (f : Env -> DB -> A * DB) :
  stable moves P ->
  (forall env w, P w -> let '(a, s) := f env (w_store w) in moves w (Build_World s (w_blob w) (w_cache w))) ->
  guards P (on_store sc f).
Proof.
  intros Hs Hf. apply (triple_call sc moves rely); [done|]. intros env w Hw. specialize (Hf env w Hw).
  destruct (f env (w_store w)) as [a s]. simpl. split; [done|]. by apply (Hs w).
Qed.

Create HintDb guards discriminated.
#[local] Hint Resolve guards_ret guards_bind guards_try guards_blob guards_cache guards_ask guards_env
  stable_ok stable_knows : guards.
Ltac keep := eauto with guards.

Lemma guards_removeBlobs P keys : stable moves P -> guards P (removeBlobs sc keys).
Proof. intros Hs. induction keys as [|k ks IH]; simpl; [keep|]. destruct (String.eqb k ""); keep. Qed.
Lemma guards_remove_all P cs : stable moves P -> guards P (remove_all sc cs).
Proof. intros Hs. induction cs; cbn [remove_all]; auto using guards_ret, guards_bind, guards_removeBlobs. Qed.
Lemma guards_Invalidate P k : stable moves P -> guards P (Invalidate sc k).
Proof. intros Hs. by apply guards_cache. Qed.
Lemma guards_invalidate_all P cs : stable moves P -> guards P (invalidate_all sc cs).
Proof. intros Hs. induction cs; cbn [invalidate_all]; auto using guards_ret, guards_bind, guards_Invalidate. Qed.
#[local] Hint Resolve guards_removeBlobs guards_remove_all guards_Invalidate guards_invalidate_all : guards.

Lemma guards_store_image P u id k p st png written :
  stable moves P -> guards P (store_image sc u id k p st png written).
Proof. intros Hs. unfold store_image. apply guards_bind; [keep|]. intros [etag|e]; keep. Qed.
#[local] Hint Resolve guards_store_image : guards.

Lemma guards_materialise P u id k p : stable moves P -> guards P (materialise sc svc u id k p).
Proof.
  intros Hs. unfold materialise. apply guards_try; [keep|]. intros [png eff].
  destruct (p_logo p); [keep|]. apply guards_bind; [keep|]. intros [x|e]; keep.
Qed.
Lemma guards_choose P p : stable moves P -> guards P (choose_code sc p).
Proof. intros Hs. unfold choose_code. destruct (p_isAlias p); keep. Qed.
#[local] Hint Resolve guards_materialise guards_choose : guards.

Lemma moves_CreateCodes env cs w :
  ok w -> let '(r, s) := st_CreateCodes env cs (w_store w) in moves w (Build_World s (w_blob w) (w_cache w)).
Proof.
  intros Hw. destruct (st_CreateCodes env cs (w_store w)) as [[out|e] s] eqn:E.
  - destruct (CreateCodes_Ok _ _ _ _ _ Hw E) as (Hok & _ & Hnew & Hold & _). intros _.
    split; [done|]. intros id c Hc. exists c. split; [|reflexivity]. simpl. rewrite Hold; [done|].
    intros (d & -> & Hd)%list_elem_of_fmap. apply list_elem_of_lookup in Hd as [i Hi].
    destruct (Hnew i d Hi) as (o & r & _ & Habs & _). congruence.
  - destruct (CreateCodes_Err_same _ _ _ _ _ Hw E) as (Hok & Hr & _). by apply moves_same_rows.
Qed.

Lemma guards_CreateCodes cs : guards ok (on_store sc (fun env s => st_CreateCodes env cs s)).
Proof. apply guards_store; [keep|]. intros env w. apply moves_CreateCodes. Qed.
Lemma guards_CreateCode c : guards ok (on_store sc (fun env s => st_CreateCode env c s)).
Proof.
  apply guards_store; [keep|]. intros env w Hw. rewrite CreateCode_batch.
  pose proof (moves_CreateCodes env [c] w Hw) as Hm. by destruct (st_CreateCodes env [c] (w_store w)).
Qed.
#[local] Hint Resolve guards_CreateCodes guards_CreateCode : guards.

Lemma guards_Create i : guards ok (Create sc svc i).
Proof.
  unfold Create. destruct (prepare svc i) as [p|e]; [|keep].
  generalize (NewErr "nil") as last. generalize (if p_isAlias p then 1%nat else generateAttempts) as n.
  induction n as [|n IH]; intros last; cbn [create_loop]; [keep|].
  apply guards_bind; [keep|]. intros k. apply guards_bind; [keep|]. intros id.
  apply guards_try; [keep|]. intros c. apply guards_bind; [keep|]. intros [c'|e]; [keep|].
  apply guards_bind; [keep|]. intros []. destruct (negb (errors_Is e ErrAliasTaken)); [keep|].
  destruct (p_isAlias p); keep.
Qed.

Lemma guards_scan_item u n i st : guards ok (scan_item sc svc u n i st).
Proof.
  unfold scan_item. apply guards_bind.
  - unfold check_ref. destruct (_ && _); [|keep]. destruct (bool_decide _); [keep|].
    apply guards_bind; [keep|]. intros [c|e]; [destruct (_ && _); keep|].
    destruct (errors_Is e ErrNotFound); keep.
  - intros [[r|] seen]; [keep|]. destruct (prepare svc _) as [p|e]; [|keep].
    apply guards_bind; [|intros [[?|?] ?]; keep]. unfold check_alias.
    destruct (p_isAlias p); [|keep]. destruct (bool_decide _); [keep|].
    apply guards_bind; [keep|]. intros [[]|e]; keep.
Qed.
#[local] Hint Resolve guards_scan_item : guards.

Lemma guards_scan_items u n items st : guards ok (scan_items sc svc u n items st).
Proof. revert n st. induction items as [|i items IH]; intros n st; simpl; [keep|]. apply guards_bind; keep. Qed.

Lemma guards_render_items u pending order results rendered :
  guards ok (render_items sc svc u pending order results rendered).
Proof.
  revert results rendered. induction order as [|j order IH]; intros results rendered; simpl; [keep|].
  destruct (pending !! j) as [[idx p]|]; [|keep].
  apply guards_bind; [keep|]. intros k. apply guards_bind; [keep|]. intros id.
  apply guards_bind; [keep|]. intros [c|e]; keep.
Qed.
#[local] Hint Resolve guards_scan_items guards_render_items : guards.

Lemma guards_CreateBatch u items order : guards ok (CreateBatch sc svc u items order).
Proof.
  unfold CreateBatch. destruct (String.eqb u ""); [keep|].
  apply guards_bind; [keep|]. intros st. apply guards_bind; [keep|]. intros [results rendered].
  destruct (to_insert _ _); [keep|]. apply guards_bind; [keep|]. intros [out|e]; keep.
Qed.

(** Reading one's code. *)
Lemma triple_Get id u :
  triple moves ok (Get sc id u) (fun r w => ok w /\ forall c, r = Ok c -> knows id c w).
Proof.
  apply (triple_look sc moves rely); [keep|]. intros env w Hw. split; [done|]. intros c E.
  destruct (GetCodeByID_Ok _ _ _ _ _ Hw E) as [Hc _]. split; [done|]. exists c. split; [done|reflexivity].
Qed.

Lemma triple_forget {A} P (a : Act W A) Q : triple moves P a Q -> (forall x w, Q x w -> ok w) ->
  triple moves P a (fun _ => ok).
Proof. intros Ha HQ. by eapply triple_conseq; [apply _..|apply Ha|done|]. Qed.

Lemma guards_Get id u : guards ok (Get sc id u).
Proof. eapply triple_forget; [apply triple_Get|]. by intros r w [? _]. Qed.
#[local] Hint Resolve guards_Get : guards.

(** Continuing from a code that was read. *)
Lemma guards_after_Get {B} id u (k : Code -> Act W (result B)) :
  (forall c, triple moves (knows id c) (k c) (fun _ => ok)) -> guards ok (try (Get sc id u) k).
Proof.
  intros Hk. refine (triple_try moves _ _ _ _ _ (triple_Get id u) _ _).
  - intros c. eapply triple_conseq; [apply _..|apply Hk| |done]. intros w [_ H]. by apply H.
  - by intros e w [? _].
Qed.

(** A change of a code known not to be direct. *)
Lemma evolves_dynamic cur c d st t del :
  same_identity cur c -> Mode cur <> ModeDirect -> is_deleted c = false ->
  evolves c (set_code d st (incr64 (Version c)) t del c).
Proof.
  intros Hi Hm Hd. split; [by repeat split|]. split; [congruence|]. intros Hc.
  destruct Hi as (_ & _ & _ & _ & E & _). congruence.
Qed.

Lemma guards_UpdateDestination_call id u d v cur :
  Mode cur <> ModeDirect ->
  guards (knows id cur) (on_store sc (fun env s => st_UpdateDestination env id u d v s)).
Proof.
  intros Hm. apply guards_store; [keep|]. intros env w [Hw (c0 & Hc0 & Hi)].
  destruct (st_UpdateDestination env id u d v (w_store w)) as [[[]|e] s] eqn:E.
  - destruct (UpdateDestination_Ok _ _ _ _ _ _ _ Hw E) as (c & t & Hc & _ & Hd & <- & Hok & Hr & _).
    apply (moves_row w (Build_World s (w_blob w) (w_cache w)) id c _ Hok Hc Hr). apply (evolves_dynamic cur); [congruence|done|done].
  - destruct (UpdateDestination_Err_same _ _ _ _ _ _ _ _ Hw E) as (Hok & Hr & _).
    by apply moves_same_rows.
Qed.

Lemma guards_SetCodeState_call id u st cur :
  Mode cur <> ModeDirect ->
  guards (knows id cur) (on_store sc (fun env s => st_SetCodeState env id u st s)).
Proof.
  intros Hm. apply guards_store; [keep|]. intros env w [Hw (c0 & Hc0 & Hi)].
  destruct (st_SetCodeState env id u st (w_store w)) as [[[]|e] s] eqn:E.
  - destruct (SetCodeState_Ok _ _ _ _ _ _ Hw E) as (c & t & Hc & _ & Hd & _ & Hok & Hr & _).
    apply (moves_row w (Build_World s (w_blob w) (w_cache w)) id c _ Hok Hc Hr). apply (evolves_dynamic cur); [congruence|done|done].
  - destruct (SetCodeState_Err_same _ _ _ _ _ _ _ Hw E) as (Hok & Hr & _). by apply moves_same_rows.
Qed.

Lemma guards_DeleteCode_call id u : guards ok (on_store sc (fun env s => st_DeleteCode env id u s)).
Proof.
  apply guards_store; [keep|]. intros env w Hw.
  destruct (st_DeleteCode env id u (w_store w)) as [[[]|e] s] eqn:E.
  - destruct (DeleteCode_Ok _ _ _ _ _ Hw E) as (c & Hc & _ & Hok & _ & Hr).
    destruct (is_deleted c) eqn:Hd; [by apply moves_same_rows|]. destruct Hr as [t Hr].
    apply (moves_row w (Build_World s (w_blob w) (w_cache w)) id c _ Hok Hc Hr). split; [by repeat split|]. split; [congruence|]. simpl. auto.
  - destruct (DeleteCode_Err_same _ _ _ _ _ _ Hw E) as (Hok & Hr & _). by apply moves_same_rows.
Qed.

(** A known code stays of the same mode when read again. *)
Lemma triple_Get_again id u cur :
  triple moves (knows id cur) (Get sc id u)
    (fun r w => knows id cur w /\ forall c, r = Ok c -> same_identity cur c).
Proof.
  apply (triple_look sc moves rely); [keep|]. intros env w Hw. split; [done|]. intros c E.
  destruct Hw as [Hw (c0 & Hc0 & Hi)]. destruct (GetCodeByID_Ok _ _ _ _ _ Hw E) as [Hc _]. congruence.
Qed.

Lemma guards_weaken {A} id cur (a : Act W A) :
  guards (knows id cur) a -> triple moves (knows id cur) a (fun _ => ok).
Proof. intros Ha. eapply triple_forget; [apply Ha|]. by intros _ w [? _]. Qed.

Lemma guards_Get_known id u cur : guards (knows id cur) (Get sc id u).
Proof. apply guards_ask. keep. Qed.
#[local] Hint Resolve guards_UpdateDestination_call guards_SetCodeState_call guards_Get_known : guards.

Lemma guards_update_loop id u d v n first cur0 cur :
  Mode cur0 <> ModeDirect -> same_identity cur0 cur ->
  guards (knows id cur0) (update_loop sc id u d v first n cur).
Proof.
  intros Hm. revert first cur. induction n as [|n IH]; intros first cur Hi; cbn [update_loop]; [keep|].
  assert (Hread : triple moves (knows id cur0) (if first then mret (Ok cur) else Get sc id u)
    (fun r w => knows id cur0 w /\ forall c, r = Ok c -> same_identity cur0 c)).
  { destruct first; [|apply triple_Get_again].
    eapply triple_conseq; [apply _..|apply triple_ret; apply _|done|].
    intros r w [-> Hw]. split; [done|]. by intros c [= <-]. }
  refine (triple_try moves _ _ _ _ _ Hread _ _); [|by intros e w [? _]].
  intros c n0 w0 [Hw0 Hc]. specialize (Hc c eq_refl). revert n0 w0 Hw0.
  change (guards (knows id cur0)
    (r ← on_store sc (fun env s => st_UpdateDestination env id u d (if v <=? 0 then Version c else v) s);
     match r with
     | Ok _ => _ ← Invalidate sc (ShortCode c); Get sc id u
     | Err e =>
         if negb (errors_Is e ErrConflict) then mret (Err e)
         else if (0 <? v) || is_deleted c then
           try (Get sc id u) (fun latest =>
             mret (Err (ConflictError (if v <=? 0 then Version c else v) (Version latest))))
         else update_loop sc id u d v false n c
     end)).
  apply guards_bind; [keep|]. intros [x|e]; [keep|].
  destruct (negb (errors_Is e ErrConflict)); [keep|].
  destruct ((0 <? v) || is_deleted c); [keep|]. by apply IH.
Qed.

Lemma guards_svc_UpdateDestination id u d v : guards ok (svc_UpdateDestination sc svc id u d v).
Proof.
  apply guards_after_Get. intros c. apply guards_weaken.
  destruct (String.eqb_spec (Mode c) ModeDirect) as [|Hm]; [keep|].
  destruct (ValidateDestination _ _ _); [keep|]. by apply guards_update_loop.
Qed.

Lemma guards_SetState id u st : guards ok (SetState sc id u st).
Proof.
  apply guards_after_Get. intros c. apply guards_weaken.
  destruct (String.eqb_spec (Mode c) ModeDirect) as [|Hm]; [keep|].
  apply guards_try; [keep|]. intros x. apply guards_try; keep.
Qed.

Lemma guards_Delete id u : guards ok (Delete sc id u).
Proof.
  apply guards_try; [keep|]. intros c. apply guards_try; [apply guards_DeleteCode_call|]. keep.
Qed.

Lemma guards_Resolve k : guards ok (Resolve sc k).
Proof.
  apply guards_bind; [keep|]. intros [r|]; [keep|]. apply guards_bind; [keep|].
  intros [c|e]; [keep|]. destruct (errors_Is e ErrNotFound); keep.
Qed.
End actions.
End guarantee.
