(* ===== verification/CreateFacts.v ===== *)
(** * Creating codes: batches, all or nothing, and whose codes are returned

    In any schedule [CreateBatch] answers every item of the batch exactly once,
    under its own index, with a code or with an error.  Without interference
    [Create] is all or nothing across the store and the blobs.  Whatever the
    interleaving, every code an operation returns belongs to the user who
    asked. *)
From Stdlib Require Import Ascii String.
From S2P Require Import GoLib Act Domain GoUrl Shortcode Destination QrPolicy Blob Rollup MemStore MemStoreFacts Store Cache Codes BlobKeys CodesFacts.
Local Open Scope Z_scope.
Local Open Scope go_scope.

(** The result of item [i]: a code, or not. *)
Definition good (i : nat) (r : BatchResult) : Prop :=
  b_Index r = i /\ match b_Status r with
                   | BatchError => b_Code r = None
                   | _ => b_Err r = None /\ is_Some (b_Code r)
                   end.
Definition positional (rs : list BatchResult) : Prop := forall i r, rs !! i = Some r -> good i r.

Lemma good_failed i e : good i (failed i e).
Proof. done. Qed.
Lemma good_done i s c : s <> BatchError -> good i {| b_Index := i; b_Status := s; b_Code := Some c; b_Err := None |}.
Proof. intros Hs. split; [done|]. simpl. by destruct s. Qed.

Lemma positional_insert i r rs : positional rs -> good i r -> positional (<[i := r]> rs).
Proof.
  intros Hrs Hr j x Hx. destruct (decide (i = j)) as [<-|Hne].
  - apply list_lookup_insert_Some in Hx as [(_ & <- & _)|(? & _)]; [done|done].
  - rewrite list_lookup_insert_ne in Hx by done. by apply Hrs.
Qed.

Section batch.
Context `{U : UnicodeTable} `{IP : IPParser} `{RD : Renderer} `{SN : Sniffer}.
Context {DB BL CA : Type} `{ST : CodeStore DB} `{BS : BlobStore BL} `{OC : OtterCache CA}.
Notation W := (World DB BL CA).
Context (sc : Sched W) (svc : Service).

(** In every run, whatever the others do. *)
Definition gives {A} (a : Act W A) (P : A -> Prop) : Prop := forall st, P (a st).1.

Lemma gives_ret {A} (x : A) (P : A -> Prop) : P x -> gives (mret x) P.
Proof. by intros H st. Qed.
Lemma gives_any {A} (a : Act W A) : gives a (fun _ => True).
Proof. by intros st. Qed.
Lemma gives_bind {A B} (a : Act W A) (k : A -> Act W B) P Q : gives a P -> (forall x, P x -> gives (k x) Q) -> gives (a ≫= k) Q.
Proof. intros Ha Hk st. rewrite bind_step. specialize (Ha st). destruct (a st) as [x st']. by apply Hk. Qed.
Lemma gives_then {A B} (a : Act W A) (k : A -> Act W B) Q : (forall x, gives (k x) Q) -> gives (a ≫= k) Q.
Proof. intros Hk. eapply gives_bind; [apply gives_any|auto]. Qed.

(** ** Phases 1 and 2 *)
Lemma check_ref_good u n i seen : gives (check_ref sc u n i seen) (fun p => forall r, p.1 = Some r -> good n r).
Proof.
  unfold check_ref. destruct (_ && _); [|by apply gives_ret]. destruct (bool_decide _).
  { apply gives_ret. by intros r [= <-]. }
  apply gives_then. intros [c|e].
  - destruct (_ && _); apply gives_ret; intros r [= <-]; [by apply good_done|done].
  - destruct (errors_Is e ErrNotFound); apply gives_ret; [done|]. by intros r [= <-].
Qed.

Lemma check_alias_good n p seen :
  gives (check_alias sc n p seen) (fun v => match v.1 with VDone r => good n r | VPending _ => True end).
Proof.
  unfold check_alias. destruct (p_isAlias p); [|by apply gives_ret]. destruct (bool_decide _); [by apply gives_ret|].
  apply gives_then. intros [[]|e]; by apply gives_ret.
Qed.

(** The results have their places, and so do the items still to be rendered. *)
Definition scan_good (len : nat) (st : scan) : Prop := positional (sn_results st) /\ length (sn_results st) = len.

Lemma scan_item_good u n i len st : scan_good len st -> gives (scan_item sc svc u n i st) (scan_good len).
Proof.
  intros [Hp Hl]. unfold scan_item. eapply gives_bind; [apply check_ref_good|]. intros [[r|] seen] Hr.
  { apply gives_ret. split; simpl; [by apply positional_insert, Hr|by rewrite length_insert]. }
  destruct (prepare svc _) as [p|e].
  - eapply gives_bind; [apply check_alias_good|]. intros [[r|p'] seen'] Hv; apply gives_ret; simpl in Hv; [|done].
    split; simpl; [by apply positional_insert|by rewrite length_insert].
  - apply gives_ret. split; simpl; [by apply positional_insert|by rewrite length_insert].
Qed.

Lemma scan_items_good u n items len st : scan_good len st -> gives (scan_items sc svc u n items st) (scan_good len).
Proof.
  revert n st. induction items as [|i items IH]; intros n st Hs; cbn [scan_items]; [by apply gives_ret|].
  eapply gives_bind; [by apply scan_item_good|]. intros st' Hs'. by apply IH.
Qed.

(** ** Phase 3 and the insert *)
Lemma render_items_good u pending order rs rendered len :
  positional rs /\ length rs = len ->
  gives (render_items sc svc u pending order rs rendered) (fun p => positional p.1 /\ length p.1 = len).
Proof.
  revert rs rendered. induction order as [|j order IH]; intros rs rendered Hrs; cbn [render_items]; [by apply gives_ret|].
  destruct (pending !! j) as [[idx p]|]; [|by apply IH].
  apply gives_then. intros k. apply gives_then. intros id. apply gives_then. intros [c|e]; apply IH; [done|].
  destruct Hrs as [Hp Hl]. split; [by apply positional_insert|by rewrite length_insert].
Qed.

Lemma insert_all_good {A} (f : A -> nat * BatchResult) (l : list A) rs len :
  (forall a, good (f a).1 (f a).2) -> positional rs /\ length rs = len ->
  let rs' := foldl (fun rs a => <[(f a).1 := (f a).2]> rs) rs l in positional rs' /\ length rs' = len.
Proof.
  intros Hf. revert rs. induction l as [|a l IH]; intros rs [Hp Hl]; [done|]. apply IH.
  split; [by apply positional_insert|by rewrite length_insert].
Qed.

Lemma CreateBatch_positional u items order :
  gives (CreateBatch sc svc u items order) (fun rs => positional rs /\ length rs = length items).
Proof.
  assert (Hblank : forall f : nat -> BatchResult, (forall i, good i (f i)) ->
    positional (imap (fun i _ => f i) items) /\ length (imap (fun i _ => f i) items) = length items).
  { intros f Hf. split; [|apply length_imap]. intros i r Hi. rewrite list_lookup_imap in Hi.
    destruct (items !! i); [|done]. injection Hi as <-. apply Hf. }
  unfold CreateBatch. destruct (String.eqb u ""); [apply gives_ret; by apply (Hblank (fun i => failed i _))|].
  eapply gives_bind; [apply scan_items_good; by apply (Hblank (fun i => {| b_Index := i; b_Status := BatchError; b_Code := None; b_Err := None |}))|].
  intros st Hs. eapply gives_bind; [by apply render_items_good|]. intros [rs rendered] Hrs.
  destruct (to_insert _ _) as [|x ins] eqn:Ei; [by apply gives_ret|]. rewrite <- Ei. clear Ei. apply gives_then. intros [out|e].
  - apply gives_then. intros _. apply gives_ret.
    apply (insert_all_good (fun p => (p.1, {| b_Index := p.1; b_Status := BatchCreated; b_Code := Some p.2; b_Err := None |}))); [|done].
    intros a. by apply good_done.
  - apply gives_then. intros _. apply gives_ret.
    by apply (insert_all_good (fun p => (p.1, failed p.1 (lost_race e)))).
Qed.
End batch.

Local Open Scope string_scope.
Local Open Scope Z_scope.

Section create.
Context `{U : UnicodeTable} `{IP : IPParser} `{RD : Renderer} `{SN : Sniffer}.
Context {DB BL CA : Type} `{ST : CodeStore DB} `{SL : !CodeStoreLaws DB}
  `{BS : BlobStore BL} `{BLaws : !BlobLaws BL} `{OC : OtterCache CA} `{OL : !OtterLaws CA}.
Notation W := (World DB BL CA).
Context (sc : Sched W) (svc : Service) (Hquiet : quiet sc).

(** Deleting the object of a code does not fail, except when there is none;
    and a [Put] that fails leaves nothing. *)
Definition object_key (k : string) : Prop :=
  exists id, code_id id /\ (k = BlobKeyFor id \/ k = LogoBlobKeyFor id).
Definition code_key (k : string) : Prop := k = "" \/ object_key k.
Definition deletes_work : Prop := forall n k b e b',
  object_key k -> blob_Delete (sc_env sc n) k b = (Err e, b') -> errors_Is e ErrBlobNotFound = true.
Definition puts_clean : Prop := forall n k d size ct b e b',
  object_key k -> blob_Put (sc_env sc n) k d size ct b = (Err e, b') -> objects b' = objects b.
Definition tidy : Prop := deletes_work /\ puts_clean.

(** The keys of an id, and of the ids drawn in the turns from [n] to [n']. *)
Definition keys_of (id k : string) : Prop := k = BlobKeyFor id \/ k = LogoBlobKeyFor id.
Definition drawn_id (n : nat) : string := NewCodeID (rand_byte (sc_env sc n)) 0.
Definition drawn (n n' : nat) (k : string) : Prop := exists m, (n <= m < n')%nat /\ keys_of (drawn_id m) k.

(** No stored object has the key of an id about to be drawn. *)
Definition fresh_ids (objs : gmap string (list ascii * string)) : Prop := forall n,
  objs !! BlobKeyFor (drawn_id n) = None /\ objs !! LogoBlobKeyFor (drawn_id n) = None.

(** Objects that differ under the keys in [P] only. *)
Definition same_but (P : string -> Prop) (objs objs' : gmap string (list ascii * string)) : Prop :=
  forall k, ~ P k -> objs' !! k = objs !! k.

Lemma same_but_refl P objs : same_but P objs objs.
Proof. by intros k. Qed.
Lemma same_but_trans P Q o1 o2 o3 : same_but P o1 o2 -> same_but Q o2 o3 -> (forall k, P k -> Q k) -> same_but Q o1 o3.
Proof. intros H1 H2 HPQ k Hk. rewrite (H2 k Hk). apply H1. auto. Qed.
Lemma drawn_mono n1 n2 n3 n4 k : (n3 <= n1)%nat -> (n2 <= n4)%nat -> drawn n1 n2 k -> drawn n3 n4 k.
Proof. intros H1 H2 (m & Hm & Hk). exists m. split; [lia|done]. Qed.
Lemma keys_of_drawn n n' m k : (n <= m < n')%nat -> keys_of (drawn_id m) k -> drawn n n' k.
Proof. intros Hm Hk. by exists m. Qed.

(** Two worlds with the same stored codes. *)
Definition same_db (w w' : W) : Prop :=
  store_ok (w_store w') /\ rows (w_store w') = rows (w_store w) /\ names (w_store w') = names (w_store w).

Lemma on_blob_quiet {A} (f : Env -> BL -> A * BL) n w :
  on_blob sc f (n, w) = let '(a, b) := f (sc_env sc n) (w_blob w) in
                        (a, (S n, Build_World (w_store w) b (w_cache w))).
Proof. unfold on_blob. rewrite call_quiet by done. by destruct (f _ _). Qed.

Lemma on_store_quiet {A} (f : Env -> DB -> A * DB) n w :
  on_store sc f (n, w) = let '(a, s) := f (sc_env sc n) (w_store w) in
                         (a, (S n, Build_World s (w_blob w) (w_cache w))).
Proof. unfold on_store. rewrite call_quiet by done. by destruct (f _ _). Qed.

Lemma on_cache_quiet {A} (f : Env -> CA -> A * CA) n w :
  on_cache sc f (n, w) = let '(a, c) := f (sc_env sc n) (w_cache w) in
                         (a, (S n, Build_World (w_store w) (w_blob w) c)).
Proof. unfold on_cache. rewrite call_quiet by done. by destruct (f _ _). Qed.

Lemma ask_env_quiet {A} (f : Env -> A) n w : ask_env sc f (n, w) = (f (sc_env sc n), (S n, w)).
Proof. unfold ask_env, look. by rewrite call_quiet. Qed.

Lemma ask_store_quiet {A} (f : Env -> DB -> A) n w :
  ask_store sc f (n, w) = (f (sc_env sc n) (w_store w), (S n, w)).
Proof. unfold ask_store, look. by rewrite call_quiet. Qed.

(** Deleting the non-empty keys. *)
Definition without (keys : list string) (objs : gmap string (list ascii * string)) :=
  foldl (fun m k => if String.eqb k "" then m else delete k m) objs keys.

Lemma removeBlobs_quiet keys n w :
  exists n' b', removeBlobs sc keys (n, w) = (tt, (n', Build_World (w_store w) b' (w_cache w))) /\ (n <= n')%nat
    /\ same_but (fun k => k ∈ keys /\ k <> "") (objects (w_blob w)) (objects b')
    /\ (deletes_work -> Forall code_key keys -> objects b' = without keys (objects (w_blob w))).
Proof.
  revert n w. induction keys as [|k ks IH]; intros n w; cbn [removeBlobs].
  - exists n, (w_blob w). destruct w. by split_and!.
  - unfold without. cbn [foldl]. destruct (String.eqb_spec k "") as [|Ek].
    { destruct (IH n w) as (n' & b' & -> & Hn & Hs & Hd). exists n', b'. split_and!; [done|done| |].
      - intros k' Hk'. apply Hs. intros [Hin Hne]. apply Hk'. split; [by right|done].
      - intros Hdel Hkeys. apply Forall_cons in Hkeys as [_ Hkeys]. by apply Hd. }
    rewrite bind_step, on_blob_quiet.
    destruct (blob_Delete (sc_env sc n) k (w_blob w)) as [r b] eqn:E.
    destruct (IH (S n) (Build_World (w_store w) b (w_cache w))) as (n' & b' & -> & Hn & Hs & Hd).
    exists n', b'. cbn [w_blob w_store w_cache] in *. split_and!; [done|lia| |].
    + intros k' Hk'. assert (Hne : k' <> k) by (intros ->; apply Hk'; by split; [left|]).
      rewrite (Hs k') by (intros [Hin He]; apply Hk'; by split; [right|]).
      destruct r as [[]|e]; [apply blob_Delete_Ok in E as ->; by rewrite lookup_delete_ne|].
      apply blob_Delete_Err in E as [E _]. by apply E.
    + intros Hdel Hkeys. apply Forall_cons in Hkeys as [Hk Hkeys]. destruct Hk as [|Hk]; [done|].
      rewrite (Hd Hdel Hkeys).
      assert (Ho : objects b = delete k (objects (w_blob w))); [|by rewrite Ho].
      destruct r as [[]|e]; [by apply blob_Delete_Ok in E|].
      assert (He := E). apply Hdel in He; [|done]. apply blob_Delete_Err in E as [_ Hnf].
      destruct (Hnf He) as [-> Hnone]. symmetry. by apply delete_id.
Qed.

(** What [materialise] returns and stores. *)
Record made (u id k : string) (p : prepared) (w w' : W) (c : Code) : Prop := {
  made_id : code_ID c = id; made_short : ShortCode c = k; made_alias : IsAlias c = p_isAlias p;
  made_user : code_UserID c = u; made_mode : Mode c = p_mode p; made_ref : ClientRef c = p_clientRef p;
  made_dest : Destination c = p_destination p; made_state : State c = CodeActive;
  made_blob : BlobKey c = BlobKeyFor id;
  made_logo : LogoBlobKey (code_Styling c) = match p_logo p with [] => "" | _ => LogoBlobKeyFor id end;
  made_objects : exists env png level,
    Render env (content_of svc p k) (p_styling p) (p_logo p) (p_autoRaise p) = Ok (png, level)
    /\ objects (w_blob w') = <[BlobKeyFor id := (png, "image/png")]>
         (match p_logo p with
          | [] => objects (w_blob w)
          | _ => <[LogoBlobKeyFor id := (p_logo p, DetectContentType (p_logo p))]> (objects (w_blob w))
          end);
}.

Lemma store_image_quiet u id k p styling png written n w :
  code_id id -> Forall code_key written ->
  let '(r, (n', w')) := store_image sc u id k p styling png written (n, w) in
  (n <= n')%nat /\ w_store w' = w_store w /\ w_cache w' = w_cache w /\
  match r with
  | Err _ => same_but (fun k => k = BlobKeyFor id \/ k ∈ written) (objects (w_blob w)) (objects (w_blob w'))
             /\ (tidy -> objects (w_blob w') = without written (objects (w_blob w)))
  | Ok c =>
      objects (w_blob w') = <[BlobKeyFor id := (png, "image/png")]> (objects (w_blob w))
      /\ exists etag now, c = {|
        code_ID := id; ShortCode := k; IsAlias := p_isAlias p; code_UserID := u;
        Mode := p_mode p; ClientRef := p_clientRef p; Destination := p_destination p;
        State := CodeActive; code_Styling := styling; BlobKey := BlobKeyFor id; BlobETag := etag;
        Version := 0; code_CreatedAt := now; UpdatedAt := now; DeletedAt := None |}
  end.
Proof.
  intros Hid Hkeys. unfold store_image. rewrite bind_step, on_blob_quiet.
  destruct (blob_Put _ _ _ _ _ _) as [[etag|e] b] eqn:E.
  - rewrite bind_step, ask_env_quiet. apply blob_Put_Ok in E as [E _]. split_and!; [lia|done|done|done|eauto].
  - rewrite bind_step.
    destruct (removeBlobs_quiet written (S n) (Build_World (w_store w) b (w_cache w))) as (n' & b' & -> & Hn & Hs & Hd).
    cbn [w_blob w_store w_cache] in *. split_and!; [lia|done|done| |].
    + intros k' Hk'. etrans; [apply Hs; tauto|]. apply (blob_Put_Err _ _ _ _ _ _ _ _ E). tauto.
    + intros [Hdel Hput]. etrans; [by apply Hd|]. f_equal. eapply Hput; [|exact E]. exists id; auto.
Qed.

Lemma materialise_quiet u id k p n w :
  code_id id -> LogoBlobKey (p_styling p) = "" ->
  let '(r, (n', w')) := materialise sc svc u id k p (n, w) in
  (n <= n')%nat /\ w_store w' = w_store w /\ w_cache w' = w_cache w /\
  match r with
  | Err _ => same_but (keys_of id) (objects (w_blob w)) (objects (w_blob w'))
             /\ (tidy -> objects (w_blob w) !! LogoBlobKeyFor id = None -> objects (w_blob w') = objects (w_blob w))
  | Ok c => made u id k p w w' c
  end.
Proof.
  intros Hid Hlogo. unfold materialise, try. rewrite bind_step, ask_env_quiet.
  destruct (Render _ _ _ _ _) as [[png level]|e] eqn:Er; [|cbn; split_and!; [lia|done|done|apply same_but_refl|done]].
  set (styling := if String.eqb level "" then p_styling p else set_effective level (p_styling p)).
  assert (Hsl : LogoBlobKey styling = "") by (unfold styling; by destruct (String.eqb level "")).
  destruct (p_logo p) as [|b0 logo0] eqn:El.
  - pose proof (store_image_quiet u id k p styling png [] (S n) w Hid (Forall_nil_2 _)) as Hs.
    destruct (store_image _ _ _ _ _ _ _ _ _) as [[c|e] [n' w']].
    + destruct Hs as (Hn & -> & -> & Ho & etag & now & ->). split_and!; [lia|done|done|].
      split; simpl; rewrite ?El; try done. eexists _, _, _. split; [exact Er|done].
    + destruct Hs as (Hn & -> & -> & Hb & Ht). split_and!; [lia|done|done| |by intros Hd _; apply Ht].
      intros k' Hk'. apply Hb. intros [->|[]%elem_of_nil]. apply Hk'. by left.
  - rewrite bind_step, on_blob_quiet. destruct (blob_Put _ _ _ _ _ _) as [[etag0|e] b] eqn:E.
    2: { cbn [w_blob w_store w_cache]. split_and!; [cbn; lia|done|done| |].
         - intros k' Hk'. apply (blob_Put_Err _ _ _ _ _ _ _ _ E). intros ->. apply Hk'. by right.
         - intros [_ Hput] _. eapply Hput; [|exact E]. exists id; auto. }
    apply blob_Put_Ok in E as [E _].
    pose proof (store_image_quiet u id k p (set_logo (LogoBlobKeyFor id) (LogoScale styling) styling)
      png [LogoBlobKeyFor id] (S (S n)) (Build_World (w_store w) b (w_cache w)) Hid) as Hs.
    assert (Hkeys : Forall code_key [LogoBlobKeyFor id]) by (constructor; [right; exists id; auto|constructor]).
    specialize (Hs Hkeys). cbn [w_blob w_store w_cache] in Hs.
    destruct (store_image _ _ _ _ _ _ _ _ _) as [[c|e] [n' w']].
    + destruct Hs as (Hn & -> & -> & Ho & etag & now & ->). split_and!; [lia|done|done|].
      simpl in Ho. split; simpl; rewrite ?El; try done.
      eexists _, _, _. split; [exact Er|]. by rewrite Ho, E.
    + destruct Hs as (Hn & -> & -> & Hb & Ht). split_and!; [lia|done|done| |].
      * intros k' Hk'. rewrite (Hb k').
        -- rewrite E, lookup_insert_ne; [done|]. intros <-. apply Hk'. by right.
        -- intros [E1|E1%list_elem_of_singleton]; apply Hk'; [by left|by right].
      * intros Hd Hf. rewrite (Ht Hd). simpl. rewrite E.
        destruct (String.eqb_spec (LogoBlobKeyFor id) ""); [done|]. by rewrite delete_insert_id.
Qed.

Lemma made_keys u id k p w w' c :
  code_id id -> made u id k p w w' c -> Forall code_key (blobKeysOf c).
Proof.
  intros Hid []. unfold blobKeysOf. rewrite made_blob0, made_logo0.
  constructor; [right; exists id; auto|]. constructor; [|constructor].
  destruct (p_logo p); [by left|right; exists id; auto].
Qed.

Lemma made_only u id k p w w' c : made u id k p w w' c -> same_but (keys_of id) (objects (w_blob w)) (objects (w_blob w')).
Proof.
  intros [] k' Hk'. destruct made_objects0 as (env & png & level & _ & ->).
  rewrite lookup_insert_ne by (intros <-; apply Hk'; by left).
  destruct (p_logo p); [done|]. rewrite lookup_insert_ne; [done|]. intros <-. apply Hk'. by right.
Qed.

(** Removing the blobs of a code takes back what [materialise] stored. *)
Lemma made_undo u id k p w w' c :
  made u id k p w w' c -> objects (w_blob w) !! BlobKeyFor id = None ->
  objects (w_blob w) !! LogoBlobKeyFor id = None ->
  without (blobKeysOf c) (objects (w_blob w')) = objects (w_blob w).
Proof.
  intros [] Hb Hl. destruct made_objects0 as (env & png & level & _ & ->).
  unfold blobKeysOf, without. rewrite made_blob0, made_logo0. cbn [foldl].
  destruct (String.eqb_spec (BlobKeyFor id) ""); [done|].
  destruct (p_logo p) as [|b l]; cbn [String.eqb].
  - by rewrite delete_insert_id.
  - destruct (String.eqb_spec (LogoBlobKeyFor id) ""); [done|].
    rewrite delete_insert_id, delete_insert_id; [done|done|].
    rewrite lookup_insert_ne; [done|]. unfold BlobKeyFor, LogoBlobKeyFor. done.
Qed.

Lemma choose_quiet p n w :
  exists k n', choose_code sc p (n, w) = (k, (n', w)) /\ (n <= n')%nat
    /\ (if p_isAlias p then k = p_shortCode p else is_key k = true).
Proof.
  unfold choose_code. destruct (p_isAlias p); [by exists (p_shortCode p), n|].
  rewrite ask_env_quiet. eexists _, _. split; [done|]. split; [lia|]. apply Generate_key.
Qed.

(** A created code, against the world before: its row, its names, and its
    objects over those left by earlier attempts, which are none when the blob
    store is tidy. *)
Record created (u : string) (p : prepared) (n n' : nat) (w w' : W) (c : Code) : Prop := {
  cr_ok : store_ok (w_store w');
  cr_row : exists id k r,
    code_ID c = id /\ rows (w_store w) !! id = None /\ rows (w_store w') !! id = Some r
    /\ names (w_store w) !! ToLower k = None /\ names (w_store w') !! ToLower k = Some id
    /\ (forall id', id' <> id -> rows (w_store w') !! id' = rows (w_store w) !! id')
    /\ (forall k', k' <> ToLower k -> names (w_store w') !! k' = names (w_store w) !! k')
    /\ ShortCode r = ToLower k /\ ShortCode c = ToLower k
    /\ entries (w_cache w') !! cacheKey k = None
    /\ code_UserID r = u /\ Mode r = p_mode p /\ Destination r = p_destination p
    /\ ClientRef r = p_clientRef p /\ IsAlias r = p_isAlias p
    /\ State r = CodeActive /\ Version r = 1 /\ DeletedAt r = None /\ BlobKey r = BlobKeyFor id
    /\ (if p_isAlias p then k = p_shortCode p else is_key k = true)
    /\ exists env png level objs,
        Render env (content_of svc p k) (p_styling p) (p_logo p) (p_autoRaise p) = Ok (png, level)
        /\ same_but (drawn n n') (objects (w_blob w)) objs
        /\ (tidy -> fresh_ids (objects (w_blob w)) -> objs = objects (w_blob w))
        /\ objects (w_blob w') = <[BlobKeyFor id := (png, "image/png")]>
             (match p_logo p with
              | [] => objs
              | _ => <[LogoBlobKeyFor id := (p_logo p, DetectContentType (p_logo p))]> objs
              end);
  cr_cache : entries (w_cache w') ⊆ entries (w_cache w);
}.

Lemma created_same u p n n1 n' w1 w w' c :
  same_db w w1 -> w_cache w1 = w_cache w -> (n <= n1 <= n')%nat ->
  same_but (drawn n n1) (objects (w_blob w)) (objects (w_blob w1)) ->
  (tidy -> fresh_ids (objects (w_blob w)) -> objects (w_blob w1) = objects (w_blob w)) ->
  created u p n1 n' w1 w' c -> created u p n n' w w' c.
Proof.
  intros (_ & Er & En) Ec Hn Eb Et [Hok (id & k & r & H) Hsub]. rewrite Er, En in H. rewrite Ec in Hsub.
  split; [done| |done]. exists id, k, r. destruct_and!. split_and!; try done.
  match goal with H : exists env png level objs, _ |- _ => destruct H as (env & png & level & objs & Hr & Hs & Ht & Ho) end.
  exists env, png, level, objs. split_and!; [done| | |done].
  - eapply same_but_trans; [eapply (same_but_trans _ (drawn n n')); [exact Eb|apply same_but_refl|]| |]; [| |done].
    + intros k'. apply drawn_mono; lia.
    + intros k' Hk'. apply Hs. intros Hd. apply Hk'. revert Hd. apply drawn_mono; lia.
  - intros Htd Hf. rewrite (Ht Htd); [by apply Et|]. by rewrite (Et Htd Hf).
Qed.

Lemma made_stored u id k p w w' c r :
  p_mode p <> "" -> made u id k p w w' c -> stored_for c r ->
  ShortCode r = ToLower k /\ code_UserID r = u /\ Mode r = p_mode p /\ Destination r = p_destination p
  /\ ClientRef r = p_clientRef p /\ IsAlias r = p_isAlias p
  /\ State r = CodeActive /\ Version r = 1 /\ BlobKey r = BlobKeyFor id.
Proof.
  intros Hm [] H. unfold stored_for in H. destruct_and!.
  rewrite made_state0, made_mode0, (proj2 (String.eqb_neq _ _) Hm) in *. simpl in *. split_and!; congruence.
Qed.

(** What an attempt that fails leaves: the database and the cache as they
    were, and objects of ids drawn meanwhile at most. *)
Definition left_alone (n n' : nat) (w w' : W) : Prop :=
  same_db w w' /\ w_cache w' = w_cache w
  /\ same_but (drawn n n') (objects (w_blob w)) (objects (w_blob w'))
  /\ (tidy -> fresh_ids (objects (w_blob w)) -> objects (w_blob w') = objects (w_blob w)).

Lemma left_alone_refl n w : store_ok (w_store w) -> left_alone n n w w.
Proof. intros H. by split_and!. Qed.

Lemma create_loop_quiet u p attempts : forall last n w,
  LogoBlobKey (p_styling p) = "" -> p_mode p <> "" -> store_ok (w_store w) ->
  let '(res, (n', w')) := create_loop sc svc u p attempts last (n, w) in
  (n <= n')%nat /\
  match res with
  | Err _ => left_alone n n' w w'
  | Ok c => created u p n n' w w' c
  end.
Proof.
  induction attempts as [|attempts IH]; intros last n w Hlogo Hmode Hok; cbn [create_loop];
    [split; [done|by apply left_alone_refl]|].
  rewrite bind_step. destruct (choose_quiet p n w) as (k & n1 & -> & Hn1 & Halias).
  rewrite bind_step, ask_env_quiet. change (NewCodeID (rand_byte (sc_env sc n1)) 0) with (drawn_id n1).
  set (id := drawn_id n1). unfold try at 1. rewrite bind_step.
  pose proof (materialise_quiet u id k p (S n1) w (NewCodeID_id _ _) Hlogo) as Hm.
  assert (Hdr : forall n', (S n1 <= n')%nat -> forall k, keys_of id k -> drawn n n' k)
    by (intros n' Hn' k'; apply keys_of_drawn; lia).
  destruct (materialise _ _ _ _ _ _ _) as [[c|e] [n2 w2]]; destruct Hm as (Hn2 & Es & Ec & Hm).
  2: { split; [lia|]. destruct Hm as [Hb Ht]. split_and!; [unfold same_db; rewrite Es; by split_and!|done| |].
       - eapply same_but_trans; [exact Hb|apply same_but_refl|]. by apply Hdr.
       - intros Htd Hf. apply Ht; [done|]. apply Hf. }
  rewrite bind_step, on_store_quiet, CreateCode_batch, Es.
  destruct (st_CreateCodes _ [c] (w_store w)) as [[out|e] s] eqn:E; cbn [res_bind].
  - rewrite bind_step. unfold Invalidate. rewrite on_cache_quiet. cbn [fst snd]. split; [lia|].
    destruct (CreateCodes_Ok _ _ _ _ _ Hok E) as (Hok' & Hlen & Hnew & Hold & Hnames).
    destruct (Hnew 0%nat c eq_refl) as (o & r & Ho & Habs & Hr & Hsr & Hdel' & Hso & Hn & Hn').
    destruct out as [|o' [|]]; try done. simpl in Ho. injection Ho as ->. cbn [default head from_option].
    destruct (made_stored _ _ _ _ _ _ _ _ Hmode Hm Hsr) as (R1 & R2 & R3 & R4 & R5 & R6 & R7 & R8 & R9).
    destruct (Invalidate_entries (sc_env sc (S n2)) (cacheKey k) (w_cache w2)) as [Hi Hi'].
    simpl. assert (Hcid := made_id _ _ _ _ _ _ _ Hm). assert (Hck := made_short _ _ _ _ _ _ _ Hm).
    split; [done| |by rewrite <- Ec]. exists id, k, r. rewrite Hcid, Hck in *.
    simpl. split_and!; try done.
    + by destruct Hso as (-> & _).
    + intros id' Hid'. apply Hold. intros [->|[]%elem_of_nil]%elem_of_cons. congruence.
    + intros k' Hk'. apply Hnames. rewrite fmap_cons. intros [->|[]%elem_of_nil]%elem_of_cons. congruence.
    + destruct Hso as (_ & -> & _). congruence.
    + destruct (made_objects _ _ _ _ _ _ _ Hm) as (env & png & level & Hren & Hobj).
      exists env, png, level, (objects (w_blob w)). split_and!; [done|apply same_but_refl|done|exact Hobj].
  - destruct (CreateCodes_Err_same _ _ _ _ _ Hok E) as (Hok' & Hr & Hn).
    rewrite bind_step.
    destruct (removeBlobs_quiet (blobKeysOf c) (S n2) (Build_World s (w_blob w2) (w_cache w2)))
      as (n3 & b3 & -> & Hn3 & Hb3 & Ht3). cbn [w_blob w_store w_cache] in *.
    set (w3 := Build_World s b3 (w_cache w2)).
    assert (Hleft : forall n', (n3 <= n')%nat -> left_alone n n' w w3).
    { intros n' Hn'. split_and!; [done|done| |].
      - eapply (same_but_trans (keys_of id)); [by apply (made_only u id k p w w2 c)| |apply Hdr; lia].
        intros k' Hk'. apply Hb3. intros Hin. apply Hk'. apply (Hdr n'); [lia|].
        unfold blobKeysOf in Hin. rewrite (made_blob _ _ _ _ _ _ _ Hm), (made_logo _ _ _ _ _ _ _ Hm) in Hin.
        rewrite !elem_of_cons in Hin. destruct Hin as [[->|[->|[]%elem_of_nil]] Hne]; [by left|].
        destruct (p_logo p); [done|by right].
      - intros Htd Hf. cbn [w_blob w3]. rewrite (Ht3 (proj1 Htd) (made_keys _ _ _ _ _ _ _ (NewCodeID_id _ _) Hm)).
        destruct (Hf n1) as [Hf1 Hf2]. by apply (made_undo _ _ _ _ _ _ _ Hm). }
    destruct (negb (errors_Is e ErrAliasTaken)); [split; [lia|by apply Hleft]|].
    destruct (p_isAlias p); [split; [lia|by apply Hleft]|].
    specialize (IH e n3 w3 Hlogo Hmode Hok'). cbn zeta in IH.
    destruct (Hleft n3 ltac:(lia)) as ((_ & Er & En) & Eca & Eb & Et).
    destruct (create_loop _ _ _ _ _ _ _) as [[c'|e'] [n4 w4]]; destruct IH as [Hn4 IH]; (split; [lia|]).
    + eapply (created_same u p n n3 n4 w3); try done. lia.
    + destruct IH as ((? & Hr4 & Hn4') & Hc4 & Hb4 & Ht4). split_and!; [|congruence| |].
      * split_and!; [done| |]; simpl in *; congruence.
      * eapply same_but_trans; [exact Eb| |intros k'; apply drawn_mono; lia].
        intros k' Hk'. apply Hb4. intros Hd. apply Hk'. revert Hd. apply drawn_mono; lia.
      * intros Htd Hf. rewrite Ht4; [by apply Et|done|]. by rewrite (Et Htd Hf).
Qed.

(** What [prepare] accepts. *)
Lemma prepare_Ok i p :
  prepare svc i = Ok p ->
  p_mode p = modeOf (in_Mode i) /\ (p_mode p = ModeDynamic \/ p_mode p = ModeDirect)
  /\ p_destination p = TrimSpace (in_Destination i)
  /\ ValidateDestination (s_base svc) (s_schemes svc) (in_Destination i) = None
  /\ p_logo p = in_Logo i /\ p_clientRef p = in_ClientRef i /\ LogoBlobKey (p_styling p) = ""
  /\ (p_mode p = ModeDirect -> len (p_destination p) <= Capacity (styling_ECLevel (p_styling p)))
  /\ (p_mode p = ModeDynamic -> s_base svc <> None)
  /\ (if p_isAlias p then p_shortCode p = NormalizeAlias (in_Alias i) /\ ValidateAlias (p_shortCode p) = None
      else in_Alias i = "").
Proof.
  unfold prepare. destruct (String.eqb (in_UserID i) ""); [done|].
  set (mode := modeOf (in_Mode i)).
  destruct (negb (String.eqb mode ModeDynamic) && negb (String.eqb mode ModeDirect)) eqn:Hm; [done|].
  destruct (String.eqb mode ModeDynamic && bool_decide (s_base svc = None)) eqn:Hb; [done|].
  destruct (MaxClientRefLen <? len (in_ClientRef i)); [done|].
  destruct (ValidateDestination _ _ _) eqn:Hv; [done|].
  set (styling := set_logo _ _ _). cbn zeta.
  destruct (String.eqb mode ModeDirect && _) eqn:Hc; [done|].
  assert (Hmode : mode = ModeDynamic \/ mode = ModeDirect).
  { apply andb_false_iff in Hm as [Hm|Hm]; apply negb_false_iff, String.eqb_eq in Hm; auto. }
  assert (Hbase : mode = ModeDynamic -> s_base svc <> None).
  { intros E. rewrite E in Hb. simpl in Hb. by apply bool_decide_eq_false_1 in Hb. }
  assert (Hcap : mode = ModeDirect -> len (TrimSpace (in_Destination i)) <= Capacity (styling_ECLevel styling)).
  { intros E. rewrite E in Hc. simpl in Hc. by apply Z.ltb_ge in Hc. }
  destruct (String.eqb_spec (in_Alias i) "") as [Ea|Ea].
  - intros [= <-]. by split_and!.
  - destruct (ValidateAlias (NormalizeAlias (in_Alias i))) as [e|] eqn:Hal.
    + by destruct (errors_Is e ErrAliasReserved).
    + intros [= <-]. by split_and!.
Qed.

Lemma Create_quiet i n w :
  store_ok (w_store w) ->
  let '(res, (n', w')) := Create sc svc i (n, w) in
  match res with
  | Err _ => left_alone n n' w w'
  | Ok c => exists p, prepare svc i = Ok p /\ created (in_UserID i) p n n' w w' c
  end.
Proof.
  intros Hok. unfold Create. destruct (prepare svc i) as [p|e] eqn:E; [|by apply left_alone_refl].
  destruct (prepare_Ok _ _ E) as (_ & Hm & _ & _ & _ & _ & Hl & _).
  assert (Hm' : p_mode p <> "") by (by destruct Hm as [->| ->]).
  pose proof (create_loop_quiet (in_UserID i) p (if p_isAlias p then 1%nat else generateAttempts)
    (NewErr "nil") n w Hl Hm' Hok) as H.
  destruct (create_loop _ _ _ _ _ _ _) as [[c|e] [n' w']]; destruct H as [_ H]; [by exists p|done].
Qed.
End create.

Local Open Scope go_scope.

Section owner.
Context `{U : UnicodeTable} `{IP : IPParser} `{RD : Renderer} `{SN : Sniffer}.
Context {DB BL CA : Type} `{ST : CodeStore DB} `{SL : !CodeStoreLaws DB}
  `{BS : BlobStore BL} `{OC : OtterCache CA}.
Notation W := (World DB BL CA).
Context (sc : Sched W) (svc : Service).
Context (rely : forall n w, moves w (sc_others sc n w)).

(** ** Facts about the stored codes that last

    [w'] comes after the good world [w], by requests that keep to the
    discipline. *)
Definition later (w w' : W) : Prop := ok w /\ moves w w'.

Lemma later_refl w : ok w -> later w w.
Proof. by split; [|apply moves_refl]. Qed.
Lemma later_ok w w' : later w w' -> ok w'.
Proof. intros [Hw Hm]. by apply Hm. Qed.
Lemma later_trans u v w : later u v -> later v w -> later u w.
Proof. intros [Hu Hm] [_ Hm']. split; [done|]. by transitivity v. Qed.

(** The code a caller is shown, against the row of the store. *)
Definition shows (c r : Code) : Prop :=
  ShortCode r = ShortCode c /\ IsAlias r = IsAlias c /\ code_UserID r = code_UserID c /\ Mode r = Mode c
  /\ ClientRef r = ClientRef c /\ BlobKey r = BlobKey c /\ (Mode c = ModeDirect -> Destination r = Destination c).

(** The code is one the store holds for [u]. *)
Definition owns (w : W) (u : string) (c : Code) : Prop :=
  code_UserID c = u /\ exists r, rows (w_store w) !! code_ID c = Some r /\ shows c r.
Definition result_owned (w : W) (u : string) (r : result Code) : Prop := forall c, r = Ok c -> owns w u c.
Definition item_owned (w : W) (u : string) (r : BatchResult) : Prop := forall c, b_Code r = Some c -> owns w u c.

Lemma owns_row w u c : rows (w_store w) !! code_ID c = Some c -> code_UserID c = u -> owns w u c.
Proof. intros Hc Hu. split; [done|]. exists c. by split_and!. Qed.

Lemma owns_later w w' u c : later w w' -> owns w u c -> owns w' u c.
Proof.
  intros [Hw Hm] [Hu (r & Hr & Hs)]. split; [done|]. destruct (proj2 (Hm Hw) _ _ Hr) as (r' & Hr' & Hi & _ & Hd).
  exists r'. split; [done|]. unfold shows, same_identity in *. destruct_and!.
  split_and!; try congruence. intros Hmode.
  match goal with H : Mode r = Mode c |- _ => rewrite H in Hd end. rewrite (proj1 (Hd Hmode)). auto.
Qed.
Lemma result_later w w' u r : later w w' -> result_owned w u r -> result_owned w' u r.
Proof. intros Hl H c E. apply (owns_later w); auto. Qed.
Lemma item_later w w' u r : later w w' -> item_owned w u r -> item_owned w' u r.
Proof. intros Hl H c E. apply (owns_later w); auto. Qed.
(** From a world after [w0] the action moves on within the discipline, with a
    result of the kind, judged in the world where it ends. *)
Definition yields {A} (w0 : W) (a : Act W A) (Q : W -> A -> Prop) : Prop := forall n w, later w0 w ->
  let '(x, (_, w')) := a (n, w) in later w w' /\ Q w' x.

Lemma yields_ret {A} w0 (x : A) (Q : W -> A -> Prop) : (forall w, later w0 w -> Q w x) -> yields w0 (mret x) Q.
Proof. intros H n w Hw. split; [apply later_refl; by eapply later_ok|auto]. Qed.

Lemma yields_bind {A B} w0 (a : Act W A) (k : A -> Act W B) Q Q' :
  yields w0 a Q -> (forall w1 x, later w0 w1 -> Q w1 x -> yields w1 (k x) Q') -> yields w0 (a ≫= k) Q'.
Proof.
  intros Ha Hk n w Hw. specialize (Ha n w Hw). rewrite bind_step. destruct (a (n, w)) as [x [n1 w1]].
  destruct Ha as [Hl Hx]. specialize (Hk w1 x (later_trans _ _ _ Hw Hl) Hx n1 w1 (later_refl _ (later_ok _ _ Hl))).
  destruct (k x (n1, w1)) as [y [n2 w2]]. destruct Hk as [Hl' Hy]. split; [by eapply later_trans|done].
Qed.

(** What is safe, and what it returns, shown apart. *)
Lemma yields_guards {A} w0 (a : Act W A) (Q : W -> A -> Prop) :
  guards ok a -> runs ok a (fun x w => Q w x) -> yields w0 a Q.
Proof.
  intros Ha Hq n w Hw. assert (Hok := later_ok _ _ Hw). specialize (Ha n w Hok). specialize (Hq n w Hok).
  destruct (a (n, w)) as [x [n' w']]. destruct Ha as [_ Hm]. done.
Qed.
Lemma yields_gives {A} w0 (a : Act W A) (Q : A -> Prop) : guards ok a -> gives a Q -> yields w0 a (fun _ => Q).
Proof.
  intros Ha Hg. apply yields_guards; [done|]. intros n w _. specialize (Hg (n, w)). by destruct (a (n, w)) as [x [n' w']].
Qed.
Lemma yields_then {A B} w0 (a : Act W A) (k : A -> Act W B) Q :
  guards ok a -> (forall w1 x, later w0 w1 -> yields w1 (k x) Q) -> yields w0 (a ≫= k) Q.
Proof. intros Ha Hk. eapply yields_bind; [apply yields_gives; [done|apply gives_any]|auto]. Qed.
Lemma yields_runs {A} (a : Act W A) (Q : W -> A -> Prop) :
  (forall w0, yields w0 a Q) -> runs ok a (fun x w => ok w /\ Q w x).
Proof.
  intros H n w Hw. specialize (H w n w (later_refl w Hw)). destruct (a (n, w)) as [x [n' w']].
  destruct H as [Hl Hq]. split; [by eapply later_ok|done].
Qed.

Lemma yields_read {A} w0 (f : Env -> DB -> A) (Q : W -> A -> Prop) :
  (forall env w, ok w -> Q w (f env (w_store w))) -> yields w0 (ask_store sc f) Q.
Proof.
  intros Hf. apply yields_guards; [apply guards_ask; [done|apply stable_ok]|]. intros n w Hw. apply Hf. by apply (rely n w Hw).
Qed.
Lemma yields_store {A} w0 (f : Env -> DB -> A * DB) (Q : W -> A -> Prop) : guards ok (on_store sc f) ->
  (forall env w, ok w -> let '(x, s) := f env (w_store w) in Q (Build_World s (w_blob w) (w_cache w)) x) ->
  yields w0 (on_store sc f) Q.
Proof.
  intros Hg Hf. apply yields_guards; [done|]. intros n w Hw. assert (Hw' : ok (sc_others sc n w)) by by apply (rely n w Hw).
  unfold on_store, call. specialize (Hf (sc_env sc n) _ Hw'). by destruct (f _ _).
Qed.

Lemma yields_try_code {B} w0 u (a : Act W (result Code)) (k : Code -> Act W (result B)) (Q : W -> result B -> Prop) :
  yields w0 a (fun w => result_owned w u) -> (forall w e, Q w (Err e)) ->
  (forall w1 c, later w0 w1 -> owns w1 u c -> yields w1 (k c) Q) -> yields w0 (try a k) Q.
Proof.
  intros Ha He Hk. eapply yields_bind; [done|]. intros w1 [c|e] Hl Hc; [by apply Hk, Hc|]. by apply yields_ret.
Qed.

Lemma yields_Get w0 id u : yields w0 (Get sc id u) (fun w => result_owned w u).
Proof.
  apply yields_read. intros env w Hw c E. destruct (GetCodeByID_Ok _ _ _ _ _ Hw E) as [Hc Hu]. apply owns_row; [|done].
  by rewrite (rows_id _ _ _ Hw Hc).
Qed.

Lemma yields_List w0 f : yields w0 (List_ sc f) (fun w r => forall out next, r = Ok (out, next) -> Forall (owns w (f_UserID f)) out).
Proof.
  apply yields_read. intros env w Hw out next E. apply (ListCodes_Ok _ _ _ _ _ Hw) in E.
  eapply Forall_impl; [done|]. intros c [? ?]. by apply owns_row.
Qed.

(** ** Creation *)
Definition made_for (u : string) (r : result Code) : Prop := forall c, r = Ok c -> code_UserID c = u.

Lemma gives_store_image u id k p st png written : gives (store_image sc u id k p st png written) (made_for u).
Proof.
  unfold store_image. apply gives_then. intros [etag|e].
  - apply gives_then. intros now. apply gives_ret. by intros c [= <-].
  - apply gives_then. intros _. by apply gives_ret.
Qed.

Lemma gives_materialise u id k p : gives (materialise sc svc u id k p) (made_for u).
Proof.
  unfold materialise, try. apply gives_then. intros [[png eff]|e]; [|by apply gives_ret].
  destruct (p_logo p); [apply gives_store_image|]. apply gives_then. intros [x|e]; [apply gives_store_image|by apply gives_ret].
Qed.

Lemma stored_shows c r o : stored_for c r -> stored_for c o -> shows o r.
Proof. unfold stored_for, shows. intros H H'. destruct_and!. split_and!; congruence. Qed.

Lemma CreateCodes_owned u env cs w :
  Forall (fun c => code_UserID c = u) cs -> ok w ->
  let '(r, s) := st_CreateCodes env cs (w_store w) in
  forall out, r = Ok out -> Forall (owns (Build_World s (w_blob w) (w_cache w)) u) out.
Proof.
  intros Hcs Hs. destruct (st_CreateCodes env cs (w_store w)) as [[out|e] s'] eqn:E; [|done]. intros _ [= <-].
  destruct (CreateCodes_Ok _ _ _ _ _ Hs E) as (Hs' & Hlen & Hrows & _).
  apply Forall_lookup. intros i o Ho. destruct (cs !! i) as [c|] eqn:Ec.
  - destruct (Hrows i c Ec) as (o' & r & Ho' & _ & Hr & Hc & _ & Hf & _). rewrite Ho in Ho'. injection Ho' as <-.
    pose proof (stored_shows _ _ _ Hc Hf) as Hsh. destruct Hf as (Ei & _ & _ & Eu & _). split.
    + rewrite Eu. rewrite Forall_lookup in Hcs. by apply (Hcs i).
    + exists r. split; [|done]. simpl. by rewrite Ei.
  - apply lookup_lt_Some in Ho. apply lookup_ge_None in Ec. lia.
Qed.

Lemma yields_CreateCode w0 u c : code_UserID c = u ->
  yields w0 (on_store sc (fun env s => st_CreateCode env c s)) (fun w => result_owned w u).
Proof.
  intros Hc. apply yields_store; [by apply guards_CreateCode|]. intros env w Hw. rewrite CreateCode_batch.
  pose proof (CreateCodes_owned u env [c] w ltac:(by constructor) Hw) as Ho.
  destruct (st_CreateCodes env [c] (w_store w)) as [[out|e] s'] eqn:E; [|by intros d [=]].
  destruct (CreateCodes_Ok _ _ _ _ _ Hw E) as (_ & Hlen & _). destruct out as [|o [|]]; try done.
  intros d [= <-]. specialize (Ho [o] eq_refl). by apply Forall_cons in Ho as [? _].
Qed.

Lemma yields_Create w0 i : yields w0 (Create sc svc i) (fun w => result_owned w (in_UserID i)).
Proof.
  unfold Create. destruct (prepare svc i) as [p|e]; [|by apply yields_ret].
  generalize (NewErr "nil") as last. generalize (if p_isAlias p then 1%nat else generateAttempts) as n. intros n. revert w0.
  induction n as [|n IH]; intros w0 last; cbn [create_loop]; [by apply yields_ret|].
  apply yields_then; [apply guards_choose; [done|apply stable_ok]|]. intros w1 k _.
  apply yields_then; [apply guards_env; [done|apply stable_ok]|]. intros w2 id _. unfold try.
  eapply yields_bind; [apply yields_gives; [apply guards_materialise; [done|apply stable_ok]|apply gives_materialise]|].
  intros w3 [c|e] _ Hc; [|by apply yields_ret]. eapply yields_bind; [by apply (yields_CreateCode w3 (in_UserID i)), Hc|].
  intros w4 [c'|e] _ Hc'.
  - apply yields_then; [apply guards_Invalidate; [done|apply stable_ok]|]. intros w5 _ Hl. apply yields_ret.
    intros w6 Hl'. apply (result_later w4); [by eapply later_trans|done].
  - apply yields_then; [apply guards_removeBlobs; [done|apply stable_ok]|]. intros w5 _ _.
    destruct (negb _); [by apply yields_ret|]. destruct (p_isAlias p); [by apply yields_ret|apply IH].
Qed.

(** ** Updates

    Their results are read back at the end, so it is enough that the store
    stays good on the way. *)
Definition keeps {A} (a : Act W A) (Q : W -> A -> Prop) : Prop := runs ok a (fun x w => ok w /\ Q w x).

Lemma keeps_return {A} (x : A) (Q : W -> A -> Prop) : (forall w, Q w x) -> keeps (mret x) Q.
Proof. by intros H n w Hw. Qed.
Lemma keeps_bind {A B} (a : Act W A) (k : A -> Act W B) Q Q' :
  keeps a Q -> (forall x, keeps (k x) Q') -> keeps (a ≫= k) Q'.
Proof. intros Ha Hk. eapply runs_bind; [done|]. intros x n w [Hw _]. by apply Hk. Qed.
Lemma keeps_guards {A B} (a : Act W A) (k : A -> Act W B) Q : guards ok a -> (forall x, keeps (k x) Q) -> keeps (a ≫= k) Q.
Proof.
  intros Ha Hk. apply (keeps_bind a k (fun _ _ => True)); [|done]. intros n w Hw. specialize (Ha n w Hw).
  destruct (a (n, w)) as [x [n' w']]. by destruct Ha.
Qed.
Lemma keeps_store {A B} (f : Env -> DB -> A * DB) (k : A -> Act W B) Q :
  (forall env s, store_ok s -> store_ok (f env s).2) -> (forall x, keeps (k x) Q) -> keeps (on_store sc f ≫= k) Q.
Proof.
  intros Hf Hk. apply (keeps_bind _ _ (fun _ _ => True)); [|done]. intros n w Hw. unfold on_store, call.
  assert (Hw' : ok (sc_others sc n w)) by by apply (rely n w Hw). specialize (Hf (sc_env sc n) _ Hw'). by destruct (f _ _).
Qed.
Lemma keeps_Get id u : keeps (Get sc id u) (fun w => result_owned w u).
Proof. apply yields_runs. intros w0. apply yields_Get. Qed.
Lemma keeps_try_Get {B} id u (k : Code -> Act W (result B)) (Q : W -> result B -> Prop) :
  (forall w e, Q w (Err e)) -> (forall c, keeps (k c) Q) -> keeps (try (Get sc id u) k) Q.
Proof. intros He Hk. eapply keeps_bind; [apply keeps_Get|]. intros [c|e]; [apply Hk|by apply keeps_return]. Qed.

Lemma keeps_update_loop id u d v n first cur :
  keeps (update_loop sc id u d v first n cur) (fun w => result_owned w u).
Proof.
  revert first cur. induction n as [|n IH]; intros first cur; cbn [update_loop]; [by apply keeps_return|].
  unfold try at 1. apply (keeps_bind _ _ (fun _ _ => True)).
  { destruct first; [by apply keeps_return|]. intros k w Hw. pose proof (keeps_Get id u k w Hw) as H.
    destruct (Get sc id u (k, w)) as [x [k' w']]. by destruct H. }
  intros [c|e]; [|by apply keeps_return]. cbv zeta. apply keeps_store.
  { intros env s Hs. destruct (st_UpdateDestination env id u d (if v <=? 0 then Version c else v) s) as [[[]|e] s'] eqn:E.
    - destruct (UpdateDestination_Ok _ _ _ _ _ _ _ Hs E) as (? & ? & ? & ? & ? & ? & ? & _). done.
    - by destruct (UpdateDestination_Err_same _ _ _ _ _ _ _ _ Hs E). }
  intros [[]|e].
  - apply keeps_guards; [apply guards_Invalidate; [done|apply stable_ok]|]. intros _. apply keeps_Get.
  - destruct (negb _); [by apply keeps_return|]. destruct (_ || _); [|by apply IH].
    apply keeps_try_Get; [done|]. intros latest. by apply keeps_return.
Qed.

Lemma keeps_yields {A} w0 (a : Act W A) Q : guards ok a -> keeps a Q -> yields w0 a Q.
Proof.
  intros Ha Hk. apply yields_guards; [done|]. eapply runs_conseq; [exact Hk|done|]. by intros x w [_ ?].
Qed.

Lemma yields_UpdateDestination w0 id u d v : yields w0 (svc_UpdateDestination sc svc id u d v) (fun w => result_owned w u).
Proof.
  apply keeps_yields; [by apply guards_svc_UpdateDestination|]. apply keeps_try_Get; [done|]. intros c.
  destruct (String.eqb _ _); [by apply keeps_return|]. destruct (ValidateDestination _ _ _); [by apply keeps_return|].
  by apply keeps_update_loop.
Qed.

Lemma yields_SetState w0 id u st : yields w0 (SetState sc id u st) (fun w => result_owned w u).
Proof.
  apply keeps_yields; [by apply guards_SetState|]. apply keeps_try_Get; [done|]. intros c.
  destruct (String.eqb _ _); [by apply keeps_return|]. apply keeps_store.
  { intros env s Hs. destruct (st_SetCodeState env id u st s) as [[[]|e] s'] eqn:E.
    - destruct (SetCodeState_Ok _ _ _ _ _ _ Hs E) as (? & ? & ? & ? & ? & ? & ? & _). done.
    - by destruct (SetCodeState_Err_same _ _ _ _ _ _ _ Hs E). }
  intros [[]|e]; [|by apply keeps_return]. apply yields_runs. intros w1.
  apply (yields_try_code w1 u); [apply yields_Get|done|]. intros w2 c' _ Hc'.
  apply yields_then; [apply guards_Invalidate; [done|apply stable_ok]|]. intros w3 _ Hl. apply yields_ret.
  intros w4 Hl' x [= <-]. apply (owns_later w2); [by eapply later_trans|done].
Qed.

(** ** Batches *)
Lemma Forall_insert {A} (P : A -> Prop) (i : nat) x l : Forall P l -> P x -> Forall P (<[i := x]> l).
Proof. intros Hl Hx. apply Forall_lookup. intros j y Hy. apply list_lookup_insert_Some in Hy as [(_ & <- & _)|[_ Hy]]; [done|]. rewrite Forall_lookup in Hl. by apply (Hl j). Qed.

Definition items_owned (w : W) (u : string) : list BatchResult -> Prop := Forall (item_owned w u).
Lemma items_later w w' u rs : later w w' -> items_owned w u rs -> items_owned w' u rs.
Proof. intros Hl Hrs. eapply Forall_impl; [exact Hrs|]. intros r. by apply item_later. Qed.

(** An item with no code in it. *)
Lemma items_insert w w' u n r rs :
  later w w' -> items_owned w u rs -> item_owned w' u r -> items_owned w' u (<[n := r]> rs).
Proof. intros Hl Hrs Hr. apply Forall_insert; [by apply (items_later w)|done]. Qed.

Lemma yields_check_ref w0 u n i seen :
  yields w0 (check_ref sc u n i seen) (fun w p => forall r, p.1 = Some r -> item_owned w u r).
Proof.
  unfold check_ref. destruct (_ && _); [|by apply yields_ret]. destruct (bool_decide _); [apply yields_ret; by intros w _ r [= <-]|].
  eapply yields_bind.
  { apply (yields_read w0 _ (fun w => result_owned w u)). intros env w Hw c E.
    destruct (GetCodeByClientRef_Ok _ _ _ _ _ Hw E) as (? & ? & _). by apply owns_row. }
  intros w1 [c|e] _ Hc.
  - destruct (_ && _); apply yields_ret; intros w2 Hl r [= <-]; [|done]. intros c' [= <-]. apply (owns_later w1); [done|by apply Hc].
  - destruct (errors_Is e ErrNotFound); apply yields_ret; [done|]. by intros w2 _ r [= <-].
Qed.

Lemma yields_check_alias w0 u n p seen :
  yields w0 (check_alias sc n p seen) (fun w v => match v.1 with VDone r => item_owned w u r | VPending _ => True end).
Proof.
  unfold check_alias. destruct (p_isAlias p); [|by apply yields_ret]. destruct (bool_decide _); [by apply yields_ret|].
  eapply yields_bind; [by apply (yields_read w0 _ (fun _ _ => True))|]. intros w1 [[]|e] _ _; by apply yields_ret.
Qed.

Lemma yields_scan_items w0 u n items st : items_owned w0 u (sn_results st) ->
  yields w0 (scan_items sc svc u n items st) (fun w st => items_owned w u (sn_results st)).
Proof.
  revert w0 n st. induction items as [|i items IH]; intros w0 n st Hst; cbn [scan_items].
  { apply yields_ret. intros w Hl. by apply (items_later w0). }
  apply (yields_bind _ _ _ (fun w st => items_owned w u (sn_results st))); [|intros w1 st' _ Hst'; by apply IH]. unfold scan_item.
  eapply yields_bind; [apply yields_check_ref|]. intros w1 [[r|] seen] Hl Hr.
  { apply yields_ret. intros w Hl'. apply (items_insert w0); [by eapply later_trans|done|]. by apply (item_later w1), Hr. }
  destruct (prepare svc _) as [p|e].
  2: { apply yields_ret. intros w Hl'. apply (items_insert w0); [by eapply later_trans|done|done]. }
  eapply yields_bind; [apply (yields_check_alias w1 u)|]. intros w2 [[r|p'] seen'] Hl' Hv; apply yields_ret; intros w Hw; simpl in *.
  - apply (items_insert w0); [eauto using later_trans|done|]. by apply (item_later w2).
  - apply (items_later w0); [eauto using later_trans|done].
Qed.

Definition rendered_for (u : string) (l : list (option Code)) : Prop := Forall (fun o => forall c, o = Some c -> code_UserID c = u) l.

Lemma yields_render_items w0 u pending order rs rendered :
  items_owned w0 u rs -> rendered_for u rendered ->
  yields w0 (render_items sc svc u pending order rs rendered) (fun w p => items_owned w u p.1 /\ rendered_for u p.2).
Proof.
  revert w0 rs rendered. induction order as [|j order IH]; intros w0 rs rendered Hrs Hre; cbn [render_items].
  { apply yields_ret. intros w Hl. split; [by apply (items_later w0)|done]. }
  destruct (pending !! j) as [[idx p]|]; [|by apply IH].
  apply yields_then; [apply guards_choose; [done|apply stable_ok]|]. intros w1 k Hl1.
  apply yields_then; [apply guards_env; [done|apply stable_ok]|]. intros w2 id Hl2.
  eapply yields_bind; [apply yields_gives; [apply guards_materialise; [done|apply stable_ok]|apply gives_materialise]|].
  intros w3 [c|e] Hl3 Hc; apply IH.
  - apply (items_later w0); [eauto using later_trans|done].
  - apply Forall_insert; [done|]. intros c' [= <-]. by apply Hc.
  - apply (items_insert w0); [eauto using later_trans|done|done].
  - done.
Qed.

Lemma to_insert_for u pending rendered : rendered_for u rendered -> Forall (fun c => code_UserID c = u) (to_insert pending rendered).*2.
Proof.
  intros Hre. unfold to_insert. apply Forall_fmap, Forall_forall. intros [idx c] Hin.
  apply list_elem_of_omap in Hin as ([[idx' p] oc] & Hz & E). destruct oc as [c'|]; [|done]. injection E as <- <-. simpl.
  apply elem_of_zip_r in Hz. unfold rendered_for in Hre. rewrite Forall_forall in Hre. by apply (Hre _ Hz).
Qed.

Lemma fold_owned {A} w u (f : A -> nat * BatchResult) (l : list A) rs :
  Forall (fun a => item_owned w u (f a).2) l -> items_owned w u rs ->
  items_owned w u (foldl (fun rs a => <[(f a).1 := (f a).2]> rs) rs l).
Proof. intros Hl. revert rs. induction Hl as [|a l Ha Hl IH]; intros rs Hrs; [done|]. by apply IH, Forall_insert. Qed.

Lemma blank_owned {A} w u (f : nat -> BatchResult) (items : list A) :
  (forall i, b_Code (f i) = None) -> items_owned w u (imap (fun i _ => f i) items).
Proof.
  intros Hf. apply Forall_lookup. intros i r Hi. rewrite list_lookup_imap in Hi.
  destruct (items !! i); [|done]. injection Hi as <-. unfold item_owned. by rewrite Hf.
Qed.

Lemma yields_CreateBatch w0 u items order : yields w0 (CreateBatch sc svc u items order) (fun w => items_owned w u).
Proof.
  unfold CreateBatch. destruct (String.eqb u ""); [apply yields_ret; intros w _; by apply (blank_owned w u (fun i => failed i _))|].
  eapply yields_bind; [apply (yields_scan_items w0 u);
    by apply (blank_owned w0 u (fun i => {| b_Index := i; b_Status := BatchError; b_Code := None; b_Err := None |}))|].
  intros w1 st _ Hst. eapply yields_bind; [apply (yields_render_items w1 u); [done|apply Forall_replicate; by intros c]|].
  intros w2 [rs rendered] _ [Hrs Hre]. simpl in Hrs, Hre. pose proof (to_insert_for u (sn_pending st) _ Hre) as Hins.
  destruct (to_insert _ _) as [|x ins] eqn:Ei; [apply yields_ret; intros w Hl; by apply (items_later w2)|].
  rewrite <- Ei in *. clear Ei x ins. eapply yields_bind.
  { apply (yields_store w2 _ (fun w r => forall out, r = Ok out -> Forall (owns w u) out)); [by apply guards_CreateCodes|].
    intros env w Hw. by apply CreateCodes_owned. }
  intros w3 [out|e] Hl3 Hout.
  - apply yields_then; [apply guards_invalidate_all; [done|apply stable_ok]|]. intros w4 _ Hl4. apply yields_ret. intros w5 Hl5.
    assert (Hl35 : later w3 w5) by eauto using later_trans.
    apply (fold_owned w5 u (fun p => (p.1, {| b_Index := p.1; b_Status := BatchCreated; b_Code := Some p.2; b_Err := None |})));
      [|apply (items_later w2); [eauto using later_trans|done]].
    specialize (Hout out eq_refl). apply Forall_forall. intros [i c] Hic%elem_of_zip_r c' [= <-]. rewrite Forall_forall in Hout.
    apply (owns_later w3); [done|by apply Hout].
  - apply yields_then; [apply guards_remove_all; [done|apply stable_ok]|]. intros w4 _ Hl4. apply yields_ret. intros w5 Hl5.
    apply (fold_owned w5 u (fun p => (p.1, failed p.1 (lost_race e))));
      [by apply Forall_forall|apply (items_later w2); [eauto using later_trans|done]].
Qed.
End owner.
