(* ===== verification/ResolveFacts.v ===== *)
(** * The resolver cache is coherent with the store

    While requests run one at a time, every mutation the service makes is
    visible on the very next scan: the cache never answers with anything but
    the current row.  The scans considered are those of a trimmed short code;
    [Resolve_poisoned] shows what an untrimmed one does. *)
From Stdlib Require Import Ascii String.
From S2P Require Import GoLib Act GoUrl Domain Shortcode Destination QrPolicy Blob BlobKeys Rollup MemStore MemStoreFacts Store Cache Codes CreateFacts.
Local Open Scope string_scope.
Local Open Scope Z_scope.

Section coherence.
Context `{U : UnicodeTable} `{IP : IPParser} `{RD : Renderer} `{SN : Sniffer}.
Context {DB BL CA : Type} `{ST : CodeStore DB} `{SL : !CodeStoreLaws DB}
  `{BS : BlobStore BL} `{BLaws : !BlobLaws BL} `{OC : OtterCache CA} `{OL : !OtterLaws CA}.
Notation W := (World DB BL CA).

(** What an entry under [k] must say. *)
Definition entry_ok (s : DB) (k : string) (r : Resolution) : Prop :=
  (r = not_found /\ names s !! k = None)
  \/ exists c, names s !! k = Some (code_ID c) /\ rows s !! code_ID c = Some c /\ r = resolution_of c.

Record coherent (w : W) : Prop := {
  co_ok : store_ok (w_store w);
  co_keys id c : rows (w_store w) !! id = Some c -> is_key (ShortCode c) = true;
  co_entries k r t : entries (w_cache w) !! k = Some (r, t) -> entry_ok (w_store w) k r;
}.

Lemma cacheKey_key s : is_key s = true -> cacheKey s = s.
Proof. intros H. unfold cacheKey. by rewrite is_key_TrimSpace, is_key_ToLower. Qed.

(** The cache may lose entries at any time. *)
Lemma coherent_evict w c :
  coherent w -> entries c ⊆ entries (w_cache w) -> coherent (Build_World (w_store w) (w_blob w) c).
Proof.
  intros [Hok Hk He] Hsub. split; [done|done|]. intros k r t Hr. apply (He k r t).
  by eapply lookup_weaken.
Qed.

Lemma coherent_blob w b : coherent w -> coherent (Build_World (w_store w) b (w_cache w)).
Proof. intros [Hok Hk He]. by split. Qed.

Lemma coherent_same_db w w' :
  coherent w -> same_db w w' -> entries (w_cache w') ⊆ entries (w_cache w) -> coherent w'.
Proof.
  intros [Hok Hk He] (Hok' & Hr & Hn) Hsub. split; [done|by rewrite Hr|]. intros k r t Hr'.
  unfold entry_ok. rewrite Hr, Hn. apply (He k r t). by eapply lookup_weaken.
Qed.

(** Changing one row, with its entry dropped. *)
Lemma coherent_change w s b c id row row' :
  coherent w -> store_ok s -> rows (w_store w) !! id = Some row ->
  rows s = <[id := row']> (rows (w_store w)) -> names s = names (w_store w) ->
  ShortCode row' = ShortCode row ->
  entries c ⊆ entries (w_cache w) -> entries c !! ShortCode row = None ->
  coherent (Build_World s b c).
Proof.
  intros [Hok Hk He] Hs Hrow Hr Hn Hsc Hsub Hnone. split; simpl; [done| |].
  - intros id' d. rewrite Hr, lookup_insert. case_decide as E; [|apply Hk].
    intros [= <-]. rewrite Hsc. by apply (Hk id).
  - intros k r t Hr'. assert (Hold := He k r t (lookup_weaken _ _ _ _ Hr' Hsub)).
    unfold entry_ok in *. rewrite Hn. destruct Hold as [Hold|(d & Hn' & Hd & ->)]; [by left|].
    right. exists d. split; [done|]. split; [|done]. rewrite Hr, lookup_insert_ne; [done|].
    intros ->. assert (d = row) as -> by congruence.
    destruct (names_row _ _ _ Hok Hn') as (d' & Hd' & Hk'). assert (d' = row) as -> by congruence.
    congruence.
Qed.

(** Adding one row, with the entry of its short code dropped. *)
Lemma coherent_add w s b c id k row :
  coherent w -> store_ok s -> rows (w_store w) !! id = None -> rows s !! id = Some row ->
  (forall id', id' <> id -> rows s !! id' = rows (w_store w) !! id') ->
  (forall k', k' <> k -> names s !! k' = names (w_store w) !! k') ->
  ShortCode row = k -> is_key k = true ->
  entries c ⊆ entries (w_cache w) -> entries c !! k = None ->
  coherent (Build_World s b c).
Proof.
  intros [Hok Hk He] Hs Hnew Hrow Hr Hn Hsc Hkey Hsub Hnone. split; simpl; [done| |].
  - intros id' d Hd. destruct (decide (id' = id)) as [->|Hne]; [congruence|].
    rewrite Hr in Hd by done. by apply (Hk id').
  - intros k' r t Hr'. assert (Hne : k' <> k) by congruence.
    assert (Hold := He k' r t (lookup_weaken _ _ _ _ Hr' Hsub)).
    unfold entry_ok in *. rewrite Hn by done. destruct Hold as [Hold|(d & Hn' & Hd & ->)]; [by left|].
    right. exists d. split; [done|]. split; [|done]. rewrite Hr; [done|]. congruence.
Qed.

(** Adding a batch of rows, with the entries of their short codes dropped. *)
Lemma coherent_add_all w env s b c cs out :
  coherent w -> st_CreateCodes env cs (w_store w) = (Ok out, s) ->
  Forall (fun x => is_key (ShortCode x) = true) cs ->
  entries c ⊆ entries (w_cache w) -> (forall x, x ∈ cs -> entries c !! ShortCode x = None) ->
  coherent (Build_World s b c).
Proof.
  intros [Hok Hk He] E Hkeys Hsub Hnone. rewrite Forall_forall in Hkeys.
  destruct (CreateCodes_Ok _ _ _ _ _ Hok E) as (Hok' & _ & Hnew & Hold & Hnames). split; simpl; [done| |].
  - intros id d Hd. destruct (decide (id ∈ code_ID <$> cs)) as [Hin|Hn]; [|rewrite Hold in Hd by done; by apply (Hk id)].
    apply list_elem_of_fmap in Hin as (x & -> & Hx). destruct (list_elem_of_lookup_1 _ _ Hx) as [i Hi].
    destruct (Hnew i x Hi) as (o & r & _ & _ & Hr & Hs & _). assert (d = r) as -> by congruence.
    unfold stored_for in Hs. destruct_and!. match goal with H : ShortCode r = _ |- _ => rewrite H end.
    rewrite is_key_ToLower; by apply Hkeys.
  - intros k r t Hr. assert (Hnk : k ∉ (fun x => ToLower (ShortCode x)) <$> cs).
    { intros (x & -> & Hx)%list_elem_of_fmap. rewrite is_key_ToLower in Hr by by apply Hkeys. specialize (Hnone x Hx). congruence. }
    assert (Hb := He k r t (lookup_weaken _ _ _ _ Hr Hsub)). unfold entry_ok in *. rewrite Hnames by done.
    destruct Hb as [Hb|(d & Hn & Hd & ->)]; [by left|]. right. exists d. split; [done|]. split; [|done].
    rewrite Hold; [done|]. intros (x & Ex & Hx)%list_elem_of_fmap. destruct (list_elem_of_lookup_1 _ _ Hx) as [i Hi].
    destruct (Hnew i x Hi) as (o & r' & _ & Habs & _). rewrite <- Ex in Habs. congruence.
Qed.

(** Answering from the cache or filling it. *)
Lemma coherent_fill w env sc r :
  coherent w -> entry_ok (w_store w) (cacheKey sc) r ->
  coherent (Build_World (w_store w) (w_blob w) (cache_Set env sc r (w_cache w))).
Proof.
  intros [Hok Hk He] Hr. split; [done|done|]. simpl. intros k r' t Hr'.
  unfold cache_Set in Hr'. apply Set_entries in Hr' as [[_ Hold]|(-> & Heq & _)]; [by eapply He|].
  simpl in Heq. by subst r'.
Qed.

Section requests.
Context (sc : Sched W) (svc : Service) (Hquiet : quiet sc).

(** The current answer to a scan. *)
Definition current (w : W) (shortCode : string) : Resolution :=
  match names (w_store w) !! ToLower shortCode with
  | Some id => from_option resolution_of not_found (rows (w_store w) !! id)
  | None => not_found
  end.

Lemma entry_current w sh r : entry_ok (w_store w) (ToLower sh) r -> r = current w sh.
Proof.
  unfold current. intros [[-> ->]|(c & -> & Hc & ->)]; [done|]. by rewrite Hc.
Qed.

Lemma Resolve_coherent sh n w :
  coherent w -> TrimSpace sh = sh ->
  let '(res, (_, w')) := Resolve sc sh (n, w) in
  coherent w' /\ w_store w' = w_store w /\ forall r, res = Ok r -> r = current w sh.
Proof.
  intros Hco Htrim. assert (Hkey : cacheKey sh = ToLower sh) by (unfold cacheKey; by rewrite Htrim).
  unfold Resolve. rewrite bind_step, on_cache_quiet by done. unfold cache_Get.
  destruct (oc_GetIfPresent (sc_env sc n) (cacheKey sh) (w_cache w)) as [[r|] c] eqn:Eg.
  - pose proof (Get_keeps (sc_env sc n) (cacheKey sh) (w_cache w)) as Hsub. rewrite Eg in Hsub.
    apply Get_hit in Eg as (t & Hr & _). split; [by apply coherent_evict|]. split; [done|].
    intros r' [= <-]. apply entry_current. rewrite <- Hkey. by eapply (co_entries _ Hco).
  - pose proof (Get_keeps (sc_env sc n) (cacheKey sh) (w_cache w)) as Hsub. rewrite Eg in Hsub.
    assert (Hco1 : coherent (Build_World (w_store w) (w_blob w) c)) by by apply coherent_evict.
    rewrite bind_step, ask_store_quiet by done. cbn [w_store].
    destruct (st_GetCodeByShortCode (sc_env sc (S n)) sh (w_store w)) as [row|e] eqn:E.
    + apply (GetCodeByShortCode_Ok _ _ _ _ (co_ok _ Hco)) in E as [Hn Hr].
      assert (Hsc : ShortCode row = ToLower sh).
      { destruct (names_row _ _ _ (co_ok _ Hco) Hn) as (d & Hd & <-). congruence. }
      assert (He : entry_ok (w_store w) (ToLower sh) (resolution_of row)) by (right; eauto).
      rewrite bind_step, on_cache_quiet by done. split; [|split; [done|]].
      * apply (coherent_fill (Build_World (w_store w) (w_blob w) c)); [done|].
        rewrite cacheKey_key, Hsc by by apply (co_keys _ Hco _ _ Hr). done.
      * intros r [= <-]. by apply entry_current.
    + destruct (errors_Is e ErrNotFound) eqn:Ee; [|done].
      assert (Hn := GetCodeByShortCode_NotFound _ _ _ _ (co_ok _ Hco) E Ee).
      assert (He : entry_ok (w_store w) (ToLower sh) not_found) by by left.
      rewrite bind_step, on_cache_quiet by done. split; [|split; [done|]].
      * apply (coherent_fill (Build_World (w_store w) (w_blob w) c)); [done|]. by rewrite Hkey.
      * intros r [= <-]. by apply entry_current.
Qed.

(** An alias whose normal form is stable, as lower-casing and trimming make
    it for every text. *)
Definition stable_alias (i : CreateInput) : Prop :=
  NormalizeAlias (NormalizeAlias (in_Alias i)) = NormalizeAlias (in_Alias i).

Lemma prepared_key i p :
  stable_alias i -> prepare svc i = Ok p -> p_isAlias p = true -> is_key (p_shortCode p) = true.
Proof.
  intros Hst Hp Ha. destruct (prepare_Ok _ _ _ Hp) as (_ & _ & _ & _ & _ & _ & _ & _ & _ & H).
  rewrite Ha in H. destruct H as [-> Hv]. rewrite <- Hst. by apply alias_ok_key.
Qed.

Lemma Create_coherent i n w :
  coherent w -> stable_alias i -> coherent (Create sc svc i (n, w)).2.2.
Proof.
  intros Hco Hst. pose proof (Create_quiet sc svc Hquiet i n w (co_ok _ Hco)) as H.
  destruct (Create _ _ _ _) as [[c|e] [n' w']]; simpl.
  - destruct H as (p & Hp & [Hok (id & k & r & Hrow) Hsub]). destruct_and!.
    assert (Hkey : is_key k = true).
    { destruct (p_isAlias p) eqn:Ha; [|done]. subst k. by eapply prepared_key. }
    rewrite (is_key_ToLower k Hkey) in *. rewrite (cacheKey_key k Hkey) in *.
    destruct w' as [s b ca]. eapply (coherent_add w s b ca id k r); eauto; congruence.
  - destruct H as (Hsame & Hc & _). apply (coherent_same_db w); [done|done|by rewrite Hc].
Qed.

(** A read of a code, when nobody else runs. *)
Lemma Get_quiet id u n w : Get sc id u (n, w) = (st_GetCodeByID (sc_env sc n) id u (w_store w), (S n, w)).
Proof. unfold Get. by rewrite ask_store_quiet. Qed.

(** One row changed and its entry dropped; or nothing changed. *)
Record row_changed (id : string) (c c' : Code) (w w' : W) : Prop := {
  rc_ok : store_ok (w_store w');
  rc_row : rows (w_store w) !! id = Some c;
  rc_rows : rows (w_store w') = <[id := c']> (rows (w_store w));
  rc_names : names (w_store w') = names (w_store w);
  rc_blob : w_blob w' = w_blob w;
  rc_sub : entries (w_cache w') ⊆ entries (w_cache w);
  rc_entry : entries (w_cache w') !! cacheKey (ShortCode c) = None;
}.

Definition unchanged (w w' : W) : Prop :=
  same_db w w' /\ w_blob w' = w_blob w /\ w_cache w' = w_cache w.

Lemma unchanged_refl w : store_ok (w_store w) -> unchanged w w.
Proof. intros H. by repeat split. Qed.

Lemma row_changed_coherent id c c' w w' :
  coherent w -> row_changed id c c' w w' -> ShortCode c' = ShortCode c -> coherent w'.
Proof.
  intros Hco [] Hs. destruct w' as [s b ca]. simpl in *.
  rewrite (cacheKey_key _ (co_keys _ Hco _ _ rc_row0)) in rc_entry0.
  by eapply (coherent_change w s b ca id c c').
Qed.

Lemma unchanged_coherent w w' : coherent w -> unchanged w w' -> coherent w'.
Proof. intros Hco (Hs & _ & Hc). apply (coherent_same_db w); [done|done|by rewrite Hc]. Qed.

Lemma Invalidate_quiet k n w :
  exists c, Invalidate sc k (n, w) = (tt, (S n, Build_World (w_store w) (w_blob w) c))
    /\ entries c ⊆ entries (w_cache w) /\ entries c !! cacheKey k = None.
Proof.
  unfold Invalidate. rewrite on_cache_quiet by done. eexists. split; [done|].
  destruct (Invalidate_entries (sc_env sc n) (cacheKey k) (w_cache w)). by split.
Qed.

(** How [UpdateDestination] can end. *)
Definition update_outcome (id u dest : string) (v : Z) (w w' : W) (res : result Code) : Prop :=
  match res with
  | Err (ConflictError x a) =>
      exists c, rows (w_store w) !! id = Some c /\ code_UserID c = u /\ unchanged w w'
        /\ a = Version c /\ (is_deleted c = true \/ Version c <> x)
        /\ (0 < v -> x = v)
  | _ =>
      (unchanged w w' /\ exists e, res = Err e)
      \/ exists c t,
           let c' := set_code (TrimSpace dest) (State c) (incr64 (Version c)) t (DeletedAt c) c in
           code_UserID c = u /\ is_deleted c = false /\ Mode c <> ModeDirect
           /\ (v <= 0 \/ Version c = v)
           /\ ValidateDestination (s_base svc) (s_schemes svc) dest = None
           /\ row_changed id c c' w w' /\ (forall d, res = Ok d -> d = c')
  end.

(** No error of the store or of the validation is a [ConflictError]; the
    service makes the only ones. *)
Definition plain_errors : Prop :=
  (forall n id u s e x a, st_GetCodeByID (sc_env sc n) id u s = Err e -> e <> ConflictError x a)
  /\ (forall n id u d v s e s' x a,
        st_UpdateDestination (sc_env sc n) id u d v s = (Err e, s') -> e <> ConflictError x a).

Lemma ValidateDestination_plain dest e x a :
  ValidateDestination (s_base svc) (s_schemes svc) dest = Some e -> e <> ConflictError x a.
Proof. unfold ValidateDestination, vErr. intros H. by repeat case_match; simplify_eq. Qed.

Lemma update_outcome_err id u d v w w' e :
  unchanged w w' -> (forall x a, e <> ConflictError x a) -> update_outcome id u d v w w' (Err e).
Proof. intros Hu He. destruct e; try (left; by eauto). by destruct (He Expected Actual). Qed.

Lemma UpdateDestination_quiet id u d v n w :
  store_ok (w_store w) -> plain_errors ->
  let '(res, (_, w')) := svc_UpdateDestination sc svc id u d v (n, w) in update_outcome id u d v w w' res.
Proof.
  intros Hok [Hget Hupd]. unfold svc_UpdateDestination, try at 1. rewrite bind_step, Get_quiet.
  destruct (st_GetCodeByID (sc_env sc n) id u (w_store w)) as [cur|e] eqn:E.
  2: { apply update_outcome_err; [by apply unchanged_refl|]. intros x a. by eapply Hget. }
  apply (GetCodeByID_Ok _ _ _ _ _ Hok) in E as [Hcur Hu].
  destruct (String.eqb_spec (Mode cur) ModeDirect) as [|Hm].
  { apply update_outcome_err; [by apply unchanged_refl|]. done. }
  destruct (ValidateDestination _ _ d) as [e|] eqn:Hv.
  { apply update_outcome_err; [by apply unchanged_refl|]. intros x a. by eapply ValidateDestination_plain. }
  assert (Hn : exists k, (if v <=? 0 then lastWriteWinsAttempts else 1%nat) = S k).
  { destruct (v <=? 0); by eexists. }
  destruct Hn as [k ->]. cbn [update_loop]. unfold try at 1. rewrite bind_step.
  change ((mret (Ok cur) : Act W (result Code)) (S n, w)) with (@Ok error Code cur, (S n, w)). cbn iota beta.
  rewrite bind_step, on_store_quiet by done.
  set (x := if v <=? 0 then Version cur else v).
  assert (Hx : 0 < v -> x = v) by (unfold x; destruct (Z.leb_spec v 0); lia).
  destruct (st_UpdateDestination _ _ _ _ _ _) as [[[]|e] s] eqn:Eu.
  - destruct (UpdateDestination_Ok _ _ _ _ _ _ _ Hok Eu) as (c & t & Hc & _ & Hd & Hver & Hok' & Hr & Hn).
    assert (c = cur) as -> by congruence.
    rewrite bind_step.
    destruct (Invalidate_quiet (ShortCode cur) (S (S n)) (Build_World s (w_blob w) (w_cache w)))
      as (ca & -> & Hsub & Hnone).
    rewrite Get_quiet. cbn [w_store w_blob w_cache] in *.
    set (c' := set_code (TrimSpace d) (State cur) (incr64 (Version cur)) t (DeletedAt cur) cur).
    assert (Hch : row_changed id cur c' w (Build_World s (w_blob w) ca)).
    { rewrite <- Hver in Hr. by split. }
    assert (Hout : forall r, r = st_GetCodeByID (sc_env sc (S (S (S n)))) id u s ->
              forall d0, r = Ok d0 -> d0 = c').
    { intros r -> d0 E. apply (GetCodeByID_Ok _ _ _ _ _ Hok') in E as [E _].
      rewrite Hr, lookup_insert_eq, <- Hver in E. by injection E as <-. }
    assert (Hver' : v <= 0 \/ Version cur = v) by (unfold x in Hver; destruct (Z.leb_spec v 0); auto).
    destruct (st_GetCodeByID _ id u s) as [c2|e2] eqn:E2.
    + right. exists cur, t. split_and!; try done. intros d0 Hd0. by apply (Hout (Ok c2)).
    + assert (Hne := fun y a => Hget _ _ _ _ _ y a E2).
      destruct e2; try (right; exists cur, t; by split_and!). by destruct (Hne Expected Actual).
  - destruct (UpdateDestination_Err_same _ _ _ _ _ _ _ _ Hok Eu) as (Hok' & Hr & Hn).
    assert (Hun : unchanged w (Build_World s (w_blob w) (w_cache w))) by by repeat split.
    destruct (negb (errors_Is e ErrConflict)) eqn:Ec.
    { apply update_outcome_err; [done|]. intros y a. by eapply Hupd. }
    apply negb_false_iff in Ec.
    destruct (UpdateDestination_Conflict _ _ _ _ _ _ _ _ Hok Eu Ec) as (c & Hc & _ & Hwhy).
    assert (c = cur) as -> by congruence.
    assert (Hstop : (0 <? v) || is_deleted cur = true).
    { destruct (is_deleted cur); [by rewrite orb_true_r|]. destruct Hwhy as [|Hwhy]; [done|].
      unfold x in Hwhy. destruct (Z.leb_spec v 0); [done|]. by destruct (Z.ltb_spec 0 v); [|lia]. }
    rewrite Hstop. unfold try. rewrite bind_step, Get_quiet. cbn [w_store].
    destruct (st_GetCodeByID _ id u s) as [latest|e2] eqn:E2.
    + apply (GetCodeByID_Ok _ _ _ _ _ Hok') in E2 as [E2 _]. rewrite Hr in E2.
      assert (latest = cur) as -> by congruence. exists cur. by split_and!.
    + apply update_outcome_err; [done|]. intros y a. by eapply Hget.
Qed.

(** One's own codes can be read back. *)
Definition reads_work : Prop := forall n id u s c,
  store_ok s -> rows s !! id = Some c -> code_UserID c = u ->
  st_GetCodeByID (sc_env sc n) id u s = Ok c.

Lemma SetState_quiet id u st n w :
  store_ok (w_store w) -> reads_work ->
  let '(res, (_, w')) := SetState sc id u st (n, w) in
  (unchanged w w' /\ exists e, res = Err e)
  \/ exists c t,
       let c' := set_code (Destination c) st (incr64 (Version c)) t (DeletedAt c) c in
       code_UserID c = u /\ is_deleted c = false /\ Mode c <> ModeDirect
       /\ (st = CodeActive \/ st = CodeDisabled) /\ row_changed id c c' w w' /\ res = Ok c'.
Proof.
  intros Hok Hreads. unfold SetState, try at 1. rewrite bind_step, Get_quiet.
  destruct (st_GetCodeByID (sc_env sc n) id u (w_store w)) as [cur|e] eqn:E;
    [|left; split; [by apply unchanged_refl|by eexists]].
  apply (GetCodeByID_Ok _ _ _ _ _ Hok) in E as [Hcur Hu].
  destruct (String.eqb_spec (Mode cur) ModeDirect) as [|Hm];
    [left; split; [by apply unchanged_refl|by eexists]|].
  unfold try at 1. rewrite bind_step, on_store_quiet by done.
  destruct (st_SetCodeState _ _ _ _ _) as [[[]|e] s] eqn:Es.
  - destruct (SetCodeState_Ok _ _ _ _ _ _ Hok Es) as (c & t & Hc & Huc & Hd & Hst & Hok' & Hr & Hn).
    assert (c = cur) as -> by congruence.
    set (c' := set_code (Destination cur) st (incr64 (Version cur)) t (DeletedAt cur) cur) in *.
    unfold try at 1. rewrite bind_step, Get_quiet. cbn [w_store].
    rewrite (Hreads _ id u s c') by (rewrite ?Hr, ?lookup_insert_eq; done).
    rewrite bind_step.
    destruct (Invalidate_quiet (ShortCode c') (S (S (S n))) (Build_World s (w_blob w) (w_cache w)))
      as (ca & -> & Hsub & Hnone).
    right. exists cur, t. by split_and!.
  - destruct (SetCodeState_Err_same _ _ _ _ _ _ _ Hok Es) as (Hok' & Hr & Hn).
    left. split; [by repeat split|by eexists].
Qed.

Lemma Delete_quiet id u n w :
  store_ok (w_store w) ->
  let '(res, (_, w')) := Delete sc id u (n, w) in
  (same_db w w' /\ w_blob w' = w_blob w /\ entries (w_cache w') ⊆ entries (w_cache w)
   /\ (res = Ok tt -> exists c, rows (w_store w) !! id = Some c /\ code_UserID c = u /\ is_deleted c = true))
  \/ exists c t,
       let c' := set_code (Destination c) CodeDeleted (incr64 (Version c)) t (Some t) c in
       code_UserID c = u /\ is_deleted c = false /\ row_changed id c c' w w' /\ res = Ok tt.
Proof.
  intros Hok. unfold Delete, try at 1. rewrite bind_step, Get_quiet.
  destruct (st_GetCodeByID (sc_env sc n) id u (w_store w)) as [cur|e] eqn:E;
    [|left; by repeat split].
  apply (GetCodeByID_Ok _ _ _ _ _ Hok) in E as [Hcur Hu].
  unfold try at 1. rewrite bind_step, on_store_quiet by done.
  destruct (st_DeleteCode _ _ _ _) as [[[]|e] s] eqn:Es.
  - destruct (DeleteCode_Ok _ _ _ _ _ Hok Es) as (c & Hc & Huc & Hok' & Hn & Hr).
    assert (c = cur) as -> by congruence.
    rewrite bind_step.
    destruct (Invalidate_quiet (ShortCode cur) (S (S n)) (Build_World s (w_blob w) (w_cache w)))
      as (ca & -> & Hsub & Hnone). cbn [w_store w_blob w_cache] in *.
    destruct (is_deleted cur) eqn:Hd.
    + left. repeat split; try done. intros _. by exists cur.
    + destruct Hr as [t Hr]. right. exists cur, t. by split_and!.
  - destruct (DeleteCode_Err_same _ _ _ _ _ _ Hok Es) as (Hok' & Hr & Hn). left. by repeat split.
Qed.

(** *** Batches *)

(** An action that leaves the database and the cache as they are. *)
Definition calmly {A} (a : Act W A) (Q : A -> Prop) : Prop := forall n w,
  let '(x, (_, w')) := a (n, w) in Q x /\ w_store w' = w_store w /\ w_cache w' = w_cache w.

Lemma calmly_ret {A} (x : A) (Q : A -> Prop) : Q x -> calmly (mret x) Q.
Proof. by intros H n w. Qed.
Lemma calmly_bind {A B} (a : Act W A) (k : A -> Act W B) Q Q' :
  calmly a Q -> (forall x, Q x -> calmly (k x) Q') -> calmly (a ≫= k) Q'.
Proof.
  intros Ha Hk n w. specialize (Ha n w). rewrite bind_step. destruct (a (n, w)) as [x [n1 w1]].
  destruct Ha as (Hx & Es & Ec). specialize (Hk x Hx n1 w1). destruct (k x (n1, w1)) as [y [n2 w2]].
  destruct Hk as (Hy & -> & ->). by split_and!.
Qed.
Lemma calmly_any {A} (a : Act W A) (Q : A -> Prop) : calmly a Q -> calmly a (fun _ => True).
Proof. intros H n w. specialize (H n w). destruct (a (n, w)) as [x [n' w']]. by destruct H as (_ & ? & ?). Qed.
Lemma calmly_read {A} (f : Env -> DB -> A) : calmly (ask_store sc f) (fun _ => True).
Proof. intros n w. by rewrite ask_store_quiet. Qed.

Lemma calmly_removeBlobs keys : calmly (removeBlobs sc keys) (fun _ => True).
Proof. intros n w. by destruct (removeBlobs_quiet sc Hquiet keys n w) as (n' & b' & -> & _). Qed.
Lemma calmly_remove_all cs : calmly (remove_all sc cs) (fun _ => True).
Proof.
  induction cs as [|c cs IH]; cbn [remove_all]; [by apply calmly_ret|].
  eapply calmly_bind; [apply calmly_removeBlobs|]. intros _ _. apply IH.
Qed.

Lemma calmly_materialise u id k p : code_id id -> LogoBlobKey (p_styling p) = "" ->
  calmly (materialise sc svc u id k p) (fun r => forall c, r = Ok c -> ShortCode c = k).
Proof.
  intros Hid Hl n w. pose proof (materialise_quiet sc svc Hquiet u id k p n w Hid Hl) as H.
  destruct (materialise _ _ _ _ _ _ _) as [[c|e] [n' w']]; destruct H as (_ & -> & -> & H); (split; [|done]).
  - intros d [= <-]. apply (made_short _ _ _ _ _ _ _ _ H).
  - done.
Qed.

(** What the batch takes to the renderer. *)
Definition keyed (np : nat * prepared) : Prop :=
  LogoBlobKey (p_styling np.2) = "" /\ (p_isAlias np.2 = true -> is_key (p_shortCode np.2) = true).

Lemma calmly_check_ref u n i seen : calmly (check_ref sc u n i seen) (fun _ => True).
Proof.
  unfold check_ref. cbv zeta. destruct (_ && _); [|by apply calmly_ret]. destruct (bool_decide _); [by apply calmly_ret|].
  eapply calmly_bind; [apply calmly_read|]. intros [c|e] _; [destruct (_ && _)|destruct (errors_Is _ _)]; by apply calmly_ret.
Qed.
Lemma calmly_check_alias n p seen :
  calmly (check_alias sc n p seen) (fun r => forall p', r.1 = VPending p' -> p' = p).
Proof.
  unfold check_alias. cbv zeta. destruct (p_isAlias p); [|apply calmly_ret; by intros p' [= <-]].
  destruct (bool_decide _); [by apply calmly_ret|].
  eapply calmly_bind; [apply calmly_read|]. intros [[]|e] _; apply calmly_ret; try done. by intros p' [= <-].
Qed.

Lemma calmly_scan_item u n i st : stable_alias i -> Forall keyed (sn_pending st) ->
  calmly (scan_item sc svc u n i st) (fun st' => Forall keyed (sn_pending st')).
Proof.
  intros Hi Hst. unfold scan_item. cbv zeta. eapply calmly_bind; [apply calmly_check_ref|]. intros [[r|] seen] _; [by apply calmly_ret|].
  destruct (prepare svc (with_user u i)) as [p|e] eqn:Ep; [|by apply calmly_ret].
  eapply calmly_bind; [apply calmly_check_alias|]. intros [[r|p'] seenA] Hp; [by apply calmly_ret|].
  apply calmly_ret. cbn [sn_pending]. apply Forall_app. split; [done|]. constructor; [|done].
  rewrite (Hp p' eq_refl). split; [by apply (prepare_Ok svc (with_user u i) p)|]. by apply (prepared_key (with_user u i)).
Qed.

Lemma calmly_scan_items u items : Forall stable_alias items -> forall n st, Forall keyed (sn_pending st) ->
  calmly (scan_items sc svc u n items st) (fun st' => Forall keyed (sn_pending st')).
Proof.
  induction 1 as [|i items Hi _ IH]; intros n st Hst; cbn [scan_items]; [by apply calmly_ret|].
  eapply calmly_bind; [by apply calmly_scan_item|]. intros st' Hst'. by apply IH.
Qed.

Definition keyed_row (o : option Code) : Prop := forall c, o = Some c -> is_key (ShortCode c) = true.

Lemma calmly_render_items u pending order : Forall keyed pending -> forall results rendered, Forall keyed_row rendered ->
  calmly (render_items sc svc u pending order results rendered) (fun r => Forall keyed_row r.2).
Proof.
  intros Hp. induction order as [|j order IH]; intros results rendered Hr; cbn [render_items]; [by apply calmly_ret|].
  destruct (pending !! j) as [[idx p]|] eqn:Ej; [|by apply IH].
  destruct (Forall_lookup_1 _ _ _ _ Hp Ej) as [Hl Ha]. cbn [snd] in Hl, Ha.
  eapply (calmly_bind _ _ (fun k => is_key k = true)).
  { intros n w. destruct (choose_quiet sc Hquiet p n w) as (k & n' & -> & _ & Hk). split; [|done].
    destruct (p_isAlias p); [subst k; by apply Ha|done]. }
  intros k Hk. eapply (calmly_bind _ _ code_id); [intros n w; rewrite ask_env_quiet by done; split; [apply NewCodeID_id|done]|].
  intros id Hid. eapply calmly_bind; [by apply calmly_materialise|]. intros [c|e] Hc; apply IH; [|done].
  apply Forall_insert; [done|]. intros d [= <-]. by rewrite (Hc c eq_refl).
Qed.

Lemma to_insert_keys pending rendered : Forall keyed_row rendered -> Forall (fun x => is_key (ShortCode x) = true) (to_insert pending rendered).*2.
Proof.
  intros Hr. apply Forall_forall. intros c (p & -> & Hp)%list_elem_of_fmap. unfold to_insert in Hp.
  apply list_elem_of_omap in Hp as ([[idx q] oc] & Hin & E). destruct oc as [d|]; [|done]. injection E as <-. cbn [snd].
  apply elem_of_zip_r in Hin. rewrite Forall_forall in Hr. by apply (Hr _ Hin).
Qed.

Lemma invalidate_all_quiet cs n w :
  exists n' c, invalidate_all sc cs (n, w) = (tt, (n', Build_World (w_store w) (w_blob w) c))
    /\ entries c ⊆ entries (w_cache w) /\ forall x, x ∈ cs -> entries c !! cacheKey (ShortCode x) = None.
Proof.
  revert n w. induction cs as [|c cs IH]; intros n w; cbn [invalidate_all].
  - exists n, (w_cache w). destruct w. split_and!; [done|done|]. by intros x ?%elem_of_nil.
  - rewrite bind_step. destruct (Invalidate_quiet (ShortCode c) n w) as (ca & -> & Hsub & Hnone).
    destruct (IH (S n) (Build_World (w_store w) (w_blob w) ca)) as (n' & c' & -> & Hsub' & Hnone'). cbn [w_store w_blob w_cache] in *.
    exists n', c'. split_and!; [done|by etrans|]. intros x [->|Hx]%elem_of_cons; [|by apply Hnone'].
    destruct (entries c' !! cacheKey (ShortCode c)) eqn:E; [|done]. by rewrite (lookup_weaken _ _ _ _ E Hsub') in Hnone.
Qed.

Lemma CreateBatch_coherent u items order n w :
  coherent w -> Forall stable_alias items -> coherent (CreateBatch sc svc u items order (n, w)).2.2.
Proof.
  intros Hco Hst. unfold CreateBatch. destruct (String.eqb u ""); [done|]. cbv zeta. rewrite bind_step.
  match goal with |- context [scan_items _ _ _ _ _ ?st0] => pose proof (calmly_scan_items u items Hst 0%nat st0 (Forall_nil_2 _) n w) as H end.
  destruct (scan_items _ _ _ _ _ _ _) as [st [n1 w1]]. destruct H as (Hp & Es1 & Ec1). rewrite bind_step.
  assert (Hblank : Forall keyed_row (replicate (length (sn_pending st)) None)) by (apply Forall_replicate; by intros c).
  pose proof (calmly_render_items u (sn_pending st) order Hp (sn_results st) _ Hblank n1 w1) as H.
  destruct (render_items _ _ _ _ _ _ _ _) as [[results rendered] [n2 w2]]. destruct H as (Hr & Es2 & Ec2). cbn [snd] in Hr.
  assert (Hco2 : coherent w2) by (apply (coherent_same_db w); [done|unfold same_db; rewrite Es2, Es1; split; [apply Hco|done]|by rewrite Ec2, Ec1]).
  pose proof (to_insert_keys (sn_pending st) rendered Hr) as Hk. destruct (to_insert _ _) as [|x ins] eqn:Ei; [done|]. rewrite <- Ei in *. clear Ei x ins.
  rewrite bind_step, on_store_quiet by done. destruct (st_CreateCodes _ _ _) as [[out|e] s] eqn:E.
  - rewrite bind_step. destruct (invalidate_all_quiet out (S n2) (Build_World s (w_blob w2) (w_cache w2))) as (n3 & c & -> & Hsub & Hnone).
    cbn [w_store w_blob w_cache] in *. cbn. eapply (coherent_add_all w2); [done|exact E|done|done|].
    destruct (CreateCodes_Ok _ _ _ _ _ (co_ok _ Hco2) E) as (_ & _ & Hnew & _). rewrite Forall_forall in Hk.
    intros y Hy. destruct (list_elem_of_lookup_1 _ _ Hy) as [i Hi]. destruct (Hnew i y Hi) as (o & r & Ho & _ & _ & _ & _ & Hso & _).
    specialize (Hnone o (list_elem_of_lookup_2 _ _ _ Ho)). unfold stored_for in Hso. destruct_and!.
    match goal with H : ShortCode o = _ |- _ => rewrite H in Hnone end. rewrite is_key_ToLower in Hnone by by apply Hk.
    by rewrite cacheKey_key in Hnone by by apply Hk.
  - destruct (CreateCodes_Err_same _ _ _ _ _ (co_ok _ Hco2) E) as (Hok' & Hrows & Hn). rewrite bind_step.
    match goal with |- context [remove_all sc ?l ?st] => pose proof (calmly_remove_all l (S n2) st.2) as H end. cbn [snd] in H.
    destruct (remove_all _ _ _) as [[] [n3 w3]]. destruct H as (_ & Es3 & Ec3). cbn.
    apply (coherent_same_db w2); [done| |by rewrite Ec3]. unfold same_db. by rewrite Es3.
Qed.

Lemma UpdateDestination_coherent id u d v n w :
  coherent w -> plain_errors -> coherent (svc_UpdateDestination sc svc id u d v (n, w)).2.2.
Proof.
  intros Hco Hpl. pose proof (UpdateDestination_quiet id u d v n w (co_ok _ Hco) Hpl) as H.
  destruct (svc_UpdateDestination _ _ _ _ _ _ _) as [res [n' w']]. simpl.
  assert (Hcases : unchanged w w' \/ exists c c', row_changed id c c' w w' /\ ShortCode c' = ShortCode c).
  { unfold update_outcome in H. destruct res as [c|[]];
      first [ destruct H as [[? _]|(c0 & t & _ & _ & _ & _ & _ & ? & _)]; [by left|right; by eexists _, _]
            | destruct H as (? & _ & _ & ? & _); by left ]. }
  destruct Hcases as [?|(c & c' & ? & ?)]; [by eapply unchanged_coherent|by eapply row_changed_coherent].
Qed.

Lemma SetState_coherent id u st n w :
  coherent w -> reads_work -> coherent (SetState sc id u st (n, w)).2.2.
Proof.
  intros Hco Hr. pose proof (SetState_quiet id u st n w (co_ok _ Hco) Hr) as H.
  destruct (SetState _ _ _ _ _) as [res [n' w']]. simpl.
  destruct H as [[? _]|(c & t & _ & _ & _ & _ & ? & _)];
    [by eapply unchanged_coherent|by eapply row_changed_coherent].
Qed.

Lemma Delete_coherent id u n w : coherent w -> coherent (Delete sc id u (n, w)).2.2.
Proof.
  intros Hco. pose proof (Delete_quiet id u n w (co_ok _ Hco)) as H.
  destruct (Delete _ _ _ _) as [res [n' w']]. simpl.
  destruct H as [(? & _ & ? & _)|(c & t & _ & _ & ? & _)];
    [by eapply coherent_same_db|by eapply row_changed_coherent].
Qed.
End requests.
End coherence.
