(* ===== verification/CodesProps.v ===== *)
(** * Properties of the code service *)
From Stdlib Require Import Ascii String.
From S2P Require Import GoLib Act GoUrl Domain Shortcode Destination QrPolicy Blob Rollup MemStore MemStoreFacts Concrete Store Cache Codes BlobKeys CodesFacts CreateFacts ResolveFacts.
Local Open Scope string_scope.
Local Open Scope Z_scope.

(** ** Requests *)
Inductive request :=
| RCreate (i : CreateInput)
| RCreateBatch (userID : string) (items : list CreateInput) (order : list nat)
| RUpdateDestination (id userID dest : string) (expectedVersion : Z)
| RSetState (id userID : string) (state : CodeState)
| RDelete (id userID : string)
| RResolve (shortCode : string).

Section perform.
Context `{U : UnicodeTable} `{IP : IPParser} `{RD : Renderer} `{SN : Sniffer}.
Context {DB BL CA : Type} `{ST : CodeStore DB} `{BS : BlobStore BL} `{OC : OtterCache CA}.
Context (sc : Sched (World DB BL CA)) (svc : Service).

Definition forget {A} (a : Act (World DB BL CA) A) : Act (World DB BL CA) unit := _ ← a; mret tt.

Definition perform (r : request) : Act (World DB BL CA) unit :=
  match r with
  | RCreate i => forget (Create sc svc i)
  | RCreateBatch u items order => forget (CreateBatch sc svc u items order)
  | RUpdateDestination id u d v => forget (svc_UpdateDestination sc svc id u d v)
  | RSetState id u st => forget (SetState sc id u st)
  | RDelete id u => forget (Delete sc id u)
  | RResolve k => forget (Resolve sc k)
  end.

(** Requests one after another. *)
Fixpoint perform_all (rs : list request) : Act (World DB BL CA) unit :=
  match rs with
  | [] => mret tt
  | r :: rs => _ ← perform r; perform_all rs
  end.

Lemma forget_state {A} (a : Act (World DB BL CA) A) st : (forget a st).2 = (a st).2.
Proof. unfold forget. rewrite bind_step. by destruct (a st). Qed.
End perform.

(** ** A concrete instance *)
#[export] Instance demo_ip : IPParser :=
  {| netip_is_IPv6 := fun s => String.eqb s "::1"; net_ParseIP := fun s => String.eqb s "::1" |}.
#[export] Instance demo_render : Renderer :=
  {| Render := fun _ content s _ _ => Ok (bytes content, styling_ECLevel s) |}.
#[export] Instance demo_sniff : Sniffer := {| DetectContentType := fun _ => "application/octet-stream" |}.
#[export] Instance demo_sha : SHA256 := {| sha256_Sum256 := fun l => l |}.

Notation DemoWorld := (World memStore memBlob mapCache).
Definition demo_svc : Service := NewService (Some memBlob_urler)
  {| BaseURL := "https://qr.example"; cfg_AllowedSchemes := []; cfg_URLMode := ""; PublicBaseURL := "";
     PresignTTL := 0; cfg_BatchMax := 0; BatchWorkers := 0 |}.
Definition demo_sched : Sched DemoWorld := {| sc_env := env_at; sc_others := fun _ w => w |}.
Definition demo_empty : DemoWorld := Build_World NewMemStore NewMemBlob NewCache.
Definition demo_input (mode alias dest : string) : CreateInput :=
  {| in_UserID := "usr_1"; in_Mode := mode; in_Destination := dest; in_Alias := alias;
     in_Styling := DefaultStyling; in_Logo := []; in_LogoAutoRaise := false; in_ClientRef := "" |}.
(** One dynamic code, ["spring"]. *)
Definition demo_world : DemoWorld :=
  (perform demo_sched demo_svc (RCreate (demo_input "" "Spring" "https://example.com/a")) (1%nat, demo_empty)).2.2.
Definition demo_id : string := NewCodeID (rand_byte (env_at 1)) 0.

Example demo_world_code :
  (ShortCode <$> codes (w_store demo_world) !! demo_id) = Some "spring".
Proof. vm_compute. reflexivity. Qed.

(** ** Counterexamples *)

(** A scan of a short code with a leading space poisons the cache: it is
    remembered as unknown under the trimmed key, and the next scan of the
    valid code is answered "not found" although the store holds it. *)
Theorem Resolve_poisoned :
  let '(r1, st1) := Resolve demo_sched " spring" (10%nat, demo_world) in
  let '(r2, st2) := Resolve demo_sched "spring" st1 in
  r1 = Ok not_found /\ r2 = Ok not_found
  /\ r_Found (current st2.2 "spring") = true /\ r_State (current st2.2 "spring") = CodeActive.
Proof. vm_compute. repeat split. Qed.

(** [SetState] invalidates only after it has read the code back.  When
    that read fails (here, the client went away), the code is disabled in the
    store while the next scan is still answered with the active destination. *)
Theorem SetState_stale :
  let st0 := (Resolve demo_sched "spring" (10%nat, demo_world)).2 in
  let sc := {| sc_env := fun n => if Nat.eqb n 22 then env_cancelled else env_at 11;
               sc_others := fun _ w => w |} in
  let '(res, st1) := SetState sc demo_id "usr_1" CodeDisabled (20%nat, st0.2) in
  let '(r, st2) := Resolve demo_sched "spring" (12%nat, st1.2) in
  res = Err (Canceled : error)
  /\ r_State (current st1.2 "spring") = CodeDisabled
  /\ exists x, r = Ok x /\ r_State x = CodeActive /\ r_Destination x = "https://example.com/a".
Proof. vm_compute. split; [done|]. split; [done|]. by eexists. Qed.

(** A scan that looks a code up while its destination is being changed can
    store the old row after the update has invalidated the entry: the next
    scan is answered with the old destination. *)
Theorem Resolve_race :
  let update w := (svc_UpdateDestination demo_sched demo_svc demo_id "usr_1" "https://example.com/b" 0 (20%nat, w)).2.2 in
  let sc := {| sc_env := env_at; sc_others := fun n w => if Nat.eqb n 12 then update w else w |} in
  let st1 := (Resolve sc "spring" (10%nat, demo_world)).2 in
  let '(r, _) := Resolve demo_sched "spring" st1 in
  r_Destination (current st1.2 "spring") = "https://example.com/b"
  /\ exists x, r = Ok x /\ r_Destination x = "https://example.com/a".
Proof. vm_compute. split; [done|]. by eexists. Qed.

(** ** Properties *)
Section properties.
Context `{U : UnicodeTable} `{IP : IPParser} `{RD : Renderer} `{SN : Sniffer}.
Context {DB BL CA : Type} `{ST : CodeStore DB} `{SL : !CodeStoreLaws DB}
  `{BS : BlobStore BL} `{BLaws : !BlobLaws BL} `{OC : OtterCache CA} `{OL : !OtterLaws CA}.
Notation W := (World DB BL CA).

(** C1: the life of a code under concurrency.  Whatever the interleaving of
    requests (each keeping to the same discipline between any two calls of
    the others), a request keeps every stored code: its identity never
    changes, a deleted code is frozen, and a direct code keeps its
    destination and can only be deleted. *)
Theorem service_guarantee (sc : Sched W) (svc : Service) (req : request) (n : nat) (w : W) :
  (forall k v, moves v (sc_others sc k v)) -> store_ok (w_store w) ->
  let w' := (perform sc svc req (n, w)).2.2 in
  store_ok (w_store w') /\
  forall id c, rows (w_store w) !! id = Some c ->
    exists c', rows (w_store w') !! id = Some c' /\ same_identity c c'
      /\ (is_deleted c = true -> c' = c)
      /\ (Mode c = ModeDirect ->
          Destination c' = Destination c /\ (State c' = State c \/ State c' = CodeDeleted)).
Proof.
  intros rely Hok.
  assert (Hg : forall A (a : Act W A), guards ok a -> moves w (forget a (n, w)).2.2).
  { intros A a Ha. rewrite forget_state. specialize (Ha n w Hok). destruct (a (n, w)) as [x [n' w']]. apply Ha. }
  assert (Hm : moves w (perform sc svc req (n, w)).2.2).
  { destruct req; apply Hg; auto using guards_Create, guards_CreateBatch, guards_svc_UpdateDestination,
      guards_SetState, guards_Delete, guards_Resolve. }
  destruct (Hm Hok) as [Hok' He]. split; [done|]. intros id c Hc.
  destruct (He id c Hc) as (c' & Hc' & Hi & Hd & Hdir). by exists c'.
Qed.

(** C2: without interference, [Create] is all or nothing.  On an error the
    database and the cache are as they were, and the only objects that can
    be left in the blob store are under the keys of ids this call drew itself
    (a failed write or a failed clean-up, which the code only logs, can leave
    one there); none is left when deletes work, a failed write stores nothing
    and no object had such a key before.  On success exactly one row is new,
    it is active and carries the validated destination, its short code was
    free and now resolves to it (with no stale cache entry), and its image,
    rendered from the scan address or, for a direct code, the destination, is
    stored under its key with the logo beside it; again nothing else but what
    earlier attempts of this call left. *)
Theorem Create_all_or_nothing (sc : Sched W) (svc : Service) (i : CreateInput) (n : nat) (w : W) :
  quiet sc -> store_ok (w_store w) ->
  let '(res, (n', w')) := Create sc svc i (n, w) in
  match res with
  | Err _ => rows (w_store w') = rows (w_store w) /\ names (w_store w') = names (w_store w)
             /\ w_cache w' = w_cache w
             /\ same_but (drawn sc n n') (objects (w_blob w)) (objects (w_blob w'))
             /\ (tidy sc -> fresh_ids sc (objects (w_blob w)) -> objects (w_blob w') = objects (w_blob w))
  | Ok c => exists p k r,
      prepare svc i = Ok p /\ (if p_isAlias p then k = p_shortCode p else is_key k = true)
      /\ rows (w_store w) !! code_ID c = None
      /\ rows (w_store w') = <[code_ID c := r]> (rows (w_store w))
      /\ names (w_store w) !! ToLower k = None
      /\ names (w_store w') = <[ToLower k := code_ID c]> (names (w_store w))
      /\ entries (w_cache w') !! cacheKey k = None
      /\ ShortCode r = ToLower k /\ code_UserID r = in_UserID i /\ Mode r = modeOf (in_Mode i)
      /\ Destination r = TrimSpace (in_Destination i) /\ ClientRef r = in_ClientRef i
      /\ State r = CodeActive /\ Version r = 1 /\ DeletedAt r = None /\ BlobKey r = BlobKeyFor (code_ID c)
      /\ exists env png level objs,
           Render env (if String.eqb (Mode r) ModeDirect then Destination r else ScanURL svc k)
                  (p_styling p) (in_Logo i) (p_autoRaise p) = Ok (png, level)
           /\ same_but (drawn sc n n') (objects (w_blob w)) objs
           /\ (tidy sc -> fresh_ids sc (objects (w_blob w)) -> objs = objects (w_blob w))
           /\ objects (w_blob w') = <[BlobKey r := (png, "image/png")]>
                (match in_Logo i with
                 | [] => objs
                 | l => <[LogoBlobKeyFor (code_ID c) := (l, DetectContentType l)]> objs
                 end)
  end.
Proof.
  intros Hq Hok. pose proof (Create_quiet sc svc Hq i n w Hok) as H.
  destruct (Create sc svc i (n, w)) as [[c|e] [n' w']].
  - destruct H as (p & Hp & [_ (id & k & r & Hrow) _]). destruct_and!. subst id.
    destruct (prepare_Ok _ _ _ Hp) as (Hm & _ & Hd & _ & Hl & Hr & _).
    exists p, k, r. split_and!; try done; try congruence.
    + apply map_eq. intros id. rewrite lookup_insert. case_decide as E; [by subst|]. auto.
    + apply map_eq. intros k'. rewrite lookup_insert. case_decide as E; [by subst|]. auto.
    + match goal with H : exists env png level objs, _ |- _ =>
        destruct H as (env & png & level & objs & Hren & Hs & Ht & Hobj) end. exists env, png, level, objs.
      unfold content_of in Hren. rewrite Hl in *.
      assert (Em : Mode r = p_mode p) by done. assert (Ed : Destination r = p_destination p) by done.
      rewrite Em, Ed. split_and!; [done|done|done|]. rewrite Hobj. by destruct (in_Logo i); f_equal.
  - by destruct H as ((_ & ? & ?) & ? & ? & ?).
Qed.

(** Requests after which the cache must be coherent: aliases whose normal form
    is stable, and scans of trimmed short codes ([Resolve_poisoned] shows what
    another scan does). *)
Definition plain_request (r : request) : Prop :=
  match r with
  | RCreate i => stable_alias i
  | RCreateBatch _ items _ => Forall stable_alias items
  | RResolve k => TrimSpace k = k
  | _ => True
  end.

Lemma perform_coherent sc svc req n (w : W) :
  quiet sc -> reads_work sc -> plain_errors sc -> plain_request req ->
  coherent w -> coherent (perform sc svc req (n, w)).2.2.
Proof.
  intros Hq Hreads Hplain Hreq Hco. destruct req; cbn [perform]; rewrite forget_state; simpl in Hreq.
  - by apply Create_coherent.
  - by apply CreateBatch_coherent.
  - by apply UpdateDestination_coherent.
  - by apply SetState_coherent.
  - by apply Delete_coherent.
  - pose proof (Resolve_coherent sc Hq shortCode n w Hco Hreq) as H.
    destruct (Resolve sc shortCode (n, w)) as [r [n' w']]. apply H.
Qed.

Lemma perform_all_coherent sc svc reqs : quiet sc -> reads_work sc -> plain_errors sc -> Forall plain_request reqs ->
  forall n (w : W), coherent w -> coherent (perform_all sc svc reqs (n, w)).2.2.
Proof.
  intros Hq Hreads Hplain. induction 1 as [|req reqs Hreq _ IH]; intros n w Hco; cbn [perform_all]; [done|].
  rewrite bind_step. pose proof (perform_coherent sc svc req n w Hq Hreads Hplain Hreq Hco) as H.
  destruct (perform sc svc req (n, w)) as [[] [n1 w1]]. by apply IH.
Qed.

(** C3: mutations are visible to the next scan.  After any sequence of
    requests run one at a time (creations and batches with aliases whose
    normal form is stable, updates, state changes, deletions, and
    scans of trimmed short codes), over a store that lets owners read their
    codes back and whose own errors are not version conflicts of the
    service, and from a coherent cache such as an empty one, the cache is
    coherent with the store and a scan of a trimmed short code is answered
    from the current row: the code's destination and state as last changed,
    or "not found" exactly when no code holds the short code.  Writes and
    deletes may fail at any point.  Outside these conditions the cache can
    be stale, as [Resolve_poisoned], [SetState_stale] and [Resolve_race]
    show. *)
Theorem scans_see_mutations (sc : Sched W) (svc : Service) (reqs : list request) (n : nat) (w : W) :
  quiet sc -> reads_work sc -> plain_errors sc -> coherent w -> Forall plain_request reqs ->
  let w' := (perform_all sc svc reqs (n, w)).2.2 in
  coherent w' /\
  forall m sh r w'', TrimSpace sh = sh -> Resolve sc sh (m, w') = (Ok r, w'') ->
    r = match names (w_store w') !! ToLower sh with
        | Some id => from_option resolution_of not_found (rows (w_store w') !! id)
        | None => not_found
        end.
Proof.
  intros Hq Hreads Hplain Hco Hreqs w'. pose proof (perform_all_coherent sc svc reqs Hq Hreads Hplain Hreqs n w Hco) as Hco'.
  split; [done|]. intros m sh r st Htrim E.
  pose proof (Resolve_coherent sc Hq sh m _ Hco' Htrim) as H. fold w' in H. rewrite E in H.
  destruct st as [n'' w'']. destruct H as (_ & _ & H). by apply H.
Qed.

(** C7: every way [UpdateDestination] can end without interference, over a
    store whose own errors are not version conflicts of the service (the
    retries of a last-write-wins update, which another writer alone can
    cause, are not reached here).  It succeeds only for the
    owner of a live dynamic code presenting the version the row has (or none),
    with a valid destination; then that row alone changes, its version moves
    on by one and its cache entry is gone.  A conflict is reported with the
    row's actual version, only when the code is deleted or that version is
    not the one presented, and changes nothing; so does every other error
    raised before the row was written. *)
Theorem UpdateDestination_outcomes (sc : Sched W) (svc : Service) (id u dest : string) (v : Z) (n : nat) (w : W) :
  quiet sc -> plain_errors sc -> store_ok (w_store w) ->
  let '(res, (_, w')) := svc_UpdateDestination sc svc id u dest v (n, w) in
  let same := rows (w_store w') = rows (w_store w) /\ names (w_store w') = names (w_store w)
              /\ w_blob w' = w_blob w /\ w_cache w' = w_cache w in
  match res with
  | Err (ConflictError x a) =>
      same /\ exists c, rows (w_store w) !! id = Some c /\ code_UserID c = u /\ a = Version c
                /\ (is_deleted c = true \/ Version c <> x) /\ (0 < v -> x = v)
  | _ =>
      (same /\ exists e, res = Err e)
      \/ exists c t,
           let c' := set_code (TrimSpace dest) (State c) (incr64 (Version c)) t (DeletedAt c) c in
           rows (w_store w) !! id = Some c /\ code_UserID c = u /\ is_deleted c = false
           /\ Mode c <> ModeDirect /\ (v <= 0 \/ Version c = v)
           /\ ValidateDestination (s_base svc) (s_schemes svc) dest = None
           /\ rows (w_store w') = <[id := c']> (rows (w_store w))
           /\ names (w_store w') = names (w_store w) /\ w_blob w' = w_blob w
           /\ entries (w_cache w') !! cacheKey (ShortCode c) = None
           /\ (forall d, res = Ok d -> d = c')
  end.
Proof.
  intros Hq Hpl Hok. pose proof (UpdateDestination_quiet sc svc Hq id u dest v n w Hok Hpl) as H.
  destruct (svc_UpdateDestination _ _ _ _ _ _ _) as [res [n' w']]. unfold update_outcome in H.
  destruct res as [d|[]];
    try (destruct H as [[((_ & ? & ?) & ? & ?) ?]|(c & t & ? & ? & ? & ? & ? & [] & ?)];
         [left; by split_and!|right; exists c, t; by split_and!]).
  destruct H as (c & ? & ? & ((_ & ? & ?) & ? & ?) & ? & ? & ?). split; [by split_and!|]. by exists c.
Qed.
End properties.

(** ** The hypotheses hold of the in-memory drivers *)
Lemma demo_quiet : quiet demo_sched.
Proof. by intros n w. Qed.

Lemma demo_deletes : deletes_work demo_sched.
Proof.
  intros n k b e b' (id & Hid & Hk). simpl. unfold mb_Delete.
  assert (Hv : ValidateKey k = None) by (destruct (code_keys_valid id Hid), Hk; by subst).
  rewrite Hv. destruct (b !! k); [done|]. by intros [= <- _].
Qed.

Lemma demo_tidy : tidy demo_sched.
Proof.
  split; [apply demo_deletes|]. intros n k d size ct b e b' _. simpl. unfold mb_Put.
  repeat case_match; intros; by simplify_eq.
Qed.

Lemma demo_reads : reads_work demo_sched.
Proof.
  intros n id u s c _ Hc Hu. simpl. unfold GetCodeByID, read_ctx. simpl. by apply owned_Ok.
Qed.

Lemma demo_plain : plain_errors demo_sched.
Proof.
  split.
  - intros n id u s e x a. simpl. unfold GetCodeByID, read_ctx, owned. simpl. intros H.
    repeat case_match; by simplify_eq.
  - intros n id u d v s e s' x a. simpl. unfold UpdateDestination, with_ctx, owned. simpl. intros H.
    repeat case_match; by simplify_eq.
Qed.

Lemma demo_fresh : fresh_ids demo_sched (objects (w_blob demo_empty)).
Proof. intros n. simpl. unfold NewMemBlob, mem_objects. by rewrite !fmap_empty, !lookup_empty. Qed.

Lemma demo_coherent_empty : coherent demo_empty.
Proof.
  split.
  - apply wf_NewMemStore.
  - intros id c. simpl. by rewrite lookup_empty.
  - intros k r t. simpl. by rewrite lookup_empty.
Qed.

Lemma demo_coherent : coherent demo_world.
Proof.
  unfold demo_world. cbn [perform]. rewrite forget_state.
  apply Create_coherent; [apply demo_quiet|apply demo_coherent_empty|].
  vm_compute. reflexivity.
Qed.

Lemma service_guarantee_witness :
  let w' := (perform demo_sched demo_svc (RDelete demo_id "usr_1") (5%nat, demo_world)).2.2 in
  is_deleted <$> rows (w_store w') !! demo_id = Some true /\
  forall id c, rows (w_store demo_world) !! id = Some c ->
    exists c', rows (w_store w') !! id = Some c' /\ same_identity c c'
      /\ (is_deleted c = true -> c' = c)
      /\ (Mode c = ModeDirect ->
          Destination c' = Destination c /\ (State c' = State c \/ State c' = CodeDeleted)).
Proof.
  intros w'. split; [vm_compute; reflexivity|].
  apply (service_guarantee demo_sched demo_svc (RDelete demo_id "usr_1") 5 demo_world).
  - intros k v. apply moves_refl.
  - apply (co_ok _ demo_coherent).
Defined.

Lemma Create_all_or_nothing_witness :
  is_Ok (Create demo_sched demo_svc (demo_input "" "Spring" "https://example.com/a") (1%nat, demo_empty)).1 = true /\
  let '(res, (_, w')) := Create demo_sched demo_svc (demo_input "" "Spring" "https://example.com/a") (1%nat, demo_empty) in
  match res with
  | Err _ => objects (w_blob w') = objects (w_blob demo_empty)
  | Ok c => exists r, rows (w_store w') = <[code_ID c := r]> (rows (w_store demo_empty)) /\ State r = CodeActive
  end.
Proof.
  split; [vm_compute; reflexivity|].
  pose proof (Create_all_or_nothing demo_sched demo_svc (demo_input "" "Spring" "https://example.com/a")
    1 demo_empty demo_quiet wf_NewMemStore) as H.
  destruct (Create demo_sched demo_svc _ _) as [[c|e] [n' w']].
  - destruct H as (p & k & r & _ & _ & _ & Hr & _ & _ & _ & _ & _ & _ & _ & _ & Hs & _). exists r. exact (conj Hr Hs).
  - destruct H as (_ & _ & _ & _ & Ht). apply (Ht demo_tidy demo_fresh).
Defined.

(** A batch, an update and a scan; then the scan is answered with the new
    destination. *)
Definition demo_requests : list request :=
  [RCreateBatch "usr_1" [demo_input "" "Spring" "https://example.com/a"] [0%nat]; RResolve "spring";
   RUpdateDestination (NewCodeID (rand_byte (env_at 3)) 0) "usr_1" "https://example.com/b" 1].

Lemma scans_see_mutations_witness :
  let w' := (perform_all demo_sched demo_svc demo_requests (2%nat, demo_empty)).2.2 in
  coherent w' /\ r_Destination (current w' "SPRING") = "https://example.com/b"
  /\ forall r w'', Resolve demo_sched "SPRING" (50%nat, w') = (Ok r, w'') ->
       r = match names (w_store w') !! "spring" with
           | Some id => from_option resolution_of not_found (rows (w_store w') !! id)
           | None => not_found
           end.
Proof.
  intros w'.
  assert (H : Forall plain_request demo_requests).
  { repeat constructor; vm_compute; reflexivity. }
  destruct (scans_see_mutations demo_sched demo_svc demo_requests 2 demo_empty demo_quiet demo_reads demo_plain
    demo_coherent_empty H) as [Hco Hs].
  split; [exact Hco|]. split; [vm_compute; reflexivity|].
  intros r w''. apply (Hs 50%nat "SPRING" r w''). vm_compute. reflexivity.
Defined.

Lemma UpdateDestination_outcomes_witness :
  let '(res, (_, w')) := svc_UpdateDestination demo_sched demo_svc demo_id "usr_1" " https://example.com/b" 1 (5%nat, demo_world) in
  exists c, res = Ok c /\ Destination c = "https://example.com/b" /\ Version c = 2
    /\ rows (w_store w') !! demo_id = Some c.
Proof.
  pose proof (UpdateDestination_outcomes demo_sched demo_svc demo_id "usr_1" " https://example.com/b" 1 5 demo_world
    demo_quiet demo_plain (co_ok _ demo_coherent)) as H.
  assert (E : exists c, (svc_UpdateDestination demo_sched demo_svc demo_id "usr_1" " https://example.com/b" 1
                (5%nat, demo_world)).1 = Ok c /\ Destination c = "https://example.com/b" /\ Version c = 2).
  { eexists. vm_compute. split_and!; reflexivity. }
  destruct (svc_UpdateDestination _ _ _ _ _ _ _) as [res [n' w']]. destruct E as (c & E & Ed & Ev).
  simpl in E. subst res. exists c. split; [done|]. split; [done|]. split; [done|].
  destruct H as [[_ [e He]]|(c0 & t & _ & _ & _ & _ & _ & _ & Hr & _ & _ & _ & Hc)]; [done|].
  rewrite Hr, (Hc c eq_refl). apply lookup_insert_eq.
Defined.
