(* ===== verification/Listing.v ===== *)
(** * Listing and retention over the in-memory store

    What callers of [ListCodes] and [PruneScanEvents] rely on: following cursors enumerates the filtered codes exactly once in
    listing order, pruning removes the oldest raw events and nothing else. *)
From Stdlib Require Import Ascii String.
From S2P Require Import GoLib Domain Base64 Rollup MemStore MemStoreFacts Store Concrete.
Local Open Scope string_scope.
Local Open Scope Z_scope.

(** ** Sorted lists *)

(** In a strictly sorted list the elements after [x] are the larger ones. *)
Lemma filter_after {A} (less : A -> A -> bool) `{!StrictWeakOrder less} (L : list A) k x :
  StronglySorted (not_less less) L -> NoDup L -> distinguishes less L -> L !! k = Some x ->
  filter (fun y => less x y = true) L = drop (S k) L.
Proof.
  intros HS. revert k. induction HS as [|z L HS IH Hz]; intros k Hnd Hd Hk; [done|].
  apply NoDup_cons in Hnd as [Hz2 Hnd].
  assert (Hd' : distinguishes less L).
  { intros a b Ha Hb. apply Hd; by right. }
  rewrite filter_cons. destruct k as [|k]; simpl in Hk.
  - injection Hk as ->. rewrite less_irrefl, decide_False by done. simpl. rewrite drop_0.
    apply filter_all. intros y Hy. rewrite Forall_forall in Hz. specialize (Hz y Hy).
    unfold not_less in Hz. destruct (less x y) eqn:E; [done|].
    exfalso. apply Hz2. rewrite (Hd x y); [done| |by right|done|done]. by left.
  - rewrite Forall_forall in Hz. rewrite (Hz x) by (by eapply list_elem_of_lookup_2).
    rewrite decide_False by done. by apply IH.
Qed.

(** ** Pages *)
Section listing.
Context `{U : UnicodeTable} `{TF : TimeFormat} `{TFO : !TimeFormatOk}.

Definition pos_of (c : Code) : cursorPos :=
  {| cp_createdAt := code_CreatedAt c; cp_id := code_ID c |}.

Definition with_cursor (cur : string) (f : CodeFilter) : CodeFilter :=
  {| f_UserID := f_UserID f; f_Destination := f_Destination f; CreatedAfter := CreatedAfter f;
     CreatedBefore := CreatedBefore f; Limit := Limit f; Cursor := cur |}.

(** Following the cursors from [cur] until one is empty. *)
Fixpoint list_pages (fuel : nat) (env : Env) (f : CodeFilter) (cur : string) (m : memStore)
    : result (list (list Code)) :=
  match fuel with
  | O => Err (NewErr "out of pages")
  | S fuel' =>
      res_bind (ListCodes env (with_cursor cur f) m) (fun '(page, next) =>
        if String.eqb next "" then Ok [page]
        else res_bind (list_pages fuel' env f next m) (fun rest => Ok (page :: rest)))
  end.

(** Rows a cursor can name. *)
Definition listable (m : memStore) : Prop :=
  forall id c, codes m !! id = Some c -> id <> "" /\ year_ok (code_CreatedAt c).

Lemma decode_encodeCursor p :
  year_ok (cp_createdAt p) -> cp_id p <> "" -> decodeCursor (encodeCursor p) = Ok p.
Proof.
  intros Hy Hi. unfold decodeCursor, encodeCursor.
  rewrite decode_encode, of_bytes_bytes, CutByte_app by (apply good_alphabet_url || by apply format_no_nul).
  simpl. rewrite (proj2 (String.eqb_neq _ _) Hi), parse_format by done. by destruct p.
Qed.

Lemma encodeCursor_nonempty p : encodeCursor p <> "".
Proof.
  intros E. unfold encodeCursor in E.
  pose proof (decode_encode _ (bytes (Format_RFC3339Nano (cp_createdAt p) +:+ String "000" (cp_id p)))
                good_alphabet_url) as D.
  rewrite E in D. injection D as D. rewrite bytes_app in D.
  destruct (bytes (Format_RFC3339Nano (cp_createdAt p))); done.
Qed.

Lemma list_match_after f p c :
  list_match f (Some p) c = list_match f None c && beforeInListing c p.
Proof. unfold list_match. by repeat case_match. Qed.

Lemma beforeInListing_less c x : beforeInListing c (pos_of x) = list_less x c.
Proof.
  unfold beforeInListing, list_less, lex_less, pos_of, Before, After. simpl.
  destruct (Z.eqb_spec (code_CreatedAt c) (code_CreatedAt x)) as [->|H]; simpl.
  - by rewrite Z.ltb_irrefl.
  - destruct (Z.ltb_spec (code_CreatedAt c) (code_CreatedAt x)); [done|].
    destruct (Z.ltb_spec (code_CreatedAt x) (code_CreatedAt c)); [done|lia].
Qed.

#[local] Instance list_less_order : StrictWeakOrder list_less.
Proof. unfold list_less, After. apply _. Qed.

Lemma list_elem_of_codes m c : wf_store m -> c ∈ (map_to_list (codes m)).*2 <-> codes m !! code_ID c = Some c.
Proof.
  intros Hwf. rewrite list_elem_of_fmap. split.
  - intros ([id d] & -> & Hd%elem_of_map_to_list). simpl. by rewrite (wf_codes _ Hwf _ _ Hd).
  - intros Hc. exists (code_ID c, c). split; [done|]. by apply elem_of_map_to_list.
Qed.

Lemma NoDup_codes m : wf_store m -> NoDup (map_to_list (codes m)).*2.
Proof.
  intros Hwf. apply (NoDup_fmap_1 code_ID). rewrite <- list_fmap_compose.
  replace ((code_ID ∘ snd) <$> map_to_list (codes m)) with (map_to_list (codes m)).*1;
    [apply NoDup_fst_map_to_list|].
  apply list_fmap_ext. intros i [id c] Hi%list_elem_of_lookup_2%elem_of_map_to_list. simpl.
  by rewrite (wf_codes _ Hwf _ _ Hi).
Qed.

Lemma codes_distinguished m (P : Code -> Prop) `{!forall c, Decision (P c)} :
  wf_store m -> distinguishes list_less (filter P (map_to_list (codes m)).*2).
Proof.
  intros Hwf x y [_ Hx]%list_elem_of_filter [_ Hy]%list_elem_of_filter.
  apply (list_elem_of_codes _ _ Hwf) in Hx, Hy. unfold list_less, lex_less, After.
  destruct (Z.ltb_spec (code_CreatedAt y) (code_CreatedAt x)); [done|].
  destruct (Z.ltb_spec (code_CreatedAt x) (code_CreatedAt y)); [done|].
  intros Ha Hb. pose proof (str_ltb_total _ _ Ha Hb) as E. congruence.
Qed.

Lemma list_rows_NoDup f after m : wf_store m -> NoDup (list_rows f after m).
Proof.
  intros Hwf. unfold list_rows. rewrite (sort_Slice_Permutation list_less).
  apply NoDup_filter, NoDup_codes, Hwf.
Qed.

(** The rows after a cursor are what follows it in the whole listing. *)
Lemma list_rows_after f m k x :
  wf_store m -> list_rows f None m !! k = Some x ->
  list_rows f (Some (pos_of x)) m = drop (S k) (list_rows f None m).
Proof.
  intros Hwf Hk. rewrite <- (filter_after list_less (list_rows f None m) k x).
  - unfold list_rows. rewrite (sort_Slice_filter list_less) by by apply codes_distinguished.
    f_equal. rewrite list_filter_filter. apply list_filter_iff. intros c.
    rewrite list_match_after, beforeInListing_less. split.
    + intros [? ?]%andb_prop. done.
    + intros [-> ->]. done.
  - apply sort_Slice_sorted, _.
  - by apply list_rows_NoDup.
  - intros a b. unfold list_rows. rewrite !(sort_Slice_Permutation list_less).
    by apply codes_distinguished.
  - done.
Qed.

Lemma list_rows_elem f m c :
  wf_store m -> c ∈ list_rows f None m <-> codes m !! code_ID c = Some c /\ list_match f None c = true.
Proof.
  intros Hwf. unfold list_rows. rewrite (sort_Slice_Permutation list_less), list_elem_of_filter.
  rewrite (list_elem_of_codes _ _ Hwf). tauto.
Qed.

Lemma page_limit_pos f : (1 <= page_limit f)%nat.
Proof. unfold page_limit, defaultListLimit. destruct (Z.leb_spec (Limit f) 0); lia. Qed.

(** One page, when [k] rows have been read. *)
Lemma ListCodes_page env f cur after m k :
  ctx_Err env = None -> wf_store m -> listable m ->
  (if String.eqb cur "" then Ok None else res_bind (decodeCursor cur) (fun p => Ok (Some p))) = Ok after ->
  list_rows f after m = drop k (list_rows f None m) ->
  let L := list_rows f None m in let n := page_limit f in
  if bool_decide (n < length (drop k L))%nat then
    exists x, x ∈ L /\ ListCodes env (with_cursor cur f) m = Ok (take n (drop k L), encodeCursor (pos_of x))
      /\ list_rows f (Some (pos_of x)) m = drop (k + n) L
  else ListCodes env (with_cursor cur f) m = Ok (drop k L, "").
Proof.
  intros Hctx Hwf Hl Hcur Hrows L n.
  assert (E : ListCodes env (with_cursor cur f) m
    = let rows := drop k L in
      if bool_decide (n < length rows)%nat
      then Ok (take n rows, from_option (fun c => encodeCursor (pos_of c)) "" (last (take n rows)))
      else Ok (rows, "")).
  { unfold ListCodes, read_ctx. rewrite Hctx. cbn [Cursor with_cursor]. rewrite Hcur. cbn [res_bind].
    unfold L. by rewrite <- Hrows. }
  rewrite E. cbn zeta. case_bool_decide as Hlt; [|done].
  pose proof (page_limit_pos f) as Hpos. fold n in Hpos.
  destruct (drop k L !! (n - 1)%nat) as [x|] eqn:Hx; [|apply lookup_ge_None in Hx; lia].
  exists x. assert (Hx' := Hx). rewrite lookup_drop in Hx'.
  split; [by eapply list_elem_of_lookup_2|]. split.
  - rewrite last_lookup, length_take, Nat.min_l by lia.
    replace (pred n) with (n - 1)%nat by lia. by rewrite lookup_take_lt, Hx by lia.
  - rewrite (list_rows_after f m (k + (n - 1)) x) by done. f_equal. lia.
Qed.

Lemma list_pages_from env f m fuel k cur after :
  ctx_Err env = None -> wf_store m -> listable m ->
  (if String.eqb cur "" then Ok None else res_bind (decodeCursor cur) (fun p => Ok (Some p))) = Ok after ->
  list_rows f after m = drop k (list_rows f None m) ->
  (length (drop k (list_rows f None m)) < fuel)%nat ->
  exists pages, list_pages fuel env f cur m = Ok pages
    /\ concat pages = drop k (list_rows f None m)
    /\ Forall (fun p => length p <= page_limit f)%nat pages.
Proof.
  intros Hctx Hwf Hl. revert k cur after. induction fuel as [|fuel IH]; intros k cur after Hcur Hrows Hf; [lia|].
  pose proof (ListCodes_page env f cur after m k Hctx Hwf Hl Hcur Hrows) as Hp. cbn zeta in Hp.
  cbn [list_pages]. case_bool_decide as Hlt.
  - destruct Hp as (x & Hx & -> & Hnext). cbn [res_bind].
    apply (list_rows_elem _ _ _ Hwf) in Hx as [Hx _]. destruct (Hl _ _ Hx) as [Hid Hy].
    rewrite (proj2 (String.eqb_neq _ _) (encodeCursor_nonempty (pos_of x))).
    destruct (IH (k + page_limit f)%nat (encodeCursor (pos_of x)) (Some (pos_of x)))
      as (pages & -> & Hc & Hlen).
    + by rewrite (proj2 (String.eqb_neq _ _) (encodeCursor_nonempty _)), decode_encodeCursor.
    + done.
    + pose proof (page_limit_pos f). rewrite !length_drop in *. lia.
    + simpl. eexists. split; [done|]. split.
      * simpl. by rewrite Hc, <- drop_drop, take_drop.
      * constructor; [|done]. rewrite length_take. lia.
  - rewrite Hp. simpl. eexists. split; [done|]. split; [simpl; by rewrite app_nil_r|].
    constructor; [lia|constructor].
Qed.

(** ** Retention *)
Lemma indexed_snd {A} (l : list A) : (indexed l).*2 = l.
Proof. unfold indexed. apply snd_zip. rewrite length_seq. lia. Qed.

Lemma indexed_fst {A} (l : list A) : (indexed l).*1 = seq 0 (length l).
Proof. unfold indexed. apply fst_zip. rewrite length_seq. lia. Qed.

Lemma indexed_NoDup {A} (l : list A) : NoDup (indexed l).
Proof. apply (NoDup_fmap_1 fst). rewrite indexed_fst. apply NoDup_seq. Qed.

Lemma indexed_inj {A} (l : list A) p q : p ∈ indexed l -> q ∈ indexed l -> p.1 = q.1 -> p = q.
Proof.
  intros Hp Hq E. apply list_elem_of_lookup in Hp as [i Hi], Hq as [j Hj].
  pose proof (indexed_fst l) as F.
  assert (p.1 = i) as <-.
  { pose proof (f_equal (lookup i) F) as G. rewrite list_lookup_fmap, Hi in G. simpl in G.
    symmetry in G. apply lookup_seq in G. lia. }
  assert (q.1 = j) as <-.
  { pose proof (f_equal (lookup j) F) as G. rewrite list_lookup_fmap, Hj in G. simpl in G.
    symmetry in G. apply lookup_seq in G. lia. }
  congruence.
Qed.

#[local] Instance victim_less_order : StrictWeakOrder victim_less.
Proof. unfold victim_less, Before. apply _. Qed.

Definition old (before : Z) (r : scanRow) : Prop := OccurredAt (sr_ev r) < before.

(** Selecting rows of a list by their indices. *)
Lemma filter_by_index {A} (l : list A) (vs : list (nat * A)) :
  NoDup vs -> (forall p, p ∈ vs -> p ∈ indexed l) ->
  filter (fun p => p.1 ∈ (list_to_set vs.*1 : gset nat)) (indexed l) ≡ₚ vs.
Proof.
  intros Hnd Hin. apply NoDup_Permutation.
  - apply NoDup_filter, indexed_NoDup.
  - done.
  - intros p. rewrite list_elem_of_filter, elem_of_list_to_set, list_elem_of_fmap. split.
    + intros [(q & E & Hq) Hp]. by rewrite (indexed_inj l p q) by auto.
    + intros Hp. split; [by exists p|auto].
Qed.

Definition old_sorted (before : Z) (evs : list scanRow) : list (nat * scanRow) :=
  sort_Slice victim_less
    (filter (fun p => Before (OccurredAt (sr_ev p.2)) before = true) (indexed evs)).

Lemma old_sorted_elem before evs p :
  p ∈ old_sorted before evs <-> old before p.2 /\ p ∈ indexed evs.
Proof.
  unfold old_sorted, old. rewrite (sort_Slice_Permutation victim_less), list_elem_of_filter.
  unfold Before. by rewrite Z.ltb_lt.
Qed.

Lemma old_sorted_NoDup before evs : NoDup (old_sorted before evs).
Proof.
  unfold old_sorted. rewrite (sort_Slice_Permutation victim_less). apply NoDup_filter, indexed_NoDup.
Qed.

Lemma old_sorted_length before evs :
  length (old_sorted before evs)
  = length (filter (fun r => Before (OccurredAt (sr_ev r)) before = true) evs).
Proof.
  unfold old_sorted. rewrite (sort_Slice_Permutation victim_less).
  rewrite <- (indexed_snd evs) at 2. rewrite filter_fmap, length_fmap. done.
Qed.

(** A victim is not newer than an old row left for a later round. *)
Lemma victims_oldest n before evs p q :
  p ∈ take n (old_sorted before evs) -> q ∈ drop n (old_sorted before evs) ->
  OccurredAt (sr_ev p.2) <= OccurredAt (sr_ev q.2).
Proof.
  intros Hp Hq. pose proof (sort_Slice_sorted victim_less
    (filter (fun p => Before (OccurredAt (sr_ev p.2)) before = true) (indexed evs))) as HS.
  fold (old_sorted before evs) in HS. rewrite <- (take_drop n (old_sorted before evs)) in HS.
  pose proof (StronglySorted_app_1_elem_of _ _ _ _ _ HS Hp Hq) as Hle.
  unfold not_less, victim_less, lex_less, Before in Hle.
  destruct (Z.ltb_spec (OccurredAt (sr_ev q.2)) (OccurredAt (sr_ev p.2))); [done|lia].
Qed.
(** One round of pruning splits the events. *)
Lemma prune_split (env : Env) (before limit : Z) (m : memStore) :
  ctx_Err env = None -> 0 < limit ->
  let '(r, m') := PruneScanEvents env before limit m in
  exists dropped,
    r = Ok (Z.of_nat (length dropped))
    /\ length dropped = Nat.min (Z.to_nat limit)
         (length (filter (fun e => Before (OccurredAt (sr_ev e)) before = true) (events m)))
    /\ events m ≡ₚ dropped ++ events m' /\ sublist (events m') (events m)
    /\ Forall (old before) dropped
    /\ (forall d e, d ∈ dropped -> e ∈ events m' -> old before e ->
         OccurredAt (sr_ev d) <= OccurredAt (sr_ev e))
    /\ m' = set_events (fun _ => events m') m.
Proof.
  intros Hctx Hlim. unfold PruneScanEvents, with_ctx. rewrite Hctx.
  destruct (Z.leb_spec limit 0) as [|_]; [lia|].
  unfold victims. fold (old_sorted before (events m)).
  set (L := old_sorted before (events m)). set (n := Z.to_nat limit). set (vs := take n L).
  assert (Hsub : forall p, p ∈ vs -> old before p.2 /\ p ∈ indexed (events m)).
  { intros p (i & Hi & _)%elem_of_take. apply old_sorted_elem. by eapply list_elem_of_lookup_2. }
  assert (Hnd : NoDup vs) by (eapply sublist_NoDup; [apply old_sorted_NoDup | apply sublist_take]).
  set (drop_ := list_to_set vs.*1 : gset nat).
  set (kept := filter (fun p : nat * scanRow => p.1 ∉ drop_) (indexed (events m))).
  pose proof (filter_by_index (events m) vs Hnd (fun p Hp => proj2 (Hsub p Hp))) as Hperm.
  pose proof (filter_app_complement (fun p : nat * scanRow => p.1 ∈ drop_) (indexed (events m))) as Hsplit.
  fold drop_ in Hperm. rewrite Hperm in Hsplit. fold kept in Hsplit.
  exists vs.*2. rewrite length_fmap. split_and!.
  - done.
  - unfold vs, L. by rewrite length_take, old_sorted_length.
  - change (events (set_events _ m)) with kept.*2.
    by rewrite <- (indexed_snd (events m)), <- Hsplit, fmap_app.
  - change (events (set_events _ m)) with kept.*2. rewrite <- (indexed_snd (events m)).
    apply fmap_sublist, sublist_filter.
  - apply Forall_fmap, Forall_forall. intros p Hp. by apply Hsub.
  - change (events (set_events _ m)) with kept.*2.
    intros d e (p & -> & Hp)%list_elem_of_fmap (q & -> & Hq)%list_elem_of_fmap Hold.
    apply (victims_oldest n before (events m)); [done|]. fold L.
    apply list_elem_of_filter in Hq as [Hq1 Hq2].
    assert (HqL : q ∈ L) by by apply old_sorted_elem.
    rewrite <- (take_drop n L), elem_of_app in HqL. destruct HqL as [HqL|]; [|done].
    exfalso. apply Hq1. apply elem_of_list_to_set, list_elem_of_fmap. by exists q.
  - done.
Qed.

(** ** The in-memory store implements the scan interface *)
#[export] Instance memStore_scan_store : ScanStore memStore := {
  st_InsertScanBatch := InsertScanBatch;
  st_PruneScanEvents := PruneScanEvents;
}.

Lemma events_append evs m : sr_ev <$> events (foldl append_event m evs) = ((sr_ev <$> events m) ++ evs)%list.
Proof.
  revert m. induction evs as [|ev evs IH]; intros m; simpl; [by rewrite app_nil_r|].
  rewrite IH. simpl. by rewrite fmap_app, <- app_assoc.
Qed.
Lemma events_deltas rs m : events (foldl apply_delta m rs) = events m.
Proof. revert m. induction rs as [|r rs IH]; intros m; simpl; [done|]. by rewrite IH. Qed.

#[export] Program Instance memStore_scan_laws : ScanStoreLaws memStore := {
  scans m := sr_ev <$> events m;
}.
Next Obligation.
  intros env b m m'. simpl. unfold InsertScanBatch, with_ctx. repeat case_match; intros [= <-].
  by rewrite events_deltas, events_append.
Qed.
Next Obligation.
  intros env b m e m'. simpl. unfold InsertScanBatch, with_ctx. repeat case_match; by intros [= <- <-].
Qed.
Next Obligation.
  intros env before limit m n m' E Hlim. simpl in *.
  assert (Hctx : ctx_Err env = None).
  { revert E. unfold PruneScanEvents, with_ctx. by destruct (ctx_Err env). }
  pose proof (prune_split env before limit m Hctx Hlim) as H. rewrite E in H.
  destruct H as (dropped & [= ->] & Hlen & Hperm & _ & Hold & _). exists (sr_ev <$> dropped).
  rewrite length_fmap. split_and!; [done|by rewrite Hperm, fmap_app| |].
  - apply Forall_fmap. eapply Forall_impl; [exact Hold|]. intros r. unfold old, is_old, Before. simpl. lia.
  - rewrite Hlen, filter_fmap, length_fmap. done.
Qed.
Next Obligation.
  intros env before limit m e m'. simpl. unfold PruneScanEvents, with_ctx. repeat case_match; by intros [= <- <-].
Qed.
End listing.

(** ** Properties *)
Section properties.
Context `{U : UnicodeTable} `{TF : TimeFormat} `{TFO : !TimeFormatOk}.

(** Paging through [ListCodes].  Following the returned cursors from the
    first page yields, after at most one page per code plus one, pages of at
    most the limit whose concatenation is the whole listing: every live code
    of the user that passes the filter, exactly once, newest first. *)
Theorem ListCodes_pages (env : Env) (f : CodeFilter) (m : memStore) :
  wf_store m -> listable m -> ctx_Err env = None ->
  exists pages, list_pages (S (size (codes m))) env f "" m = Ok pages
    /\ Forall (fun p => length p <= page_limit f)%nat pages
    /\ NoDup (concat pages)
    /\ StronglySorted (not_less list_less) (concat pages)
    /\ forall c, c ∈ concat pages <-> codes m !! code_ID c = Some c /\ list_match f None c = true.
Proof.
  intros Hwf Hl Hctx.
  destruct (list_pages_from env f m (S (size (codes m))) 0 "" None Hctx Hwf Hl) as (pages & E & Hc & Hlen).
  - done.
  - done.
  - unfold list_rows. rewrite drop_0, (Permutation_length (sort_Slice_Permutation _ _)).
    pose proof (length_filter (fun c => list_match f None c = true) (map_to_list (codes m)).*2).
    rewrite length_fmap, length_map_to_list in *. lia.
  - rewrite drop_0 in Hc. exists pages. rewrite Hc. split_and!; [done|done| | |].
    + by apply list_rows_NoDup.
    + apply sort_Slice_sorted. unfold list_less, After. apply _.
    + intros c. by apply list_rows_elem.
Qed.

(** One round of pruning removes the oldest raw events, as many as the
    limit allows, keeps the others in order, and touches nothing else (the
    aggregates in particular). *)
Theorem PruneScanEvents_oldest (env : Env) (before limit : Z) (m : memStore) :
  ctx_Err env = None -> 0 < limit ->
  let '(r, m') := PruneScanEvents env before limit m in
  exists dropped,
    r = Ok (Z.of_nat (length dropped))
    /\ length dropped = Nat.min (Z.to_nat limit)
         (length (filter (fun e => Before (OccurredAt (sr_ev e)) before = true) (events m)))
    /\ events m ≡ₚ dropped ++ events m' /\ sublist (events m') (events m)
    /\ Forall (old before) dropped
    /\ (forall d e, d ∈ dropped -> e ∈ events m' -> old before e ->
         OccurredAt (sr_ev d) <= OccurredAt (sr_ev e))
    /\ m' = set_events (fun _ => events m') m.
Proof. apply prune_split. Qed.
End properties.

(** ** Witnesses *)
Definition three_codes : memStore :=
  run [(env0, OpCreateCodes [sample_code "cod_1" "abc" "usr_1"; sample_code "cod_2" "def" "usr_1";
                             sample_code "cod_3" "ghi" "usr_1"])] NewMemStore.
Definition two_per_page : CodeFilter :=
  {| f_UserID := "usr_1"; CreatedAfter := None; CreatedBefore := None; f_Destination := ""; Limit := 2; Cursor := "" |}.

Lemma ListCodes_pages_witness :
  exists pages, list_pages 4 env0 two_per_page "" three_codes = Ok pages
    /\ map (map code_ID) pages = [["cod_3"; "cod_2"]; ["cod_1"]] /\ NoDup (concat pages).
Proof.
  destruct (ListCodes_pages env0 two_per_page three_codes) as (pages & E & _ & Hnd & _).
  - apply wf_run, wf_NewMemStore.
  - intros id c Hc.
    assert (Hall : map_Forall (fun id c => id <> "" /\ year_ok (code_CreatedAt c)) (codes three_codes)).
    { unfold year_ok. apply (bool_decide_unpack _). vm_compute. reflexivity. }
    exact (Hall id c Hc).
  - reflexivity.
  - exists pages. split; [exact E|]. split; [|exact Hnd].
    assert (F : list_pages 4 env0 two_per_page "" three_codes = Ok pages) by exact E.
    vm_compute in F. injection F as <-. reflexivity.
Defined.

Definition scan_at (t : Z) : ScanEvent :=
  {| ev_CodeID := "cod_1"; OccurredAt := t; UAFamily := "Safari"; ev_DeviceCategory := "mobile";
     ReferrerHost := ""; IsBot := false |}.
Definition scanned : memStore :=
  run [(env0, OpInsertScanBatch {| Events := [scan_at (epoch + 2); scan_at epoch; scan_at (epoch + 1)];
                                   Rollups := [] |})] three_codes.

Lemma PruneScanEvents_oldest_witness :
  let '(r, m') := PruneScanEvents env0 (epoch + 2) 1 scanned in
  r = Ok 1 /\ map (OccurredAt ∘ sr_ev) (events m') = [epoch + 2; epoch + 1] /\ sublist (events m') (events scanned).
Proof.
  pose proof (PruneScanEvents_oldest env0 (epoch + 2) 1 scanned eq_refl ltac:(lia)) as H.
  assert (E : (PruneScanEvents env0 (epoch + 2) 1 scanned).1 = Ok 1
    /\ map (OccurredAt ∘ sr_ev) (events (PruneScanEvents env0 (epoch + 2) 1 scanned).2) = [epoch + 2; epoch + 1])
    by (vm_compute; split; reflexivity).
  destruct (PruneScanEvents env0 (epoch + 2) 1 scanned) as [r m'].
  destruct H as (dropped & _ & _ & _ & Hs & _). destruct E. auto.
Defined.
