(* ===== verification/ScanPipeline.v ===== *)
(** * The scan pipeline, from batches to answers

    [Recorder.flush] stores each batch of raw events together with the rollup
    deltas [BuildRollups] makes of it, and [QueryAnalytics] answers from the
    rollups alone.  Whatever else happens to the store in between (pruning of
    the raw events included), an answer counts exactly the scans stored. *)
From Stdlib Require Import Ascii String.
From S2P Require Import GoLib Domain Rollup MemStore MemStoreFacts Concrete.
Local Open Scope string_scope.
Local Open Scope Z_scope.

Section pipeline.
Context `{U : UnicodeTable} `{TF : TimeFormat}.

(** Batches as the recorder makes them. *)
Definition batch_of (evs : list ScanEvent) : ScanBatch :=
  {| Events := evs; Rollups := BuildRollups evs |}.

Definition rolled_up (o : op) : Prop :=
  match o with OpInsertScanBatch b => b = batch_of (Events b) | _ => True end.

(** The events of the batches the store took. *)
Fixpoint accepted (tr : list (Env * op)) (m : memStore) : list ScanEvent :=
  match tr with
  | [] => []
  | (env, o) :: tr' =>
      (match o with
       | OpInsertScanBatch b => if is_Ok (InsertScanBatch env b m).1 then Events b else []
       | _ => []
       end ++ accepted tr' (exec env o m))%list
  end.

Lemma foldl_append_event_rollups evs m : rollups (foldl append_event m evs) = rollups m.
Proof. revert m. induction evs as [|ev evs IH]; intros m; simpl; [done|]. by rewrite IH. Qed.

Lemma foldl_apply_delta P rs m :
  wrap64 (psum P (rollups (foldl apply_delta m rs))) = wrap64 (psum P (rollups m) + delta_sum P rs).
Proof.
  revert m. induction rs as [|r rs IH]; intros m; simpl; [by rewrite Z.add_0_r|].
  rewrite IH. simpl. rewrite <- wrap64_add_l, psum_bump, wrap64_add_l. f_equal.
  unfold delta_sum. simpl. lia.
Qed.

Lemma insert_row_rollups now cp m : rollups (insert_row now cp m) = rollups m.
Proof. unfold insert_row. simpl. by destruct (String.eqb (ClientRef cp) ""). Qed.

Lemma write_rows_rollups env cs off m : rollups (write_rows env off cs m).2 = rollups m.
Proof.
  revert off m. induction cs as [|c cs IH]; intros off m; [done|]. cbn [write_rows].
  specialize (IH (off + styling_draws c)%nat (insert_row (time_Now env) (stored_row env off c) m)).
  destruct (write_rows _ _ cs _). cbn [snd] in *. by rewrite IH, insert_row_rollups.
Qed.

(** Only [InsertScanBatch] changes the rollups. *)
Lemma exec_rollups env o m :
  match o with OpInsertScanBatch _ => True | _ => rollups (exec env o m) = rollups m end.
Proof.
  destruct o; try done; cbn [exec].
  6: { unfold CreateCodes, with_ctx. destruct (ctx_Err env); [done|].
       destruct (check_rows _ _ _ _ _); [done|]. pose proof (write_rows_rollups env cs 0 m) as E.
       by destruct (write_rows env 0 cs m). }
  all: unfold CreateUser, BumpTokenVersion, CreateToken, RevokeToken, TouchTokenLastUsed,
    UpdateDestination, SetCodeState, DeleteCode, ReleaseAlias, PruneScanEvents, with_ctx;
    repeat case_match; simplify_eq/=; done.
Qed.

Lemma exec_dim Q d env o m :
  d ∈ dimensions -> rolled_up o ->
  wrap64 (psum (in_dim Q d) (rollups (exec env o m)))
  = wrap64 (psum (in_dim Q d) (rollups m) + count_events Q (accepted [(env, o)] m)).
Proof.
  intros Hd Ho. cbn [accepted]. rewrite app_nil_r. pose proof (exec_rollups env o m) as Hx.
  destruct o; try (rewrite Hx; simpl; by rewrite Z.add_0_r).
  simpl in Ho. cbn [exec]. unfold InsertScanBatch, with_ctx.
  destruct (ctx_Err env); [simpl; by rewrite Z.add_0_r|].
  destruct (check_events m (Events b)); [simpl; by rewrite Z.add_0_r|].
  destruct (check_rollups m (Rollups b)); [simpl; by rewrite Z.add_0_r|].
  cbn [fst snd is_Ok]. rewrite foldl_apply_delta, foldl_append_event_rollups, Ho. simpl.
  apply wrap64_add_cong; [done|]. by apply BuildRollups_dim.
Qed.

Lemma count_events_app Q l k : count_events Q (l ++ k)%list = count_events Q l + count_events Q k.
Proof. apply sumZ_app. Qed.

Lemma run_dim Q d tr m :
  d ∈ dimensions -> Forall (fun p => rolled_up p.2) tr ->
  wrap64 (psum (in_dim Q d) (rollups (run tr m)))
  = wrap64 (psum (in_dim Q d) (rollups m) + count_events Q (accepted tr m)).
Proof.
  intros Hd Htr. revert m. induction Htr as [|[env o] tr Ho Htr IH]; intros m.
  - simpl. by rewrite Z.add_0_r.
  - change (run ((env, o) :: tr) m) with (run tr (exec env o m)).
    pose proof (exec_dim Q d env o m Hd Ho) as E. cbn [accepted] in E. rewrite app_nil_r in E.
    cbn [accepted]. rewrite IH, count_events_app, <- wrap64_add_l, E, wrap64_add_l. f_equal. lia.
Qed.

(** The scans a query is about. *)
Definition query_scope (q : AnalyticsQuery) (c : string) (hour : Z) : bool :=
  String.eqb c (q_CodeID q) && negb (Before hour (q_From q)) && Before hour (q_To q).

Lemma query_rows_sum q d (m : gmap rollupKey Z) :
  row_sum (is_dim d) (filter (fun p : rollupKey * Z => in_query q p.1 = true) (map_to_list m))
  = psum (in_dim (query_scope q) d) m.
Proof.
  unfold row_sum, psum, msum. generalize (map_to_list m) as l.
  induction l as [|[k n] l IH]; [done|]. rewrite filter_cons. simpl. rewrite <- IH.
  unfold in_dim, query_scope, in_query, is_dim. simpl.
  destruct (String.eqb (rk_code k) (q_CodeID q) && negb (Before (rk_hour k) (q_From q))
            && Before (rk_hour k) (q_To q)); simpl; done.
Qed.

Lemma add_rows_ok rows a : int64_ok (a_total a) -> int64_ok (a_total (foldl add_row a rows)).
Proof.
  revert a. induction rows as [|p rows IH]; intros a Ha; simpl; [done|]. apply IH.
  unfold add_row, add. destruct (String.eqb _ _); simpl; [apply wrap64_ok|done].
Qed.

(** C29: conservation of scans.  After any operations in which scans are
    stored with their rollups, the answer to a query has as its total the
    number of stored scans of that code in the range's hours (at the width
    of the counter), and its series and each of its four breakdowns add up to that total. *)
Theorem QueryAnalytics_conserves (tr : list (Env * op)) (env : Env) (q : AnalyticsQuery) (d : Dimension) :
  Forall (fun p => rolled_up p.2) tr -> ctx_Err env = None ->
  d ∈ dimensions -> d <> DimTotal ->
  exists r, QueryAnalytics env q (run tr NewMemStore) = Ok r
    /\ Total r = wrap64 (count_events (query_scope q) (accepted tr NewMemStore))
    /\ wrap64 (sumZ sp_Count (Series r)) = Total r
    /\ wrap64 (sumZ bv_Count (default [] (Breakdowns r !! d))) = Total r.
Proof.
  intros Htr Hctx Hd Hne. unfold QueryAnalytics, read_ctx. rewrite Hctx.
  set (rows := filter _ _). set (a0 := newAggregator _).
  exists (agg_result (foldl add_row a0 rows)). split; [done|].
  assert (Hscope : forall d', d' ∈ dimensions ->
    wrap64 (row_sum (is_dim d') rows) = wrap64 (count_events (query_scope q) (accepted tr NewMemStore))).
  { intros d' Hd'. unfold rows. rewrite query_rows_sum, run_dim by done.
    unfold NewMemStore at 1. simpl. by rewrite psum_empty. }
  assert (Htot : DimTotal ∈ dimensions) by (unfold dimensions; set_solver).
  destruct (add_rows_total rows a0) as [T1 T2].
  assert (E : a_total (foldl add_row a0 rows)
              = wrap64 (count_events (query_scope q) (accepted tr NewMemStore))).
  { rewrite <- (wrap64_id (a_total _)) by by apply add_rows_ok. rewrite T1. by apply Hscope. }
  rewrite agg_result_breakdown. cbn [Total Series agg_result]. rewrite series_rows_sum, E.
  split; [done|]. split.
  - rewrite T2. simpl. rewrite psum_empty. by apply Hscope.
  - rewrite add_rows_breakdown by done. unfold breakdown_of. simpl.
    rewrite lookup_empty. simpl. rewrite psum_empty. by apply Hscope.
Qed.
End pipeline.

(** ** Witness *)
Definition scan_of (code family : string) (t : Z) : ScanEvent :=
  {| ev_CodeID := code; OccurredAt := t; UAFamily := family; ev_DeviceCategory := "mobile";
     ReferrerHost := ""; IsBot := false |}.
Definition scan_trace : list (Env * op) :=
  [(env0, OpCreateCodes [sample_code "cod_1" "abc" "usr_1"]);
   (env0, OpInsertScanBatch (batch_of [scan_of "cod_1" "Safari" epoch; scan_of "cod_1" "Chrome" (epoch + 1)]));
   (env0, OpPruneScanEvents (epoch + Day) 10)].
Definition week_query : AnalyticsQuery :=
  {| q_CodeID := "cod_1"; q_From := epoch - Day; q_To := epoch + 7 * Day; q_Bucket := "" |}.

Lemma QueryAnalytics_conserves_witness :
  exists r, QueryAnalytics env0 week_query (run scan_trace NewMemStore) = Ok r /\ Total r = 2
    /\ wrap64 (sumZ bv_Count (default [] (Breakdowns r !! DimUAFamily))) = Total r.
Proof.
  destruct (QueryAnalytics_conserves scan_trace env0 week_query DimUAFamily) as (r & E & Ht & _ & Hb).
  - unfold scan_trace. repeat constructor.
  - reflexivity.
  - apply (bool_decide_unpack _). vm_compute. reflexivity.
  - apply (bool_decide_unpack _). vm_compute. reflexivity.
  - exists r. split; [exact E|]. split; [|exact Hb]. rewrite Ht. vm_compute. reflexivity.
Defined.
