(* ===== verification/Recorder.v ===== *)
(** * The scan recorder ([internal/analytics/recorder.go])

    Request goroutines enqueue scan events on a bounded channel; worker
    goroutines take them off, batch them and flush each batch with its rollups
    in one store call.  The recorder is a labelled transition system: a label
    is one atomic action of one goroutine, [step] executes it, and a run is a
    list of labels in the order the scheduler picked.

    Then invariants of every run of [step] from [NewRecorder], by induction on
    the run, for any store with the laws of [ScanStoreLaws]: every event given
    to [Record] is, exactly once, stored, counted as dropped, or still in the
    pipeline; the buffer and the batches stay within their bounds; and after
    [Close] the workers always finish.  The witnesses run it on the in-memory
    store. *)
From Stdlib Require Import Ascii String.
From AAC_tactics Require Import AAC.
From AAC_tactics Require Instances.
From S2P Require Import GoLib Domain Rollup MemStore Concrete MemStoreFacts Store Listing.
Local Open Scope string_scope.
Local Open Scope Z_scope.
Import Instances.Lists.
Local Open Scope list_scope.

Record Options := {
  BufferSize : Z;
  BatchSize : Z;
  FlushInterval : Z;
  Workers : Z;
  FlushTimeout : Z;
}.

Definition or_positive (z d : Z) : Z := if z <=? 0 then d else z.

Definition withDefaults (o : Options) : Options := {|
  BufferSize := or_positive (BufferSize o) 10000;
  BatchSize := or_positive (BatchSize o) 200;
  FlushInterval := or_positive (FlushInterval o) (500 * 1000 * Microsecond);
  Workers := or_positive (Workers o) 2;
  FlushTimeout := or_positive (FlushTimeout o) (10 * Second);
|}.

(** Where a worker goroutine is. *)
Inductive worker :=
| AtSelect (batch : list ScanEvent)                     (* the select of the loop *)
| Taken (ev : ScanEvent) (batch : list ScanEvent)       (* received, not yet counted in flight *)
| Flushing (batch : list ScanEvent) (exiting : bool)    (* before the store call *)
| Failed (batch : list ScanEvent) (exiting : bool)      (* the store refused; not yet counted *)
| Flushed (n : Z) (exiting : bool)                      (* before the deferred decrement *)
| Done.

(** The recorder with its store.  [recorded], [lost] and [persisted] are ghost
    state: the events given to [Record], those counted as dropped, and those
    the store took. *)
Record recorder (S : Type) := {
  r_opts : Options;
  r_store : S;
  r_ch : list ScanEvent;
  r_closed : bool;
  r_inflight : Z;
  r_dropped : Z;
  r_workers : list worker;
  recorded : list ScanEvent;
  lost : list ScanEvent;
  persisted : list ScanEvent;
}.
Global Arguments r_opts {S}.
Global Arguments r_store {S}.
Global Arguments r_ch {S}.
Global Arguments r_closed {S}.
Global Arguments r_inflight {S}.
Global Arguments r_dropped {S}.
Global Arguments r_workers {S}.
Global Arguments recorded {S}.
Global Arguments lost {S}.
Global Arguments persisted {S}.

(** The atomic actions. *)
Inductive label :=
| LRecord (ev : ScanEvent)
| LClose
| LReceive (i : nat)
| LExit (i : nat)             (* the channel is closed and drained *)
| LTick (i : nat)
| LCount (i : nat)
| LStore (i : nat) (env : Env)
| LDrop (i : nat)
| LRelease (i : nat).

Section recorder.
Context {DB : Type} `{SS : ScanStore DB}.

Definition NewRecorder (st : DB) (opts : Options) : recorder DB :=
  let opts := withDefaults opts in
  {| r_opts := opts; r_store := st; r_ch := []; r_closed := false; r_inflight := 0; r_dropped := 0;
     r_workers := replicate (Z.to_nat (Workers opts)) (AtSelect []);
     recorded := []; lost := []; persisted := [] |}.

(** [Record]. *)
Definition Record_ (ev : ScanEvent) (r : recorder DB) : recorder DB :=
  let drop := r_closed r || negb (Z.of_nat (length (r_ch r)) <? BufferSize (r_opts r)) in
  {| r_opts := r_opts r; r_store := r_store r;
     r_ch := if drop then r_ch r else r_ch r ++ [ev];
     r_closed := r_closed r; r_inflight := r_inflight r;
     r_dropped := if drop then r_dropped r + 1 else r_dropped r;
     r_workers := r_workers r;
     recorded := ev :: recorded r; lost := if drop then ev :: lost r else lost r;
     persisted := persisted r |}.

(** The first part of [Close]; it then waits for the workers. *)
Definition Close (r : recorder DB) : recorder DB :=
  {| r_opts := r_opts r; r_store := r_store r; r_ch := r_ch r; r_closed := true;
     r_inflight := r_inflight r; r_dropped := r_dropped r; r_workers := r_workers r;
     recorded := recorded r; lost := lost r; persisted := persisted r |}.

(** [wg.Wait] returns. *)
Definition all_done (r : recorder DB) : bool :=
  forallb (fun w => match w with Done => true | _ => false end) (r_workers r).

Definition Unflushed (r : recorder DB) : Z := Z.of_nat (length (r_ch r)) + r_inflight r.

(** One worker moves; the shared variables it writes. *)
Definition move (i : nat) (w : worker) (ch : list ScanEvent) (inflight : Z) (r : recorder DB) : recorder DB :=
  {| r_opts := r_opts r; r_store := r_store r; r_ch := ch; r_closed := r_closed r;
     r_inflight := inflight; r_dropped := r_dropped r; r_workers := <[i := w]> (r_workers r);
     recorded := recorded r; lost := lost r; persisted := persisted r |}.

(** The events of the worker's next batch. *)
Definition next_loop (exiting : bool) : worker := if exiting then Done else AtSelect [].

Definition receive (i : nat) (r : recorder DB) : option (recorder DB) :=
  match r_workers r !! i, r_ch r with
  | Some (AtSelect batch), ev :: ch => Some (move i (Taken ev batch) ch (r_inflight r) r)
  | _, _ => None
  end.

Definition exit_ (i : nat) (r : recorder DB) : option (recorder DB) :=
  match r_workers r !! i, r_ch r with
  | Some (AtSelect batch), [] =>
      if r_closed r then Some (move i (Flushing batch true) [] (r_inflight r) r) else None
  | _, _ => None
  end.

Definition tick (i : nat) (r : recorder DB) : option (recorder DB) :=
  match r_workers r !! i with
  | Some (AtSelect (ev :: batch)) => Some (move i (Flushing (ev :: batch) false) (r_ch r) (r_inflight r) r)
  | _ => None
  end.

Definition count (i : nat) (r : recorder DB) : option (recorder DB) :=
  match r_workers r !! i with
  | Some (Taken ev batch) =>
      let batch := (batch ++ [ev])%list in
      let w := if BatchSize (r_opts r) <=? Z.of_nat (length batch) then Flushing batch false else AtSelect batch in
      Some (move i w (r_ch r) (r_inflight r + 1) r)
  | _ => None
  end.

(** [flush] up to the return of the store. *)
Definition flush (i : nat) (env : Env) (r : recorder DB) : option (recorder DB) :=
  match r_workers r !! i with
  | Some (Flushing [] exiting) => Some (move i (next_loop exiting) (r_ch r) (r_inflight r) r)
  | Some (Flushing batch exiting) =>
      let '(res, st) := st_InsertScanBatch env {| Events := batch; Rollups := BuildRollups batch |} (r_store r) in
      let w := match res with
               | Ok _ => Flushed (Z.of_nat (length batch)) exiting
               | Err _ => Failed batch exiting
               end in
      Some {| r_opts := r_opts r; r_store := st; r_ch := r_ch r; r_closed := r_closed r;
              r_inflight := r_inflight r; r_dropped := r_dropped r; r_workers := <[i := w]> (r_workers r);
              recorded := recorded r; lost := lost r;
              persisted := if is_Ok res then batch ++ persisted r else persisted r |}
  | _ => None
  end.

Definition drop_batch (i : nat) (r : recorder DB) : option (recorder DB) :=
  match r_workers r !! i with
  | Some (Failed batch exiting) =>
      let n := Z.of_nat (length batch) in
      Some {| r_opts := r_opts r; r_store := r_store r; r_ch := r_ch r; r_closed := r_closed r;
              r_inflight := r_inflight r; r_dropped := r_dropped r + n;
              r_workers := <[i := Flushed n exiting]> (r_workers r);
              recorded := recorded r; lost := batch ++ lost r; persisted := persisted r |}
  | _ => None
  end.

Definition release (i : nat) (r : recorder DB) : option (recorder DB) :=
  match r_workers r !! i with
  | Some (Flushed n exiting) => Some (move i (next_loop exiting) (r_ch r) (r_inflight r - n) r)
  | _ => None
  end.

Definition step (l : label) (r : recorder DB) : option (recorder DB) :=
  match l with
  | LRecord ev => Some (Record_ ev r)
  | LClose => Some (Close r)
  | LReceive i => receive i r
  | LExit i => exit_ i r
  | LTick i => tick i r
  | LCount i => count i r
  | LStore i env => flush i env r
  | LDrop i => drop_batch i r
  | LRelease i => release i r
  end.

Inductive reachable (st : DB) (opts : Options) : recorder DB -> Prop :=
| reach_start : reachable st opts (NewRecorder st opts)
| reach_step r l r' : reachable st opts r -> step l r = Some r' -> reachable st opts r'.
End recorder.

#[local] Instance lift_Permutation {A} : AAC_lift (@Permutation A) (@Permutation A) := {}.

(** ** Replacing one element of a list *)
Lemma delete_insert_at {A} (l : list A) i x : delete i (<[i := x]> l) = delete i l.
Proof. revert i. induction l as [|y l IH]; intros [|i]; simpl; try done. by rewrite IH. Qed.

Lemma at_Permutation {A} (l : list A) i x : l !! i = Some x -> l ≡ₚ x :: delete i l.
Proof. intros H. by apply delete_Permutation. Qed.

Lemma insert_Permutation {A} (l : list A) i x y : l !! i = Some x -> <[i := y]> l ≡ₚ y :: delete i l.
Proof.
  intros H. rewrite <- (delete_insert_at l i y). apply at_Permutation.
  apply list_lookup_insert_eq. by eapply lookup_lt_Some.
Qed.

#[export] Instance concat_Permutation {A} : Proper (Permutation ==> Permutation) (@concat A).
Proof.
  induction 1 as [|x l k _ IH|x y l|l1 l2 l3 _ IH1 _ IH2]; simpl; [done|by rewrite IH| |by rewrite IH1].
  rewrite !app_assoc. by rewrite (Permutation_app_comm y x).
Qed.

(** ** What a worker holds *)
Definition held (w : worker) : list ScanEvent :=
  match w with
  | AtSelect b | Flushing b _ | Failed b _ => b
  | Taken ev b => b ++ [ev]
  | Flushed _ _ | Done => []
  end.

(** What it has added to [inflight]. *)
Definition charge (w : worker) : Z :=
  match w with
  | AtSelect b | Taken _ b | Flushing b _ | Failed b _ => Z.of_nat (length b)
  | Flushed n _ => n
  | Done => 0
  end.

Definition within (size : Z) (w : worker) : Prop :=
  match w with
  | AtSelect b | Taken _ b => Z.of_nat (length b) < size
  | Flushing b _ | Failed b _ => Z.of_nat (length b) <= size
  | Flushed n _ => 0 <= n
  | Done => True
  end.

(** The worker has seen the channel closed and empty. *)
Definition leaving (w : worker) : Prop :=
  match w with
  | Flushing _ exiting | Failed _ exiting | Flushed _ exiting => exiting = true
  | Done => True
  | _ => False
  end.

Section facts.
Context {DB : Type} `{SS : ScanStore DB} `{SL : !ScanStoreLaws DB}.

Definition in_hand (r : recorder DB) : list ScanEvent := concat (held <$> r_workers r).

(** Events accepted and neither stored nor dropped yet. *)
Definition pending (r : recorder DB) : list ScanEvent := r_ch r ++ in_hand r.

Record inv (st0 : DB) (opts : Options) (r : recorder DB) : Prop := {
  i_opts : r_opts r = withDefaults opts;
  i_events : recorded r ≡ₚ lost r ++ persisted r ++ pending r;
  i_dropped : r_dropped r = Z.of_nat (length (lost r));
  i_inflight : r_inflight r = sumZ charge (r_workers r);
  i_buffer : Z.of_nat (length (r_ch r)) <= BufferSize (r_opts r);
  i_batches : Forall (within (BatchSize (r_opts r))) (r_workers r);
  i_leaving w : w ∈ r_workers r -> leaving w -> r_closed r = true /\ r_ch r = [];
  i_store : scans (r_store r) ≡ₚ scans st0 ++ persisted r;
  i_workers : length (r_workers r) = Z.to_nat (Workers (r_opts r));
}.

Lemma or_positive_pos z d : 0 < d -> 0 < or_positive z d.
Proof. unfold or_positive. destruct (Z.leb_spec z 0); lia. Qed.

Lemma defaults_positive o :
  0 < BufferSize (withDefaults o) /\ 0 < BatchSize (withDefaults o) /\ 0 < Workers (withDefaults o)
  /\ 0 < FlushInterval (withDefaults o) /\ 0 < FlushTimeout (withDefaults o).
Proof. unfold withDefaults. simpl. split_and!; apply or_positive_pos; unfold Microsecond, Second; lia. Qed.

Lemma held_replicate n : concat (held <$> replicate n (AtSelect [])) = [].
Proof. by induction n. Qed.
Lemma charge_replicate n : sumZ charge (replicate n (AtSelect [])) = 0.
Proof. induction n as [|n IH]; [done|]. simpl. by rewrite IH. Qed.

Lemma inv_start st0 opts : inv st0 opts (NewRecorder st0 opts).
Proof.
  destruct (defaults_positive opts) as (H1 & H2 & H3 & _). simpl in H1, H2, H3.
  split; simpl; try done.
  - unfold pending, in_hand. simpl. by rewrite held_replicate.
  - by rewrite charge_replicate.
  - lia.
  - apply Forall_replicate. simpl. done.
  - intros w [-> _]%elem_of_replicate. done.
  - by rewrite app_nil_r.
  - by rewrite length_replicate.
Qed.

(** Effect of one worker's move on the sums over all workers. *)
Lemma held_at ws i w : ws !! i = Some w -> concat (held <$> ws) ≡ₚ held w ++ concat (held <$> delete i ws).
Proof. intros H. by rewrite (fmap_Permutation held _ _ (at_Permutation ws i w H)). Qed.
Lemma held_insert ws i w w' :
  ws !! i = Some w -> concat (held <$> <[i := w']> ws) ≡ₚ held w' ++ concat (held <$> delete i ws).
Proof. intros H. by rewrite (fmap_Permutation held _ _ (insert_Permutation ws i w w' H)). Qed.
Lemma charge_insert ws i w w' :
  ws !! i = Some w -> sumZ charge (<[i := w']> ws) = sumZ charge ws - charge w + charge w'.
Proof.
  intros H. rewrite (sumZ_Permutation _ _ _ (insert_Permutation ws i w w' H)),
    (sumZ_Permutation _ _ _ (at_Permutation ws i w H)). simpl. lia.
Qed.
Lemma Forall_within size ws i w' : Forall (within size) ws -> within size w' -> Forall (within size) (<[i := w']> ws).
Proof. intros H1 H2. by apply Forall_insert. Qed.
Lemma leaving_insert (ws : list worker) (i : nat) w' (P : Prop) :
  (forall w, w ∈ ws -> leaving w -> P) -> (leaving w' -> P) -> forall w, w ∈ <[i := w']> ws -> leaving w -> P.
Proof.
  intros H1 H2 w Hw Hl. apply list_elem_of_lookup in Hw as [j Hj].
  apply list_lookup_insert_Some in Hj as [(-> & -> & _)|[_ Hj]]; [by apply H2|].
  eapply H1; [|done]. by eapply list_elem_of_lookup_2.
Qed.

(** The shape shared by the moves that do not call the store. *)
Lemma inv_move st0 opts r i w w' ch inflight :
  inv st0 opts r -> r_workers r !! i = Some w ->
  ch ++ held w' ≡ₚ r_ch r ++ held w -> inflight = r_inflight r - charge w + charge w' ->
  Z.of_nat (length ch) <= Z.of_nat (length (r_ch r)) -> within (BatchSize (r_opts r)) w' ->
  (leaving w' -> r_closed r = true /\ ch = []) -> (r_ch r = [] -> ch = []) ->
  inv st0 opts (move i w' ch inflight r).
Proof.
  intros [] Hw Hev Hin Hch Hwin Hleave Hnil. split; simpl; try done.
  - unfold pending, in_hand in *. simpl. rewrite (held_insert _ _ _ w' Hw).
    rewrite (held_at _ _ _ Hw) in i_events0. rewrite i_events0.
    transitivity (lost r ++ persisted r ++ (ch ++ held w') ++ concat (held <$> delete i (r_workers r)));
      [rewrite Hev|]; aac_reflexivity.
  - rewrite (charge_insert _ _ _ w' Hw). lia.
  - lia.
  - by apply Forall_within.
  - intros x Hx Hlx.
    apply list_elem_of_lookup in Hx as [j Hj].
    apply list_lookup_insert_Some in Hj as [(-> & -> & _)|[_ Hj]]; [by apply Hleave|].
    destruct (i_leaving0 x) as [? ?]; [by eapply list_elem_of_lookup_2|done|]. auto.
  - by rewrite length_insert.
Qed.

Lemma inv_worker st0 opts r i w :
  inv st0 opts r -> r_workers r !! i = Some w -> within (BatchSize (r_opts r)) w.
Proof. intros [] Hw. rewrite Forall_forall in i_batches0. apply i_batches0. by eapply list_elem_of_lookup_2. Qed.

Lemma inv_Record st0 opts r ev : inv st0 opts r -> inv st0 opts (Record_ ev r).
Proof.
  intros []. unfold Record_.
  destruct (r_closed r || negb (Z.of_nat (length (r_ch r)) <? BufferSize (r_opts r))) eqn:Hd.
  - split; simpl; try done.
    + by apply perm_skip.
    + rewrite i_dropped0. lia.
  - apply orb_false_elim in Hd as [Hc Hb]. apply negb_false_iff, Z.ltb_lt in Hb. split; simpl; try done.
    + unfold pending, in_hand in *. simpl. rewrite i_events0.
      change (ev :: lost r ++ persisted r ++ r_ch r ++ concat (held <$> r_workers r))
        with ([ev] ++ lost r ++ persisted r ++ r_ch r ++ concat (held <$> r_workers r)). aac_reflexivity.
    + rewrite length_app. simpl. lia.
    + intros w Hw Hl. destruct (i_leaving0 w Hw Hl). congruence.
Qed.

Lemma inv_Close st0 opts r : inv st0 opts r -> inv st0 opts (Close r).
Proof. intros []. split; simpl; try done. intros w Hw Hl. by destruct (i_leaving0 w Hw Hl). Qed.

Lemma inv_flush st0 opts r i env r' : inv st0 opts r -> flush i env r = Some r' -> inv st0 opts r'.
Proof.
  intros Hinv. unfold flush. destruct (r_workers r !! i) as [[b|e b|b x|b x|n x|]|] eqn:Hw; try done.
  pose proof (inv_worker _ _ _ _ _ Hinv Hw) as Hwin.
  assert (Hleave : leaving (Flushing b x) -> r_closed r = true /\ r_ch r = []).
  { apply (i_leaving _ _ _ Hinv). by eapply list_elem_of_lookup_2. }
  destruct b as [|ev b0].
  - destruct (defaults_positive opts) as (_ & Hb & _). pose proof (i_opts _ _ _ Hinv) as Ho. rewrite <- Ho in Hb.
    intros [= <-]. destruct x; (eapply inv_move; [done|done|..]; simpl in *; auto; try done; lia).
  - remember (ev :: b0) as b eqn:Hb. clear Hb. destruct Hinv. destruct (st_InsertScanBatch _ _ _) as [res st] eqn:E.
    intros [= <-].
    assert (Hst : scans st ≡ₚ scans st0 ++ (if is_Ok res then b ++ persisted r else persisted r)).
    { destruct res as [[]|e]; simpl.
      - apply InsertScanBatch_Ok in E. rewrite E, i_store0. simpl. aac_reflexivity.
      - apply InsertScanBatch_Err in E. by rewrite E. }
    split; simpl; try done.
    + unfold pending, in_hand in *. simpl. rewrite (held_insert _ _ _ _ Hw).
      rewrite (held_at _ _ _ Hw) in i_events0. rewrite i_events0. destruct res; simpl; aac_reflexivity.
    + rewrite (charge_insert _ _ _ _ Hw). destruct res; simpl; lia.
    + apply Forall_within; [done|]. destruct res; simpl; [lia|done].
    + apply leaving_insert; [done|]. by destruct res.
    + by rewrite length_insert.
Qed.

Lemma inv_drop st0 opts r i r' : inv st0 opts r -> drop_batch i r = Some r' -> inv st0 opts r'.
Proof.
  intros Hinv. unfold drop_batch. destruct (r_workers r !! i) as [[b|e b|b x|b x|n x|]|] eqn:Hw; try done.
  assert (Hleave : leaving (Failed b x) -> r_closed r = true /\ r_ch r = []).
  { apply (i_leaving _ _ _ Hinv). by eapply list_elem_of_lookup_2. }
  destruct Hinv. intros [= <-]. split; simpl; try done.
  - unfold pending, in_hand in *. simpl. rewrite (held_insert _ _ _ _ Hw).
    rewrite (held_at _ _ _ Hw) in i_events0. rewrite i_events0. simpl. aac_reflexivity.
  - rewrite length_app, i_dropped0. lia.
  - rewrite (charge_insert _ _ _ _ Hw). simpl. lia.
  - apply Forall_within; [done|]. simpl. lia.
  - apply leaving_insert; [done|]. done.
  - by rewrite length_insert.
Qed.

(** Closes the side conditions of [inv_move]. *)
Ltac by_move :=
  eapply inv_move; [done|done|..]; simpl in *; rewrite ?length_app in *; simpl in *;
  auto; try done; try lia; try aac_reflexivity.

Lemma inv_step st0 opts r l r' : inv st0 opts r -> step l r = Some r' -> inv st0 opts r'.
Proof.
  intros Hinv. destruct l as [ev| |i|i|i|i|i env|i|i]; simpl; [..|by apply inv_flush|by apply inv_drop|].
  - intros [= <-]. by apply inv_Record.
  - intros [= <-]. by apply inv_Close.
  - unfold receive. destruct (r_workers r !! i) as [[b|e b|b x|b x|n x|]|] eqn:Hw; try done.
    destruct (r_ch r) as [|ev ch] eqn:Hch; [done|]. intros [= <-].
    pose proof (inv_worker _ _ _ _ _ Hinv Hw) as Hwin.
    by_move; rewrite Hch; simpl; [|lia|done].
    change (ev :: ch ++ b) with ([ev] ++ ch ++ b). aac_reflexivity.
  - unfold exit_. destruct (r_workers r !! i) as [[b|e b|b x|b x|n x|]|] eqn:Hw; try done.
    destruct (r_ch r) as [|ev ch] eqn:Hch; [|done]. destruct (r_closed r) eqn:Hc; [|done]. intros [= <-].
    pose proof (inv_worker _ _ _ _ _ Hinv Hw) as Hwin. by_move; by rewrite Hch.
  - unfold tick. destruct (r_workers r !! i) as [[[|ev b]|e b|b x|b x|n x|]|] eqn:Hw; try done. intros [= <-].
    pose proof (inv_worker _ _ _ _ _ Hinv Hw) as Hwin. by_move.
  - unfold count. destruct (r_workers r !! i) as [[b|e b|b x|b x|n x|]|] eqn:Hw; try done. intros [= <-].
    pose proof (inv_worker _ _ _ _ _ Hinv Hw) as Hwin. simpl in Hwin.
    destruct (Z.leb_spec (BatchSize (r_opts r)) (Z.of_nat (length (b ++ [e])))); by_move.
  - unfold release. destruct (r_workers r !! i) as [[b|e b|b x|b x|n x|]|] eqn:Hw; try done. intros [= <-].
    assert (Hleave : leaving (Flushed n x) -> r_closed r = true /\ r_ch r = []).
    { apply (i_leaving _ _ _ Hinv). by eapply list_elem_of_lookup_2. }
    destruct (defaults_positive opts) as (_ & Hb & _). rewrite <- (i_opts _ _ _ Hinv) in Hb.
    destruct x; by_move.
Qed.

Lemma inv_reachable st0 opts r : reachable st0 opts r -> inv st0 opts r.
Proof. induction 1 as [|r l r' _ IH Hs]; [apply inv_start|by eapply inv_step]. Qed.
End facts.

(** ** Counting the workers between a receive and its accounting *)
Definition is_taken (w : worker) : Z := match w with Taken _ _ => 1 | _ => 0 end.
Definition settled (w : worker) : Z := match w with Flushed n _ => n | _ => 0 end.

Lemma charge_held w : charge w + is_taken w = Z.of_nat (length (held w)) + settled w.
Proof. destruct w; simpl; rewrite ?length_app; simpl; lia. Qed.

Lemma charges_held ws :
  sumZ charge ws + sumZ is_taken ws = Z.of_nat (length (concat (held <$> ws))) + sumZ settled ws.
Proof.
  induction ws as [|w ws IH]; [done|]. rewrite fmap_cons. simpl concat. rewrite length_app. simpl sumZ.
  pose proof (charge_held w). lia.
Qed.

(** ** Progress of the workers *)
Definition is_worker (l : label) : bool :=
  match l with LRecord _ | LClose => false | _ => true end.

(** Steps a worker can still take before it blocks or takes another event. *)
Definition weight (w : worker) : Z :=
  match w with
  | Done => 0
  | Flushed _ true => 1 | Failed _ true => 2 | Flushing _ true => 3
  | AtSelect [] => 4
  | Flushed _ false => 5 | Failed _ false => 6 | Flushing _ false => 7
  | AtSelect (_ :: _) => 8
  | Taken _ _ => 9
  end.

Lemma weight_nonneg w : 0 <= weight w.
Proof. destruct w as [[]| |? []|? []|? []|]; simpl; lia. Qed.

Lemma sumZ_insert {A} (f : A -> Z) (ws : list A) (i : nat) w w' :
  ws !! i = Some w -> sumZ f (<[i := w']> ws) = sumZ f ws - f w + f w'.
Proof.
  intros H. rewrite (sumZ_Permutation _ _ _ (insert_Permutation ws i w w' H)),
    (sumZ_Permutation _ _ _ (at_Permutation ws i w H)). simpl. lia.
Qed.

Section progress.
Context {DB : Type} `{SS : ScanStore DB}.

(** Bounds the worker steps that can follow. *)
Definition work (r : recorder DB) : Z := 6 * Z.of_nat (length (r_ch r)) + sumZ weight (r_workers r).

Lemma work_nonneg r : 0 <= work r.
Proof.
  unfold work. enough (0 <= sumZ weight (r_workers r)) by lia.
  induction (r_workers r) as [|w ws IH]; simpl; [lia|]. pose proof (weight_nonneg w). lia.
Qed.

Lemma worker_step_works l r r' : is_worker l = true -> step l r = Some r' -> work r' < work r.
Proof.
  unfold work. destruct l; simpl; try done; intros _.
  - unfold receive. destruct (r_workers r !! i) as [[[|]| | | | |]|] eqn:Hw; try done;
      (destruct (r_ch r); [done|]); intros [= <-]; simpl; rewrite (sumZ_insert _ _ _ _ _ Hw); simpl; lia.
  - unfold exit_. destruct (r_workers r !! i) as [[[|]| | | | |]|] eqn:Hw; try done;
      (destruct (r_ch r); [|done]); (destruct (r_closed r); [|done]); intros [= <-];
      simpl; rewrite (sumZ_insert _ _ _ _ _ Hw); simpl; lia.
  - unfold tick. destruct (r_workers r !! i) as [[[|]| | | | |]|] eqn:Hw; try done. intros [= <-].
    simpl; rewrite (sumZ_insert _ _ _ _ _ Hw); simpl; lia.
  - unfold count. destruct (r_workers r !! i) as [[|ev b| | | |]|] eqn:Hw; try done. intros [= <-].
    simpl; rewrite (sumZ_insert _ _ _ _ _ Hw). destruct (_ <=? _); simpl; [lia|].
    destruct (b ++ [ev]); simpl; lia.
  - unfold flush. destruct (r_workers r !! i) as [[| |[|ev b] x| | |]|] eqn:Hw; try done.
    + intros [= <-]. simpl; rewrite (sumZ_insert _ _ _ _ _ Hw). destruct x; simpl; lia.
    + destruct (st_InsertScanBatch _ _ _) as [[] st]; intros [= <-];
        simpl; rewrite (sumZ_insert _ _ _ _ _ Hw); destruct x; simpl; lia.
  - unfold drop_batch. destruct (r_workers r !! i) as [[| | | b x| |]|] eqn:Hw; try done. intros [= <-].
    simpl; rewrite (sumZ_insert _ _ _ _ _ Hw); destruct x; simpl; lia.
  - unfold release. destruct (r_workers r !! i) as [[| | | | n x|]|] eqn:Hw; try done. intros [= <-].
    simpl; rewrite (sumZ_insert _ _ _ _ _ Hw); destruct x; simpl; lia.
Qed.

(** The step a worker that is not done can take once the channel is closed. *)
Definition next_label (r : recorder DB) (env : Env) (i : nat) (w : worker) : label :=
  match w with
  | AtSelect _ => match r_ch r with [] => LExit i | _ => LReceive i end
  | Taken _ _ => LCount i
  | Flushing _ _ => LStore i env
  | Failed _ _ => LDrop i
  | Flushed _ _ | Done => LRelease i
  end.

Lemma no_deadlock r env i w :
  r_closed r = true -> r_workers r !! i = Some w -> w <> Done ->
  is_worker (next_label r env i w) = true /\ is_Some (step (next_label r env i w) r).
Proof.
  intros Hc Hw Hd. destruct w as [b|ev b|b x|b x|n x|]; simpl; try done.
  - destruct (r_ch r) eqn:Hch; simpl; unfold exit_, receive; rewrite Hw, Hch, ?Hc; eauto.
  - unfold count. rewrite Hw. eauto.
  - unfold flush. rewrite Hw. destruct b; [eauto|]. destruct (st_InsertScanBatch _ _ _). eauto.
  - unfold drop_batch. rewrite Hw. eauto.
  - unfold release. rewrite Hw. eauto.
Qed.

(** [run ls r]: the run [ls] from [r], when every label is enabled in turn. *)
Fixpoint run_labels (ls : list label) (r : recorder DB) : option (recorder DB) :=
  match ls with
  | [] => Some r
  | l :: ls' => match step l r with Some r' => run_labels ls' r' | None => None end
  end.

Lemma run_labels_app ls1 ls2 (r r1 : recorder DB) :
  run_labels ls1 r = Some r1 -> run_labels (ls1 ++ ls2) r = run_labels ls2 r1.
Proof.
  revert r. induction ls1 as [|l ls1 IH]; intros r; simpl; [by intros [= <-]|].
  destruct (step l r); [apply IH|done].
Qed.

Lemma Record_closed ev (r : recorder DB) : r_closed r = true -> r_ch (Record_ ev r) = r_ch r /\ r_closed (Record_ ev r) = true.
Proof. unfold Record_. by intros ->. Qed.

Lemma closed_step l (r r' : recorder DB) : r_closed r = true -> step l r = Some r' -> r_closed r' = true.
Proof.
  intros Hc. destruct l; simpl.
  - intros [= <-]. by apply Record_closed.
  - by intros [= <-].
  - unfold receive. repeat case_match; by intros [= <-].
  - unfold exit_. repeat case_match; by intros [= <-].
  - unfold tick. repeat case_match; by intros [= <-].
  - unfold count. repeat case_match; by intros [= <-].
  - unfold flush. destruct (r_workers r !! i) as [[| |[|ev b] x| | |]|]; try done.
    + by intros [= <-].
    + destruct (st_InsertScanBatch _ _ _). by intros [= <-].
  - unfold drop_batch. repeat case_match; by intros [= <-].
  - unfold release. repeat case_match; by intros [= <-].
Qed.

Lemma closed_run ls r r' :
  r_closed r = true -> run_labels ls r = Some r' ->
  r_closed r' = true /\ Z.of_nat (length (filter (fun l => is_worker l = true) ls)) + work r' <= work r.
Proof.
  revert r. induction ls as [|l ls IH]; intros r Hc; simpl; [intros [= <-]; simpl; split; [done|lia]|].
  destruct (step l r) as [r1|] eqn:E; [|done]. intros Hrun.
  destruct (IH r1) as [Hc' Hle]; [by eapply closed_step|done|]. split; [done|].
  rewrite filter_cons. destruct (is_worker l) eqn:Hl.
  - rewrite decide_True by done. simpl. pose proof (worker_step_works _ _ _ Hl E). lia.
  - rewrite decide_False by done. enough (work r1 = work r) by lia.
    destruct l; try done; simpl in E; injection E as <-; [|done].
    unfold work. destruct (Record_closed ev r Hc) as [-> _]. done.
Qed.

Lemma reachable_run st opts ls r r' : reachable st opts r -> run_labels ls r = Some r' -> reachable st opts r'.
Proof.
  revert r. induction ls as [|l ls IH]; intros r Hr; simpl; [by intros [= <-]|].
  destruct (step l r) as [r1|] eqn:E; [|done]. apply IH. by eapply reach_step.
Qed.
End progress.

Section properties.
Context {DB : Type} `{SS : ScanStore DB} `{SL : !ScanStoreLaws DB}.

(** C15: no scan is lost silently.  In every state the recorder can reach,
    each event ever given to [Record] is, exactly once, either counted in
    [r_dropped], or stored, or still in the channel or in a worker's batch;
    the store holds what it held plus what was persisted; the channel and
    the batches never outgrow their configured sizes; and [Unflushed] is the
    number of events in the pipeline up to the workers that are between a
    receive and its accounting, or between a store call and its. *)
Theorem recorder_conserves (st : DB) (opts : Options) (r : recorder DB) :
  reachable st opts r ->
  recorded r ≡ₚ lost r ++ persisted r ++ pending r
  /\ r_dropped r = Z.of_nat (length (lost r))
  /\ scans (r_store r) ≡ₚ scans st ++ persisted r
  /\ Z.of_nat (length (r_ch r)) <= BufferSize (withDefaults opts)
  /\ Forall (fun w => Z.of_nat (length (held w)) <= BatchSize (withDefaults opts)) (r_workers r)
  /\ Unflushed r = Z.of_nat (length (pending r)) - sumZ is_taken (r_workers r) + sumZ settled (r_workers r).
Proof.
  intros Hr. destruct (inv_reachable st opts r Hr) as [i_opts i_events i_dropped i_inflight i_buffer i_batches i_leaving i_store i_workers]. rewrite i_opts in *. split_and!; [done..| |].
  - eapply Forall_impl; [exact i_batches|]. destruct (defaults_positive opts) as (_ & Hb & _).
    intros [b|e b|b x|b x|n x|]; cbn [held within]; rewrite ?length_app; cbn [length]; lia.
  - unfold Unflushed, pending, in_hand. rewrite i_inflight, length_app.
    pose proof (charges_held (r_workers r)). lia.
Qed.

(** C16: shutting down.  Once [Close] has run, whatever the other goroutines
    do, the workers take at most [work r] more steps; until all of them are
    done some worker can step; and when they are done (what [wg.Wait] waits
    for) nothing is pending, [Unflushed] is 0 and every recorded event is
    stored or counted as dropped. *)
Theorem Close_drains (st : DB) (opts : Options) (r : recorder DB) (ls : list label) (r' : recorder DB) :
  reachable st opts r -> r_closed r = true -> run_labels ls r = Some r' ->
  Z.of_nat (length (filter (fun l => is_worker l = true) ls)) <= work r
  /\ (all_done r' = false -> forall env, exists l, is_worker l = true /\ is_Some (step l r')
        /\ forall i e, l = LStore i e -> e = env)
  /\ (all_done r' = true -> pending r' = [] /\ Unflushed r' = 0 /\ recorded r' ≡ₚ lost r' ++ persisted r').
Proof.
  intros Hr Hc Hrun. destruct (closed_run _ _ _ Hc Hrun) as [Hc' Hw].
  pose proof (work_nonneg r'). pose proof (reachable_run _ _ _ _ _ Hr Hrun) as Hr'.
  split_and!; [lia| |].
  - intros Hd env. apply not_true_iff_false in Hd. unfold all_done in Hd.
    rewrite forallb_forall in Hd.
    assert (Hex : Exists (fun w => w <> Done) (r_workers r')).
    { apply not_Forall_Exists; [intros []; by (left + right)|]. intros HF. apply Hd. rewrite Forall_forall in HF.
      intros w Hin%list_elem_of_In. by rewrite (HF w Hin). }
    apply Exists_exists in Hex as (w & [i Hi]%list_elem_of_lookup & Hne).
    exists (next_label r' env i w). destruct (no_deadlock r' env i w Hc' Hi Hne) as [? ?]. split_and!; [done..|].
    intros j e. destruct w; simpl; try (destruct (r_ch r')); congruence.
  - intros Hd. destruct (inv_reachable st opts r' Hr') as [i_opts i_events i_dropped i_inflight i_buffer i_batches i_leaving i_store i_workers].
    assert (HD : Forall (fun w => w = Done) (r_workers r')).
    { apply Forall_forall. intros w Hin%list_elem_of_In. unfold all_done in Hd. rewrite forallb_forall in Hd.
      specialize (Hd w Hin). by destruct w. }
    assert (Hhand : in_hand r' = [] /\ sumZ charge (r_workers r') = 0).
    { unfold in_hand. clear -HD. induction HD as [|w ws -> HD [IH1 IH2]]; [done|]. by rewrite fmap_cons. }
    assert (Hch : r_ch r' = []).
    { destruct (r_workers r') as [|w ws] eqn:Ew.
      - rewrite i_opts in i_workers. destruct (defaults_positive opts) as (_ & _ & ? & _). simpl in *. lia.
      - apply (i_leaving w); [left|]. apply Forall_cons in HD as [-> _]. done. }
    assert (Hp : pending r' = []) by (unfold pending; by rewrite Hch; destruct Hhand as [-> _]).
    split_and!; [done|unfold Unflushed; rewrite i_inflight, Hch; by destruct Hhand as [_ ->]|].
    by rewrite i_events, Hp, app_nil_r.
Qed.
End properties.

(** ** Witnesses: two workers over the in-memory store *)
Definition small_opts : Options :=
  {| BufferSize := 2; BatchSize := 2; FlushInterval := 0; Workers := 2; FlushTimeout := 0 |}.
(** Three scans into a buffer of two, then a worker stores the first and the
    other takes the second; the context of the second flush is cancelled. *)
Definition busy : list label :=
  [LRecord (scan_at epoch); LRecord (scan_at (epoch + 1)); LRecord (scan_at (epoch + 2));
   LReceive 0; LReceive 1; LCount 0; LTick 0; LStore 0 env0].
Definition closing : list label :=
  [LRelease 0; LRecord (scan_at (epoch + 3)); LExit 0; LStore 0 env0; LCount 1; LExit 1;
   LStore 1 env_cancelled; LDrop 1; LRelease 1].
Definition start : recorder memStore := NewRecorder three_codes small_opts.

Lemma recorder_conserves_witness :
  exists r, run_labels busy start = Some r /\ r_dropped r = 1 /\ length (persisted r) = 1%nat
    /\ Unflushed r = 1 /\ recorded r ≡ₚ lost r ++ persisted r ++ pending r.
Proof.
  assert (E : match run_labels busy start with
              | Some r => r_dropped r = 1 /\ length (persisted r) = 1%nat /\ Unflushed r = 1
              | None => False end) by (vm_compute; auto).
  destruct (run_labels busy start) as [r|] eqn:Hrun; [|destruct E]. exists r. destruct E as (? & ? & ?).
  split_and!; [done..|].
  apply (recorder_conserves three_codes small_opts r).
  exact (reachable_run three_codes small_opts _ _ _ (reach_start _ _) Hrun).
Defined.

Lemma Close_drains_witness :
  exists r, run_labels ((busy ++ [LClose]) ++ closing) start = Some r /\ all_done r = true
    /\ Unflushed r = 0 /\ r_dropped r = 3 /\ recorded r ≡ₚ lost r ++ persisted r.
Proof.
  assert (E : match run_labels (busy ++ [LClose]) start with
              | Some r => r_closed r = true /\ match run_labels closing r with
                                             | Some r' => all_done r' = true /\ r_dropped r' = 3
                                             | None => False end
              | None => False end) by (vm_compute; auto).
  destruct (run_labels (busy ++ [LClose]) start) as [r|] eqn:H1; [|destruct E]. destruct E as [Hc E].
  destruct (run_labels closing r) as [r'|] eqn:H2; [|destruct E]. destruct E as (Hd & Hn).
  exists r'. pose proof (run_labels_app (busy ++ [LClose]) closing start r H1) as Hall. rewrite H2 in Hall.
  destruct (Close_drains three_codes small_opts r closing r') as (_ & _ & Hfin); [|exact Hc|exact H2|].
  - exact (reachable_run three_codes small_opts _ _ _ (reach_start _ _) H1).
  - destruct (Hfin Hd) as (_ & ? & ?). auto.
Defined.
