(* ===== verification/Retention.v ===== *)
(** * Retention of raw scan events ([internal/analytics/retention.go])

    One retention round prunes batch after batch until the store reports that
    nothing was left to remove.  The loop carries fuel; [RunOnce_prunes] shows
    that one turn per stored event and one more is always enough. *)
From Stdlib Require Import Ascii String.
From S2P Require Import GoLib Act Domain Rollup MemStore MemStoreFacts Store Concrete Listing.
Local Open Scope string_scope.
Local Open Scope Z_scope.

Record Retention := {
  ret_days : Z;
  ret_batch : Z;
  ret_interval : Z;
  ret_jitter : Z;
}.

Definition NewRetention (days batch : Z) : Retention := {|
  ret_days := days;
  ret_batch := if batch <=? 0 then 1000 else batch;
  ret_interval := wrap64 (24 * Hour);
  ret_jitter := Hour;
|}.

(** [int63n] is the draw of [rand.Int63n]. *)
Definition nextDelay (int63n : Z -> Z) (r : Retention) (first : bool) : Z :=
  let j := if 0 <? ret_jitter r then int63n (ret_jitter r) else 0 in
  if first then j else wrap64 (ret_interval r + j).

(** [r.now().UTC().Add(-time.Duration(r.days) * 24 * time.Hour)]. *)
Definition cutoff (r : Retention) (now : Z) : Z := now + wrap64 (wrap64 (wrap64 (- ret_days r) * 24) * Hour).

Section retention.
Context {DB : Type} `{SS : ScanStore DB}.
Context (sc : Sched DB).

(** The loop of [RunOnce] and what it returns; [None] is out of fuel. *)
Fixpoint prune_loop (fuel : nat) (r : Retention) (before total : Z) : Act DB (option (Z * option error)) :=
  match fuel with
  | O => mret None
  | S fuel' =>
      cerr ← look sc (fun env _ => ctx_Err env);
      match cerr with
      | Some e => mret (Some (total, Some (Sentinel (SContext e))))
      | None =>
          res ← call sc (fun env s => st_PruneScanEvents env before (ret_batch r) s);
          match res with
          | Err e => mret (Some (total, Some e))
          | Ok n => if n =? 0 then mret (Some (add64 total n, None))
                    else prune_loop fuel' r before (add64 total n)
          end
      end
  end.

Definition RunOnce (fuel : nat) (r : Retention) : Act DB (option (Z * option error)) :=
  if ret_days r <=? 0 then mret (Some (0, None))
  else
    now ← look sc (fun env _ => time_Now env);
    prune_loop fuel r (cutoff r now) 0.
End retention.

(** The longest window whose length fits a [time.Duration]. *)
Definition max_days : Z := 106751.

Lemma cutoff_exact r now : 0 <= ret_days r <= max_days -> cutoff r now = now - ret_days r * Day.
Proof.
  unfold max_days, cutoff. intros H.
  rewrite (wrap64_id (- ret_days r)), (wrap64_id (- ret_days r * 24)), wrap64_id;
    unfold int64_ok, Day, Hour, Minute, Second; lia.
Qed.

Section facts.
Context {DB : Type} `{SS : ScanStore DB} `{SL : !ScanStoreLaws DB}.
Context (sc : Sched DB) (Q : quiet sc).

Definition old_scans (before : Z) (s : DB) : list ScanEvent := filter (fun ev => is_old before ev = true) (scans s).

(** What a finished round has done. *)
Definition pruned (before : Z) (s s' : DB) (total : Z) (err : option error) : Prop :=
  exists gone, scans s ≡ₚ (gone ++ scans s')%list /\ Forall (fun ev => is_old before ev = true) gone
    /\ wrap64 total = wrap64 (Z.of_nat (length gone)) /\ (err = None -> old_scans before s' = []).

Lemma old_scans_Permutation before s s' gone :
  scans s ≡ₚ (gone ++ scans s')%list -> Forall (fun ev => is_old before ev = true) gone ->
  length (old_scans before s) = (length gone + length (old_scans before s'))%nat.
Proof.
  intros Hp Hg. unfold old_scans. rewrite Hp, filter_app, length_app. f_equal. f_equal.
  apply filter_all. intros x Hx. rewrite Forall_forall in Hg. auto.
Qed.

(** One call of the store, as the loop sees it. *)
Lemma prune_once env before limit s n s' :
  0 < limit -> st_PruneScanEvents env before limit s = (Ok n, s') ->
  exists gone, n = Z.of_nat (length gone) /\ scans s ≡ₚ (gone ++ scans s')%list
    /\ Forall (fun ev => is_old before ev = true) gone
    /\ (length gone = 0%nat -> old_scans before s' = []).
Proof.
  intros Hl E. destruct (PruneScanEvents_Ok _ _ _ _ _ _ E Hl) as (gone & -> & Hp & Hg & Hlen).
  exists gone. split_and!; [done..|]. intros H0.
  apply length_zero_iff_nil. pose proof (old_scans_Permutation before s s' gone Hp Hg) as Hc.
  unfold old_scans in *. rewrite Hc in Hlen. lia.
Qed.

(** The environments let every store call through. *)
Definition undisturbed : Prop :=
  (forall k, ctx_Err (sc_env sc k) = None)
  /\ forall env before limit s, ctx_Err env = None -> is_Ok (st_PruneScanEvents env before limit s).1 = true.

Lemma prune_loop_done fuel r before total n s :
  0 < ret_batch r -> (length (old_scans before s) < fuel)%nat ->
  exists t err n' s', prune_loop sc fuel r before total (n, s) = (Some (t, err), (n', s'))
    /\ pruned before s s' (t - total) err /\ (undisturbed -> err = None).
Proof.
  intros Hb. revert total n s. induction fuel as [|fuel IH]; intros total n s Hf; [lia|].
  cbn [prune_loop]. rewrite bind_step. unfold look. rewrite call_quiet by done. cbn beta iota.
  destruct (ctx_Err (sc_env sc n)) as [e|] eqn:He.
  { eexists _, _, _, _. split; [reflexivity|]. split.
    - exists []. rewrite Z.sub_diag. by split_and!.
    - intros [Hc _]. specialize (Hc n). congruence. }
  rewrite bind_step, call_quiet by done.
  destruct (st_PruneScanEvents (sc_env sc (S n)) before (ret_batch r) s) as [[m|e] s1] eqn:Ep; cbn beta iota.
  2: { eexists _, _, _, _. split; [reflexivity|]. split.
       - exists []. rewrite (PruneScanEvents_Err _ _ _ _ _ _ Ep), Z.sub_diag. by split_and!.
       - intros [Hc Hok]. specialize (Hok (sc_env sc (S n)) before (ret_batch r) s (Hc _)). by rewrite Ep in Hok. }
  destruct (prune_once _ _ _ _ _ _ Hb Ep) as (gone & -> & Hp & Hg & H0).
  pose proof (old_scans_Permutation _ _ _ _ Hp Hg) as Hlen.
  destruct (Z.eqb_spec (Z.of_nat (length gone)) 0) as [Hz|Hz].
  - eexists _, _, _, _. split; [reflexivity|]. split; [|done]. exists gone. split_and!; [done..| |].
    + unfold add64. rewrite <- Z.add_opp_r, wrap64_add_l. f_equal. lia.
    + intros _. apply H0. lia.
  - destruct (IH (add64 total (Z.of_nat (length gone))) (S (S n)) s1 ltac:(lia)) as (t & err & n' & s' & E & Hd & Hu).
    eexists t, err, n', s'. split; [exact E|]. split; [|done].
    destruct Hd as (gone' & Hp' & Hg' & Ht & Hn). exists (gone ++ gone')%list. split_and!; [| | |done].
    + by rewrite Hp, Hp', app_assoc.
    + by apply Forall_app.
    + rewrite length_app, Nat2Z.inj_add.
      replace (t - total) with (t - add64 total (Z.of_nat (length gone)) + (add64 total (Z.of_nat (length gone)) - total)) by lia.
      rewrite Z.add_comm. apply wrap64_add_cong; [|done].
      unfold add64. rewrite <- Z.add_opp_r, wrap64_add_l. f_equal. lia.
Qed.
End facts.

(** ** Properties *)
Section properties.
Context {DB : Type} `{SS : ScanStore DB} `{SL : !ScanStoreLaws DB}.

(** C33: a retention round terminates and removes what is older than the
    window and nothing else.  With no other request interfering, for every
    window a [time.Duration] can hold and whatever batch size, context and store failures occur, with one unit
    of fuel per old event and one more [RunOnce] returns; the events gone
    are all older than [days] days before the clock reading, their number
    (at the width of [int64]) is the reported total; without an error no
    older event is left, and when neither the context nor the store fails
    there is no error. *)
Theorem RunOnce_prunes (sc : Sched DB) (n : nat) (s : DB) (days batch : Z) :
  quiet sc -> 0 < days <= max_days ->
  let before := time_Now (sc_env sc n) - days * Day in
  exists total err n' s',
    RunOnce sc (S (length (old_scans before s))) (NewRetention days batch) (n, s) = (Some (total, err), (n', s'))
    /\ pruned before s s' total err
    /\ (undisturbed sc -> err = None).
Proof.
  intros Q Hd before. unfold RunOnce. destruct (Z.leb_spec (ret_days (NewRetention days batch)) 0) as [Hz|_];
    [simpl in Hz; lia|].
  rewrite bind_step. unfold look. rewrite call_quiet by done. cbn beta iota.
  rewrite cutoff_exact by (simpl; lia). change (ret_days _) with days. fold before.
  destruct (prune_loop_done sc Q (S (length (old_scans before s))) (NewRetention days batch) before 0 (S n) s)
    as (t & err & n' & s' & E & Hp & Hu); [simpl; destruct (Z.leb_spec batch 0); lia|lia|].
  exists t, err, n', s'. split_and!; [done| |done]. by rewrite Z.sub_0_r in Hp.
Qed.
End properties.

(** A defect.  A window longer than a [time.Duration] can hold, which the
    configuration accepts, wraps around: with 200,000 days the cutoff lies in
    the future and one round deletes a scan made an hour ago. *)
Theorem RunOnce_overflow :
  let sc : Sched memStore := {| sc_env := fun _ => {| ctx_Err := None; time_Now := epoch + Hour;
                                                      rand_byte := rand_byte env0 |};
                                sc_others := fun _ w => w |} in
  let r := NewRetention 200000 1000 in
  let '(res, (_, m)) := RunOnce sc 5 r (0%nat, scanned) in
  epoch + Hour < cutoff r (epoch + Hour) /\ length (events scanned) = 3%nat /\ res = Some (3, None) /\ events m = [].
Proof. vm_compute. auto. Qed.

(** ** Witness *)
Definition daily : Sched memStore :=
  {| sc_env := fun _ => {| ctx_Err := None; time_Now := epoch + 2 + Day; rand_byte := rand_byte env0 |};
     sc_others := fun _ w => w |}.

Lemma RunOnce_prunes_witness :
  exists total n' m', RunOnce daily 3 (NewRetention 1 1) (0%nat, scanned) = (Some (total, None), (n', m'))
    /\ total = 2 /\ old_scans (epoch + 2) m' = [] /\ length (events m') = 1%nat.
Proof.
  destruct (RunOnce_prunes daily 0 scanned 1 1) as (total & err & n' & m' & E & Hp & Hu).
  - intros k w. reflexivity.
  - unfold max_days. lia.
  - assert (Herr : err = None).
    { apply Hu. split; [reflexivity|]. intros env before limit m Hc. simpl. unfold PruneScanEvents, with_ctx.
      rewrite Hc. destruct (limit <=? 0); reflexivity. }
    subst err. destruct Hp as (gone & _ & _ & _ & Hnone).
    assert (F : match RunOnce daily 3 (NewRetention 1 1) (0%nat, scanned) with
                | (Some (t, _), (_, m)) => t = 2 /\ length (events m) = 1%nat
                | _ => False end) by (vm_compute; auto).
    assert (E' : RunOnce daily 3 (NewRetention 1 1) (0%nat, scanned) = (Some (total, None), (n', m'))) by exact E.
    rewrite E' in F. destruct F. exists total, n', m'. split; [exact E'|]. split; [done|]. split; [|done].
    exact (Hnone eq_refl).
Defined.
