(* ===== verification/Password.v ===== *)
(** * Passwords ([internal/auth/password.go])

    Argon2id hashes in the PHC string format.  The key derivation function is
    a parameter; the string around it, and the part of [fmt.Sscanf] that reads
    its parameters back, are modelled. *)
From Stdlib Require Import Ascii String.
From S2P Require Import GoLib Text Base64.
Local Open Scope string_scope.
Local Open Scope Z_scope.

(** [golang.org/x/crypto/argon2]: the version and [IDKey], which takes the
    password, the salt, the passes, the memory, the lanes and the key length. *)
Class Argon2 := {
  argon2_Version : Z;
  argon2_IDKey : list ascii -> list ascii -> Z -> Z -> Z -> Z -> list ascii;
}.

(** What is documented of it: the version is a positive number and the key has the length asked for. *)
Class Argon2Ok `{Argon2} : Prop := {
  argon2_version_pos : 0 <= argon2_Version < 2 ^ 63;
  argon2_key_length pw salt t m p n : 0 <= n -> Z.of_nat (length (argon2_IDKey pw salt t m p n)) = n;
}.

Definition argonTime : Z := 3.
Definition argonMemory : Z := 64 * 1024.
Definition argonThreads : Z := 4.
Definition argonKeyLen : Z := 32.
Definition argonSaltLen : nat := 16.

(** ** [fmt.Sscanf] with [%d] *)
Definition scan_spaces : list (list ascii) := EncodeRune <$> filter (fun r => r <> 10) space_runes.

(** [SkipSpace]: a line break is an error. *)
Definition SkipSpace (l : list ascii) : option (list ascii) :=
  match trim_left scan_spaces l with
  | c :: l' => if Ascii.eqb c "010" then None else Some (c :: l')
  | [] => Some []
  end.

Fixpoint span_digits (l : list ascii) : list ascii * list ascii :=
  match l with
  | c :: l' => if is_digit c then let '(a, b) := span_digits l' in (c :: a, b) else ([], l)
  | [] => ([], [])
  end.

(** [scanUint] of a value of [bits] bits: the value and the rest. *)
Definition scanUint (bits : Z) (l : list ascii) : option (Z * list ascii) :=
  l ← SkipSpace l;
  match span_digits l with
  | ([], _) => None
  | (ds, rest) => let v := digits_value ds in if v <? 2 ^ bits then Some (v, rest) else None
  end.

(** [scanInt] of an [int]: a sign is accepted. *)
Definition scanInt (l : list ascii) : option (Z * list ascii) :=
  l ← SkipSpace l;
  let '(neg, l) := match l with
                   | c :: l' => if Ascii.eqb c "-" then (true, l') else if Ascii.eqb c "+" then (false, l') else (false, l)
                   | [] => (false, [])
                   end in
  match span_digits l with
  | ([], _) => None
  | (ds, rest) =>
      let v := if neg : bool then - digits_value ds else digits_value ds in
      if (- 2 ^ 63 <=? v) && (v <? 2 ^ 63) then Some (v, rest) else None
  end.

(** The literal part of a format. *)
Definition scan_literal (s : string) (l : list ascii) : option (list ascii) := strip_prefix (bytes s) l.

(** [Sscanf(s, "v=%d", &version)]: what follows the number is not looked at. *)
Definition scan_version (s : string) : option Z :=
  l ← scan_literal "v=" (bytes s); '(v, _) ← scanInt l; Some v.

(** [Sscanf(s, "m=%d,t=%d,p=%d", &m, &t, &p)]. *)
Definition scan_params (s : string) : option (Z * Z * Z) :=
  l ← scan_literal "m=" (bytes s); '(m, l) ← scanUint 32 l;
  l ← scan_literal ",t=" l; '(t, l) ← scanUint 32 l;
  l ← scan_literal ",p=" l; '(p, _) ← scanUint 8 l;
  Some (m, t, p).

Section password.
Context `{A2 : Argon2}.

Definition phc_string (m t p : Z) (salt key : list ascii) : string :=
  "$argon2id$v=" +:+ Itoa argon2_Version +:+ "$m=" +:+ Itoa m +:+ ",t=" +:+ Itoa t +:+ ",p=" +:+ Itoa p
  +:+ "$" +:+ EncodeToString alphabet_std salt +:+ "$" +:+ EncodeToString alphabet_std key.

(** [HashPassword]; [crypto/rand.Read] does not fail. *)
Definition HashPassword (rand : nat -> ascii) (password : string) : result string :=
  let salt := rand <$> seq 0 argonSaltLen in
  let key := argon2_IDKey (bytes password) salt argonTime argonMemory argonThreads argonKeyLen in
  Ok (phc_string argonMemory argonTime argonThreads salt key).

(** The parameters, the salt and the key of a PHC string. *)
Definition parse_phc (phc : string) : option (Z * Z * Z * list ascii * list ascii) :=
  match SplitByte phc "$" with
  | [p0; p1; p2; p3; p4; p5] =>
      if negb (String.eqb p0 "") || negb (String.eqb p1 "argon2id") then None
      else
      version ← scan_version p2;
      if negb (version =? argon2_Version) then None
      else
        '(m, t, p) ← scan_params p3;
        if (m =? 0) || (t =? 0) || (p =? 0) then None
        else
          salt ← DecodeString alphabet_std p4;
          if bool_decide (salt = []) then None
          else
            want ← DecodeString alphabet_std p5;
            if bool_decide (want = []) then None
            else if 2 ^ 32 - 1 <? Z.of_nat (length want) then None
            else Some (m, t, p, salt, want)
  | _ => None
  end.

Definition VerifyPassword (phc password : string) : result bool :=
  match parse_phc phc with
  | None => Err (errMalformedPHC : error)
  | Some (m, t, p, salt, want) =>
      Ok (bool_decide (argon2_IDKey (bytes password) salt t m p (Z.of_nat (length want)) = want))
  end.

(** [DummyVerify]: the throwaway hash, made on first use, and what is spent on
    it; the result of the verification is dropped. *)
Definition dummy_password : string := "qurator-dummy-password".
Definition DummyVerify (rand : nat -> ascii) (dummy : option string) (password : string) : option string * result bool :=
  let phc := match dummy with
             | Some phc => phc
             | None => match HashPassword rand dummy_password with Ok h => h | Err _ => "" end
             end in
  (Some phc, if String.eqb phc "" then Ok false else VerifyPassword phc password).
End password.

(** ** Reading numbers back *)
Lemma span_digits_app l r :
  forallb is_digit l = true -> match r with c :: _ => is_digit c = false | [] => True end -> span_digits (l ++ r)%list = (l, r).
Proof.
  intros Hl Hr. induction l as [|c l IH]; simpl in *.
  - destruct r as [|c r]; [done|]. simpl. by rewrite Hr.
  - apply andb_prop in Hl as [-> Hl]. by rewrite IH.
Qed.

Lemma is_digit_graph c : is_digit c = true -> is_graph c = true /\ Ascii.eqb c "010" = false.
Proof.
  unfold is_digit, is_graph. intros [H1%Z.leb_le H2%Z.leb_le]%andb_prop. split.
  - apply andb_true_intro. split; apply Z.leb_le; lia.
  - apply Ascii.eqb_neq. intros ->. by vm_compute in H1.
Qed.

Lemma scan_heads : Forall (fun p => match p with [] => False | d :: _ => is_graph d = false end) scan_spaces.
Proof. vm_compute. repeat constructor. Qed.

Lemma SkipSpace_digit c l : is_digit c = true -> SkipSpace (c :: l) = Some (c :: l).
Proof.
  intros [Hg Hn]%is_digit_graph. unfold SkipSpace. rewrite (trim_left_graph _ _ _ scan_heads Hg). by rewrite Hn.
Qed.

(** A numeral is digits, the first of them in sight. *)
Lemma Itoa_cons n : 0 <= n -> exists c l, bytes (Itoa n) = c :: l /\ is_digit c = true /\ forallb is_digit (c :: l) = true.
Proof.
  intros Hn. destruct (Itoa_digits n Hn) as [Hd Hne]. unfold string_forall in Hd.
  destruct (Itoa n) as [|c s]; [done|]. exists c, (bytes s). split_and!; [done| |done]. simpl in Hd. apply andb_prop in Hd. tauto.
Qed.

Definition ends_number (r : list ascii) : Prop := match r with c :: _ => is_digit c = false | [] => True end.

Lemma scanUint_Itoa bits n r :
  0 <= n < 2 ^ bits -> ends_number r -> scanUint bits (bytes (Itoa n) ++ r)%list = Some (n, r).
Proof.
  intros Hn Hr. destruct (Itoa_cons n) as (c & l & E & Hc & Hl); [lia|]. unfold scanUint.
  pose proof (Itoa_value n ltac:(lia)) as Hv. rewrite E in *. rewrite <- app_comm_cons, SkipSpace_digit by done. cbn [mbind option_bind].
  rewrite (app_comm_cons l r c), (span_digits_app (c :: l) r) by done. rewrite Hv.
  by destruct (Z.ltb_spec n (2 ^ bits)); [|lia].
Qed.

Lemma scanInt_Itoa n : 0 <= n < 2 ^ 63 -> scanInt (bytes (Itoa n)) = Some (n, []).
Proof.
  intros Hn. destruct (Itoa_cons n) as (c & l & E & Hc & Hl); [lia|]. unfold scanInt.
  pose proof (Itoa_value n ltac:(lia)) as Hv. rewrite E in *. rewrite SkipSpace_digit by done. cbn [mbind option_bind].
  destruct (Ascii.eqb_spec c "-") as [->|_]; [done|]. destruct (Ascii.eqb_spec c "+") as [->|_]; [done|].
  rewrite <- (app_nil_r (c :: l)), (span_digits_app (c :: l) []) by done. rewrite Hv.
  destruct (Z.leb_spec (- 2 ^ 63) n), (Z.ltb_spec n (2 ^ 63)); (done || lia).
Qed.

Lemma scan_literal_app s l : scan_literal s (bytes s ++ l)%list = Some l.
Proof.
  unfold scan_literal. induction (bytes s) as [|c k IH]; [done|]. simpl. by rewrite Ascii.eqb_refl.
Qed.

Lemma scan_params_text m t p :
  0 <= m < 2 ^ 32 -> 0 <= t < 2 ^ 32 -> 0 <= p < 2 ^ 8 ->
  scan_params ("m=" +:+ Itoa m +:+ ",t=" +:+ Itoa t +:+ ",p=" +:+ Itoa p) = Some (m, t, p).
Proof.
  intros Hm Ht Hp. unfold scan_params. rewrite !bytes_app, scan_literal_app. cbn [mbind option_bind].
  rewrite scanUint_Itoa by done. cbn [mbind option_bind]. rewrite scan_literal_app. cbn [mbind option_bind].
  rewrite scanUint_Itoa by done. cbn [mbind option_bind]. rewrite scan_literal_app. cbn [mbind option_bind].
  rewrite <- (app_nil_r (bytes (Itoa p))), scanUint_Itoa by done. done.
Qed.

Lemma scan_version_text v : 0 <= v < 2 ^ 63 -> scan_version ("v=" +:+ Itoa v) = Some v.
Proof. intros Hv. unfold scan_version. rewrite bytes_app, scan_literal_app. cbn [mbind option_bind]. by rewrite scanInt_Itoa. Qed.

(** ** Base64 has no separator *)
Lemma EncodeToString_without c l :
  c ∉ bytes alphabet_std -> without c (EncodeToString alphabet_std l) = true.
Proof.
  intros Hc. unfold without, string_forall, EncodeToString. rewrite bytes_of_bytes.
  apply forallb_forall. intros d Hd%list_elem_of_In. apply list_elem_of_fmap in Hd as (v & -> & _).
  apply negb_true_iff, Ascii.eqb_neq. intros <-. apply Hc. unfold enc_char.
  destruct (bytes alphabet_std !! Z.to_nat v) as [c|] eqn:E; [by eapply list_elem_of_lookup_2|]. simpl. left.
Qed.

Section roundtrip.
Context `{A2 : Argon2} `{!Argon2Ok}.

Lemma parse_phc_string m t p salt key :
  1 <= m < 2 ^ 32 -> 1 <= t < 2 ^ 32 -> 1 <= p < 2 ^ 8 -> salt <> [] -> 1 <= Z.of_nat (length key) < 2 ^ 32 ->
  parse_phc (phc_string m t p salt key) = Some (m, t, p, salt, key).
Proof.
  intros Hm Ht Hp Hs Hk. pose proof argon2_version_pos as Hv.
  assert (Hd : "$"%char ∉ bytes alphabet_std) by (apply (bool_decide_unpack _); vm_compute; exact I).
  unfold parse_phc, phc_string.
  replace ("$argon2id$v=" +:+ _) with ("" +:+ String "$" ("argon2id" +:+ String "$" (("v=" +:+ Itoa argon2_Version)
    +:+ String "$" (("m=" +:+ Itoa m +:+ ",t=" +:+ Itoa t +:+ ",p=" +:+ Itoa p)
    +:+ String "$" (EncodeToString alphabet_std salt +:+ String "$" (EncodeToString alphabet_std key))))))
    by (symmetry; solve_text).
  rewrite !SplitByte_at by (solve_without; by apply EncodeToString_without).
  rewrite SplitByte_without by by apply EncodeToString_without.
  change (negb (String.eqb "" "") || negb (String.eqb "argon2id" "argon2id")) with false. cbv iota.
  rewrite scan_version_text by done. cbn [mbind option_bind]. rewrite Z.eqb_refl. cbn [negb].
  rewrite scan_params_text by lia. cbn [mbind option_bind].
  destruct (Z.eqb_spec m 0); [lia|]. destruct (Z.eqb_spec t 0); [lia|]. destruct (Z.eqb_spec p 0); [lia|]. cbn [orb].
  rewrite !decode_encode by apply good_alphabet_std. cbn [mbind option_bind].
  rewrite bool_decide_eq_false_2 by done. rewrite bool_decide_eq_false_2 by (intros ->; simpl in Hk; lia).
  by destruct (Z.ltb_spec (2 ^ 32 - 1) (Z.of_nat (length key))); [lia|].
Qed.

(** C28: a password verifies against its own hash.  Whatever the password and
    the salt drawn, the stored string is read back with the parameters, the
    salt and the key it was made of, so that the hash accepts exactly the
    passwords the key derivation maps to the same key, the password itself
    among them. *)
Theorem password_roundtrip (rand : nat -> ascii) (password : string) :
  let kdf pw := argon2_IDKey (bytes pw) (rand <$> seq 0 argonSaltLen) argonTime argonMemory argonThreads argonKeyLen in
  exists phc, HashPassword rand password = Ok phc
    /\ (forall attempt, VerifyPassword phc attempt = Ok (bool_decide (kdf attempt = kdf password)))
    /\ VerifyPassword phc password = Ok true.
Proof.
  intros kdf. unfold HashPassword. cbv zeta. eexists. split; [done|].
  assert (Hlen : forall pw, Z.of_nat (length (kdf pw)) = argonKeyLen) by (intros; by apply argon2_key_length).
  assert (Hv : forall attempt, VerifyPassword (phc_string argonMemory argonTime argonThreads (rand <$> seq 0 argonSaltLen) (kdf password))
    attempt = Ok (bool_decide (kdf attempt = kdf password))).
  { intros attempt. unfold VerifyPassword. rewrite parse_phc_string; [|done|done|done|done|by rewrite Hlen].
    by rewrite Hlen. }
  split; [exact Hv|]. rewrite Hv. by rewrite bool_decide_eq_true_2.
Qed.
End roundtrip.

(** ** The range of the key derivation's arguments *)
Lemma digits_value_nonneg l : forallb is_digit l = true -> 0 <= digits_value l.
Proof.
  intros Hl. unfold digits_value. assert (Hz : forall z, 0 <= z -> 0 <= foldl digit_step z l); [|by apply Hz].
  induction l as [|c l IH]; intros z Hz; [done|]. simpl in *. apply andb_prop in Hl as [Hc Hl]. apply IH; [done|].
  unfold digit_step, is_digit in *. lia.
Qed.

Lemma span_digits_digits l : forallb is_digit (span_digits l).1 = true.
Proof.
  induction l as [|c l IH]; [done|]. simpl. destruct (is_digit c) eqn:E; [|done].
  destruct (span_digits l). simpl in *. by rewrite E.
Qed.

Lemma scanUint_range bits l v r : scanUint bits l = Some (v, r) -> 0 <= v < 2 ^ bits.
Proof.
  unfold scanUint. destruct (SkipSpace l) as [l'|]; [|done]. cbn [mbind option_bind].
  pose proof (span_digits_digits l') as Hd. destruct (span_digits l') as [[|d ds] rest]; [done|].
  destruct (Z.ltb_spec (digits_value (d :: ds)) (2 ^ bits)); [|done]. intros [= <- _].
  split; [by apply digits_value_nonneg|done].
Qed.

Lemma scan_params_range s m t p :
  scan_params s = Some (m, t, p) -> 0 <= m < 2 ^ 32 /\ 0 <= t < 2 ^ 32 /\ 0 <= p < 2 ^ 8.
Proof.
  unfold scan_params. intros (l1 & _ & H)%bind_Some. apply bind_Some in H as ([m' l2] & Em%scanUint_range & H).
  apply bind_Some in H as (l3 & _ & H). apply bind_Some in H as ([t' l4] & Et%scanUint_range & H).
  apply bind_Some in H as (l5 & _ & H). apply bind_Some in H as ([p' l6] & Ep%scanUint_range & H).
  by injection H as <- <- <-.
Qed.

(** The key derivation is only called in its range.  Whatever string is
    stored, a verification either reports it as malformed or reads parameters
    for which the derivation is defined (at least one pass and one lane, each
    number within its machine type) with a salt and a key that are not empty,
    and says whether the derived key is the stored one. *)
Theorem VerifyPassword_spec `{A2 : Argon2} (phc password : string) :
  VerifyPassword phc password = Err (errMalformedPHC : error)
  \/ exists m t p salt want,
      1 <= m < 2 ^ 32 /\ 1 <= t < 2 ^ 32 /\ 1 <= p < 2 ^ 8 /\ salt <> [] /\ 1 <= Z.of_nat (length want) < 2 ^ 32
      /\ VerifyPassword phc password
         = Ok (bool_decide (argon2_IDKey (bytes password) salt t m p (Z.of_nat (length want)) = want)).
Proof.
  unfold VerifyPassword. destruct (parse_phc phc) as [[[[[m t] p] salt] want]|] eqn:E; [right|by left].
  exists m, t, p, salt, want. unfold parse_phc in E.
  destruct (SplitByte phc "$") as [|s0 [|s1 [|s2 [|s3 [|s4 [|s5 [|]]]]]]]; try done.
  destruct (negb _ || negb _); [done|]. apply bind_Some in E as (v & _ & E). destruct (negb (v =? _)); [done|].
  apply bind_Some in E as ([[m' t'] p'] & Ep%scan_params_range & E).
  destruct (Z.eqb_spec m' 0); [done|]. destruct (Z.eqb_spec t' 0); [done|]. destruct (Z.eqb_spec p' 0); [done|].
  cbn [orb] in E. apply bind_Some in E as (salt' & _ & E). destruct (bool_decide_reflect (salt' = [])); [done|].
  apply bind_Some in E as (want' & _ & E). destruct (bool_decide_reflect (want' = [])) as [|Hw]; [done|].
  destruct (Z.ltb_spec (2 ^ 32 - 1) (Z.of_nat (length want'))); [done|]. injection E as <- <- <- <- <-.
  destruct want' as [|w want']; [done|]. split_and!; (done || simpl length in *; lia).
Qed.

(** ** Witness: a key derivation that repeats the password *)
#[local] Instance toy_kdf : Argon2 := {|
  argon2_Version := 19;
  argon2_IDKey := fun pw salt _ _ _ n => take (Z.to_nat n) (pw ++ salt ++ replicate (Z.to_nat n) "000"%char)%list |}.
#[local] Instance toy_kdf_ok : Argon2Ok.
Proof.
  constructor; [done|]. intros pw salt t m p n Hn. cbn [argon2_IDKey toy_kdf]. rewrite length_take, !length_app, length_replicate. lia.
Qed.

Lemma password_roundtrip_witness :
  exists phc, HashPassword (fun i => byte_of (Z.of_nat i)) "correct horse" = Ok phc
    /\ VerifyPassword phc "correct horse" = Ok true /\ VerifyPassword phc "battery staple" = Ok false.
Proof.
  destruct (password_roundtrip (fun i => byte_of (Z.of_nat i)) "correct horse") as (phc & E & Ha & Ht).
  exists phc. split; [exact E|]. split; [exact Ht|]. rewrite (Ha "battery staple"). vm_compute. reflexivity.
Defined.
