(* ===== verification/Auth.v ===== *)
(** * The authenticator ([internal/auth])

    API tokens, sessions, delegated identity and their caches.  One value of
    type [Authenticator] holds the configuration; what requests share (the
    store, the two positive caches and the touch table) is an [AuthWorld], and
    every call on the store, a cache or the clock is one turn of an [Act].
    The JWT library, CIDR matching and the SHA-256 compression are parameters. *)
From Stdlib Require Import Ascii String.
From S2P Require Import GoLib Act GoUrl Domain Base64 Blob Password.
Local Open Scope string_scope.
Local Open Scope Z_scope.

(** ** Parameters *)

(** The part of the [Store] interface authentication uses. *)
Class AuthStore (S : Type) := {
  au_CreateUser : Env -> User -> S -> result unit * S;
  au_GetUserByID : Env -> string -> S -> result User;
  au_GetUserByEmail : Env -> string -> S -> result User;
  au_BumpTokenVersion : Env -> string -> S -> result Z * S;
  au_CountUsers : Env -> S -> result Z;
  au_CreateToken : Env -> APIToken -> S -> result unit * S;
  au_GetTokenByID : Env -> string -> S -> result APIToken;
  au_RevokeToken : Env -> string -> string -> S -> result unit * S;
  au_TouchTokenLastUsed : Env -> string -> Z -> S -> result unit * S;
}.

(** [sessionClaims]; the two dates are in nanoseconds. *)
Record sessionClaims := {
  cl_TokenVersion : Z;
  cl_Subject : string;
  cl_ID : string;
  cl_IssuedAt : Z;
  cl_ExpiresAt : Z;
}.

(** [github.com/golang-jwt/jwt/v5], as it is called: HS256 only, an expiry
    required, an issue date checked, and a leeway. *)
Class JWT := {
  jwt_SignedString : list ascii -> sessionClaims -> result string;
  jwt_ParseWithClaims : list ascii -> Z -> Z -> string -> option sessionClaims;  (* key, leeway, now *)
}.

(** [net.ParseCIDR] and [IPNet.Contains]. *)
Class IPNets := {
  IPNet : Type;
  net_ParseCIDR : string -> option IPNet;
  net_Contains : IPNet -> string -> bool;
}.

(** ** [crypto/hmac] over SHA-256 *)
Definition xor_pad (b : Z) (key : list ascii) : list ascii :=
  (fun i => byte_of (Z.lxor (code (default "000"%char (key !! i))) b)) <$> seq 0 64.

Definition hmac_SHA256 `{SHA256} (key msg : list ascii) : list ascii :=
  let key := if Nat.ltb 64 (length key) then sha256_Sum256 key else key in
  sha256_Sum256 (xor_pad 92 key ++ sha256_Sum256 (xor_pad 54 key ++ msg))%list.

(** ** [ids.go] *)
Definition alphabet_b32 : string := "ABCDEFGHIJKLMNOPQRSTUVWXYZ234567".

(** Five bytes make eight five-bit digits; the last group is cut to the digits
    its bytes fill. *)
Definition b32_group (l : list Z) : list Z :=
  let n := foldl (fun acc b => acc * 256 + b) 0 (take 5 (l ++ replicate 4 0)%list) in
  take ((length l * 8 + 4) / 5) ((fun i => (n / 2 ^ (5 * (7 - Z.of_nat i))) mod 32) <$> seq 0 8).
Fixpoint b32_digits (l : list Z) : list Z :=
  match l with
  | a :: b :: c :: d :: e :: l' => b32_group [a; b; c; d; e] ++ b32_digits l'
  | [] => []
  | l => b32_group l
  end.
Definition base32_EncodeToString (l : list ascii) : string :=
  of_bytes (enc_char alphabet_b32 <$> b32_digits (code <$> l)).

Definition idBytes : nat := 10.

Definition encodeID (prefix : string) (material : list ascii) : string :=
  prefix +:+ string_map lower_byte (base32_EncodeToString (take idBytes material)).

Definition rand_read (rand : nat -> ascii) (n : nat) : list ascii := rand <$> seq 0 n.
Definition newID (rand : nat -> ascii) (prefix : string) : string := encodeID prefix (rand_read rand idBytes).

(** ** [ttlCache] *)
Record ttlCache (T : Type) := { ttl_ : Z; entries : gmap string (T * Z) }.
Global Arguments ttl_ {T}.
Global Arguments entries {T}.
Global Arguments Build_ttlCache {T}.

Section ttlcache.
Context {T : Type}.
Definition newTTLCache (ttl : Z) : ttlCache T := Build_ttlCache ttl ∅.
Definition ttl_get (now : Z) (key : string) (c : ttlCache T) : option T * ttlCache T :=
  match entries c !! key with
  | None => (None, c)
  | Some (v, exp) =>
      if negb (Before now exp) then (None, Build_ttlCache (ttl_ c) (delete key (entries c)))
      else (Some v, c)
  end.
Definition sweep (now : Z) (m : gmap string (T * Z)) : gmap string (T * Z) :=
  if Nat.leb 4096 (size m) then filter (fun p => Before now p.2.2 = true) m else m.
Definition ttl_put (now : Z) (key : string) (v : T) (c : ttlCache T) : ttlCache T :=
  Build_ttlCache (ttl_ c) (<[key := (v, now + ttl_ c)]> (sweep now (entries c))).
Definition ttl_reset (c : ttlCache T) : ttlCache T := Build_ttlCache (ttl_ c) ∅.
End ttlcache.

(** ** Configuration *)
Definition DefaultSessionTTL : Z := 12 * Hour.
Definition DefaultCacheTTL : Z := 30 * Second.
Definition touchInterval : Z := Minute.
Definition ClockLeeway : Z := 60 * Second.

Record AuthOptions := {
  SigningSecret : string;
  opt_BaseURL : string;
  DevMode : bool;
  opt_SessionTTL : Z;
  TokenPepper : string;
  fwd_Enabled : bool;
  fwd_Header : string;
  fwd_TrustedCIDRs : list string;
  CacheTTL : Z;
}.

Record Authenticator `{IPNets} := {
  a_signingKey : list ascii;
  a_sessionTTL : Z;
  a_cacheTTL : Z;
  a_pepper : list ascii;
  a_cookieSecure : bool;
  a_fwdEnabled : bool;
  a_fwdHeader : string;
  a_fwdTrusted : list IPNet;
}.

Section new.
Context `{U : UnicodeTable} `{IP : IPParser} `{NT : IPNets}.

Definition CookieSecureForBaseURL (baseURL : string) : bool :=
  match Parse baseURL with
  | None => true
  | Some u => if String.eqb baseURL "" then true else negb (EqualFold (Scheme u) "http")
  end.

Fixpoint parse_cidrs (cidrs : list string) : result (list IPNet) :=
  match cidrs with
  | [] => Ok []
  | c :: cs =>
      match net_ParseCIDR c with
      | None => Err (NewErr "auth: forward_auth.trusted_cidrs: invalid CIDR")
      | Some n => match parse_cidrs cs with Ok ns => Ok (n :: ns) | Err e => Err e end
      end
  end.

(** [New]: the fields fixed at construction. *)
Definition New (rand : nat -> ascii) (cfg : AuthOptions) : result Authenticator :=
  let key := bytes (SigningSecret cfg) in
  if bool_decide (key = []) && negb (DevMode cfg)
  then Err (NewErr "auth: no signing secret configured and dev_mode is off (FR-040)")
  else
    let key := if bool_decide (key = []) then rand_read rand 32 else key in
    let trusted :=
      if fwd_Enabled cfg then
        match fwd_TrustedCIDRs cfg with
        | [] => Err (NewErr "auth: forward_auth.enabled with no trusted_cidrs")
        | cs => parse_cidrs cs
        end
      else Ok [] in
    match trusted with
    | Err e => Err e
    | Ok ns => Ok {|
        a_signingKey := key;
        a_sessionTTL := if opt_SessionTTL cfg <=? 0 then DefaultSessionTTL else opt_SessionTTL cfg;
        a_cacheTTL := if CacheTTL cfg <=? 0 then DefaultCacheTTL else CacheTTL cfg;
        a_pepper := bytes (TokenPepper cfg);
        a_cookieSecure := CookieSecureForBaseURL (opt_BaseURL cfg);
        a_fwdEnabled := fwd_Enabled cfg;
        a_fwdHeader := if String.eqb (fwd_Header cfg) "" then "X-Forwarded-Email" else fwd_Header cfg;
        a_fwdTrusted := ns |}
    end.
End new.

(** What requests share. *)
Record AuthWorld (S : Type) := {
  aw_store : S;
  aw_tokens : ttlCache APIToken;
  aw_users : ttlCache User;
  aw_touch : gmap string Z;
}.
Global Arguments aw_store {S}.
Global Arguments aw_tokens {S}.
Global Arguments aw_users {S}.
Global Arguments aw_touch {S}.
Global Arguments Build_AuthWorld {S}.

(** ** [apitoken.go] *)
Definition TokenPrefix : string := "qur_".
Definition tokenBytes : nat := 32.
Definition tokenEncodedLen : Z := 43.

Definition parseToken (secret : string) : option string :=
  if negb (HasPrefix secret TokenPrefix) || negb (len secret =? len TokenPrefix + tokenEncodedLen) then None
  else match DecodeString alphabet_url (drop_bytes (String.length TokenPrefix) secret) with
  | None => None
  | Some raw => if negb (Nat.eqb (length raw) tokenBytes) then None else Some (encodeID "tok_" raw)
  end.

Definition without_hash (t : APIToken) : APIToken := {|
  token_ID := token_ID t; token_UserID := token_UserID t; token_Name := token_Name t;
  token_SecretHash := []; token_CreatedAt := token_CreatedAt t; token_LastUsedAt := token_LastUsedAt t;
  token_RevokedAt := token_RevokedAt t; token_ExpiresAt := token_ExpiresAt t |}.

(** [time.Time.Sub] saturates. *)
Definition time_Sub (a b : Z) : Z := Z.max (- 2 ^ 63) (Z.min (2 ^ 63 - 1) (a - b)).

(** The critical section of [touch]: whether to write, and the table after. *)
Definition touch_due (id : string) (now : Z) (m : gmap string Z) : bool * gmap string Z :=
  let recent := match m !! id with Some last => time_Sub now last <? touchInterval | None => false end in
  if recent then (false, m)
  else
    let m := <[id := now]> m in
    (true, if Nat.ltb 8192 (size m) then filter (fun p => negb (touchInterval <=? time_Sub now p.2) = true) m else m).

(** ** The request, as [net/http] presents it *)
Record Request := {
  Header_Values : string -> list string;   (* by canonical name *)
  Cookie_ : string -> option string;       (* the first cookie of the name *)
  RemoteAddr : string;
}.
Definition Header_Get (r : Request) (name : string) : string := default "" (head (Header_Values r name)).

Definition SessionCookieName : string := "qurator_session".
Definition MethodBearer : string := "bearer".
Definition MethodCookie : string := "cookie".
Definition MethodForwardAuth : string := "forward_auth".

Record Identity := { id_UserID : string; id_IsAdmin : bool; id_Method : string }.

(** The fields of the [http.Cookie] the program sets. *)
Record Cookie := {
  ck_Name : string; ck_Value : string; ck_Path : string; ck_HttpOnly : bool; ck_Secure : bool;
  ck_SameSiteStrict : bool; ck_MaxAge : Z; ck_Expires : Z;
}.

(** [net.SplitHostPort], the host only. *)
Definition SplitHost (hostport : string) : option string :=
  match CutLastByte hostport ":" with
  | None => None
  | Some (before, port) =>
      let checked host inner_l inner_r :=
        if ascii_in "[" inner_l || ascii_in "]" inner_r then None else Some host in
      if HasPrefix hostport "[" then
        match IndexByte hostport "]" with
        | None => None
        | Some e =>
            if negb (Nat.eqb (S e) (String.length before)) then None
            else checked (take_bytes (e - 1) (drop_bytes 1 hostport))
                   (drop_bytes 1 hostport) (drop_bytes (S e) hostport)
        end
      else if ascii_in ":" before then None
      else checked before hostport hostport
  end.

(** [time.Unix(0, 0)] in nanoseconds since year 1. *)
Definition unix_epoch : Z := 62135596800 * Second.

Section auth.
Context `{U : UnicodeTable} `{IP : IPParser} `{NT : IPNets} `{SH : SHA256} `{JW : JWT} `{A2 : Argon2}.
Context {DB : Type} `{ST : AuthStore DB}.
Notation W := (AuthWorld DB).
Context (sc : Sched W) (a : Authenticator).
Local Open Scope go_scope.

Definition on_db {A} (f : Env -> DB -> A * DB) : Act W A :=
  call sc (fun env w => let '(x, s) := f env (aw_store w) in
                        (x, Build_AuthWorld s (aw_tokens w) (aw_users w) (aw_touch w))).
Definition ask_db {A} (f : Env -> DB -> A) : Act W A := look sc (fun env w => f env (aw_store w)).
Definition ask {A} (f : Env -> A) : Act W A := look sc (fun env _ => f env).
Definition on_tokens {A} (f : Env -> ttlCache APIToken -> A * ttlCache APIToken) : Act W A :=
  call sc (fun env w => let '(x, c) := f env (aw_tokens w) in
                        (x, Build_AuthWorld (aw_store w) c (aw_users w) (aw_touch w))).
Definition on_users {A} (f : Env -> ttlCache User -> A * ttlCache User) : Act W A :=
  call sc (fun env w => let '(x, c) := f env (aw_users w) in
                        (x, Build_AuthWorld (aw_store w) (aw_tokens w) c (aw_touch w))).
Definition on_touch {A} (f : Env -> gmap string Z -> A * gmap string Z) : Act W A :=
  call sc (fun env w => let '(x, m) := f env (aw_touch w) in
                        (x, Build_AuthWorld (aw_store w) (aw_tokens w) (aw_users w) m)).

Definition hashToken (secret : string) : list ascii :=
  match a_pepper a with
  | [] => sha256_Sum256 (bytes secret)
  | pepper => hmac_SHA256 pepper (bytes secret)
  end.

Definition CreateToken (userID name : string) (expiresAt : option Z) : Act W (result (APIToken * string)) :=
  raw ← ask (fun env => rand_read (rand_byte env) tokenBytes);
  let secret := TokenPrefix +:+ EncodeToString alphabet_url raw in
  now ← ask time_Now;
  let t := {| token_ID := encodeID "tok_" raw; token_UserID := userID; token_Name := name;
              token_SecretHash := hashToken secret; token_CreatedAt := now; token_LastUsedAt := None;
              token_RevokedAt := None; token_ExpiresAt := expiresAt |} in
  r ← on_db (fun env s => au_CreateToken env t s);
  match r with
  | Err e => mret (Err (Wrap "auth: create token" e))
  | Ok _ => mret (Ok (without_hash t, secret))
  end.

(** [touch]: a failure of the store is only logged. *)
Definition touch (id : string) (now : Z) : Act W unit :=
  due ← on_touch (fun _ m => touch_due id now m);
  if due : bool then _ ← on_db (fun env s => au_TouchTokenLastUsed env id now s); mret tt
  else mret tt.

Definition lookup_token (id : string) : Act W (result APIToken) :=
  r ← ask_db (fun env s => au_GetTokenByID env id s);
  match r with
  | Ok t => mret (Ok t)
  | Err e => mret (Err (if errors_Is e ErrNotFound then ErrUnauthorized : error
                        else Wrap "auth: token lookup" e))
  end.

(** The checks on the record found, cached or not. *)
Definition check_token (secret id : string) (cached : bool) (t : APIToken) : Act W (result APIToken) :=
  if negb (bool_decide (hashToken secret = token_SecretHash t)) then mret (Err (ErrUnauthorized : error))
  else if Revoked t then mret (Err (ErrTokenRevoked : error))
  else
    now ← ask time_Now;
    if match token_ExpiresAt t with Some e => negb (Before now e) | None => false end
    then mret (Err (ErrUnauthorized : error))
    else
      _ ← (if cached then mret tt else on_tokens (fun env c => (tt, ttl_put (time_Now env) id t c)));
      _ ← touch id now;
      mret (Ok (without_hash t)).

Definition verifyToken (secret : string) : Act W (result APIToken) :=
  match parseToken secret with
  | None => mret (Err (ErrUnauthorized : error))
  | Some id =>
      c ← on_tokens (fun env c => ttl_get (time_Now env) id c);
      match c with
      | Some t => check_token secret id true t
      | None => t <-! lookup_token id; check_token secret id false t
      end
  end.

Definition userByID (id : string) : Act W (result User) :=
  c ← on_users (fun env c => ttl_get (time_Now env) id c);
  match c with
  | Some u => mret (Ok u)
  | None =>
      r ← ask_db (fun env s => au_GetUserByID env id s);
      match r with
      | Err e => mret (Err (if errors_Is e ErrNotFound then ErrUnauthorized : error
                            else Wrap "auth: user lookup" e))
      | Ok u => _ ← on_users (fun env c => (tt, ttl_put (time_Now env) id u c)); mret (Ok u)
      end
  end.

(** ** [jwt.go] *)
Definition IssueSession (u : User) : Act W (result (string * Z)) :=
  now ← ask time_Now;
  let exp := now + a_sessionTTL a in
  jti ← ask (fun env => newID (rand_byte env) "ses_");
  match jwt_SignedString (a_signingKey a) {| cl_TokenVersion := user_TokenVersion u; cl_Subject := user_ID u;
          cl_ID := jti; cl_IssuedAt := now; cl_ExpiresAt := exp |} with
  | Err e => mret (Err (Wrap "auth: sign session" e))
  | Ok token => mret (Ok (token, exp))
  end.

Definition verifySession (token : string) : Act W (result User) :=
  now ← ask time_Now;
  match jwt_ParseWithClaims (a_signingKey a) ClockLeeway now token with
  | None => mret (Err (ErrUnauthorized : error))
  | Some claims =>
      if String.eqb (cl_Subject claims) "" then mret (Err (ErrUnauthorized : error))
      else
        u <-! userByID (cl_Subject claims);
        if user_TokenVersion u =? cl_TokenVersion claims then mret (Ok u)
        else mret (Err (ErrUnauthorized : error))
  end.

Definition SessionCookie (now : Z) (token : string) (exp : Z) : Cookie :=
  let maxAge := Z.quot (time_Sub exp now) Second in
  {| ck_Name := SessionCookieName; ck_Value := token; ck_Path := "/"; ck_HttpOnly := true;
     ck_Secure := a_cookieSecure a; ck_SameSiteStrict := true;
     ck_MaxAge := if maxAge <? 1 then 1 else maxAge; ck_Expires := exp |}.

Definition ClearSessionCookie : Cookie :=
  {| ck_Name := SessionCookieName; ck_Value := ""; ck_Path := "/"; ck_HttpOnly := true;
     ck_Secure := a_cookieSecure a; ck_SameSiteStrict := true; ck_MaxAge := -1; ck_Expires := unix_epoch |}.

(** ** [middleware.go] *)
Definition peerTrusted (remoteAddr : string) : bool :=
  let host := default remoteAddr (SplitHost remoteAddr) in
  net_ParseIP host && existsb (fun n => net_Contains n host) (a_fwdTrusted a).

Definition forwardAuthUser (email : string) : Act W (result User) :=
  r ← ask_db (fun env s => au_GetUserByEmail env email s);
  match r with
  | Ok u => mret (Ok u)
  | Err e =>
      if negb (errors_Is e ErrNotFound) then mret (Err (Wrap "auth: forward-auth user lookup" e))
      else
        id ← ask (fun env => newID (rand_byte env) "usr_");
        now ← ask time_Now;
        let u := {| user_ID := id; user_Email := email; user_PasswordHash := ""; user_IsAdmin := false;
                    user_TokenVersion := 0; user_Source := UserSourceForwardAuth; user_CreatedAt := now;
                    user_LastLoginAt := None |} in
        c ← on_db (fun env s => au_CreateUser env u s);
        match c with
        | Ok _ => mret (Ok u)
        | Err e =>
            if negb (errors_Is e ErrConflict) then mret (Err (Wrap "auth: provision forward-auth user" e))
            else
              r ← ask_db (fun env s => au_GetUserByEmail env email s);
              match r with
              | Ok u => mret (Ok u)
              | Err e => mret (Err (Wrap "auth: forward-auth user re-read" e))
              end
        end
  end.

(** The closure [accept] of [resolve]. *)
Definition accept (u : User) (method : string) (found : option Identity) : result (option Identity) :=
  match found with
  | Some i => if String.eqb (user_ID u) (id_UserID i) then Ok found else Err (auth_errConflict : error)
  | None => Ok (Some {| id_UserID := user_ID u; id_IsAdmin := user_IsAdmin u; id_Method := method |})
  end.

Definition resolve_bearer (r : Request) (found : option Identity) : Act W (result (option Identity)) :=
  let authz := Header_Get r "Authorization" in
  if String.eqb authz "" then mret (Ok found)
  else
    let '(scheme, secret, _) := CutByte authz " " in
    if negb (EqualFold scheme "Bearer") then mret (Err (ErrUnauthorized : error))
    else
      t <-! verifyToken (TrimSpace secret);
      u <-! userByID (token_UserID t);
      mret (accept u MethodBearer found).

Definition resolve_cookie (r : Request) (found : option Identity) : Act W (result (option Identity)) :=
  match Cookie_ r SessionCookieName with
  | None => mret (Ok found)
  | Some v =>
      if String.eqb v "" then mret (Ok found)
      else u <-! verifySession v; mret (accept u MethodCookie found)
  end.

Definition resolve_forward (r : Request) (found : option Identity) : Act W (result (option Identity)) :=
  if negb (a_fwdEnabled a && peerTrusted (RemoteAddr r)) then mret (Ok found)
  else match Header_Values r (a_fwdHeader a) with
  | [] => mret (Ok found)
  | [v] =>
      let email := TrimSpace v in
      if Contains email "," then mret (Err (auth_errConflict : error))
      else if String.eqb email "" || (254 <? len email) || negb (Contains email "@")
      then mret (Err (ErrUnauthorized : error))
      else u <-! forwardAuthUser email; mret (accept u MethodForwardAuth found)
  | _ => mret (Err (auth_errConflict : error))
  end.

(** [resolve]: no identity is an anonymous request. *)
Definition resolve (r : Request) : Act W (result (option Identity)) :=
  f1 <-! resolve_bearer r None;
  f2 <-! resolve_cookie r f1;
  resolve_forward r f2.

(** ** [bootstrap.go] *)
Definition Bootstrap (email password : string) : Act W (result bool) :=
  n ← ask_db au_CountUsers;
  match n with
  | Err e => mret (Err (Wrap "auth: bootstrap: count users" e))
  | Ok n =>
      if 0 <? n then mret (Ok false)
      else if String.eqb email "" || String.eqb password "" then mret (Ok false)
      else
        phc ← ask (fun env => HashPassword (rand_byte env) password);
        match phc with
        | Err e => mret (Err (Wrap "auth: bootstrap" e))
        | Ok phc =>
            id ← ask (fun env => newID (rand_byte env) "usr_");
            now ← ask time_Now;
            r ← on_db (fun env s => au_CreateUser env
                  {| user_ID := id; user_Email := email; user_PasswordHash := phc; user_IsAdmin := true;
                     user_TokenVersion := 0; user_Source := UserSourceLocal; user_CreatedAt := now;
                     user_LastLoginAt := None |} s);
            match r with
            | Err e => mret (Err (Wrap "auth: bootstrap: create admin" e))
            | Ok _ => mret (Ok true)
            end
        end
  end.
End auth.
