(* ===== verification/AuthProps.v ===== *)
(** * Facts and properties of the authenticator

    The laws of the store it uses (and that the in-memory store has them), the
    shape of tokens and identifiers, and the preservation of what a revocation
    establishes.  Then: tokens and sessions are accepted when they should be; a
    revocation reaches every request within one cache lifetime; identity
    assertions that disagree are refused. *)
From Stdlib Require Import Ascii String.
From S2P Require Import GoLib Act Domain GoUrl Base64 Blob MemStore Concrete Auth.
Local Open Scope string_scope.
Local Open Scope Z_scope.

(** ** The store *)

(** What a stored token keeps for ever. *)
Definition same_token (t t' : APIToken) : Prop :=
  token_ID t' = token_ID t /\ token_UserID t' = token_UserID t /\ token_SecretHash t' = token_SecretHash t
  /\ token_ExpiresAt t' = token_ExpiresAt t /\ (Revoked t = true -> Revoked t' = true).

Class AuthStoreLaws (S : Type) `{AuthStore S} := {
  token_of : S -> string -> option APIToken;
  GetTokenByID_Ok env id s t : au_GetTokenByID env id s = Ok t -> token_of s id = Some t;
  GetTokenByID_live env id s t :
    ctx_Err env = None -> token_of s id = Some t -> au_GetTokenByID env id s = Ok t;
  CreateToken_Ok env t s s' :
    au_CreateToken env t s = (Ok tt, s') -> token_CreatedAt t <> 0 ->
    token_of s (token_ID t) = None /\ token_of s' (token_ID t) = Some t;
  RevokeToken_Ok env id user s s' :
    au_RevokeToken env id user s = (Ok tt, s') ->
    exists t t', token_of s id = Some t /\ token_UserID t = user /\ token_of s' id = Some t'
      /\ same_token t t' /\ Revoked t' = true;
  (** No operation loses a token or brings a revoked one back. *)
  CreateToken_keeps env t0 s id t :
    token_of s id = Some t -> exists t', token_of (au_CreateToken env t0 s).2 id = Some t' /\ same_token t t';
  RevokeToken_keeps env i user s id t :
    token_of s id = Some t -> exists t', token_of (au_RevokeToken env i user s).2 id = Some t' /\ same_token t t';
  Touch_keeps env i now s id t :
    token_of s id = Some t -> exists t', token_of (au_TouchTokenLastUsed env i now s).2 id = Some t' /\ same_token t t';
  CreateUser_keeps env u s id : token_of (au_CreateUser env u s).2 id = token_of s id;
  Bump_keeps env i s id : token_of (au_BumpTokenVersion env i s).2 id = token_of s id;
}.

Lemma same_token_refl t : same_token t t.
Proof. by unfold same_token. Qed.

Section memstore.
Context `{U : UnicodeTable} `{TF : TimeFormat}.

#[export] Instance memStore_auth : AuthStore memStore := {
  au_CreateUser := CreateUser;
  au_GetUserByID := GetUserByID;
  au_GetUserByEmail := GetUserByEmail;
  au_BumpTokenVersion := BumpTokenVersion;
  au_CountUsers := CountUsers;
  au_CreateToken := MemStore.CreateToken;
  au_GetTokenByID := GetTokenByID;
  au_RevokeToken := RevokeToken;
  au_TouchTokenLastUsed := TouchTokenLastUsed;
}.

Ltac open_auth :=
  simpl; unfold MemStore.CreateToken, GetTokenByID, RevokeToken, TouchTokenLastUsed, CreateUser,
    BumpTokenVersion, with_ctx, read_ctx in *.

Lemma insert_same (m : gmap string APIToken) i t1 t1' id t :
  m !! i = Some t1 -> same_token t1 t1' -> m !! id = Some t ->
  exists t', <[i := t1']> m !! id = Some t' /\ same_token t t'.
Proof.
  intros H1 Hs Hid. destruct (decide (i = id)) as [->|Hne].
  - rewrite lookup_insert_eq. exists t1'. split; [done|]. congruence.
  - rewrite lookup_insert_ne by done. eauto using same_token_refl.
Qed.

#[export] Program Instance memStore_auth_laws : AuthStoreLaws memStore := {
  token_of m id := tokens m !! id;
}.
Next Obligation. intros env id m t. open_auth. repeat case_match; by intros [= <-]. Qed.
Next Obligation. intros env id m t Hc Ht. open_auth. by rewrite Hc, Ht. Qed.
Next Obligation.
  intros env t m m'. open_auth. intros E Hz. revert E.
  assert (IsZero (token_CreatedAt t) = false) as -> by (unfold IsZero; by apply Z.eqb_neq).
  repeat case_match; try done. intros [= <-]. simpl. by rewrite lookup_insert_eq.
Qed.
Next Obligation.
  intros env id user m m'. open_auth. destruct (ctx_Err env); [done|].
  destruct (tokens m !! id) as [t|] eqn:Ht; [|done].
  destruct (String.eqb_spec (token_UserID t) user) as [Hu|]; [|done]. simpl.
  destruct (token_RevokedAt t) eqn:Hr; intros [= <-].
  - exists t, t. unfold Revoked. rewrite Hr. eauto using same_token_refl.
  - eexists t, _. simpl. rewrite lookup_insert_eq. split_and!; try done.
Qed.
Next Obligation.
  intros env t0 m id t Hid. open_auth. repeat case_match; simpl; eauto using same_token_refl;
    rewrite lookup_insert_ne by (simpl; congruence); eauto using same_token_refl.
Qed.
Next Obligation.
  intros env i user m id t Hid. open_auth. repeat case_match; simpl; eauto using same_token_refl.
  eapply insert_same; [done| |done]. unfold same_token, Revoked. simpl. by repeat split.
Qed.
Next Obligation.
  intros env i now m id t Hid. open_auth. repeat case_match; simpl; eauto using same_token_refl.
  eapply insert_same; [done| |done]. unfold same_token, Revoked. simpl. by repeat split.
Qed.
Next Obligation. intros env u m id. open_auth. by repeat case_match. Qed.
Next Obligation. intros env i m id. open_auth. by repeat case_match. Qed.
End memstore.

(** ** The caches *)
Section ttl.
Context {T : Type}.
Implicit Types c : ttlCache T.

Lemma ttl_get_Some now key c v c' :
  ttl_get now key c = (Some v, c') -> c' = c /\ exists exp, entries c !! key = Some (v, exp) /\ now < exp.
Proof.
  unfold ttl_get, Before. destruct (entries c !! key) as [[x exp]|]; [|done].
  destruct (Z.ltb_spec now exp); simpl; [|done]. intros [= <- <-]. eauto.
Qed.

(** No operation on a cache but a [put] of the same key adds an entry. *)
Lemma ttl_get_entries now key c k p :
  entries (ttl_get now key c).2 !! k = Some p -> entries c !! k = Some p.
Proof.
  unfold ttl_get. destruct (entries c !! key) as [[x exp]|]; [|done].
  destruct (Before now exp); simpl; [done|]. by intros [_ ?]%lookup_delete_Some.
Qed.
Lemma ttl_get_ttl now key c : ttl_ (ttl_get now key c).2 = ttl_ c.
Proof. unfold ttl_get. repeat case_match; done. Qed.

Lemma sweep_entries now (m : gmap string (T * Z)) k p : sweep now m !! k = Some p -> m !! k = Some p.
Proof. unfold sweep. case_match; [|done]. by intros [? _]%map_lookup_filter_Some. Qed.

Lemma ttl_put_other now key v c k p :
  k <> key -> entries (ttl_put now key v c) !! k = Some p -> entries c !! k = Some p.
Proof. intros Hne. simpl. rewrite lookup_insert_ne by done. apply sweep_entries. Qed.
Lemma ttl_put_same now key v c p :
  entries (ttl_put now key v c) !! key = Some p -> p = (v, now + ttl_ c).
Proof. simpl. rewrite lookup_insert_eq. by intros [= <-]. Qed.
End ttl.

(** ** Identifiers and tokens *)

(** The wire form of token material is parsed to the identifier made from it. *)
Lemma parseToken_secret raw :
  length raw = tokenBytes -> parseToken (TokenPrefix +:+ EncodeToString alphabet_url raw) = Some (encodeID "tok_" raw).
Proof.
  intros Hl. unfold parseToken. rewrite HasPrefix_app.
  assert (Hlen : len (TokenPrefix +:+ EncodeToString alphabet_url raw) = len TokenPrefix + tokenEncodedLen).
  { unfold len. rewrite string_app_length, EncodeToString_length, Hl. reflexivity. }
  rewrite Hlen, Z.eqb_refl. cbn [negb orb]. rewrite drop_bytes_app, decode_encode by apply good_alphabet_url.
  by rewrite Hl, Nat.eqb_refl.
Qed.

Lemma length_rand_read rand n : length (rand_read rand n) = n.
Proof. unfold rand_read. by rewrite length_fmap, length_seq. Qed.

#[export] Hint Resolve parseToken_secret length_rand_read same_token_refl : qurator.

(** ** What a revocation establishes *)
Section revocation.
Context `{NT : IPNets} `{SH : SHA256} {DB : Type} `{ST : AuthStore DB} `{SL : !AuthStoreLaws DB}.
Notation W := (AuthWorld DB).

Definition with_tokens (w : W) (c : ttlCache APIToken) : W := Build_AuthWorld (aw_store w) c (aw_users w) (aw_touch w).
Definition with_store (w : W) (s : DB) : W := Build_AuthWorld s (aw_tokens w) (aw_users w) (aw_touch w).

(** The token cache of a server since it started, all clock readings being at
    most [T]; the rest of the world is anything. *)
Inductive history (ttl T : Z) : W -> Prop :=
| history_start w : aw_tokens w = newTTLCache ttl -> history ttl T w
| history_get w now key : history ttl T w -> now <= T -> history ttl T (with_tokens w (ttl_get now key (aw_tokens w)).2)
| history_put w now key t : history ttl T w -> now <= T -> history ttl T (with_tokens w (ttl_put now key t (aw_tokens w)))
| history_rest w w' : history ttl T w -> aw_tokens w' = aw_tokens w -> history ttl T w'.

(** One operation of the store. *)
Inductive store_step (s : DB) : DB -> Prop :=
| step_CreateUser env u : store_step s (au_CreateUser env u s).2
| step_Bump env id : store_step s (au_BumpTokenVersion env id s).2
| step_CreateToken env t : store_step s (au_CreateToken env t s).2
| step_RevokeToken env id user : store_step s (au_RevokeToken env id user s).2
| step_Touch env id now : store_step s (au_TouchTokenLastUsed env id now s).2.

(** What requests that start in the world [w0] or later make of it, at any
    clock readings: operations of the store, lookups in the token cache, and
    insertions of a record that was read from the store in one of these very
    worlds and was not revoked; the users and the touch table are anything. *)
Inductive since (w0 : W) : W -> Prop :=
| since_start : since w0 w0
| since_store w s : since w0 w -> store_step (aw_store w) s -> since w0 (with_store w s)
| since_get w now key : since w0 w -> since w0 (with_tokens w (ttl_get now key (aw_tokens w)).2)
| since_put w v now key t : since w0 w -> since w0 v -> token_of (aw_store v) key = Some t -> Revoked t = false ->
    since w0 (with_tokens w (ttl_put now key t (aw_tokens w)))
| since_rest w users touched : since w0 w -> since w0 (Build_AuthWorld (aw_store w) (aw_tokens w) users touched).

(** A cached copy outlives no clock reading by more than the lifetime. *)
Lemma history_cached ttl T w : history ttl T w ->
  ttl_ (aw_tokens w) = ttl /\ forall key t exp, entries (aw_tokens w) !! key = Some (t, exp) -> exp <= T + ttl.
Proof.
  induction 1 as [w ->|w now key _ [Hl Hc] _|w now key t _ [Hl Hc] Hn|w w' _ IH ->]; cbn [with_tokens aw_tokens].
  - by split.
  - split; [by rewrite ttl_get_ttl|]. intros k t exp H%ttl_get_entries. eauto.
  - split; [done|]. intros k t' exp H. destruct (decide (k = key)) as [->|Hne].
    + apply ttl_put_same in H as [= _ ->]. lia.
    + apply ttl_put_other in H; eauto.
  - done.
Qed.

Lemma store_step_keeps s s' id t :
  store_step s s' -> token_of s id = Some t -> exists t', token_of s' id = Some t' /\ same_token t t'.
Proof.
  intros [env u|env i|env t0|env i user|env i now] Ht.
  - rewrite CreateUser_keeps. eauto using same_token_refl.
  - rewrite Bump_keeps. eauto using same_token_refl.
  - by apply CreateToken_keeps.
  - by apply RevokeToken_keeps.
  - by apply Touch_keeps.
Qed.

(** The token is revoked in the store, and its cached copies end by [limit]. *)
Definition dead (id : string) (limit : Z) (w : W) : Prop :=
  (exists t, token_of (aw_store w) id = Some t /\ Revoked t = true)
  /\ forall t exp, entries (aw_tokens w) !! id = Some (t, exp) -> exp <= limit.

Lemma since_dead id limit w0 w : dead id limit w0 -> since w0 w -> dead id limit w.
Proof.
  intros H0. induction 1 as [|w s _ [(t & Ht & Hr) Hc] Hs|w now key _ [Ht Hc]|w v now key t _ [Ht Hc] _ [(t' & Ht' & Hr') _] Hv Hnr|w us tc _ [Ht Hc]];
    [done| | | |by split].
  - split; [|done]. destruct (store_step_keeps _ _ _ _ Hs Ht) as (t' & Ht' & Hsame). exists t'. split; [done|]. by apply Hsame.
  - split; [done|]. intros t exp H%ttl_get_entries. eauto.
  - split; [done|]. intros t2 exp H. cbn [with_tokens aw_tokens] in H. apply ttl_put_other in H; [eauto|].
    intros <-. congruence.
Qed.

(** *** Requests stay within [since] *)
Section requests.
Context `{U : UnicodeTable} `{IP : IPParser} `{JW : JWT}.
Context (sc : Sched W) (a : Authenticator) (w0 : W) (rely : forall n w, since w0 w -> since w0 (sc_others sc n w)).

(** The action takes a world of [since w0] to another, with a result of the kind. *)
Definition within {A} (m : Act W A) (Q : A -> Prop) : Prop := forall n w, since w0 w ->
  let '(x, (_, w')) := m (n, w) in since w0 w' /\ Q x.

Lemma within_ret {A} (x : A) (Q : A -> Prop) : Q x -> within (mret x) Q.
Proof. by intros Hq n w Hw. Qed.
Lemma within_bind {A B} (m : Act W A) (k : A -> Act W B) Q Q' :
  within m Q -> (forall x, Q x -> within (k x) Q') -> within (m ≫= k) Q'.
Proof.
  intros Hm Hk n w Hw. specialize (Hm n w Hw). rewrite bind_step. destruct (m (n, w)) as [x [n' w']].
  destruct Hm as [Hw' Hx]. by apply (Hk x Hx).
Qed.
Lemma within_call {A} (f : Env -> W -> A * W) (Q : A -> Prop) :
  (forall env w, since w0 w -> since w0 (f env w).2 /\ Q (f env w).1) -> within (call sc f) Q.
Proof.
  intros Hf n w Hw. unfold call. specialize (Hf (sc_env sc n) _ (rely n w Hw)). by destruct (f _ _).
Qed.

Notation safe m := (within m (fun _ => True)).
Lemma safe_ret {A} (x : A) : safe (mret x : Act W A).
Proof. by apply within_ret. Qed.
Lemma safe_bind {A B} (m : Act W A) (k : A -> Act W B) : safe m -> (forall x, safe (k x)) -> safe (m ≫= k).
Proof. intros Hm Hk. eapply within_bind; [exact Hm|]. intros x _. apply Hk. Qed.
Lemma safe_try {A B} (m : Act W (result A)) (k : A -> Act W (result B)) : safe m -> (forall x, safe (k x)) -> safe (try m k).
Proof. intros Hm Hk. apply safe_bind; [done|]. intros [x|e]; [apply Hk|apply safe_ret]. Qed.
Lemma safe_ask {A} (f : Env -> W -> A) : safe (look sc f).
Proof. by apply within_call. Qed.
Lemma safe_users {A} (f : Env -> ttlCache User -> A * ttlCache User) : safe (on_users sc f).
Proof. apply within_call. intros env w Hw. destruct (f env (aw_users w)). split; [by apply since_rest|done]. Qed.
Lemma safe_db {A} (f : Env -> DB -> A * DB) : (forall env s, store_step s (f env s).2) -> safe (on_db sc f).
Proof.
  intros Hf. apply within_call. intros env w Hw. specialize (Hf env (aw_store w)). destruct (f env (aw_store w)) as [x s].
  split; [|done]. by apply (since_store w0 w s).
Qed.

Lemma safe_touch id now : safe (touch sc id now).
Proof.
  apply safe_bind; [|intros [|]; [|apply safe_ret]].
  - apply within_call. intros env w Hw. destruct (touch_due id now (aw_touch w)). split; [by apply since_rest|done].
  - apply safe_bind; [|intros _; apply safe_ret]. apply safe_db. intros env s. apply step_Touch.
Qed.

Lemma safe_check secret id cached t :
  (cached = false -> exists v, since w0 v /\ token_of (aw_store v) id = Some t) -> safe (check_token sc a secret id cached t).
Proof.
  intros Hread. unfold check_token. destruct (negb _); [apply safe_ret|]. destruct (Revoked t) eqn:Hr; [apply safe_ret|].
  apply safe_bind; [apply safe_ask|]. intros now. destruct (match token_ExpiresAt t with Some _ => _ | None => _ end); [apply safe_ret|].
  apply safe_bind; [|intros _; apply safe_bind; [apply safe_touch|intros _; apply safe_ret]].
  destruct cached; [apply safe_ret|]. destruct (Hread eq_refl) as (v & Hv & Ht).
  apply within_call. intros env w Hw. split; [by apply (since_put w0 w v)|done].
Qed.

Lemma safe_verify secret : safe (verifyToken sc a secret).
Proof.
  unfold verifyToken. destruct (parseToken secret) as [id|]; [|apply safe_ret]. apply safe_bind.
  - apply within_call. intros env w Hw. pose proof (since_get w0 w (time_Now env) id Hw) as H.
    by destruct (ttl_get (time_Now env) id (aw_tokens w)).
  - intros [t|]; [by apply safe_check|].
    eapply (within_bind _ _ (fun r => forall t, r = Ok t -> exists v, since w0 v /\ token_of (aw_store v) id = Some t)).
    + eapply (within_bind _ _ (fun r => forall t, r = Ok t -> exists v, since w0 v /\ token_of (aw_store v) id = Some t)).
      * apply within_call. intros env w Hw. split; [done|]. intros t E%GetTokenByID_Ok. eauto.
      * intros [t|e] H; apply within_ret; [|done]. intros t' [= <-]. by apply H.
    + intros [t|e] H; [|apply safe_ret]. apply safe_check. intros _. by apply H.
Qed.

Lemma safe_userByID uid : safe (userByID sc uid).
Proof.
  apply safe_bind; [apply safe_users|]. intros [u|]; [apply safe_ret|].
  apply safe_bind; [apply safe_ask|]. intros [u|e]; [|apply safe_ret].
  apply safe_bind; [apply safe_users|]. intros _. apply safe_ret.
Qed.

Lemma safe_session token : safe (verifySession sc a token).
Proof.
  apply safe_bind; [apply safe_ask|]. intros now. destruct (jwt_ParseWithClaims _ _ _ _); [|apply safe_ret].
  destruct (String.eqb _ _); [apply safe_ret|]. apply safe_try; [apply safe_userByID|].
  intros u. destruct (_ =? _); apply safe_ret.
Qed.

Lemma safe_forward email : safe (forwardAuthUser sc email).
Proof.
  apply safe_bind; [apply safe_ask|]. intros [u|e]; [apply safe_ret|].
  destruct (negb _); [apply safe_ret|]. apply safe_bind; [apply safe_ask|]. intros uid.
  apply safe_bind; [apply safe_ask|]. intros now. apply safe_bind; [apply safe_db; intros env s; apply step_CreateUser|].
  intros [[]|e']; [apply safe_ret|]. destruct (negb _); [apply safe_ret|].
  apply safe_bind; [apply safe_ask|]. intros [u|e'']; apply safe_ret.
Qed.

(** Authenticating a request is such a step, whatever it carries. *)
Lemma safe_resolve r : safe (resolve sc a r).
Proof.
  unfold resolve, resolve_bearer, resolve_cookie, resolve_forward.
  apply safe_try; [|intros f1; apply safe_try; [|intros f2]].
  - destruct (String.eqb _ _); [apply safe_ret|]. destruct (CutByte _ _) as [[scheme secret] ok].
    destruct (negb _); [apply safe_ret|]. apply safe_try; [apply safe_verify|]. intros t.
    apply safe_try; [apply safe_userByID|]. intros u. apply safe_ret.
  - destruct (Cookie_ r SessionCookieName) as [v|]; [|apply safe_ret].
    destruct (String.eqb v ""); [apply safe_ret|]. apply safe_try; [apply safe_session|]. intros u. apply safe_ret.
  - destruct (negb _); [apply safe_ret|].
    destruct (Header_Values r (a_fwdHeader a)) as [|v [|]]; [apply safe_ret| |apply safe_ret].
    repeat (case_match; [apply safe_ret|]). apply safe_try; [apply safe_forward|]. intros u. apply safe_ret.
Qed.

(** A verification of a dead token, past the limit. *)
Lemma dead_verify secret id limit n w :
  parseToken secret = Some id -> dead id limit w0 -> since w0 w -> limit <= time_Now (sc_env sc n) ->
  let '(r, (_, w')) := verifyToken sc a secret (n, w) in
  since w0 w' /\ is_Ok r = false /\ exists t, token_of (aw_store w') id = Some t /\ Revoked t = true
  /\ (ctx_Err (sc_env sc (S n)) = None ->
      r = Err (if bool_decide (hashToken a secret = token_SecretHash t) then ErrTokenRevoked : error else ErrUnauthorized : error)).
Proof.
  intros Hp H0 Hw Hclock. unfold verifyToken. rewrite Hp, bind_step. unfold on_tokens, call.
  assert (Hw1 : since w0 (sc_others sc n w)) by auto. set (w1 := sc_others sc n w) in *.
  destruct (since_dead _ _ _ _ H0 Hw1) as [_ Hc1].
  pose proof (since_get w0 w1 (time_Now (sc_env sc n)) id Hw1) as Hw2. unfold with_tokens in Hw2.
  destruct (ttl_get (time_Now (sc_env sc n)) id (aw_tokens w1)) as [[t|] c'] eqn:E.
  { apply ttl_get_Some in E as (_ & exp & He & Hlt). specialize (Hc1 _ _ He). lia. }
  cbn [snd] in Hw2. unfold try, lookup_token. rewrite !bind_step. unfold ask_db, look, call.
  set (w3 := sc_others sc (S n) _). assert (Hw3 : since w0 w3) by by apply rely.
  destruct (since_dead _ _ _ _ H0 Hw3) as [(t & Ht & Hr) _].
  destruct (au_GetTokenByID (sc_env sc (S n)) id (aw_store w3)) as [t'|e] eqn:Eg; cbn.
  - apply GetTokenByID_Ok in Eg. assert (t' = t) as -> by congruence. unfold check_token.
    destruct (bool_decide _) eqn:Eh; cbn [negb]; [rewrite Hr|]; (split_and!; [done|done|]; exists t; split_and!; [done|done|];
      intros _; by rewrite Eh).
  - split_and!; [done|done|]. exists t. split_and!; [done|done|]. intros Hl.
    rewrite (GetTokenByID_live _ _ _ _ Hl Ht) in Eg. done.
Qed.
End requests.

(** Before: every authentication at clock readings up to [T] is a part of the history. *)
Section before.
Context (sc : Sched W) (a : Authenticator) (ttl T : Z).
Context (rely : forall n w, history ttl T w -> history ttl T (sc_others sc n w)) (clock : forall n, time_Now (sc_env sc n) <= T).

Lemma history_verify secret n w : history ttl T w -> history ttl T (verifyToken sc a secret (n, w)).2.2.
Proof.
  assert (Hret : forall A (x : A), runs (history ttl T) (mret x : Act W A) (fun _ => history ttl T)) by by intros A x k v.
  assert (Hbind : forall A B (m : Act W A) (k : A -> Act W B), runs (history ttl T) m (fun _ => history ttl T) ->
    (forall x, runs (history ttl T) (k x) (fun _ => history ttl T)) -> runs (history ttl T) (m ≫= k) (fun _ => history ttl T)).
  { intros A B m k Hm Hk. eapply runs_bind; [exact Hm|done]. }
  assert (Hcall : forall A (f : Env -> W -> A * W), (forall env v, time_Now env <= T -> history ttl T v -> history ttl T (f env v).2) ->
    runs (history ttl T) (call sc f) (fun _ => history ttl T)).
  { intros A f Hf k v Hv. unfold call. specialize (Hf (sc_env sc k) _ (clock k) (rely k v Hv)). by destruct (f _ _). }
  assert (Hrest : forall A (f : Env -> W -> A * W), (forall env v, aw_tokens (f env v).2 = aw_tokens v) ->
    runs (history ttl T) (call sc f) (fun _ => history ttl T)).
  { intros A f Hf. apply Hcall. intros env v _ Hv. by eapply history_rest. }
  assert (Hchk : forall id cached t, runs (history ttl T) (check_token sc a secret id cached t) (fun _ => history ttl T)).
  { intros id cached t. unfold check_token. repeat (case_match; [apply Hret|]). apply Hbind; [by apply Hrest|]. intros now.
    destruct (match token_ExpiresAt t with Some _ => _ | None => _ end); [apply Hret|]. apply Hbind.
    - destruct cached; [apply Hret|]. apply Hcall. intros env v Hn Hv. by apply (history_put ttl T v (time_Now env)).
    - intros _. apply Hbind; [|intros _; apply Hret]. apply Hbind.
      + apply Hrest. intros env v. by destruct (touch_due id now (aw_touch v)).
      + intros [|]; [|apply Hret]. apply Hbind; [|intros _; apply Hret]. apply Hrest. intros env v. by destruct (au_TouchTokenLastUsed _ _ _ _). }
  assert (H : runs (history ttl T) (verifyToken sc a secret) (fun _ => history ttl T)).
  { unfold verifyToken. destruct (parseToken secret) as [id|]; [|apply Hret]. apply Hbind.
    - apply Hcall. intros env v Hn Hv. pose proof (history_get ttl T v (time_Now env) id Hv Hn) as H.
      by destruct (ttl_get (time_Now env) id (aw_tokens v)).
    - intros [t|]; [apply Hchk|]. apply Hbind; [|intros [t|e]; [apply Hchk|apply Hret]].
      apply Hbind; [by apply Hrest|]. intros [t|e]; apply Hret. }
  intros Hw. specialize (H n w Hw). by destruct (verifyToken sc a secret (n, w)) as [r [n' w']].
Qed.
End before.
End revocation.

(** ** Properties *)

(** The JWT library gives back the claims it signed while they are valid; its
    dates have a precision of one second, and the claims travel as JSON. *)
Class JWTLaws `{JWT} := {
  jwt_round_trip key c token leeway now :
    string_forall is_ascii (cl_Subject c) = true -> jwt_SignedString key c = Ok token ->
    if (now <? Truncate (cl_ExpiresAt c) Second + leeway) && (Truncate (cl_IssuedAt c) Second - leeway <=? now)
    then exists c', jwt_ParseWithClaims key leeway now token = Some c'
           /\ cl_Subject c' = cl_Subject c /\ cl_TokenVersion c' = cl_TokenVersion c
    else jwt_ParseWithClaims key leeway now token = None;
}.

Section properties.
Context `{U : UnicodeTable} `{IP : IPParser} `{NT : IPNets} `{SH : SHA256} `{JW : JWT}.
Context {DB : Type} `{ST : AuthStore DB} `{SL : !AuthStoreLaws DB}.
Notation W := (AuthWorld DB).

(** C14: a revocation reaches every later request within one cache lifetime.
    Take a server from its start with an empty token cache, through any
    lookups and insertions at clock readings up to [T], to a revocation of a
    token.  Then let requests that start after the revocation run in any
    number and interleaving and at any clock readings, using the revoked token
    as often as they like.  A verification of its secret that begins when the
    clock reads [T] plus the configured cache lifetime, or later, is refused,
    with "token revoked" if the secret is the right one and the store answers;
    and it only does what those requests do, so that the token stays dead.
    (A verification already in flight at the revocation is not such a request:
    see [revocation_race].) *)
Theorem revocation_propagates (sc : Sched W) (a : Authenticator) (w : W) (s' : DB) (env : Env)
    (secret id user : string) (T : Z) :
  parseToken secret = Some id ->
  history (a_cacheTTL a) T w ->
  au_RevokeToken env id user (aw_store w) = (Ok tt, s') ->
  let w0 := with_store w s' in
  (forall n v, since w0 v -> since w0 (sc_others sc n v)) ->
  forall n v, since w0 v -> T + a_cacheTTL a <= time_Now (sc_env sc n) ->
  let '(r, (_, w')) := verifyToken sc a secret (n, v) in
  since w0 w' /\ is_Ok r = false /\ exists t, token_of (aw_store w') id = Some t /\ Revoked t = true
  /\ (ctx_Err (sc_env sc (S n)) = None ->
      r = Err (if bool_decide (hashToken a secret = token_SecretHash t) then ErrTokenRevoked : error else ErrUnauthorized : error)).
Proof.
  intros Hp Hh Hrev w0 rely n v Hv Hclock. apply (dead_verify sc a w0 rely secret id (T + a_cacheTTL a) n v Hp); [|done|done].
  destruct (RevokeToken_Ok _ _ _ _ _ Hrev) as (t & t' & _ & _ & Ht' & _ & Hr'). split; [by exists t'|].
  apply (history_cached _ _ _ Hh).
Qed.

(** The record had not expired at this instant. *)
Definition unexpired (t : APIToken) (now : Z) : Prop := forall e, token_ExpiresAt t = Some e -> now < e.

(** C17: what an accepted token means.  Whatever runs in between, a secret is
    accepted only if it has the wire form and its hash is that of the record
    held under the id derived from it: the cache's, when the verification
    looks and finds an entry that has not lapsed, and otherwise, the cache
    having none, the row the store holds under that id at the very next turn.
    That record is not revoked and had not expired when the clock was read
    after that, and it comes back without its hash. *)
Theorem verifyToken_sound (sc : Sched W) (a : Authenticator) (secret : string) (n : nat) (w : W)
    (t : APIToken) (st : nat * W) :
  verifyToken sc a secret (n, w) = (Ok t, st) ->
  let w1 := sc_others sc n w in
  exists id rec,
    parseToken secret = Some id /\ hashToken a secret = token_SecretHash rec /\ Revoked rec = false
    /\ t = without_hash rec
    /\ ((exists exp, entries (aw_tokens w1) !! id = Some (rec, exp) /\ time_Now (sc_env sc n) < exp
         /\ unexpired rec (time_Now (sc_env sc (S n))))
        \/ ((forall v exp, entries (aw_tokens w1) !! id = Some (v, exp) -> exp <= time_Now (sc_env sc n))
            /\ (let w2 := sc_others sc (S n) (with_tokens w1 (ttl_get (time_Now (sc_env sc n)) id (aw_tokens w1)).2) in
                token_of (aw_store w2) id = Some rec)
            /\ unexpired rec (time_Now (sc_env sc (S (S n)))))).
Proof.
  assert (Hchk : forall id cached rec n' w' st', check_token sc a secret id cached rec (n', w') = (Ok t, st') ->
    hashToken a secret = token_SecretHash rec /\ Revoked rec = false
    /\ unexpired rec (time_Now (sc_env sc n')) /\ t = without_hash rec).
  { intros id cached rec n' w' st'. unfold check_token. case_bool_decide as Hh; [|done]. simpl.
    destruct (Revoked rec); [done|]. rewrite bind_step. unfold ask, look, call.
    destruct (match token_ExpiresAt rec with Some e => negb (Before (time_Now (sc_env sc n')) e) | None => false end) eqn:He;
      [done|].
    assert (Hexp : unexpired rec (time_Now (sc_env sc n'))).
    { intros e Ee. rewrite Ee in He. unfold Before in He. by apply negb_false_iff, Z.ltb_lt in He. }
    intros (x1 & st1 & _ & (x2 & st2 & _ & [= <- _])%bind_inv)%bind_inv. done. }
  unfold verifyToken. destruct (parseToken secret) as [id|]; [|done].
  rewrite bind_step. unfold on_tokens at 1, call at 1.
  destruct (ttl_get _ id _) as [c cache'] eqn:Hget. destruct c as [rec|].
  - intros H. destruct (Hchk _ _ _ _ _ _ H) as (? & ? & ? & ?). apply ttl_get_Some in Hget as (_ & exp & ? & ?).
    exists id, rec. split_and!; eauto.
  - unfold try, lookup_token. rewrite !bind_step. unfold ask_db, look, call.
    destruct (au_GetTokenByID _ _ _) as [rec|e] eqn:Hdb; [|done]. intros H.
    destruct (Hchk _ _ _ _ _ _ H) as (? & ? & ? & ?). apply GetTokenByID_Ok in Hdb.
    exists id, rec. split_and!; try done. right. rewrite Hget. split_and!; try done. intros v exp He.
    unfold ttl_get in Hget. rewrite He in Hget. unfold Before in Hget. destruct (Z.ltb_spec (time_Now (sc_env sc n)) exp); [done|lia].
Qed.

Lemma check_accepts (sc : Sched W) a secret id cached t st :
  hashToken a secret = token_SecretHash t -> Revoked t = false ->
  (forall k e, token_ExpiresAt t = Some e -> time_Now (sc_env sc k) < e) ->
  exists st', check_token sc a secret id cached t st = (Ok (without_hash t), st').
Proof.
  intros Hh Hr He. destruct st as [n w]. unfold check_token. rewrite bool_decide_eq_true_2, Hr by done. cbn [negb].
  rewrite bind_step. unfold ask, look, call.
  assert (Hlive : (match token_ExpiresAt t with Some e => negb (Before (time_Now (sc_env sc n)) e) | None => false end)
                  = false).
  { destruct (token_ExpiresAt t) as [e|] eqn:Ee; [|done]. apply negb_false_iff, Z.ltb_lt. auto. }
  rewrite Hlive, bind_step. match goal with |- context [let '(_, _) := ?m in _] => destruct m as [x1 st1] end.
  rewrite bind_step. destruct (touch _ _ _ _) as [x2 st2]. by exists st2.
Qed.

(** Nothing fails: the contexts live and nobody else runs. *)
Definition calm (sc : Sched W) : Prop := quiet sc /\ forall k, ctx_Err (sc_env sc k) = None.

(** A token works.  The secret [CreateToken] returns, presented before
    the token expires and without interference, is accepted and yields the
    record [CreateToken] returned. *)
Theorem token_works (sc : Sched W) (a : Authenticator) (user name : string) (expires : option Z)
    (n : nat) (w : W) (t : APIToken) (secret : string) (st : nat * W) :
  calm sc -> (forall k, time_Now (sc_env sc k) <> 0) ->
  (forall k e, expires = Some e -> time_Now (sc_env sc k) < e) ->
  CreateToken sc a user name expires (n, w) = (Ok (t, secret), st) ->
  entries (aw_tokens w) !! token_ID t = None ->
  exists st', verifyToken sc a secret st = (Ok t, st') /\ token_UserID t = user /\ token_SecretHash t = [].
Proof.
  intros [Q L] Hz Hexp. unfold CreateToken. rewrite bind_step. unfold ask, look. rewrite call_quiet by done.
  cbn beta iota zeta. rewrite bind_step, call_quiet by done. cbn beta iota zeta.
  set (raw := rand_read (rand_byte (sc_env sc n)) tokenBytes).
  set (sec := TokenPrefix +:+ EncodeToString alphabet_url raw).
  set (rec := {| token_ID := _ |}). rewrite bind_step. unfold on_db. rewrite call_quiet by done.
  destruct (au_CreateToken _ rec _) as [[[]|e] s] eqn:Hcr; cbn beta iota zeta; [|done].
  intros [= <- <- <-] Hmiss. apply CreateToken_Ok in Hcr as [_ Hst]; [|apply Hz]. simpl in Hmiss, Hst.
  assert (Hp : parseToken sec = Some (encodeID "tok_" raw)) by (apply parseToken_secret, length_rand_read).
  unfold verifyToken. rewrite Hp, bind_step. unfold on_tokens. rewrite call_quiet by done.
  unfold ttl_get at 1. cbn [aw_tokens]. rewrite Hmiss. cbn beta iota zeta.
  unfold try, lookup_token. rewrite !bind_step. unfold ask_db, look. rewrite call_quiet by done. cbn [aw_store].
  rewrite (GetTokenByID_live _ _ _ rec (L _) Hst). cbn beta iota zeta. cbn [mret act_ret].
  destruct (check_accepts sc a sec (encodeID "tok_" raw) false rec
    (S (S (S (S (S n)))), Build_AuthWorld s (aw_tokens w) (aw_users w) (aw_touch w))) as [st' E]; [done..|].
  exists st'. done.
Qed.

(** C36: the life of a session.  A session issued to a user verifies, from
    anywhere in the program and whatever runs in between, exactly while the
    clock is between its issue date and its expiry (both to the second, with
    the leeway on either side) and the user read through the cache still has
    the token version it was issued for. *)
Theorem session_lifetime `{JL : !JWTLaws} (sc : Sched W) (a : Authenticator) (u : User)
    (n : nat) (w : W) (token : string) (exp : Z) (st : nat * W) (n2 : nat) (w2 : W) :
  user_ID u <> "" -> string_forall is_ascii (user_ID u) = true ->
  IssueSession sc a u (n, w) = (Ok (token, exp), st) ->
  let issued := time_Now (sc_env sc n) in
  let now := time_Now (sc_env sc n2) in
  exp = issued + a_sessionTTL a
  /\ (verifySession sc a token (n2, w2)).1
     = if (now <? Truncate exp Second + ClockLeeway) && (Truncate issued Second - ClockLeeway <=? now) then
         match (userByID sc (user_ID u) (S n2, sc_others sc n2 w2)).1 with
         | Ok v => if user_TokenVersion v =? user_TokenVersion u then Ok v else Err (ErrUnauthorized : error)
         | Err e => Err e
         end
       else Err (ErrUnauthorized : error).
Proof.
  intros Hne Hascii. unfold IssueSession. rewrite bind_step. unfold ask, look, call. cbn beta iota zeta.
  rewrite bind_step. destruct (jwt_SignedString _ _) as [tok|e] eqn:Hs; [|done].
  intros [= <- <- _]. split; [done|].
  unfold verifySession. rewrite bind_step. unfold ask, look, call. cbn beta iota zeta.
  pose proof (fun Ha => jwt_round_trip _ _ tok ClockLeeway (time_Now (sc_env sc n2)) Ha Hs) as H. specialize (H Hascii).
  cbn [cl_ExpiresAt cl_IssuedAt] in H. destruct (_ && _); [|by rewrite H].
  destruct H as (c & -> & Hsub & Htv). simpl in Hsub, Htv. rewrite Hsub, Htv.
  destruct (String.eqb_spec (user_ID u) "") as [|_]; [done|]. unfold try. rewrite bind_step.
  destruct (userByID _ _ _) as [[v|e] st'] eqn:E; simpl; [|done]. by destruct (_ =? _).
Qed.

(** The identity of a user found by a method. *)
Definition as_identity (u : User) (m : string) : Identity :=
  {| id_UserID := user_ID u; id_IsAdmin := user_IsAdmin u; id_Method := m |}.
(** What one more credential makes of the identity found so far. *)
Definition contributes (u : User) (m : string) (f g : option Identity) : Prop :=
  match f with None => g = Some (as_identity u m) | Some i => g = Some i /\ id_UserID i = user_ID u end.
(** The session cookie a request carries, and what the identity header of a
    trusted peer says. *)
Definition session_of (r : Request) : option string :=
  match Cookie_ r SessionCookieName with Some v => if String.eqb v "" then None else Some v | None => None end.
Definition asserted (a : Authenticator) (r : Request) : list string :=
  if a_fwdEnabled a && peerTrusted a (RemoteAddr r) then Header_Values r (a_fwdHeader a) else [].

Lemma accept_inv u m f g : accept u m f = Ok g -> contributes u m f g.
Proof.
  destruct f as [j|]; simpl; [|by intros [= <-]]. destruct (String.eqb_spec (user_ID u) (id_UserID j)); [|done]. by intros [= <-].
Qed.

(** What each credential contributes to an accepted request. *)
Lemma bearer_step sc a r st f1 s1 :
  resolve_bearer sc a r None st = (Ok f1, s1) ->
  if String.eqb (Header_Get r "Authorization") "" then f1 = None /\ s1 = st
  else exists scheme secret t u b, (CutByte (Header_Get r "Authorization") " ").1 = (scheme, secret)
    /\ EqualFold scheme "Bearer" = true /\ verifyToken sc a (TrimSpace secret) st = (Ok t, b)
    /\ userByID sc (token_UserID t) b = (Ok u, s1) /\ f1 = Some (as_identity u MethodBearer).
Proof.
  unfold resolve_bearer. destruct (String.eqb (Header_Get r "Authorization") ""); [by intros [= <- <-]|].
  destruct (CutByte _ _) as [[scheme secret] ok]. destruct (EqualFold scheme "Bearer") eqn:Hf; [|done].
  intros (t & b & Ht & (u & b' & Hu & [= Ha ->])%try_inv)%try_inv. by exists scheme, secret, t, u, b.
Qed.

Lemma cookie_step sc a r f st f2 s2 :
  resolve_cookie sc a r f st = (Ok f2, s2) ->
  match session_of r with
  | None => f2 = f /\ s2 = st
  | Some v => exists u, verifySession sc a v st = (Ok u, s2) /\ contributes u MethodCookie f f2
  end.
Proof.
  unfold resolve_cookie, session_of. destruct (Cookie_ r SessionCookieName) as [v|]; [|by intros [= <- <-]].
  destruct (String.eqb v ""); [by intros [= <- <-]|].
  intros (u & c2 & Hu & [= Ha ->])%try_inv. exists u. split; [done|]. by apply accept_inv.
Qed.

(** The e-mail address of an identity header. *)
Definition plausible_email (email : string) : Prop :=
  Contains email "," = false /\ Contains email "@" = true /\ len email <= 254 /\ email <> "".

Lemma forward_step sc a r f st f3 s3 :
  resolve_forward sc a r f st = (Ok f3, s3) ->
  asserted a r = [] /\ f3 = f /\ s3 = st
  \/ exists v u, asserted a r = [v] /\ plausible_email (TrimSpace v)
      /\ forwardAuthUser sc (TrimSpace v) st = (Ok u, s3) /\ contributes u MethodForwardAuth f f3.
Proof.
  unfold resolve_forward, asserted. destruct (_ && _); simpl; [|intros [= <- <-]; by left].
  destruct (Header_Values r (a_fwdHeader a)) as [|v [|]]; [intros [= <- <-]; by left| |done].
  destruct (Contains (TrimSpace v) ",") eqn:Ec; [done|].
  destruct (String.eqb_spec (TrimSpace v) "") as [|Hne]; [done|].
  destruct (Z.ltb_spec 254 (len (TrimSpace v))); [done|]. destruct (Contains (TrimSpace v) "@") eqn:Ea; [|done]. simpl.
  intros (u & d2 & Hu & [= Ha ->])%try_inv. right. exists v, u. split_and!; try done. by apply accept_inv.
Qed.

(** C34: identities agree and come from where they may.  When a request is
    given an identity, then every credential it carries was verified, in the
    order Authorization header, session cookie, identity header, each against
    the state the one before left, and resolved to that same user; the
    method reported and the admin flag are those of the first one present,
    so that [MethodBearer] is reported for an Authorization header only,
    [MethodCookie] for a session cookie without one, and [MethodForwardAuth]
    for an identity header alone; and that header counts only when the feature
    is on and the peer address is in a trusted network, and then only with a
    single value that looks like one e-mail address.  A request without
    credentials stays anonymous and touches nothing. *)
Theorem resolve_unanimous (sc : Sched W) (a : Authenticator) (r : Request) (st : nat * W)
    (found : option Identity) (st' : nat * W) :
  resolve sc a r st = (Ok found, st') ->
  let authz := Header_Get r "Authorization" in
  (authz = "" -> session_of r = None -> asserted a r = [] -> found = None /\ st' = st)
  /\ exists s1 s2,
    (if String.eqb authz "" then s1 = st
     else exists scheme secret t u b, (CutByte authz " ").1 = (scheme, secret) /\ EqualFold scheme "Bearer" = true
       /\ verifyToken sc a (TrimSpace secret) st = (Ok t, b) /\ userByID sc (token_UserID t) b = (Ok u, s1)
       /\ found = Some (as_identity u MethodBearer))
    /\ match session_of r with
       | None => s2 = s1
       | Some v => exists u, verifySession sc a v s1 = (Ok u, s2) /\ id_UserID <$> found = Some (user_ID u)
           /\ (authz = "" -> found = Some (as_identity u MethodCookie))
       end
    /\ match asserted a r with
       | [] => st' = s2
       | [v] => plausible_email (TrimSpace v) /\ exists u, forwardAuthUser sc (TrimSpace v) s2 = (Ok u, st')
           /\ id_UserID <$> found = Some (user_ID u)
           /\ (authz = "" -> session_of r = None -> found = Some (as_identity u MethodForwardAuth))
       | _ :: _ :: _ => False
       end.
Proof.
  intros (f1 & s1 & Hb & (f2 & s2 & Hc & Hf)%try_inv)%try_inv. cbn zeta.
  apply bearer_step in Hb. apply cookie_step in Hc. apply forward_step in Hf.
  destruct (String.eqb_spec (Header_Get r "Authorization") "") as [Ea|Ea].
  - destruct Hb as [-> ->]. destruct (session_of r) as [v|].
    + destruct Hc as (u & Hv & ->). split; [done|]. exists st, s2.
      destruct Hf as [(-> & -> & ->)|(v' & u' & -> & He & Hv' & [-> Hu'])].
      * split_and!; [done| |done]. by exists u.
      * split_and!; [done|by exists u|done|]. exists u'. split_and!; [done| |done]. cbn. f_equal. exact Hu'.
    + destruct Hc as [-> ->]. destruct Hf as [(-> & -> & ->)|(v' & u' & -> & He & Hv' & ->)].
      * split; [done|]. by exists st, st.
      * split; [done|]. exists st, st. split_and!; [done|done|done|]. by exists u'.
  - split; [done|]. destruct Hb as (scheme & secret & t & u & b & Hcut & Hfold & Ht & Hu & ->).
    assert (Hfound : f2 = Some (as_identity u MethodBearer) /\ found = Some (as_identity u MethodBearer)).
    { assert (f2 = Some (as_identity u MethodBearer)) as ->.
      { destruct (session_of r); [by destruct Hc as (? & _ & -> & _)|by destruct Hc]. }
      split; [done|]. by destruct Hf as [(_ & -> & _)|(? & ? & _ & _ & _ & -> & _)]. }
    destruct Hfound as [-> ->]. exists s1, s2. split_and!.
    + by exists scheme, secret, t, u, b.
    + destruct (session_of r); [|by destruct Hc]. destruct Hc as (u' & Hv & _ & E). exists u'.
      split_and!; [done| |done]. cbn. f_equal. exact E.
    + destruct Hf as [(-> & _ & ->)|(v' & u' & -> & He & Hv' & _ & E)]; [done|]. split; [done|]. exists u'.
      split_and!; [done| |done]. cbn. f_equal. exact E.
Qed.
End properties.

(** ** A concrete world *)
#[local] Instance plain_ip : IPParser := {| netip_is_IPv6 := fun _ => false; net_ParseIP := fun _ => true |}.
#[local] Instance prefix_nets : IPNets := {| IPNet := string; net_ParseCIDR := Some; net_Contains := fun n h => HasPrefix h n |}.
#[local] Instance id_sha : SHA256 := {| sha256_Sum256 := fun l => l |}.

(** Claims as one number, dates to the second. *)
Definition claims_code (key : list ascii) (c : sessionClaims) : positive :=
  encode (key, cl_TokenVersion c, cl_Subject c, Truncate (cl_IssuedAt c) Second, Truncate (cl_ExpiresAt c) Second).
#[local] Instance number_jwt : JWT := {|
  jwt_SignedString := fun key c => Ok (BinaryString.of_Z (Zpos (claims_code key c)));
  jwt_ParseWithClaims := fun key leeway now token =>
    '(key', tv, sub, iat, exp) ← decode (Z.to_pos (BinaryString.to_Z token));
    if bool_decide (key' = key) && ((now <? exp + leeway) && (iat - leeway <=? now))
    then Some {| cl_TokenVersion := tv; cl_Subject := sub; cl_ID := ""; cl_IssuedAt := iat; cl_ExpiresAt := exp |}
    else None
|}.
#[local] Instance number_jwt_laws : JWTLaws.
Proof.
  split. intros key c token leeway now _ Hs.
  assert (token = BinaryString.of_Z (Zpos (claims_code key c))) as -> by (injection Hs as <-; reflexivity).
  unfold jwt_ParseWithClaims, number_jwt.
  rewrite BinaryString.Z_of_of_Z. cbn [Z.to_pos]. unfold claims_code. rewrite countable.decode_encode. cbn. rewrite bool_decide_eq_true_2 by done. simpl.
  destruct (_ && _); [|done]. eexists. by split_and!.
Qed.

Definition demo_auth : Authenticator := {|
  a_signingKey := bytes "key"; a_sessionTTL := DefaultSessionTTL; a_cacheTTL := DefaultCacheTTL; a_pepper := [];
  a_cookieSecure := true; a_fwdEnabled := true; a_fwdHeader := "X-Forwarded-Email"; a_fwdTrusted := ["10."] |}.

(** Nothing else runs; the clock stands [t] seconds after the epoch. *)
Definition still (t : Z) : Sched (AuthWorld memStore) := {|
  sc_env := fun _ => {| ctx_Err := None; time_Now := epoch + t * Second; rand_byte := rand_byte (env_at 7) |};
  sc_others := fun _ w => w |}.

Definition alice : User := {|
  user_ID := "usr_1"; user_Email := "alice@example.com"; user_PasswordHash := ""; user_IsAdmin := false;
  user_TokenVersion := 0; user_Source := UserSourceLocal; user_CreatedAt := epoch; user_LastLoginAt := None |}.
Definition alice_world : AuthWorld memStore :=
  Build_AuthWorld (CreateUser env0 alice NewMemStore).2 (newTTLCache DefaultCacheTTL) (newTTLCache DefaultCacheTTL) ∅.
Definition demo_secret : string := TokenPrefix +:+ EncodeToString alphabet_url (rand_read (rand_byte (env_at 7)) tokenBytes).
Definition demo_token : string := encodeID "tok_" (rand_read (rand_byte (env_at 7)) tokenBytes).
Definition token_world : AuthWorld memStore := (CreateToken (still 0) demo_auth "usr_1" "ci" None (0%nat, alice_world)).2.2.

(** A defect.  A verification in flight when the token is revoked caches
    the record it had read, with a lifetime counted from the write: twenty
    seconds after the revocation it is put back for thirty more, so another
    request forty seconds after the revocation is still accepted, although the
    cache lifetime of thirty seconds is documented as the worst case. *)
Theorem revocation_race :
  let revoke (n : nat) (w : AuthWorld memStore) :=
    if Nat.eqb n 2 then Build_AuthWorld (RevokeToken (sc_env (still 1) 0) demo_token "usr_1" (aw_store w)).2
                          (aw_tokens w) (aw_users w) (aw_touch w) else w in
  let sc := {| sc_env := fun n => sc_env (still (if Nat.leb n 1 then 0 else if Nat.leb n 5 then 20 else 41)) 0;
               sc_others := revoke |} in
  let '(r1, (n1, w1)) := verifyToken sc demo_auth demo_secret (0%nat, token_world) in
  let '(r2, _) := verifyToken sc demo_auth demo_secret (n1, w1) in
  (token_RevokedAt <$> tokens (aw_store w1) !! demo_token) = Some (Some (epoch + 1 * Second))
  /\ time_Now (sc_env sc n1) = epoch + 1 * Second + 40 * Second
  /\ a_cacheTTL demo_auth = 30 * Second
  /\ is_Ok r1 = true /\ is_Ok r2 = true.
Proof. vm_compute. auto 10. Qed.

(** ** Witnesses *)
Definition bearer_request : Request := {|
  Header_Values := fun name => if String.eqb name "Authorization" then ["Bearer " +:+ demo_secret]
                               else if String.eqb name "X-Forwarded-Email" then [" Alice@example.com "] else [];
  Cookie_ := fun _ => None;
  RemoteAddr := "10.0.0.1:4711" |}.
Definition cached_world : AuthWorld memStore := (verifyToken (still 0) demo_auth demo_secret (0%nat, token_world)).2.2.
Definition revoked_store : memStore := (RevokeToken (sc_env (still 10) 0) demo_token "usr_1" (aw_store cached_world)).2.
(** At every turn another client sends the request above. *)
Definition crowd : Sched (AuthWorld memStore) := {|
  sc_env := sc_env (still 60); sc_others := fun n w => (resolve (still 60) demo_auth bearer_request (n, w)).2.2 |}.

Lemma cached_history : history DefaultCacheTTL (epoch + 10 * Second) cached_world.
Proof.
  apply (history_verify (still 0) demo_auth); [by intros n w|intros n; vm_compute; discriminate|].
  apply history_start. vm_compute. reflexivity.
Qed.
Lemma crowd_since w0 n v : since w0 v -> since w0 (sc_others crowd n v).
Proof.
  intros Hv. pose proof (safe_resolve (still 60) demo_auth w0 (fun _ _ h => h) bearer_request n v Hv) as Hs.
  change (sc_others crowd n v) with (resolve (still 60) demo_auth bearer_request (n, v)).2.2.
  destruct (resolve (still 60) demo_auth bearer_request (n, v)) as [r [n' w']]. exact (proj1 Hs).
Qed.

Lemma revocation_propagates_witness :
  is_Ok (verifyToken (still 0) demo_auth demo_secret (0%nat, token_world)).1 = true
  /\ is_Ok (verifyToken crowd demo_auth demo_secret (0%nat, with_store cached_world revoked_store)).1 = false.
Proof.
  split; [vm_compute; reflexivity|].
  pose proof (revocation_propagates crowd demo_auth cached_world revoked_store (sc_env (still 10) 0)
    demo_secret demo_token "usr_1" (epoch + 10 * Second)) as H.
  specialize (H ltac:(vm_compute; reflexivity) cached_history).
  assert (Hrev : au_RevokeToken (sc_env (still 10) 0) demo_token "usr_1" (aw_store cached_world) = (Ok tt, revoked_store)).
  { apply pair_of_fst. vm_compute. reflexivity. }
  specialize (H Hrev (crowd_since _) 0%nat _ (since_start _) ltac:(vm_compute; discriminate)).
  destruct (verifyToken crowd _ _ _) as [r [n' w']]. destruct H as (_ & H & _). exact H.
Defined.

Lemma verifyToken_sound_witness :
  exists rec, tokens (aw_store token_world) !! demo_token = Some rec
    /\ hashToken demo_auth demo_secret = token_SecretHash rec /\ Revoked rec = false.
Proof.
  destruct (verifyToken (still 0) demo_auth demo_secret (0%nat, token_world)) as [r st] eqn:E.
  assert (Hok : is_Ok (verifyToken (still 0) demo_auth demo_secret (0%nat, token_world)).1 = true) by (vm_compute; reflexivity).
  rewrite E in Hok. destruct r as [t|e]; [|discriminate Hok].
  destruct (verifyToken_sound (still 0) demo_auth demo_secret 0 token_world t st E) as (id & rec & Hp & Hh & Hr & _ & Hsrc).
  assert (Hid : parseToken demo_secret = Some demo_token) by (vm_compute; reflexivity).
  assert (id = demo_token) as -> by congruence.
  destruct Hsrc as [(exp & Hc & _)|(_ & Hst & _)].
  - assert (Hn : entries (aw_tokens token_world) !! demo_token = None) by (vm_compute; reflexivity).
    change (sc_others (still 0) 0%nat token_world) with token_world in Hc. rewrite Hn in Hc. discriminate Hc.
  - exists rec. split; [exact Hst|]. split; assumption.
Defined.

Lemma token_works_witness :
  exists t secret st st', CreateToken (still 0) demo_auth "usr_1" "ci" (Some (epoch + Hour)) (0%nat, alice_world) = (Ok (t, secret), st)
    /\ verifyToken (still 0) demo_auth secret st = (Ok t, st') /\ token_UserID t = "usr_1".
Proof.
  destruct (CreateToken (still 0) demo_auth "usr_1" "ci" (Some (epoch + Hour)) (0%nat, alice_world)) as [r st] eqn:E.
  assert (Hok : is_Ok (CreateToken (still 0) demo_auth "usr_1" "ci" (Some (epoch + Hour)) (0%nat, alice_world)).1 = true)
    by (vm_compute; reflexivity).
  rewrite E in Hok. destruct r as [[t secret]|e]; [|discriminate Hok].
  destruct (token_works (still 0) demo_auth "usr_1" "ci" (Some (epoch + Hour)) 0 alice_world t secret st)
    as (st' & Hv & Hu & _).
  - split; [intros n w; reflexivity|intros k; reflexivity].
  - intros k. vm_compute. discriminate.
  - intros k e [= <-]. vm_compute. reflexivity.
  - exact E.
  - reflexivity.
  - exists t, secret, st, st'. split; [reflexivity|]. split; assumption.
Defined.

Lemma session_lifetime_witness :
  exists token exp st, IssueSession (still 0) demo_auth alice (0%nat, alice_world) = (Ok (token, exp), st)
    /\ exp = epoch + 12 * Hour
    /\ (verifySession (still 0) demo_auth token (5%nat, alice_world)).1 = Ok alice.
Proof.
  destruct (IssueSession (still 0) demo_auth alice (0%nat, alice_world)) as [r st] eqn:E.
  assert (Hok : is_Ok (IssueSession (still 0) demo_auth alice (0%nat, alice_world)).1 = true) by (vm_compute; reflexivity).
  rewrite E in Hok. destruct r as [[token exp]|e]; [|discriminate Hok].
  destruct (session_lifetime (still 0) demo_auth alice 0 alice_world token exp st 5 alice_world) as [He Hv].
  - vm_compute. discriminate.
  - reflexivity.
  - exact E.
  - exists token, exp, st. split; [reflexivity|]. split; [exact He|]. rewrite Hv, He. vm_compute. reflexivity.
Defined.

(** The same request without its Authorization header: the peer's word counts. *)
Definition header_request : Request := {|
  Header_Values := fun name => if String.eqb name "X-Forwarded-Email" then [" Alice@example.com "] else [];
  Cookie_ := fun _ => None; RemoteAddr := "10.0.0.1:4711" |}.

Lemma resolve_unanimous_witness :
  (exists st', resolve (still 0) demo_auth bearer_request (0%nat, token_world) = (Ok (Some (as_identity alice MethodBearer)), st'))
  /\ exists st', resolve (still 0) demo_auth header_request (0%nat, token_world) = (Ok (Some (as_identity alice MethodForwardAuth)), st').
Proof.
  assert (Hu : forall n, (forwardAuthUser (still 0) (TrimSpace " Alice@example.com ") (n, token_world)).1 = Ok alice)
    by (intros n; vm_compute; reflexivity).
  split.
  - destruct (resolve (still 0) demo_auth bearer_request (0%nat, token_world)) as [r st'] eqn:E.
    assert (Hok : (resolve (still 0) demo_auth bearer_request (0%nat, token_world)).1 = Ok (Some (as_identity alice MethodBearer)))
      by (vm_compute; reflexivity).
    rewrite E in Hok. cbn [fst] in Hok. subst r.
    destruct (resolve_unanimous (still 0) demo_auth bearer_request (0%nat, token_world) _ st' E) as (_ & s1 & s2 & Hb & _).
    exists st'. reflexivity.
  - destruct (resolve (still 0) demo_auth header_request (0%nat, token_world)) as [r st'] eqn:E.
    assert (Hok : is_Ok (resolve (still 0) demo_auth header_request (0%nat, token_world)).1 = true) by (vm_compute; reflexivity).
    rewrite E in Hok. destruct r as [found|e]; [|discriminate Hok].
    destruct (resolve_unanimous (still 0) demo_auth header_request (0%nat, token_world) found st' E) as (_ & s1 & s2 & H1 & H2 & H3).
    change (s1 = (0%nat, token_world)) in H1. change (s2 = s1) in H2. subst s1 s2.
    assert (Ha : asserted demo_auth header_request = [" Alice@example.com "]) by (vm_compute; reflexivity).
    rewrite Ha in H3. destruct H3 as (_ & u & Hv & _ & Hm). specialize (Hu 0%nat). rewrite Hv in Hu. injection Hu as ->.
    exists st'. rewrite (Hm eq_refl eq_refl). reflexivity.
Defined.
