(* ===== verification/Visitor.v ===== *)
(** * What a scan records of its visitor ([internal/analytics/{ua,referrer}.go])

    The referrer reduced to its host, and the User-Agent to a family and a
    device category; the trie parser of [medama-io/go-useragent] is a
    parameter. *)
From Stdlib Require Import Ascii String.
From S2P Require Import GoLib GoUrl Domain.
Local Open Scope string_scope.
Local Open Scope Z_scope.

(** What the program reads of a parsed User-Agent. *)
Record AgentInfo := {
  ai_Browser : string;
  ai_IsBot : bool;
  ai_IsTablet : bool;
  ai_IsMobile : bool;
  ai_IsTV : bool;
  ai_IsDesktop : bool;
}.
Class UserAgents := { ua_Parse : string -> AgentInfo }.

Definition UnknownFamily : string := "unknown".

Record Classification := { c_UAFamily : string; c_DeviceCategory : DeviceCategory; c_IsBot : bool }.

Definition Classify `{UserAgents} (ua : string) : Classification :=
  if String.eqb ua "" then
    {| c_UAFamily := UnknownFamily; c_DeviceCategory := DeviceUnknown; c_IsBot := false |}
  else
    let r := ua_Parse ua in
    let family := if String.eqb (ai_Browser r) "" then UnknownFamily else ai_Browser r in
    let out d := {| c_UAFamily := family; c_DeviceCategory := d; c_IsBot := false |} in
    if ai_IsBot r then {| c_UAFamily := UnknownFamily; c_DeviceCategory := DeviceBot; c_IsBot := true |}
    else if ai_IsTablet r then out DeviceTablet
    else if ai_IsMobile r then out DeviceMobile
    else if ai_IsTV r then out DeviceTV
    else if ai_IsDesktop r then out DeviceDesktop
    else out DeviceUnknown.

Definition ReferrerHost `{UnicodeTable} `{IPParser} (referer : string) : string :=
  if String.eqb referer "" then ""
  else match Parse referer with
  | None => ""
  | Some u =>
      let host := Hostname u in
      if String.eqb host "" then "" else ToLower host
  end.

(** [referrerHost] of [internal/httpapi/public], which the handler calls. *)
Definition referrerHost `{UnicodeTable} `{IPParser} (ref : string) : string :=
  if String.eqb ref "" then ""
  else match Parse ref with
  | None => ""
  | Some u => ToLower (Hostname u)
  end.

(** ** What is left of a URL *)

(** The bytes that would carry a path, a query, a fragment or user info. *)
Definition host_byte (c : ascii) : bool := negb (ascii_in c "/?#@").

(** A rune above U+007F lowers to another one or to an ASCII letter. *)
Class UnicodeTableOk `{UnicodeTable} : Prop := {
  uni_lower_high r : 128 <= r -> 128 <= uni_lower r \/ 97 <= uni_lower r <= 122;
}.

Lemma byte_cases (P : ascii -> bool) :
  forallb (fun n => P (ascii_of_nat n)) (seq 0 256) = true -> forall c, P c = true.
Proof.
  intros H c. rewrite forallb_forall in H. specialize (H (nat_of_ascii c)). rewrite ascii_nat_embedding in H.
  apply H, in_seq. pose proof (nat_ascii_bounded c). lia.
Qed.

Definition host_mode (m : encoding) : bool := match m with encodeHost | encodeZone => true | _ => false end.

(** A literal byte of a host, and one that may be percent-encoded there. *)
Lemma literal_host m c :
  host_mode m = true -> (code c <? 128) && shouldEscape c m = false -> host_byte c = true.
Proof.
  intros Hm H.
  assert (Hall : forall d, implb (negb ((code d <? 128) && shouldEscape d encodeHost)
                                 || negb ((code d <? 128) && shouldEscape d encodeZone)) (host_byte d) = true)
    by (apply byte_cases; vm_compute; reflexivity).
  specialize (Hall c). destruct m; try done; rewrite H in Hall; simpl in Hall;
    rewrite ?orb_true_r in Hall; by destruct (host_byte c).
Qed.

Lemma unhex_range c : ishex c = true -> 0 <= unhex c < 16.
Proof.
  intros H. assert (Hall : forall d, implb (ishex d) ((0 <=? unhex d) && (unhex d <? 16)) = true)
    by (apply byte_cases; vm_compute; reflexivity).
  specialize (Hall c). rewrite H in Hall. simpl in Hall. apply andb_prop in Hall as [? ?]. lia.
Qed.

Lemma high_host c : 128 <= code c -> host_byte c = true.
Proof.
  intros H. assert (Hall : forall d, implb (128 <=? code d) (host_byte d) = true)
    by (apply byte_cases; vm_compute; reflexivity).
  specialize (Hall c). apply Z.leb_le in H. by rewrite H in Hall.
Qed.

Lemma escaped_host m a b :
  host_mode m = true -> ishex a = true -> ishex b = true -> escape_allowed m a b = true ->
  host_byte (byte_of (unhex a * 16 + unhex b)) = true.
Proof.
  intros Hm Ha Hb He. pose proof (unhex_range a Ha). pose proof (unhex_range b Hb).
  assert (H25 : Ascii.eqb a "2" && Ascii.eqb b "5" = true -> host_byte (byte_of (unhex a * 16 + unhex b)) = true).
  { intros [->%Ascii.eqb_eq ->%Ascii.eqb_eq]%andb_prop. reflexivity. }
  destruct m; try done; cbn [escape_allowed] in He.
  - apply orb_prop in He as [He|]; [|auto]. apply negb_true_iff, Z.ltb_ge in He.
    apply high_host. rewrite code_byte_of; lia.
  - apply orb_prop in He as [[He|He]%orb_prop|He]; [auto| |].
    + apply Z.eqb_eq in He. rewrite He. reflexivity.
    + apply (literal_host encodeHost); [done|]. apply negb_true_iff in He. rewrite He. apply andb_false_r.
Qed.

Lemma unescape_host m s t :
  host_mode m = true -> unescape m s = Some t -> string_forall host_byte t = true.
Proof.
  intros Hm. remember (String.length s) as n eqn:Hn. revert s t Hn.
  induction n as [n IH] using lt_wf_ind. intros [|c s1] t Hn; [by intros [= <-]|].
  cbn [unescape]. destruct (Ascii.eqb c "%").
  - destruct s1 as [|a [|b s2]]; try done. destruct (ishex a && ishex b && escape_allowed m a b) eqn:E; [|done].
    apply andb_prop in E as [[Ea Eb]%andb_prop Ee]. destruct (unescape m s2) as [t2|] eqn:E2; [|done].
    intros [= <-]. rewrite string_forall_cons, (escaped_host m a b) by done.
    apply (IH (String.length s2)) with (s := s2); simpl in *; [lia|done|done].
  - change (match m with encodeHost | encodeZone => true | _ => false end) with (host_mode m). rewrite Hm. simpl.
    destruct ((code c <? 128) && shouldEscape c m) eqn:E; [done|].
    destruct (unescape m s1) as [t1|] eqn:E1; [|done]. intros [= <-].
    rewrite string_forall_cons, (literal_host m c) by done.
    apply (IH (String.length s1)) with (s := s1); simpl in *; [lia|done|done].
Qed.

Section host.
Context `{U : UnicodeTable} `{IP : IPParser}.
Notation clean s := (string_forall host_byte s = true).

Lemma CutLastByte_forall P s c a b :
  CutLastByte s c = Some (a, b) -> string_forall P s = true ->
  string_forall P a = true /\ string_forall P b = true.
Proof.
  revert a b. induction s as [|d s IH]; intros a b; [done|]. cbn [CutLastByte].
  rewrite string_forall_cons. intros H [Hd Hs]%andb_prop.
  destruct (CutLastByte s c) as [[a' b']|].
  - injection H as <- <-. destruct (IH a' b' eq_refl Hs). by rewrite string_forall_cons, Hd.
  - destruct (Ascii.eqb d c); [|done]. by injection H as <- <-.
Qed.

Lemma parseHost_clean h x : parseHost h = Some x -> clean x.
Proof.
  unfold parseHost. destruct (CutLastByte h "[") as [[pre r]|].
  - destruct (negb _); [done|]. destruct (CutLastByte h "]") as [[o p]|]; [|done].
    destruct (negb _); [done|]. destruct (unescape encodeHost p) as [port|] eqn:Ep; [|done].
    apply unescape_host in Ep; [|done].
    assert (Hfin : forall name, string_forall host_byte name = true ->
      (if netip_is_IPv6 name then Some ("[" +:+ name +:+ "]" +:+ port) else None) = Some x -> clean x).
    { intros name Hn. destruct (netip_is_IPv6 name); [|done]. intros E.
      assert (x = "[" +:+ name +:+ "]" +:+ port) as -> by (by injection E). rewrite !string_forall_app, Hn, Ep. done. }
    destruct (CutAt _ _) as [[h1 z]|].
    + destruct (unescape encodeHost h1) as [h'|] eqn:E1; [|done]. destruct (unescape encodeZone z) as [z'|] eqn:E2; [|done].
      apply Hfin. rewrite string_forall_app. apply andb_true_intro. split; [exact (unescape_host encodeHost _ _ eq_refl E1)|exact (unescape_host encodeZone _ _ eq_refl E2)].
    + destruct (unescape encodeHost _) as [name|] eqn:E1; [|done]. apply Hfin. exact (unescape_host encodeHost _ _ eq_refl E1).
  - destruct (CutByte h ":") as [[a b] ok]. destruct (ok && _); [done|]. by apply unescape_host.
Qed.

Lemma parseAuthority_clean s user h : parseAuthority s = Some (user, h) -> clean h.
Proof.
  unfold parseAuthority. destruct (CutLastByte s "@") as [[ui r]|].
  - destruct (parseHost r) as [x|] eqn:E; [|done]. destruct (negb _); [done|].
    destruct (CutByte ui ":") as [[a b] ok]. repeat (destruct (unescape _ _); [|done]).
    intros [= _ <-]. by eapply parseHost_clean.
  - destruct (parseHost s) as [x|] eqn:E; [|done]. intros [= _ <-]. by eapply parseHost_clean.
Qed.

Lemma with_path_Host u p v : with_path u p = Some v -> Host v = Host u.
Proof. unfold with_path. destruct (unescape _ _); [|done]. by intros [= <-]. Qed.

Lemma parse_clean raw u : parse raw = Some u -> clean (Host u).
Proof.
  unfold parse. destruct (stringContainsCTLByte raw); [done|]. destruct (String.eqb raw "*"); [by intros [= <-]|].
  destruct (getScheme raw) as [[sch rest]|]; [|done]. destruct (CutByte rest "?") as [[before after] has].
  destruct (negb (HasPrefix before "/") && _); [by intros [= <-]|]. destruct (negb _ && _); [done|].
  destruct (_ && HasPrefix before "//").
  - destruct (default _ _) as [auth path]. destruct (parseAuthority auth) as [[user h]|] eqn:E; [|done].
    intros ->%with_path_Host. simpl. by eapply parseAuthority_clean.
  - by intros ->%with_path_Host.
Qed.

Lemma Parse_clean raw u : Parse raw = Some u -> clean (Host u).
Proof.
  unfold Parse. destruct (CutByte raw "#") as [[v frag] ok]. destruct (parse v) as [w|] eqn:E; [|done].
  apply parse_clean in E. destruct (String.eqb frag ""); [by intros [= <-]|].
  destruct (unescape _ _); [|done]. by intros [= <-].
Qed.

Lemma Hostname_clean raw u : Parse raw = Some u -> clean (Hostname u).
Proof.
  intros H%Parse_clean. unfold Hostname, splitHostPort.
  assert (Hcut : forall h p, match CutLastByte (Host u) ":" with
      | Some (h, p) => if validOptionalPort (":" +:+ p) then (h, p) else (Host u, "")
      | None => (Host u, "") end = (h, p) -> clean h).
  { intros h p. destruct (CutLastByte (Host u) ":") as [[a b]|] eqn:E; [|by intros [= <- _]].
    destruct (CutLastByte_forall _ _ _ _ _ E H). destruct (validOptionalPort _); by intros [= <- _]. }
  destruct (match CutLastByte (Host u) ":" with Some _ => _ | None => _ end) as [h p] eqn:E.
  specialize (Hcut h p eq_refl). cbn [fst]. destruct (_ && _); [|done].
  by apply string_forall_take, string_forall_drop.
Qed.

(** Lower-casing keeps it clean. *)
Lemma DecodeRune_rune c s : (code c < 128 /\ DecodeRune (String c s) = (code c, 1%nat)) \/ 128 <= (DecodeRune (String c s)).1.
Proof.
  cbn [DecodeRune]. destruct (Z.ltb_spec (code c) 128); [by left|right].
  unfold is_cont, cont_bits, RuneError.
  repeat (case_match; simpl; try lia); bool_to_prop; repeat (apply andb_prop in H0 as [H0 ?]); bool_to_prop; lia.
Qed.

(** Each rune is one of the string's own ASCII bytes, or lies above them. *)
Lemma runes_from_cases skip s r : r ∈ runes_from skip s -> 128 <= r \/ exists c, c ∈ bytes s /\ code c = r.
Proof.
  revert skip. induction s as [|c s IH]; intros skip Hr; [by apply elem_of_nil in Hr|].
  assert (Hrec : forall k, r ∈ runes_from k s -> 128 <= r \/ exists d, d ∈ bytes (String c s) /\ code d = r).
  { intros k Hk. destruct (IH k Hk) as [|(d & Hd & <-)]; [by left|right]. exists d. split; [by right|done]. }
  cbn [runes_from] in Hr. destruct skip as [|k]; [|by eapply Hrec].
  pose proof (DecodeRune_rune c s) as Hc. destruct (DecodeRune (String c s)) as [q n].
  apply elem_of_cons in Hr as [->|Hr]; [|by eapply Hrec].
  destruct Hc as [[_ [= -> _]]|]; [right|by left]. exists c. split; [left|done].
Qed.

Lemma EncodeRune_high r : 128 <= r -> Forall (fun c => host_byte c = true) (EncodeRune r).
Proof.
  intros Hr. assert (Hb : forall z, 128 <= z < 256 -> host_byte (byte_of z) = true).
  { intros z Hz. apply high_host. rewrite code_byte_of; lia. }
  unfold EncodeRune, RuneError. repeat case_match; bool_to_prop;
    repeat match goal with H : _ && _ = true |- _ => apply andb_prop in H as [? ?]; bool_to_prop end;
    try lia; repeat constructor; apply Hb; dlia.
Qed.

Lemma ToLower_clean `{!UnicodeTableOk} s : clean s -> clean (ToLower s).
Proof.
  intros Hs. unfold ToLower. apply string_forall_spec. rewrite bytes_of_bytes. intros b Hb.
  apply list_elem_of_In, in_concat in Hb as (l & Hl & Hb). apply list_elem_of_In in Hl, Hb.
  apply list_elem_of_fmap in Hl as (r & -> & Hr). unfold compose in Hb.
  assert (Hhigh : forall q, 128 <= q -> b ∈ EncodeRune q -> host_byte b = true).
  { intros q Hq%EncodeRune_high Hin. rewrite Forall_forall in Hq. by apply Hq. }
  destruct (runes_from_cases 0 s r Hr) as [Hhi|(c & Hc & <-)].
  - unfold rune_lower in Hb. destruct (Z.ltb_spec r 128); [lia|].
    destruct (uni_lower_high r Hhi) as [|Hlet]; [by eapply Hhigh|].
    rewrite EncodeRune_ascii in Hb by lia. apply list_elem_of_singleton in Hb as ->.
    apply (literal_host encodeHost); [done|]. apply andb_false_intro2.
    unfold shouldEscape, is_alnum, is_lower. rewrite code_byte_of by lia.
    destruct (Z.leb_spec 97 (uni_lower r)), (Z.leb_spec (uni_lower r) 122); try lia. by rewrite orb_true_r.
  - rewrite string_forall_spec in Hs. specialize (Hs c Hc).
    destruct (Z.ltb_spec (code c) 128) as [Hlt|Hge].
    + assert (Hr' : 0 <= rune_lower (code c) < 128).
      { unfold rune_lower. pose proof (code_bounds c). destruct (Z.ltb_spec (code c) 128); [|lia].
        destruct (_ && _) eqn:E; [|lia]. apply andb_prop in E as [? ?]. lia. }
      rewrite EncodeRune_ascii in Hb by done. apply list_elem_of_singleton in Hb as ->.
      assert (Hall : forall d, implb (host_byte d) (implb (code d <? 128) (host_byte (byte_of (rune_lower (code d))))) = true).
      { intros d. unfold rune_lower. destruct (code d <? 128) eqn:E; [|by destruct (host_byte d)].
        revert d E. assert (Hx : forall d, implb (code d <? 128) (implb (host_byte d) (implb true (host_byte (byte_of
          (if (65 <=? code d) && (code d <=? 90) then code d + 32 else code d))))) = true)
          by (apply byte_cases; vm_compute; reflexivity).
        intros d E. specialize (Hx d). by rewrite E in Hx. }
      specialize (Hall c). rewrite Hs in Hall. apply Z.ltb_lt in Hlt. by rewrite Hlt in Hall.
    + unfold rune_lower in Hb. destruct (Z.ltb_spec (code c) 128); [lia|].
      destruct (uni_lower_high (code c) Hge) as [|Hlet]; [by eapply Hhigh|].
      rewrite EncodeRune_ascii in Hb by lia. apply list_elem_of_singleton in Hb as ->.
      apply (literal_host encodeHost); [done|]. apply andb_false_intro2.
      unfold shouldEscape, is_alnum, is_lower. rewrite code_byte_of by lia.
      destruct (Z.leb_spec 97 (uni_lower (code c))), (Z.leb_spec (uni_lower (code c)) 122); try lia. by rewrite orb_true_r.
Qed.

(** Only the host of a Referer survives.  Whatever the header holds, what
    is recorded has no byte that could carry a path, a query, a fragment or
    user information ([/ ? # @]), and the handler's reduction and the
    analytics package's are the same function. *)
Theorem ReferrerHost_private `{!UnicodeTableOk} (referer : string) :
  string_forall host_byte (ReferrerHost referer) = true /\ referrerHost referer = ReferrerHost referer.
Proof.
  unfold ReferrerHost, referrerHost. destruct (String.eqb referer ""); [done|].
  destruct (Parse referer) as [u|] eqn:E; [|done]. apply Hostname_clean in E.
  destruct (String.eqb_spec (Hostname u) "") as [->|]; [done|]. split; [by apply ToLower_clean|done].
Qed.
End host.

(** Classifying a User-Agent.  The family is never empty; the category is
    one of the six the analytics know; and a bot is exactly what has the bot
    category, with the unknown family. *)
Theorem Classify_total `{UserAgents} (ua : string) :
  let c := Classify ua in
  c_UAFamily c <> ""
  /\ c_DeviceCategory c ∈ [DeviceDesktop; DeviceMobile; DeviceTablet; DeviceTV; DeviceBot; DeviceUnknown]
  /\ (c_IsBot c = true <-> c_DeviceCategory c = DeviceBot)
  /\ (c_IsBot c = true -> c_UAFamily c = UnknownFamily /\ ai_IsBot (ua_Parse ua) = true).
Proof.
  unfold Classify. destruct (String.eqb ua ""); [simpl; set_solver|].
  destruct (String.eqb_spec (ai_Browser (ua_Parse ua)) ""); repeat case_match; simpl; set_solver.
Qed.

Lemma ReferrerHost_private_witness :
  @ReferrerHost ascii_unicode {| netip_is_IPv6 := fun _ => false; net_ParseIP := fun _ => false |}
    "https://bob@Shop.example:8443/a?b#c" = "shop.example".
Proof.
  assert (Hok : @UnicodeTableOk ascii_unicode) by (split; intros r Hr; left; exact Hr).
  destruct (@ReferrerHost_private ascii_unicode {| netip_is_IPv6 := fun _ => false; net_ParseIP := fun _ => false |} Hok
    "https://bob@Shop.example:8443/a?b#c") as [_ <-]. vm_compute. reflexivity.
Defined.
