(* ===== verification/Public.v ===== *)
(** * The public routes ([internal/httpapi/public])

    [GET /r/{code}] and [GET /i/{file}].  A handler is an [Act] over the code service's
    world that returns the response it writes; the redirect also returns the
    events it hands to the recorder.  A scan goes to the current destination of
    an active code and otherwise to one response that does not depend on the
    code; an image is served byte for byte as it was stored, under keys of
    codes only. *)
From Stdlib Require Import Ascii String.
From S2P Require Import GoLib Http Act Domain GoUrl Shortcode Blob Rollup MemStore Concrete MemStoreFacts Store Cache Codes BlobKeys CreateFacts ResolveFacts CodesProps Visitor.
Local Open Scope string_scope.
Local Open Scope Z_scope.

(** ** [redirect.go] *)
Definition NoStore : string := "no-store, no-cache, must-revalidate".

Definition setNoStore (h : gmap string string) : gmap string string :=
  <["Expires" := "0"]> (<["Pragma" := "no-cache"]> (<["Cache-Control" := NoStore]> h)).

(** The template has no actions; apostrophes stand for the double quotes of
    the source, which has no apostrophe. *)
Definition dq (s : string) : string :=
  string_map (fun c => if Ascii.eqb c "'" then "034"%char else c) s.
Definition nl : string := String "010" "".
Definition lines (l : list string) : string := String.concat nl l +:+ nl.
Definition landingTmpl : string := dq (lines [
  "<!doctype html>";
  "<html lang='en'>";
  "<head>";
  "<meta charset='utf-8'>";
  "<meta name='viewport' content='width=device-width, initial-scale=1'>";
  "<meta name='robots' content='noindex'>";
  "<title>This code is not available</title>";
  "<style>";
  "  body { margin: 0; font-family: system-ui, -apple-system, 'Segoe UI', Roboto, sans-serif; background: #f6f7f9; color: #1f2937; }";
  "  main { max-width: 32rem; margin: 15vh auto; padding: 2rem; background: #fff; border-radius: 12px; box-shadow: 0 1px 3px rgba(0,0,0,.08); }";
  "  h1 { font-size: 1.4rem; margin: 0 0 .75rem; }";
  "  p { margin: 0; line-height: 1.5; color: #4b5563; }";
  "</style>";
  "</head>";
  "<body>";
  "<main>";
  "  <h1>This code is not available</h1>";
  "  <p>The QR code you scanned does not lead anywhere right now. It may have been retired, paused, or printed with a code that was never registered. If you expected something here, please contact whoever gave you the code.</p>";
  "</main>";
  "</body>";
  "</html>"]).

(** [PublicHandler], less the shared state. *)
Record PublicHandler := {
  h_fallback : string;
  h_classify : string -> Classification;
  h_noImages : bool;
}.

(** [defaultClassify] and the function [main.go] passes. *)
Definition defaultClassify (_ : string) : Classification :=
  {| c_UAFamily := ""; c_DeviceCategory := DeviceUnknown; c_IsBot := false |}.
Definition NewPublicHandler (fallback : string) (classify : option (string -> Classification)) (imagesDisabled : bool)
    : PublicHandler := {|
  h_fallback := TrimSpace fallback;
  h_classify := default defaultClassify classify;
  h_noImages := imagesDisabled |}.

Section public.
Context `{U : UnicodeTable} `{IP : IPParser}.
Context {DB BL CA : Type} `{ST : CodeStore DB} `{BS : BlobStore BL} `{OC : OtterCache CA}.
Notation W := (World DB BL CA).
Context (sc : Sched W) (h : PublicHandler).

Definition landing : Response :=
  let hd := setNoStore ∅ in
  if negb (String.eqb (h_fallback h) "") then
    {| rs_Status := 302; rs_Header := <["Location" := h_fallback h]> hd; rs_Body := NoBody |}
  else
    {| rs_Status := 200;
       rs_Header := <["X-Content-Type-Options" := "nosniff"]> (<["Content-Type" := "text/html; charset=utf-8"]> hd);
       rs_Body := Raw (bytes landingTmpl) |}.

(** [record]: the event. *)
Definition record_event (now : Z) (userAgent referer codeID : string) : ScanEvent :=
  let c := h_classify h userAgent in
  {| ev_CodeID := codeID; OccurredAt := now; UAFamily := c_UAFamily c; ev_DeviceCategory := c_DeviceCategory c;
     Domain.ReferrerHost := referrerHost referer; Domain.IsBot := c_IsBot c |}.

Definition redirect (code userAgent referer : string) : Act W (Response * list ScanEvent) :=
  res ← Resolve sc code;
  match res with
  | Err _ => mret (landing, [])
  | Ok r =>
      evs ← (if r_Found r && negb (String.eqb (r_State r) CodeDeleted)
             then now ← ask_env sc time_Now; mret [record_event now userAgent referer (r_CodeID r)]
             else mret []);
      if r_Found r && String.eqb (r_State r) CodeActive
      then mret ({| rs_Status := 302; rs_Header := <["Location" := r_Destination r]> (setNoStore ∅);
                    rs_Body := NoBody |}, evs)
      else mret (landing, evs)
  end.

(** ** [image.go] *)
Definition ImageCacheControl : string := "public, max-age=31536000, immutable".

(** [fileRe]: the identifier of [<code id>.png]. *)
Definition file_id (file : string) : option string :=
  let id := take_bytes 20 file in
  if HasPrefix id "cod_" && (len id =? 20) && string_forall Shortcode.generated_char (drop_bytes 4 id)
     && String.eqb (drop_bytes 20 file) ".png"
  then Some id else None.

Definition etag_candidate (etag cand : string) : bool :=
  let cand := TrimSpace cand in
  String.eqb cand "*" || String.eqb (TrimPrefix cand "W/") etag.
Definition etagMatches (header etag : string) : bool :=
  if String.eqb header "" then false else existsb (etag_candidate etag) (SplitByte header ",").

Definition no_image (hd : gmap string string) : Response := WriteError CodeNotFound "No such image." [] hd.
Definition quoted (s : string) : string := String "034" (s +:+ String "034" "").

Definition image (file ifNoneMatch : string) : Act W Response :=
  if h_noImages h then mret (no_image ∅)
  else match file_id file with
  | None => mret (no_image ∅)
  | Some id =>
      let key := BlobKeyFor id in
      st ← look sc (fun env w => blob_Stat env key (w_blob w));
      match st with
      | Err e =>
          mret (if errors_Is e ErrBlobNotFound || errors_Is e ErrInvalidKey then no_image ∅ else Internal ∅)
      | Ok info =>
          let etag := quoted (bi_ETag info) in
          let hd := <["X-Content-Type-Options" := "nosniff"]>
                      (<["Cache-Control" := ImageCacheControl]> (<["Etag" := etag]> ∅)) in
          if etagMatches ifNoneMatch etag then
            mret {| rs_Status := 304; rs_Header := hd; rs_Body := NoBody |}
          else
            got ← look sc (fun env w => blob_Get env key (w_blob w));
            match got with
            | Err e => mret (if errors_Is e ErrBlobNotFound then no_image hd else Internal hd)
            | Ok (data, info) =>
                let ct := if String.eqb (bi_ContentType info) "" then "image/png" else bi_ContentType info in
                let hd := <["Content-Type" := ct]> hd in
                let hd := if 0 <=? bi_Size info then <["Content-Length" := Itoa (bi_Size info)]> hd else hd in
                mret {| rs_Status := 200; rs_Header := hd; rs_Body := Raw data |}
            end
      end
  end.
End public.

Lemma take_drop_bytes n s : take_bytes n s +:+ drop_bytes n s = s.
Proof. revert s. induction n as [|n IH]; intros [|c s]; try done. cbn [take_bytes drop_bytes]. by rewrite append_cons, IH. Qed.

Lemma HasPrefix_inv s p : HasPrefix s p = true -> s = p +:+ drop_bytes (String.length p) s.
Proof.
  revert s. induction p as [|c p IH]; intros s; [done|]. destruct s as [|d s]; [done|].
  cbn [HasPrefix String.length drop_bytes]. destruct (Ascii.eqb_spec c d) as [->|]; [|done].
  intros H%IH. rewrite append_cons. by f_equal.
Qed.

Lemma generated_crockford c : generated_char c = true -> is_crockford c = true.
Proof.
  intros H. assert (Hall : forall d, implb (generated_char d) (is_crockford d) = true)
    by (apply byte_cases; vm_compute; reflexivity).
  specialize (Hall c). by rewrite H in Hall.
Qed.

(** The file names the route accepts are those of the codes' images. *)
Lemma file_id_code file id : file_id file = Some id -> file = id +:+ ".png" /\ code_id id.
Proof.
  unfold file_id. set (t := take_bytes 20 file). destruct (_ && _ && _ && _) eqn:E; [|done]. intros [= <-].
  apply andb_prop in E as [[[Hp Hl]%andb_prop Hc]%andb_prop He]. apply String.eqb_eq in He. apply Z.eqb_eq in Hl. split.
  - rewrite <- He. symmetry. apply (take_drop_bytes 20).
  - exists (drop_bytes 4 t). split_and!.
    + by apply (HasPrefix_inv _ "cod_").
    + rewrite drop_bytes_length. unfold len in Hl. lia.
    + exact (string_forall_impl _ _ _ generated_crockford Hc).
Qed.

Section properties.
Context `{U : UnicodeTable} `{IP : IPParser}.
Context {DB BL CA : Type} `{ST : CodeStore DB} `{SL : !CodeStoreLaws DB}
  `{BS : BlobStore BL} `{BLaws : !BlobLaws BL} `{OC : OtterCache CA} `{OL : !OtterLaws CA}.
Notation W := (World DB BL CA).

(** C23: the scan path.  Without interference, and from a state in which the
    resolve cache agrees with the store (a scan leaves it so), a scan of a
    (trimmed) short code answers with an uncacheable 302 to the code's current destination
    if the code is active, and otherwise, be it unknown, disabled or
    deleted, or the store unavailable, with the one landing response, which
    does not depend on the code; a scan of a known code that is not deleted
    hands exactly one event to the recorder, any other none. *)
Theorem redirect_spec (sc : Sched W) (h : PublicHandler) (w : W) (code userAgent referer : string) (n : nat) :
  quiet sc -> coherent w -> TrimSpace code = code ->
  exists resp evs n' w', redirect sc h code userAgent referer (n, w) = ((resp, evs), (n', w'))
    /\ coherent w' /\ w_store w' = w_store w
    /\ let r := current w code in
       let active := r_Found r && String.eqb (r_State r) CodeActive in
       (is_Ok (Resolve sc code (n, w)).1 = false /\ resp = landing h /\ evs = [])
       \/ ((active = true -> rs_Status resp = 302 /\ rs_Header resp !! "Location" = Some (r_Destination r)
                             /\ rs_Header resp !! "Cache-Control" = Some NoStore)
           /\ (active = false -> resp = landing h)
           /\ if r_Found r && negb (String.eqb (r_State r) CodeDeleted)
              then exists now, evs = [record_event h now userAgent referer (r_CodeID r)]
              else evs = []).
Proof.
  intros Q Hco Ht. pose proof (Resolve_coherent sc Q code n w Hco Ht) as HR.
  unfold redirect. rewrite bind_step. destruct (Resolve sc code (n, w)) as [[r|e] [n1 w1]].
  - destruct HR as (Hco' & Hs & Hcur). rewrite (Hcur r eq_refl). cbn zeta.
    set (c := current w code). rewrite bind_step.
    destruct (r_Found c && negb (String.eqb (r_State c) CodeDeleted)) eqn:Hk.
    + rewrite bind_step. unfold ask_env, look. rewrite call_quiet by done.
      destruct (r_Found c && String.eqb (r_State c) CodeActive) eqn:Ha; eexists _, _, _, _; (split; [reflexivity|]);
        (split; [done|]); (split; [done|]); right; (split; [|split; [|eauto]]); try done.
    + destruct (r_Found c && String.eqb (r_State c) CodeActive) eqn:Ha; eexists _, _, _, _; (split; [reflexivity|]);
        (split; [done|]); (split; [done|]); right; (split; [|split; [|done]]); try done.
  - destruct HR as (Hco' & Hs & _). exists (landing h), [], n1, w1. split; [done|]. split; [done|]. split; [done|].
    by left.
Qed.

(** The image route.  It never writes; it answers 404 for every name that
    is not a code's image and, when the instance is out of the image path,
    for every name; a 200 carries, with their length, exactly the bytes the
    blob store holds under the code's key, and is sent only when the
    client's validators do not match; a 304 only when they do. *)
Theorem image_spec (sc : Sched W) (h : PublicHandler) (w : W) (file ifNoneMatch : string) (n : nat) :
  quiet sc ->
  exists resp n', image sc h file ifNoneMatch (n, w) = (resp, (n', w))
    /\ (h_noImages h = true \/ file_id file = None -> rs_Status resp = 404)
    /\ (rs_Status resp = 200 -> exists id d ct etag, file = id +:+ ".png" /\ code_id id
          /\ objects (w_blob w) !! BlobKeyFor id = Some (d, ct) /\ rs_Body resp = Raw d
          /\ rs_Header resp !! "Content-Length" = Some (Itoa (Z.of_nat (length d)))
          /\ rs_Header resp !! "Etag" = Some etag /\ etagMatches ifNoneMatch etag = false)
    /\ (rs_Status resp = 304 -> exists etag, rs_Header resp !! "Etag" = Some etag
          /\ etagMatches ifNoneMatch etag = true /\ rs_Body resp = NoBody).
Proof.
  intros Q. unfold image. destruct (h_noImages h); [eexists _, _; by split_and!|].
  destruct (file_id file) as [id|] eqn:Hf; [|eexists _, _; by split_and!].
  destruct (file_id_code _ _ Hf) as [Hfile Hid].
  assert (Hno : true = false \/ Some id = None -> False) by (by intros []).
  rewrite bind_step. unfold look. rewrite call_quiet by done. cbn beta iota.
  destruct (blob_Stat _ (BlobKeyFor id) (w_blob w)) as [info|e].
  2: { eexists _, _. split; [reflexivity|]. destruct (_ || _); simpl; by split_and!; [intros []| |]. }
  destruct (etagMatches ifNoneMatch (quoted (bi_ETag info))) eqn:Em.
  { eexists _, _. split; [reflexivity|]. split_and!; [by intros []|done|]. intros _. eexists. by split_and!. }
  rewrite bind_step. rewrite call_quiet by done. cbn beta iota.
  destruct (blob_Get _ (BlobKeyFor id) (w_blob w)) as [[d info2]|e] eqn:Eg.
  2: { eexists _, _. split; [reflexivity|]. destruct (errors_Is e ErrBlobNotFound); simpl; by split_and!; [intros []| |]. }
  apply blob_Get_Ok in Eg as (Hobj & Hsize & _).
  eexists _, _. split; [reflexivity|]. split_and!; [by intros []| |done]. intros _.
  exists id, d, (bi_ContentType info2), (quoted (bi_ETag info)). cbn zeta. rewrite Hsize.
  destruct (Z.leb_spec 0 (Z.of_nat (length d))); [|lia]. by split_and!.
Qed.
End properties.

(** ** Witnesses *)
Definition demo_public : PublicHandler := NewPublicHandler "" None false.

Lemma redirect_spec_witness :
  exists resp evs st, redirect demo_sched demo_public "spring" "Mozilla" "https://a@b.example/p" (9%nat, demo_world) = ((resp, evs), st)
    /\ rs_Status resp = 302 /\ rs_Header resp !! "Location" = Some "https://example.com/a"
    /\ map Domain.ReferrerHost evs = ["b.example"].
Proof.
  destruct (redirect_spec demo_sched demo_public demo_world "spring" "Mozilla" "https://a@b.example/p" 9
    demo_quiet demo_coherent ltac:(vm_compute; reflexivity)) as (resp & evs & n' & w' & E & _ & _ & H).
  exists resp, evs, (n', w'). split; [exact E|].
  assert (Hev : (map Domain.ReferrerHost (redirect demo_sched demo_public "spring" "Mozilla" "https://a@b.example/p" (9%nat, demo_world)).1.2)
                = ["b.example"]) by (vm_compute; reflexivity).
  rewrite E in Hev.
  destruct H as [(Hno & _)|(Ha & _)].
  - exfalso. assert (F : is_Ok (Resolve demo_sched "spring" (9%nat, demo_world)).1 = true) by (vm_compute; reflexivity).
    rewrite F in Hno. discriminate Hno.
  - destruct (Ha ltac:(vm_compute; reflexivity)) as (H1 & H2 & _). split; [exact H1|]. split; [|exact Hev].
    rewrite H2. vm_compute. reflexivity.
Defined.

Lemma image_spec_witness :
  exists resp n', image demo_sched demo_public (demo_id +:+ ".png") "" (9%nat, demo_world) = (resp, (n', demo_world))
    /\ rs_Status resp = 200 /\ exists d, rs_Body resp = Raw d.
Proof.
  destruct (image_spec demo_sched demo_public demo_world (demo_id +:+ ".png") "" 9 demo_quiet)
    as (resp & n' & E & _ & H200 & _).
  exists resp, n'. split; [exact E|].
  assert (Hs : rs_Status (image demo_sched demo_public (demo_id +:+ ".png") "" (9%nat, demo_world)).1 = 200)
    by (vm_compute; reflexivity).
  rewrite E in Hs. split; [exact Hs|]. destruct (H200 Hs) as (id & d & ct & etag & _ & _ & _ & Hb & _). exists d. exact Hb.
Defined.
