(* ===== verification/Qr.v ===== *)
(** * The QR engine ([internal/qr])

    Validation of a render request, the encoded symbol, its geometry (the
    shapes both output formats draw) and the place of a logo.  The symbol
    encoder is [piglig/go-qr] and the image codecs are the platform's; both
    are parameters, as is [math.Pow]. *)
From Stdlib Require Import Ascii String.
From S2P Require Import GoLib GoUrl Domain QrPolicy.
Local Open Scope string_scope.
Local Open Scope Z_scope.

(** ** [encode.go] *)

(** [goqr.MakeBytes], and [goqr.EncodeSegments] on that one segment, version 1
    to 40, automatic mask, no boost: the side and the modules. *)
Inductive goqr_error := ErrDataTooLong | goqr_other (e : error).
Class QrEncoder := {
  goqr_MakeBytes : list ascii -> option error;
  goqr_EncodeSegments : list ascii -> ECLevel -> res goqr_error (Z * (Z -> Z -> bool));
}.

Record Symbol := { sym_size : Z; sym_version : Z; sym_level : ECLevel; sym_dark : list bool }.

Definition Module (s : Symbol) (x y : Z) : bool :=
  if (x <? 0) || (y <? 0) || (sym_size s <=? x) || (sym_size s <=? y) then false
  else default false (sym_dark s !! Z.to_nat (y * sym_size s + x)).

Definition grid (n : Z) (f : Z -> Z -> bool) : list bool :=
  y ← seqZ 0 n; x ← seqZ 0 n; [f x y].

Definition Encode `{QrEncoder} (content : list ascii) (ec : ECLevel) : result Symbol :=
  if levelRank ec <? 0 then Err (InvalidOptionError "ec_level" "unknown level")
  else match content with
  | [] => Err (InvalidOptionError "content" "must not be empty")
  | _ =>
      let limit := Capacity ec in
      let n := Z.of_nat (length content) in
      if limit <? n then Err (ContentTooLargeError limit n ec)
      else match goqr_MakeBytes content with
      | Some e => Err (Wrap "qr: make byte segment" e)
      | None =>
      match goqr_EncodeSegments content ec with
      | Err ErrDataTooLong => Err (ContentTooLargeError (Capacity ec) n ec)
      | Err (goqr_other e) => Err (Wrap "qr: encode" e)
      | Ok (size, f) => Ok {| sym_size := size; sym_version := Z.quot (size - 17) 4; sym_level := ec; sym_dark := grid size f |}
      end end
  end.

(** ** [shape.go] *)
Definition cornerTL : Z := 1.
Definition cornerTR : Z := 2.
Definition cornerBR : Z := 4.
Definition cornerBL : Z := 8.

Record Run := { run_X : Z; run_Y : Z; run_W : Z; Corners : Z }.
Record Dot := { dot_X : Z; dot_Y : Z }.

(** [image.Rectangle]: half open on both axes. *)
Record Rectangle := { MinX : Z; MinY : Z; MaxX : Z; MaxY : Z }.
Definition rect_In (x y : Z) (r : Rectangle) : bool :=
  (MinX r <=? x) && (x <? MaxX r) && (MinY r <=? y) && (y <? MaxY r).
Definition rect_Add (d : Z) (r : Rectangle) : Rectangle :=
  {| MinX := MinX r + d; MinY := MinY r + d; MaxX := MaxX r + d; MaxY := MaxY r + d |}.

Record Geometry := { Total : Z; Runs : list Run; Dots : list Dot; Hole : option Rectangle }.

Section geometry.
Context (sym : Symbol) (shape : ModuleShape) (margin : Z) (hole : option Rectangle).
Notation n := (sym_size sym).

Definition dark (x y : Z) : bool :=
  if match hole with Some h => rect_In x y h | None => false end then false else Module sym x y.
Definition inFinder (x y : Z) : bool :=
  ((x <? 7) && (y <? 7)) || ((n - 7 <=? x) && (y <? 7)) || ((x <? 7) && (n - 7 <=? y)).

(** The inner loop: the width of the run that starts at [x], at least [w]. *)
Fixpoint extend (fuel : nat) (x y w : Z) : Z :=
  match fuel with
  | O => w
  | S k =>
      if (x + w <? n) && dark (x + w) y
         && (String.eqb shape ShapeSquare || Bool.eqb (inFinder (x + w) y) (inFinder x y))
      then extend k x y (w + 1) else w
  end.

Definition corners (x y w : Z) : Z :=
  if String.eqb shape ShapeRounded && negb (inFinder x y) then
    let c := 0 in
    let c := if negb (dark x (y - 1)) then Z.lor c cornerTL else c in
    let c := if negb (dark (x + w - 1) (y - 1)) then Z.lor c cornerTR else c in
    let c := if negb (dark (x + w - 1) (y + 1)) then Z.lor c cornerBR else c in
    if negb (dark x (y + 1)) then Z.lor c cornerBL else c
  else 0.

(** One row from column [x] on. *)
Fixpoint row_from (fuel : nat) (x y : Z) : list Run * list Dot :=
  match fuel with
  | O => ([], [])
  | S k =>
      if n <=? x then ([], [])
      else if negb (dark x y) then row_from k (x + 1) y
      else if String.eqb shape ShapeDot && negb (inFinder x y) then
        let '(rs, ds) := row_from k (x + 1) y in
        (rs, {| dot_X := x + margin; dot_Y := y + margin |} :: ds)
      else
        let w := extend (Z.to_nat n) x y 1 in
        let '(rs, ds) := row_from k (x + w) y in
        ({| run_X := x + margin; run_Y := y + margin; run_W := w; Corners := corners x y w |} :: rs, ds)
  end.

Definition computeGeometry : Geometry :=
  let rows := (fun y => row_from (Z.to_nat n) 0 y) <$> seqZ 0 n in
  {| Total := n + 2 * margin;
     Runs := concat (fst <$> rows);
     Dots := concat (snd <$> rows);
     Hole := rect_Add margin <$> hole |}.
End geometry.

Definition in_run (x y : Z) (r : Run) : bool := (run_Y r =? y) && (run_X r <=? x) && (x <? run_X r + run_W r).
Definition hasSquareAt (g : Geometry) (x y : Z) : bool := existsb (fun r => (Corners r =? 0) && in_run x y r) (Runs g).

(** ** [logo.go] *)
Definition rawDataModules (v : Z) : Z :=
  let result := (16 * v + 128) * v + 64 in
  if 2 <=? v then
    let numAlign := Z.quot v 7 + 2 in
    let result := result - ((25 * numAlign - 10) * numAlign - 55) in
    if 7 <=? v then result - 36 else result
  else result.

(** [int(math.Floor(math.Sqrt(x)))]: 0 where the conversion is out of range,
    which no scale reaches. *)
Definition f64_sqrt (a : float64) : float64 := SFsqrt 53 1024 a.
Definition f64_floor_Z (a : float64) : Z :=
  match a with
  | S754_finite s m e => let v := (if s then Zneg m else Zpos m) in if 0 <=? e then v * 2 ^ e else v / 2 ^ (- e)
  | _ => 0
  end.

Definition logo_side (n raw : Z) : Z :=
  let side := if Z.even raw then raw - 1 else raw in
  let side := if side <? 3 then 3 else side in
  if n - 16 <? side then (if Z.even (n - 16) then n - 16 - 1 else n - 16) else side.

Definition logoHole (n : Z) (scale : float64) : Rectangle :=
  let raw := f64_floor_Z (f64_sqrt (f64_mul scale (f64_of_Z (rawDataModules (Z.quot (n - 17) 4))))) in
  let side := logo_side n raw in
  let start := Z.quot (n - side) 2 in
  {| MinX := start; MinY := start; MaxX := start + side; MaxY := start + side |}.

(** The platform's decoders: [image.DecodeConfig] and [png.Decode] or
    [jpeg.Decode]. *)
Class ImageCodecs := {
  Image : Type;
  image_DecodeConfig : list ascii -> option (string * Z * Z);   (* format, width, height *)
  image_Decode : string -> list ascii -> option Image;
}.

Record decodedLogo `{ImageCodecs} := { dl_img : Image; dl_raw : list ascii; dl_mime : string }.

Definition decodeLogo `{ImageCodecs} (data : list ascii) : result decodedLogo :=
  let bad reason := Err (InvalidOptionError "logo" reason) in
  match data with
  | [] => bad "image is empty"
  | _ =>
      if MaxLogoBytes <? Z.of_nat (length data) then bad "image exceeds 2097152 bytes"
      else match image_DecodeConfig data with
      | None => bad "image is not a valid PNG or JPEG"
      | Some (format, w, h) =>
          let mime := if String.eqb format "png" then Some "image/png"
                      else if String.eqb format "jpeg" then Some "image/jpeg" else None in
          match mime with
          | None => bad "image must be PNG or JPEG"
          | Some mime =>
              if (w <=? 0) || (h <=? 0) || (MaxLogoPixels <? w) || (MaxLogoPixels <? h)
              then bad "image must be at most 2048x2048 pixels"
              else match image_Decode mime data with
              | None => bad "image could not be decoded"
              | Some img => Ok {| dl_img := img; dl_raw := data; dl_mime := mime |}
              end
          end
      end
  end.

(** ** Colours and contrast ([render.go], [policy.go]) *)
Record NRGBA := { col_R : Z; col_G : Z; col_B : Z }.

Definition hexNibble (c : ascii) : option Z :=
  if is_digit c then Some (code c - 48)
  else if (97 <=? code c) && (code c <=? 102) then Some (code c - 97 + 10)
  else if (65 <=? code c) && (code c <=? 70) then Some (code c - 65 + 10)
  else None.

Definition hexByte (hi lo : ascii) : option Z :=
  match hexNibble hi, hexNibble lo with
  | Some h, Some l => Some (Z.lor (Z.shiftl h 4) l)
  | _, _ => None
  end.

Definition ParseHexColor (s : string) : option NRGBA :=
  match bytes s with
  | [hash; r1; r0; g1; g0; b1; b0] =>
      if negb (Ascii.eqb hash "#") then None
      else match hexByte r1 r0, hexByte g1 g0, hexByte b1 b0 with
      | Some r, Some g, Some b => Some {| col_R := r; col_G := g; col_B := b |}
      | _, _, _ => None
      end
  | _ => None
  end.

Definition lower_hex (z : Z) : ascii := byte_of (if z <? 10 then 48 + z else 87 + z).
Definition hex2 (z : Z) : list ascii := [lower_hex (z / 16); lower_hex (z mod 16)].
Definition hexString (c : NRGBA) : string :=
  String "#" (of_bytes (hex2 (col_R c) ++ hex2 (col_G c) ++ hex2 (col_B c))).

Class FloatMath := { math_Pow : float64 -> float64 -> float64 }.
Definition f64_add (a b : float64) : float64 := SFadd 53 1024 a b.

(** [math.Round] of a value below 2^53. *)
Definition f64_round (a : float64) : float64 :=
  match a with
  | S754_finite s m e =>
      if 0 <=? e then a
      else
        let v := (2 * Zpos m + 2 ^ (- e)) / 2 ^ (1 - e) in
        if v =? 0 then S754_zero s else f64_of_Z (if s then - v else v)
  | _ => a
  end.

Definition ContrastFloor : float64 := f64_of_Z 3.
Definition DefaultMinContrast : float64 := f64_lit 45 10.

Section contrast.
Context `{FM : FloatMath}.

Definition linear (v : Z) : float64 :=
  let s := f64_div (f64_of_Z v) (f64_of_Z 255) in
  if f64_leb s (f64_lit 4045 100000) then f64_div s (f64_lit 1292 100)
  else math_Pow (f64_div (f64_add s (f64_lit 55 1000)) (f64_lit 1055 1000)) (f64_lit 24 10).

Definition relativeLuminance (c : NRGBA) : float64 :=
  f64_add (f64_add (f64_mul (f64_lit 2126 10000) (linear (col_R c))) (f64_mul (f64_lit 7152 10000) (linear (col_G c))))
    (f64_mul (f64_lit 722 10000) (linear (col_B c))).

Definition ContrastRatio (a b : NRGBA) : float64 :=
  let la := relativeLuminance a in
  let lb := relativeLuminance b in
  let '(la, lb) := if f64_ltb la lb then (lb, la) else (la, lb) in
  f64_div (f64_add la (f64_lit 5 100)) (f64_add lb (f64_lit 5 100)).

Definition checkContrast (fg bg : NRGBA) (minimum : float64) : option error :=
  let ratio := ContrastRatio fg bg in
  if f64_ltb ratio minimum
  then Some (ContrastTooLowError (f64_div (f64_round (f64_mul ratio (f64_of_Z 100))) (f64_of_Z 100)) minimum)
  else None.
End contrast.

(** ** The render request ([render.go]) *)
Notation Format := string (only parsing).
Definition FormatPNG : Format := "png".
Definition FormatSVG : Format := "svg".
Definition ContentType (f : Format) : string := if String.eqb f FormatSVG then "image/svg+xml" else "image/png".

Record Logo := { logo_Image : list ascii; logo_Scale : float64; AutoRaise : bool }.

Record Options := {
  o_Content : list ascii;
  o_Format : Format;
  o_FgColor : string;
  o_BgColor : string;
  o_Shape : ModuleShape;
  o_Margin : Z;
  o_SizePx : Z;
  o_ECLevel : ECLevel;
  o_Logo : option Logo;
}.

Definition or_default (s d : string) : string := if String.eqb s "" then d else s.

Definition with_defaults (o : Options) : Options := {|
  o_Content := o_Content o;
  o_Format := or_default (o_Format o) FormatPNG;
  o_FgColor := or_default (o_FgColor o) "#000000";
  o_BgColor := or_default (o_BgColor o) "#FFFFFF";
  o_Shape := or_default (o_Shape o) ShapeSquare;
  o_Margin := o_Margin o;
  o_SizePx := if o_SizePx o =? 0 then 512 else o_SizePx o;
  o_ECLevel := or_default (o_ECLevel o) ECMedium;
  o_Logo := o_Logo o |}.

(** [Options.normalise]: the defaults first, since no check looks at a field
    before its default is set. *)
Definition normalise (o : Options) : result (Options * NRGBA * NRGBA) :=
  let o := with_defaults o in
  let bad field reason := Err (InvalidOptionError field reason) in
  if negb (bool_decide (o_Format o ∈ [FormatPNG; FormatSVG])) then bad "format" "unsupported format"
  else match ParseHexColor (o_FgColor o) with
  | None => bad "fg_color" "not of the form #RRGGBB"
  | Some fg =>
  match ParseHexColor (o_BgColor o) with
  | None => bad "bg_color" "not of the form #RRGGBB"
  | Some bg =>
      if negb (bool_decide (o_Shape o ∈ [ShapeSquare; ShapeDot; ShapeRounded])) then bad "module_shape" "unknown shape"
      else if (o_Margin o <? 0) || (64 <? o_Margin o) then bad "margin_modules" "must be between 0 and 64"
      else if o_SizePx o <? 1 then bad "size_px" "must be positive"
      else if levelRank (o_ECLevel o) <? 0 then bad "ec_level" "unknown level"
      else if match o_Logo o with
              | Some l => f64_leb (logo_Scale l) f64_zero || f64_ltb MaxLogoScale (logo_Scale l)
              | None => false end
      then bad "logo.scale" "must be between 0.01 and 0.25"
      else Ok (o, fg, bg)
  end end.

Record QrRenderer := { rr_bounds : Bounds; rr_minContrast : float64 }.

(** [NewRenderer], with the option [WithMinContrast] when there is one. *)
Definition WithMinContrast (ratio : float64) (r : QrRenderer) : QrRenderer :=
  {| rr_bounds := rr_bounds r; rr_minContrast := if f64_ltb ratio ContrastFloor then ContrastFloor else ratio |}.
Definition NewRenderer (b : Bounds) (opts : list (QrRenderer -> QrRenderer)) : QrRenderer :=
  foldl (fun r o => o r) {| rr_bounds := normalised b; rr_minContrast := DefaultMinContrast |} opts.

Section prepare.
Context `{QE : QrEncoder} `{IC : ImageCodecs} `{FM : FloatMath}.

Record Prepared := {
  p_opts : Options;
  p_fg : NRGBA;
  p_bg : NRGBA;
  p_sym : Symbol;
  p_geo : Geometry;
  p_dlogo : option decodedLogo;
  p_effective : ECLevel;
}.

(** The level and the decoded image of the logo, if any. *)
Definition prepare_logo (o : Options) : result (ECLevel * option decodedLogo) :=
  match o_Logo o with
  | None => Ok (o_ECLevel o, None)
  | Some l =>
      match resolveLogoLevel (o_ECLevel o) (logo_Scale l) (AutoRaise l) with
      | Err e => Err e
      | Ok effective =>
          match decodeLogo (logo_Image l) with
          | Err e => Err e
          | Ok d => Ok (effective, Some d)
          end
      end
  end.

(** [Prepare]; [env1] and [env2] are the two moments the context is polled. *)
Definition Prepare (r : QrRenderer) (env1 env2 : Env) (opts : Options) : result Prepared :=
  match normalise opts with
  | Err e => Err e
  | Ok (o, fg, bg) =>
      match checkSize (rr_bounds r) (o_SizePx o) with
      | Some e => Err e
      | None =>
      match checkContrast fg bg (rr_minContrast r) with
      | Some e => Err e
      | None =>
      match prepare_logo o with
      | Err e => Err e
      | Ok (effective, logo) =>
      match checkPayload (rr_bounds r) (Z.of_nat (length (o_Content o))) effective with
      | Some e => Err e
      | None =>
      match ctx_Err env1 with
      | Some e => Err (Sentinel (SContext e))
      | None =>
      match Encode (o_Content o) effective with
      | Err e => Err e
      | Ok sym =>
          let hole := match logo, o_Logo o with
                      | Some _, Some l => Some (logoHole (sym_size sym) (logo_Scale l))
                      | _, _ => None
                      end in
          match ctx_Err env2 with
          | Some e => Err (Sentinel (SContext e))
          | None =>
              Ok {| p_opts := o; p_fg := fg; p_bg := bg; p_sym := sym;
                    p_geo := computeGeometry sym (o_Shape o) (o_Margin o) hole;
                    p_dlogo := logo; p_effective := effective |}
          end
      end end end end end end
  end.
End prepare.
