(* ===== verification/QrFacts.v ===== *)
(** * Properties of the QR engine

    The geometry both output formats draw covers each dark module exactly once
    and nothing else, keeps the finder patterns square, and leaves the logo's
    place clear of them; a prepared render respects every bound. *)
From Stdlib Require Import Ascii String.
From S2P Require Import GoLib GoUrl Domain QrPolicy Qr Concrete.
Local Open Scope string_scope.
Local Open Scope Z_scope.

(** How many shapes of a geometry cover a module. *)
Definition count_true {A} (f : A -> bool) (l : list A) : Z := sumZ (fun x => if f x then 1 else 0) l.
Definition in_dot (x y : Z) (d : Dot) : bool := (dot_X d =? x) && (dot_Y d =? y).
Definition cover (g : Geometry) (x y : Z) : Z := count_true (in_run x y) (Runs g) + count_true (in_dot x y) (Dots g).
Definition b2z (b : bool) : Z := if b then 1 else 0.

Section geometry.
Context (sym : Symbol) (shape : ModuleShape) (margin : Z) (hole : option Rectangle).
Notation n := (sym_size sym).
Notation dark := (dark sym hole).
Notation inFinder := (inFinder sym).
Notation extend := (extend sym shape hole).
Notation row_from := (row_from sym shape margin hole).

(** The run from [x] is dark all along, stays in the symbol and on one side
    of the finder boundary. *)
Lemma extend_spec fuel x y w :
  1 <= w -> x + w <= n -> (forall i, 0 <= i < w -> dark (x + i) y = true) ->
  let w' := extend fuel x y w in
  w <= w' /\ x + w' <= n /\ (forall i, 0 <= i < w' -> dark (x + i) y = true)
  /\ (shape <> ShapeSquare -> (forall i, 0 <= i < w -> inFinder (x + i) y = inFinder x y) ->
      forall i, 0 <= i < w' -> inFinder (x + i) y = inFinder x y).
Proof.
  revert w. induction fuel as [|k IH]; intros w Hw Hn Hd; cbn [Qr.extend]; [by split_and!; [lia|..]|].
  destruct ((x + w <? n) && dark (x + w) y
    && (String.eqb shape ShapeSquare || Bool.eqb (inFinder (x + w) y) (inFinder x y))) eqn:E;
    [|by split_and!; [lia|..]].
  apply andb_prop in E as [[Hlt Hdk]%andb_prop Hf]. apply Z.ltb_lt in Hlt.
  destruct (IH (w + 1)) as (H1 & H2 & H3 & H4); [lia|lia| |].
  - intros i Hi. destruct (decide (i = w)) as [->|]; [done|]. apply Hd. lia.
  - split_and!; [lia|done|done|]. intros Hs Hin. apply H4; [done|]. intros i Hi.
    destruct (decide (i = w)) as [->|]; [|apply Hin; lia].
    apply orb_prop in Hf as [Hf|Hf]; [by apply String.eqb_eq in Hf|]. by apply Bool.eqb_prop in Hf.
Qed.

(** The module is one of the row's, from [x] on, and dark. *)
Definition row_dark (x y x' y' : Z) : Z := b2z ((y' =? y) && (x <=? x') && (x' <? n) && dark x' y).

Definition row_cover (p : list Run * list Dot) (x' y' : Z) : Z :=
  count_true (in_run (x' + margin) (y' + margin)) p.1 + count_true (in_dot (x' + margin) (y' + margin)) p.2.

Lemma row_from_cover fuel x y x' y' :
  0 <= x -> (Z.to_nat (n - x) <= fuel)%nat -> row_cover (row_from fuel x y) x' y' = row_dark x y x' y'.
Proof.
  revert x. induction fuel as [|k IH]; intros x Hx Hf.
  - unfold row_dark, row_cover. simpl. destruct (Z.leb_spec x x'), (Z.ltb_spec x' n); try lia;
      by rewrite ?andb_false_r.
  - cbn [Qr.row_from]. destruct (Z.leb_spec n x) as [Hnx|Hnx].
    { unfold row_dark, row_cover. simpl. destruct (Z.leb_spec x x'), (Z.ltb_spec x' n); try lia;
        by rewrite ?andb_false_r. }
    destruct (dark x y) eqn:Hd; cbn [negb].
    2: { rewrite IH by lia. unfold row_dark. destruct (Z.eqb_spec y' y) as [->|]; [|done].
         destruct (Z.leb_spec (x + 1) x'), (Z.leb_spec x x'); try lia; try done.
         assert (x' = x) as -> by lia. rewrite Hd. by rewrite !andb_false_r. }
    destruct (String.eqb shape ShapeDot && negb (inFinder x y)).
    + specialize (IH (x + 1) ltac:(lia) ltac:(lia)). destruct (row_from k (x + 1) y) as [rs ds].
      unfold row_cover, row_dark in *. cbn [fst snd count_true] in *. unfold count_true in *. cbn [sumZ].
      change (sumZ ?f (?a :: ?l)) with (f a + sumZ f l). unfold in_dot at 1. cbn [dot_X dot_Y].
      destruct (Z.eqb_spec (x + margin) (x' + margin)) as [Hxx|Hxx], (Z.eqb_spec (y + margin) (y' + margin)) as [Hyy|Hyy];
        destruct (Z.eqb_spec y' y); try lia; simpl in *;
        destruct (Z.leb_spec (x + 1) x'), (Z.leb_spec x x'); try lia; simpl in *; try lia.
      assert (x' = x) as -> by lia. rewrite Hd. destruct (Z.ltb_spec x n); [simpl in *; lia|lia].
    + destruct (extend_spec (Z.to_nat n) x y 1) as (H1 & H2 & H3 & _); [lia|lia| |].
      { intros i Hi. assert (i = 0) as -> by lia. by rewrite Z.add_0_r. }
      set (w := extend (Z.to_nat n) x y 1) in *.
      specialize (IH (x + w) ltac:(lia) ltac:(lia)). destruct (row_from k (x + w) y) as [rs ds].
      unfold row_cover, row_dark, count_true in *. cbn [fst snd] in *.
      change (sumZ ?f (?a :: ?l)) with (f a + sumZ f l). unfold in_run at 1. cbn [run_X run_Y run_W].
      destruct (Z.eqb_spec (y + margin) (y' + margin)) as [Hyy|Hyy]; destruct (Z.eqb_spec y' y); try lia; simpl in *; [|lia].
      destruct (Z.leb_spec (x + margin) (x' + margin)), (Z.ltb_spec (x' + margin) (x + margin + w));
        destruct (Z.leb_spec (x + w) x'), (Z.leb_spec x x'); try lia; simpl in *; try lia.
      specialize (H3 (x' - x) ltac:(lia)). replace (x + (x' - x)) with x' in H3 by lia. rewrite H3.
      destruct (Z.ltb_spec x' n); simpl in *; lia.
Qed.
End geometry.

Lemma sumZ_concat_fmap {A B} (f : B -> Z) (g : A -> list B) (l : list A) :
  sumZ f (concat (g <$> l)) = sumZ (fun a => sumZ f (g a)) l.
Proof. induction l as [|a l IH]; [done|]. rewrite fmap_cons. simpl concat. rewrite sumZ_app, IH. done. Qed.

(** A sum over the rows picks the one row meant. *)
Lemma sumZ_pick (v : Z -> Z) (y' : Z) (l : list Z) :
  NoDup l -> sumZ (fun y => if y' =? y then v y else 0) l = if bool_decide (y' ∈ l) then v y' else 0.
Proof.
  induction l as [|y l IH]; intros Hnd; [done|]. apply NoDup_cons in Hnd as [Hy Hnd].
  change (sumZ ?f (?a :: ?l)) with (f a + sumZ f l). cbn beta. rewrite IH by done.
  destruct (Z.eqb_spec y' y) as [->|Hne].
  - rewrite (bool_decide_eq_true_2 (y ∈ y :: l)) by (by left). rewrite bool_decide_eq_false_2 by done. lia.
  - case_bool_decide; case_bool_decide as H2; try done; exfalso; set_solver.
Qed.

Lemma sumZ_plus {A} (f g : A -> Z) l : sumZ f l + sumZ g l = sumZ (fun a => f a + g a) l.
Proof.
  induction l as [|a l IH]; [done|].
  change (f a + sumZ f l + (g a + sumZ g l) = f a + g a + sumZ (fun a => f a + g a) l). lia.
Qed.

(** The place of a logo on a symbol of side [n]: a centred odd square of at
    least three modules, clear of the finder patterns and their separators. *)
Lemma logo_side_spec n raw :
  21 <= n -> Z.odd n = true -> let s := logo_side n raw in 3 <= s <= n - 16 /\ Z.odd s = true.
Proof.
  intros Hn Ho. cbn zeta. unfold logo_side. set (a := if Z.even raw then raw - 1 else raw).
  set (b := if a <? 3 then 3 else a).
  assert (Ha : Z.odd a = true) by (unfold a; destruct (Z.even raw) eqn:E;
    [by rewrite Z.odd_sub, <- Z.negb_even, E|by rewrite <- Z.negb_even, E]).
  assert (Hb : 3 <= b /\ Z.odd b = true) by (unfold b; destruct (Z.ltb_spec a 3); [by split; [lia|]|by split; [lia|]]).
  assert (He : Z.even (n - 16) = false) by (rewrite Z.even_sub, <- Z.negb_odd, Ho; done). rewrite He.
  destruct (Z.ltb_spec (n - 16) b); [|by split; [lia|apply Hb]].
  split; [lia|]. by rewrite <- Z.negb_even, He.
Qed.

Section properties.
Context (sym : Symbol) (shape : ModuleShape) (margin : Z).
Notation n := (sym_size sym).

Lemma dark_range hole x y : dark sym hole x y = true -> 0 <= x < n /\ 0 <= y < n.
Proof.
  unfold dark, Module. destruct (match hole with Some h => rect_In x y h | None => false end); [done|].
  destruct (Z.ltb_spec x 0), (Z.ltb_spec y 0), (Z.leb_spec n x), (Z.leb_spec n y); simpl; done || lia.
Qed.

(** The drawing is the symbol.  Whatever the module shape, the margin and
    the logo's place, each module position is covered by exactly one shape
    of the geometry if the module there is dark and outside the logo, and by
    none otherwise, so both output formats draw exactly the symbol. *)
Theorem computeGeometry_exact (hole : option Rectangle) (x y : Z) :
  cover (computeGeometry sym shape margin hole) (x + margin) (y + margin) = b2z (dark sym hole x y).
Proof.
  unfold cover, computeGeometry, count_true. cbn [Runs Dots].
  rewrite <- !list_fmap_compose, !sumZ_concat_fmap, sumZ_plus. unfold compose.
  transitivity (sumZ (fun r => if y =? r then b2z ((0 <=? x) && (x <? n) && dark sym hole x r) else 0) (seqZ 0 n)).
  - apply sumZ_ext. intros r _. pose proof (row_from_cover sym shape margin hole (Z.to_nat n) 0 r x y) as H.
    unfold row_cover, count_true in H. rewrite H by lia. unfold row_dark.
    destruct (Z.eqb_spec y r) as [->|]; [|done]. f_equal.
  - rewrite (sumZ_pick (fun r => b2z ((0 <=? x) && (x <? n) && dark sym hole x r))) by apply NoDup_seqZ.
    pose proof (dark_range hole x y) as Hr. case_bool_decide as Hy.
    + destruct (dark sym hole x y); [|by rewrite andb_false_r]. destruct (Hr eq_refl).
      destruct (Z.leb_spec 0 x), (Z.ltb_spec x n); try lia; done.
    + destruct (dark sym hole x y); [|done]. destruct (Hr eq_refl). exfalso. apply Hy. apply elem_of_seqZ. lia.
Qed.
End properties.

(** A logo never hides a finder pattern.  For every symbol size there is
    and every scale, the square cleared for a logo is centred, has an odd side
    of at least three modules, and is disjoint from the three finder patterns
    and their separators. *)
Theorem logoHole_clear (v : Z) (scale : float64) (x y : Z) :
  1 <= v <= 40 ->
  let n := 17 + 4 * v in
  let h := logoHole n scale in
  let side := MaxX h - MinX h in
  MinX h = MinY h /\ MaxX h = MaxY h /\ MinX h + MaxX h = n /\ Z.odd side = true /\ 3 <= side
  /\ (rect_In x y h = true -> 8 <= x < n - 8 /\ 8 <= y < n - 8).
Proof.
  intros Hv n h side. subst h side. unfold logoHole. cbn [MinX MinY MaxX MaxY].
  set (raw := f64_floor_Z _). assert (Ho : Z.odd n = true).
  { unfold n. replace (17 + 4 * v) with (1 + 2 * (8 + 2 * v)) by lia. rewrite Z.odd_add_mul_2. done. }
  destruct (logo_side_spec n raw ltac:(lia) Ho) as [Hs Hodd]. set (s := logo_side n raw) in *.
  assert (Hd : Z.quot (n - s) 2 * 2 = n - s).
  { rewrite Z.quot_div_nonneg by lia. assert (Z.even (n - s) = true) as He.
    { rewrite Z.even_sub, <- !Z.negb_odd, Ho, Hodd. done. }
    apply Z.even_spec in He as [k Hk]. rewrite Hk. dlia. }
  set (q := Z.quot (n - s) 2) in *. split_and!; try lia.
  - by replace (q + s - q) with s by lia.
  - unfold rect_In. cbn [MinX MinY MaxX MaxY]. intros H. apply andb_prop in H as [[[? ?]%andb_prop ?]%andb_prop ?]. lia.
Qed.

Lemma logoHole_clear_witness :
  let h := logoHole 21 (f64_lit 25 100) in
  MaxX h - MinX h = 5 /\ (rect_In 8 8 h = true -> 8 <= 8 < 13 /\ 8 <= 8 < 13) /\ rect_In 8 8 h = true.
Proof.
  split; [vm_compute; reflexivity|]. split; [|vm_compute; reflexivity].
  apply (logoHole_clear 1 (f64_lit 25 100) 8 8). lia.
Defined.

Section squares.
Context (sym : Symbol) (shape : ModuleShape) (margin : Z) (hole : option Rectangle).
Notation n := (sym_size sym).

Lemma row_from_squares fuel x y x' :
  0 <= x <= x' -> (Z.to_nat (n - x) <= fuel)%nat -> dark sym hole x' y = true -> inFinder sym x' y = true ->
  existsb (fun r => (Corners r =? 0) && in_run (x' + margin) (y + margin) r) (row_from sym shape margin hole fuel x y).1 = true.
Proof.
  intros Hx Hf Hd Hin. destruct (dark_range _ _ _ _ Hd) as [Hx' _].
  revert x Hx Hf. induction fuel as [|k IH]; intros x Hx Hf; [lia|].
  cbn [row_from]. destruct (Z.leb_spec n x); [lia|].
  destruct (dark sym hole x y) eqn:Hdx; cbn [negb].
  2: { destruct (decide (x = x')) as [->|]; [congruence|]. apply IH; lia. }
  destruct (String.eqb shape ShapeDot && negb (inFinder sym x y)) eqn:Hdot.
  { destruct (decide (x = x')) as [->|]; [rewrite Hin, andb_false_r in Hdot; done|].
    specialize (IH (x + 1) ltac:(lia) ltac:(lia)). by destruct (row_from sym shape margin hole k (x + 1) y). }
  destruct (extend_spec sym shape hole (Z.to_nat n) x y 1) as (H1 & H2 & H3 & H4); [lia|lia| |].
  { intros i Hi. assert (i = 0) as -> by lia. by rewrite Z.add_0_r. }
  set (w := extend sym shape hole (Z.to_nat n) x y 1) in *.
  destruct (decide (x + w <= x')) as [Hbeyond|Hin_run].
  { specialize (IH (x + w) ltac:(lia) ltac:(lia)). destruct (row_from sym shape margin hole k (x + w) y). simpl in *.
    by rewrite IH, orb_true_r. }
  destruct (row_from sym shape margin hole k (x + w) y) as [rs ds]. cbn [fst existsb Corners].
  apply orb_true_intro. left. apply andb_true_intro. split.
  - unfold corners. destruct (String.eqb_spec shape ShapeRounded) as [Hs|]; [|done].
    assert (Hfx : inFinder sym x y = true).
    { rewrite <- (H4 ltac:(by rewrite Hs) ltac:(intros i Hi; assert (i = 0) as -> by lia; by rewrite Z.add_0_r) (x' - x)) by lia.
      by replace (x + (x' - x)) with x' by lia. }
    by rewrite Hfx.
  - unfold in_run. cbn [run_X run_Y run_W]. rewrite Z.eqb_refl.
    destruct (Z.leb_spec (x + margin) (x' + margin)), (Z.ltb_spec (x' + margin) (x + margin + w)); lia || done.
Qed.

(** Finder patterns stay square.  Whatever the module shape, each dark
    module of a finder pattern is drawn by a plain rectangle. *)
Theorem finder_square (x y : Z) :
  dark sym hole x y = true -> inFinder sym x y = true ->
  hasSquareAt (computeGeometry sym shape margin hole) (x + margin) (y + margin) = true.
Proof.
  intros Hd Hin. destruct (dark_range _ _ _ _ Hd) as [Hx Hy].
  pose proof (row_from_squares (Z.to_nat n) 0 y x ltac:(lia) ltac:(lia) Hd Hin) as H.
  apply existsb_exists in H as (r & Hr & Hsq). unfold hasSquareAt, computeGeometry. cbn [Runs].
  apply existsb_exists. exists r. split; [|done]. apply in_concat.
  exists (row_from sym shape margin hole (Z.to_nat n) 0 y).1. split; [|done].
  apply list_elem_of_In, list_elem_of_fmap. eexists. split; [reflexivity|].
  apply list_elem_of_fmap. exists y. split; [done|]. apply elem_of_seqZ. lia.
Qed.
End squares.

(** A symbol with one dark module in a finder pattern and one outside. *)
Definition two_modules : Symbol :=
  {| sym_size := 21; sym_version := 1; sym_level := ECLow;
     sym_dark := grid 21 (fun x y => ((x =? 2) && (y =? 3)) || ((x =? 10) && (y =? 3))) |}.
Lemma finder_square_witness :
  hasSquareAt (computeGeometry two_modules ShapeDot 4 None) (2 + 4) (3 + 4) = true.
Proof. apply finder_square; vm_compute; reflexivity. Defined.

(** ** Preparing a render *)
Section prepare.
Context `{QE : QrEncoder} `{IC : ImageCodecs} `{FM : FloatMath}.

Lemma first_level_sound scale ls l : first_level scale ls = Some l -> f64_leb scale (LogoBudget l) = true /\ l ∈ ls.
Proof.
  induction ls as [|x ls IH]; [done|]. simpl. destruct (f64_leb scale (LogoBudget x)) eqn:E.
  - intros [= <-]. split; [done|left].
  - intros [? ?]%IH. split; [done|by right].
Qed.

Lemma levelRank_cases ec : levelRank ec = -1 \/ ec ∈ levelOrder.
Proof.
  unfold levelRank, levelOrder. cbn [index_of].
  repeat match goal with |- context [String.eqb ?l ec] =>
    destruct (String.eqb_spec l ec) as [<-|]; [right; rewrite !elem_of_cons; auto 10|] end.
  by left.
Qed.

Lemma resolveLogoLevel_sound requested scale auto l :
  0 <= levelRank requested -> resolveLogoLevel requested scale auto = Ok l ->
  f64_leb scale (LogoBudget l) = true /\ levelRank requested <= levelRank l
  /\ (l <> requested -> auto = true /\ f64_leb scale (LogoBudget requested) = false).
Proof.
  intros Hr. unfold resolveLogoLevel. destruct (f64_leb scale (LogoBudget requested)) eqn:E; [by intros [= <-]|].
  destruct auto; [|done]. cbn [negb]. destruct (first_level _ _) as [x|] eqn:F; [|done]. intros [= <-].
  apply first_level_sound in F as [F Hin]. split; [done|]. split; [|done].
  destruct (levelRank_cases requested) as [|Hreq]; [lia|].
  unfold levelOrder in *. repeat (apply elem_of_cons in Hreq as [->|Hreq]; [cbv in Hin |- *; set_solver|]).
  by apply elem_of_nil in Hreq.
Qed.

(** C39: what a prepared render guarantees.  Its size, margin and payload are
    within bounds, its colours pass the contrast gate, the symbol is encoded
    at the effective level, which is the requested one unless a logo too
    large for it was allowed to raise it, and a logo's scale is within the
    budget of the level actually encoded. *)
Theorem Prepare_sound (r : QrRenderer) (env1 env2 : Env) (opts : Options) (p : Prepared) :
  Prepare r env1 env2 opts = Ok p ->
  let o := with_defaults opts in
  p_opts p = o
  /\ 1 <= o_SizePx o <= MaxPx (rr_bounds r) /\ 0 <= o_Margin o <= 64
  /\ f64_ltb (ContrastRatio (p_fg p) (p_bg p)) (rr_minContrast r) = false
  /\ 0 < Z.of_nat (length (o_Content o)) <= payloadLimit (rr_bounds r) (p_effective p)
  /\ sym_level (p_sym p) = p_effective p
  /\ levelRank (o_ECLevel o) <= levelRank (p_effective p)
  /\ match o_Logo o with
     | None => p_effective p = o_ECLevel o
     | Some l => f64_leb (logo_Scale l) (LogoBudget (p_effective p)) = true
         /\ (p_effective p <> o_ECLevel o -> AutoRaise l = true)
     end.
Proof.
  unfold Prepare, normalise. set (o := with_defaults opts).
  destruct (negb (bool_decide (o_Format o ∈ _))); [done|]. destruct (ParseHexColor (o_FgColor o)) as [fg|]; [|done].
  destruct (ParseHexColor (o_BgColor o)) as [bg|]; [|done].
  destruct (negb (bool_decide (o_Shape o ∈ _))); [done|].
  destruct ((o_Margin o <? 0) || (64 <? o_Margin o)) eqn:Hm; [done|].
  destruct (Z.ltb_spec (o_SizePx o) 1); [done|]. destruct (Z.ltb_spec (levelRank (o_ECLevel o)) 0) as [|Hrank]; [done|].
  destruct (match o_Logo o with Some l => _ | None => false end); [done|].
  unfold checkSize. destruct (Z.ltb_spec (MaxPx (rr_bounds r)) (o_SizePx o)); [done|].
  unfold checkContrast. cbv zeta. destruct (f64_ltb (ContrastRatio fg bg) (rr_minContrast r)) eqn:Hc; [done|].
  destruct (prepare_logo o) as [[eff logo]|] eqn:Hlogo; [|done].
  unfold checkPayload. cbv zeta. destruct (Z.ltb_spec (payloadLimit (rr_bounds r) eff) (Z.of_nat (length (o_Content o)))); [done|].
  destruct (ctx_Err env1); [done|]. destruct (Encode (o_Content o) eff) as [sym|] eqn:Henc; [|done].
  destruct (ctx_Err env2); [done|]. intros [= <-]. cbn [p_opts p_fg p_bg p_effective p_sym].
  assert (Hsym : sym_level sym = eff /\ o_Content o <> []).
  { revert Henc. unfold Encode. destruct (levelRank eff <? 0); [done|]. destruct (o_Content o) as [|b l]; [by intros [=]|]. destruct (Capacity eff <? _); [done|].
    destruct (goqr_MakeBytes _); [done|]. destruct (goqr_EncodeSegments _ _) as [[s f]|[]]; [|done..]. by intros [= <-]. }
  destruct Hsym as [Hlev Hne]. apply orb_false_elim in Hm as [Hm1%Z.ltb_ge Hm2%Z.ltb_ge].
  assert (Hlen : 0 < Z.of_nat (length (o_Content o))) by (destruct (o_Content o); [done|simpl; lia]).
  assert (Hlg : levelRank (o_ECLevel o) <= levelRank eff /\ match o_Logo o with
     | None => eff = o_ECLevel o
     | Some l => f64_leb (logo_Scale l) (LogoBudget eff) = true /\ (eff <> o_ECLevel o -> AutoRaise l = true) end).
  { revert Hlogo. unfold prepare_logo. destruct (o_Logo o) as [l|]; [|by intros [= <- _]].
    destruct (resolveLogoLevel _ _ _) as [e|] eqn:Hres; [|done]. destruct (decodeLogo _); [|done]. intros [= <- _].
    destruct (resolveLogoLevel_sound _ _ _ _ Hrank Hres) as (? & ? & Hne'). split_and!; [done|done|].
    intros Hx. by apply Hne'. }
  destruct Hlg as [? ?]. split_and!; (done || lia).
Qed.
End prepare.

(** ** Witness: an encoder of blank symbols *)
#[local] Instance blank_encoder : QrEncoder :=
  {| goqr_MakeBytes := fun _ => None; goqr_EncodeSegments := fun _ _ => Ok (21, fun _ _ => false) |}.
#[local] Instance any_image : ImageCodecs :=
  {| Image := unit; image_DecodeConfig := fun _ => Some ("png", 8, 8); image_Decode := fun _ _ => Some tt |}.
#[local] Instance flat_pow : FloatMath := {| math_Pow := fun a _ => a |}.

Definition with_logo : Options := {|
  o_Content := bytes "https://example.com"; o_Format := ""; o_FgColor := ""; o_BgColor := ""; o_Shape := ""; o_Margin := 4;
  o_SizePx := 0; o_ECLevel := ""; o_Logo := Some {| logo_Image := bytes "image"; logo_Scale := f64_lit 18 100; AutoRaise := true |} |}.

Lemma Prepare_sound_witness :
  exists p, Prepare (NewRenderer DefaultBounds []) env0 env0 with_logo = Ok p
    /\ p_effective p = ECQuartile /\ f64_leb (f64_lit 18 100) (LogoBudget (p_effective p)) = true.
Proof.
  destruct (Prepare (NewRenderer DefaultBounds []) env0 env0 with_logo) as [p|e] eqn:E.
  - exists p. split; [reflexivity|].
    assert (F : match Prepare (NewRenderer DefaultBounds []) env0 env0 with_logo with
                | Ok q => p_effective q = ECQuartile | Err _ => False end) by (vm_compute; reflexivity).
    rewrite E in F. split; [exact F|].
    destruct (Prepare_sound (NewRenderer DefaultBounds []) env0 env0 with_logo p E)
      as (_ & _ & _ & _ & _ & _ & _ & Hl & _). exact Hl.
  - exfalso. assert (F : is_Ok (Prepare (NewRenderer DefaultBounds []) env0 env0 with_logo) = true)
      by (vm_compute; reflexivity). rewrite E in F. discriminate F.
Defined.
