(* ===== verification/Svg.v ===== *)
(** * The vector drawing of a symbol ([internal/qr/render_svg.go])

    The document as the text [renderSVG] writes, with the polls of its context
    as turns of an action.  Coordinates of rounded runs are [float64] values
    that are multiples of one half below 2^52, where the arithmetic is exact;
    they are kept as numbers of halves.  Then a reader of these documents,
    [read_svg], which takes the text apart at its markup and reads each shape
    back from its coordinates: the document of a prepared code, read back, has
    exactly the dark modules of the symbol outside the hole of its logo. *)
From Stdlib Require Import Ascii String.
From stdpp Require Import pretty.
From S2P Require Import GoLib Text Act Domain GoUrl Base64 QrPolicy Concrete Qr QrFacts.
Local Open Scope string_scope.
Local Open Scope Z_scope.
Local Open Scope go_scope.

(** A quotation mark. *)
Definition q : string := String "034" "".

(** [half formats n + 0.5]. *)
Definition half (n : Z) : string := Itoa n +:+ ".5".

(** [strconv.FormatFloat(h/2, 'f', -1, 64)]. *)
Definition f (h : Z) : string := if Z.even h then Itoa (h / 2) else Itoa (h / 2) +:+ ".5".

(** [roundRadius], in halves. *)
Definition roundRadius : Z := 1.
Definition rad (flag corners : Z) : Z := if negb (Z.land corners flag =? 0) then roundRadius else 0.

Definition arc (x y : Z) : string := "A0.5 0.5 0 0 1 " +:+ f x +:+ " " +:+ f y.

Definition writeRoundedRun (r : Run) : string :=
  let x0 := 2 * run_X r in let x1 := 2 * (run_X r + run_W r) in
  let y0 := 2 * run_Y r in let y1 := 2 * (run_Y r + 1) in
  let tl := rad cornerTL (Corners r) in let tr := rad cornerTR (Corners r) in
  let br := rad cornerBR (Corners r) in let bl := rad cornerBL (Corners r) in
  "M" +:+ f (x0 + tl) +:+ " " +:+ f y0
  +:+ "L" +:+ f (x1 - tr) +:+ " " +:+ f y0
  +:+ (if 0 <? tr then arc x1 (y0 + tr) else "")
  +:+ "L" +:+ f x1 +:+ " " +:+ f (y1 - br)
  +:+ (if 0 <? br then arc (x1 - br) y1 else "")
  +:+ "L" +:+ f (x0 + bl) +:+ " " +:+ f y1
  +:+ (if 0 <? bl then arc x0 (y1 - bl) else "")
  +:+ "L" +:+ f x0 +:+ " " +:+ f (y0 + tl)
  +:+ (if 0 <? tl then arc (x0 + tl) y0 else "")
  +:+ "z".

Definition writePlainRun (r : Run) : string :=
  "M" +:+ Itoa (run_X r) +:+ " " +:+ Itoa (run_Y r) +:+ "h" +:+ Itoa (run_W r)
  +:+ "v1h-" +:+ Itoa (run_W r) +:+ "z".

Definition writeDot (d : Dot) : string :=
  "<circle cx=" +:+ q +:+ half (dot_X d) +:+ q +:+ " cy=" +:+ q +:+ half (dot_Y d) +:+ q
  +:+ " r=" +:+ q +:+ "0.45" +:+ q +:+ "/>".

(** [writeSVGHead]. *)
Definition writeSVGHead (sizePx total : Z) (bg : NRGBA) : string :=
  let px := Itoa sizePx in let t := Itoa total in
  "<svg xmlns=" +:+ q +:+ "http://www.w3.org/2000/svg" +:+ q +:+ " width=" +:+ q +:+ px +:+ q
  +:+ " height=" +:+ q +:+ px +:+ q +:+ " viewBox=" +:+ q +:+ "0 0 " +:+ t +:+ " " +:+ t +:+ q +:+ ">"
  +:+ "<rect width=" +:+ q +:+ t +:+ q +:+ " height=" +:+ q +:+ t +:+ q
  +:+ " fill=" +:+ q +:+ hexString bg +:+ q +:+ "/>".

Definition writeLogo `{ImageCodecs} (h : Rectangle) (l : decodedLogo) : string :=
  "<image x=" +:+ q +:+ Itoa (MinX h + 1) +:+ q +:+ " y=" +:+ q +:+ Itoa (MinY h + 1) +:+ q
  +:+ " width=" +:+ q +:+ Itoa (MaxX h - MinX h - 2) +:+ q +:+ " height=" +:+ q +:+ Itoa (MaxY h - MinY h - 2) +:+ q
  +:+ " preserveAspectRatio=" +:+ q +:+ "xMidYMid meet" +:+ q +:+ " href=" +:+ q +:+ "data:" +:+ dl_mime l
  +:+ ";base64," +:+ EncodeStd (dl_raw l) +:+ q +:+ "/>".

Definition empty_rect : Rectangle := {| MinX := 0; MinY := 0; MaxX := 0; MaxY := 0 |}.

Section svg.
Context `{IC : ImageCodecs} {W : Type} (sc : Sched W).

(** One loop over shapes: the context is polled before every 1,024th. *)
Fixpoint emit {A} (write : A -> string) (i : Z) (l : list A) : Act W (result string) :=
  match l with
  | [] => mret (Ok "")
  | x :: l' =>
      _ <-! (if i mod 1024 =? 0
             then look sc (fun env _ => match ctx_Err env with
                                        | Some e => Err (Sentinel (SContext e)) | None => Ok tt end)
             else mret (Ok tt));
      rest <-! emit write (i + 1) l';
      mret (Ok (write x +:+ rest))
  end.

(** A loop and what surrounds it, or nothing when there is no shape. *)
Definition group {A} (before after : string) (write : A -> string) (l : list A) : Act W (result string) :=
  match l with
  | [] => mret (Ok "")
  | _ => body <-! emit write 0 l; mret (Ok (before +:+ body +:+ after))
  end.

Definition renderSVG (p : Prepared) : Act W (result string) :=
  let g := p_geo p in
  let fg := hexString (p_fg p) in
  let plain := filter (fun r => Corners r = 0) (Runs g) in
  let rounded := filter (fun r => Corners r <> 0) (Runs g) in
  let path := "<path fill=" +:+ q +:+ fg +:+ q +:+ " d=" +:+ q in
  a <-! group path (q +:+ "/>") writePlainRun plain;
  b <-! group path (q +:+ "/>") writeRoundedRun rounded;
  c <-! group ("<g fill=" +:+ q +:+ fg +:+ q +:+ ">") "</g>" writeDot (Dots g);
  mret (Ok (writeSVGHead (o_SizePx (p_opts p)) (Total g) (p_bg p) +:+ a +:+ b +:+ c
            +:+ match p_dlogo p with Some l => writeLogo (default empty_rect (Hole g)) l | None => "" end
            +:+ "</svg>" +:+ String "010" "")).
End svg.

(** ** Reading numbers *)
(** A multiple of one half, in halves. *)
Definition read_half (s : string) : option Z :=
  match SplitByte s "." with
  | [a] => Z.mul 2 <$> read_nat a
  | [a; b] => if String.eqb b "5" then (fun z => 2 * z + 1) <$> read_nat a else None
  | _ => None
  end.

(** ** Reading shapes *)
Definition read_point (x y : string) : option (Z * Z) := x ← read_half x; y ← read_half y; Some (x, y).

(** The end of a straight line, and of the quarter circle after it. *)
Definition read_leg (s : string) : option (Z * Z * option (Z * Z)) :=
  match SplitByte s "A" with
  | [p] => match SplitByte p " " with [x; y] => p ← read_point x y; Some (p, None) | _ => None end
  | [p; a] =>
      match SplitByte p " ", SplitByte a " " with
      | [x; y], ["0.5"; "0.5"; "0"; "0"; "1"; u; v] => p ← read_point x y; a ← read_point u v; Some (p, Some a)
      | _, _ => None
      end
  | _ => None
  end.

Definition flag (a : option (Z * Z)) (bit : Z) : Z := match a with Some _ => bit | None => 0 end.
Definition inset (a : option (Z * Z)) : Z := match a with Some _ => 1 | None => 0 end.

(** An outline of four sides, one module high, clockwise from the top left. *)
Definition read_outline (s : string) : option Run :=
  match SplitByte s "L" with
  | [m; s1; s2; s3; s4z] =>
      match SplitByte s4z "z" with
      | [s4; ""] =>
          '(mx, my, _) ← read_leg m; '(ax, ay, tr) ← read_leg s1; '(bx, by', br) ← read_leg s2;
          '(cx, cy, bl) ← read_leg s3; '(dx, dy, tl) ← read_leg s4;
          if bool_decide (mx = dx + inset tl /\ ay = my /\ ax = bx - inset tr /\ by' = cy - inset br
               /\ cx = dx + inset bl /\ dy = my + inset tl /\ cy = my + 2
               /\ default (bx, my + 1) tr = (bx, my + 1) /\ default (bx - 1, cy) br = (bx - 1, cy)
               /\ default (dx, cy - 1) bl = (dx, cy - 1) /\ default (dx + 1, my) tl = (dx + 1, my)
               /\ Z.even dx = true /\ Z.even my = true /\ Z.even bx = true)
          then Some {| run_X := dx / 2; run_Y := my / 2; run_W := bx / 2 - dx / 2;
                       Corners := flag tl cornerTL + flag tr cornerTR + flag br cornerBR + flag bl cornerBL |}
          else None
      | _ => None
      end
  | _ => None
  end.

(** A rectangle one module high. *)
Definition read_rectangle (s : string) : option Run :=
  match SplitByte s " " with
  | [x; rest] =>
      match SplitByte rest "h" with
      | [y; wv; back] =>
          match SplitByte wv "v" with
          | [w; one] =>
              if String.eqb one "1" && String.eqb back ("-" +:+ w +:+ "z")
              then x ← read_nat x; y ← read_nat y; w ← read_nat w;
                   Some {| run_X := x; run_Y := y; run_W := w; Corners := 0 |}
              else None
          | _ => None
          end
      | _ => None
      end
  | _ => None
  end.

Definition read_subpath (s : string) : option Run :=
  match SplitByte s "L" with [_] => read_rectangle s | _ => read_outline s end.

Definition read_path (d : string) : option (list Run) :=
  match SplitByte d "M" with "" :: ps => mapM read_subpath ps | _ => None end.

Definition read_circle (x y : string) : option Dot :=
  x ← read_half x; y ← read_half y;
  if Z.odd x && Z.odd y then Some {| dot_X := x / 2; dot_Y := y / 2 |} else None.

(** One element of the document, as its pieces between quotation marks. *)
Definition read_pieces (l : list string) : option (list Run * list Dot) :=
  match l with
  | [n1; _; n2; d; _] =>
      if String.eqb n1 "path fill=" && String.eqb n2 " d=" then rs ← read_path d; Some (rs, []) else Some ([], [])
  | [n1; x; n2; y; n3; _; _] =>
      if String.eqb n1 "circle cx=" && String.eqb n2 " cy=" && String.eqb n3 " r="
      then d ← read_circle x y; Some ([], [d]) else Some ([], [])
  | _ => Some ([], [])
  end.

(** One element, without its opening bracket. *)
Definition read_element (e : string) : option (list Run * list Dot) := read_pieces (SplitByte e "034").

Definition read_svg (doc : string) : option (list Run * list Dot) :=
  match SplitByte doc "<" with
  | "" :: es =>
      l ← mapM read_element es; Some (concat (fst <$> l), concat (snd <$> l))
  | _ => None
  end.

(** ** Numbers *)
Definition num_char (c : ascii) : bool := is_digit c || Ascii.eqb c ".".

Lemma Itoa_chars n : 0 <= n -> string_forall num_char (Itoa n) = true.
Proof.
  intros Hn. apply (string_forall_impl is_digit); [|by apply Itoa_digits].
  intros c Hc. unfold num_char. by rewrite Hc.
Qed.

Lemma f_chars h : 0 <= h -> string_forall num_char (f h) = true.
Proof.
  intros Hh. unfold f. assert (0 <= h / 2) by dlia.
  destruct (Z.even h); [by apply Itoa_chars|]. by rewrite string_forall_app, Itoa_chars.
Qed.

Lemma f_without c h : 0 <= h -> num_char c = false -> without c (f h) = true.
Proof. intros Hh Hc. by apply (without_kind num_char), f_chars. Qed.

Lemma read_half_half n : 0 <= n -> read_half (half n) = Some (2 * n + 1).
Proof.
  intros Hn. unfold half, read_half. rewrite SplitByte_at by by apply Itoa_without. simpl. by rewrite read_Itoa.
Qed.

Lemma read_half_f h : 0 <= h -> read_half (f h) = Some h.
Proof.
  intros Hh. unfold f. assert (0 <= h / 2) by dlia. pose proof (Zmod_even h) as Hm. pose proof (Z.div_mod h 2).
  destruct (Z.even h).
  - unfold read_half. rewrite SplitByte_without by by apply Itoa_without. rewrite read_Itoa by done. simpl. f_equal. lia.
  - change (Itoa (h / 2) +:+ ".5") with (half (h / 2)). rewrite read_half_half by done. f_equal. lia.
Qed.

Lemma f_not_empty h : 0 <= h -> f h <> "".
Proof. intros Hh E. pose proof (read_half_f h Hh) as H. by rewrite E in H. Qed.

(** ** Points and sides *)
Definition write_point (x y : Z) : string := f x +:+ String " " (f y).
Definition write_arc (a : option (Z * Z)) : string := match a with Some (x, y) => arc x y | None => "" end.
Definition write_leg (x y : Z) (a : option (Z * Z)) : string := write_point x y +:+ write_arc a.

Definition point_char (c : ascii) : bool := num_char c || Ascii.eqb c " ".

Lemma write_point_chars x y : 0 <= x -> 0 <= y -> string_forall point_char (write_point x y) = true.
Proof.
  intros Hx Hy. assert (Hf : forall h, 0 <= h -> string_forall point_char (f h) = true).
  { intros h Hh. apply (string_forall_impl num_char); [|by apply f_chars]. intros c Hc. unfold point_char. by rewrite Hc. }
  unfold write_point. by rewrite string_forall_app, string_forall_cons, !Hf.
Qed.

Lemma split_point x y : 0 <= x -> 0 <= y -> SplitByte (write_point x y) " " = [f x; f y].
Proof.
  intros Hx Hy. unfold write_point. rewrite (SplitByte_at (f x) (f y) " ") by by apply f_without.
  by rewrite SplitByte_without by by apply f_without.
Qed.

Lemma arc_split x y : arc x y = String "A" ("0.5 0.5 0 0 1 " +:+ write_point x y).
Proof. done. Qed.

Definition ends (a : option (Z * Z)) : Prop := match a with Some (x, y) => 0 <= x /\ 0 <= y | None => True end.

Lemma read_write_leg x y a : 0 <= x -> 0 <= y -> ends a -> read_leg (write_leg x y a) = Some ((x, y), a).
Proof.
  intros Hx Hy Ha. assert (Hp : forall x y, 0 <= x -> 0 <= y -> without "A" (write_point x y) = true).
  { intros. apply (without_kind point_char); [done|]. by apply write_point_chars. }
  unfold read_leg, write_leg, read_point. destruct a as [[u v]|]; cbn [write_arc].
  - destruct Ha as [Hu Hv]. rewrite arc_split.
    rewrite (SplitByte_at (write_point x y) ("0.5 0.5 0 0 1 " +:+ write_point u v) "A") by by apply Hp.
    rewrite SplitByte_without by (rewrite without_app; by rewrite Hp).
    rewrite split_point by done.
    change (SplitByte ("0.5 0.5 0 0 1 " +:+ write_point u v) " ")
      with ("0.5" :: "0.5" :: "0" :: "0" :: "1" :: SplitByte (write_point u v) " ").
    rewrite split_point by done. by rewrite !read_half_f.
  - rewrite append_empty, SplitByte_without, split_point by (done || by apply Hp). by rewrite !read_half_f.
Qed.

Lemma write_leg_without c x y a :
  point_char c = false -> Ascii.eqb c "A" = false -> 0 <= x -> 0 <= y -> ends a -> without c (write_leg x y a) = true.
Proof.
  intros Hc Hne Hx Hy Ha. assert (Hp : forall x y, 0 <= x -> 0 <= y -> without c (write_point x y) = true).
  { intros. apply (without_kind point_char); [done|]. by apply write_point_chars. }
  unfold write_leg. rewrite without_app, Hp by done. destruct a as [[u v]|]; [|done]. destruct Ha as [Hu Hv].
  cbn [write_arc]. rewrite arc_split. unfold without at 1. rewrite string_forall_cons.
  change (string_forall (fun d => negb (Ascii.eqb d c)) ?s) with (without c s).
  rewrite without_app, Hp, Ascii.eqb_sym, Hne by done. by rewrite (without_kind point_char).
Qed.

(** ** Rounded runs *)
Definition opt_arc (b : bool) (x y : Z) : option (Z * Z) := if b then Some (x, y) else None.

Lemma write_opt_arc (b : bool) x y : (if b then arc x y else "") = write_arc (opt_arc b x y).
Proof. by destruct b. Qed.

(** What is written after the [M]. *)
Definition outline (x0 x1 y0 y1 tl tr br bl : Z) : string :=
  write_leg (x0 + tl) y0 None
  +:+ String "L" (write_leg (x1 - tr) y0 (opt_arc (0 <? tr) x1 (y0 + tr))
  +:+ String "L" (write_leg x1 (y1 - br) (opt_arc (0 <? br) (x1 - br) y1)
  +:+ String "L" (write_leg (x0 + bl) y1 (opt_arc (0 <? bl) x0 (y1 - bl))
  +:+ String "L" (write_leg x0 (y0 + tl) (opt_arc (0 <? tl) (x0 + tl) y0) +:+ "z")))).

Lemma writeRoundedRun_outline r :
  writeRoundedRun r = String "M" (outline (2 * run_X r) (2 * (run_X r + run_W r)) (2 * run_Y r) (2 * (run_Y r + 1))
    (rad cornerTL (Corners r)) (rad cornerTR (Corners r)) (rad cornerBR (Corners r)) (rad cornerBL (Corners r))).
Proof.
  unfold writeRoundedRun, outline, write_leg, write_point. cbv zeta. rewrite !write_opt_arc.
  rewrite !string_app_assoc. done.
Qed.

Definition good_run (r : Run) : Prop := 0 <= run_X r /\ 0 <= run_Y r /\ 1 <= run_W r /\ 0 <= Corners r <= 15.

Lemma read_outline_outline x0 x1 y0 y1 tl tr br bl :
  0 <= x0 < x1 -> 0 <= y0 -> y1 = y0 + 2 -> Z.even x0 = true -> Z.even x1 = true -> Z.even y0 = true ->
  Forall (fun z => z = 0 \/ z = 1) [tl; tr; br; bl] ->
  read_outline (outline x0 x1 y0 y1 tl tr br bl)
  = Some {| run_X := x0 / 2; run_Y := y0 / 2; run_W := x1 / 2 - x0 / 2;
            Corners := tl * 1 + tr * 2 + br * 4 + bl * 8 |}.
Proof.
  intros Hx Hy -> Ex0 Ex1 Ey0 Hf.
  assert (Hx1 : x1 <> x0 + 1).
  { intros ->. rewrite Z.even_add, Ex0 in Ex1. done. }
  repeat (apply Forall_cons in Hf as [? Hf]). clear Hf.
  assert (He : forall b u v, 0 <= u -> 0 <= v -> ends (opt_arc b u v)) by by intros [].
  assert (Hends : ends (opt_arc (0 <? tr) x1 (y0 + tr)) /\ ends (opt_arc (0 <? br) (x1 - br) (y0 + 2))
    /\ ends (opt_arc (0 <? bl) x0 (y0 + 2 - bl)) /\ ends (opt_arc (0 <? tl) (x0 + tl) y0)).
  { split_and!; apply He; lia. }
  destruct Hends as (E1 & E2 & E3 & E4).
  assert (HL : forall x y a, 0 <= x -> 0 <= y -> ends a -> without "L" (write_leg x y a) = true)
    by (intros; by apply write_leg_without).
  assert (Hz : forall x y a, 0 <= x -> 0 <= y -> ends a -> without "z" (write_leg x y a) = true)
    by (intros; by apply write_leg_without).
  unfold read_outline, outline.
  rewrite !SplitByte_at by (apply HL; (done || lia)).
  rewrite SplitByte_without by (rewrite without_app, HL by (done || lia); done).
  rewrite SplitByte_at by (apply Hz; (done || lia)). cbn [SplitByte].
  rewrite !read_write_leg by (done || lia). cbn [mbind option_bind].
  destruct (Z.ltb_spec 0 tl), (Z.ltb_spec 0 tr), (Z.ltb_spec 0 br), (Z.ltb_spec 0 bl); unfold opt_arc; simpl;
    rewrite bool_decide_eq_true_2 by (split_and!; first [done|lia|f_equal; lia]);
    do 2 f_equal; unfold cornerTL, cornerTR, cornerBR, cornerBL; lia.
Qed.

Lemma outline_chars x0 x1 y0 y1 tl tr br bl c :
  point_char c = false -> Ascii.eqb c "A" = false -> Ascii.eqb c "L" = false -> Ascii.eqb c "z" = false ->
  0 <= x0 < x1 -> 0 <= y0 -> y1 = y0 + 2 -> Forall (fun z => z = 0 \/ z = 1) [tl; tr; br; bl] ->
  without c (outline x0 x1 y0 y1 tl tr br bl) = true.
Proof.
  intros H1 H2 H3 H4 Hx Hy -> Hf. repeat (apply Forall_cons in Hf as [? Hf]). clear Hf.
  assert (He : forall b u v, 0 <= u -> 0 <= v -> ends (opt_arc b u v)) by by intros [].
  assert (HW : forall x y a, 0 <= x -> 0 <= y -> ends a -> without c (write_leg x y a) = true)
    by (intros; by apply write_leg_without).
  assert (HL : forall s, without c s = true -> without c (String "L" s) = true).
  { intros s Hs. unfold without in *. by rewrite string_forall_cons, Ascii.eqb_sym, H3, Hs. }
  unfold outline. repeat first [apply without_app_2; [apply HW; (apply He || idtac); (done || lia)|]|apply HL].
  unfold without. by rewrite string_forall_cons, Ascii.eqb_sym, H4.
Qed.

(** ** Paths *)

(** A run as it is written, without the [M]. *)
Definition body (r : Run) : string :=
  if Corners r =? 0
  then Itoa (run_X r) +:+ String " " (Itoa (run_Y r) +:+ String "h" (Itoa (run_W r)
         +:+ String "v" (String "1" (String "h" (String "-" (Itoa (run_W r) +:+ "z"))))))
  else outline (2 * run_X r) (2 * (run_X r + run_W r)) (2 * run_Y r) (2 * (run_Y r + 1))
         (rad cornerTL (Corners r)) (rad cornerTR (Corners r)) (rad cornerBR (Corners r)) (rad cornerBL (Corners r)).

Definition write_run (r : Run) : string := if Corners r =? 0 then writePlainRun r else writeRoundedRun r.

Lemma write_run_body r : write_run r = String "M" (body r).
Proof. unfold write_run, body. destruct (Corners r =? 0); [done|]. apply writeRoundedRun_outline. Qed.

Lemma rad_cases flag c : rad flag c = 0 \/ rad flag c = 1.
Proof. unfold rad, roundRadius. destruct (negb _); auto. Qed.

Lemma corner_bits c :
  0 <= c <= 15 -> rad cornerTL c * 1 + rad cornerTR c * 2 + rad cornerBR c * 4 + rad cornerBL c * 8 = c.
Proof.
  intros Hc.
  assert (Hall : forallb (fun n => let c := Z.of_nat n in
    rad cornerTL c * 1 + rad cornerTR c * 2 + rad cornerBR c * 4 + rad cornerBL c * 8 =? c) (seq 0 16) = true)
    by (vm_compute; reflexivity).
  rewrite forallb_forall in Hall. specialize (Hall (Z.to_nat c) ltac:(apply in_seq; lia)).
  rewrite Z2Nat.id in Hall by lia. by apply Z.eqb_eq in Hall.
Qed.

Lemma body_without r c :
  good_run r -> point_char c = false -> c ∉ ["A"; "L"; "z"; "h"; "v"; "-"; "1"]%char -> without c (body r) = true.
Proof.
  intros (Hx & Hy & Hw & Hc) Hp Hn. rewrite !not_elem_of_cons in Hn. destruct Hn as (n1 & n2 & n3 & n4 & n5 & n6 & n7 & _).
  unfold body. destruct (Corners r =? 0).
  - assert (Hd : is_digit c = false) by (unfold point_char, num_char in Hp; by destruct (is_digit c)).
    assert (Hs : c <> " "%char) by (by intros ->). solve_without.
  - apply outline_chars; try (done || lia); try by apply Ascii.eqb_neq.
    repeat (apply Forall_cons_2; [apply rad_cases|]). by apply Forall_nil_2.
Qed.

Lemma read_body r : good_run r -> read_subpath (body r) = Some r.
Proof.
  intros (Hx & Hy & Hw & Hc). unfold body, read_subpath. destruct (Z.eqb_spec (Corners r) 0) as [E|E].
  - rewrite SplitByte_without by solve_without.
    unfold read_rectangle. rewrite SplitByte_at by solve_without. rewrite SplitByte_without by solve_without.
    rewrite SplitByte_at by solve_without.
    replace (Itoa (run_W r) +:+ String "v" (String "1" (String "h" (String "-" (Itoa (run_W r) +:+ "z")))))
      with ((Itoa (run_W r) +:+ "v1") +:+ String "h" (String "-" (Itoa (run_W r) +:+ "z")))
      by by rewrite string_app_assoc.
    rewrite SplitByte_at, SplitByte_without by solve_without. rewrite (SplitByte_at (Itoa (run_W r)) "1" "v") by solve_without.
    change (SplitByte "1" "v") with ["1"]. cbv iota beta. rewrite String.eqb_refl.
    change ("-" +:+ Itoa (run_W r) +:+ "z") with (String "-" (Itoa (run_W r) +:+ "z")). rewrite String.eqb_refl.
    rewrite !read_Itoa by lia. simpl. f_equal. destruct r. simpl in *. by subst.
  - assert (Hr : read_outline (outline (2 * run_X r) (2 * (run_X r + run_W r)) (2 * run_Y r) (2 * (run_Y r + 1))
         (rad cornerTL (Corners r)) (rad cornerTR (Corners r)) (rad cornerBR (Corners r)) (rad cornerBL (Corners r)))
         = Some r).
    { rewrite read_outline_outline; try (lia || by rewrite Z.even_mul); 
        [|repeat (apply Forall_cons_2; [apply rad_cases|]); by apply Forall_nil_2].
      rewrite corner_bits by done. rewrite !(Z.mul_comm 2), !Z.div_mul by done. f_equal.
      destruct r. simpl in *. f_equal; lia. }
    destruct (SplitByte _ "L") as [|a [|b l]] eqn:El; [done| |done].
    unfold read_outline in Hr. by rewrite El in Hr.
Qed.

(** ** Values that cannot break the markup *)
(** Neither a quotation mark nor an opening bracket. *)
Definition clean (s : string) : Prop := without "034" s = true /\ without "<" s = true.

Lemma clean_app s t : clean s -> clean t -> clean (s +:+ t).
Proof. intros [] []. split; by apply without_app_2. Qed.

Lemma clean_kind (P : ascii -> bool) s : P "034"%char = false -> P "<"%char = false -> string_forall P s = true -> clean s.
Proof. intros H1 H2 Hs. split; by apply (without_kind P). Qed.

Lemma clean_Itoa z : clean (Itoa z).
Proof.
  destruct (Z.le_gt_cases 0 z) as [Hz|Hz]; [split; by apply Itoa_without|].
  destruct z as [|p|p]; [lia|lia|]. change (Itoa (Zneg p)) with (String "-" (Itoa (Zpos p))).
  split; apply without_String; try done; by apply Itoa_without.
Qed.

Lemma clean_half z : clean (half z).
Proof. apply clean_app; [apply clean_Itoa|done]. Qed.

Lemma clean_bytes (l : list ascii) :
  Forall (fun c => Ascii.eqb c "034" || Ascii.eqb c "<" = false) l -> clean (of_bytes l).
Proof.
  intros Hl. apply (clean_kind (fun c => negb (Ascii.eqb c "034" || Ascii.eqb c "<"))); [done..|].
  unfold string_forall. rewrite bytes_of_bytes. apply forallb_forall. rewrite Forall_forall in Hl.
  intros c Hc. by rewrite Hl by by apply list_elem_of_In.
Qed.

Lemma clean_hex2 z : 0 <= z < 256 -> Forall (fun c => Ascii.eqb c "034" || Ascii.eqb c "<" = false) (hex2 z).
Proof.
  intros Hz.
  assert (Hall : forallb (fun n => forallb (fun c => negb (Ascii.eqb c "034" || Ascii.eqb c "<")) (hex2 (Z.of_nat n))) (seq 0 256)
    = true) by (vm_compute; reflexivity).
  rewrite forallb_forall in Hall. specialize (Hall (Z.to_nat z) ltac:(apply in_seq; lia)).
  rewrite Z2Nat.id in Hall by lia. rewrite forallb_forall in Hall. apply Forall_forall.
  intros c Hc%list_elem_of_In%Hall. by apply negb_true_iff.
Qed.

Definition good_colour (c : NRGBA) : Prop := 0 <= col_R c < 256 /\ 0 <= col_G c < 256 /\ 0 <= col_B c < 256.

Lemma clean_hexString c : good_colour c -> clean (hexString c).
Proof.
  intros (Hr & Hg & Hb). change (hexString c) with ("#" +:+ of_bytes (hex2 (col_R c) ++ hex2 (col_G c) ++ hex2 (col_B c))).
  apply clean_app; [done|]. apply clean_bytes. rewrite !Forall_app. auto using clean_hex2.
Qed.

Lemma clean_EncodeStd l : clean (EncodeStd l).
Proof.
  unfold EncodeStd. apply clean_app; [|unfold padding; by destruct (_ mod 3)%nat as [|[|[|]]]].
  unfold EncodeToString. apply clean_bytes. apply Forall_forall. intros c (v & -> & _)%list_elem_of_fmap.
  unfold enc_char. destruct (bytes alphabet_std !! Z.to_nat v) as [c|] eqn:E; [|done]. simpl.
  assert (Hall : forallb (fun c => negb (Ascii.eqb c "034" || Ascii.eqb c "<")) (bytes alphabet_std) = true)
    by (vm_compute; reflexivity).
  rewrite forallb_forall in Hall. apply negb_true_iff, Hall. apply list_elem_of_In. by eapply list_elem_of_lookup_2.
Qed.

(** ** Elements *)
(** The pieces of an element between its quotation marks. *)
Definition quoted (l : list string) : string := match l with a :: l' => a +:+ cat (String "034" <$> l') | [] => "" end.

Lemma read_quoted el : Forall clean el -> el <> [] -> read_element (quoted el) = read_pieces el.
Proof.
  destruct el as [|a l]; [done|]. intros Hel _. unfold read_element. f_equal. revert Hel.
  intros [[Ha _] Hl]%Forall_cons. apply Split_pieces; [done|]. eapply Forall_impl; [done|]. by intros x [].
Qed.

Lemma quoted_without l : Forall clean l -> without "<" (quoted l) = true.
Proof.
  destruct 1 as [|a l [_ Ha] Hl]; [done|]. apply without_app_2; [done|]. apply without_cat. apply Forall_fmap.
  eapply Forall_impl; [done|]. intros x [_ Hx]. by apply without_String.
Qed.

Definition document (els : list (list string)) : string := cat (String "<" <$> (quoted <$> els)).

Lemma document_app l1 l2 : document (l1 ++ l2) = document l1 +:+ document l2.
Proof. unfold document. by rewrite !fmap_app, cat_app. Qed.

(** The shapes a sequence of elements draws. *)
Definition reads (els : list (list string)) (rs : list Run) (ds : list Dot) : Prop :=
  Forall (Forall clean) els
  /\ exists l, mapM read_element (quoted <$> els) = Some l /\ concat (fst <$> l) = rs /\ concat (snd <$> l) = ds.

Lemma reads_nil : reads [] [] [].
Proof. split; [done|]. by exists []. Qed.

Lemma reads_app l1 l2 rs1 rs2 ds1 ds2 :
  reads l1 rs1 ds1 -> reads l2 rs2 ds2 -> reads (l1 ++ l2)%list (rs1 ++ rs2)%list (ds1 ++ ds2)%list.
Proof.
  intros [H1 (m1 & E1 & <- & <-)] [H2 (m2 & E2 & <- & <-)]. split; [by apply Forall_app_2|].
  exists (m1 ++ m2)%list. rewrite !fmap_app, !concat_app. split; [|done].
  apply mapM_Some_2, Forall2_app; by apply mapM_Some_1.
Qed.

Lemma reads_cons el els rs ds rs0 ds0 :
  Forall clean el -> el <> [] -> read_pieces el = Some (rs0, ds0) -> reads els rs ds -> reads (el :: els) (rs0 ++ rs)%list (ds0 ++ ds)%list.
Proof.
  intros Hc Hne He Hr. apply (reads_app [el] els); [|done]. split; [by constructor|]. exists [(rs0, ds0)].
  simpl. rewrite read_quoted, He by done. simpl. by rewrite !app_nil_r.
Qed.

Lemma read_document els rs ds : reads els rs ds -> read_svg (document els) = Some (rs, ds).
Proof.
  intros [Hc (l & El & <- & <-)]. unfold read_svg, document. rewrite Split_document; [by rewrite El|].
  apply Forall_fmap. eapply Forall_impl; [done|]. apply quoted_without.
Qed.

(** *** The elements of a drawing *)
Definition svg_element (sizePx total : Z) : list string :=
  ["svg xmlns="; "http://www.w3.org/2000/svg"; " width="; Itoa sizePx; " height="; Itoa sizePx; " viewBox=";
   "0 0 " +:+ Itoa total +:+ " " +:+ Itoa total; ">"].
Definition rect_element (total : Z) (bg : NRGBA) : list string :=
  ["rect width="; Itoa total; " height="; Itoa total; " fill="; hexString bg; "/>"].
Definition path_element (fg : string) (rs : list Run) : list string :=
  ["path fill="; fg; " d="; cat (write_run <$> rs); "/>"].
Definition circle_element (d : Dot) : list string :=
  ["circle cx="; half (dot_X d); " cy="; half (dot_Y d); " r="; "0.45"; "/>"].
Definition image_element (x y w h : Z) (mime data : string) : list string :=
  ["image x="; Itoa x; " y="; Itoa y; " width="; Itoa w; " height="; Itoa h; " preserveAspectRatio="; "xMidYMid meet";
   " href="; "data:" +:+ mime +:+ ";base64," +:+ data; "/>"].

Ltac solve_clean :=
  repeat first [ assumption | apply clean_Itoa | apply clean_half | apply clean_EncodeStd
               | apply Forall_cons_2 | apply Forall_nil_2 | apply clean_app | done ].

Lemma reads_head sizePx total bg els rs ds :
  good_colour bg -> reads els rs ds -> reads (svg_element sizePx total :: rect_element total bg :: els) rs ds.
Proof.
  intros Hbg%clean_hexString Hr. apply (reads_cons _ _ _ _ [] []); [solve_clean|done|done|].
  apply (reads_cons _ _ _ _ [] []); [solve_clean|done|done|done].
Qed.

Lemma reads_image x y w h mime data els rs ds :
  clean mime -> clean data -> reads els rs ds -> reads (image_element x y w h mime data :: els) rs ds.
Proof. intros. apply (reads_cons _ _ _ _ [] []); [solve_clean|done|done|done]. Qed.

Lemma reads_skip s els rs ds : clean s -> reads els rs ds -> reads ([s] :: els) rs ds.
Proof. intros. apply (reads_cons _ _ _ _ [] []); [solve_clean|done|done|done]. Qed.

Lemma reads_skip3 s t u els rs ds :
  clean s -> clean t -> clean u -> reads els rs ds -> reads ([s; t; u] :: els) rs ds.
Proof. intros. apply (reads_cons _ _ _ _ [] []); [solve_clean|done|done|done]. Qed.

Lemma write_run_clean r : good_run r -> clean (write_run r).
Proof.
  intros Hr. rewrite write_run_body.
  split; (apply without_String; [done|]); (apply body_without; [done|done|]); set_solver.
Qed.

Lemma reads_path fg r rs : clean fg -> Forall good_run (r :: rs) -> reads [path_element fg (r :: rs)] (r :: rs) [].
Proof.
  intros Hfg Hrs. rewrite <- (app_nil_r (r :: rs)) at 2. apply (reads_cons _ _ _ _ _ []); [|done| |apply reads_nil].
  - assert (Hc : clean (cat (write_run <$> r :: rs))).
    { split; apply without_cat, Forall_fmap; (eapply Forall_impl; [done|]); intros x Hx; by apply write_run_clean. }
    solve_clean.
  - assert (Hp : read_path (cat (write_run <$> r :: rs)) = Some (r :: rs)); [|change (read_pieces _) with (rs0 ← read_path (cat (write_run <$> r :: rs)); Some (rs0, @nil Dot)); by rewrite Hp].
    unfold read_path. replace (write_run <$> r :: rs) with (String "M" <$> (body <$> r :: rs)).
    + rewrite Split_document.
      * apply mapM_Some_2, Forall2_fmap_l, Forall_Forall2_diag. eapply Forall_impl; [done|]. by apply read_body.
      * apply Forall_fmap. eapply Forall_impl; [done|]. intros x Hx. apply body_without; [done|done|]. set_solver.
    + rewrite <- list_fmap_compose. apply list_fmap_ext. intros i x _. symmetry. apply write_run_body.
Qed.

Definition good_dot (d : Dot) : Prop := 0 <= dot_X d /\ 0 <= dot_Y d.

Lemma reads_circles ds : Forall good_dot ds -> reads (circle_element <$> ds) [] ds.
Proof.
  induction 1 as [|d ds [Hx Hy] Hds IH]; [apply reads_nil|].
  apply (reads_cons _ _ _ _ [] [d]); [solve_clean|done| |done].
  unfold read_pieces, circle_element. simpl. unfold read_circle. rewrite !read_half_half by done. cbn [mbind option_bind].
  rewrite !Z.odd_add, !Z.odd_mul. cbn [Z.odd andb xorb]. destruct d as [x y]. cbn [dot_X dot_Y].
  replace ((2 * x + 1) / 2) with x by dlia. by replace ((2 * y + 1) / 2) with y by dlia.
Qed.

(** ** Writing *)
Section writing.
Context {W : Type} (sc : Sched W).

Lemma emit_Ok {A} (write : A -> string) i l st s st' : emit sc write i l st = (Ok s, st') -> s = cat (write <$> l).
Proof.
  revert i st s st'. induction l as [|x l IH]; intros i st s st'; cbn [emit]; [by intros [= <-]|].
  intros (u & st1 & _ & (rest & st2 & E%IH & [= <- <-])%try_inv)%try_inv. by subst.
Qed.

Lemma emit_live {A} (write : A -> string) i l st : live sc -> exists s st', emit sc write i l st = (Ok s, st').
Proof.
  intros Hl. revert i st. induction l as [|x l IH]; intros i st; cbn [emit]; [by eexists _, _|].
  unfold try. rewrite bind_step. destruct st as [n w]. destruct (i mod 1024 =? 0).
  - unfold look, call. rewrite Hl, bind_step. edestruct IH as (s & st' & ->). by eexists _, _.
  - unfold mret, act_ret. rewrite bind_step. edestruct IH as (s & st' & ->). by eexists _, _.
Qed.

Lemma group_Ok {A} before after (write : A -> string) l st s st' :
  group sc before after write l st = (Ok s, st') ->
  s = match l with [] => "" | _ => before +:+ cat (write <$> l) +:+ after end.
Proof.
  unfold group. destruct l as [|x l]; [by intros [= <-]|].
  intros (body & st1 & E%emit_Ok & [= <- <-])%try_inv. by subst.
Qed.

Lemma group_live {A} before after (write : A -> string) l st :
  live sc -> exists s st', group sc before after write l st = (Ok s, st').
Proof.
  intros Hl. unfold group. destruct l as [|x l]; [by eexists _, _|]. unfold try. rewrite bind_step.
  destruct (emit_live write 0 (x :: l) st Hl) as (s & st' & ->). by eexists _, _.
Qed.
End writing.

(** ** The geometry's shapes can be written *)
Section good.
Context (sym : Symbol) (shape : ModuleShape) (margin : Z) (hole : option Rectangle).

Lemma extend_ge fuel x y w : w <= extend sym shape hole fuel x y w.
Proof. revert w. induction fuel as [|k IH]; intros w; cbn [extend]; [lia|]. case_match; [|lia]. specialize (IH (w + 1)). lia. Qed.

Lemma corners_range x y w : 0 <= corners sym shape hole x y w <= 15.
Proof.
  unfold corners. destruct (_ && _); [|lia]. cbv zeta. do 4 (case_match; clear); vm_compute; split; discriminate.
Qed.

Lemma row_from_good fuel x y :
  0 <= margin -> 0 <= x -> 0 <= y ->
  Forall good_run (row_from sym shape margin hole fuel x y).1 /\ Forall good_dot (row_from sym shape margin hole fuel x y).2.
Proof.
  intros Hm Hx Hy. revert x Hx. induction fuel as [|k IH]; intros x Hx; cbn [row_from]; [done|].
  destruct (sym_size sym <=? x); [done|]. destruct (negb _); [apply IH; lia|]. destruct (_ && _).
  - destruct (IH (x + 1) ltac:(lia)) as [H1 H2]. destruct (row_from _ _ _ _ k (x + 1) y). split; [done|].
    constructor; [|done]. split; simpl; lia.
  - pose proof (extend_ge (Z.to_nat (sym_size sym)) x y 1). pose proof (corners_range x y (extend sym shape hole (Z.to_nat (sym_size sym)) x y 1)).
    destruct (IH (x + extend sym shape hole (Z.to_nat (sym_size sym)) x y 1) ltac:(lia)) as [H1 H2].
    destruct (row_from _ _ _ _ k _ y). split; [|done]. constructor; [|done]. repeat split; simpl; lia.
Qed.

Lemma computeGeometry_good :
  0 <= margin -> Forall good_run (Runs (computeGeometry sym shape margin hole))
                 /\ Forall good_dot (Dots (computeGeometry sym shape margin hole)).
Proof.
  intros Hm. cbn [Runs Dots computeGeometry].
  split; apply Forall_concat, Forall_fmap, Forall_fmap, Forall_forall; intros y [Hy _]%elem_of_seqZ;
    by apply row_from_good.
Qed.
End good.

Lemma count_true_split {A} (P : A -> Prop) `{!forall x, Decision (P x)} (f : A -> bool) l :
  count_true f (filter P l ++ filter (fun x => ~ P x) l)%list = count_true f l.
Proof.
  unfold count_true. rewrite sumZ_app. induction l as [|x l IH]; [done|]. rewrite !filter_cons.
  destruct (decide (P x)), (decide (~ P x)); try tauto; unfold sumZ in *; cbn [foldr]; lia.
Qed.

(** ** From the options to the shapes *)
Lemma hexNibble_range c v : hexNibble c = Some v -> 0 <= v < 16.
Proof.
  unfold hexNibble, is_digit. pose proof (code_bounds c).
  destruct (Z.leb_spec 48 (code c)), (Z.leb_spec (code c) 57), (Z.leb_spec 97 (code c)), (Z.leb_spec (code c) 102),
    (Z.leb_spec 65 (code c)), (Z.leb_spec (code c) 70); simpl; intros [= <-]; lia.
Qed.

Lemma nibbles_range h l : 0 <= h < 16 -> 0 <= l < 16 -> 0 <= Z.lor (Z.shiftl h 4) l < 256.
Proof.
  intros Hh Hl.
  assert (Hall : forallb (fun n => forallb (fun m => let v := Z.lor (Z.shiftl (Z.of_nat n) 4) (Z.of_nat m) in
    (0 <=? v) && (v <? 256)) (seq 0 16)) (seq 0 16) = true) by (vm_compute; reflexivity).
  rewrite forallb_forall in Hall. specialize (Hall (Z.to_nat h) ltac:(apply in_seq; lia)).
  rewrite forallb_forall in Hall. specialize (Hall (Z.to_nat l) ltac:(apply in_seq; lia)). cbv zeta in Hall.
  rewrite !Z2Nat.id in Hall by lia. lia.
Qed.

Lemma hexByte_range hi lo v : hexByte hi lo = Some v -> 0 <= v < 256.
Proof.
  unfold hexByte. destruct (hexNibble hi) as [h|] eqn:Eh; [|done]. destruct (hexNibble lo) as [l|] eqn:El; [|done].
  apply hexNibble_range in Eh, El. intros [= <-]. by apply nibbles_range.
Qed.

Lemma ParseHexColor_good s c : ParseHexColor s = Some c -> good_colour c.
Proof.
  unfold ParseHexColor. destruct (bytes s) as [|hash [|r1 [|r0 [|g1 [|g0 [|b1 [|b0 [|]]]]]]]]; try done.
  destruct (negb _); [done|]. destruct (hexByte r1 r0) eqn:E1; [|done]. destruct (hexByte g1 g0) eqn:E2; [|done].
  destruct (hexByte b1 b0) eqn:E3; [|done]. intros [= <-].
  apply hexByte_range in E1, E2, E3. done.
Qed.

Section drawing.
Context `{QE : QrEncoder} `{IC : ImageCodecs} `{FM : FloatMath}.

Lemma decodeLogo_mime data l : decodeLogo data = Ok l -> clean (dl_mime l).
Proof.
  unfold decodeLogo. destruct data as [|b data]; [done|]. set (d := b :: data). clearbody d.
  destruct (_ <? _); [done|]. destruct (image_DecodeConfig d) as [[[format w] h]|]; [|done].
  destruct (String.eqb format "png"); [|destruct (String.eqb format "jpeg"); [|done]];
    (destruct (_ || _); [done|]; destruct (image_Decode _ d); [|done]; by intros [= <-]).
Qed.

(** The square cleared for the logo, in modules of the symbol. *)
Definition cleared (p : Prepared) : option Rectangle :=
  match p_dlogo p, o_Logo (p_opts p) with
  | Some _, Some l => Some (logoHole (sym_size (p_sym p)) (logo_Scale l))
  | _, _ => None
  end.

Lemma Prepare_drawing r env1 env2 opts p :
  Prepare r env1 env2 opts = Ok p ->
  p_opts p = with_defaults opts /\ 0 <= o_Margin opts
  /\ p_geo p = computeGeometry (p_sym p) (o_Shape (with_defaults opts)) (o_Margin opts) (cleared p)
  /\ good_colour (p_fg p) /\ good_colour (p_bg p)
  /\ match p_dlogo p with Some l => clean (dl_mime l) | None => True end.
Proof.
  unfold Prepare, normalise. set (o := with_defaults opts). change (o_Margin opts) with (o_Margin o).
  destruct (negb (bool_decide (o_Format o ∈ _))); [done|].
  destruct (ParseHexColor (o_FgColor o)) as [fg|] eqn:Ef; [|done].
  destruct (ParseHexColor (o_BgColor o)) as [bg|] eqn:Eb; [|done].
  destruct (negb (bool_decide (o_Shape o ∈ _))); [done|].
  destruct ((o_Margin o <? 0) || (64 <? o_Margin o)) eqn:Hm; [done|].
  destruct (o_SizePx o <? 1); [done|]. destruct (levelRank (o_ECLevel o) <? 0); [done|].
  destruct (match o_Logo o with Some l => _ | None => false end); [done|].
  destruct (checkSize _ _); [done|]. destruct (checkContrast _ _ _); [done|].
  destruct (prepare_logo o) as [[eff logo]|] eqn:Hlogo; [|done]. destruct (checkPayload _ _ _); [done|].
  destruct (ctx_Err env1); [done|]. destruct (Encode (o_Content o) eff) as [sym|]; [|done].
  destruct (ctx_Err env2); [done|]. intros [= <-]. unfold cleared. cbn [p_opts p_geo p_fg p_bg p_dlogo p_sym].
  apply orb_false_elim in Hm as [Hm%Z.ltb_ge _].
  repeat match goal with |- _ /\ _ => split end; [done|done|reflexivity|by eapply ParseHexColor_good..|].
  revert Hlogo. unfold prepare_logo. destruct (o_Logo o) as [l|]; [|by intros [= _ <-]].
  destruct (resolveLogoLevel _ _ _); [|done]. destruct (decodeLogo _) as [d|] eqn:Ed; [|done]. intros [= _ <-].
  by eapply decodeLogo_mime.
Qed.

Lemma reads_logo h l els rs ds :
  clean (dl_mime l) -> reads els rs ds ->
  exists es, writeLogo h l = document es /\ reads (es ++ els)%list rs ds.
Proof.
  intros Hm Hr.
  exists [image_element (MinX h + 1) (MinY h + 1) (MaxX h - MinX h - 2) (MaxY h - MinY h - 2) (dl_mime l) (EncodeStd (dl_raw l))].
  split; [|apply reads_image; [done|apply clean_EncodeStd|done]].
  unfold writeLogo, document, image_element, q. cbn [fmap list_fmap cat foldr quoted]. solve_text.
Qed.

Lemma Forall_kept {A} (P Q : A -> Prop) `{!forall x, Decision (P x)} l :
  Forall Q l -> Forall Q (filter P l) /\ Forall P (filter P l).
Proof.
  rewrite !Forall_forall. intros Hq. split; intros x [Hp Hx]%list_elem_of_filter; [by apply Hq|done].
Qed.

Lemma write_plain rs : Forall (fun r => Corners r = 0) rs -> writePlainRun <$> rs = write_run <$> rs.
Proof.
  intros H. apply list_fmap_ext. intros i r Hr. rewrite Forall_lookup in H. unfold write_run. by rewrite (H _ _ Hr).
Qed.

Lemma write_rounded rs : Forall (fun r => Corners r <> 0) rs -> writeRoundedRun <$> rs = write_run <$> rs.
Proof.
  intros H. apply list_fmap_ext. intros i r Hr. rewrite Forall_lookup in H. unfold write_run.
  specialize (H _ _ Hr). apply Z.eqb_neq in H. by rewrite H.
Qed.

(** A path, or nothing when there is no run. *)
Lemma reads_runs fg (write : Run -> string) rs els rs' ds :
  clean fg -> Forall good_run rs -> write <$> rs = write_run <$> rs -> reads els rs' ds ->
  exists es, match rs with [] => "" | _ => ("<path fill=" +:+ q +:+ fg +:+ q +:+ " d=" +:+ q) +:+ cat (write <$> rs) +:+ (q +:+ "/>") end
    = document es /\ reads (es ++ els)%list (rs ++ rs')%list ds.
Proof.
  intros Hfg Hrs -> Hr. destruct rs as [|r rs]; [by exists []|].
  exists [path_element fg (r :: rs)]. split; [|by apply (reads_app _ _ _ _ []); [apply reads_path|]].
  unfold document, path_element, q. cbn [fmap list_fmap cat foldr quoted]. solve_text.
Qed.

Lemma circle_text d : writeDot d = String "<" (quoted (circle_element d)).
Proof. unfold writeDot, circle_element, q. cbn [fmap list_fmap cat foldr quoted]. solve_text. Qed.

Lemma reads_dots fg ds els rs ds' :
  clean fg -> Forall good_dot ds -> reads els rs ds' ->
  exists es, match ds with [] => "" | _ => ("<g fill=" +:+ q +:+ fg +:+ q +:+ ">") +:+ cat (writeDot <$> ds) +:+ "</g>" end
    = document es /\ reads (es ++ els)%list rs (ds ++ ds')%list.
Proof.
  intros Hfg Hds Hr. destruct ds as [|d0 ds0]; [by exists []|]. set (ds := d0 :: ds0) in *. clearbody ds.
  exists ([["g fill="; fg; ">"]] ++ (circle_element <$> ds) ++ [["/g>"]])%list. split.
  - rewrite !document_app. f_equal; [|f_equal].
    + unfold document, q. cbn [fmap list_fmap cat foldr quoted]. solve_text.
    + unfold document. rewrite <- !list_fmap_compose. apply (f_equal cat), list_fmap_ext. intros i d _. apply circle_text.
  - rewrite <- !app_assoc. apply (reads_app _ _ [] rs [] (ds ++ ds')%list); [apply reads_skip3; [done..|apply reads_nil]|].
    apply (reads_app _ _ [] rs ds ds'); [by apply reads_circles|]. by apply reads_skip.
Qed.

Lemma head_text sizePx total bg : writeSVGHead sizePx total bg = document [svg_element sizePx total; rect_element total bg].
Proof. unfold writeSVGHead, document, svg_element, rect_element, q. cbn [fmap list_fmap cat foldr quoted]. solve_text. Qed.

(** C20: a vector drawing shows the symbol.  For every prepared code, the
    document is written whenever the context stays live; and whenever a
    document is returned, under any schedule, reading its shapes back from the
    text covers each dark module of the symbol outside the logo's square
    exactly once, and no other: no value written into an attribute, the
    colours and the logo's bytes included, can disturb the markup. *)
Theorem renderSVG_shows {W} (sc : Sched W) (r : QrRenderer) (env1 env2 : Env) (opts : Options) (p : Prepared) :
  Prepare r env1 env2 opts = Ok p ->
  (live sc -> forall st, exists doc st', renderSVG sc p st = (Ok doc, st'))
  /\ forall st doc st', renderSVG sc p st = (Ok doc, st') ->
     exists rs ds, read_svg doc = Some (rs, ds)
       /\ forall x y, let m := o_Margin opts in
          count_true (in_run (x + m) (y + m)) rs + count_true (in_dot (x + m) (y + m)) ds
          = b2z (dark (p_sym p) (cleared p) x y).
Proof.
  intros (_ & Hm & Hgeo & Hfg & Hbg & Hmime)%Prepare_drawing. split.
  { intros Hl st. unfold renderSVG. cbv zeta. unfold try.
    do 3 (rewrite bind_step; match goal with |- context [group sc ?b ?a ?wr ?l ?s] =>
      destruct (group_live sc b a wr l s Hl) as (? & ? & ->) end). by eexists _, _. }
  intros st doc st' (a & st1 & Ea%group_Ok & (b & st2 & Eb%group_Ok & (c & st3 & Ec%group_Ok & [= <- _])%try_inv)%try_inv)%try_inv.
  destruct (computeGeometry_good (p_sym p) (o_Shape (with_defaults opts)) (o_Margin opts) (cleared p) Hm) as [Hruns Hdots].
  rewrite <- Hgeo in Hruns, Hdots. set (plain := filter (fun r => Corners r = 0) (Runs (p_geo p))) in *.
  set (rounded := filter (fun r => Corners r <> 0) (Runs (p_geo p))) in *.
  assert (Hend : reads [["/svg>" +:+ String "010" ""]] [] []) by (apply reads_skip; [done|apply reads_nil]).
  assert (Himg : exists es, match p_dlogo p with Some l => writeLogo (default empty_rect (Hole (p_geo p))) l | None => "" end
     = document es /\ reads (es ++ [["/svg>" +:+ String "010" ""]])%list [] []).
  { destruct (p_dlogo p) as [l|]; [by apply reads_logo|by exists []]. }
  destruct Himg as (e1 & -> & H1). pose proof (clean_hexString _ Hfg) as Hcfg.
  destruct (reads_dots _ (Dots (p_geo p)) _ _ _ Hcfg Hdots H1) as (e2 & E2 & H2). rewrite <- Ec in E2.
  destruct (Forall_kept (fun r => Corners r = 0) _ _ Hruns) as [Hg0 Hp0].
  destruct (Forall_kept (fun r => Corners r <> 0) _ _ Hruns) as [Hg1 Hp1].
  destruct (reads_runs _ writeRoundedRun rounded _ _ _ Hcfg Hg1 (write_rounded _ Hp1) H2)
    as (e3 & E3 & H3). rewrite <- Eb in E3.
  destruct (reads_runs _ writePlainRun plain _ _ _ Hcfg Hg0 (write_plain _ Hp0) H3)
    as (e4 & E4 & H4). rewrite <- Ea in E4.
  exists (plain ++ rounded ++ [])%list, (Dots (p_geo p) ++ [])%list. split.
  - erewrite <- read_document; [|by apply (reads_head (o_SizePx (p_opts p)) (Total (p_geo p)) (p_bg p))].
    f_equal. rewrite E2, E3, E4. change (svg_element ?a ?b :: ?x :: ?l) with ([svg_element a b; x] ++ l)%list.
    by rewrite (document_app [_; _]), !(document_app e4), !(document_app e3), !(document_app e2), !(document_app e1), head_text.
  - intros x y m. rewrite !app_nil_r. unfold plain, rounded. rewrite count_true_split. rewrite Hgeo.
    apply computeGeometry_exact.
Qed.
End drawing.

(** ** Witness: rounded runs and a logo, on a striped symbol *)
#[local] Instance striped : QrEncoder :=
  {| goqr_MakeBytes := fun _ => None; goqr_EncodeSegments := fun _ _ => Ok (21, fun x y => negb ((x + 2 * y) mod 5 =? 0)) |}.
#[local] Instance any_image : ImageCodecs :=
  {| Image := unit; image_DecodeConfig := fun _ => Some ("png", 8, 8); image_Decode := fun _ _ => Some tt |}.
#[local] Instance flat_pow : FloatMath := {| math_Pow := fun a _ => a |}.

Definition rounded_with_logo : Options := {|
  o_Content := bytes "https://example.com"; o_Format := "svg"; o_FgColor := ""; o_BgColor := ""; o_Shape := ShapeRounded; o_Margin := 4;
  o_SizePx := 0; o_ECLevel := ECHigh; o_Logo := Some {| logo_Image := bytes "image"; logo_Scale := f64_lit 18 100; AutoRaise := true |} |}.

Definition calm : Sched unit := {| sc_env := fun _ => env0; sc_others := fun _ w => w |}.

Definition drawn : option string :=
  match Prepare (NewRenderer DefaultBounds []) env0 env0 rounded_with_logo with
  | Ok p => match renderSVG calm p (0%nat, tt) with (Ok doc, _) => Some doc | _ => None end
  | Err _ => None
  end.

Lemma renderSVG_shows_witness :
  exists p, Prepare (NewRenderer DefaultBounds []) env0 env0 rounded_with_logo = Ok p
    /\ exists doc st', renderSVG calm p (0%nat, tt) = (Ok doc, st')
    /\ exists rs ds, read_svg doc = Some (rs, ds)
       /\ count_true (in_run 5 4) rs + count_true (in_dot 5 4) ds = b2z (dark (p_sym p) (cleared p) 1 0).
Proof.
  assert (F : is_Some drawn) by (vm_compute; by eexists). revert F. unfold drawn.
  destruct (Prepare (NewRenderer DefaultBounds []) env0 env0 rounded_with_logo) as [p|e] eqn:E; [|by intros []]. intros _.
  exists p. split; [done|].
  destruct (renderSVG_shows calm (NewRenderer DefaultBounds []) env0 env0 rounded_with_logo p E) as [Hl Hs].
  destruct (Hl (fun _ => eq_refl) (0%nat, tt)) as (doc & st' & Ed). exists doc, st'. split; [done|].
  destruct (Hs _ _ _ Ed) as (rs & ds & Er & Hc). exists rs, ds. split; [done|]. exact (Hc 1 0).
Defined.
