(* ===== verification/QrApi.v ===== *)
(** * Ephemeral generation ([internal/httpapi/v1/qr.go])

    [GET] and [POST /v1/qr]: reading a request in its three forms, the schema
    it is held to, the error envelope of every failure, and the response.  The
    handler has neither a store nor a blob store.  What the schema accepts is
    within what the renderer accepts, in each of the three forms. *)
From Stdlib Require Import Ascii String.
From S2P Require Import GoLib Text Http Domain GoUrl Base64 QrPolicy Blob Public Qr.
Local Open Scope string_scope.
Local Open Scope Z_scope.

(** The renderer, as the handlers call it. *)
Record RenderResult := {
  res_Bytes : list ascii;
  res_ContentType : string;
  res_ECLevel : ECLevel;
  res_ECLevelEffective : ECLevel;
  res_Version : Z;
}.
Class QrRender := { qr_Render : Env -> Options -> result RenderResult }.

(** [mime.ParseMediaType], the type only; [r.ParseMultipartForm] of a body
    bounded by a limit, each file with its content unless it cannot be read;
    [strconv.ParseFloat]. *)
Class FormParsers := {
  mime_ParseMediaType : string -> option string;
  ParseMultipartForm : string -> Z -> list ascii -> option (gmap string (list string) * gmap string (list (option (list ascii))));
  strconv_ParseFloat : string -> option float64;
}.

Definition defaultLogoScale : float64 := f64_lit 15 100.
Definition maxBody : Z := Z.shiftl 64 10 + Z.quot (MaxLogoBytes * 4) 3.

(** ** Wire shapes: [None] is an absent member *)
Record logoSpec := {
  ImageBase64 : string;
  ls_Scale : option float64;
  ls_AutoRaise : option bool;
}.

Record qrStylingRequest := {
  sr_FgColor : option string;
  sr_BgColor : option string;
  sr_ModuleShape : option string;
  sr_MarginModules : option Z;
  sr_SizePx : option Z;
  sr_ECLevel : option string;
  sr_Logo : option logoSpec;
}.
Definition no_styling : qrStylingRequest := {|
  sr_FgColor := None; sr_BgColor := None; sr_ModuleShape := None; sr_MarginModules := None; sr_SizePx := None;
  sr_ECLevel := None; sr_Logo := None |}.

Record generateRequest := {
  gr_Content : string;
  gr_Format : option string;
  gr_Styling : option qrStylingRequest;
}.

(** ** Validation *)
Definition bad {A} (field msg : string) : result A := Err (FieldError field msg).

(** [hexColorRe]. *)
Definition is_hex (c : ascii) : bool := bool_decide (is_Some (hexNibble c)).
Definition hexColor (s : string) : bool :=
  match bytes s with
  | [h; a; b; c; d; e; f] => Ascii.eqb h "#" && forallb is_hex [a; b; c; d; e; f]
  | _ => false
  end.

Definition validateLogo (l : Logo) : option error :=
  if f64_ltb (logo_Scale l) (f64_lit 1 100) || f64_ltb MaxLogoScale (logo_Scale l)
  then Some (FieldError "logo.scale" ("must be between 0.01 and " +:+ FormatFixed 2 MaxLogoScale)) else None.

(** [logoSpec.decode]. *)
Definition decode_logo (l : logoSpec) : result Logo :=
  let field := "logo.image_base64" in
  if String.eqb (ImageBase64 l) "" then bad field "is required"
  else if Z.quot (MaxLogoBytes * 4) 3 + 4 <? len (ImageBase64 l)
  then bad field ("must decode to at most " +:+ Itoa MaxLogoBytes +:+ " bytes")
  else match DecodeStd (ImageBase64 l) with
  | None => bad field "is not valid base64"
  | Some data =>
      let logo := {| logo_Image := data; logo_Scale := default defaultLogoScale (ls_Scale l);
                     AutoRaise := default true (ls_AutoRaise l) |} in
      match validateLogo logo with Some e => Err e | None => Ok logo end
  end.

(** An optional member: its default, or its value if it passes. *)
Definition opt_field {A} (v : option A) (dflt : A) (ok : A -> bool) (field msg : string) : result A :=
  match v with
  | None => Ok dflt
  | Some x => if ok x then Ok x else bad field msg
  end.

Definition known_shape (s : string) : bool := bool_decide (s ∈ [ShapeSquare; ShapeDot; ShapeRounded]).
Definition known_level (s : string) : bool := bool_decide (s ∈ [ECLow; ECMedium; ECQuartile; ECHigh]).

Notation "x <-? m ; k" := (match m with Ok x => k | Err e => Err e end)
  (at level 20, m at level 100, k at level 200) : go_scope.
Local Open Scope go_scope.

(** [toOptions]; an absent colour is the empty string, whose default the
    renderer knows. *)
Definition toOptions (g : generateRequest) : result Options :=
  if String.eqb (gr_Content g) "" then bad "content" "is required"
  else
    format <-? opt_field (gr_Format g) FormatPNG (fun s => bool_decide (s ∈ [FormatPNG; FormatSVG])) "format" "must be png or svg";
    let s := default no_styling (gr_Styling g) in
    fg <-? opt_field (sr_FgColor s) "" hexColor "fg_color" "must be #RRGGBB";
    bg <-? opt_field (sr_BgColor s) "" hexColor "bg_color" "must be #RRGGBB";
    shape <-? opt_field (sr_ModuleShape s) "" known_shape "module_shape" "must be square, dot or rounded";
    margin <-? opt_field (sr_MarginModules s) 4 (fun m => (4 <=? m) && (m <=? 64)) "margin_modules" "must be between 4 and 64";
    size <-? opt_field (sr_SizePx s) 512 (fun n => 64 <=? n) "size_px" "must be at least 64";
    level <-? opt_field (sr_ECLevel s) ECMedium known_level "ec_level" "must be L, M, Q or H";
    logo <-? match sr_Logo s with
             | None => Ok None
             | Some l => match decode_logo l with Ok logo => Ok (Some logo) | Err e => Err e end
             end;
    Ok {| o_Content := bytes (gr_Content g); o_Format := format; o_FgColor := fg; o_BgColor := bg; o_Shape := shape;
          o_Margin := margin; o_SizePx := size; o_ECLevel := level; o_Logo := logo |}.

(** ** The three forms of a request *)
(** [strconv.Atoi]. *)
Definition Atoi (s : string) : option Z :=
  let '(neg, ds) := match bytes s with
                    | c :: l => if Ascii.eqb c "-" then (true, l) else if Ascii.eqb c "+" then (false, l) else (false, c :: l)
                    | [] => (false, [])
                    end in
  if forallb is_digit ds && negb (bool_decide (ds = [])) then
    let v := if neg : bool then - digits_value ds else digits_value ds in
    if (- 2 ^ 63 <=? v) && (v <? 2 ^ 63) then Some v else None
  else None.

(** [strconv.ParseBool]. *)
Definition ParseBool (s : string) : option bool :=
  if bool_decide (s ∈ ["1"; "t"; "T"; "TRUE"; "true"; "True"]) then Some true
  else if bool_decide (s ∈ ["0"; "f"; "F"; "FALSE"; "false"; "False"]) then Some false
  else None.

(** [num]: a named integer, if it is there. *)
Definition num (str : string -> option string) (k : string) : result (option Z) :=
  match str k with
  | None => Ok None
  | Some s => match Atoi s with Some n => Ok (Some n) | None => bad k "must be an integer" end
  end.

(** The request a lookup of named strings gives. *)
Definition form_request (str : string -> option string) (content : string) : result generateRequest :=
  margin <-? num str "margin_modules";
  size <-? num str "size_px";
  Ok {| gr_Content := content; gr_Format := str "format";
        gr_Styling := Some {|
          sr_FgColor := str "fg_color"; sr_BgColor := str "bg_color"; sr_ModuleShape := str "module_shape";
          sr_MarginModules := margin; sr_SizePx := size; sr_ECLevel := str "ec_level"; sr_Logo := None |} |}.

Definition query_str (q : Values) (k : string) : option string :=
  if Values_Has q k then Some (Values_Get q k) else None.

Definition parseQuery (r : HttpRequest) : result Options :=
  g <-? form_request (query_str (hr_Query r)) (Values_Get (hr_Query r) "content"); toOptions g.

Definition jsonReason (e : json_error) : string :=
  match e with
  | SyntaxError off => "syntax error at offset " +:+ Itoa off
  | UnmarshalTypeError f => "wrong type for field " +:+ f
  | UnknownField text => text
  | UnexpectedEnd => "unexpected end of input"
  | OtherJSONError => "invalid"
  end.

Definition form_str (f : Values) (k : string) : option string := f !! k ≫= head.

Section qr.
Context `{JD : JsonDecode generateRequest} `{FP : FormParsers} `{QR : QrRender} `{SH : SHA256}.

Definition parseJSON (r : HttpRequest) : result Options :=
  match json_Decode (LimitReader (maxBody + 1) (hr_Body r)) with
  | Err e => bad "body" ("malformed JSON: " +:+ jsonReason e)
  | Ok (_, true) => bad "body" "trailing data after the JSON object"
  | Ok (req, false) => toOptions req
  end.

(** The logo part of a form. *)
Definition form_logo (f : Values) (file : option (list ascii)) : result Logo :=
  match file with
  | None => bad "logo" "could not be read"
  | Some content =>
      let data := LimitReader (MaxLogoBytes + 1) content in
      if MaxLogoBytes <? Z.of_nat (length data)
      then bad "logo" ("must be at most " +:+ Itoa MaxLogoBytes +:+ " bytes")
      else
        scale <-? match form_str f "logo_scale" with
                  | None => Ok defaultLogoScale
                  | Some s => match strconv_ParseFloat s with Some v => Ok v | None => bad "logo_scale" "must be a number" end
                  end;
        raise <-? match form_str f "logo_auto_raise" with
                  | None => Ok true
                  | Some s => match ParseBool s with Some v => Ok v | None => bad "logo_auto_raise" "must be true or false" end
                  end;
        let logo := {| logo_Image := data; logo_Scale := scale; AutoRaise := raise |} in
        match validateLogo logo with Some e => Err e | None => Ok logo end
  end.

Definition set_o_Logo (l : Logo) (o : Options) : Options := {|
  o_Content := o_Content o; o_Format := o_Format o; o_FgColor := o_FgColor o; o_BgColor := o_BgColor o; o_Shape := o_Shape o;
  o_Margin := o_Margin o; o_SizePx := o_SizePx o; o_ECLevel := o_ECLevel o; o_Logo := Some l |}.

Definition parseMultipart (r : HttpRequest) : result Options :=
  match ParseMultipartForm (hr_Header r "Content-Type") maxBody (hr_Body r) with
  | None => bad "body" "malformed or oversized multipart body"
  | Some (f, files) =>
      g <-? form_request (form_str f) (default "" (form_str f "content"));
      opts <-? toOptions g;
      match files !! "logo" with
      | Some (file :: _) => logo <-? form_logo f file; Ok (set_o_Logo logo opts)
      | _ => Ok opts
      end
  end.

Definition parseBody (r : HttpRequest) : result Options :=
  match mime_ParseMediaType (hr_Header r "Content-Type") with
  | None => bad "content-type" "is missing or malformed"
  | Some mt =>
      if String.eqb mt "application/json" then parseJSON r
      else if String.eqb mt "multipart/form-data" then parseMultipart r
      else bad "content-type" "must be application/json or multipart/form-data"
  end.

(** ** Errors *)
Definition qrErrorDetail (e : error) : option ErrorDetail :=
  let detail code msg ds := Some {| ed_Code := code; ed_Message := msg; ed_Details := ds |} in
  match errors_As (fun e => match e with ContrastTooLowError r m => Some (r, m) | _ => None end) e with
  | Some (ratio, minimum) =>
      detail CodeContrastTooLow
        ("Foreground/background contrast is " +:+ FormatFixed 2 ratio +:+ ":1; at least " +:+ FormatFixed 1 minimum +:+ ":1 is required.")
        [("ratio", DFloat ratio); ("minimum", DFloat minimum)]
  | None =>
  match errors_As (fun e => match e with LogoTooLargeError s m l => Some (s, m, l) | _ => None end) e with
  | Some (scale, maxScale, level) =>
      detail CodeLogoTooLarge
        ("Logo covers " +:+ FormatFixed 0 (f64_mul scale (f64_of_Z 100)) +:+ "% of the symbol; the maximum at error correction level "
           +:+ level +:+ " is " +:+ FormatFixed 0 (f64_mul maxScale (f64_of_Z 100)) +:+ "%.")
        [("scale", DFloat scale); ("max_scale", DFloat maxScale); ("ec_level", DStr level)]
  | None =>
  match errors_As (fun e => match e with FieldError f m => Some (f, m) | _ => None end) e with
  | Some (field, msg) =>
      detail CodeInvalidRequest ("Parameter '" +:+ field +:+ "' " +:+ msg +:+ ".") [("field", DStr field)]
  | None =>
  match errors_As (fun e => match e with InvalidOptionError f r => Some (f, r) | _ => None end) e with
  | Some (field, reason) =>
      detail CodeInvalidRequest ("Parameter '" +:+ field +:+ "' is invalid: " +:+ reason +:+ ".") [("field", DStr field)]
  | None =>
  match errors_As (fun e => match e with ContentTooLargeError l a ec => Some (l, a, ec) | _ => None end) e with
  | Some (limit, actual, level) =>
      detail CodeContentTooLarge
        ("Content is " +:+ Itoa actual +:+ " bytes; the maximum at error correction level " +:+ level +:+ " is "
           +:+ Itoa limit +:+ " bytes.")
        [("limit_bytes", DInt limit); ("actual_bytes", DInt actual); ("ec_level", DStr level)]
  | None =>
  match errors_As (fun e => match e with DimensionsExceededError r m => Some (r, m) | _ => None end) e with
  | Some (requested, maximum) =>
      detail CodeDimensionsExceeded
        ("Requested size " +:+ Itoa requested +:+ "px exceeds the configured maximum of " +:+ Itoa maximum +:+ "px.")
        [("requested", DInt requested); ("maximum", DInt maximum)]
  | None =>
  match errors_As (fun e => match e with RenderTimeoutError t => Some t | _ => None end) e with
  | Some timeout =>
      let ms := Z.quot timeout 1000000 in
      detail CodeRenderTimeout ("Rendering exceeded the " +:+ Itoa ms +:+ "ms budget.") [("timeout_ms", DInt ms)]
  | None => None
  end end end end end end end.

Definition writeQRError (e : error) (h : gmap string string) : Response :=
  if errors_Is e Canceled then Silent h
  else match qrErrorDetail e with
  | None => Internal h
  | Some d => WriteError (ed_Code d) (ed_Message d) (ed_Details d) h
  end.

(** ** The handler *)
Definition writeImage (r : HttpRequest) (res : RenderResult) : Response :=
  let etag := quoted (hex_EncodeToString (sha256_Sum256 (res_Bytes res))) in
  let hd := <["X-Content-Type-Options" := "nosniff"]>
              (<["Cache-Control" := "public, max-age=31536000, immutable"]> (<["Etag" := etag]> ∅)) in
  if etagMatches (hr_Header r "If-None-Match") etag then WriteStatus 304 hd
  else {| rs_Status := 200;
          rs_Header := <["Content-Length" := Itoa (Z.of_nat (length (res_Bytes res)))]>
                         (<["Content-Type" := res_ContentType res]> hd);
          rs_Body := Raw (res_Bytes res) |}.

(** [handle]; [env] is the request's context. *)
Definition qr_handle (env : Env) (r : HttpRequest) : Response :=
  let finish opts :=
    match opts with
    | Err e => writeQRError e ∅
    | Ok o => match qr_Render env o with Err e => writeQRError e ∅ | Ok res => writeImage r res end
    end in
  if String.eqb (hr_Method r) "GET" then finish (parseQuery r)
  else if String.eqb (hr_Method r) "POST" then finish (parseBody r)
  else WriteError CodeInvalidRequest "Method not allowed." [] (<["Allow" := "GET, POST"]> ∅).

(** [NewQRHandler] and [ServeHTTP]: who may ask.  [limiter] answers in the
    handler's place when the peer is over its quota; it guards the public
    configuration only. *)
Definition qr_ServeHTTP (public : bool) (isAuthed : option (HttpRequest -> bool)) (limiter : option (HttpRequest -> option Response))
    (env : Env) (r : HttpRequest) : Response :=
  if negb public && negb (match isAuthed with Some f => f r | None => false end)
  then WriteError CodeUnauthorized "A valid credential is required." [] ∅
  else match (if public then limiter else None) with
  | Some limit => match limit r with Some refused => refused | None => qr_handle env r end
  | None => qr_handle env r
  end.
End qr.

Lemma hexColor_parses s : hexColor s = true -> is_Some (ParseHexColor s).
Proof.
  unfold hexColor, ParseHexColor. destruct (bytes s) as [|h [|r1 [|r0 [|g1 [|g0 [|b1 [|b0 [|]]]]]]]]; try done.
  intros [Hh H]%andb_prop. rewrite Hh. cbn [negb forallb] in *. unfold is_hex in H.
  repeat (apply andb_prop in H as [?%bool_decide_eq_true H]). unfold hexByte.
  repeat match goal with E : is_Some (hexNibble _) |- _ => destruct E as [? ->] end. by eexists.
Qed.

Lemma opt_field_Ok {A} (v : option A) d ok f m x : opt_field v d ok f m = Ok x -> x = d \/ ok x = true.
Proof. unfold opt_field. destruct v as [y|]; [|by intros [= <-]; left]. destruct (ok y) eqn:E; [|done]. intros [= <-]. by right. Qed.

(** A scale that passes the schema is not refused by the renderer, [NaN] included. *)
Lemma scale_not_below m e s : SFltb s (S754_finite false m e) = false -> SFleb s (S754_zero false) = false.
Proof. destruct s as [[]|[]| |[] m' e']; try done. Qed.

Lemma validateLogo_scale l :
  validateLogo l = None -> f64_leb (logo_Scale l) f64_zero || f64_ltb MaxLogoScale (logo_Scale l) = false.
Proof.
  unfold validateLogo. destruct (f64_ltb (logo_Scale l) (f64_lit 1 100)) eqn:E; [done|]. simpl.
  destruct (f64_ltb MaxLogoScale (logo_Scale l)); [done|]. intros _. rewrite orb_false_r.
  unfold f64_ltb, f64_leb, f64_zero in *.
  assert (Hc : exists m e, f64_lit 1 100 = S754_finite false m e) by (vm_compute; by do 2 eexists).
  destruct Hc as (m & e & Hc). rewrite Hc in E. by eapply scale_not_below.
Qed.

Definition logo_ok (l : option Logo) : Prop := match l with Some l => validateLogo l = None | None => True end.

Lemma normalise_ok o :
  o_Format o ∈ [FormatPNG; FormatSVG] ->
  (o_FgColor o = "" \/ hexColor (o_FgColor o) = true) -> (o_BgColor o = "" \/ hexColor (o_BgColor o) = true) ->
  (o_Shape o = "" \/ known_shape (o_Shape o) = true) -> 0 <= o_Margin o <= 64 -> 1 <= o_SizePx o ->
  known_level (o_ECLevel o) = true -> logo_ok (o_Logo o) ->
  exists fg bg, normalise o = Ok (with_defaults o, fg, bg).
Proof.
  intros Hf Hfg Hbg Hs Hm Hp Hl Hlg. unfold normalise.
  assert (Hcol : forall c d, (c = "" \/ hexColor c = true) -> hexColor d = true -> is_Some (ParseHexColor (or_default c d))).
  { intros c d [->|Hc] Hd; unfold or_default; [by apply hexColor_parses|].
    destruct (String.eqb c ""); by apply hexColor_parses. }
  destruct (Hcol _ "#000000" Hfg eq_refl) as [fg Efg]. destruct (Hcol _ "#FFFFFF" Hbg eq_refl) as [bg Ebg].
  exists fg, bg. unfold known_level, known_shape in *. bool_to_prop.
  cbn [with_defaults o_Format o_FgColor o_BgColor o_Shape o_Margin o_SizePx o_ECLevel o_Logo]. rewrite Efg, Ebg.
  assert (Hd : forall s d, s <> "" -> or_default s d = s) by (intros s d H; unfold or_default; by apply String.eqb_neq in H as ->).
  rewrite (Hd (o_Format o)) by (intros E; rewrite E in Hf; set_solver).
  rewrite (Hd (o_ECLevel o)) by (intros E; rewrite E in Hl; set_solver).
  rewrite bool_decide_eq_true_2 by done. cbn [negb].
  rewrite bool_decide_eq_true_2.
  2:{ destruct Hs as [->|Hs]; [unfold or_default; simpl; left|]. apply bool_decide_eq_true in Hs.
      rewrite Hd by (intros E; rewrite E in Hs; set_solver). done. }
  cbn [negb]. destruct (Z.ltb_spec (o_Margin o) 0), (Z.ltb_spec 64 (o_Margin o)); try lia. cbn [orb].
  destruct (Z.eqb_spec (o_SizePx o) 0); [lia|]. destruct (Z.ltb_spec (o_SizePx o) 1); [lia|].
  assert (Hr : levelRank (o_ECLevel o) <? 0 = false).
  { clear -Hl. rewrite !elem_of_cons in Hl. destruct Hl as [->|[->|[->|[->|Hl]]]]; [done..|]. set_solver. }
  rewrite Hr. destruct (o_Logo o) as [l|]; [|done]. by rewrite validateLogo_scale.
Qed.

(** What every form of a request comes to. *)
Record within (o : Options) : Prop := {
  w_content : o_Content o <> [];
  w_format : o_Format o ∈ [FormatPNG; FormatSVG];
  w_fg : o_FgColor o = "" \/ hexColor (o_FgColor o) = true;
  w_bg : o_BgColor o = "" \/ hexColor (o_BgColor o) = true;
  w_shape : o_Shape o = "" \/ known_shape (o_Shape o) = true;
  w_margin : 4 <= o_Margin o <= 64;
  w_size : 64 <= o_SizePx o;
  w_level : known_level (o_ECLevel o) = true;
  w_logo : logo_ok (o_Logo o);
}.

Lemma within_normalise o : within o -> exists fg bg, normalise o = Ok (with_defaults o, fg, bg).
Proof. intros []. apply normalise_ok; try done; lia. Qed.

Lemma decode_logo_ok l logo : decode_logo l = Ok logo -> validateLogo logo = None.
Proof.
  unfold decode_logo. cbv zeta. destruct (String.eqb _ ""); [done|]. destruct (_ <? _); [done|].
  destruct (DecodeStd _); [|done]. destruct (validateLogo _) eqn:E; [done|]. by intros [= <-].
Qed.

Ltac take_field H x :=
  match type of H with
  | match opt_field ?v ?d ?ok ?f ?m with _ => _ end = _ =>
      let E := fresh "E" in destruct (opt_field v d ok f m) as [x|] eqn:E; [apply opt_field_Ok in E|done]
  end.

Lemma toOptions_within g o : toOptions g = Ok o -> within o.
Proof.
  unfold toOptions. destruct (String.eqb_spec (gr_Content g) "") as [|Hc]; [done|]. cbv zeta. intros H.
  take_field H format. take_field H fg. take_field H bg. take_field H shape. take_field H margin. take_field H sz.
  take_field H level.
  assert (Hl : exists logo, o = {| o_Content := bytes (gr_Content g); o_Format := format; o_FgColor := fg; o_BgColor := bg;
     o_Shape := shape; o_Margin := margin; o_SizePx := sz; o_ECLevel := level; o_Logo := logo |} /\ logo_ok logo).
  { destruct (sr_Logo _) as [l|]; [|injection H as <-; by exists None].
    destruct (decode_logo l) as [logo|] eqn:Ed; [|done]. injection H as <-. exists (Some logo). split; [done|]. by eapply decode_logo_ok. }
  clear H. destruct Hl as (logo & -> & Hl).
  constructor; cbn [o_Content o_Format o_FgColor o_BgColor o_Shape o_Margin o_SizePx o_ECLevel o_Logo]; try done.
  - intros E'. apply Hc. by destruct (gr_Content g).
  - destruct E as [->|E]; [set_solver|]. by apply bool_decide_eq_true in E.
  - destruct E3 as [->|[?%Z.leb_le ?%Z.leb_le]%andb_prop]; lia.
  - destruct E4 as [->|?%Z.leb_le]; lia.
  - by destruct E5 as [->|E5].
Qed.

Section forms.
Context `{JD : JsonDecode generateRequest} `{FP : FormParsers}.

Lemma form_logo_ok f file logo : form_logo f file = Ok logo -> validateLogo logo = None.
Proof.
  unfold form_logo. destruct file as [content|]; [|done]. cbv zeta. destruct (_ <? _); [done|].
  destruct (match form_str f "logo_scale" with Some _ => _ | None => _ end); [|done].
  destruct (match form_str f "logo_auto_raise" with Some _ => _ | None => _ end); [|done].
  destruct (validateLogo _) eqn:E; [done|]. by intros [= <-].
Qed.

Lemma parseMultipart_within r o : parseMultipart r = Ok o -> within o.
Proof.
  unfold parseMultipart. destruct (ParseMultipartForm _ _ _) as [[f files]|]; [|done].
  destruct (form_request _ _) as [g|]; [|done]. destruct (toOptions g) as [opts|] eqn:Eo; [|done].
  apply toOptions_within in Eo as [].
  destruct (files !! "logo") as [[|file l]|]; [by intros [= <-]| |by intros [= <-]].
  destruct (form_logo f file) as [logo|] eqn:El; [|done]. intros [= <-]. constructor; try done.
  by eapply form_logo_ok.
Qed.

(** What the schema accepts the renderer accepts.  Whatever form a
    request takes (a query, a JSON body or a multipart form) and whatever it
    carries, once its parameters pass the schema the renderer's own checks of
    the options, with their defaults filled in, accept all of them: a render
    can then only be refused for the instance's policy (size, contrast,
    payload, logo budget), never as an invalid option. *)
Theorem schema_within_renderer (r : HttpRequest) (o : Options) :
  parseQuery r = Ok o \/ parseBody r = Ok o ->
  (exists fg bg, normalise o = Ok (with_defaults o, fg, bg))
  /\ o_Content o <> [] /\ 4 <= o_Margin o <= 64 /\ 64 <= o_SizePx o.
Proof.
  intros H. assert (Hw : within o).
  { destruct H as [H|H].
    - unfold parseQuery in H. destruct (form_request _ _); [|done]. by eapply toOptions_within.
    - unfold parseBody in H. destruct (mime_ParseMediaType _) as [mt|]; [|done]. destruct (String.eqb mt "application/json").
      + unfold parseJSON in H. destruct (json_Decode _) as [[req []]|]; [done| |done]. by eapply toOptions_within.
      + destruct (String.eqb mt "multipart/form-data"); [|done]. by eapply parseMultipart_within. }
  split; [by apply within_normalise|]. by destruct Hw.
Qed.
End forms.

(** ** Witness: a query *)
#[local] Instance no_json : JsonDecode generateRequest := {| json_Decode := fun _ => Err UnexpectedEnd |}.
#[local] Instance no_forms : FormParsers :=
  {| mime_ParseMediaType := fun _ => None; ParseMultipartForm := fun _ _ _ => None; strconv_ParseFloat := fun _ => None |}.

Definition a_query : HttpRequest := {|
  hr_Method := "GET"; hr_Pattern := "GET /v1/qr"; hr_PathValue := fun _ => "";
  hr_Query := {[ "content" := ["https://example.com"]; "size_px" := ["+640"]; "module_shape" := ["dot"]; "fg_color" := ["#0A0b0C"] ]};
  hr_Header := fun _ => ""; hr_Body := [] |}.

Lemma schema_within_renderer_witness :
  exists o, parseQuery a_query = Ok o /\ o_SizePx o = 640 /\ exists fg bg, normalise o = Ok (with_defaults o, fg, bg).
Proof.
  destruct (parseQuery a_query) as [o|e] eqn:E; [|exfalso; revert E; vm_compute; discriminate].
  exists o. split; [reflexivity|]. split.
  - assert (F : match parseQuery a_query with Ok o => o_SizePx o | Err _ => 0 end = 640) by (vm_compute; reflexivity).
    rewrite E in F. exact F.
  - destruct (schema_within_renderer a_query o (or_introl E)) as [Hn _]. exact Hn.
Defined.
