(* ===== verification/CodesApi.v ===== *)
(** * The codes API ([internal/httpapi/v1/codes.go])

    Every [/v1/codes] route: what a request must look like, the service call
    it makes, and the response for each of its outcomes.  A handler is an
    [Act] over the code service's world. *)
From Stdlib Require Import Ascii String.
From S2P Require Import GoLib Text Http Act GoUrl Base64 Domain Shortcode Destination QrPolicy Blob MemStore Store Cache Codes Qr Public QrApi.
Local Open Scope string_scope.
Local Open Scope Z_scope.
Local Open Scope go_scope.

Definition maxBatchBodyBytes : Z := Z.shiftl 16 20.
Definition defaultPageLimit : Z := 50.
Definition maxPageLimit : Z := 200.
Definition maxCursorLen : Z := 512.

(** ** Wire shapes *)

(** The members of [stylingRequest] are those of [/v1/qr]. *)
Record createCodeRequest := {
  cr_ClientRef : string;
  cr_Mode : string;
  cr_Destination : string;
  cr_Alias : string;
  cr_Styling : option qrStylingRequest;
}.
Record batchRequest := { br_Items : list createCodeRequest }.
Record updateDestinationRequest := { ur_Destination : string }.

Definition status_string (s : BatchStatus) : string :=
  match s with BatchCreated => "created" | BatchExisting => "existing" | BatchError => "error" end.

(** [batchItemResponse], less its index. *)
Record batchItemResponse := {
  bi_Index : nat;
  bi_Status : string;
  bi_Code : option json;
  bi_Error : option ErrorDetail;
}.

Definition details_json (ds : list (string * detail)) : list (string * json) :=
  (fun '(k, d) => (k, match d with
                      | DStr s => JString s | DInt z => JInt z
                      | DStrs l => JArray (JString <$> l) | DFloat f => JFloat f end)) <$> ds.
Definition error_json (d : ErrorDetail) : json :=
  JObject ([("code", JString (code_string (ed_Code d))); ("message", JString (ed_Message d))]
           ++ match ed_Details d with [] => [] | ds => [("details", JObject (details_json ds))] end)%list.

Definition item_json (b : batchItemResponse) : json :=
  JObject ([("index", JInt (Z.of_nat (bi_Index b))); ("status", JString (bi_Status b))]
           ++ match bi_Code b with Some c => [("code", c)] | None => [] end
           ++ match bi_Error b with Some d => [("error", error_json d)] | None => [] end)%list.

Definition styling_json (s : Styling) : json :=
  JObject [("fg_color", JString (FgColor s)); ("bg_color", JString (BgColor s)); ("module_shape", JString (styling_ModuleShape s));
           ("margin_modules", JInt (MarginModules s)); ("size_px", JInt (SizePx s)); ("ec_level", JString (styling_ECLevel s));
           ("ec_level_effective", JString (ECLevelEffective s)); ("has_logo", JBool (negb (String.eqb (LogoBlobKey s) "")))].

(** [toResponse]. *)
Definition toResponse (svc : Service) (env : Env) (c : Code) : json :=
  let mode := if String.eqb (Mode c) "" then ModeDynamic else Mode c in
  let scanURL := if String.eqb mode ModeDirect then "" else ScanURL svc (ShortCode c) in
  JObject ([("id", JString (code_ID c)); ("mode", JString mode); ("short_code", JString (ShortCode c));
            ("version", JInt (Version c)); ("is_alias", JBool (IsAlias c)); ("destination", JString (Destination c));
            ("state", JString (State c)); ("styling", styling_json (code_Styling c));
            ("image_url", JString (ImageURL svc env c))]
           ++ omitempty "storage_url" (default "" (StorageURL svc env c)) ++ omitempty "client_ref" (ClientRef c)
           ++ omitempty "scan_url" scanURL
           ++ [("created_at", JTime (code_CreatedAt c)); ("updated_at", JTime (UpdatedAt c))])%list.

(** ** Validation *)
Definition zero_styling : Styling := {|
  styling_ID := ""; FgColor := ""; BgColor := ""; styling_ModuleShape := ""; MarginModules := 0; SizePx := 0;
  styling_ECLevel := ""; ECLevelEffective := ""; LogoBlobKey := ""; LogoScale := f64_zero |}.

(** An optional member held to a condition; the error is the field's name. *)
Definition styling_field {A} (v : option A) (zero : A) (ok : A -> bool) (field : string) : res string A :=
  match v with
  | None => Ok zero
  | Some x => if ok x then Ok x else Err ("styling." +:+ field)
  end.

Definition stylingFromRequest (i : option qrStylingRequest) : res string (Styling * list ascii * bool) :=
  match i with
  | None => Ok (zero_styling, [], false)
  | Some i =>
      logo <-? match sr_Logo i with
               | None => Ok ([], false, f64_zero)
               | Some l =>
                   match decode_logo l with
                   | Ok l => Ok (logo_Image l, AutoRaise l, logo_Scale l)
                   | Err (FieldError f _) => Err ("styling." +:+ f)
                   | Err _ => Err "styling.logo"
                   end
               end;
      fg <-? styling_field (sr_FgColor i) "" hexColor "fg_color";
      bg <-? styling_field (sr_BgColor i) "" hexColor "bg_color";
      shape <-? styling_field (sr_ModuleShape i) "" known_shape "module_shape";
      margin <-? styling_field (sr_MarginModules i) 0 (fun m => (4 <=? m) && (m <=? 64)) "margin_modules";
      px <-? styling_field (sr_SizePx i) 0 (fun n => (64 <=? n) && (n <=? 4096)) "size_px";
      level <-? styling_field (sr_ECLevel i) "" known_level "ec_level";
      let '(image, raise, scale) := logo in
      Ok ({| styling_ID := ""; FgColor := fg; BgColor := bg; styling_ModuleShape := shape; MarginModules := margin;
             SizePx := px; styling_ECLevel := level; ECLevelEffective := ""; LogoBlobKey := ""; LogoScale := scale |},
          image, raise)
  end.

Definition invalid (msg : string) (ds : list (string * detail)) : ErrorDetail :=
  {| ed_Code := CodeInvalidRequest; ed_Message := msg; ed_Details := ds |}.

(** [inputFromRequest]. *)
Definition inputFromRequest (req : createCodeRequest) (userID : string) : res ErrorDetail CreateInput :=
  if String.eqb (TrimSpace (cr_Destination req)) "" then
    Err (invalid "A destination is required." [("field", DStr "destination")])
  else if negb (bool_decide (cr_Mode req ∈ [""; ModeDynamic; ModeDirect])) then
    Err (invalid "mode must be one of dynamic, direct." [("field", DStr "mode")])
  else if MaxClientRefLen <? len (cr_ClientRef req) then
    Err (invalid "client_ref must be at most 128 characters." [("field", DStr "client_ref"); ("max_length", DInt MaxClientRefLen)])
  else match stylingFromRequest (cr_Styling req) with
  | Err field => Err (invalid "A styling parameter is out of range or unsupported." [("field", DStr field)])
  | Ok (styling, logo, autoRaise) =>
      Ok {| in_UserID := userID; in_Mode := cr_Mode req; in_Destination := cr_Destination req; in_Alias := cr_Alias req;
            in_Styling := styling; in_Logo := logo; in_LogoAutoRaise := autoRaise; in_ClientRef := cr_ClientRef req |}
  end.

(** ** Errors *)
Definition isRenderError (e : error) : bool :=
  errors_Is e ErrContrastTooLow || errors_Is e ErrLogoTooLarge || errors_Is e ErrDimensionsExceeded
  || errors_Is e ErrRenderTimeout || errors_Is e ErrContentTooLarge || errors_Is e ErrInvalidOption.

(** The first error of the catalogue that is in the chain. *)
Fixpoint first_case (cases : list (bool * ErrorDetail)) : option ErrorDetail :=
  match cases with
  | [] => None
  | (true, d) :: _ => Some d
  | (false, _) :: l => first_case l
  end.

Definition serviceErrorDetail (e : error) : option ErrorDetail :=
  let details := default [] (errors_As (fun e => match e with ValidationError _ ds => Some ds | _ => None end) e) in
  let d code msg ds := {| ed_Code := code; ed_Message := msg; ed_Details := ds |} in
  if isRenderError e then qrErrorDetail e
  else if errors_Is e ErrScanURLNotConfigured then
    Some (d CodeScanURLNotConfigured "Dynamic codes need a public scan address. Ask the operator to configure QURATOR_SERVER_BASE_URL, or create a direct code." [])
  else match errors_As (fun e => match e with ConflictError x a => Some (x, a) | _ => None end) e with
  | Some (expected, actual) =>
      Some (d CodeConflict "The code was modified by another request; re-read it and retry with its current version."
              [("expected", DInt expected); ("actual", DInt actual)])
  | None =>
  match errors_As (fun e => match e with ClientRefConflictError r i => Some (r, i) | _ => None end) e with
  | Some (ref, id) =>
      Some (d CodeClientRefConflict "This client_ref was already used for a code with a different destination or mode."
              [("client_ref", DStr ref); ("existing_id", DStr id)])
  | None =>
      first_case [
        (errors_Is e ErrClientRefInvalid,
         d CodeInvalidRequest "client_ref must be at most 128 characters and unique within the batch." details);
        (errors_Is e ErrDirectImmutable,
         d CodeDirectCodeImmutable "This is a direct code: its destination is encoded in the printed image and cannot be changed, disabled, or enabled. Create a new code instead." details);
        (errors_Is e ErrInvalidMode, d CodeInvalidRequest "mode must be one of dynamic, direct." details);
        (errors_Is e ErrUnsupportedScheme,
         d CodeUnsupportedScheme "The destination uses a scheme this instance does not permit." details);
        (errors_Is e ErrSelfReferential,
         d CodeSelfReferentialDestination "The destination points back at this instance's scan path." []);
        (errors_Is e ErrDestinationTooLong,
         d CodeInvalidRequest ("The destination must be at most " +:+ Itoa MaxDestinationLength +:+ " characters.") details);
        (errors_Is e ErrInvalidDestination, d CodeInvalidRequest "The destination is not a valid absolute URL." details);
        (errors_Is e codes_ErrAliasReserved, d CodeAliasReserved "That alias is reserved by this instance." details);
        (errors_Is e codes_ErrAliasInvalid,
         d CodeAliasInvalid "The alias does not meet the character set, length, or shape rules." details);
        (errors_Is e ErrAliasTaken, d CodeAliasTaken "That alias is already in use or reserved by a deleted code." details);
        (errors_Is e ErrClientRefTaken,
         d CodeClientRefConflict "This client_ref was claimed by a concurrent request; re-read your codes and retry." details);
        (errors_Is e ErrNotFound, d CodeNotFound "No such code." []);
        (errors_Is e ErrConflict, d CodeConflict "The code is in a state that does not allow this change." [])]
  end end.

Definition writeServiceError (e : error) (h : gmap string string) : Response :=
  if errors_Is e Canceled then Silent h
  else match serviceErrorDetail e with
  | None => Internal h
  | Some d => WriteError (ed_Code d) (ed_Message d) (ed_Details d) h
  end.

(** ** Requests *)
Class TimeParse := { time_Parse : string -> option Z }.   (* time.Parse, RFC 3339, in UTC *)

(** [If-Match]: the version asked for, none if the header is absent. *)
Definition ifMatch (im : string) : res Response (option Z) :=
  if String.eqb im "" then Ok None
  else
    let malformed := WriteError CodeInvalidRequest
      ("If-Match must be the code's version as a quoted entity-tag, e.g. " +:+ quoted "7" +:+ ".") [("field", DStr "If-Match")] ∅ in
    match bytes (TrimSpace im) with
    | o :: rest =>
        match rev rest with
        | c :: rds =>
            let ds := rev rds in
            if Ascii.eqb o "034" && Ascii.eqb c "034" && forallb is_digit ds && negb (bool_decide (ds = [])) then
              let n := digits_value ds in
              if (n <? 2 ^ 63) && (1 <=? n) then Ok (Some n)
              else Err (WriteError CodeInvalidRequest "If-Match must be a positive version number." [("field", DStr "If-Match")] ∅)
            else Err malformed
        | [] => Err malformed
        end
    | [] => Err malformed
    end.

(** An optional parameter of the query string. *)
Definition query_field {A} (q : Values) (name : string) (dflt : A) (parse : string -> option A) (msg : string) : res Response A :=
  let v := Values_Get q name in
  if String.eqb v "" then Ok dflt
  else match parse v with
  | Some a => Ok a
  | None => Err (WriteError CodeInvalidRequest msg [("field", DStr name)] ∅)
  end.

Definition parse_limit (v : string) : option Z :=
  n ← Atoi v; if (n <? 1) || (maxPageLimit <? n) then None else Some n.
Definition parse_cursor (v : string) : option string :=
  if maxCursorLen <? len v then None else (fun _ => v) <$> DecodeString alphabet_url v.

(** Does the text of an error have the phrase?  No sentinel's text has it. *)
Fixpoint says (phrase : string) (e : error) : bool :=
  match e with
  | NewErr m => Contains m phrase
  | Wrap m e' => Contains m phrase || says phrase e'
  | ValidationError e' _ => says phrase e'
  | _ => false
  end.

Definition bad_cursor : Response := WriteError CodeInvalidRequest "The cursor is not valid." [("field", DStr "cursor")] ∅.

Section handlers.
Context `{U : UnicodeTable} `{IP : IPParser} `{RD : Renderer} `{SN : Sniffer} `{TP : TimeParse}.
Context `{JC : JsonDecode createCodeRequest} `{JB : JsonDecode batchRequest} `{JU : JsonDecode updateDestinationRequest}.
Context {DB BL CA : Type} `{ST : CodeStore DB} `{BS : BlobStore BL} `{OC : OtterCache CA}.
Notation W := (World DB BL CA).
Context (sc : Sched W) (svc : Service).

(** The code as the response shows it, its addresses made now. *)
Definition respond (c : Code) : Act W json := ask_env sc (fun env => toResponse svc env c).

(** The answer to a call that returns a code. *)
Definition answer (status : Z) (h : gmap string string) (r : result Code) : Act W Response :=
  match r with
  | Err e => mret (writeServiceError e ∅)
  | Ok c => v ← respond c; mret (WriteJSON status v h)
  end.

Definition location (c : Code) : gmap string string := {[ "Location" := "/v1/codes/" +:+ code_ID c ]}.

(** [create]; a request with a [client_ref] is a batch of one. *)
Definition create (r : HttpRequest) (userID : string) : Act W Response :=
  match decodeJSON (hr_Body r) with
  | Err resp => mret resp
  | Ok req =>
  match inputFromRequest req userID with
  | Err d => mret (WriteError (ed_Code d) (ed_Message d) (ed_Details d) ∅)
  | Ok i =>
      if negb (String.eqb (in_ClientRef i) "") then
        rs ← CreateBatch sc svc userID [i] [0%nat];
        match rs with
        | res :: _ =>
            match b_Status res, b_Code res, b_Err res with
            | BatchError, _, Some e => mret (writeServiceError e ∅)
            | BatchExisting, Some c, _ => answer 200 (location c) (Ok c)
            | BatchCreated, Some c, _ => answer 201 (location c) (Ok c)
            | _, _, _ => mret (Internal ∅)
            end
        | [] => mret (Internal ∅)
        end
      else
        res ← Create sc svc i;
        match res with
        | Err e => mret (writeServiceError e ∅)
        | Ok c => answer 201 (location c) (Ok c)
        end
  end end.

(** The items that pass the schema, each with its place in the request. *)
Fixpoint valid_items (userID : string) (n : nat) (items : list createCodeRequest) : list (nat * CreateInput) :=
  match items with
  | [] => []
  | req :: items' =>
      match inputFromRequest req userID with
      | Ok i => (n, i) :: valid_items userID (S n) items'
      | Err _ => valid_items userID (S n) items'
      end
  end.

(** What the response holds before the service is called. *)
Definition refused_items (userID : string) (items : list createCodeRequest) : list batchItemResponse :=
  imap (fun n req => match inputFromRequest req userID with
                     | Err d => {| bi_Index := n; bi_Status := status_string BatchError; bi_Code := None; bi_Error := Some d |}
                     | Ok _ => {| bi_Index := 0; bi_Status := ""; bi_Code := None; bi_Error := None |}
                     end) items.

Definition unexpected : ErrorDetail :=
  {| ed_Code := CodeInternal; ed_Message := "An unexpected error occurred."; ed_Details := [] |}.

(** One result of the service, at its place in the response. *)
Definition batch_item (i : nat) (res : BatchResult) : Act W batchItemResponse :=
  match b_Status res, b_Code res with
  | BatchError, _ =>
      let d := b_Err res ≫= serviceErrorDetail in
      mret {| bi_Index := i; bi_Status := status_string BatchError; bi_Code := None; bi_Error := Some (default unexpected d) |}
  | s, Some c => v ← respond c; mret {| bi_Index := i; bi_Status := status_string s; bi_Code := Some v; bi_Error := None |}
  | s, None => mret {| bi_Index := i; bi_Status := status_string s; bi_Code := None; bi_Error := None |}
  end.

Fixpoint place_results (idx : list nat) (rs : list BatchResult) (out : list batchItemResponse) : Act W (list batchItemResponse) :=
  match rs with
  | [] => mret out
  | res :: rs' =>
      let i := default 0%nat (idx !! b_Index res) in
      item ← batch_item i res;
      place_results idx rs' (<[i := item]> out)
  end.

(** [createBatch]; [order] is the order in which the renders finish. *)
Definition createBatch (r : HttpRequest) (userID : string) (order : list nat) : Act W Response :=
  match decodeJSONLimit (hr_Body r) maxBatchBodyBytes with
  | Err resp => mret resp
  | Ok req =>
      let items := br_Items req in
      let n := Z.of_nat (length items) in
      if n =? 0 then mret (WriteError CodeInvalidRequest "A batch needs at least one item." [("field", DStr "items")] ∅)
      else if s_batchMax svc <? n then
        mret (WriteError CodeBatchTooLarge "The batch has more items than this instance accepts in one request."
                [("limit", DInt (s_batchMax svc)); ("actual", DInt n)] ∅)
      else
        let inputs := valid_items userID 0 items in
        let out := refused_items userID items in
        out ← match inputs with
              | [] => mret out
              | _ => rs ← CreateBatch sc svc userID inputs.*2 order; place_results inputs.*1 rs out
              end;
        mret (WriteJSON 200 (JObject [("results", JArray (item_json <$> out))]) ∅)
  end.

Definition get (r : HttpRequest) (userID : string) : Act W Response :=
  c ← Get sc (hr_PathValue r "id") userID; answer 200 ∅ c.

(** The filter a query string asks for. *)
Definition list_filter (q : Values) (userID : string) : res Response CodeFilter :=
  limit <-? query_field q "limit" defaultPageLimit parse_limit "limit must be an integer between 1 and 200.";
  cursor <-? query_field q "cursor" "" parse_cursor "The cursor is not valid.";
  after <-? query_field q "created_after" None (fun v => Some <$> time_Parse v) "created_after must be an RFC 3339 timestamp.";
  before <-? query_field q "created_before" None (fun v => Some <$> time_Parse v) "created_before must be an RFC 3339 timestamp.";
  Ok {| f_UserID := userID; CreatedAfter := after; CreatedBefore := before;
        f_Destination := Values_Get q "destination_contains"; Limit := limit; Cursor := cursor |}.

Fixpoint respond_all (cs : list Code) : Act W (list json) :=
  match cs with
  | [] => mret []
  | c :: cs' => v ← respond c; vs ← respond_all cs'; mret (v :: vs)
  end.

Definition list_codes (r : HttpRequest) (userID : string) : Act W Response :=
  match list_filter (hr_Query r) userID with
  | Err resp => mret resp
  | Ok f =>
      res ← List_ sc f;
      match res with
      | Err e =>
          mret (if negb (String.eqb (Cursor f) "") && says "invalid cursor" e then bad_cursor else writeServiceError e ∅)
      | Ok (items, next) =>
          vs ← respond_all items;
          mret (WriteJSON 200 (JObject [("items", JArray vs);
                                        ("next_cursor", if String.eqb next "" then JNull else JString next)]) ∅)
      end
  end.

Definition patch (r : HttpRequest) (userID : string) : Act W Response :=
  match ifMatch (hr_Header r "If-Match") with
  | Err resp => mret resp
  | Ok expected =>
  match decodeJSON (hr_Body r) with
  | Err resp => mret resp
  | Ok req =>
      if String.eqb (TrimSpace (ur_Destination req)) ""
      then mret (WriteError CodeInvalidRequest "A destination is required." [("field", DStr "destination")] ∅)
      else
        c ← svc_UpdateDestination sc svc (hr_PathValue r "id") userID (ur_Destination req) (default 0 expected);
        answer 200 ∅ c
  end end.

Definition delete_code (r : HttpRequest) (userID : string) : Act W Response :=
  res ← Delete sc (hr_PathValue r "id") userID;
  mret (match res with Err e => writeServiceError e ∅ | Ok _ => WriteStatus 204 ∅ end).

Definition setState (r : HttpRequest) (userID : string) (state : CodeState) : Act W Response :=
  c ← SetState sc (hr_PathValue r "id") userID state; answer 200 ∅ c.

(** [ServeHTTP]: [identity] is the user the auth middleware put in the
    request, if any. *)
Definition codes_ServeHTTP (identity : option string) (r : HttpRequest) (order : list nat) : Act W Response :=
  match identity with
  | None => mret (WriteError CodeUnauthorized "Authentication is required." [] ∅)
  | Some userID =>
      let p := hr_Pattern r in
      if String.eqb p "GET /v1/codes" then list_codes r userID
      else if String.eqb p "POST /v1/codes" then create r userID
      else if String.eqb p "POST /v1/codes/batch" then createBatch r userID order
      else if String.eqb p "GET /v1/codes/{id}" then get r userID
      else if String.eqb p "PATCH /v1/codes/{id}" then patch r userID
      else if String.eqb p "DELETE /v1/codes/{id}" then delete_code r userID
      else if String.eqb p "POST /v1/codes/{id}/disable" then setState r userID CodeDisabled
      else if String.eqb p "POST /v1/codes/{id}/enable" then setState r userID CodeActive
      else mret (WriteError CodeNotFound "No such route." [] ∅)
  end.
End handlers.
