(* ===== verification/CodesApiFacts.v ===== *)
(** * What the codes API answers

    Whose codes a response can show, what every item of a batch is answered
    with, and what a user learns of a code that is not theirs. *)
From Stdlib Require Import Ascii String.
From S2P Require Import GoLib Text Http Act GoUrl Base64 Domain Shortcode Destination QrPolicy Blob MemStore Store Cache Codes MemStoreFacts Concrete CodesProps CodesFacts CreateFacts ResolveFacts Qr Public QrApi CodesApi.
Local Open Scope string_scope.
Local Open Scope Z_scope.
Local Open Scope go_scope.

Section api.
Context `{U : UnicodeTable} `{IP : IPParser} `{RD : Renderer} `{SN : Sniffer} `{TP : TimeParse}.
Context `{JC : JsonDecode createCodeRequest} `{JB : JsonDecode batchRequest} `{JU : JsonDecode updateDestinationRequest}.
Context {DB BL CA : Type} `{ST : CodeStore DB} `{SL : !CodeStoreLaws DB} `{BS : BlobStore BL} `{OC : OtterCache CA}.
Notation W := (World DB BL CA).
Context (sc : Sched W) (svc : Service).

(** ** The place of each item *)

(** An item of a response: a code or an error, never both. *)
Definition item_ok (i : nat) (b : batchItemResponse) : Prop :=
  bi_Index b = i
  /\ ((bi_Status b = "error" /\ bi_Code b = None /\ is_Some (bi_Error b))
      \/ ((bi_Status b = "created" \/ bi_Status b = "existing") /\ is_Some (bi_Code b) /\ bi_Error b = None)).

Lemma batch_item_ok i k res : good k res -> gives (batch_item sc svc i res) (item_ok i).
Proof.
  intros [_ Hs]. unfold batch_item. destruct (b_Status res) eqn:E.
  - destruct Hs as [_ [c ->]]. apply gives_then. intros v. apply gives_ret. split; [done|right]. simpl. eauto.
  - destruct Hs as [_ [c ->]]. apply gives_then. intros v. apply gives_ret. split; [done|right]. simpl. eauto.
  - apply gives_ret. split; [done|left]. simpl. eauto.
Qed.

(** The positions of the items that pass the schema. *)
Lemma valid_items_spec u items n i :
  i ∈ (valid_items u n items).*1 <->
  exists req, (n <= i)%nat /\ items !! (i - n)%nat = Some req /\ exists inp, inputFromRequest req u = Ok inp.
Proof.
  revert n. induction items as [|req items IH]; intros n; cbn [valid_items].
  { split; [by intros ?%elem_of_nil|]. by intros (req & _ & [=] & _). }
  assert (Hstep : i ∈ (valid_items u (S n) items).*1 <->
    exists r, (n < i)%nat /\ items !! (i - S n)%nat = Some r /\ exists inp, inputFromRequest r u = Ok inp).
  { rewrite IH. split; intros (r & ? & ? & ?); exists r; (split_and!; [lia|done|done]). }
  assert (Hlt : (n < i)%nat -> (req :: items) !! (i - n)%nat = items !! (i - S n)%nat).
  { intros H. replace (i - n)%nat with (S (i - S n)) by lia. done. }
  destruct (inputFromRequest req u) as [inp|e] eqn:E.
  - rewrite fmap_cons, elem_of_cons, Hstep. split.
    + intros [->|(r & Hi & Hr & Hok)]; [exists req; rewrite Nat.sub_diag; eauto|]. exists r. rewrite Hlt by done. split_and!; (lia || done).
    + intros (r & Hi & Hr & Hok). destruct (decide (i = n)) as [->|Hne]; [by left|right].
      rewrite Hlt in Hr by lia. exists r. split_and!; (lia || done).
  - rewrite Hstep. split; intros (r & Hi & Hr & Hok).
    + exists r. rewrite Hlt by done. split_and!; (lia || done).
    + destruct (decide (i = n)) as [->|Hne].
      * rewrite Nat.sub_diag in Hr. injection Hr as <-. destruct Hok as [inp Hok]. congruence.
      * rewrite Hlt in Hr by lia. exists r. split_and!; (lia || done).
Qed.

(** Placing the results from the [k]-th on. *)
Lemma place_results_ok idx rs k out :
  (forall j r, rs !! j = Some r -> good (k + j) r) -> (k + length rs = length idx)%nat ->
  (forall i b, out !! i = Some b -> item_ok i b \/ exists k', (k <= k')%nat /\ idx !! k' = Some i) ->
  gives (place_results sc svc idx rs out) (fun out' => length out' = length out
    /\ (forall i b, out' !! i = Some b -> item_ok i b) /\ (forall i, i ∉ idx -> out' !! i = out !! i)).
Proof.
  revert k out. induction rs as [|r rs IH]; intros k out Hrs Hlen Hout; cbn [place_results].
  - apply gives_ret. split_and!; [done| |done]. intros i b Hb. destruct (Hout i b Hb) as [|(k' & Hk & Hi)]; [done|].
    apply lookup_lt_Some in Hi. simpl in Hlen. lia.
  - pose proof (Hrs 0%nat r eq_refl) as Hr. rewrite Nat.add_0_r in Hr. pose proof Hr as [Hix _]. rewrite Hix.
    destruct (lookup_lt_is_Some_2 idx k) as [i Hi]; [simpl in Hlen; lia|]. rewrite Hi. cbn [default].
    eapply gives_bind; [by eapply batch_item_ok|]. intros b Hb.
    assert (Hnext : gives (place_results sc svc idx rs (<[i := b]> out)) (fun out' => length out' = length (<[i := b]> out)
      /\ (forall i b, out' !! i = Some b -> item_ok i b) /\ (forall i', i' ∉ idx -> out' !! i' = <[i := b]> out !! i'))).
    { apply (IH (S k)).
      - intros j x Hx. replace (S k + j)%nat with (k + S j)%nat by lia. by apply Hrs.
      - simpl in Hlen. lia.
      - intros j x Hx. apply list_lookup_insert_Some in Hx as [(<- & <- & _)|[Hne Hx]]; [by left|].
        destruct (Hout j x Hx) as [|(k' & Hk & Hj)]; [by left|right]. exists k'. split; [|done].
        destruct (decide (k = k')) as [<-|]; [congruence|lia]. }
    intros st. destruct (Hnext st) as (H1 & H2 & H3). rewrite length_insert in H1. split_and!; [done|done|].
    intros i' Hi'. rewrite H3 by done. apply list_lookup_insert_ne. intros ->. apply Hi'. by eapply list_elem_of_lookup_2.
Qed.

Lemma refused_items_lookup u items i :
  refused_items u items !! i = (fun req => match inputFromRequest req u with
     | Err d => {| bi_Index := i; bi_Status := "error"; bi_Code := None; bi_Error := Some d |}
     | Ok _ => {| bi_Index := 0; bi_Status := ""; bi_Code := None; bi_Error := None |} end) <$> (items !! i).
Proof. unfold refused_items. by rewrite list_lookup_imap. Qed.
Lemma refused_places u items :
  (forall i b, refused_items u items !! i = Some b -> item_ok i b \/ i ∈ (valid_items u 0 items).*1)
  /\ forall i req d, items !! i = Some req -> inputFromRequest req u = Err d ->
       i ∉ (valid_items u 0 items).*1
       /\ refused_items u items !! i = Some {| bi_Index := i; bi_Status := "error"; bi_Code := None; bi_Error := Some d |}.
Proof.
  split.
  - intros i b. rewrite refused_items_lookup. destruct (items !! i) as [req|] eqn:Ei; [|done]. simpl.
    destruct (inputFromRequest req u) as [inp|d] eqn:E; intros [= <-].
    + right. apply valid_items_spec. exists req. rewrite Nat.sub_0_r. split_and!; [lia|done|by eexists].
    + left. split; [done|left]. simpl. eauto.
  - intros i req d Ei E. split.
    + intros (r & _ & Hr & [inp Hok])%valid_items_spec. rewrite Nat.sub_0_r in Hr. congruence.
    + rewrite refused_items_lookup, Ei. simpl. by rewrite E.
Qed.

(** C27: a batch is answered item by item.  In any schedule, a batch whose body
    decodes and whose length is within the instance's limit is answered with
    200 and exactly one entry per item, in the order of the items: each under
    its own index with either a code or an error and never both, as its status
    says, and an item the schema refuses with exactly that refusal. *)
Theorem batch_positional (r : HttpRequest) (userID : string) (order : list nat) (req : batchRequest) st :
  decodeJSONLimit (hr_Body r) maxBatchBodyBytes = Ok req ->
  1 <= Z.of_nat (length (br_Items req)) <= s_batchMax svc ->
  exists out, (createBatch sc svc r userID order st).1 = WriteJSON 200 (JObject [("results", JArray (item_json <$> out))]) ∅
    /\ length out = length (br_Items req)
    /\ (forall i b, out !! i = Some b -> item_ok i b)
    /\ (forall i item d, br_Items req !! i = Some item -> inputFromRequest item userID = Err d ->
          out !! i = Some {| bi_Index := i; bi_Status := "error"; bi_Code := None; bi_Error := Some d |}).
Proof.
  intros Hdec Hlen. unfold createBatch. rewrite Hdec. cbv zeta.
  destruct (Z.eqb_spec (Z.of_nat (length (br_Items req))) 0); [lia|].
  destruct (Z.ltb_spec (s_batchMax svc) (Z.of_nat (length (br_Items req)))); [lia|].
  destruct (refused_places userID (br_Items req)) as [Hplace Hrefused].
  set (inputs := valid_items userID 0 (br_Items req)) in *. set (out0 := refused_items userID (br_Items req)) in *.
  assert (Hall : gives (match inputs with [] => mret out0
      | _ => rs ← CreateBatch sc svc userID inputs.*2 order; place_results sc svc inputs.*1 rs out0 end)
    (fun out => length out = length out0 /\ (forall i b, out !! i = Some b -> item_ok i b) /\ forall i, i ∉ inputs.*1 -> out !! i = out0 !! i)).
  { destruct inputs as [|x inputs'] eqn:Ei.
    - apply gives_ret. split_and!; [done| |done]. intros i b Hb. destruct (Hplace i b Hb) as [|Hin]; [done|]. by apply elem_of_nil in Hin.
    - rewrite <- Ei in *. clear Ei x inputs'. eapply gives_bind; [apply CreateBatch_positional|]. intros rs [Hp Hl]. rewrite length_fmap in Hl.
      apply (place_results_ok _ _ 0); [intros j x Hx; by apply Hp|by rewrite length_fmap|].
      intros i b Hb. destruct (Hplace i b Hb) as [|Hin]; [by left|right]. apply list_elem_of_lookup in Hin as [k Hk]. exists k. split; [lia|done]. }
  assert (Hres : gives (out ← match inputs with [] => mret out0
      | _ => rs ← CreateBatch sc svc userID inputs.*2 order; place_results sc svc inputs.*1 rs out0 end;
      mret (WriteJSON 200 (JObject [("results", JArray (item_json <$> out))]) ∅)) (fun resp => exists out,
    resp = WriteJSON 200 (JObject [("results", JArray (item_json <$> out))]) ∅ /\ length out = length (br_Items req)
    /\ (forall i b, out !! i = Some b -> item_ok i b)
    /\ (forall i item d, br_Items req !! i = Some item -> inputFromRequest item userID = Err d ->
          out !! i = Some {| bi_Index := i; bi_Status := "error"; bi_Code := None; bi_Error := Some d |}))).
  { eapply gives_bind; [exact Hall|]. intros out (Hl & Hok & Hsame). apply gives_ret. exists out. split_and!; [done| |done|].
    - rewrite Hl. unfold out0, refused_items. apply length_imap.
    - intros i item d Hi Hd. destruct (Hrefused i item d Hi Hd) as [Hn Ho]. by rewrite Hsame. }
  apply Hres.
Qed.

(** ** Whose codes *)

(** The JSON object of a code the store holds for [u] in this world. *)
Definition own_code (w : W) (u : string) (v : json) : Prop := exists env c, owns w u c /\ v = toResponse svc env c.

(** A value the API shows to [u]: one code of [u], a page of them, or the
    results of a batch with such codes. *)
Inductive own_value (w : W) (u : string) : json -> Prop :=
| own_one v : own_code w u v -> own_value w u v
| own_page vs next : Forall (own_code w u) vs -> next = JNull \/ (exists s, next = JString s) ->
    own_value w u (JObject [("items", JArray vs); ("next_cursor", next)])
| own_batch items : Forall (fun b => forall v, bi_Code b = Some v -> own_code w u v) items ->
    own_value w u (JObject [("results", JArray (item_json <$> items))]).

Definition own_response (w : W) (u : string) (resp : Response) : Prop :=
  match rs_Body resp with
  | ValueJSON v => own_value w u v
  | Raw _ => False
  | NoBody | ErrorJSON _ _ _ => True
  end.

Lemma own_code_later w w' u v : later w w' -> own_code w u v -> own_code w' u v.
Proof. intros Hl (env & c & Hc & ->). exists env, c. split; [by apply (owns_later w)|done]. Qed.

Lemma own_error w u e h : own_response w u (writeServiceError e h).
Proof. unfold writeServiceError. destruct (errors_Is e Canceled); [done|]. by destruct (serviceErrorDetail e). Qed.

Lemma decode_own {R} `{JsonDecode R} w u body limit resp : decodeJSONLimit (R:=R) body limit = Err resp -> own_response w u resp.
Proof. unfold decodeJSONLimit. destruct (json_Decode _) as [[v []]|e]; by intros [= <-]. Qed.

Lemma query_own {A} w u q name (d : A) p msg resp : query_field q name d p msg = Err resp -> own_response w u resp.
Proof. unfold query_field. cbv zeta. destruct (String.eqb _ ""); [done|]. destruct (p _); [done|]. by intros [= <-]. Qed.

Context (rely : forall n w, moves w (sc_others sc n w)).
Notation yields := (yields (BL := BL) (CA := CA)).
Notation shows_own u := (fun w => own_response w u).

Lemma yields_respond w0 u c : owns w0 u c -> yields w0 (respond sc svc c) (fun w => own_code w u).
Proof.
  intros Hc n w Hl. assert (Hl' : later w (sc_others sc n w)) by (split; [by eapply later_ok|apply rely]).
  split; [done|]. exists (sc_env sc n), c. split; [|done]. apply (owns_later w0); [by eapply later_trans|done].
Qed.

Lemma yields_answer w0 u status h r : result_owned w0 u r -> yields w0 (answer sc svc status h r) (shows_own u).
Proof.
  intros Hr. destruct r as [c|e]; cbn [answer]; [|apply yields_ret; intros w _; apply own_error].
  eapply yields_bind; [by apply yields_respond, Hr|]. intros w1 v _ Hv. apply yields_ret. intros w2 Hl.
  apply own_one. by apply (own_code_later w1).
Qed.
Lemma yields_mret_error w0 u code msg ds h : yields w0 (mret (WriteError code msg ds h)) (shows_own u).
Proof. by apply yields_ret. Qed.
Lemma yields_mret_service w0 u e h : yields w0 (mret (writeServiceError e h)) (shows_own u).
Proof. apply yields_ret. intros w _. apply own_error. Qed.

(** One step of a handler that stops with an error of its own. *)
Lemma yields_match {A} w0 (m : res Response A) (k : A -> Act W Response) u :
  (forall w resp, m = Err resp -> own_response w u resp) -> (forall a, m = Ok a -> yields w0 (k a) (shows_own u)) ->
  yields w0 (match m with Err resp => mret resp | Ok a => k a end) (shows_own u).
Proof. intros He Hk. destruct m as [a|resp]; [by apply Hk|]. apply yields_ret. intros w _. by apply He. Qed.

Lemma ifMatch_own w u im resp : ifMatch im = Err resp -> own_response w u resp.
Proof.
  unfold ifMatch. destruct (String.eqb im ""); [done|]. cbv zeta. destruct (bytes (TrimSpace im)) as [|o rest]; [by intros [= <-]|].
  destruct (rev rest) as [|c rds]; [by intros [= <-]|]. destruct (_ && _); [|by intros [= <-]].
  destruct (_ && _); [done|]. by intros [= <-].
Qed.

Lemma yields_get w0 r u : yields w0 (get sc svc r u) (shows_own u).
Proof. eapply yields_bind; [by apply yields_Get|]. intros w1 c _ Hc. by apply yields_answer. Qed.

Lemma yields_setState w0 r u s : yields w0 (setState sc svc r u s) (shows_own u).
Proof. eapply yields_bind; [by apply yields_SetState|]. intros w1 c _ Hc. by apply yields_answer. Qed.

Lemma yields_patch w0 r u : yields w0 (patch sc svc r u) (shows_own u).
Proof.
  apply yields_match; [intros w resp; apply ifMatch_own|]. intros expected _.
  apply yields_match; [intros w resp; apply decode_own|]. intros req _.
  destruct (String.eqb _ ""); [apply yields_mret_error|]. eapply yields_bind; [by apply yields_UpdateDestination|].
  intros w1 c _ Hc. by apply yields_answer.
Qed.

Lemma yields_delete w0 r u : yields w0 (delete_code sc r u) (shows_own u).
Proof.
  apply yields_then; [by apply guards_Delete|]. intros w1 [[]|e] _; [by apply yields_ret|apply yields_mret_service].
Qed.

Lemma yields_create w0 r u : yields w0 (create sc svc r u) (shows_own u).
Proof.
  apply yields_match; [intros w resp; apply decode_own|]. intros req _.
  destruct (inputFromRequest req u) as [i|d] eqn:Ei; [|apply yields_mret_error].
  destruct (negb _).
  - eapply yields_bind; [by apply (yields_CreateBatch sc svc)|]. intros w1 [|res rs] _ Hrs; [by apply yields_ret|].
    apply Forall_cons in Hrs as [Hres _]. unfold item_owned in Hres.
    destruct (b_Status res), (b_Code res) as [c|], (b_Err res) as [e|];
      try (by apply yields_ret); try apply yields_mret_service; apply yields_answer; intros c' [= <-]; by apply Hres.
  - assert (Hu : in_UserID i = u).
    { unfold inputFromRequest in Ei. by repeat (case_match; simplify_eq). }
    eapply yields_bind; [by apply (yields_Create sc svc)|]. rewrite Hu. intros w1 [c|e] _ Hc; [|apply yields_mret_service].
    apply yields_answer. intros c' [= <-]. by apply Hc.
Qed.

Lemma yields_respond_all u cs : forall w0, Forall (owns w0 u) cs ->
  yields w0 (respond_all sc svc cs) (fun w => Forall (own_code w u)).
Proof.
  induction cs as [|c cs IH]; intros w0 Hcs; cbn [respond_all]; [by apply yields_ret|].
  apply Forall_cons in Hcs as [Hc Hcs]. eapply yields_bind; [by apply yields_respond|]. intros w1 v Hl Hv.
  eapply yields_bind; [apply IH; eapply Forall_impl; [exact Hcs|intros d; by apply owns_later]|]. intros w2 vs Hl' Hvs.
  apply yields_ret. intros w3 Hl''. constructor; [apply (own_code_later w1); [by eapply later_trans|done]|].
  eapply Forall_impl; [exact Hvs|]. intros x. by apply own_code_later.
Qed.

Lemma list_filter_spec q u :
  match list_filter q u with Ok f => f_UserID f = u | Err resp => forall w, own_response w u resp end.
Proof.
  unfold list_filter.
  repeat match goal with |- context [query_field ?q ?x ?d ?p ?m] =>
    destruct (query_field q x d p m) eqn:?; [|intros w; by eapply query_own] end.
  done.
Qed.

Lemma yields_list w0 r u : yields w0 (list_codes sc svc r u) (shows_own u).
Proof.
  unfold list_codes. pose proof (list_filter_spec (hr_Query r) u) as Hf.
  destruct (list_filter _ u) as [f|resp]; [|apply yields_ret; intros w _; apply Hf].
  eapply yields_bind; [by apply (yields_List sc)|]. intros w1 [[items next]|e] _ Hitems.
  - eapply yields_bind; [apply (yields_respond_all u)|intros w2 vs _ Hvs; apply yields_ret; intros w3 Hl].
    + rewrite <- Hf. by eapply Hitems.
    + apply own_page; [eapply Forall_impl; [exact Hvs|intros x; by apply own_code_later]|].
      destruct (String.eqb next ""); [by left|right; by eexists].
  - apply yields_ret. intros w _. destruct (_ && _); [done|apply own_error].
Qed.

(** An entry that shows nothing, or a code of [u]. *)
Definition own_item (w : W) (u : string) (b : batchItemResponse) : Prop := forall v, bi_Code b = Some v -> own_code w u v.
Lemma own_items_later w w' u bs : later w w' -> Forall (own_item w u) bs -> Forall (own_item w' u) bs.
Proof. intros Hl Hb. eapply Forall_impl; [exact Hb|]. intros b H v E. apply (own_code_later w); [done|by apply H]. Qed.

Lemma yields_batch_item w0 u i res : item_owned w0 u res -> yields w0 (batch_item sc svc i res) (fun w => own_item w u).
Proof.
  intros Hres. unfold batch_item. unfold item_owned in Hres.
  assert (Hshow : forall s, yields w0 (match b_Code res with
      | Some c => v ← respond sc svc c; mret {| bi_Index := i; bi_Status := s; bi_Code := Some v; bi_Error := None |}
      | None => mret {| bi_Index := i; bi_Status := s; bi_Code := None; bi_Error := None |} end) (fun w => own_item w u)).
  { intros s. destruct (b_Code res) as [c|]; [|by apply yields_ret]. eapply yields_bind; [by apply yields_respond, Hres|].
    intros w1 v _ Hv. apply yields_ret. intros w2 Hl x [= <-]. by apply (own_code_later w1). }
  destruct (b_Status res); [apply (Hshow "created")|apply (Hshow "existing")|by apply yields_ret].
Qed.

Lemma yields_place_results u idx rs : forall w0 out,
  items_owned w0 u rs -> Forall (own_item w0 u) out -> yields w0 (place_results sc svc idx rs out) (fun w => Forall (own_item w u)).
Proof.
  induction rs as [|r rs IH]; intros w0 out Hrs Hout; cbn [place_results].
  { apply yields_ret. intros w Hl. by apply (own_items_later w0). }
  apply Forall_cons in Hrs as [Hr Hrs]. eapply yields_bind; [by apply yields_batch_item|]. intros w1 b Hl Hb.
  apply IH; [by apply (items_later w0)|]. apply Forall_insert; [by apply (own_items_later w0)|done].
Qed.

Lemma refused_own w u items : Forall (own_item w u) (refused_items u items).
Proof.
  apply Forall_lookup. intros i b. rewrite refused_items_lookup. destruct (items !! i); [|done].
  simpl. by destruct (inputFromRequest _ u); intros [= <-].
Qed.

Lemma yields_createBatch w0 r u order : yields w0 (createBatch sc svc r u order) (shows_own u).
Proof.
  apply yields_match; [intros w resp; apply decode_own|]. intros req _. cbv zeta.
  destruct (_ =? _); [apply yields_mret_error|]. destruct (_ <? _); [apply yields_mret_error|].
  apply (yields_bind _ _ _ (fun w => Forall (own_item w u)));
    [|intros w1 out _ Hout; apply yields_ret; intros w2 Hl; apply own_batch; by apply (own_items_later w1)].
  destruct (valid_items _ _ _) as [|x l] eqn:E; [apply yields_ret; intros w _; apply refused_own|]. rewrite <- E. clear E x l.
  eapply yields_bind; [by apply (yields_CreateBatch sc svc)|]. intros w1 rs _ Hrs. apply yields_place_results; [done|apply refused_own].
Qed.

(** C8: a user sees only their own codes.  Whatever the other requests do
    between any two steps (each keeping to the discipline of the code
    service), every response of the codes API to user [u] is an error, is
    empty, or shows codes each of which the store holds for [u] when the
    response is written: a row of the shown id, owned by [u], with the shown
    short code, mode, client reference and image (and, for a direct code,
    destination).  That covers one code, a page of a list, and the entries of
    a batch. *)
Theorem api_discloses_own (r : HttpRequest) (u : string) (order : list nat) (n : nat) (w : W) :
  ok w -> let '(resp, (_, w')) := codes_ServeHTTP sc svc (Some u) r order (n, w) in ok w' /\ own_response w' u resp.
Proof.
  intros Hw.
  assert (Hy : yields w (codes_ServeHTTP sc svc (Some u) r order) (shows_own u)).
  { unfold codes_ServeHTTP. cbv zeta.
    repeat (case_match; [auto using yields_list, yields_create, yields_createBatch, yields_get, yields_patch, yields_delete, yields_setState|]).
    apply yields_mret_error. }
  specialize (Hy n w (later_refl w Hw)). destruct (codes_ServeHTTP sc svc (Some u) r order (n, w)) as [resp [n' w']].
  destruct Hy as [Hl Hr]. split; [by eapply later_ok|done].
Qed.
End api.

(** ** Codes of somebody else *)
Section hiding.
Context `{U : UnicodeTable} `{TF : TimeFormat} `{IP : IPParser} `{RD : Renderer} `{SN : Sniffer} `{TP : TimeParse}.
Context `{JC : JsonDecode createCodeRequest} `{JB : JsonDecode batchRequest} `{JU : JsonDecode updateDestinationRequest}.
Context {BL CA : Type} `{BS : BlobStore BL} `{OC : OtterCache CA}.
Notation W := (World memStore BL CA).
Context (sc : Sched W) (svc : Service).

(** No code of [u] has this id: there is none, or it is somebody else's. *)
Definition not_theirs (id u : string) (w : W) : Prop :=
  forall c, codes (w_store w) !! id = Some c -> code_UserID c <> u.

Lemma Get_not_theirs id u n w :
  ctx_Err (sc_env sc n) = None -> not_theirs id u (sc_others sc n w) ->
  Get sc id u (n, w) = (Err (Wrap "memstore: code" ErrNotFound), (S n, sc_others sc n w)).
Proof.
  intros Hl Hw. unfold Get, ask_store, look, call. simpl. unfold GetCodeByID, read_ctx. rewrite Hl.
  destruct (owned id u _) as [c|e] eqn:E.
  - apply owned_Ok in E as [Hc Hu]. by destruct (Hw c Hc).
  - f_equal. revert E. unfold owned. by repeat (case_match; simplify_eq/=); intros [= <-].
Qed.

Lemma try_Err {A B} (a : Act W (result A)) (k : A -> Act W (result B)) e st st' : a st = (Err e, st') -> try a k st = (Err e, st').
Proof. intros H. unfold try. rewrite bind_step, H. done. Qed.
Lemma bind_first {A B} (a : Act W A) (k : A -> Act W B) x st st' : a st = (x, st') -> (a ≫= k) st = k x st'.
Proof. intros H. by rewrite bind_step, H. Qed.

(** A request that names a code, and that gets as far as looking it up. *)
Inductive names_code (r : HttpRequest) : Prop :=
| nc_simple : hr_Pattern r ∈ ["GET /v1/codes/{id}"; "DELETE /v1/codes/{id}"; "POST /v1/codes/{id}/disable"; "POST /v1/codes/{id}/enable"] ->
    names_code r
| nc_patch v (req : updateDestinationRequest) : hr_Pattern r = "PATCH /v1/codes/{id}" -> ifMatch (hr_Header r "If-Match") = Ok v ->
    decodeJSON (hr_Body r) = Ok req -> TrimSpace (ur_Destination req) <> "" -> names_code r.

(** C9: the codes of others do not exist.  Reading, changing, deleting,
    disabling or enabling a code that belongs to somebody else is answered
    exactly as for an id that was never given out: 404 and one fixed envelope,
    after a single read of the store, and nothing is changed.  So no answer
    tells whether an id exists. *)
Theorem others_codes_hidden (r : HttpRequest) (u : string) (order : list nat) (n : nat) (w : W) :
  names_code r -> ctx_Err (sc_env sc n) = None -> not_theirs (hr_PathValue r "id") u (sc_others sc n w) ->
  codes_ServeHTTP sc svc (Some u) r order (n, w)
  = (WriteError CodeNotFound "No such code." [] ∅, (S n, sc_others sc n w)).
Proof.
  intros Hr Hl Hw. pose proof (Get_not_theirs _ _ _ _ Hl Hw) as Hg.
  assert (Hans : answer sc svc 200 ∅ (Err (Wrap "memstore: code" ErrNotFound)) (S n, sc_others sc n w)
    = (WriteError CodeNotFound "No such code." [] ∅, (S n, sc_others sc n w))) by done.
  unfold codes_ServeHTTP. cbv zeta. destruct Hr as [Hp|v req Hp Hm Hd Ht].
  - repeat (apply elem_of_cons in Hp as [->|Hp]); [..|by apply elem_of_nil in Hp]; cbn [String.eqb Ascii.eqb Bool.eqb].
    + unfold get. by rewrite (bind_first _ _ _ _ _ Hg).
    + unfold delete_code, Delete. by rewrite (bind_first _ _ _ _ _ (try_Err _ _ _ _ _ Hg)).
    + unfold setState, SetState. by rewrite (bind_first _ _ _ _ _ (try_Err _ _ _ _ _ Hg)).
    + unfold setState, SetState. by rewrite (bind_first _ _ _ _ _ (try_Err _ _ _ _ _ Hg)).
  - rewrite Hp. cbn [String.eqb Ascii.eqb Bool.eqb]. unfold patch. rewrite Hm, Hd.
    apply String.eqb_neq in Ht. rewrite Ht. unfold svc_UpdateDestination. by rewrite (bind_first _ _ _ _ _ (try_Err _ _ _ _ _ Hg)).
Qed.
End hiding.

(** ** Witnesses *)
#[local] Instance no_time : TimeParse := {| time_Parse := fun _ => None |}.
Definition an_item (alias dest : string) : createCodeRequest :=
  {| cr_ClientRef := ""; cr_Mode := ""; cr_Destination := dest; cr_Alias := alias; cr_Styling := None |}.
Definition a_batch : batchRequest := {| br_Items := [an_item "Summer" "https://example.com/s"; an_item "" ""] |}.
#[local] Instance one_create : JsonDecode createCodeRequest := {| json_Decode := fun _ => Err UnexpectedEnd |}.
#[local] Instance one_batch : JsonDecode batchRequest := {| json_Decode := fun _ => Ok (a_batch, false) |}.
#[local] Instance one_update : JsonDecode updateDestinationRequest :=
  {| json_Decode := fun _ => Ok ({| ur_Destination := "https://example.com/new" |}, false) |}.
Definition a_request (pattern : string) : HttpRequest := {|
  hr_Method := "POST"; hr_Pattern := pattern; hr_PathValue := fun _ => demo_id; hr_Query := ∅; hr_Header := fun _ => ""; hr_Body := [] |}.

Definition entries_of (resp : Response) : list json :=
  match rs_Body resp with ValueJSON (JObject [(_, JArray l)]) => l | _ => [] end.
Definition statuses_of (resp : Response) : list json :=
  (fun e => match e with JObject ((_, JInt _) :: (_, s) :: _) => s | _ => JNull end) <$> entries_of resp.

Lemma batch_positional_witness :
  let st := (5%nat, demo_world) in
  exists out, (createBatch demo_sched demo_svc (a_request "POST /v1/codes/batch") "usr_1" [0%nat] st).1
      = WriteJSON 200 (JObject [("results", JArray (item_json <$> out))]) ∅
    /\ bi_Status <$> out = ["created"; "error"].
Proof.
  intros st. destruct (batch_positional demo_sched demo_svc (a_request "POST /v1/codes/batch") "usr_1" [0%nat] a_batch st) as (out & Hresp & Hlen & Hok & Href).
  - reflexivity.
  - split; vm_compute; discriminate.
  - exists out. split; [exact Hresp|].
    assert (Hst : statuses_of (createBatch demo_sched demo_svc (a_request "POST /v1/codes/batch") "usr_1" [0%nat] st).1
      = [JString "created"; JString "error"]) by (vm_compute; reflexivity).
    rewrite Hresp in Hst. destruct out as [|x [|y [|]]]; try discriminate Hlen. cbn in Hst. injection Hst as E1 E2. cbn. by rewrite E1, E2.
Defined.

Lemma api_discloses_own_witness :
  let '(resp, (_, w')) := codes_ServeHTTP demo_sched demo_svc (Some "usr_1") (a_request "PATCH /v1/codes/{id}") [] (5%nat, demo_world) in
  rs_Status resp = 200 /\ own_response demo_svc w' "usr_1" resp.
Proof.
  pose proof (api_discloses_own demo_sched demo_svc (fun k v => moves_refl v) (a_request "PATCH /v1/codes/{id}") "usr_1" [] 5 demo_world
    (co_ok _ demo_coherent)) as H.
  assert (E : rs_Status (codes_ServeHTTP demo_sched demo_svc (Some "usr_1") (a_request "PATCH /v1/codes/{id}") [] (5%nat, demo_world)).1 = 200)
    by (vm_compute; reflexivity).
  destruct (codes_ServeHTTP _ _ _ _ _ _) as [resp [n' w']]. split; [exact E|apply H].
Defined.

Lemma others_codes_hidden_witness :
  codes_ServeHTTP demo_sched demo_svc (Some "usr_2") (a_request "PATCH /v1/codes/{id}") [] (5%nat, demo_world)
  = (WriteError CodeNotFound "No such code." [] ∅, (6%nat, demo_world)).
Proof.
  apply (others_codes_hidden demo_sched demo_svc (a_request "PATCH /v1/codes/{id}") "usr_2" [] 5 demo_world).
  - eapply nc_patch; [reflexivity|reflexivity|reflexivity|vm_compute; discriminate].
  - reflexivity.
  - intros c. vm_compute. intros [= <-]. discriminate.
Defined.
