(* ===== verification/AccountApi.v ===== *)
(** * Accounts, tokens, aliases and analytics over HTTP

    [internal/httpapi/v1]: auth.go, tokens.go, admin.go and analytics.go, and
    the responses of the guards and refusals of [internal/auth/middleware.go].
    A handler is an [Act] over what the authenticator shares.  Signing in, and
    the window of an analytics query. *)
From Stdlib Require Import Ascii String.
From S2P Require Import GoLib Http Act Domain GoUrl Blob MemStore Concrete Store Password Auth AuthProps QrApi CodesApi.
Local Open Scope string_scope.
Local Open Scope Z_scope.
Local Open Scope go_scope.

(** A response and the cookies it sets. *)
Record Reply := { rp_Response : Response; rp_Cookies : list Cookie }.
Definition plain (r : Response) : Reply := {| rp_Response := r; rp_Cookies := [] |}.

Definition no_store : gmap string string := {[ "Cache-Control" := "no-store" ]}.

(** The part of the [Store] interface only these handlers use. *)
Class AccountStore (S : Type) := {
  ac_ListTokens : Env -> string -> S -> result (list APIToken);
  ac_ReleaseAlias : Env -> string -> S -> result unit * S;
  ac_QueryAnalytics : Env -> AnalyticsQuery -> S -> result AnalyticsResult;
}.
#[export] Instance memStore_account `{U : UnicodeTable} : AccountStore memStore :=
  {| ac_ListTokens := ListTokens; ac_ReleaseAlias := ReleaseAlias; ac_QueryAnalytics := QueryAnalytics |}.

(** ** The guards and refusals of [middleware.go] *)
Definition unauthenticated : Response := WriteError CodeUnauthorized "Authentication is required." [] ∅.

(** [RequireAuth] and [RequireAdmin] around a handler. *)
Definition with_identity {W} (id : option Identity) (next : Identity -> Act W Reply) : Act W Reply :=
  match id with
  | None => mret (plain unauthenticated)
  | Some i => next i
  end.
Definition with_admin {W} (id : option Identity) (next : Identity -> Act W Reply) : Act W Reply :=
  match id with
  | None => mret (plain unauthenticated)
  | Some i =>
      if id_IsAdmin i then next i
      else mret (plain (WriteError CodeForbidden "This operation requires an administrator." [] ∅))
  end.

(** ** Wire shapes *)
Record signinRequest := { si_Email : string; si_Password : string }.
Record tokenRequest := { tr_Name : string; tr_ExpiresAt : option Z }.

Definition toUserJSON (u : User) : json :=
  JObject [("id", JString (user_ID u)); ("email", JString (user_Email u)); ("is_admin", JBool (user_IsAdmin u));
           ("source", JString (user_Source u)); ("created_at", JTime (user_CreatedAt u));
           ("last_login_at", JPtr JTime (user_LastLoginAt u))].

Definition summary_fields (t : APIToken) : list (string * json) :=
  [("id", JString (token_ID t)); ("name", JString (token_Name t)); ("created_at", JTime (token_CreatedAt t));
   ("last_used_at", JPtr JTime (token_LastUsedAt t)); ("revoked_at", JPtr JTime (token_RevokedAt t));
   ("expires_at", JPtr JTime (token_ExpiresAt t))].
Definition toTokenSummary (t : APIToken) : json := JObject (summary_fields t).
(** [tokenCreated] embeds the summary. *)
Definition tokenCreated (t : APIToken) (secret : string) : json :=
  JObject (summary_fields t ++ [("secret", JString secret)]).

(** ** [auth.go] *)

(** The passes, memory, lanes, key and salt length of one run of Argon2. *)
Definition kdf_run : Type := Z * Z * Z * nat * nat.

Section handlers.
Context `{U : UnicodeTable} `{IP : IPParser} `{NT : IPNets} `{SH : SHA256} `{JW : JWT} `{A2 : Argon2}.
Context `{TP : TimeParse} `{JS : JsonDecode signinRequest} `{JT : JsonDecode tokenRequest}.
Context {DB : Type} `{ST : AuthStore DB} `{AC : AccountStore DB} `{CS : CodeStore DB}.
Notation W := (AuthWorld DB).
Context (sc : Sched W) (a : Authenticator).

(** What the verification of a password against [phc] spends. *)
Definition verify_runs (phc : string) : list kdf_run :=
  match parse_phc phc with
  | Some (m, t, p, salt, want) => [(t, m, p, length want, length salt)]
  | None => []
  end.
(** What [DummyVerify] spends: the first call also makes the throwaway hash. *)
Definition dummy_runs (dummy : option string) (phc : string) : list kdf_run :=
  (if dummy is Some _ then [] else [(argonTime, argonMemory, argonThreads, Z.to_nat argonKeyLen, argonSaltLen)])
  ++ (if String.eqb phc "" then [] else verify_runs phc).

Definition bad_login : Response := WriteError CodeUnauthorized "The email or password is incorrect." [] no_store.

(** The body of [signin] up to the session: the refusal, or the user.  The
    throwaway hash of the process and the runs of Argon2 go along. *)
Definition DummyLogin (dummy : option string) (password : string) :
    Act W (res Response User * option string * list kdf_run) :=
  p ← ask sc (fun env => DummyVerify (rand_byte env) dummy password);
  mret (Err bad_login, p.1, dummy_runs dummy (default "" p.1)).

Definition check_password (dummy : option string) (email password : string) :
    Act W (res Response User * option string * list kdf_run) :=
  u ← ask_db sc (fun env s => au_GetUserByEmail env email s);
  match u with
  | Err e => if negb (errors_Is e ErrNotFound) then mret (Err (Internal no_store), dummy, []) else DummyLogin dummy password
  | Ok u =>
      if String.eqb (user_PasswordHash u) "" then DummyLogin dummy password
      else
        let runs := verify_runs (user_PasswordHash u) in
        mret (match VerifyPassword (user_PasswordHash u) password with
              | Err _ => Err (Internal no_store)
              | Ok false => Err bad_login
              | Ok true => Ok u
              end, dummy, runs)
  end.

(** [signin]; [dummy] is the throwaway hash of the process, if it was made. *)
Definition signin (dummy : option string) (r : HttpRequest) : Act W (Reply * option string * list kdf_run) :=
  match decodeJSON (hr_Body r) with
  | Err resp => mret (plain resp, dummy, [])
  | Ok body =>
      let email := TrimSpace (si_Email body) in
      if String.eqb email "" || String.eqb (si_Password body) ""
      then mret (plain (WriteError CodeInvalidRequest "Both email and password are required." [("field", DStr "email,password")] ∅), dummy, [])
      else
        p ← check_password dummy email (si_Password body);
        let '(u, dummy, runs) := p in
        match u with
        | Err resp => mret (plain resp, dummy, runs)
        | Ok u =>
            s ← IssueSession sc a u;
            match s with
            | Err _ => mret (plain (Internal no_store), dummy, runs)
            | Ok (token, exp) =>
                c ← ask sc (fun env => SessionCookie a (time_Now env) token exp);
                mret ({| rp_Response := WriteJSON 200 (toUserJSON u) no_store; rp_Cookies := [c] |}, dummy, runs)
            end
        end
  end.

Definition signout : Act W Reply :=
  mret {| rp_Response := WriteStatus 204 no_store; rp_Cookies := [ClearSessionCookie a] |}.

Definition me (id : Identity) : Act W Reply :=
  u ← ask_db sc (fun env s => au_GetUserByID env (id_UserID id) s);
  mret (plain (match u with
               | Ok u => WriteJSON 200 (toUserJSON u) no_store
               | Err e => if errors_Is e ErrNotFound
                          then WriteError CodeUnauthorized "The presented credential is not valid." [] ∅ else Internal ∅
               end)).

(** ** [tokens.go] *)
Definition tokens_list (id : Identity) : Act W Reply :=
  toks ← ask_db sc (fun env s => ac_ListTokens env (id_UserID id) s);
  mret (plain (match toks with
               | Err _ => Internal ∅
               | Ok toks => WriteJSON 200 (JArray (toTokenSummary <$> toks)) no_store
               end)).

Definition tokens_create (r : HttpRequest) (id : Identity) : Act W Reply :=
  match decodeJSON (hr_Body r) with
  | Err resp => mret (plain resp)
  | Ok body =>
      let name := TrimSpace (tr_Name body) in
      if String.eqb name "" || (128 <? len name)
      then mret (plain (WriteError CodeInvalidRequest "Token name must be between 1 and 128 characters." [("field", DStr "name")] ∅))
      else
        past ← (match tr_ExpiresAt body with
                | Some e => ask sc (fun env => negb (Before (time_Now env) e)) | None => mret false end);
        if past : bool
        then mret (plain (WriteError CodeInvalidRequest "expires_at must be in the future." [("field", DStr "expires_at")] ∅))
        else
          t ← CreateToken sc a (id_UserID id) name (tr_ExpiresAt body);
          mret (plain (match t with
                       | Err _ => Internal ∅
                       | Ok (t, secret) => WriteJSON 201 (tokenCreated t secret) no_store
                       end))
  end.

Definition tokens_revoke (r : HttpRequest) (id : Identity) : Act W Reply :=
  e ← on_db sc (fun env s => au_RevokeToken env (hr_PathValue r "id") (id_UserID id) s);
  mret (plain (match e with
               | Ok _ => WriteStatus 204 ∅
               | Err e => if errors_Is e ErrNotFound then WriteError CodeNotFound "No such token." [] ∅ else Internal ∅
               end)).

(** ** [admin.go] *)
Definition releaseAlias (r : HttpRequest) : Act W Reply :=
  let alias := hr_PathValue r "alias" in
  e ← on_db sc (fun env s => ac_ReleaseAlias env alias s);
  mret (plain (match e with
               | Ok _ => WriteStatus 204 ∅
               | Err e =>
                   if errors_Is e ErrNotFound
                   then WriteError CodeNotFound "No reservation exists for that alias." [("alias", DStr alias)] ∅
                   else if errors_Is e ErrConflict
                   then WriteError CodeConflict "The alias belongs to a live code; delete the code first." [("alias", DStr alias)] ∅
                   else Internal ∅
               end)).

(** ** [analytics.go] *)
Definition defaultAnalyticsRange : Z := 30 * 24 * Hour.
Definition maxAnalyticsRange : Z := 366 * 24 * Hour.

Definition bad_param (param msg : string) (more : list (string * detail)) : Response :=
  WriteError CodeInvalidRequest msg (("param", DStr param) :: more) ∅.

(** The window, at [now], and the bucket a query string asks for. *)
Definition analytics_window (q : Values) (now : Z) : res Response (Z * Z) :=
  let from := now - defaultAnalyticsRange in
  win <-? (let s := Values_Get q "to" in
           if String.eqb s "" then Ok (from, now)
           else match time_Parse s with
           | None => Err (bad_param "to" "Query parameter 'to' must be an RFC 3339 timestamp." [])
           | Some to => Ok (if String.eqb (Values_Get q "from") "" then to - defaultAnalyticsRange else from, to)
           end);
  win <-? (let s := Values_Get q "from" in
           if String.eqb s "" then Ok win
           else match time_Parse s with
           | None => Err (bad_param "from" "Query parameter 'from' must be an RFC 3339 timestamp." [])
           | Some from => Ok (from, win.2)
           end);
  if negb (Before win.1 win.2) then Err (bad_param "from" "'from' must be earlier than 'to'." [])
  else if maxAnalyticsRange <? time_Sub win.2 win.1
  then Err (bad_param "to" "The requested range may span at most 366 days." [("max_days", DInt 366)])
  else Ok win.

Definition analytics_bucket (q : Values) : res Response Bucket :=
  let b := Values_Get q "bucket" in
  if bool_decide (b ∈ [""; BucketDay]) then Ok BucketDay
  else if bool_decide (b ∈ [BucketHour; BucketWeek]) then Ok b
  else Err (bad_param "bucket" "Query parameter 'bucket' must be one of hour, day, week." []).

Definition series_json (p : SeriesPoint) : json := JObject [("bucket_start", JTime (Start p)); ("count", JInt (sp_Count p))].
Definition breakdown_json (b : BreakdownValue) : json := JObject [("value", JString (bv_Value b)); ("count", JInt (bv_Count b))].

(** The map of breakdowns of the response; a map is written with its keys in order. *)
Definition breakdowns_of (res : AnalyticsResult) : gmap string (list BreakdownValue) :=
  delete DimTotal (Breakdowns res) ∪ list_to_map ((fun d => (d, [])) <$> [DimUAFamily; DimDeviceCategory; DimReferrerHost; DimIsBot]).
Definition map_json (m : gmap string (list BreakdownValue)) : json :=
  JObject ((fun '(k, l) => (k, JArray (breakdown_json <$> l)))
             <$> sort_Slice (fun x y : string * list BreakdownValue => str_ltb x.1 y.1) (map_to_list m)).

Definition analytics_json (c : Code) (from to : Z) (res : AnalyticsResult) : json :=
  JObject [("code_id", JString (code_ID c)); ("from", JTime from); ("to", JTime to); ("total", JInt (Total res));
           ("series", JArray (series_json <$> Series res)); ("breakdowns", map_json (breakdowns_of res))].

Definition not_tracked (c : Code) : Response :=
  WriteError CodeNotTracked
    "Scans of a direct code are not tracked: the printed image sends scanners straight to the destination without passing through this instance."
    [("mode", DStr (Mode c))] ∅.

(** [AnalyticsHandler.ServeHTTP]; [userID] is what the identity function says. *)
Definition analytics_ServeHTTP (userID : option string) (r : HttpRequest) : Act W Response :=
  match userID with
  | None | Some "" => mret unauthenticated
  | Some u =>
      let id := hr_PathValue r "id" in
      if String.eqb id "" then mret (WriteError CodeNotFound "No such code." [] ∅)
      else
        now ← ask sc time_Now;
        match analytics_window (hr_Query r) now, analytics_bucket (hr_Query r) with
        | Err resp, _ | Ok _, Err resp => mret resp
        | Ok (from, to), Ok bucket =>
            c ← ask_db sc (fun env s => st_GetCodeByID env id u s);
            match c with
            | Err e => mret (if errors_Is e ErrNotFound then WriteError CodeNotFound "No such code." [] ∅ else Internal ∅)
            | Ok c =>
                if String.eqb (Mode c) ModeDirect then mret (not_tracked c)
                else
                  res ← ask_db sc (fun env s => ac_QueryAnalytics env
                          {| q_CodeID := code_ID c; q_From := from; q_To := to; q_Bucket := bucket |} s);
                  mret (match res with
                        | Err _ => Internal ∅
                        | Ok res => WriteJSON 200 (analytics_json c from to res) no_store
                        end)
            end
        end
  end.
End handlers.

(** The run of Argon2 every hash of the program asks for. *)
Definition standard_run : kdf_run := (argonTime, argonMemory, argonThreads, Z.to_nat argonKeyLen, argonSaltLen).

(** A string [HashPassword] returned. *)
Definition hashed `{A2 : Argon2} (phc : string) : Prop := exists rand password, HashPassword rand password = Ok phc.

Section signin.
Context `{U : UnicodeTable} `{IP : IPParser} `{NT : IPNets} `{SH : SHA256} `{JW : JWT} `{A2 : Argon2} `{AL : !Argon2Ok}.
Context `{JS : JsonDecode signinRequest}.
Context {DB : Type} `{ST : AuthStore DB}.
Notation W := (AuthWorld DB).

Lemma hashed_runs phc : hashed phc -> verify_runs phc = [standard_run] /\ phc <> "" /\ forall pw, exists b, VerifyPassword phc pw = Ok b.
Proof.
  intros (rand & pw & E). unfold HashPassword in E. cbv zeta in E.
  assert (Hs : length (rand <$> seq 0 argonSaltLen) = argonSaltLen) by by rewrite length_fmap, length_seq.
  set (salt := rand <$> seq 0 argonSaltLen) in *. clearbody salt. injection E as <-.
  set (key := argon2_IDKey _ salt argonTime argonMemory argonThreads argonKeyLen).
  assert (Hl : Z.of_nat (length key) = argonKeyLen) by by apply argon2_key_length.
  assert (Hp : parse_phc (phc_string argonMemory argonTime argonThreads salt key) = Some (argonMemory, argonTime, argonThreads, salt, key))
    by (apply parse_phc_string; [done|done|done|by intros ->|by rewrite Hl]).
  split_and!; [|done|].
  - unfold verify_runs. rewrite Hp, Hs. unfold standard_run. repeat f_equal. lia.
  - intros pw'. unfold VerifyPassword. rewrite Hp. by eexists.
Qed.

Lemma hashed_dummy_runs phc : hashed phc -> dummy_runs (Some phc) phc = [standard_run].
Proof.
  intros (Hr & Hne & _)%hashed_runs. unfold dummy_runs. rewrite Hr. by apply String.eqb_neq in Hne as ->.
Qed.

(** What the lookup of a sign-in finds. *)
Definition lookup_at (sc : Sched W) (email : string) (n : nat) (w : W) : result User :=
  au_GetUserByEmail (sc_env sc n) email (aw_store (sc_others sc n w)).

Lemma DummyLogin_runs (sc : Sched W) phc pw st :
  hashed phc -> (DummyLogin sc (Some phc) pw st).1 = (Err bad_login, Some phc, [standard_run]).
Proof.
  intros H. destruct st as [n w]. unfold DummyLogin. rewrite bind_step. unfold ask, look, call, DummyVerify. cbn -[dummy_runs].
  by rewrite hashed_dummy_runs.
Qed.

(** C18: a failed sign-in tells nothing.  Once the throwaway hash of the process
    exists, a sign-in fails in one way only: whether the address is unknown,
    its account has no password, or the password is wrong, the answer is the
    same 401 with the same headers, no cookie is set, and exactly one run of
    Argon2 was made, with the same parameters and the same lengths. *)
Theorem signin_uniform (sc : Sched W) (a : Authenticator) (r : HttpRequest) (body : signinRequest) (dummy : string) (n : nat) (w : W) :
  decodeJSON (hr_Body r) = Ok body -> TrimSpace (si_Email body) <> "" -> si_Password body <> "" -> hashed dummy ->
  match lookup_at sc (TrimSpace (si_Email body)) n w with
  | Err e => errors_Is e ErrNotFound = true
  | Ok u => user_PasswordHash u = ""
            \/ (hashed (user_PasswordHash u) /\ VerifyPassword (user_PasswordHash u) (si_Password body) <> Ok true)
  end ->
  (signin sc a (Some dummy) r (n, w)).1 = (plain bad_login, Some dummy, [standard_run]).
Proof.
  intros Hd He Hp Hdummy Hu. unfold signin. rewrite Hd. cbv zeta.
  apply String.eqb_neq in He, Hp. rewrite He, Hp. cbn [orb].
  assert (Hc : (check_password sc (Some dummy) (TrimSpace (si_Email body)) (si_Password body) (n, w)).1
    = (Err bad_login, Some dummy, [standard_run])).
  { unfold check_password, ask_db, look, call. rewrite bind_step. cbn beta iota zeta. unfold lookup_at in Hu.
    destruct (au_GetUserByEmail _ _ _) as [u|e].
    - destruct Hu as [->|[Hh Hne]]; [by apply DummyLogin_runs|].
      apply hashed_runs in Hh as (Hr & Hn & Hv). apply String.eqb_neq in Hn. rewrite Hn, Hr. cbn.
      destruct (Hv (si_Password body)) as [[] Eb]; rewrite Eb in Hne |- *; done.
    - rewrite Hu. cbn [negb]. by apply DummyLogin_runs. }
  rewrite bind_step. destruct (check_password _ _ _ _ _) as [x st]. cbn [fst] in Hc. by rewrite Hc.
Qed.

(** The first sign-in that needs the throwaway hash also makes it. *)
Lemma first_dummy_costs_twice (sc : Sched W) pw n w : length (DummyLogin sc None pw (n, w)).1.2 = 2%nat.
Proof.
  unfold DummyLogin. rewrite bind_step. unfold ask, look, call, DummyVerify.
  destruct (HashPassword (rand_byte (sc_env sc n)) dummy_password) as [h|e] eqn:E; [|done].
  assert (H : hashed h) by by eexists _, _. apply hashed_runs in H as (Hr & Hne & _). apply String.eqb_neq in Hne.
  cbn -[verify_runs]. by rewrite Hne, Hr.
Qed.
End signin.

(** ** Analytics *)
Section analytics.
Context `{TP : TimeParse}.

Lemma analytics_window_ok q now from to :
  analytics_window q now = Ok (from, to) -> from < to /\ to - from <= maxAnalyticsRange.
Proof.
  unfold analytics_window. destruct (if String.eqb _ "" then Ok _ else _) as [win|]; [|done].
  destruct (if String.eqb (Values_Get q "from") "" then Ok win else _) as [[f t]|]; [|done]. cbn [fst snd].
  destruct (negb (Before f t)) eqn:Eb; [done|]. destruct (Z.ltb_spec maxAnalyticsRange (time_Sub t f)); [done|].
  intros [= <- <-]. apply negb_false_iff in Eb. unfold Before in Eb. unfold time_Sub, maxAnalyticsRange, Hour, Minute, Second in *.
  split; lia.
Qed.
End analytics.

(** ** Witness: an account with a password and an unknown address *)
#[local] Instance no_ip : IPParser := {| netip_is_IPv6 := fun _ => false; net_ParseIP := fun _ => false |}.
#[local] Instance no_nets : IPNets := {| IPNet := unit; net_ParseCIDR := fun _ => None; net_Contains := fun _ _ => false |}.
#[local] Instance no_sha : SHA256 := {| sha256_Sum256 := fun l => l |}.
#[local] Instance no_jwt : JWT := {| jwt_SignedString := fun _ _ => Ok "jwt"; jwt_ParseWithClaims := fun _ _ _ _ => None |}.
#[local] Instance toy_argon : Argon2 := {|
  argon2_Version := 19;
  argon2_IDKey := fun pw salt _ _ _ n => take (Z.to_nat n) (pw ++ salt ++ replicate (Z.to_nat n) "000"%char)%list |}.
#[local] Instance toy_argon_ok : Argon2Ok.
Proof.
  constructor; [done|]. intros pw salt t m p n Hn. cbn [argon2_IDKey toy_argon]. rewrite length_take, !length_app, length_replicate. lia.
Qed.
(** A decoder of bodies of the form [email LF password]. *)
#[local] Instance lines_body : JsonDecode signinRequest := {|
  json_Decode := fun l => let '(e, p, _) := CutByte (of_bytes l) "010" in Ok ({| si_Email := e; si_Password := p |}, false) |}.

Definition hash_of (pw : string) : string := match HashPassword (rand_byte env0) pw with Ok h => h | Err _ => "" end.
Definition bob : User := {|
  user_ID := "usr_2"; user_Email := "bob@example.com"; user_PasswordHash := hash_of "tulip"; user_IsAdmin := false;
  user_TokenVersion := 0; user_Source := UserSourceLocal; user_CreatedAt := epoch; user_LastLoginAt := None |}.
Definition bob_world : AuthWorld memStore :=
  Build_AuthWorld (CreateUser env0 bob NewMemStore).2 (newTTLCache DefaultCacheTTL) (newTTLCache DefaultCacheTTL) ∅.
Definition calm : Sched (AuthWorld memStore) := {| sc_env := env_at; sc_others := fun _ w => w |}.
Definition bob_auth : Authenticator := {|
  a_signingKey := bytes "key"; a_sessionTTL := DefaultSessionTTL; a_cacheTTL := DefaultCacheTTL; a_pepper := [];
  a_cookieSecure := true; a_fwdEnabled := false; a_fwdHeader := ""; a_fwdTrusted := [] |}.
Definition login (email pw : string) : HttpRequest := {|
  hr_Method := "POST"; hr_Pattern := "POST /v1/auth/signin"; hr_PathValue := fun _ => ""; hr_Query := ∅; hr_Header := fun _ => "";
  hr_Body := bytes (email +:+ String "010" pw) |}.

Lemma signin_uniform_witness :
  let dummy := hash_of dummy_password in
  (signin calm bob_auth (Some dummy) (login " bob@example.com" "rose") (5%nat, bob_world)).1
    = (plain bad_login, Some dummy, [standard_run])
  /\ (signin calm bob_auth (Some dummy) (login "eve@example.com" "rose") (5%nat, bob_world)).1
    = (plain bad_login, Some dummy, [standard_run])
  /\ rs_Status (rp_Response (signin calm bob_auth (Some dummy) (login "bob@example.com" "tulip") (5%nat, bob_world)).1.1.1) = 200.
Proof.
  intros dummy.
  assert (Hh : forall pw, hashed (hash_of pw)) by (intros pw; exists (rand_byte env0), pw; reflexivity).
  split; [|split; [|vm_compute; reflexivity]].
  - eapply (signin_uniform calm bob_auth _ {| si_Email := " bob@example.com"; si_Password := "rose" |});
      [vm_compute; reflexivity|vm_compute; discriminate|discriminate|apply Hh|].
    assert (E : lookup_at calm "bob@example.com" 5 bob_world = Ok bob) by (vm_compute; reflexivity).
    replace (TrimSpace _) with "bob@example.com" by (vm_compute; reflexivity). rewrite E. right. split; [apply Hh|]. vm_compute. discriminate.
  - eapply (signin_uniform calm bob_auth _ {| si_Email := "eve@example.com"; si_Password := "rose" |});
      [vm_compute; reflexivity|vm_compute; discriminate|discriminate|apply Hh|vm_compute; reflexivity].
Defined.
