(* ===== verification/Mux.v ===== *)
(** * [http.ServeMux] (package [net/http])

    The patterns of the program have an optional method, literal segments,
    wildcards of one segment and a trailing slash, and no host.  A mux finds
    the handler of a request by its method and its escaped path. *)
From Stdlib Require Import Ascii String.
From S2P Require Import GoLib Http GoUrl.
Local Open Scope string_scope.
Local Open Scope Z_scope.

(** ** Patterns *)
Inductive segment := Lit (s : string) | Wild (name : string) | Multi.
#[export] Instance segment_eq_dec : EqDecision segment.
Proof. solve_decision. Defined.

Record pattern := { pt_Method : string; pt_Segments : list segment }.

(** The segments of the text after the first slash. *)
Definition parse_segment (s : string) : segment :=
  if HasPrefix s "{" && HasSuffix s "}" then Wild (take_bytes (String.length s - 2) (drop_bytes 1 s)) else Lit s.
Fixpoint parse_segments (parts : list string) : list segment :=
  match parts with
  | [] => []
  | [""] => [Multi]
  | s :: parts' => parse_segment s :: parse_segments parts'
  end.

(** [parsePattern]. *)
Definition parsePattern (s : string) : pattern :=
  let '(method, rest, found) := CutByte s " " in
  let '(method, path) := if found : bool then (method, rest) else ("", s) in
  {| pt_Method := method; pt_Segments := parse_segments (SplitByte (drop_bytes 1 path) "/") |}.

(** ** Matching *)
Definition pathUnescape (s : string) : string := default s (unescape encodeOther s).

(** The segments of a path as [firstSegment] takes them off. *)
Fixpoint segments_of (parts : list string) : list string :=
  match parts with
  | [] => []
  | [""] => ["/"]
  | s :: parts' => pathUnescape s :: segments_of parts'
  end.
Definition path_segments (path : string) : list string :=
  if String.eqb path "" then [] else segments_of (SplitByte (drop_bytes 1 path) "/").

(** [cleanPath]. *)
Definition cleanPath (p : string) : string :=
  if String.eqb p "" then "/"
  else
    let p := if HasPrefix p "/" then p else "/" +:+ p in
    let np := path_Clean p in
    if HasSuffix p "/" && negb (String.eqb np "/") then np +:+ "/" else np.

Section mux.
Context {H : Type}.

(** What is left of a pattern below a node of the routing tree. *)
Notation below := (list (list segment * H)) (only parsing).

Definition literal_child (s : string) (l : below) : below :=
  omap (fun p => match p.1 with Lit x :: segs => if String.eqb x s then Some (segs, p.2) else None | _ => None end) l.
Definition empty_child (l : below) : below :=
  omap (fun p => match p.1 with Wild _ :: segs => Some (segs, p.2) | _ => None end) l.
Definition multi_child (l : below) : option H := head (omap (fun p => match p.1 with [Multi] => Some p.2 | _ => None end) l).
Definition leaf (l : below) : option H := head (omap (fun p => match p.1 with [] => Some p.2 | _ => None end) l).

(** [routingNode.matchPath]: the handler and the values of the wildcards. *)
Fixpoint matchPath (l : below) (path : list string) (matches : list string) : option (H * list string) :=
  match path with
  | [] => (fun h => (h, matches)) <$> leaf l
  | s :: rest =>
      match matchPath (literal_child s l) rest matches with
      | Some r => Some r
      | None =>
          match (if String.eqb s "/" then None else matchPath (empty_child l) rest (matches ++ [s])) with
          | Some r => Some r
          | None => (fun h => (h, matches)) <$> multi_child l
          end
      end
  end.
End mux.

Record entry (H : Type) := { e_Pattern : string; e_Handler : H }.
Global Arguments e_Pattern {H}.
Global Arguments e_Handler {H}.
Global Arguments Build_entry {H}.
Definition Mux (H : Type) : Type := list (entry H).

Section servemux.
Context {H : Type}.

Definition of_method (m : string) (mux : Mux H) : list (list segment * entry H) :=
  omap (fun e => let p := parsePattern (e_Pattern e) in
                 if String.eqb (pt_Method p) m then Some (pt_Segments p, e) else None) mux.

(** [routingNode.match]: GET answers HEAD, and a pattern without a method answers any. *)
Definition mux_match (mux : Mux H) (method path : string) : option (entry H * list string) :=
  let segs := path_segments path in
  match matchPath (of_method method mux) segs [] with
  | Some r => Some r
  | None =>
      match (if String.eqb method "HEAD" then matchPath (of_method "GET" mux) segs [] else None) with
      | Some r => Some r
      | None => matchPath (of_method "" mux) segs []
      end
  end.

Definition is_multi (segs : list segment) : bool := match last segs with Some Multi => true | _ => false end.

(** [exactMatch]: no wildcard takes more than a segment. *)
Definition exactMatch (r : option (entry H * list string)) (path : string) : bool :=
  match r with
  | None => false
  | Some (e, _) =>
      let segs := pt_Segments (parsePattern (e_Pattern e)) in
      if negb (is_multi segs) then true
      else if negb (String.eqb path "") && negb (HasSuffix path "/") then false
      else Nat.eqb (length segs) (length (SplitByte path "/") - 1)
  end.

Inductive found :=
| Matched (e : entry H) (matches : list string)
| Redirected (path : string)
| MethodNotAllowed (allowed : list string)
| NotFound.

Definition Methods : list string := ["CONNECT"; "DELETE"; "GET"; "HEAD"; "OPTIONS"; "PATCH"; "POST"; "PUT"; "TRACE"].

(** [matchOrRedirect]: [Some (Err path)] is a redirect to a trailing slash. *)
Definition matchOrRedirect (mux : Mux H) (method path : string) : option (entry H * list string) + string :=
  let n := mux_match mux method path in
  let slashed := path +:+ "/" in
  if negb (exactMatch n path) && negb (HasSuffix path "/") && negb (String.eqb path "")
     && exactMatch (mux_match mux method slashed) slashed
  then inr slashed else inl n.

(** [matchingMethods]; a mux with a pattern of the other kind for the path, or
    for the path with a slash more, allows that kind.  In order, GET brings HEAD. *)
Definition mux_allows (mux : Mux H) (path m : string) : bool :=
  let segs := path_segments path in
  let slashed := path_segments (path +:+ "/") in
  bool_decide (is_Some (matchPath (of_method m mux) segs []))
  || (negb (HasSuffix path "/") && bool_decide (is_Some (matchPath (of_method m mux) slashed []))).
Definition matchingMethods (mux : Mux H) (path : string) : list string :=
  filter (fun m => mux_allows mux path m || (String.eqb m "HEAD" && mux_allows mux path "GET")) Methods.

Definition found_or_not (mux : Mux H) (path : string) (n : option (entry H * list string)) : found :=
  match n with
  | Some (e, matches) => Matched e matches
  | None => match matchingMethods mux path with [] => NotFound | ms => MethodNotAllowed ms end
  end.

(** [findHandler]; the path of a CONNECT is taken as it is. *)
Definition findHandler (mux : Mux H) (method escapedPath : string) : found :=
  let path := if String.eqb method "CONNECT" then escapedPath else cleanPath escapedPath in
  match matchOrRedirect mux method path with
  | inr target => Redirected target
  | inl n => if negb (String.eqb path escapedPath) then Redirected path else found_or_not mux path n
  end.
End servemux.
Global Arguments found : clear implicits.
Global Arguments Matched {H}.
Global Arguments Redirected {H}.
Global Arguments MethodNotAllowed {H}.
Global Arguments NotFound {H}.

(** The names of the wildcards of a pattern, in order. *)
Definition wildcards (p : pattern) : list string :=
  omap (fun s => match s with Wild name => Some name | _ => None end) (pt_Segments p).
(** [r.PathValue] after a match. *)
Definition path_values (p : string) (matches : list string) (name : string) : string :=
  default "" ((list_to_map (zip (wildcards (parsePattern p)) matches) : gmap string string) !! name).

(** [http.Error], and the redirects of the release. *)
Definition http_Error (status : Z) (text : string) (h : gmap string string) : Response := {|
  rs_Status := status;
  rs_Header := <["X-Content-Type-Options" := "nosniff"]> (<["Content-Type" := "text/plain; charset=utf-8"]> h);
  rs_Body := Raw (bytes (text +:+ String "010" "")) |}.
Class Redirects := {
  mux_redirect : string -> string -> string -> Response;      (* method, path, raw query *)
  RedirectHandler : string -> string -> Z -> Response;        (* method, url, status *)
}.

Definition allow_list (ms : list string) : string := String.concat ", " ms.
