(* ===== verification/Router.v ===== *)
(** * The router ([internal/httpapi/router.go])

    Three muxes behind one root mux: the public group, the protected group
    behind authentication and the CSRF check, and the console behind
    authentication.  A handler turns a request into a value of [T]. *)
From Stdlib Require Import Ascii String.
From S2P Require Import GoLib Http GoUrl Mux Auth AccountApi.
Local Open Scope string_scope.
Local Open Scope Z_scope.

(** A request with what the middleware has put in its context: the identity
    and the pattern of the route. *)
Record Incoming := {
  in_Http : HttpRequest;
  in_EscapedPath : string;
  in_Path : string;
  in_RawQuery : string;
  in_Creds : Request;
  in_Identity : option Identity;
  in_Route : string;
}.

(** The mux sets the pattern and the values of its wildcards. *)
Definition with_match (r : Incoming) (p : string) (matches : list string) : Incoming := {|
  in_Http := {| hr_Method := hr_Method (in_Http r); hr_Pattern := p; hr_PathValue := path_values p matches;
                hr_Query := hr_Query (in_Http r); hr_Header := hr_Header (in_Http r); hr_Body := hr_Body (in_Http r) |};
  in_EscapedPath := in_EscapedPath r; in_Path := in_Path r; in_RawQuery := in_RawQuery r; in_Creds := in_Creds r;
  in_Identity := in_Identity r; in_Route := in_Route r |}.
Definition set_Route (p : string) (r : Incoming) : Incoming := {|
  in_Http := in_Http r; in_EscapedPath := in_EscapedPath r; in_Path := in_Path r; in_RawQuery := in_RawQuery r;
  in_Creds := in_Creds r; in_Identity := in_Identity r; in_Route := p |}.
Definition set_Identity (id : option Identity) (r : Incoming) : Incoming := {|
  in_Http := in_Http r; in_EscapedPath := in_EscapedPath r; in_Path := in_Path r; in_RawQuery := in_RawQuery r;
  in_Creds := in_Creds r; in_Identity := id; in_Route := in_Route r |}.

(** ** The table *)
Inductive Group := GroupPublic | GroupProtected | GroupConsole.
#[export] Instance group_eq_dec : EqDecision Group.
Proof. solve_decision. Defined.
Inductive HandlerName := HPublic | HQR | HCodes | HAuth | HTokens | HAdmin | HAnalytics | HExport | HConsole | HHealthz | HReadyz.
#[export] Instance handler_name_eq_dec : EqDecision HandlerName.
Proof. solve_decision. Defined.
Record Route := { rt_Group : Group; rt_Pattern : string; rt_Handler : HandlerName }.

Definition SigninPattern : string := "POST /v1/auth/signin".
Definition Routes : list Route := [
  Build_Route GroupPublic "GET /r/{code}" HPublic;
  Build_Route GroupPublic "GET /i/{file}" HPublic;
  Build_Route GroupPublic "GET /healthz" HHealthz;
  Build_Route GroupPublic "GET /readyz" HReadyz;
  Build_Route GroupPublic SigninPattern HAuth;
  Build_Route GroupProtected "GET /v1/qr" HQR;
  Build_Route GroupProtected "POST /v1/qr" HQR;
  Build_Route GroupProtected "GET /v1/codes" HCodes;
  Build_Route GroupProtected "POST /v1/codes" HCodes;
  Build_Route GroupProtected "POST /v1/codes/batch" HCodes;
  Build_Route GroupProtected "GET /v1/codes/{id}" HCodes;
  Build_Route GroupProtected "PATCH /v1/codes/{id}" HCodes;
  Build_Route GroupProtected "DELETE /v1/codes/{id}" HCodes;
  Build_Route GroupProtected "POST /v1/codes/{id}/disable" HCodes;
  Build_Route GroupProtected "POST /v1/codes/{id}/enable" HCodes;
  Build_Route GroupProtected "GET /v1/codes/{id}/analytics" HAnalytics;
  Build_Route GroupProtected "POST /v1/auth/signout" HAuth;
  Build_Route GroupProtected "GET /v1/auth/me" HAuth;
  Build_Route GroupProtected "GET /v1/tokens" HTokens;
  Build_Route GroupProtected "POST /v1/tokens" HTokens;
  Build_Route GroupProtected "DELETE /v1/tokens/{id}" HTokens;
  Build_Route GroupProtected "DELETE /v1/admin/aliases/{alias}" HAdmin;
  Build_Route GroupProtected "GET /v1/export" HExport;
  Build_Route GroupConsole "/ui/" HConsole].

(** ** Handlers *)
Section router.
Context `{RD : Redirects} {T : Type} (write : Response -> T).
Definition Handler : Type := Incoming -> T.
Definition Middleware : Type := Handler -> Handler.

Record Handlers := {
  Public : option Handler; QR : option Handler; Codes : option Handler; Auth_ : option Handler; Tokens : option Handler;
  Admin : option Handler; Analytics : option Handler; Export_ : option Handler; Console : option Handler;
  Healthz : option Handler; Readyz : option Handler;
}.
Record RouterOptions := {
  Common : list Middleware;
  PerRoute : list Middleware;
  o_Auth : option Middleware;
  o_CSRF : option Middleware;
  SigninLimiter : option Middleware;
}.

Definition not_implemented : Handler := fun r => write (NotImplemented (hr_Pattern (in_Http r))).

Definition lookup (h : Handlers) (name : HandlerName) : Handler :=
  default not_implemented
    match name with
    | HPublic => Public h | HQR => QR h | HCodes => Codes h | HAuth => Auth_ h | HTokens => Tokens h | HAdmin => Admin h
    | HAnalytics => Analytics h | HExport => Export_ h | HConsole => Console h | HHealthz => Healthz h | HReadyz => Readyz h
    end.

(** [ServeMux.ServeHTTP]. *)
Definition mux_ServeHTTP (mux : Mux Handler) : Handler := fun r =>
  let m := hr_Method (in_Http r) in
  match findHandler mux m (in_EscapedPath r) with
  | Matched e matches => e_Handler e (with_match r (e_Pattern e) matches)
  | Redirected path => write (mux_redirect m path (in_RawQuery r))
  | MethodNotAllowed ms => write (http_Error 405 "Method Not Allowed" {[ "Allow" := allow_list ms ]})
  | NotFound => write (http_Error 404 "404 page not found" ∅)
  end.

(** [jsonNotFound]: only the mux's own 404 is replaced. *)
Definition jsonNotFound (mux : Mux Handler) : Handler := fun r =>
  match findHandler mux (hr_Method (in_Http r)) (in_EscapedPath r) with
  | NotFound => write (WriteError CodeNotFound "No such endpoint." [] ∅)
  | _ => mux_ServeHTTP mux r
  end.

Definition withPattern (p : string) (next : Handler) : Handler := fun r => next (set_Route p r).

(** The first of a list is the outermost. *)
Definition wrap_all (ms : list Middleware) (hd : Handler) : Handler := foldr (fun m hd => m hd) hd ms.
Definition wrap (m : option Middleware) (hd : Handler) : Handler := match m with Some m => m hd | None => hd end.

Definition route_handler (h : Handlers) (o : RouterOptions) (rt : Route) : Handler :=
  let hd := withPattern (rt_Pattern rt) (lookup h (rt_Handler rt)) in
  let hd := if String.eqb (rt_Pattern rt) SigninPattern then wrap (SigninLimiter o) hd else hd in
  let hd :=
    match rt_Group rt, SigninLimiter o with
    | GroupConsole, Some limit =>
        fun r => if String.eqb (hr_Method (in_Http r)) "POST" && String.eqb (in_Path r) "/ui/signin" then limit hd r else hd r
    | _, _ => hd
    end in
  wrap_all (PerRoute o) hd.

Definition group_mux (h : Handlers) (o : RouterOptions) (g : Group) : Mux Handler :=
  (fun rt => Build_entry (rt_Pattern rt) (route_handler h o rt)) <$> filter (fun rt => rt_Group rt = g) Routes.

Definition protectedChain (h : Handlers) (o : RouterOptions) : Handler :=
  wrap (o_Auth o) (wrap (o_CSRF o) (jsonNotFound (group_mux h o GroupProtected))).
Definition consoleChain (h : Handlers) (o : RouterOptions) : Handler :=
  wrap (o_Auth o) (mux_ServeHTTP (group_mux h o GroupConsole)).

Definition root (h : Handlers) (o : RouterOptions) : Mux Handler :=
  let public := mux_ServeHTTP (group_mux h o GroupPublic) in [
    Build_entry "/r/" public; Build_entry "/i/" public; Build_entry "/healthz" public; Build_entry "/readyz" public;
    Build_entry SigninPattern public; Build_entry "/v1/" (protectedChain h o); Build_entry "/ui/" (consoleChain h o);
    Build_entry "/" (fun r => write (RedirectHandler (hr_Method (in_Http r)) "/ui/" 302))].

Definition NewRouter (h : Handlers) (o : RouterOptions) : Handler := wrap_all (Common o) (mux_ServeHTTP (root h o)).

(** ** The middleware of the protected group *)

(** [middleware.CSRF(auth.Method)]. *)
Definition csrf : Middleware := fun next r =>
  match CSRF (hr_Method (in_Http r)) (default "" (id_Method <$> in_Identity r)) (hr_Header (in_Http r) CSRFHeader) with
  | Some resp => write resp
  | None => next r
  end.
End router.
