(* ===== verification/RouterFacts.v ===== *)
(** * Which requests pass through authentication *)
From Stdlib Require Import Ascii String.
From S2P Require Import GoLib Text Http GoUrl Mux Auth AccountApi Router.
Local Open Scope string_scope.
Local Open Scope Z_scope.

(** ** Paths *)
Lemma SplitByte_length_pos s c : (1 <= length (SplitByte s c))%nat.
Proof. induction s as [|d s IH]; simpl; [lia|]. destruct (Ascii.eqb d c); [simpl; lia|]. destruct (SplitByte s c); simpl in *; lia. Qed.
Lemma SplitByte_cons_inv s c : exists p l, SplitByte s c = p :: l.
Proof. pose proof (SplitByte_length_pos s c). destruct (SplitByte s c) as [|p l]; [simpl in *; lia|by eexists _, _]. Qed.

Lemma segments_of_cons s l : l <> [] -> segments_of (s :: l) = pathUnescape s :: segments_of l.
Proof. destruct l as [|t l]; [done|]. by destruct s. Qed.
Lemma segments_of_single s : segments_of [s] = [if String.eqb s "" then "/" else pathUnescape s].
Proof. by destruct s. Qed.
Lemma length_segments_of l : length (segments_of l) = length l.
Proof.
  induction l as [|s l IH]; [done|]. destruct l as [|t l]; [by rewrite segments_of_single|].
  rewrite segments_of_cons by done. cbn [length] in *. by rewrite IH.
Qed.
Lemma segments_of_slashed l : last l <> Some "" -> l <> [] -> segments_of (l ++ [""]) = (segments_of l ++ ["/"])%list.
Proof.
  induction l as [|s l IH]; [done|]. intros Hl _. destruct l as [|t l].
  - destruct s as [|c s]; [done|]. done.
  - rewrite <- app_comm_cons, segments_of_cons by by destruct l. rewrite IH by done. by rewrite (segments_of_cons s (t :: l)).
Qed.

Lemma SplitByte_slashed s : SplitByte (s +:+ "/") "/" = (SplitByte s "/" ++ [""])%list.
Proof.
  induction s as [|c s IH]; [done|]. change (String c s +:+ "/") with (String c (s +:+ "/")). cbn [SplitByte]. rewrite IH.
  destruct (Ascii.eqb c "/"); [done|]. by destruct (SplitByte_cons_inv s "/") as (? & ? & ->).
Qed.

Lemma HasSuffix_cons c s : s <> "" -> HasSuffix (String c s) "/" = HasSuffix s "/".
Proof.
  intros Hs. unfold HasSuffix, rev_string. cbn [bytes rev]. destruct s as [|d s]; [done|]. cbn [bytes rev].
  unfold rev_string. rewrite <- app_assoc. assert (Hn : forall x, HasPrefix x "" = true) by by intros [].
  by destruct (rev (bytes s)) as [|e l]; cbn -[HasPrefix app]; cbn [HasPrefix app of_bytes]; rewrite ?Hn.
Qed.
Lemma last_SplitByte s : last (SplitByte s "/") = Some "" <-> s = "" \/ HasSuffix s "/" = true.
Proof.
  induction s as [|c s IH]; [split; auto|]. cbn [SplitByte]. destruct (SplitByte_cons_inv s "/") as (p & l & E).
  destruct (decide (s = "")) as [->|Hs].
  - cbn [SplitByte]. unfold HasSuffix, rev_string. cbn [bytes rev app of_bytes HasPrefix]. rewrite (Ascii.eqb_sym "/" c), andb_true_r.
    destruct (Ascii.eqb c "/"); cbn [last]; naive_solver.
  - rewrite HasSuffix_cons by done. rewrite E in *. destruct (Ascii.eqb c "/"); [cbn [last] in *; naive_solver|].
    destruct l as [|t l]; [|cbn [last] in *; naive_solver]. cbn [last] in *. split; [by intros [=]|]. intros [[=]|Hx].
    assert (Hp : Some p = Some "") by (apply IH; by right). injection Hp as ->. destruct s as [|d s]; [done|].
    exfalso. revert E. cbn [SplitByte]. destruct (SplitByte_cons_inv s "/") as (p' & l' & ->).
    destruct (Ascii.eqb_spec d "/") as [->|]; [|by intros [=]]. by intros [=].
Qed.

(** Of a path that starts with a slash. *)
Lemma path_segments_parts q : path_segments (String "/" q) = segments_of (SplitByte q "/").
Proof. unfold path_segments. cbn -[segments_of SplitByte]. by destruct q. Qed.
Lemma slashes_segments q : (length (SplitByte (String "/" q) "/") - 1)%nat = length (path_segments (String "/" q)).
Proof. rewrite path_segments_parts, length_segments_of. simpl. lia. Qed.
Lemma path_segments_slashed q :
  HasSuffix (String "/" q) "/" = false -> path_segments (String "/" q +:+ "/") = (path_segments (String "/" q) ++ ["/"])%list.
Proof.
  intros Hp. change (String "/" q +:+ "/") with (String "/" (q +:+ "/")). rewrite !path_segments_parts, SplitByte_slashed.
  apply segments_of_slashed.
  - intros Hl%last_SplitByte. destruct (decide (q = "")) as [->|Hq]; [done|]. rewrite HasSuffix_cons in Hp by done.
    destruct Hl; congruence.
  - destruct (SplitByte_cons_inv q "/") as (? & ? & ->). done.
Qed.

(** ** The root mux *)
Lemma matchPath_nil {H} path ms : matchPath ([] : list (list segment * H)) path ms = None.
Proof. revert ms. induction path as [|s path IH]; intros ms; [done|]. cbn [matchPath literal_child empty_child omap]. by rewrite !IH; destruct (String.eqb s "/"). Qed.

Section root.
Context {H : Type} (pub prot cons home : H).

Definition root_entries : Mux H := [
  Build_entry "/r/" pub; Build_entry "/i/" pub; Build_entry "/healthz" pub; Build_entry "/readyz" pub;
  Build_entry SigninPattern pub; Build_entry "/v1/" prot; Build_entry "/ui/" cons; Build_entry "/" home].

(** The entry a path leads to. *)
Definition root_entry (m : string) (segs : list string) : entry H :=
  match segs with
  | [] => Build_entry "/" home
  | [s] => if String.eqb s "healthz" then Build_entry "/healthz" pub
           else if String.eqb s "readyz" then Build_entry "/readyz" pub else Build_entry "/" home
  | s :: rest =>
      if String.eqb s "r" then Build_entry "/r/" pub
      else if String.eqb s "i" then Build_entry "/i/" pub
      else if String.eqb s "v1" then
        if String.eqb m "POST" && bool_decide (rest = ["auth"; "signin"]) then Build_entry SigninPattern pub
        else Build_entry "/v1/" prot
      else if String.eqb s "ui" then Build_entry "/ui/" cons
      else Build_entry "/" home
  end.

Notation anys := [([Lit "r"; Multi], Build_entry "/r/" pub); ([Lit "i"; Multi], Build_entry "/i/" pub);
  ([Lit "healthz"], Build_entry "/healthz" pub); ([Lit "readyz"], Build_entry "/readyz" pub);
  ([Lit "v1"; Multi], Build_entry "/v1/" prot); ([Lit "ui"; Multi], Build_entry "/ui/" cons); ([Multi], Build_entry "/" home)].

Lemma of_method_root m : of_method m root_entries =
  if String.eqb "POST" m then [([Lit "v1"; Lit "auth"; Lit "signin"], Build_entry SigninPattern pub)]
  else if String.eqb "" m then anys else [].
Proof.
  unfold of_method, root_entries. cbn [omap list_omap e_Pattern].
  repeat match goal with |- context [pt_Method (parsePattern ?s)] =>
    let x := eval vm_compute in (parsePattern s) in change (parsePattern s) with x end.
  cbn [pt_Method pt_Segments]. destruct (String.eqb_spec "POST" m) as [<-|]; [done|]. by destruct (String.eqb "" m).
Qed.

Lemma match_multi s rest (e : entry H) ms : matchPath [([Multi], e)] (s :: rest) ms = Some (e, ms).
Proof.
  cbn [matchPath literal_child empty_child omap list_omap fst]. rewrite !matchPath_nil. by destruct (String.eqb s "/").
Qed.

Lemma match_leaf rest (e : entry H) ms : matchPath [([], e)] rest ms = match rest with [] => Some (e, ms) | _ => None end.
Proof.
  destruct rest as [|s rest]; [done|]. cbn [matchPath literal_child empty_child omap list_omap fst].
  rewrite !matchPath_nil. by destruct (String.eqb s "/").
Qed.

(** Below the root node: a literal child, or the trailing slash. *)
Lemma match_below (l : list (list segment * entry H)) s rest ms :
  empty_child l = [] ->
  matchPath l (s :: rest) ms = match matchPath (literal_child s l) rest ms with
                               | Some r => Some r | None => (fun e => (e, ms)) <$> multi_child l end.
Proof. intros He. cbn [matchPath]. rewrite He, matchPath_nil. destruct (matchPath _ rest ms); [done|]. by destruct (String.eqb s "/"). Qed.

Lemma match_anys s rest : matchPath anys (s :: rest) [] = Some (root_entry "" (s :: rest), []).
Proof.
  rewrite match_below by done. unfold root_entry, literal_child. cbn [omap list_omap fst snd multi_child head].
  rewrite (String.eqb_sym s "healthz"), (String.eqb_sym s "readyz"), (String.eqb_sym s "r"), (String.eqb_sym s "i"),
    (String.eqb_sym s "v1"), (String.eqb_sym s "ui").
  destruct (String.eqb_spec "r" s) as [<-|_]; [destruct rest; [done|by rewrite match_multi]|].
  destruct (String.eqb_spec "i" s) as [<-|_]; [destruct rest; [done|by rewrite match_multi]|].
  destruct (String.eqb_spec "healthz" s) as [<-|_]; [rewrite match_leaf; by destruct rest|].
  destruct (String.eqb_spec "readyz" s) as [<-|_]; [rewrite match_leaf; by destruct rest|].
  destruct (String.eqb_spec "v1" s) as [<-|_]; [destruct rest; [done|by rewrite match_multi]|].
  destruct (String.eqb_spec "ui" s) as [<-|_]; [destruct rest; [done|by rewrite match_multi]|].
  rewrite matchPath_nil. by destruct rest.
Qed.

Lemma match_signin segs (e : entry H) :
  matchPath [([Lit "v1"; Lit "auth"; Lit "signin"], e)] segs [] = if bool_decide (segs = ["v1"; "auth"; "signin"]) then Some (e, []) else None.
Proof.
  destruct segs as [|s1 segs]; [done|]. rewrite match_below by done. unfold literal_child. cbn [omap list_omap fst snd multi_child head].
  destruct (String.eqb_spec "v1" s1) as [<-|Hn]; [|rewrite matchPath_nil, bool_decide_eq_false_2; [done|by intros [= ->]]].
  destruct segs as [|s2 segs]; [done|]. rewrite match_below by done. unfold literal_child. cbn [omap list_omap fst snd multi_child head].
  destruct (String.eqb_spec "auth" s2) as [<-|Hn]; [|rewrite matchPath_nil, bool_decide_eq_false_2; [done|by intros [= ->]]].
  destruct segs as [|s3 segs]; [done|]. rewrite match_below by done. unfold literal_child. cbn [omap list_omap fst snd multi_child head].
  destruct (String.eqb_spec "signin" s3) as [<-|Hn]; [|rewrite matchPath_nil, bool_decide_eq_false_2; [done|by intros [= ->]]].
  rewrite match_leaf. by destruct segs.
Qed.

Lemma root_match m p : path_segments p <> [] ->
  mux_match root_entries m p = Some (root_entry m (path_segments p), []).
Proof.
  intros Hp. unfold mux_match. destruct (path_segments p) as [|s rest] eqn:E; [done|].
  assert (A : of_method "" root_entries = anys) by by rewrite of_method_root.
  assert (B : of_method "GET" root_entries = []) by by rewrite of_method_root.
  rewrite A, B, of_method_root, (match_anys s rest).
  assert (Hother : m <> "POST" -> root_entry "" (s :: rest) = root_entry m (s :: rest)).
  { intros Hm. unfold root_entry. apply String.eqb_neq in Hm. rewrite Hm. done. }
  destruct (String.eqb_spec "POST" m) as [<-|Hm].
  - rewrite match_signin. case_bool_decide as Hs; [by injection Hs as -> ->|].
    change (String.eqb "POST" "HEAD") with false. cbv iota. unfold root_entry. destruct rest as [|t rest]; [done|].
    change (String.eqb "POST" "POST") with true. cbn [andb]. destruct (String.eqb_spec s "v1") as [->|]; [|done].
    rewrite bool_decide_eq_false_2 by by intros [= -> ->]. done.
  - rewrite <- Hother by congruence.
    destruct (String.eqb_spec "" m) as [<-|Hm']; [by rewrite (match_anys s rest)|].
    rewrite matchPath_nil. by destruct (String.eqb m "HEAD"); rewrite ?matchPath_nil.
Qed.

Lemma HasSuffix_slashed x : HasSuffix (x +:+ "/") "/" = true.
Proof.
  assert (Hs : last (SplitByte (x +:+ "/") "/") = Some "") by by rewrite SplitByte_slashed, last_snoc.
  apply last_SplitByte in Hs as [Hs|Hs]; [by destruct x|done].
Qed.

(** The groups: one segment is asked to come with a slash. *)
Definition bare_group (segs : list string) : bool := bool_decide (segs ∈ [["r"]; ["i"]; ["v1"]; ["ui"]]).

(** A trailing slash makes the match exact only for a group's own path. *)
Lemma exact_slashed m segs x :
  HasSuffix x "/" = true -> (length (SplitByte x "/") - 1)%nat = length (segs ++ ["/"]) -> segs <> [] ->
  exactMatch (Some (root_entry m (segs ++ ["/"]), [])) x = bare_group segs.
Proof.
  intros Hx Hl Hs. destruct segs as [|s rest]; [done|].
  assert (Hx0 : String.eqb x "" = false) by by destruct x.
  assert (He : forall e : entry H, pt_Segments (parsePattern (e_Pattern e)) = [Lit s; Multi] ->
    exactMatch (Some (e, [])) x = Nat.eqb 2 (S (length rest + 1))).
  { intros e E. unfold exactMatch. rewrite E, Hx, Hx0, Hl. cbn [is_multi last negb andb length app]. by rewrite length_app. }
  assert (Hhome : exactMatch (Some (Build_entry "/" home, [])) x = false).
  { unfold exactMatch. change (parsePattern (e_Pattern (Build_entry "/" home))) with {| pt_Method := ""; pt_Segments := [Multi] |}.
    rewrite Hx, Hx0, Hl. cbn [pt_Segments is_multi last negb andb length app]. rewrite length_app. by destruct (length rest). }
  assert (Hbare : bare_group (s :: rest) = Nat.eqb 2 (S (length rest + 1)) && bool_decide (s ∈ ["r"; "i"; "v1"; "ui"])).
  { unfold bare_group. destruct rest as [|t rest].
    - simpl. apply bool_decide_ext. set_solver.
    - rewrite bool_decide_eq_false_2 by set_solver. simpl. by replace (length rest + 1)%nat with (S (length rest)) by lia. }
  rewrite Hbare. unfold root_entry. cbn [app].
  destruct (rest ++ ["/"])%list as [|t rest'] eqn:Er; [by destruct rest|].
  destruct (String.eqb_spec s "r") as [->|Hr]; [by rewrite He, andb_true_r|].
  destruct (String.eqb_spec s "i") as [->|Hi]; [by rewrite He, andb_true_r|].
  destruct (String.eqb_spec s "v1") as [->|Hv].
  - rewrite (bool_decide_eq_false_2 (_ = ["auth"; "signin"])).
    + rewrite andb_false_r. by rewrite He, andb_true_r.
    + intros E. rewrite E in Er. assert (El : last (rest ++ ["/"]) = Some "signin") by by rewrite Er. by rewrite last_snoc in El.
  - destruct (String.eqb_spec s "ui") as [->|Hu]; [by rewrite He, andb_true_r|].
    rewrite Hhome, bool_decide_eq_false_2, andb_false_r by set_solver. done.
Qed.

Lemma root_found m q (p := String "/" q) : cleanPath p = p ->
  findHandler root_entries m p =
    if negb (HasSuffix p "/") && bare_group (path_segments p) then Redirected (p +:+ "/")
    else Matched (root_entry m (path_segments p)) [].
Proof.
  intros Hc. unfold findHandler. rewrite Hc.
  replace (if String.eqb m "CONNECT" then p else p) with p by by destruct (String.eqb m "CONNECT").
  assert (Hne : path_segments p <> []).
  { unfold p. rewrite path_segments_parts. intros E. apply (f_equal length) in E. rewrite length_segments_of in E.
    pose proof (SplitByte_length_pos q "/"). simpl in E. lia. }
  unfold matchOrRedirect. rewrite root_match by done. change (String.eqb p "") with false.
  destruct (HasSuffix p "/") eqn:Hs; cbn [negb andb].
  { rewrite !andb_false_r. cbn [andb]. by rewrite String.eqb_refl. }
  pose proof (path_segments_slashed q Hs) as Hsl. fold p in Hsl.
  rewrite root_match by (rewrite Hsl; by destruct (path_segments p)). rewrite Hsl.
  rewrite exact_slashed; [|apply HasSuffix_slashed| |done].
  2: { change (p +:+ "/") with (String "/" (q +:+ "/")). rewrite slashes_segments.
       change (String "/" (q +:+ "/")) with (p +:+ "/"). by rewrite Hsl. }
  destruct (bare_group (path_segments p)) eqn:Hb; cbn [andb]; [|by rewrite !andb_false_r, String.eqb_refl].
  assert (Hx : exactMatch (Some (root_entry m (path_segments p), [])) p = false).
  { apply bool_decide_eq_true in Hb. assert (root_entry m (path_segments p) = Build_entry "/" home) as ->.
    { set_unfold in Hb. destruct Hb as [->|[->|[->|[->|[]]]]]; reflexivity. }
    unfold exactMatch. change (parsePattern (e_Pattern (Build_entry "/" home))) with {| pt_Method := ""; pt_Segments := [Multi] |}.
    by rewrite Hs. }
  by rewrite Hx.
Qed.
End root.

(** ** The groups of requests *)
Definition group_of (m : string) (segs : list string) : option (Group * string) :=
  match segs with
  | [] => None
  | [s] => if String.eqb s "healthz" then Some (GroupPublic, "/healthz")
           else if String.eqb s "readyz" then Some (GroupPublic, "/readyz") else None
  | s :: rest =>
      if String.eqb s "r" then Some (GroupPublic, "/r/")
      else if String.eqb s "i" then Some (GroupPublic, "/i/")
      else if String.eqb s "v1" then
        if String.eqb m "POST" && bool_decide (rest = ["auth"; "signin"]) then Some (GroupPublic, SigninPattern)
        else Some (GroupProtected, "/v1/")
      else if String.eqb s "ui" then Some (GroupConsole, "/ui/")
      else None
  end.

Lemma cleanPath_slash p : cleanPath p = p -> exists q, p = String "/" q.
Proof.
  unfold cleanPath. destruct (String.eqb_spec p "") as [->|Hp]; [done|]. cbv zeta.
  assert (Hr : forall x, HasPrefix x "/" = true -> exists q, path_Clean x = String "/" q).
  { intros x Hx. unfold path_Clean. rewrite Hx. by eexists. }
  destruct (HasPrefix p "/") eqn:E.
  - intros _. destruct p as [|c p]; [done|]. cbn [HasPrefix] in E. apply andb_prop in E as [->%Ascii.eqb_eq _]. by eexists.
  - destruct (Hr ("/" +:+ p) (HasPrefix_app "/" p)) as [q ->]. intros <-. destruct (_ && _); by eexists.
Qed.

Section split.
Context `{RD : Redirects} {T : Type} (write : Response -> T).

(** C11: who meets authentication.  For every set of handlers and middleware and
    every request whose path is in canonical form, the root sends the request
    to exactly one place, by its method and its path: a scan, an image, a
    health check and the sign-in go to the public routes, where neither the
    authentication nor the CSRF middleware is in the chain; everything else
    under /v1/ goes through authentication, then the CSRF check, then the
    protected routes; everything under /ui/ goes through authentication to the
    console; the rest is redirected, to the group's own path or to the console. *)
Theorem router_split (h : Handlers (T:=T)) (o : RouterOptions (T:=T)) (r : Incoming) :
  let p := in_EscapedPath r in
  let m := hr_Method (in_Http r) in
  cleanPath p = p ->
  mux_ServeHTTP write (root write h o) r =
    if negb (HasSuffix p "/") && bare_group (path_segments p) then write (mux_redirect m (p +:+ "/") (in_RawQuery r))
    else match group_of m (path_segments p) with
    | Some (GroupPublic, pat) => mux_ServeHTTP write (group_mux write h o GroupPublic) (with_match r pat [])
    | Some (GroupProtected, pat) =>
        wrap (o_Auth o) (wrap (o_CSRF o) (jsonNotFound write (group_mux write h o GroupProtected))) (with_match r pat [])
    | Some (GroupConsole, pat) => wrap (o_Auth o) (mux_ServeHTTP write (group_mux write h o GroupConsole)) (with_match r pat [])
    | None => write (RedirectHandler m "/ui/" 302)
    end.
Proof.
  cbv zeta. intros Hc. destruct (cleanPath_slash _ Hc) as [q Hq]. unfold mux_ServeHTTP at 1.
  change (root write h o) with (root_entries (mux_ServeHTTP write (group_mux write h o GroupPublic)) (protectedChain write h o)
    (consoleChain write h o) (fun r => write (RedirectHandler (hr_Method (in_Http r)) "/ui/" 302))).
  rewrite Hq in *. rewrite root_found by done. cbv zeta.
  destruct (negb _ && bare_group _); [done|].
  destruct (path_segments (String "/" q)) as [|s rest]; [done|]. unfold root_entry, group_of.
  destruct rest as [|t rest]; [by repeat (destruct (String.eqb s _))|].
  destruct (String.eqb s "r"), (String.eqb s "i"); try done. destruct (String.eqb s "v1"); [by destruct (_ && _)|].
  by destruct (String.eqb s "ui").
Qed.
End split.

(** ** What a match means *)
Inductive fits : list segment -> list string -> Prop :=
| fits_nil : fits [] []
| fits_lit s segs path : fits segs path -> fits (Lit s :: segs) (s :: path)
| fits_wild x s segs path : s <> "/" -> fits segs path -> fits (Wild x :: segs) (s :: path)
| fits_multi s path : fits [Multi] (s :: path).

Lemma head_elem {A} (l : list A) x : head l = Some x -> x ∈ l.
Proof. destruct l; [done|]. intros [= <-]. left. Qed.

Lemma matchPath_fits {H} (l : list (list segment * H)) path ms h ms' :
  matchPath l path ms = Some (h, ms') -> exists segs, (segs, h) ∈ l /\ fits segs path.
Proof.
  revert l ms. induction path as [|s path IH]; intros l ms; cbn [matchPath].
  - unfold leaf. destruct (head _) as [x|] eqn:E; [|done]. intros [= <- <-].
    apply head_elem, list_elem_of_omap in E as ([segs y] & Hin & Hy). destruct segs; [|done]. injection Hy as ->.
    exists []. split; [done|constructor].
  - destruct (matchPath (literal_child s l) path ms) as [[h1 m1]|] eqn:E1.
    { intros [= <- <-]. apply IH in E1 as (segs & Hin & Hf). apply list_elem_of_omap in Hin as ([segs0 y] & Hin & Hy).
      destruct segs0 as [|[x|x|] segs0]; try done. cbn [fst snd] in Hy. destruct (String.eqb_spec x s) as [->|]; [|done].
      injection Hy as <- <-. exists (Lit s :: segs0). split; [done|by constructor]. }
    destruct (String.eqb_spec s "/") as [|Hs].
    + unfold multi_child. destruct (head _) as [x|] eqn:E; [|done]. intros [= <- <-].
      apply head_elem, list_elem_of_omap in E as ([segs y] & Hin & Hy).
      destruct segs as [|[ | | ] [|? ?]]; try done. injection Hy as ->. exists [Multi]. split; [done|constructor].
    + destruct (matchPath (empty_child l) path (ms ++ [s])) as [[h1 m1]|] eqn:E2.
      { intros [= <- <-]. apply IH in E2 as (segs & Hin & Hf). apply list_elem_of_omap in Hin as ([segs0 y] & Hin & Hy).
        destruct segs0 as [|[x|x|] segs0]; try done. injection Hy as <- <-. exists (Wild x :: segs0). split; [done|by constructor]. }
      unfold multi_child. destruct (head _) as [x|] eqn:E; [|done]. intros [= <- <-].
      apply head_elem, list_elem_of_omap in E as ([segs y] & Hin & Hy).
      destruct segs as [|[ | | ] [|? ?]]; try done. injection Hy as ->. exists [Multi]. split; [done|constructor].
Qed.

Lemma mux_match_fits {H} (mux : Mux H) m p e ms :
  mux_match mux m p = Some (e, ms) -> e ∈ mux /\ fits (pt_Segments (parsePattern (e_Pattern e))) (path_segments p).
Proof.
  unfold mux_match. assert (Hm : forall m ms0 ms', matchPath (of_method m mux) (path_segments p) ms0 = Some (e, ms') ->
    e ∈ mux /\ fits (pt_Segments (parsePattern (e_Pattern e))) (path_segments p)).
  { intros m0 ms0 ms' (segs & Hin & Hf)%matchPath_fits. apply list_elem_of_omap in Hin as (e' & Hin & He).
    cbv zeta in He. destruct (String.eqb (pt_Method (parsePattern (e_Pattern e'))) m0); [|done]. by injection He as <- <-. }
  destruct (matchPath (of_method m mux) _ _) as [[e1 m1]|] eqn:E1; [intros [= <- <-]; by eapply Hm|].
  destruct (if String.eqb m "HEAD" then _ else _) as [[e2 m2]|] eqn:E2.
  - intros [= <- <-]. destruct (String.eqb m "HEAD"); [by eapply Hm|done].
  - intros E. by eapply Hm.
Qed.

Lemma findHandler_fits {H} (mux : Mux H) m p e ms :
  findHandler mux m p = Matched e ms -> e ∈ mux /\ fits (pt_Segments (parsePattern (e_Pattern e))) (path_segments p).
Proof.
  unfold findHandler, matchOrRedirect, found_or_not. set (p' := if String.eqb m "CONNECT" then p else cleanPath p).
  destruct (_ && exactMatch _ _); [done|]. destruct (negb (String.eqb p' p)) eqn:Ep; [done|].
  apply negb_false_iff, String.eqb_eq in Ep. rewrite Ep. destruct (mux_match mux m p) as [[e' ms']|] eqn:E; [|by destruct (matchingMethods _ _)].
  intros [= <- <-]. by eapply mux_match_fits.
Qed.

(** ** The protected group

    [answers t resp]: all [t] does is to send [resp]. *)
Section protected.
Context `{RD : Redirects} {T : Type} (write : Response -> T).
Context (answers : T -> Response -> Prop) (answers_write : forall resp, answers (write resp) resp).
Notation Handler := (Handler (T:=T)).

Definition transparent (m : Middleware (T:=T)) : Prop := forall hd r, m hd r = hd r.

(** An answer that turns a request away: a refusal, or a mux's redirect to the
    path in canonical form. *)
Definition turned_away (r : Incoming) (resp : Response) : Prop :=
  400 <= rs_Status resp < 500 \/ exists path, resp = mux_redirect (hr_Method (in_Http r)) path (in_RawQuery r).
(** A handler that turns away a request without an identity. *)
Definition refuses (hd : Handler) (r : Incoming) : Prop := exists resp, answers (hd r) resp /\ turned_away r resp.
Definition guarded (rt : Route) (hd : Handler) : Prop := forall r,
  in_Identity r = None -> fits (pt_Segments (parsePattern (rt_Pattern rt))) (path_segments (in_EscapedPath r)) -> refuses hd r.

Lemma wrap_all_transparent ms hd r : Forall transparent ms -> wrap_all ms hd r = hd r.
Proof. induction 1 as [|m ms Hm Hms IH]; [done|]. simpl. by rewrite Hm. Qed.

Lemma csrf_anonymous next r : in_Identity r = None -> csrf write next r = next r.
Proof.
  intros Hi. unfold csrf, CSRF. rewrite Hi. cbn [fmap option_fmap option_map default]. case_bool_decide; [done|].
  by change (String.eqb "" "cookie") with false.
Qed.

(** Behind the CSRF check, a group of guarded handlers turns the anonymous
    away whatever the method and the path. *)
Lemma group_refuses (h : Handlers (T:=T)) (o : RouterOptions (T:=T)) (r : Incoming) :
  o_CSRF o = Some (csrf write) -> Forall transparent (PerRoute o) -> in_Identity r = None ->
  (forall rt, rt ∈ Routes -> rt_Group rt = GroupProtected -> guarded rt (lookup write h (rt_Handler rt))) ->
  refuses (wrap (o_CSRF o) (jsonNotFound write (group_mux write h o GroupProtected))) r.
Proof.
  intros Hc Hper Hanon Hg. unfold refuses. rewrite Hc. cbn [wrap]. rewrite csrf_anonymous by done.
  unfold jsonNotFound, mux_ServeHTTP.
  destruct (findHandler _ _ _) as [e ms|path|allowed|] eqn:E.
  - apply findHandler_fits in E as [Hin Hf]. apply list_elem_of_fmap in Hin as (rt & -> & Hrt).
    apply list_elem_of_filter in Hrt as [Hgrp Hrt]. cbn [e_Pattern e_Handler] in *. unfold route_handler.
    rewrite wrap_all_transparent by done. rewrite Hgrp.
    assert (Hs : String.eqb (rt_Pattern rt) SigninPattern = false).
    { assert (Hall : Forall (fun rt => rt_Group rt = GroupProtected -> String.eqb (rt_Pattern rt) SigninPattern = false) Routes)
        by (repeat constructor; done). rewrite Forall_forall in Hall. by apply Hall. }
    rewrite Hs. unfold withPattern.
    by destruct (Hg rt Hrt Hgrp (set_Route (rt_Pattern rt) (with_match r (rt_Pattern rt) ms)) Hanon Hf) as (resp & Hr & Href); exists resp.
  - eexists. split; [apply answers_write|]. right. by eexists.
  - eexists. split; [apply answers_write|]. left. done.
  - eexists. split; [apply answers_write|]. left. done.
Qed.
End protected.

Section session.
Context `{RD : Redirects} {T : Type} (write : Response -> T).

(** A session cookie alone changes nothing. *)
Lemma protected_csrf (h : Handlers (T:=T)) (o : RouterOptions (T:=T)) (auth : Middleware (T:=T)) (r : Incoming) (i : Identity) :
  o_Auth o = Some auth -> o_CSRF o = Some (csrf write) ->
  (forall next, auth next r = next (set_Identity (Some i) r)) -> id_Method i = "cookie" ->
  hr_Method (in_Http r) ∉ ["GET"; "HEAD"; "OPTIONS"] -> hr_Header (in_Http r) CSRFHeader = "" ->
  exists resp, protectedChain write h o r = write resp /\ rs_Status resp = 403.
Proof.
  intros Ha Hc Hi Hm Hn Hh. unfold protectedChain. rewrite Ha, Hc. cbn [wrap]. rewrite Hi. unfold csrf, CSRF.
  cbn [in_Http in_Identity set_Identity fmap option_fmap option_map default]. rewrite bool_decide_eq_false_2 by done.
  rewrite Hm, Hh. eexists. split; [reflexivity|done].
Qed.
End session.
