(* ===== verification/Export.v ===== *)
(** * Whole-instance export and import ([internal/export])

    [Write] walks a store into an archive of one manifest and one JSONL file
    per entity; [Read] replays an archive into a store.  The store is the
    reference store of the contract suite; a walk and an import are actions,
    since the store lock is released between their calls.

    [encoding/json] and the temporary files and tar stream are parameters: a
    codec per row type, and the errors the file system and the output may
    yield.  An archive is the list of its entries, as [tar.Reader.Next]
    delivers them. *)
From Stdlib Require Import Ascii String.
From S2P Require Import GoLib Act Domain Base64 Rollup MemStore.
Local Open Scope string_scope.
Local Open Scope Z_scope.

(** ** Rows *)
Definition FormatVersion : string := "1".

Record Manifest := {
  mf_Version : string;
  ExportedAt : Z;
  Entities : gmap string Z;
}.

Record userRecord := {
  ur_ID : string;
  ur_Email : string;
  ur_IsAdmin : bool;
  ur_TokenVersion : Z;
  ur_Source : string;
  ur_CreatedAt : Z;
  ur_LastLoginAt : option Z;
}.

Record tokenRecord := {
  tr_ID : string;
  tr_UserID : string;
  tr_Name : string;
  tr_CreatedAt : Z;
  tr_LastUsedAt : option Z;
  tr_RevokedAt : option Z;
  tr_ExpiresAt : option Z;
}.

Record reservationRecord := {
  rr_ShortCode : string;
  rr_CodeID : string;
  rr_ReservedAt : Z;
  rr_ReleasedAt : option Z;
}.

Definition fileManifest := "manifest.json".
Definition fileUsers := "users.jsonl".
Definition fileTokens := "api_tokens.jsonl".
Definition fileCodes := "codes.jsonl".
Definition fileReservations := "alias_reservations.jsonl".
Definition fileRollups := "scan_rollups.jsonl".

(** ** [Write] *)

(** Where the operating system can fail: creating a spool, writing its [n]-th
    row, and writing an entry of the archive (or closing it: [""]). *)
Record ExportIO := {
  io_CreateTemp : string -> option error;
  io_WriteRow : string -> Z -> option error;
  io_tar : string -> option (error * option nat);   (* of an entry: header and so many bytes are out *)
}.
Definition no_faults : ExportIO :=
  {| io_CreateTemp := fun _ => None; io_WriteRow := fun _ _ => None; io_tar := fun _ => None |}.

(** A temporary file of rows, with the number of rows in it. *)
Record spooledEntity := { sp_name : string; sp_f : string; sp_n : Z }.

Definition wrap_err {A} (msg : string) (r : result A) : result A :=
  match r with Ok a => Ok a | Err e => Err (Wrap msg e) end.

Definition newline : ascii := "010".

Definition tarEntry : Type := string * string.

Section write.
Context `{!Json userRecord, !Json tokenRecord, !Json Code, !Json reservationRecord, !Json RollupDelta}.
Context (MarshalIndent : Manifest -> option string).
Context (sc : Sched memStore) (io : ExportIO).

Definition newSpool (name : string) : result spooledEntity :=
  match io_CreateTemp io name with
  | Some e => Err (Wrap "export: spool" e)
  | None => Ok {| sp_name := name; sp_f := ""; sp_n := 0 |}
  end.

(** [Encoder.Encode]: the value, then a newline. *)
Definition put {R} `{!Json R} (v : R) (s : spooledEntity) : result unit * spooledEntity :=
  match Marshal v with
  | None => (Err (Wrap "export: encode row" (NewErr "json")), s)
  | Some line =>
      match io_WriteRow io (sp_name s) (sp_n s) with
      | Some e => (Err (Wrap "export: encode row" e), s)
      | None =>
          (Ok tt, {| sp_name := sp_name s; sp_f := sp_f s +:+ line +:+ String newline "";
                     sp_n := incr64 (sp_n s) |})
      end
  end.

Fixpoint put_all {R} `{!Json R} (vs : list R) (s : spooledEntity) : result unit * spooledEntity :=
  match vs with
  | [] => (Ok tt, s)
  | v :: vs' =>
      match put v s with
      | (Err e, s') => (Err e, s')
      | (Ok _, s') => put_all vs' s'
      end
  end.

Definition user_record (u : User) : userRecord :=
  {| ur_ID := user_ID u; ur_Email := user_Email u; ur_IsAdmin := user_IsAdmin u;
     ur_TokenVersion := user_TokenVersion u; ur_Source := user_Source u;
     ur_CreatedAt := user_CreatedAt u; ur_LastLoginAt := user_LastLoginAt u |}.

Definition token_record (t : APIToken) : tokenRecord :=
  {| tr_ID := token_ID t; tr_UserID := token_UserID t; tr_Name := token_Name t;
     tr_CreatedAt := token_CreatedAt t; tr_LastUsedAt := token_LastUsedAt t;
     tr_RevokedAt := token_RevokedAt t; tr_ExpiresAt := token_ExpiresAt t |}.

Definition reservation_record (r : AliasReservation) : reservationRecord :=
  {| rr_ShortCode := ar_ShortCode r; rr_CodeID := ar_CodeID r; rr_ReservedAt := ReservedAt r;
     rr_ReleasedAt := ReleasedAt r |}.

(** The callback of [ForEachUser]: the user's row, then its tokens'. *)
Definition write_user (u : User) (sp : spooledEntity * spooledEntity)
    : Act memStore (result unit * (spooledEntity * spooledEntity)) :=
  match put (user_record u) sp.1 with
  | (Err e, us) => mret (Err e, (us, sp.2))
  | (Ok _, us) =>
      toks ← look sc (fun env m => ListTokens env (user_ID u) m);
      match toks with
      | Err e => mret (Err (Wrap "export: list tokens for user" e), (us, sp.2))
      | Ok toks =>
          let '(r, ts) := put_all (token_record <$> toks) sp.2 in
          mret (r, (us, ts))
      end
  end.

Definition write_row {A R} `{!Json R} (f : A -> R) (a : A) (sp : spooledEntity)
    : Act memStore (result unit * spooledEntity) := mret (put (f a) sp).

(** One walk into one spool. *)
Definition spool_rows {A R} `{!Json R} (msg name : string) (rows : memStore -> list A) (f : A -> R)
    : Act memStore (result spooledEntity) :=
  match newSpool name with
  | Err e => mret (Err e)
  | Ok sp =>
      rs ← for_each sc rows (write_row f) sp;
      match rs with
      | (Err e, _) => mret (Err (Wrap msg e))
      | (Ok _, sp') => mret (Ok sp')
      end
  end.

Definition spool_users : Act memStore (result (spooledEntity * spooledEntity)) :=
  match newSpool fileUsers with
  | Err e => mret (Err e)
  | Ok us =>
      match newSpool fileTokens with
      | Err e => mret (Err e)
      | Ok ts =>
          rs ← ForEachUser sc write_user (us, ts);
          match rs with
          | (Err e, _) => mret (Err (Wrap "export: users" e))
          | (Ok _, sp) => mret (Ok sp)
          end
      end
  end.

(** The tar stage: each entry in turn, with what was written when it stops,
    the header and the beginning of the failing entry included. *)
Fixpoint tar_entries (es : list tarEntry) : result unit * list tarEntry :=
  match es with
  | [] => match io_tar io "" with None => (Ok tt, []) | Some (e, _) => (Err e, []) end
  | (name, body) :: es' =>
      match io_tar io name with
      | Some (e, None) => (Err (Wrap "export: write entry" e), [])
      | Some (e, Some k) => (Err (Wrap "export: write entry" e), [(name, substring 0 k body)])
      | None => let '(r, out) := tar_entries es' in (r, (name, body) :: out)
      end
  end.

Definition manifest_of (now : Z) (us ts cs rs rl : spooledEntity) : Manifest :=
  {| mf_Version := FormatVersion; ExportedAt := now;
     Entities := {[ "users" := sp_n us; "api_tokens" := sp_n ts; "codes" := sp_n cs;
                    "alias_reservations" := sp_n rs; "scan_rollups" := sp_n rl ]} |}.

Definition spool_entry (s : spooledEntity) : tarEntry := (sp_name s, sp_f s).

Definition Write : Act memStore (result unit * list tarEntry) :=
  users ← spool_users;
  match users with
  | Err e => mret (Err e, [])
  | Ok (us, ts) =>
      codes ← spool_rows "export: codes" fileCodes code_rows id;
      match codes with
      | Err e => mret (Err e, [])
      | Ok cs =>
          reservations ←
            spool_rows "export: alias reservations" fileReservations reservation_rows
              reservation_record;
          match reservations with
          | Err e => mret (Err e, [])
          | Ok rs =>
              rollups ← spool_rows "export: scan rollups" fileRollups rollup_rows id;
              match rollups with
              | Err e => mret (Err e, [])
              | Ok rl =>
                  now ← look sc (fun env _ => time_Now env);
                  match MarshalIndent (manifest_of now us ts cs rs rl) with
                  | None => mret (Err (Wrap "export: marshal manifest" (NewErr "json")), [])
                  | Some body =>
                      mret (tar_entries ((fileManifest, body) :: (spool_entry <$> [us; ts; cs; rs; rl])))
                  end
              end
          end
      end
  end.
End write.

(** ** [Read] *)

Definition maxToken : Z := 16 * 1024 * 1024.
Definition flushEvery : nat := 500.

(** [bufio.ScanLines]: the pieces between newlines, an empty last one dropped;
    one trailing carriage return is not part of a line. *)
Fixpoint scan_lines (pieces : list string) : list string :=
  match pieces with
  | [] => []
  | [p] => if String.eqb p "" then [] else [p]
  | p :: ps => p :: scan_lines ps
  end.

Definition dropCR (s : string) : string :=
  if HasSuffix s (String "013" "") then take_bytes (String.length s - 1) s else s.

(** What [tar.Reader.Next] yields: the entries, then end of file or an error. *)
Record tarStream := { ts_entries : list tarEntry; ts_err : option error }.

Section read.
Context `{U : UnicodeTable}.
Context `{!Json userRecord, !Json Code, !Json reservationRecord, !Json RollupDelta}.
Context (DecodeManifest : string -> option Manifest).
Context (sc : Sched memStore).

(** The callback is a closure over the caller's variables [S].  A line (with
    its newline) must fit the scanner's buffer. *)
Fixpoint drain_lines {S} (fn : string -> S -> Act memStore (result unit * S)) (pieces : list string)
    (s : S) : Act memStore (result unit * S) :=
  match pieces with
  | [] => mret (Ok tt, s)
  | p :: ps =>
      if maxToken <=? len p then mret (Err (NewErr "bufio.Scanner: token too long"), s)
      else if String.eqb (dropCR p) "" then drain_lines fn ps s
      else
        rs ← fn (dropCR p) s;
        match rs with
        | (Err e, s') => mret (Err e, s')
        | (Ok _, s') => drain_lines fn ps s'
        end
  end.

Definition drainJSONL {S} (fn : string -> S -> Act memStore (result unit * S)) (body : string) (s : S)
    : Act memStore (result unit * S) :=
  drain_lines fn (scan_lines (SplitByte body newline)) s.

Definition imported_user (rec : userRecord) : User :=
  {| user_ID := ur_ID rec; user_Email := ur_Email rec; user_PasswordHash := "";
     user_IsAdmin := ur_IsAdmin rec; user_TokenVersion := ur_TokenVersion rec;
     user_Source := ur_Source rec; user_CreatedAt := ur_CreatedAt rec;
     user_LastLoginAt := ur_LastLoginAt rec |}.

Definition import_user (line : string) (_ : unit) : Act memStore (result unit * unit) :=
  match Unmarshal (R := userRecord) line with
  | None => mret (Err (Wrap "export: decode user row" (NewErr "json")), tt)
  | Some rec =>
      r ← call sc (fun env m => CreateUser env (imported_user rec) m);
      mret (wrap_err "export: create user" r, tt)
  end.

Definition importUsers (body : string) : Act memStore (result unit) :=
  rs ← drainJSONL import_user body tt; mret rs.1.

Definition set_mode_state (mode : CodeMode) (state : CodeState) (c : Code) : Code :=
  {| code_ID := code_ID c; ShortCode := ShortCode c; IsAlias := IsAlias c;
     code_UserID := code_UserID c; Mode := mode; ClientRef := ClientRef c;
     Destination := Destination c; State := state; code_Styling := code_Styling c;
     BlobKey := BlobKey c; BlobETag := BlobETag c; Version := Version c;
     code_CreatedAt := code_CreatedAt c; UpdatedAt := UpdatedAt c; DeletedAt := DeletedAt c |}.

(** The struct handed to [CreateCode]. *)
Definition imported_code (c : Code) : Code :=
  set_mode_state (if String.eqb (Mode c) "" then ModeDynamic else Mode c)
    (if String.eqb (State c) CodeDeleted then CodeDisabled else State c) c.

Definition import_code (line : string) (codeIDs : gset string)
    : Act memStore (result unit * gset string) :=
  match Unmarshal (R := Code) line with
  | None => mret (Err (Wrap "export: decode code row" (NewErr "json")), codeIDs)
  | Some c =>
      created ← call sc (fun env m => CreateCode env (imported_code c) m);
      match created with
      | Err e => mret (Err (Wrap "export: create code" e), codeIDs)
      | Ok c' =>
          if String.eqb (State c) CodeDeleted then
            deleted ← call sc (fun env m => DeleteCode env (code_ID c') (code_UserID c') m);
            match deleted with
            | Err e => mret (Err (Wrap "export: re-delete code" e), codeIDs)
            | Ok _ => mret (Ok tt, {[code_ID c']} ∪ codeIDs)
            end
          else mret (Ok tt, {[code_ID c']} ∪ codeIDs)
      end
  end.

Definition importCodes (body : string) (codeIDs : gset string)
    : Act memStore (result unit * gset string) :=
  drainJSONL import_code body codeIDs.

Definition import_reservation (codeIDs : gset string) (line : string) (_ : unit)
    : Act memStore (result unit * unit) :=
  match Unmarshal (R := reservationRecord) line with
  | None => mret (Err (Wrap "export: decode reservation row" (NewErr "json")), tt)
  | Some rec =>
      if bool_decide (rr_ReleasedAt rec = None) || bool_decide (rr_CodeID rec ∉ codeIDs)
      then mret (Ok tt, tt)
      else
        r ← call sc (fun env m => ReleaseAlias env (rr_ShortCode rec) m);
        mret (wrap_err "export: release alias" r, tt)
  end.

Definition importReservations (body : string) (codeIDs : gset string) : Act memStore (result unit) :=
  rs ← drainJSONL (import_reservation codeIDs) body tt; mret rs.1.

(** The [flush] closure: the batch is kept when the insert fails. *)
Definition flush_rollups (batch : list RollupDelta)
    : Act memStore (result unit * list RollupDelta) :=
  match batch with
  | [] => mret (Ok tt, [])
  | _ =>
      r ← call sc (fun env m => InsertScanBatch env {| Events := []; Rollups := batch |} m);
      match r with
      | Err e => mret (Err (Wrap "export: insert rollup batch" e), batch)
      | Ok _ => mret (Ok tt, [])
      end
  end.

Definition import_rollup (codeIDs : gset string) (line : string) (batch : list RollupDelta)
    : Act memStore (result unit * list RollupDelta) :=
  match Unmarshal (R := RollupDelta) line with
  | None => mret (Err (Wrap "export: decode rollup row" (NewErr "json")), batch)
  | Some rd =>
      if bool_decide (rd_CodeID rd ∉ codeIDs) then mret (Ok tt, batch)
      else
        let batch := (batch ++ [rd])%list in
        if bool_decide (flushEvery <= length batch)%nat then flush_rollups batch
        else mret (Ok tt, batch)
  end.

Definition importRollups (body : string) (codeIDs : gset string) : Act memStore (result unit) :=
  rs ← drainJSONL (import_rollup codeIDs) body [];
  match rs with
  | (Err e, _) => mret (Err e)
  | (Ok _, batch) => rs' ← flush_rollups batch; mret rs'.1
  end.

Definition read_manifest (body : string) : result unit :=
  match DecodeManifest body with
  | None => Err (Wrap "export: decode manifest" (NewErr "json"))
  | Some m =>
      if String.eqb (mf_Version m) FormatVersion then Ok tt
      else Err (NewErr "export: manifest version")
  end.

(** The token rows are scanned and dropped. *)
Definition skip_tokens (body : string) : Act memStore (result unit) :=
  rs ← drainJSONL (fun _ (_ : unit) => mret (Ok tt, tt)) body tt;
  mret (wrap_err "export: skip api_tokens.jsonl" rs.1).

(** What one entry does: whether it was a manifest, and the ids of the codes
    created so far. *)
Definition read_entry (e : tarEntry) (st : bool * gset string)
    : Act memStore (result (bool * gset string)) :=
  let '(name, body) := e in
  let '(seen, ids) := st in
  if String.eqb name fileManifest then
    mret (res_bind (read_manifest body) (fun _ => Ok (true, ids)))
  else if String.eqb name fileUsers then
    r ← importUsers body; mret (res_bind r (fun _ => Ok (seen, ids)))
  else if String.eqb name fileTokens then
    r ← skip_tokens body; mret (res_bind r (fun _ => Ok (seen, ids)))
  else if String.eqb name fileCodes then
    rs ← importCodes body ids; mret (res_bind rs.1 (fun _ => Ok (seen, rs.2)))
  else if String.eqb name fileReservations then
    r ← importReservations body ids; mret (res_bind r (fun _ => Ok (seen, ids)))
  else if String.eqb name fileRollups then
    r ← importRollups body ids; mret (res_bind r (fun _ => Ok (seen, ids)))
  else mret (Ok st).

Fixpoint read_entries (es : list tarEntry) (st : bool * gset string)
    : Act memStore (result (bool * gset string)) :=
  match es with
  | [] => mret (Ok st)
  | e :: es' =>
      r ← read_entry e st;
      match r with
      | Err err => mret (Err err)
      | Ok st' => read_entries es' st'
      end
  end.

Definition ErrNotEmpty : error :=
  NewErr "export: store already has users; pass force to import anyway".

Definition read_archive (a : tarStream) : Act memStore (result unit) :=
  r ← read_entries (ts_entries a) (false, ∅);
  match r with
  | Err e => mret (Err e)
  | Ok (seen, _) =>
      match ts_err a with
      | Some e => mret (Err (Wrap "export: read archive" e))
      | None =>
          if seen : bool then mret (Ok tt) else mret (Err (NewErr "export: archive has no manifest.json"))
      end
  end.

Definition Read (a : tarStream) (force : bool) : Act memStore (result unit) :=
  if force then read_archive a
  else
    n ← look sc (fun env m => CountUsers env m);
    match n with
    | Err e => mret (Err (Wrap "export: count existing users" e))
    | Ok n => if 0 <? n then mret (Err ErrNotEmpty) else read_archive a
    end.
End read.
