(* ===== verification/Handlers.v ===== *)
(** * The handlers behind the router

    The muxes of the account handlers ([NewAuthHandler], [NewTokensHandler],
    [NewAdminHandler] of [internal/httpapi/v1]), the export handler, and each
    handler of the protected group as the router calls it: all of them turn a
    request without an identity away before any of their work.  Then the
    server that mounts them behind the authenticator, and the theorem that it
    does nothing for the anonymous. *)
From Stdlib Require Import Ascii String.
From S2P Require Import GoLib Http Act GoUrl Domain Blob Password MemStore Concrete Store Cache Codes Qr Public QrApi Auth AuthProps CodesApi Mux AccountApi Router RouterFacts Export.
Local Open Scope string_scope.
Local Open Scope Z_scope.

Definition reply {W} (resp : Response) : Act W Reply := mret (plain resp).

(** All the handler does with the request is to turn it away. *)
Notation turns_away hd r := (refuses (fun t resp => t = reply resp) hd r).
Notation keeps_out rt hd := (guarded (fun t resp => t = reply resp) rt hd).

(** ** Account handlers *)
Section account.
Context `{RD : Redirects} `{U : UnicodeTable} `{IP : IPParser} `{NT : IPNets} `{SH : SHA256} `{JW : JWT} `{A2 : Argon2}.
Context `{TP : TimeParse} `{JS : JsonDecode signinRequest} `{JT : JsonDecode tokenRequest}.
Context {DB : Type} `{ST : AuthStore DB} `{AC : AccountStore DB} `{CS : CodeStore DB}.
Notation W := (AuthWorld DB).
Context (sc : Sched W) (a : Authenticator) (dummy : option string).

Notation Handler := (Handler (T := Act W Reply)).

Definition identified (next : HttpRequest -> Identity -> Act W Reply) : Handler :=
  fun r => with_identity (in_Identity r) (next (in_Http r)).
Definition administered (next : HttpRequest -> Act W Reply) : Handler :=
  fun r => with_admin (in_Identity r) (fun _ => next (in_Http r)).

Definition auth_mux : Mux Handler := [
  Build_entry "POST /v1/auth/signin" (fun r => p ← signin sc a dummy (in_Http r); mret p.1.1);
  Build_entry "POST /v1/auth/signout" (identified (fun _ _ => signout a));
  Build_entry "GET /v1/auth/me" (identified (fun _ => me sc))].
Definition auth_ServeHTTP : Handler := mux_ServeHTTP reply auth_mux.

Definition tokens_mux : Mux Handler := [
  Build_entry "GET /v1/tokens" (identified (fun _ => tokens_list sc));
  Build_entry "POST /v1/tokens" (identified (tokens_create sc a));
  Build_entry "DELETE /v1/tokens/{id}" (identified (tokens_revoke sc))].
Definition tokens_ServeHTTP : Handler := mux_ServeHTTP reply tokens_mux.

Definition admin_mux : Mux Handler := [Build_entry "DELETE /v1/admin/aliases/{alias}" (administered (releaseAlias sc))].
Definition admin_ServeHTTP : Handler := mux_ServeHTTP reply admin_mux.

Definition analytics_handler : Handler := fun r =>
  resp ← analytics_ServeHTTP sc (id_UserID <$> in_Identity r) (in_Http r); mret (plain resp).

(** ** Each turns the anonymous away *)
Lemma mux_refuses (mux : Mux Handler) r :
  (forall e ms, e ∈ mux -> fits (pt_Segments (parsePattern (e_Pattern e))) (path_segments (in_EscapedPath r)) ->
     turns_away (e_Handler e) (with_match r (e_Pattern e) ms)) ->
  turns_away (mux_ServeHTTP reply mux) r.
Proof.
  intros H. unfold refuses, mux_ServeHTTP. destruct (findHandler _ _ _) as [e ms|path|allowed|] eqn:E.
  - apply findHandler_fits in E as [Hin Hf]. by apply (H e ms).
  - eexists. split; [done|]. right. by eexists.
  - eexists. split; [done|]. by left.
  - eexists. split; [done|]. by left.
Qed.

Lemma identified_refuses next r : in_Identity r = None -> turns_away (identified next) r.
Proof. intros Hi. unfold refuses, identified. rewrite Hi. eexists. split; [done|]. by left. Qed.
Lemma administered_refuses next r : in_Identity r = None -> turns_away (administered next) r.
Proof. intros Hi. unfold refuses, administered. rewrite Hi. eexists. split; [done|]. by left. Qed.

(** The sign-in is the only route of its mux without a guard, and no protected
    path leads to it. *)
Lemma auth_guarded rt : rt ∈ Routes -> rt_Group rt = GroupProtected -> rt_Handler rt = HAuth -> keeps_out rt auth_ServeHTTP.
Proof.
  intros Hin Hg Hh r Hi Hf. apply mux_refuses. intros e ms He Hfe.
  assert (Hp : path_segments (in_EscapedPath r) <> ["v1"; "auth"; "signin"]).
  { intros E. rewrite E in Hf. clear He Hfe. revert Hin Hg Hh Hf.
    assert (Hall : Forall (fun rt => rt_Group rt = GroupProtected -> rt_Handler rt = HAuth ->
      fits (pt_Segments (parsePattern (rt_Pattern rt))) ["v1"; "auth"; "signin"] -> False) Routes).
    { repeat constructor; try done; intros _ _ Hx; vm_compute in Hx; inversion Hx as [|? ? ? Hy| |]; subst;
        inversion Hy as [|? ? ? Hz| |]; subst; inversion Hz. }
    rewrite Forall_forall in Hall. intros Hin Hg Hh Hf. by eapply Hall. }
  repeat (apply elem_of_cons in He as [->|He]); [|by apply identified_refuses|by apply identified_refuses|by apply elem_of_nil in He].
  destruct Hp. cbn [e_Pattern] in Hfe. vm_compute (parsePattern _) in Hfe. cbn [pt_Segments] in Hfe.
  inversion Hfe as [|? ? ? Hy| |]; subst. inversion Hy as [|? ? ? Hz| |]; subst. inversion Hz as [|? ? ? Hw| |]; subst. by inversion Hw.
Qed.

Lemma tokens_guarded rt : keeps_out rt tokens_ServeHTTP.
Proof.
  intros r Hi _. apply mux_refuses. intros e ms He _.
  repeat (apply elem_of_cons in He as [->|He]); [by apply identified_refuses..|by apply elem_of_nil in He].
Qed.
Lemma admin_guarded rt : keeps_out rt admin_ServeHTTP.
Proof.
  intros r Hi _. apply mux_refuses. intros e ms He _.
  repeat (apply elem_of_cons in He as [->|He]); [by apply administered_refuses|by apply elem_of_nil in He].
Qed.
Lemma analytics_guarded rt : keeps_out rt analytics_handler.
Proof. intros r Hi _. unfold refuses, analytics_handler. rewrite Hi. eexists. split; [done|]. by left. Qed.
End account.

(** ** The export, the codes and the images *)
Section export.
Context `{!Json userRecord, !Json tokenRecord, !Json Code, !Json reservationRecord, !Json RollupDelta}.
Context (MarshalIndent : Manifest -> option string) (tar_bytes : list tarEntry -> list ascii).   (* [archive/tar] *)
Context (sc : Sched memStore) (io : ExportIO).
Notation Handler := (Handler (T := Act memStore Reply)).

(** [ExportHandler.ServeHTTP]; [has_store] is false for a handler without a
    store, [isAdmin] is the function [main.go] passes. *)
Definition export_ServeHTTP (has_store : bool) (isAdmin : Incoming -> bool) : Handler := fun r =>
  if negb (String.eqb (hr_Method (in_Http r)) "GET")
  then reply (WriteError CodeInvalidRequest "This endpoint only supports GET." [] ∅)
  else if negb has_store then reply (NotImplemented (hr_Pattern (in_Http r)))
  else if negb (isAdmin r) then reply (WriteError CodeForbidden "Export requires an admin identity." [] ∅)
  else
    w ← Write MarshalIndent sc io;
    mret (plain {| rs_Status := 200;
                   rs_Header := <["Cache-Control" := "no-store"]>
                     (<["Content-Disposition" := "attachment; filename=" +:+ Public.quoted "qurator-export.tar"]>
                        {[ "Content-Type" := "application/x-tar" ]});
                   rs_Body := Raw (tar_bytes w.2) |}).

Definition main_isAdmin (r : Incoming) : bool := match in_Identity r with Some i => id_IsAdmin i | None => false end.

Lemma export_guarded `{RD : Redirects} rt : keeps_out rt (export_ServeHTTP true main_isAdmin).
Proof.
  intros r Hi _. unfold refuses, export_ServeHTTP, main_isAdmin. rewrite Hi.
  destruct (negb _); (eexists; split; [done|]; by left).
Qed.
End export.

Section codes.
Context `{RD : Redirects} `{U : UnicodeTable} `{IP : IPParser} `{RE : Renderer} `{SN : Sniffer} `{TP : TimeParse}.
Context `{JC : JsonDecode createCodeRequest} `{JB : JsonDecode batchRequest} `{JU : JsonDecode updateDestinationRequest}.
Context {DB BL CA : Type} `{ST : CodeStore DB} `{BS : BlobStore BL} `{OC : OtterCache CA}.
Notation W := (World DB BL CA).

Definition codes_handler (sc : Sched W) (svc : Service) (order : list nat) : Handler (T := Act W Reply) := fun r =>
  resp ← codes_ServeHTTP sc svc (id_UserID <$> in_Identity r) (in_Http r) order; mret (plain resp).

Lemma codes_guarded sc svc order rt : keeps_out rt (codes_handler sc svc order).
Proof. intros r Hi _. unfold refuses, codes_handler. rewrite Hi. eexists. split; [done|]. by left. Qed.
End codes.

Section images.
Context `{RD : Redirects} `{QR : QrRender} `{SH : SHA256} `{JD : JsonDecode generateRequest} `{FP : FormParsers}.

(** [isAuthed] is [auth.IsAuthenticated]; the limiter guards a public instance. *)
Definition qr_handler {W} (public : bool) (limiter : option (HttpRequest -> option Response)) (env : Env) :
    Handler (T := Act W Reply) := fun r =>
  reply (qr_ServeHTTP public (Some (fun _ => bool_decide (is_Some (in_Identity r)))) limiter env (in_Http r)).

Lemma qr_guarded {W} limiter env rt : keeps_out rt (qr_handler (W:=W) false limiter env).
Proof.
  intros r Hi _. unfold refuses, qr_handler, qr_ServeHTTP. rewrite Hi, bool_decide_eq_false_2 by by intros [].
  eexists. split; [done|]. by left.
Qed.
End images.

(** ** Health ([internal/observability/health.go])

    [checks] is the outcome of every dependency's ping, each under its name. *)
Definition health_body (status : string) (checks : list (string * bool)) : json :=
  JObject (("status", JString status)
           :: match checks with
              | [] => []
              | _ => [("checks", JObject ((fun c : string * bool => (c.1, JBool c.2))
                        <$> sort_Slice (fun x y : string * bool => str_ltb x.1 y.1) checks))]
              end).
Definition writeHealthJSON (status : Z) (body : json) : Response :=
  {| rs_Status := status; rs_Header := {[ "Content-Type" := "application/json" ]}; rs_Body := ValueJSON body |}.
Definition healthz : Response := writeHealthJSON 200 (health_body "ok" []).
Definition readyz (checks : list (string * bool)) : Response :=
  if forallb (fun c : string * bool => c.2) checks then writeHealthJSON 200 (health_body "ok" checks)
  else writeHealthJSON 503 (health_body "unavailable" checks).

(** The handlers of the protected group. *)
Lemma protected_handler rt : rt ∈ Routes -> rt_Group rt = GroupProtected ->
  rt_Handler rt ∈ [HQR; HCodes; HAuth; HTokens; HAdmin; HAnalytics; HExport].
Proof.
  assert (Hall : Forall (fun rt => rt_Group rt = GroupProtected ->
    rt_Handler rt ∈ [HQR; HCodes; HAuth; HTokens; HAdmin; HAnalytics; HExport]) Routes) by (repeat constructor; (done || set_solver)).
  rewrite Forall_forall in Hall. apply Hall.
Qed.

(** ** The server of [cmd/qurator/main.go]: the protected group over its handlers

    Each handler runs on its part of what the server shares; the parts of the
    other components stand still meanwhile. *)
Section zoom.
Context {V W A : Type} (view : V -> W) (update : V -> W -> V).
Definition zoom (act : Act W A) : Act V A := fun '(n, v) =>
  let '(x, (n', w')) := act (n, view v) in (x, (n', update v w')).
End zoom.

Section server.
Context `{RD : Redirects} `{U : UnicodeTable} `{IP : IPParser} `{NT : IPNets} `{SH : SHA256} `{JW : JWT} `{A2 : Argon2}.
Context `{TP : TimeParse} `{JS : JsonDecode signinRequest} `{JT : JsonDecode tokenRequest} `{TF : TimeFormat}.
Context `{JC : JsonDecode createCodeRequest} `{JB : JsonDecode batchRequest} `{JU : JsonDecode updateDestinationRequest}.
Context `{RE : Renderer} `{SN : Sniffer} `{QR_ : QrRender} `{JD : JsonDecode generateRequest} `{FP : FormParsers}.
Context `{!Json userRecord, !Json tokenRecord, !Json Code, !Json reservationRecord, !Json RollupDelta}.
Context {BL CA : Type} `{BS : BlobStore BL} `{OC : OtterCache CA}.

Record Server := { sv_auth : AuthWorld memStore; sv_blob : BL; sv_cache : CA }.

Definition auth_update (v : Server) (w : AuthWorld memStore) : Server :=
  {| sv_auth := w; sv_blob := sv_blob v; sv_cache := sv_cache v |}.
Definition store_view (v : Server) : memStore := aw_store (sv_auth v).
Definition store_update (v : Server) (s : memStore) : Server := auth_update v (with_store (sv_auth v) s).
Definition codes_view (v : Server) : World memStore BL CA := Build_World (store_view v) (sv_blob v) (sv_cache v).
Definition codes_update (v : Server) (w : World memStore BL CA) : Server :=
  {| sv_auth := with_store (sv_auth v) (w_store w); sv_blob := w_blob w; sv_cache := w_cache w |}.

(** What the wiring gives the handlers. *)
Record Deps := {
  d_auth : Sched (AuthWorld memStore); d_codes : Sched (World memStore BL CA); d_store : Sched memStore;
  d_authn : Authenticator; d_dummy : option string; d_svc : Service; d_order : list nat;
  d_public : bool; d_limiter : option (HttpRequest -> option Response); d_env : Env;
  d_manifest : Manifest -> option string; d_tar : list tarEntry -> list ascii; d_io : ExportIO;
}.
Context (d : Deps).
Notation T := (Act Server Reply).

Definition on_auth {A} : Act (AuthWorld memStore) A -> Act Server A := zoom sv_auth auth_update.
Definition on_codes {A} : Act (World memStore BL CA) A -> Act Server A := zoom codes_view codes_update.
Definition on_export {A} : Act memStore A -> Act Server A := zoom store_view store_update.

(** The handlers of the protected group; the others are any. *)
Definition server_handlers (public console healthz readyz : option (Handler (T:=T))) : Handlers (T:=T) := {|
  Router.Public := public;
  QR := Some (qr_handler (d_public d) (d_limiter d) (d_env d));
  Router.Codes := Some (fun r => on_codes (codes_handler (d_codes d) (d_svc d) (d_order d) r));
  Auth_ := Some (fun r => on_auth (auth_ServeHTTP (d_auth d) (d_authn d) (d_dummy d) r));
  Tokens := Some (fun r => on_auth (tokens_ServeHTTP (d_auth d) (d_authn d) r));
  Admin := Some (fun r => on_auth (admin_ServeHTTP (d_auth d) r));
  Analytics := Some (fun r => on_auth (analytics_handler (d_auth d) r));
  Export_ := Some (fun r => on_export (export_ServeHTTP (d_manifest d) (d_tar d) (d_store d) (d_io d) true main_isAdmin r));
  Console := console; Healthz := healthz; Readyz := readyz |}.

(** [reject] of [middleware.go], with its answers. *)
Definition auth_reject (r : Request) (e : error) : Reply :=
  if errors_Is e ErrTokenRevoked then plain (WriteError CodeTokenRevoked "The presented API token has been revoked." [] ∅)
  else if errors_Is e auth_errConflict
  then plain (WriteError CodeUnauthorized "The request carries conflicting identity assertions." [] ∅)
  else if errors_Is e ErrUnauthorized then
    {| rp_Response := WriteError CodeUnauthorized "The presented credential is not valid." [] ∅;
       rp_Cookies := match Cookie_ r SessionCookieName with Some _ => [ClearSessionCookie (d_authn d)] | None => [] end |}
  else plain (Internal ∅).

(** [Authenticator.Middleware]. *)
Definition authenticate : Middleware (T:=T) := fun next r =>
  res ← on_auth (resolve (d_auth d) (d_authn d) (in_Creds r));
  match res with
  | Err e => mret (auth_reject (in_Creds r) e)
  | Ok id => next (set_Identity id r)
  end.

(** ** The group refuses *)
Lemma on_auth_ret {A} (x : A) st : on_auth (mret x) st = (x, st).
Proof. destruct st as [n []]. done. Qed.
Lemma on_codes_ret {A} (x : A) st : on_codes (mret x) st = (x, st).
Proof. destruct st as [n [[] ? ?]]. done. Qed.
Lemma on_export_ret {A} (x : A) st : on_export (mret x) st = (x, st).
Proof. destruct st as [n [[] ? ?]]. done. Qed.

(** From every state, the response and nothing else. *)
Definition only_answers (t : T) (resp : Response) : Prop := forall st, t st = (plain resp, st).

Lemma keeps_out_on {W} (on : Act W Reply -> T) rt hd :
  (forall resp st, on (reply resp) st = (plain resp, st)) -> keeps_out rt hd -> guarded only_answers rt (fun r => on (hd r)).
Proof.
  intros Hon Hk r Hi Hf. destruct (Hk r Hi Hf) as (resp & Hr & Ht). exists resp. split; [|done].
  intros st. by rewrite Hr.
Qed.

Lemma server_guarded pub cons hz rz rt : d_public d = false -> rt ∈ Routes -> rt_Group rt = GroupProtected ->
  guarded only_answers rt (lookup reply (server_handlers pub cons hz rz) (rt_Handler rt)).
Proof.
  intros Hpub Hin Hg. pose proof (protected_handler rt Hin Hg) as Hh. set_unfold in Hh.
  destruct Hh as [E|[E|[E|[E|[E|[E|[E|[]]]]]]]]; rewrite E; cbn [lookup server_handlers QR Router.Codes Auth_ Tokens Admin Analytics Export_ default].
  - rewrite Hpub. apply (keeps_out_on (fun t => t)); [done|]. apply qr_guarded.
  - apply (keeps_out_on on_codes); [intros resp; apply on_codes_ret|]. apply codes_guarded.
  - apply (keeps_out_on on_auth); [intros resp; apply on_auth_ret|]. by apply auth_guarded.
  - apply (keeps_out_on on_auth); [intros resp; apply on_auth_ret|]. apply tokens_guarded.
  - apply (keeps_out_on on_auth); [intros resp; apply on_auth_ret|]. apply admin_guarded.
  - apply (keeps_out_on on_auth); [intros resp; apply on_auth_ret|]. apply analytics_guarded.
  - apply (keeps_out_on on_export); [intros resp; apply on_export_ret|]. apply export_guarded.
Qed.

Lemma auth_reject_status r e : rs_Status (rp_Response (auth_reject r e)) = 401 \/ rs_Status (rp_Response (auth_reject r e)) = 500.
Proof. unfold auth_reject. repeat case_match; auto. Qed.

(** C10: no way in without an identity.  On an instance that is not open for
    anonymous image requests, send any request, of whatever method and path,
    with any headers, cookies and body, through the protected group over the
    handlers main.go mounts there (codes, images, accounts, tokens, admin,
    analytics, export).  If authentication finds no identity, then the answer
    is a refusal (401 for a credential that does not hold, 500 when it could
    not be checked, some 4xx otherwise) or the mux's redirect to the path in
    canonical form; and the stores, the blobs and the caches are as
    authentication left them, none of the handlers having touched anything. *)
Theorem protected_refuses_anonymous (pub cons hz rz : option (Handler (T:=T))) (o : RouterOptions (T:=T)) (r : Incoming) st :
  o_Auth o = Some authenticate -> o_CSRF o = Some (csrf reply) -> Forall transparent (PerRoute o) -> d_public d = false ->
  let '(res, st1) := on_auth (resolve (d_auth d) (d_authn d) (in_Creds r)) st in
  (forall i, res <> Ok (Some i)) ->
  exists rp, protectedChain reply (server_handlers pub cons hz rz) o r st = (rp, st1)
    /\ match res with
       | Err _ => rs_Status (rp_Response rp) = 401 \/ rs_Status (rp_Response rp) = 500
       | Ok _ => rp_Cookies rp = [] /\ turned_away r (rp_Response rp)
       end.
Proof.
  intros Ha Hc Hper Hpub. destruct (on_auth (resolve (d_auth d) (d_authn d) (in_Creds r)) st) as [res st1] eqn:E. intros Hnone.
  unfold protectedChain. rewrite Ha. cbn [wrap]. unfold authenticate. rewrite bind_step, E.
  destruct res as [[i|]|e].
  - by destruct (Hnone i).
  - destruct (group_refuses reply only_answers (fun _ _ => eq_refl) (server_handlers pub cons hz rz) o (set_Identity None r) Hc Hper eq_refl)
      as (resp & Hans & Haway); [intros rt; by apply server_guarded|].
    exists (plain resp). split; [by apply Hans|]. split; [done|]. exact Haway.
  - eexists. split; [reflexivity|]. apply auth_reject_status.
Qed.
End server.

(** ** Witnesses: a router over the account handlers *)
#[local] Instance plain_redirects : Redirects := {|
  mux_redirect := fun _ p _ => {| rs_Status := 307; rs_Header := {[ "Location" := p ]}; rs_Body := NoBody |};
  RedirectHandler := fun _ u s => {| rs_Status := s; rs_Header := {[ "Location" := u ]}; rs_Body := NoBody |} |}.
#[local] Instance w_ip : IPParser := {| netip_is_IPv6 := fun _ => false; net_ParseIP := fun _ => false |}.
#[local] Instance w_nets : IPNets := {| IPNet := unit; net_ParseCIDR := fun _ => None; net_Contains := fun _ _ => false |}.
#[local] Instance w_sha : SHA256 := {| sha256_Sum256 := fun l => l |}.
#[local] Instance w_jwt : JWT := {| jwt_SignedString := fun _ _ => Ok "jwt"; jwt_ParseWithClaims := fun _ _ _ _ => None |}.
#[local] Instance w_argon : Argon2 := {| argon2_Version := 19; argon2_IDKey := fun pw _ _ _ _ _ => pw |}.
#[local] Instance w_time : TimeParse := {| time_Parse := fun _ => None |}.
#[local] Instance w_signin : JsonDecode signinRequest := {| json_Decode := fun _ => Err UnexpectedEnd |}.
#[local] Instance w_token : JsonDecode tokenRequest := {| json_Decode := fun _ => Err UnexpectedEnd |}.

Section witness.
Notation W := (AuthWorld memStore).
Notation T := (Act W Reply).
Definition w_sched : Sched W := {| sc_env := env_at; sc_others := fun _ w => w |}.
Definition w_auth : Authenticator := {|
  a_signingKey := bytes "key"; a_sessionTTL := DefaultSessionTTL; a_cacheTTL := DefaultCacheTTL; a_pepper := [];
  a_cookieSecure := true; a_fwdEnabled := false; a_fwdHeader := ""; a_fwdTrusted := [] |}.

(** The codes, image and export handlers over another world stand as guarded pages. *)
Definition page : Handler (T := T) := identified (fun _ _ => mret (plain (Silent ∅))).
Definition w_handlers : Handlers (T := T) := {|
  Router.Public := Some (fun _ => reply (Silent ∅)); QR := Some page; Router.Codes := Some page;
  Auth_ := Some (auth_ServeHTTP w_sched w_auth None); Tokens := Some (tokens_ServeHTTP w_sched w_auth);
  Admin := Some (admin_ServeHTTP w_sched); Analytics := Some (analytics_handler w_sched); Export_ := Some page;
  Console := None; Healthz := Some (fun _ => reply healthz); Readyz := None |}.
Definition w_options : RouterOptions (T := T) := {|
  Common := []; PerRoute := []; o_Auth := Some (fun next r => next (set_Identity None r)); o_CSRF := Some (csrf reply);
  SigninLimiter := None |}.
Definition w_request (m p : string) : Incoming := {|
  in_Http := {| hr_Method := m; hr_Pattern := ""; hr_PathValue := fun _ => ""; hr_Query := ∅; hr_Header := fun _ => ""; hr_Body := [] |};
  in_EscapedPath := p; in_Path := p; in_RawQuery := ""; in_Creds := {| Header_Values := fun _ => []; Cookie_ := fun _ => None; RemoteAddr := "" |};
  in_Identity := None; in_Route := "" |}.

Lemma router_split_witness :
  mux_ServeHTTP reply (root reply w_handlers w_options) (w_request "GET" "/r/abc")
    = mux_ServeHTTP reply (group_mux reply w_handlers w_options GroupPublic) (with_match (w_request "GET" "/r/abc") "/r/" [])
  /\ mux_ServeHTTP reply (root reply w_handlers w_options) (w_request "GET" "/v1") = reply (mux_redirect "GET" "/v1/" "").
Proof.
  split.
  - exact (router_split reply w_handlers w_options (w_request "GET" "/r/abc") ltac:(vm_compute; reflexivity)).
  - exact (router_split reply w_handlers w_options (w_request "GET" "/v1") ltac:(vm_compute; reflexivity)).
Defined.


#[local] Instance w_create : JsonDecode createCodeRequest := {| json_Decode := fun _ => Err UnexpectedEnd |}.
#[local] Instance w_batch : JsonDecode batchRequest := {| json_Decode := fun _ => Err UnexpectedEnd |}.
#[local] Instance w_update : JsonDecode updateDestinationRequest := {| json_Decode := fun _ => Err UnexpectedEnd |}.
#[local] Instance w_generate : JsonDecode generateRequest := {| json_Decode := fun _ => Err UnexpectedEnd |}.
#[local] Instance w_render : Renderer := {| Render := fun _ _ _ _ _ => Err (NewErr "no image") |}.
#[local] Instance w_sniff : Sniffer := {| DetectContentType := fun _ => "" |}.
#[local] Instance w_qr : QrRender := {| qr_Render := fun _ _ => Err (NewErr "no image") |}.
#[local] Instance w_forms : FormParsers := {|
  mime_ParseMediaType := fun _ => None; ParseMultipartForm := fun _ _ _ => None; strconv_ParseFloat := fun _ => None |}.
#[local] Instance w_json {R} : Json R := {| Marshal := fun _ => None; Unmarshal := fun _ => None |}.

Definition w_service : Service := NewService (Some memBlob_urler)
  {| BaseURL := "https://qr.example"; cfg_AllowedSchemes := []; cfg_URLMode := ""; PublicBaseURL := "";
     PresignTTL := 0; cfg_BatchMax := 0; BatchWorkers := 0 |}.
Definition w_deps : Deps (BL := memBlob) (CA := mapCache) := {|
  d_auth := w_sched; d_codes := {| sc_env := env_at; sc_others := fun _ w => w |};
  d_store := {| sc_env := env_at; sc_others := fun _ w => w |}; d_authn := w_auth; d_dummy := None; d_svc := w_service;
  d_order := []; d_public := false; d_limiter := None; d_env := env_at 0; d_manifest := fun _ => None; d_tar := fun _ => [];
  d_io := no_faults |}.
Definition w_server : Server (BL := memBlob) (CA := mapCache) := {|
  sv_auth := Build_AuthWorld NewMemStore (newTTLCache DefaultCacheTTL) (newTTLCache DefaultCacheTTL) ∅;
  sv_blob := NewMemBlob; sv_cache := NewCache |}.
Definition s_options : RouterOptions (T := Act (Server (BL := memBlob) (CA := mapCache)) Reply) := {|
  Common := []; PerRoute := []; o_Auth := Some (authenticate w_deps); o_CSRF := Some (csrf reply); SigninLimiter := None |}.
(** A token the server does not know. *)
Definition w_bearer (m p : string) : Incoming := {|
  in_Http := in_Http (w_request m p); in_EscapedPath := p; in_Path := p; in_RawQuery := "";
  in_Creds := {| Header_Values := fun h => if String.eqb h "Authorization" then ["Bearer qur_x"] else []; Cookie_ := fun _ => None;
                 RemoteAddr := "" |};
  in_Identity := None; in_Route := "" |}.

Lemma protected_refuses_anonymous_witness :
  (exists rp, protectedChain reply (server_handlers w_deps None None None None) s_options (w_request "DELETE" "/v1/tokens/tok_1") (0%nat, w_server)
     = (rp, (0%nat, w_server)) /\ rp_Cookies rp = [] /\ turned_away (w_request "DELETE" "/v1/tokens/tok_1") (rp_Response rp))
  /\ exists rp, protectedChain reply (server_handlers w_deps None None None None) s_options (w_bearer "GET" "/v1/codes") (0%nat, w_server)
     = (rp, (0%nat, w_server)) /\ (rs_Status (rp_Response rp) = 401 \/ rs_Status (rp_Response rp) = 500).
Proof.
  split.
  - exact (protected_refuses_anonymous w_deps None None None None s_options (w_request "DELETE" "/v1/tokens/tok_1") (0%nat, w_server)
      eq_refl eq_refl (Forall_nil_2 _) eq_refl ltac:(intros i; discriminate)).
  - exact (protected_refuses_anonymous w_deps None None None None s_options (w_bearer "GET" "/v1/codes") (0%nat, w_server)
      eq_refl eq_refl (Forall_nil_2 _) eq_refl ltac:(intros i; discriminate)).
Defined.
End witness.
