(* ===== verification/Config.v ===== *)
(** * Configuration ([internal/config])

    Defaults, an optional file, the environment and the command line, layered
    into one map of dotted keys; the typed configuration; its validation.  The
    koanf and pflag libraries are parameters. *)
From Stdlib Require Import Ascii String.
From S2P Require Import GoLib GoUrl Domain Destination Codes Public QrApi Auth.
Local Open Scope string_scope.
Local Open Scope Z_scope.

(** ** [secret.go] *)
Definition redacted : string := "***".

(** [Secret] is a string; its hooks. *)
Definition Secret : Type := string.
Definition Secret_String (s : Secret) : string := if String.eqb s "" then "" else redacted.
Definition Secret_GoString (s : Secret) : string :=
  "config.Secret(" +:+ quoted (if String.eqb s "" then "" else redacted) +:+ ")".
Definition Secret_MarshalJSON (s : Secret) : list ascii := bytes (quoted (if String.eqb s "" then "" else redacted)).
Definition Secret_MarshalText (s : Secret) : list ascii := bytes (if String.eqb s "" then "" else redacted).
Definition Secret_LogValue (s : Secret) : string := if String.eqb s "" then "" else redacted.
Definition Reveal (s : Secret) : string := s.
Definition IsSet (s : Secret) : bool := negb (String.eqb s "").

(** ** The typed configuration *)
Record ServerConfig := { sv_Listen : string; sv_BaseURL : string; sv_MetricsListen : string; sv_DataDir : string }.
Record DBConfig := { db_Driver : string; db_DSN : string }.
Record S3Config := {
  s3_Endpoint : string; s3_Bucket : string; s3_Region : string; s3_AccessKey : Secret; s3_SecretKey : Secret;
  s3_UseSSL : bool; s3_PathStyle : bool;
}.
Record BlobConfig := { bl_Driver : string; bl_Path : string; bl_S3 : S3Config }.
Record AuthConfig := {
  ac_SigningSecret : Secret; ac_DevMode : bool; ac_BootstrapEmail : string; ac_BootstrapPassword : Secret; ac_SessionTTL : Z;
}.
Record EphemeralConfig := { ep_Public : bool; ep_RateLimitPerMinute : Z }.
Record ForwardAuthConfig := { fa_Enabled : bool; fa_Header : string; fa_TrustedCIDRs : list string }.
Record CodesConfig := {
  cd_AllowedSchemes : list string; cd_FallbackDestination : string; cd_BatchMax : Z; cd_BatchWorkers : Z;
}.
Record ImagesConfig := {
  im_URLMode : string; im_PublicBaseURL : string; im_PresignTTL : Z; im_ServeViaInstance : bool;
}.
Record RenderConfig := { rn_MaxPx : Z; rn_MaxDuration : Z; rn_MaxPayloadBytes : Z }.
Record AnalyticsConfig := { an_RetentionDays : Z; an_BufferSize : Z; an_BatchSize : Z; an_FlushInterval : Z }.
Record LogConfig := { lg_Level : string; lg_Format : string }.

Record Config := {
  c_Server : ServerConfig;
  c_DB : DBConfig;
  c_Blob : BlobConfig;
  c_Auth : AuthConfig;
  c_Ephemeral : EphemeralConfig;
  c_ForwardAuth : ForwardAuthConfig;
  c_Codes : CodesConfig;
  c_Images : ImagesConfig;
  c_Render : RenderConfig;
  c_Analytics : AnalyticsConfig;
  c_Log : LogConfig;
  ConfigFile : string;
}.

(** ** The layers *)
Inductive value := VString (s : string) | VBool (b : bool) | VInt (z : Z) | VDuration (d : Z) | VStrings (l : list string).
#[export] Instance value_eq_dec : EqDecision value.
Proof. solve_decision. Defined.

(** Durations of [defaults] are texts that the library parses. *)
Definition defaults : gmap string value := list_to_map [
  ("server.listen", VString ":8080"); ("server.base_url", VString ""); ("server.metrics_listen", VString "");
  ("server.data_dir", VString "./data");
  ("db.driver", VString "sqlite"); ("db.dsn", VString "./data/qurator.db");
  ("blob.driver", VString "fs"); ("blob.path", VString "./data/blobs"); ("blob.s3.endpoint", VString "");
  ("blob.s3.bucket", VString ""); ("blob.s3.region", VString ""); ("blob.s3.access_key", VString "");
  ("blob.s3.secret_key", VString ""); ("blob.s3.use_ssl", VBool true); ("blob.s3.path_style", VBool false);
  ("auth.signing_secret", VString ""); ("auth.dev_mode", VBool false); ("auth.bootstrap_email", VString "");
  ("auth.bootstrap_password", VString ""); ("auth.session_ttl", VString "12h");
  ("ephemeral.public", VBool false); ("ephemeral.rate_limit_per_minute", VInt 60);
  ("forward_auth.enabled", VBool false); ("forward_auth.header", VString "X-Forwarded-Email");
  ("forward_auth.trusted_cidrs", VStrings []);
  ("codes.allowed_schemes", VStrings ["http"; "https"]); ("codes.fallback_destination", VString "");
  ("codes.batch_max", VInt 500); ("codes.batch_workers", VInt 4);
  ("images.url_mode", VString "instance"); ("images.public_base_url", VString ""); ("images.presign_ttl", VString "1h");
  ("images.serve_via_instance", VBool true);
  ("render.max_px", VInt 4096); ("render.max_duration", VString "2s"); ("render.max_payload_bytes", VInt 2953);
  ("analytics.retention_days", VInt 365); ("analytics.buffer_size", VInt 10000); ("analytics.batch_size", VInt 200);
  ("analytics.flush_interval", VString "500ms");
  ("log.level", VString "info"); ("log.format", VString "json")].

Inductive fieldKind := kString | kBool | kInt | kDuration | kStringSlice.
Record fieldSpec := { path : string; kind : fieldKind }.

Definition leafFields : list fieldSpec := [
  Build_fieldSpec "server.listen" kString; Build_fieldSpec "server.base_url" kString;
  Build_fieldSpec "server.metrics_listen" kString; Build_fieldSpec "server.data_dir" kString;
  Build_fieldSpec "db.driver" kString; Build_fieldSpec "db.dsn" kString;
  Build_fieldSpec "blob.driver" kString; Build_fieldSpec "blob.path" kString; Build_fieldSpec "blob.s3.endpoint" kString;
  Build_fieldSpec "blob.s3.bucket" kString; Build_fieldSpec "blob.s3.region" kString; Build_fieldSpec "blob.s3.access_key" kString;
  Build_fieldSpec "blob.s3.secret_key" kString; Build_fieldSpec "blob.s3.use_ssl" kBool; Build_fieldSpec "blob.s3.path_style" kBool;
  Build_fieldSpec "auth.signing_secret" kString; Build_fieldSpec "auth.dev_mode" kBool;
  Build_fieldSpec "auth.bootstrap_email" kString; Build_fieldSpec "auth.bootstrap_password" kString;
  Build_fieldSpec "auth.session_ttl" kDuration;
  Build_fieldSpec "ephemeral.public" kBool; Build_fieldSpec "ephemeral.rate_limit_per_minute" kInt;
  Build_fieldSpec "forward_auth.enabled" kBool; Build_fieldSpec "forward_auth.header" kString;
  Build_fieldSpec "forward_auth.trusted_cidrs" kStringSlice;
  Build_fieldSpec "codes.allowed_schemes" kStringSlice; Build_fieldSpec "codes.fallback_destination" kString;
  Build_fieldSpec "codes.batch_max" kInt; Build_fieldSpec "codes.batch_workers" kInt;
  Build_fieldSpec "images.url_mode" kString; Build_fieldSpec "images.public_base_url" kString;
  Build_fieldSpec "images.presign_ttl" kDuration; Build_fieldSpec "images.serve_via_instance" kBool;
  Build_fieldSpec "render.max_px" kInt; Build_fieldSpec "render.max_duration" kDuration; Build_fieldSpec "render.max_payload_bytes" kInt;
  Build_fieldSpec "analytics.retention_days" kInt; Build_fieldSpec "analytics.buffer_size" kInt;
  Build_fieldSpec "analytics.batch_size" kInt; Build_fieldSpec "analytics.flush_interval" kDuration;
  Build_fieldSpec "log.level" kString; Build_fieldSpec "log.format" kString].

(** *** The environment *)
Class DurationParse := { time_ParseDuration : string -> option Z }.

Definition envPrefix : string := "QURATOR_".
Definition replace_byte (a b : ascii) (s : string) : string := string_map (fun c => if Ascii.eqb c a then b else c) s.
Definition upper_byte (c : ascii) : ascii := if is_lower c then byte_of (code c - 32) else c.

(** The paths are ASCII. *)
Definition envVarName (p : string) : string := envPrefix +:+ string_map upper_byte (replace_byte "." "_" p).

Section load.
Context `{U : UnicodeTable} `{DP : DurationParse}.

Definition parseFieldValue (k : fieldKind) (raw : string) : result value :=
  match k with
  | kBool => match ParseBool raw with Some b => Ok (VBool b) | None => Err (Wrap "invalid bool" (NewErr "strconv.ParseBool")) end
  | kInt => match Atoi raw with Some n => Ok (VInt n) | None => Err (Wrap "invalid int" (NewErr "strconv.Atoi")) end
  | kDuration =>
      match time_ParseDuration raw with
      | Some d => Ok (VDuration d) | None => Err (Wrap "invalid duration" (NewErr "time.ParseDuration")) end
  | kStringSlice => Ok (VStrings (if String.eqb raw "" then [] else TrimSpace <$> SplitByte raw ","))
  | kString => Ok (VString raw)
  end.

Fixpoint env_overrides (fields : list fieldSpec) (lookupEnv : string -> option string) : result (gmap string value) :=
  match fields with
  | [] => Ok ∅
  | f :: fields' =>
      match lookupEnv (envVarName (path f)) with
      | None => env_overrides fields' lookupEnv
      | Some raw =>
          match parseFieldValue (kind f) raw with
          | Err e => Err (Wrap ("config: " +:+ envVarName (path f)) e)
          | Ok v => match env_overrides fields' lookupEnv with Ok m => Ok (<[path f := v]> m) | Err e => Err e end
          end
      end
  end.
Definition envOverrides (lookupEnv : string -> option string) : result (gmap string value) := env_overrides leafFields lookupEnv.

(** *** The command line *)

(** The flags with their defaults. *)
Definition flagSet : list (string * value) := [
  ("config", VString "");
  ("server-listen", VString ""); ("server-base-url", VString ""); ("server-metrics-listen", VString "");
  ("server-data-dir", VString "");
  ("db-driver", VString ""); ("db-dsn", VString "");
  ("blob-driver", VString ""); ("blob-path", VString ""); ("blob-s3-endpoint", VString ""); ("blob-s3-bucket", VString "");
  ("blob-s3-region", VString ""); ("blob-s3-access-key", VString ""); ("blob-s3-secret-key", VString "");
  ("blob-s3-use-ssl", VBool true); ("blob-s3-path-style", VBool false);
  ("auth-signing-secret", VString ""); ("auth-dev-mode", VBool false); ("auth-bootstrap-email", VString "");
  ("auth-bootstrap-password", VString ""); ("auth-session-ttl", VDuration 0);
  ("ephemeral-public", VBool false); ("ephemeral-rate-limit-per-minute", VInt 0);
  ("forward-auth-enabled", VBool false); ("forward-auth-header", VString ""); ("forward-auth-trusted-cidrs", VStrings []);
  ("codes-allowed-schemes", VStrings []); ("codes-fallback-destination", VString ""); ("codes-batch-max", VInt 0);
  ("codes-batch-workers", VInt 0);
  ("images-url-mode", VString ""); ("images-public-base-url", VString ""); ("images-presign-ttl", VDuration 0);
  ("images-serve-via-instance", VBool true);
  ("render-max-px", VInt 0); ("render-max-duration", VDuration 0); ("render-max-payload-bytes", VInt 0);
  ("analytics-retention-days", VInt 0); ("analytics-buffer-size", VInt 0); ("analytics-batch-size", VInt 0);
  ("analytics-flush-interval", VDuration 0);
  ("log-level", VString ""); ("log-format", VString "")].

(** [flagKey]. *)
Definition flagKey (name : string) : string := replace_byte "-" "." name.

(** [pflag]'s parser: the flags given and the positional arguments.  koanf: a
    file provider with the YAML parser; [Load] of a map over the current one;
    the flag provider, which is given the flags, [flagKey], the flags the user
    set and the current map; [Unmarshal]. *)
Class Koanf := {
  pflag_Parse : list string -> result (gmap string value * list string);
  koanf_File : string -> result (gmap string value);
  koanf_Load : gmap string value -> gmap string value -> gmap string value;
  posflag_Read : list (string * value) -> (string -> string) -> gmap string value -> gmap string value -> gmap string value;
  koanf_Unmarshal : gmap string value -> result Config;
}.

Definition set_ConfigFile (f : string) (c : Config) : Config := {|
  c_Server := c_Server c; c_DB := c_DB c; c_Blob := c_Blob c; c_Auth := c_Auth c; c_Ephemeral := c_Ephemeral c;
  c_ForwardAuth := c_ForwardAuth c; c_Codes := c_Codes c; c_Images := c_Images c; c_Render := c_Render c;
  c_Analytics := c_Analytics c; c_Log := c_Log c; ConfigFile := f |}.

(** The four [k.Load] calls. *)
Definition layered `{KO : Koanf} (file : option (gmap string value)) (env changed : gmap string value) : gmap string value :=
  let k := koanf_Load defaults ∅ in
  let k := match file with Some m => koanf_Load m k | None => k end in
  let k := koanf_Load env k in
  koanf_Load (posflag_Read flagSet flagKey changed k) k.

(** ** Validation ([validate.go]) *)
Class CIDRMask `{IPNets} := { mask_ones : IPNet -> Z }.   (* [ipnet.Mask.Size()], the first *)

Definition set_BaseURL (u : string) (c : Config) : Config :=
  let s := c_Server c in {|
  c_Server := {| sv_Listen := sv_Listen s; sv_BaseURL := u; sv_MetricsListen := sv_MetricsListen s; sv_DataDir := sv_DataDir s |};
  c_DB := c_DB c; c_Blob := c_Blob c; c_Auth := c_Auth c; c_Ephemeral := c_Ephemeral c;
  c_ForwardAuth := c_ForwardAuth c; c_Codes := c_Codes c; c_Images := c_Images c; c_Render := c_Render c;
  c_Analytics := c_Analytics c; c_Log := c_Log c; ConfigFile := ConfigFile c |}.
Definition set_PublicBaseURL (u : string) (c : Config) : Config :=
  let i := c_Images c in {|
  c_Server := c_Server c; c_DB := c_DB c; c_Blob := c_Blob c; c_Auth := c_Auth c; c_Ephemeral := c_Ephemeral c;
  c_ForwardAuth := c_ForwardAuth c; c_Codes := c_Codes c;
  c_Images := {| im_URLMode := im_URLMode i; im_PublicBaseURL := u; im_PresignTTL := im_PresignTTL i;
                 im_ServeViaInstance := im_ServeViaInstance i |};
  c_Render := c_Render c; c_Analytics := c_Analytics c; c_Log := c_Log c; ConfigFile := ConfigFile c |}.
End load.

(** One violation, if the condition holds. *)
Definition violation (b : bool) (msg : string) : list error := if b then [NewErr msg] else [].

Section validate.
Context `{U : UnicodeTable} `{IP : IPParser} `{NT : IPNets} `{CM : !CIDRMask}.

Definition parseLogLevel (level : string) : result string :=
  if bool_decide (ToLower level ∈ ["debug"; "info"; "warn"; "error"]) then Ok (ToLower level)
  else Err (NewErr "must be one of debug, info, warn, error").

Definition check_cidr (cidr : string) : list error :=
  match net_ParseCIDR cidr with
  | Some n =>
      violation (mask_ones n =? 0)
        "config: forward_auth.trusted_cidrs contains an entry which trusts every peer on the internet; list only your proxy's addresses"
  | None => [Wrap "config: forward_auth.trusted_cidrs: invalid CIDR" (NewErr "net.ParseCIDR")]
  end.

(** [validateImages]: the violations and the normalised base URL. *)
Definition validateImages (c : Config) : list error * Config :=
  let i := c_Images c in
  let mode := im_URLMode i in
  if negb (bool_decide (mode ∈ ["instance"; "public"; "presigned"]))
  then ([NewErr "config: images.url_mode must be one of instance, public, presigned"], c)
  else
    let raw := im_PublicBaseURL i in
    let '(url_errs, c') :=
      if String.eqb raw "" then ([], c)
      else match Parse raw with
      | None => ([Wrap "config: images.public_base_url" (NewErr "net/url")], c)
      | Some u =>
          if negb (String.eqb (Scheme u) "http") && negb (String.eqb (Scheme u) "https") || String.eqb (Host u) ""
          then ([NewErr "config: images.public_base_url must be an absolute http or https URL"], c)
          else ([], set_PublicBaseURL (TrimRightByte raw "/") c)
      end in
    (violation (negb (String.eqb mode "instance") && negb (String.eqb (bl_Driver (c_Blob c)) "s3"))
       "config: images.url_mode needs an object store that can address its objects, but blob.driver is not s3"
     ++ violation (String.eqb mode "public" && String.eqb raw "")
          "config: images.public_base_url is required when images.url_mode is public"
     ++ url_errs
     ++ violation (im_PresignTTL i <=? 0) "config: images.presign_ttl must be > 0"
     ++ violation (negb (im_ServeViaInstance i) && String.eqb mode "instance")
          "config: images.serve_via_instance is false but images.url_mode is instance: no image could be reached; set url_mode to public or presigned",
     c')%list.

(** [Validate]: every violation, and the configuration with its two URLs
    normalised. *)
Definition Validate (c : Config) : list error * Config :=
  let '(e_url, c) :=
    match ParseScanOrigin (sv_BaseURL (c_Server c)) with
    | Err e => ([Wrap "config: server.base_url" e], c)
    | Ok (Some origin) => ([], set_BaseURL (URL_String origin) c)
    | Ok None => ([], c)
    end in
  let a := c_Auth c in let f := c_ForwardAuth c in let s3 := bl_S3 (c_Blob c) in let k := c_Codes c in
  let '(e_images, c') := validateImages c in
  (e_url
   ++ violation (negb (ac_DevMode a) && negb (IsSet (ac_SigningSecret a)) && String.eqb (sv_DataDir (c_Server c)) "")
        "config: server.data_dir is empty and auth.signing_secret is not set: set QURATOR_SERVER_DATA_DIR (where signing.key is persisted) or QURATOR_AUTH_SIGNING_SECRET"
   ++ violation (fa_Enabled f && bool_decide (fa_TrustedCIDRs f = []))
        "config: forward_auth.enabled is true but forward_auth.trusted_cidrs is empty (refusing to trust the identity header from any peer)"
   ++ concat (check_cidr <$> fa_TrustedCIDRs f)
   ++ violation (negb (bool_decide (db_Driver (c_DB c) ∈ ["sqlite"; "postgres"]))) "config: db.driver must be one of sqlite, postgres"
   ++ violation (negb (bool_decide (bl_Driver (c_Blob c) ∈ ["fs"; "s3"]))) "config: blob.driver must be one of fs, s3"
   ++ (if String.eqb (bl_Driver (c_Blob c)) "s3" then
         violation (String.eqb (s3_Endpoint s3) "") "config: blob.s3.endpoint is required when blob.driver is s3"
         ++ violation (String.eqb (s3_Bucket s3) "") "config: blob.s3.bucket is required when blob.driver is s3"
       else [])
   ++ violation (bool_decide (cd_AllowedSchemes k = [])) "config: codes.allowed_schemes must not be empty"
   ++ concat ((fun s => violation (negb (String.eqb s (ToLower s))) "config: codes.allowed_schemes entries must be lowercase")
                <$> cd_AllowedSchemes k)
   ++ violation ((cd_BatchMax k <? 1) || (5000 <? cd_BatchMax k)) "config: codes.batch_max must be between 1 and 5000"
   ++ violation ((cd_BatchWorkers k <? 1) || (64 <? cd_BatchWorkers k)) "config: codes.batch_workers must be between 1 and 64"
   ++ e_images
   ++ violation (rn_MaxPx (c_Render c) <=? 0) "config: render.max_px must be > 0"
   ++ violation (rn_MaxDuration (c_Render c) <=? 0) "config: render.max_duration must be > 0"
   ++ violation (rn_MaxPayloadBytes (c_Render c) <=? 0) "config: render.max_payload_bytes must be > 0"
   ++ violation (an_RetentionDays (c_Analytics c) <? 1) "config: analytics.retention_days must be >= 1"
   ++ violation (negb (Bool.eqb (negb (String.eqb (ac_BootstrapEmail a) "")) (IsSet (ac_BootstrapPassword a))))
        "config: auth.bootstrap_email and auth.bootstrap_password must both be set, or both left empty"
   ++ match parseLogLevel (lg_Level (c_Log c)) with Ok _ => [] | Err e => [Wrap "config: log.level" e] end,
   c')%list.

(** ** [Load] *)

(** The error of [errors.Join] holds the violations. *)
Inductive load_error := LoadError (e : error) | UnexpectedArgument (arg : string) | Invalid (violations : list error).

Definition config_path (changed : gmap string value) (lookupEnv : string -> option string) : string :=
  let p := match changed !! "config" with Some (VString p) => p | _ => "" end in
  if String.eqb p "" then default "" (lookupEnv (envPrefix +:+ "CONFIG")) else p.

Definition Load `{DP : DurationParse} `{KO : Koanf} (args : list string) (lookupEnv : string -> option string) : res load_error Config :=
  match pflag_Parse args with
  | Err e => Err (LoadError (Wrap "config: parse flags" e))
  | Ok (changed, positional) =>
  match positional with
  | arg :: _ => Err (UnexpectedArgument arg)
  | [] =>
  let file := config_path changed lookupEnv in
  match (if String.eqb file "" then Ok None else match koanf_File file with Ok m => Ok (Some m) | Err e => Err e end) with
  | Err e => Err (LoadError (Wrap "config: load file" e))
  | Ok fm =>
  match envOverrides lookupEnv with
  | Err e => Err (LoadError e)
  | Ok em =>
  match koanf_Unmarshal (layered fm em changed) with
  | Err e => Err (LoadError (Wrap "config: unmarshal" e))
  | Ok cfg =>
      match Validate (set_ConfigFile file cfg) with
      | ([], cfg) => Ok cfg
      | (errs, _) => Err (Invalid errs)
      end
  end end end end end.
End validate.

(** ** What [main.go] makes of it *)
Section wiring.
Context `{U : UnicodeTable} `{IP : IPParser} `{NT : IPNets}.

(** The options of [auth.New]; [secret] is the configured one, or the one read
    from the data directory. *)
Definition auth_options (secret : string) (c : Config) : AuthOptions := {|
  SigningSecret := secret; opt_BaseURL := sv_BaseURL (c_Server c); DevMode := ac_DevMode (c_Auth c);
  opt_SessionTTL := ac_SessionTTL (c_Auth c); TokenPepper := "";
  fwd_Enabled := fa_Enabled (c_ForwardAuth c); fwd_Header := fa_Header (c_ForwardAuth c);
  fwd_TrustedCIDRs := fa_TrustedCIDRs (c_ForwardAuth c); CacheTTL := 0 |}.

Definition codes_config (c : Config) : Codes.Config := {|
  Codes.BaseURL := sv_BaseURL (c_Server c); Codes.cfg_AllowedSchemes := cd_AllowedSchemes (c_Codes c);
  Codes.cfg_URLMode := im_URLMode (c_Images c); Codes.PublicBaseURL := im_PublicBaseURL (c_Images c);
  Codes.PresignTTL := im_PresignTTL (c_Images c); Codes.cfg_BatchMax := cd_BatchMax (c_Codes c);
  Codes.BatchWorkers := cd_BatchWorkers (c_Codes c) |}.
End wiring.
