(* ===== verification/ConfigFacts.v ===== *)
(** * The layers of the configuration, and what an accepted one guarantees *)
From Stdlib Require Import Ascii String.
From S2P Require Import GoLib GoUrl Domain Destination Codes Public QrApi Auth Config.
Local Open Scope string_scope.
Local Open Scope Z_scope.

(** ** Secrets *)

(** No hook tells two secrets that are set apart. *)
Lemma secrets_alike (a b : Secret) : IsSet a = true -> IsSet b = true ->
  Secret_String a = Secret_String b /\ Secret_GoString a = Secret_GoString b /\ Secret_MarshalJSON a = Secret_MarshalJSON b
  /\ Secret_MarshalText a = Secret_MarshalText b /\ Secret_LogValue a = Secret_LogValue b.
Proof.
  unfold IsSet, Secret_String, Secret_GoString, Secret_MarshalJSON, Secret_MarshalText, Secret_LogValue.
  intros ->%negb_true_iff ->%negb_true_iff. done.
Qed.

(** ** The libraries *)

(** One dotted key names a map in which the other lies. *)
Definition nested (a b : string) : bool := String.prefix (a +:+ ".") b.
Definition apart (m1 m2 : gmap string value) : Prop :=
  forall a b, is_Some (m1 !! a) -> is_Some (m2 !! b) -> nested a b = false /\ nested b a = false.

(** Loading a map overrides the keys it has; the flag provider gives a flag the
    user set under its key, and the default of another one only where the map
    has no such key; [Unmarshal] reads the settings by their keys. *)
Class KoanfOk `{Koanf} : Prop := {
  Load_spec m k : apart m k -> koanf_Load m k = m ∪ k;
  Read_spec flags cb changed k f : NoDup ((fun f => cb f.1) <$> flags) -> f ∈ flags ->
    posflag_Read flags cb changed k !! cb f.1 =
      match changed !! f.1 with
      | Some v => Some v
      | None => if bool_decide (is_Some (k !! cb f.1)) then None else Some f.2
      end;
  Read_other flags cb changed k key : key ∉ (fun f => cb f.1) <$> flags -> posflag_Read flags cb changed k !! key = None;
  Unmarshal_local m1 m2 : (forall f, f ∈ leafFields -> m1 !! path f = m2 !! path f) -> koanf_Unmarshal m1 = koanf_Unmarshal m2;
}.

(** ** Layers *)

(** The keys that the program writes; none lies under another. *)
Definition setting_keys : list string := path <$> leafFields.
Definition flag_keys : list string := (fun f => flagKey f.1) <$> flagSet.

Lemma keys_apart : Forall (fun a => Forall (fun b => nested a b = false) (setting_keys ++ flag_keys)%list) (setting_keys ++ flag_keys)%list.
Proof. apply (bool_decide_unpack _). vm_compute. exact I. Qed.

Definition keys_in (l : list string) (m : gmap string value) : Prop := forall k, is_Some (m !! k) -> k ∈ l.

Lemma keys_in_apart m1 m2 : keys_in (setting_keys ++ flag_keys)%list m1 -> keys_in (setting_keys ++ flag_keys)%list m2 -> apart m1 m2.
Proof.
  intros H1 H2 a b Ha%H1 Hb%H2. pose proof keys_apart as Hall. rewrite Forall_forall in Hall.
  pose proof (Hall a Ha) as Ha'. pose proof (Hall b Hb) as Hb'. rewrite Forall_forall in Ha', Hb'. auto.
Qed.

Lemma keys_in_union l m1 m2 : keys_in l m1 -> keys_in l m2 -> keys_in l (m1 ∪ m2).
Proof. intros H1 H2 k Hk. rewrite lookup_union in Hk. destruct (m1 !! k) eqn:E1; [apply H1; eauto|]. apply H2. by destruct (m2 !! k). Qed.

Lemma keys_in_app l1 l2 m : keys_in l1 m -> keys_in (l1 ++ l2)%list m.
Proof. intros Hm k Hk. apply elem_of_app. left. by apply Hm. Qed.

Lemma keys_in_empty l : keys_in l ∅.
Proof. intros k [v Hv]. by rewrite lookup_empty in Hv. Qed.

Lemma defaults_keys : keys_in setting_keys defaults.
Proof.
  intros k [v Hv]. apply elem_of_list_to_map_2, (list_elem_of_fmap_2 fst) in Hv. cbn [fst] in Hv. revert k Hv. clear v.
  apply Forall_forall. apply (bool_decide_unpack _). vm_compute. exact I.
Qed.

(** What the environment sets are settings. *)
Lemma envOverrides_keys `{DurationParse} lookupEnv m : envOverrides lookupEnv = Ok m -> keys_in setting_keys m.
Proof.
  unfold envOverrides, setting_keys. revert m. induction leafFields as [|f l IH]; intros m Hm; cbn [env_overrides] in Hm.
  { injection Hm as <-. apply keys_in_empty. }
  assert (Hmore : forall m', keys_in (path <$> l) m' -> keys_in (path <$> f :: l) m') by
    (intros m' Hm' k Hk; cbn [fmap list_fmap]; apply elem_of_cons; right; by apply Hm').
  destruct (lookupEnv _); [|by apply Hmore, IH]. destruct (parseFieldValue _ _); [|done].
  destruct (env_overrides l lookupEnv) as [m'|]; [|done]. injection Hm as <-. intros k Hk.
  destruct (decide (k = path f)) as [->|Hne]; [cbn [fmap list_fmap]; by apply elem_of_cons; left|].
  rewrite lookup_insert_ne in Hk by done. by apply (Hmore m'); [apply IH|].
Qed.

(** A key none of whose words has an underscore has the flag it is named for. *)
Definition flag_of (p : string) : string := replace_byte "." "-" p.
Definition has_flag (p : string) : bool := negb (ascii_in "_" p).

Lemma flags_of_leaves : Forall (fun f => is_Some (defaults !! path f)
  /\ (has_flag (path f) = true -> flagKey (flag_of (path f)) = path f /\ flag_of (path f) ∈ flagSet.*1)
  /\ (has_flag (path f) = false -> path f ∉ flag_keys)) leafFields.
Proof. apply (bool_decide_unpack _). vm_compute. exact I. Qed.

Lemma flag_keys_distinct : NoDup flag_keys.
Proof. apply (bool_decide_unpack _). vm_compute. exact I. Qed.

Section layers.
Context `{OK : KoanfOk}.

Lemma Read_keys changed k : keys_in flag_keys (posflag_Read flagSet flagKey changed k).
Proof.
  intros key Hkey. destruct (decide (key ∈ flag_keys)) as [Hin|Hin]; [done|].
  unfold flag_keys in Hin. rewrite (Read_other _ flagKey changed k key) in Hkey by done. by destruct Hkey.
Qed.

(** The value that the flag of a setting gives. *)
Lemma Read_setting changed k f : f ∈ leafFields -> is_Some (k !! path f) ->
  posflag_Read flagSet flagKey changed k !! path f = if has_flag (path f) then changed !! flag_of (path f) else None.
Proof.
  intros Hf Hk. pose proof flags_of_leaves as Hall. rewrite Forall_forall in Hall. destruct (Hall f Hf) as (_ & Hyes & Hno).
  destruct (has_flag (path f)) eqn:E.
  - destruct (Hyes eq_refl) as [Hkey Hin]. apply list_elem_of_fmap in Hin as ([n d] & Hn & Hin). cbn [fst] in Hn.
    rewrite <- Hkey at 1. rewrite Hn. rewrite (Read_spec flagSet flagKey changed k (n, d)) by (done || apply flag_keys_distinct).
    cbn [fst snd]. rewrite <- Hn, Hkey, bool_decide_eq_true_2 by done. by destruct (changed !! flag_of (path f)).
  - apply Read_other. by apply Hno.
Qed.

Lemma layered_union file env changed : (forall m, file = Some m -> keys_in setting_keys m) -> keys_in setting_keys env ->
  let k := env ∪ (default ∅ file ∪ defaults) in layered file env changed = posflag_Read flagSet flagKey changed k ∪ k.
Proof.
  intros Hfile Henv k. pose proof defaults_keys as Hd.
  assert (Hfd : keys_in setting_keys (default ∅ file ∪ defaults)).
  { apply keys_in_union; [|done]. destruct file as [m|]; [by apply Hfile|apply keys_in_empty]. }
  unfold layered. cbv zeta.
  rewrite (Load_spec defaults ∅), (right_id_L ∅ (∪)) by (intros a b _ [v Hv]; by rewrite lookup_empty in Hv).
  assert (E : (match file with Some m => koanf_Load m defaults | None => defaults end) = default ∅ file ∪ defaults).
  { destruct file as [m|]; cbn [default]; [|by rewrite (left_id_L ∅ (∪))].
    apply Load_spec, keys_in_apart; apply keys_in_app; [by apply Hfile|done]. }
  rewrite E, (Load_spec env) by (apply keys_in_apart; by apply keys_in_app). fold k. apply Load_spec, keys_in_apart.
  - intros key Hkey%Read_keys. apply elem_of_app. by right.
  - apply keys_in_app. by apply keys_in_union.
Qed.

Lemma layered_lookup file env changed f :
  (forall m, file = Some m -> keys_in setting_keys m) -> keys_in setting_keys env -> f ∈ leafFields ->
  layered file env changed !! path f =
    match (if has_flag (path f) then changed !! flag_of (path f) else None) with
    | Some v => Some v | None => (env ∪ (default ∅ file ∪ defaults)) !! path f end.
Proof.
  intros Hfile Henv Hf. rewrite layered_union by done. set (k := env ∪ (default ∅ file ∪ defaults)).
  assert (Hk : is_Some (k !! path f)).
  { pose proof flags_of_leaves as Hall. rewrite Forall_forall in Hall. destruct (Hall f Hf) as [[v Hd] _].
    unfold k. rewrite !lookup_union, Hd. destruct (env !! path f), (default ∅ file !! path f); eauto. }
  rewrite lookup_union, Read_setting by done.
  destruct (if has_flag (path f) then _ else _), (k !! path f); done.
Qed.

(** C26: precedence.  Whatever a file of settings, the environment and the
    command line hold, every setting takes its value from the last layer that
    has one, in the order defaults, file, environment, flags; but a flag only
    counts for a setting whose key has no underscore. *)
Theorem layers_precedence (file : option (gmap string value)) (env changed : gmap string value) (f : fieldSpec) :
  (forall m, file = Some m -> keys_in setting_keys m) -> keys_in setting_keys env -> f ∈ leafFields ->
  let p := path f in
  layered file env changed !! p =
    match (if has_flag p then changed !! flag_of p else None), env !! p, file ≫= lookup p with
    | Some v, _, _ => Some v
    | None, Some v, _ => Some v
    | None, None, Some v => Some v
    | None, None, None => defaults !! p
    end.
Proof.
  intros Hfile Henv Hf p. unfold p. rewrite layered_lookup by done. destruct (if has_flag (path f) then _ else _); [done|].
  rewrite !lookup_union. destruct file as [m|]; unfold default, id; cbn [mbind option_bind]; rewrite ?lookup_empty;
    destruct (env !! path f), (defaults !! path f); try destruct (m !! path f); done.
Qed.
End layers.

(** The flags that name a setting. *)
Definition effective_flags : list string := flag_of <$> filter (fun p => has_flag p = true) setting_keys.
Example effective_flags_are : effective_flags =
  ["server-listen"; "db-driver"; "db-dsn"; "blob-driver"; "blob-path"; "blob-s3-endpoint"; "blob-s3-bucket"; "blob-s3-region";
   "ephemeral-public"; "log-level"; "log-format"].
Proof. vm_compute. reflexivity. Qed.

(** ** Validation *)
Lemma violation_none b msg : violation b msg = [] -> b = false.
Proof. by destruct b. Qed.

Lemma concat_nil {A B} (f : A -> list B) l : concat (f <$> l) = [] -> forall x, x ∈ l -> f x = [].
Proof.
  induction l as [|a l IH]; [by intros _ x ?%elem_of_nil|]. cbn [fmap list_fmap concat]. intros [Ha Hl]%app_nil x Hx.
  apply elem_of_cons in Hx as [->|Hx]; [done|by apply IH].
Qed.

Ltac no_violations := repeat match goal with
  | H : (_ ++ _)%list = [] |- _ => apply app_nil in H as [? H]
  | H : violation _ _ = [] |- _ => apply violation_none in H
  end.

Section validate.
Context `{U : UnicodeTable} `{IP : IPParser} `{NT : IPNets} `{CM : !CIDRMask}.

(** What holds of an accepted configuration. *)
Record accepted (c : Config) : Prop := {
  ok_dir : ac_DevMode (c_Auth c) = true \/ ac_SigningSecret (c_Auth c) <> "" \/ sv_DataDir (c_Server c) <> "";
  ok_forward : fa_Enabled (c_ForwardAuth c) = true -> fa_TrustedCIDRs (c_ForwardAuth c) <> [];
  ok_cidrs : forall cidr, cidr ∈ fa_TrustedCIDRs (c_ForwardAuth c) -> exists n, net_ParseCIDR cidr = Some n /\ mask_ones n <> 0;
  ok_schemes : cd_AllowedSchemes (c_Codes c) <> [];
  ok_batch : 1 <= cd_BatchMax (c_Codes c) <= 5000;
  ok_workers : 1 <= cd_BatchWorkers (c_Codes c) <= 64;
  ok_render : 0 < rn_MaxPx (c_Render c) /\ 0 < rn_MaxDuration (c_Render c) /\ 0 < rn_MaxPayloadBytes (c_Render c);
  ok_retention : 1 <= an_RetentionDays (c_Analytics c);
  ok_presign : 0 < im_PresignTTL (c_Images c);
  ok_images : im_ServeViaInstance (c_Images c) = true \/ im_URLMode (c_Images c) <> "instance" /\ bl_Driver (c_Blob c) = "s3";
  ok_bootstrap : ac_BootstrapEmail (c_Auth c) = "" <-> ac_BootstrapPassword (c_Auth c) = "";
  ok_drivers : db_Driver (c_DB c) ∈ ["sqlite"; "postgres"] /\ bl_Driver (c_Blob c) ∈ ["fs"; "s3"];
}.

Lemma validateImages_ok c c' : validateImages c = ([], c') ->
  0 < im_PresignTTL (c_Images c)
  /\ (im_ServeViaInstance (c_Images c) = true \/ im_URLMode (c_Images c) <> "instance" /\ bl_Driver (c_Blob c) = "s3")
  /\ (c' = c \/ c' = set_PublicBaseURL (TrimRightByte (im_PublicBaseURL (c_Images c)) "/") c).
Proof.
  unfold validateImages. cbv zeta. destruct (negb _); [done|].
  set (p := if String.eqb (im_PublicBaseURL (c_Images c)) "" then _ else _).
  assert (Hp : p.2 = c \/ p.2 = set_PublicBaseURL (TrimRightByte (im_PublicBaseURL (c_Images c)) "/") c).
  { unfold p. destruct (String.eqb _ ""); [by left|]. destruct (Parse _); [|by left]. destruct (_ || _); [by left|by right]. }
  destruct p as [ue c2]. cbn [snd] in Hp. intros H. injection H as Hnil <-. no_violations.
  split_and!; [lia| |done].
  match goal with H : negb (im_ServeViaInstance _) && _ = false |- _ => rename H into Hserve end.
  match goal with H : negb (String.eqb (im_URLMode _) "instance") && _ = false |- _ => rename H into Hstore end.
  destruct (im_ServeViaInstance (c_Images c)); [by left|right]. cbn [negb andb] in Hserve. rewrite Hserve in Hstore.
  cbn [negb andb] in Hstore. apply negb_false_iff, String.eqb_eq in Hstore. apply String.eqb_neq in Hserve. done.
Qed.

Lemma Validate_accepted c c' : Validate c = ([], c') -> accepted c'.
Proof.
  unfold Validate. set (r := match ParseScanOrigin _ with Ok (Some _) => _ | Ok None => _ | Err _ => _ end).
  destruct r as [ue c1]. cbv zeta. destruct (validateImages c1) as [ie c2] eqn:Ei. intros H. injection H as Hnil <-. no_violations.
  subst ie. apply validateImages_ok in Ei as (Hp & Hi & Hc).
  assert (Hsame : c_Auth c2 = c_Auth c1 /\ c_ForwardAuth c2 = c_ForwardAuth c1 /\ c_Codes c2 = c_Codes c1 /\ c_Render c2 = c_Render c1
    /\ c_Analytics c2 = c_Analytics c1 /\ c_Blob c2 = c_Blob c1 /\ c_DB c2 = c_DB c1 /\ c_Server c2 = c_Server c1
    /\ im_PresignTTL (c_Images c2) = im_PresignTTL (c_Images c1) /\ im_ServeViaInstance (c_Images c2) = im_ServeViaInstance (c_Images c1)
    /\ im_URLMode (c_Images c2) = im_URLMode (c_Images c1)) by by destruct Hc as [->| ->].
  destruct Hsame as (Ea & Ef & Ek & Er & En & Eb & Ed & Es & E1 & E2 & E3).
  constructor; rewrite ?Ea, ?Ef, ?Ek, ?Er, ?En, ?Eb, ?Ed, ?Es, ?E1, ?E2, ?E3; try lia; try done.
  - match goal with H : _ && String.eqb (sv_DataDir _) "" = false |- _ => revert H end. unfold IsSet.
    destruct (ac_DevMode _); [by left|]. destruct (String.eqb_spec (ac_SigningSecret (c_Auth c1)) ""); [|by right; left].
    destruct (String.eqb_spec (sv_DataDir (c_Server c1)) ""); [done|by right; right].
  - match goal with H : fa_Enabled _ && _ = false |- _ => revert H end. intros Hv Hon. rewrite Hon in Hv. by apply bool_decide_eq_false in Hv.
  - match goal with H : concat (check_cidr <$> _) = [] |- _ => intros cidr Hin; pose proof (concat_nil _ _ H cidr Hin) as Hc' end.
    unfold check_cidr in Hc'. destruct (net_ParseCIDR cidr) as [n|]; [|done]. apply violation_none in Hc'. exists n. split; [done|lia].
  - match goal with H : bool_decide (cd_AllowedSchemes _ = []) = false |- _ => by apply bool_decide_eq_false in H end.
  - match goal with H : negb (eqb _ _) = false |- _ => revert H end. unfold IsSet.
    destruct (String.eqb_spec (ac_BootstrapEmail (c_Auth c1)) ""), (String.eqb_spec (ac_BootstrapPassword (c_Auth c1)) ""); done.
  - split; match goal with H : negb (bool_decide (?d ∈ _)) = false |- ?d ∈ _ => by apply negb_false_iff, bool_decide_eq_true in H end.
Qed.

Lemma Load_accepted `{DP : DurationParse} `{KO : Koanf} args lookupEnv c : Load args lookupEnv = Ok c -> accepted c.
Proof.
  unfold Load. destruct (pflag_Parse args) as [[changed [|a l]]|]; try done. cbv zeta.
  destruct (if String.eqb _ "" then _ else _) as [fm|]; [|done]. destruct (envOverrides lookupEnv) as [em|]; [|done].
  destruct (koanf_Unmarshal _) as [cfg|]; [|done].
  destruct (Validate _) as [[|e es] c'] eqn:E; [|done]. intros H. injection H as <-. by apply Validate_accepted in E.
Qed.

Lemma bool_decide_bytes (s : string) : bool_decide (bytes s = []) = String.eqb s "".
Proof. by destruct s. Qed.

(** ** What the rest of the program makes of an accepted configuration *)
Lemma parse_cidrs_all (cidrs : list string) : (forall c, c ∈ cidrs -> exists n, net_ParseCIDR c = Some n /\ mask_ones n <> 0) ->
  exists ns, parse_cidrs cidrs = Ok ns /\ length ns = length cidrs /\ Forall (fun n => mask_ones n <> 0) ns.
Proof.
  induction cidrs as [|c cidrs IH]; intros Hall; cbn [parse_cidrs]; [by exists []|].
  destruct (Hall c) as (n & -> & Hn); [by apply elem_of_cons; left|].
  destruct IH as (ns & -> & Hlen & Hns). { intros c' Hc'. apply Hall. apply elem_of_cons. by right. }
  exists (n :: ns). cbn [length]. split_and!; [done|by rewrite Hlen|by constructor].
Qed.

Lemma default_Z_pos z d : 1 <= z -> default_Z z d = z.
Proof. intros Hz. unfold default_Z. by destruct (Z.leb_spec z 0); [lia|]. Qed.

Lemma schemes_configured urler (cfg : Codes.Config) s : Codes.cfg_AllowedSchemes cfg <> [] ->
  s ∈ s_schemes (NewService urler cfg) <-> exists s', s' ∈ Codes.cfg_AllowedSchemes cfg /\ s = ToLower (TrimSpace s').
Proof.
  intros Hne. unfold NewService. cbv zeta. cbn [s_schemes]. rewrite decide_False.
  - rewrite elem_of_list_to_set, list_elem_of_fmap. split; intros (s' & ? & ?); by exists s'.
  - destruct (Codes.cfg_AllowedSchemes cfg) as [|x l]; [done|]. cbn [fmap list_fmap list_to_set]. set_solver.
Qed.

(** C25: a configuration that [Load] accepts starts.  Whatever was layered, the
    authenticator is built from it, once there is a signing secret or dev mode
    is on; it trusts a peer for forward auth only through a configured network
    that is not the whole address space, and through at least one when forward
    auth is on; and the code service runs with exactly the configured batch
    bounds, between 1 and 5000 codes on between 1 and 64 workers, and with the
    configured schemes, none of them defaulted. *)
Theorem accepted_config_starts `{DP : DurationParse} `{KO : Koanf} args lookupEnv c rand secret urler :
  Load args lookupEnv = Ok c -> secret <> "" \/ ac_DevMode (c_Auth c) = true ->
  (exists a, Auth.New rand (auth_options secret c) = Ok a
     /\ a_fwdEnabled a = fa_Enabled (c_ForwardAuth c)
     /\ (a_fwdEnabled a = true -> a_fwdTrusted a <> []) /\ Forall (fun n => mask_ones n <> 0) (a_fwdTrusted a))
  /\ let svc := NewService urler (codes_config c) in
     s_batchMax svc = cd_BatchMax (c_Codes c) /\ 1 <= s_batchMax svc <= 5000
     /\ s_batchWorkers svc = cd_BatchWorkers (c_Codes c) /\ 1 <= s_batchWorkers svc <= 64
     /\ forall s, s ∈ s_schemes svc <-> exists s', s' ∈ cd_AllowedSchemes (c_Codes c) /\ s = ToLower (TrimSpace s').
Proof.
  intros HL Hs. apply Load_accepted in HL as [Hdir Hfwd Hcidrs Hschemes Hbatch Hworkers _ _ _ _ _ _]. split.
  - unfold Auth.New, auth_options. cbv zeta. cbn [SigningSecret DevMode fwd_Enabled fwd_TrustedCIDRs].
    rewrite bool_decide_bytes. replace (String.eqb secret "" && negb (ac_DevMode (c_Auth c))) with false
      by (destruct Hs as [?%String.eqb_neq| ->]; [by rewrite H|by rewrite andb_false_r]).
    destruct (parse_cidrs_all _ Hcidrs) as (ns & Hns & Hlen & Hall).
    destruct (fa_Enabled (c_ForwardAuth c)) eqn:E; [|by eexists].
    specialize (Hfwd eq_refl). destruct (fa_TrustedCIDRs (c_ForwardAuth c)) as [|x xs]; [done|]. rewrite Hns.
    eexists. split_and!; [done|done| |done]. by destruct ns.
  - intros svc. assert (Eb : s_batchMax svc = default_Z (cd_BatchMax (c_Codes c)) DefaultBatchMax) by done.
    assert (Ew : s_batchWorkers svc = default_Z (cd_BatchWorkers (c_Codes c)) DefaultBatchWorkers) by done.
    rewrite Eb, Ew, !default_Z_pos by lia. split_and!; [done|lia|lia|done|lia|lia|]. intros s. unfold svc. by rewrite schemes_configured.
Qed.
End validate.

(** ** Flags that name no setting *)
Section flags.
Context `{U : UnicodeTable} `{IP : IPParser} `{NT : IPNets} `{CM : !CIDRMask} `{DP : DurationParse} `{OK : KoanfOk}.

(** Every other flag is ignored.  Two command lines that agree on the
    configuration file and on the eleven flags named after settings without an
    underscore load the same configuration, or fail the same way, whatever
    they give the other thirty-one flags, [--auth-dev-mode] and
    [--server-base-url] among them. *)
Theorem underscored_flags_ignored args1 args2 changed1 changed2 lookupEnv :
  pflag_Parse args1 = Ok (changed1, []) -> pflag_Parse args2 = Ok (changed2, []) ->
  changed1 !! "config" = changed2 !! "config" -> (forall n, n ∈ effective_flags -> changed1 !! n = changed2 !! n) ->
  (forall file m, koanf_File file = Ok m -> keys_in setting_keys m) ->
  Load args1 lookupEnv = Load args2 lookupEnv.
Proof.
  intros H1 H2 Hconfig Hflags Hfile. unfold Load. rewrite H1, H2. unfold config_path. rewrite Hconfig. cbv zeta.
  set (f := if String.eqb _ "" then default "" _ else _). clearbody f.
  destruct (if String.eqb f "" then _ else _) as [fm|e] eqn:Ef; [|done]. destruct (envOverrides lookupEnv) as [em|] eqn:Ee; [|done].
  assert (Hfm : forall m, fm = Some m -> keys_in setting_keys m).
  { intros m ->. destruct (String.eqb f ""); [done|]. destruct (koanf_File f) as [m'|] eqn:E; [|done]. injection Ef as <-. by eapply Hfile. }
  apply envOverrides_keys in Ee. rewrite (Unmarshal_local (layered fm em changed1) (layered fm em changed2)); [done|].
  intros s Hs. rewrite !(layered_lookup _ _ _ s) by done.
  destruct (has_flag (path s)) eqn:E; [|done]. rewrite (Hflags (flag_of (path s))); [done|].
  apply list_elem_of_fmap_2, list_elem_of_filter. split; [done|by apply list_elem_of_fmap_2].
Qed.
End flags.

(** ** A concrete library *)
Section keyed.
Context {A : Type} (K : A -> string) (h : A -> option value).
Notation keyed l := (list_to_map (omap (fun a => (fun v => (K a, v)) <$> h a) l) : gmap string value).

Lemma keyed_other l k : k ∉ K <$> l -> keyed l !! k = None.
Proof.
  intros Hk. apply not_elem_of_list_to_map. intros Hin. apply Hk.
  apply list_elem_of_fmap in Hin as ([k' v] & -> & Hin). apply list_elem_of_omap in Hin as (c & Hc & Hv).
  destruct (h c); [|done]. injection Hv as <- <-. cbn [fst]. by apply list_elem_of_fmap_2.
Qed.

Lemma keyed_lookup l a : NoDup (K <$> l) -> a ∈ l -> keyed l !! K a = h a.
Proof.
  induction l as [|b l IH]; [by intros _ ?%elem_of_nil|]. cbn [fmap list_fmap]. intros [Hb Hl]%NoDup_cons Ha.
  assert (Hcons : keyed (b :: l) = match h b with Some v => <[K b := v]> (keyed l) | None => keyed l end).
  { cbn [omap list_omap]. by destruct (h b). }
  rewrite Hcons. apply elem_of_cons in Ha as [->|Ha].
  - destruct (h b) as [v|] eqn:E; [by rewrite lookup_insert_eq|]. by apply keyed_other.
  - assert (Hne : K b <> K a) by (intros E; apply Hb; rewrite E; by apply list_elem_of_fmap_2).
    destruct (h b); [rewrite lookup_insert_ne by done|]; by apply IH.
Qed.
End keyed.

(** A flag provider over finite maps; its command lines give one switch. *)
Definition demo_config (listen : string) (cidrs : list string) : Config := {|
  c_Server := {| sv_Listen := listen; sv_BaseURL := "https://qr.example.com/"; sv_MetricsListen := ""; sv_DataDir := "./data" |};
  c_DB := {| db_Driver := "sqlite"; db_DSN := "./data/qurator.db" |};
  c_Blob := {| bl_Driver := "fs"; bl_Path := "./data/blobs"; bl_S3 := {| s3_Endpoint := ""; s3_Bucket := ""; s3_Region := "";
               s3_AccessKey := ""; s3_SecretKey := ""; s3_UseSSL := true; s3_PathStyle := false |} |};
  c_Auth := {| ac_SigningSecret := ""; ac_DevMode := false; ac_BootstrapEmail := ""; ac_BootstrapPassword := ""; ac_SessionTTL := 0 |};
  c_Ephemeral := {| ep_Public := false; ep_RateLimitPerMinute := 60 |};
  c_ForwardAuth := {| fa_Enabled := bool_decide (cidrs <> []); fa_Header := "X-Forwarded-Email"; fa_TrustedCIDRs := cidrs |};
  c_Codes := {| cd_AllowedSchemes := ["http"; "https"]; cd_FallbackDestination := ""; cd_BatchMax := 500; cd_BatchWorkers := 4 |};
  c_Images := {| im_URLMode := "instance"; im_PublicBaseURL := ""; im_PresignTTL := 3600; im_ServeViaInstance := true |};
  c_Render := {| rn_MaxPx := 4096; rn_MaxDuration := 2; rn_MaxPayloadBytes := 2953 |};
  c_Analytics := {| an_RetentionDays := 365; an_BufferSize := 10000; an_BatchSize := 200; an_FlushInterval := 1 |};
  c_Log := {| lg_Level := "info"; lg_Format := "json" |}; ConfigFile := "" |}.

Definition as_string (v : option value) : string := match v with Some (VString s) => s | _ => "" end.

#[local] Instance demo_koanf : Koanf := {|
  pflag_Parse args := match args with
    | [] => Ok (∅, [])
    | ["--auth-dev-mode"] => Ok ({["auth-dev-mode" := VBool true]}, [])
    | _ => Err (NewErr "unknown flag")
    end;
  koanf_File _ := Ok {["server.listen" := VString ":9000"]};
  koanf_Load m k := m ∪ k;
  posflag_Read flags cb changed k := list_to_map (omap (fun f => (fun v => (cb f.1, v)) <$>
    (match changed !! f.1 with Some v => Some v | None => if bool_decide (is_Some (k !! cb f.1)) then None else Some f.2 end)) flags);
  koanf_Unmarshal m := Ok (demo_config (as_string (m !! "server.listen")) ["10.0.0.0/8"]);
|}.

Lemma demo_koanf_ok : KoanfOk.
Proof.
  constructor; [done| | |].
  - intros flags cb changed k f Hnd Hf. cbn [posflag_Read demo_koanf].
    apply (keyed_lookup (fun f => cb f.1)
      (fun f => match changed !! f.1 with Some v => Some v | None => if bool_decide (is_Some (k !! cb f.1)) then None else Some f.2 end));
      done.
  - intros flags cb changed k key Hkey. cbn [posflag_Read demo_koanf].
    apply (keyed_other (fun f => cb f.1)
      (fun f => match changed !! f.1 with Some v => Some v | None => if bool_decide (is_Some (k !! cb f.1)) then None else Some f.2 end));
      done.
  - intros m1 m2 Hm. cbn [koanf_Unmarshal demo_koanf]. pose proof (Hm (Build_fieldSpec "server.listen" kString)) as E. cbn [path] in E.
    rewrite E; [done|]. apply elem_of_cons. by left.
Qed.

Lemma demo_file_keys : keys_in setting_keys {["server.listen" := VString ":9000"]}.
Proof. intros k [v Hv]. apply lookup_singleton_Some in Hv as [<- _]. apply elem_of_cons. by left. Qed.

(** The flag wins over the file for [server.listen]; the one of
    [server.base_url] does not count. *)
Lemma layers_precedence_witness :
  let layers := layered (Some {["server.listen" := VString ":9000"]}) ∅
    {["server-listen" := VString ":9200"; "server-base-url" := VString "https://a.example"]} in
  layers !! "server.listen" = Some (VString ":9200") /\ layers !! "server.base_url" = Some (VString "").
Proof.
  set (file := {["server.listen" := VString ":9000"]} : gmap string value).
  assert (Hfile : forall m, Some file = Some m -> keys_in setting_keys m) by (intros m E; injection E as <-; apply demo_file_keys).
  split.
  - etrans; [apply (layers_precedence (OK := demo_koanf_ok) (Some file) ∅ _ (Build_fieldSpec "server.listen" kString))|];
      [done|apply keys_in_empty|apply elem_of_cons; by left|vm_compute; reflexivity].
  - etrans; [apply (layers_precedence (OK := demo_koanf_ok) (Some file) ∅ _ (Build_fieldSpec "server.base_url" kString))|];
      [done|apply keys_in_empty|apply elem_of_cons; right; apply elem_of_cons; by left|vm_compute; reflexivity].
Defined.

#[local] Instance demo_durations : DurationParse := {| time_ParseDuration := fun _ => None |}.
#[local] Instance demo_ips : IPParser := {| netip_is_IPv6 := fun _ => false; net_ParseIP := fun _ => false |}.
#[local] Instance demo_nets : IPNets :=
  {| IPNet := unit; net_ParseCIDR := fun s => if String.eqb s "10.0.0.0/8" then Some () else None; net_Contains := fun _ _ => true |}.
#[local] Instance demo_mask : CIDRMask := {| mask_ones := fun _ => 8 |}.
#[local] Instance demo_table : UnicodeTable := ascii_unicode.

Lemma underscored_flags_ignored_witness : Load ["--auth-dev-mode"] (fun _ => None) = Load [] (fun _ => None).
Proof.
  apply (underscored_flags_ignored (OK := demo_koanf_ok) _ _ {["auth-dev-mode" := VBool true]} ∅); [done|done|done| |].
  - intros n Hn. rewrite lookup_empty. apply lookup_singleton_ne. intros <-. revert Hn. apply (bool_decide_unpack _). vm_compute. exact I.
  - intros file m E. injection E as <-. apply demo_file_keys.
Defined.

Lemma accepted_config_starts_witness :
  exists a, Auth.New (fun _ => "k"%char) (auth_options "secret" (set_BaseURL "https://qr.example.com" (demo_config ":8080" ["10.0.0.0/8"]))) = Ok a
    /\ length (a_fwdTrusted a) = 1%nat.
Proof.
  destruct (accepted_config_starts [] (fun _ => None) (set_BaseURL "https://qr.example.com" (demo_config ":8080" ["10.0.0.0/8"]))
    (fun _ => "k"%char) "secret" None) as [(a & Ha & _ & Hne & _) _]; [vm_compute; reflexivity|left; discriminate|].
  exists a. split; [exact Ha|]. vm_compute in Ha. injection Ha as <-. reflexivity.
Defined.
