(* ===== verification/ConsolePages.v ===== *)
(** * What the console shows ([internal/console])

    types.go, csp.go, the functions of templates.go that the pages call,
    chart.go and assets.go.  The page templates themselves and the files that
    are embedded in the binary are parameters. *)
From Stdlib Require Import Ascii String Floats.SpecFloat.
From S2P Require Import GoLib GoUrl Base64 Text Http Domain Blob Auth Public.
Local Open Scope string_scope.
Local Open Scope Z_scope.

(** ** [csp.go] *)
Definition csp (nonce : string) : string :=
  "default-src 'none'; script-src 'self' 'nonce-" +:+ nonce +:+ "'; style-src 'self' 'nonce-" +:+ nonce
  +:+ "'; img-src 'self' data:; font-src 'self'; connect-src 'self'; form-action 'self'; frame-ancestors 'none'; base-uri 'none'".

Definition newNonce (rand : nat -> ascii) : string := EncodeToString alphabet_url (rand_read rand 16).

(** What [withCSP] sets before the handler runs. *)
Definition csp_headers (nonce : string) : gmap string string :=
  <["Content-Security-Policy" := csp nonce]>
  (<["Referrer-Policy" := "no-referrer"]> {["X-Content-Type-Options" := "nosniff"]}).

(** ** [types.go] *)
Record StylingInput := {
  si_FgColor : string; si_BgColor : string; si_ModuleShape : ModuleShape; si_MarginModules : Z; si_SizePx : Z; si_ECLevel : ECLevel;
}.
Record CreateCodeInput := { cc_Destination : string; cc_Alias : string; cc_Mode : string; cc_Styling : StylingInput }.
Record CodePage := { cp_Items : list Code; cp_NextCursor : string }.
Definition modeDynamic : string := "dynamic".
Definition modeDirect : string := "direct".
Definition codeMode (c : Code) : string := Mode c.

(** The sentinels; [ErrValidation] as the adapters wrap it, with a detail. *)
Inductive console_error :=
| con_NotFound
| con_VersionConflict
| con_InvalidCredentials
| con_Validation (detail : string)
| con_Other (e : error).

(** [err.Error()] of a wrapped [ErrValidation]. *)
Definition validation_text (detail : string) : string := "console: validation failed: " +:+ detail.

(** ** Escaping ([handler.go] and [template.HTMLEscapeString]) *)
Definition replace_bytes (f : ascii -> string) (s : string) : string := cat (f <$> bytes s).

Definition html_entity (c : ascii) : string :=
  if Ascii.eqb c "&" then "&amp;" else if Ascii.eqb c "<" then "&lt;" else if Ascii.eqb c ">" then "&gt;"
  else if Ascii.eqb c "034" then "&quot;" else String c "".
Definition escapeHTML (s : string) : string := replace_bytes html_entity s.

Definition text_entity (c : ascii) : string :=
  if Ascii.eqb c "034" then "&#34;" else if Ascii.eqb c "'" then "&#39;" else if Ascii.eqb c "&" then "&amp;"
  else if Ascii.eqb c "<" then "&lt;" else if Ascii.eqb c ">" then "&gt;"
  else if Ascii.eqb c "000" then of_bytes (EncodeRune RuneError) else String c "".
Definition HTMLEscapeString (s : string) : string := replace_bytes text_entity s.

(** ** [templates.go] *)
Record UserView := { uv_Email : string; uv_Initial : string; uv_IsAdmin : bool }.

(** [time.Time.Format] and [time.Parse] of a layout; [strings.ToUpper]. *)
Class LayoutFormat := { time_Format : string -> Z -> string; time_ParseLayout : string -> string -> option Z }.
Class UpperTable := { strings_ToUpper : string -> string }.

Definition newUserView `{UpperTable} (u : User) : UserView := {|
  uv_Email := user_Email u;
  uv_Initial := if String.eqb (user_Email u) "" then "?" else strings_ToUpper (take_bytes 1 (user_Email u));
  uv_IsAdmin := user_IsAdmin u |}.

Definition listDestinationMax : Z := 120.
Definition ellipsis : string := of_bytes (EncodeRune 8230).
Definition of_runes (l : list Z) : string := of_bytes (concat (EncodeRune <$> l)).
Definition truncate (s : string) (max : Z) : string :=
  if RuneCountInString s <=? max then s else of_runes (take (Z.to_nat max) (runes s)) +:+ ellipsis.
Definition listDestination (s : string) : string := truncate s listDestinationMax.

(** [relTime] of an instant ([None] is a nil pointer) at [now]. *)
Definition relTime `{LayoutFormat} (now : Z) (v : option Z) : string :=
  match v with
  | None => "never"
  | Some t =>
      let d := time_Sub now t in
      if d <? Minute then "just now"
      else if d <? Hour then Itoa (Z.quot d Minute) +:+ "m ago"
      else if d <? 24 * Hour then Itoa (Z.quot d Hour) +:+ "h ago"
      else if d <? 60 * 24 * Hour then Itoa (Z.quot d (24 * Hour)) +:+ "d ago"
      else time_Format "2 Jan 2006" t
  end.

Definition sectionForPage (page : string) : string :=
  if HasPrefix page "token" then "tokens" else if HasPrefix page "code" then "codes" else "".

Definition pageFiles : list string :=
  ["signin.html"; "codes_list.html"; "code_new.html"; "code_detail.html"; "tokens.html"; "token_created.html"].

(** ** [chart.go] *)
Definition chartWidth : Z := 640.
Definition chartHeight : Z := 200.
Definition chartPadTop : Z := 12.
Definition chartPadRight : Z := 16.
Definition chartPadBottom : Z := 28.
Definition chartPadLeft : Z := 40.
Definition chartGridRows : Z := 4.

(** The powers of ten up to [step]; [fuel] bounds the number of decimals. *)
Fixpoint magnitude (fuel : nat) (step mag : Z) : Z :=
  match fuel with
  | O => mag
  | S fuel' => if wrap64 (10 * mag) <=? step then magnitude fuel' step (wrap64 (10 * mag)) else mag
  end.

Definition niceCeiling (max rows : Z) : Z :=
  if max <? rows then rows
  else
    let step := Z.quot (wrap64 (wrap64 (max + rows) - 1)) rows in
    let mag := magnitude 19 step 1 in
    let step :=
      if step <=? mag then mag
      else if step <=? wrap64 (2 * mag) then wrap64 (2 * mag)
      else if step <=? wrap64 (5 * mag) then wrap64 (5 * mag)
      else wrap64 (10 * mag) in
    wrap64 (step * rows).

Definition f64_plus (a b : float64) : float64 := SFadd 53 1024 a b.
Definition f64_minus (a b : float64) : float64 := SFsub 53 1024 a b.
Definition two (f : float64) : string := FormatFixed 2 f.
Definition attr (name v : string) : string := " " +:+ name +:+ "=" +:+ quoted v.

Definition innerW : float64 := f64_of_Z (chartWidth - chartPadLeft - chartPadRight).
Definition innerH : float64 := f64_of_Z (chartHeight - chartPadTop - chartPadBottom).
Definition baseY : float64 := f64_plus (f64_of_Z chartPadTop) innerH.

(** Each operation rounds. *)
Definition xAt (n i : Z) : float64 :=
  if n =? 1 then f64_plus (f64_of_Z chartPadLeft) (f64_div innerW (f64_of_Z 2))
  else f64_plus (f64_of_Z chartPadLeft) (f64_div (f64_mul innerW (f64_of_Z i)) (f64_of_Z (n - 1))).
Definition yAt (ceiling c : Z) : float64 :=
  f64_plus (f64_of_Z chartPadTop) (f64_mul innerH (f64_minus (f64_of_Z 1) (f64_div (f64_of_Z c) (f64_of_Z ceiling)))).

Definition maxCount (series : list SeriesPoint) : Z := foldl (fun m p => if m <? sp_Count p then sp_Count p else m) 1 series.

Definition grid_row (ceiling row : Z) : string :=
  let v := Z.quot (wrap64 (ceiling * row)) chartGridRows in
  let y := two (yAt ceiling v) in
  "<line" +:+ attr "class" "grid" +:+ attr "x1" (Itoa chartPadLeft) +:+ attr "y1" y
  +:+ attr "x2" (Itoa (chartWidth - chartPadRight)) +:+ attr "y2" y +:+ "/>"
  +:+ "<text" +:+ attr "class" "label" +:+ attr "x" (Itoa (chartPadLeft - 8)) +:+ attr "y" y
  +:+ attr "text-anchor" "end" +:+ attr "dominant-baseline" "middle" +:+ ">" +:+ Itoa v +:+ "</text>".

Definition point_at (n ceiling : Z) (i : nat) (p : SeriesPoint) : string :=
  two (xAt n (Z.of_nat i)) +:+ "," +:+ two (yAt ceiling (sp_Count p)).
Definition dot_at `{LayoutFormat} (n ceiling : Z) (i : nat) (p : SeriesPoint) : string :=
  "<circle" +:+ attr "class" "point" +:+ attr "cx" (two (xAt n (Z.of_nat i))) +:+ attr "cy" (two (yAt ceiling (sp_Count p)))
  +:+ attr "r" "3" +:+ "><title>" +:+ HTMLEscapeString (time_Format "2006-01-02 15:04" (Start p)) +:+ ": " +:+ Itoa (sp_Count p)
  +:+ "</title></circle>".

Definition label_indexes (n : nat) : list nat :=
  [0%nat] ++ (if (2 <? n)%nat then [(n / 2)%nat] else []) ++ (if (1 <? n)%nat then [(n - 1)%nat] else []).
Definition anchor (n k count : nat) : string :=
  if Nat.eqb k 0 && (1 <? n)%nat then "start" else if Nat.eqb k (count - 1) && (1 <? n)%nat then "end" else "middle".
Definition x_label `{LayoutFormat} (n : nat) (series : list SeriesPoint) (k i : nat) : string :=
  "<text" +:+ attr "class" "label" +:+ attr "x" (two (xAt (Z.of_nat n) (Z.of_nat i))) +:+ attr "y" (Itoa (chartHeight - 8))
  +:+ attr "text-anchor" (anchor n k (length (label_indexes n))) +:+ ">"
  +:+ HTMLEscapeString (from_option (fun p => time_Format "2 Jan" (Start p)) "" (series !! i)) +:+ "</text>".

Definition renderTrendChart `{LayoutFormat} (series : list SeriesPoint) : string :=
  match series with
  | [] => "<p class=" +:+ quoted "help" +:+ ">No scan data for this range yet.</p>"
  | _ =>
      let n := Z.of_nat (length series) in
      let ceiling := niceCeiling (maxCount series) chartGridRows in
      let points := String.concat " " (imap (point_at n ceiling) series) in
      "<svg" +:+ attr "class" "chart" +:+ attr "viewBox" ("0 0 " +:+ Itoa chartWidth +:+ " " +:+ Itoa chartHeight)
      +:+ attr "xmlns" "http://www.w3.org/2000/svg" +:+ attr "role" "img" +:+ attr "aria-label" "Scan trend chart" +:+ ">"
      +:+ cat (grid_row ceiling <$> [0; 1; 2; 3; 4])
      +:+ "<polygon" +:+ attr "class" "area"
          +:+ attr "points" (two (xAt n 0) +:+ "," +:+ two baseY +:+ " " +:+ points +:+ " " +:+ two (xAt n (n - 1)) +:+ "," +:+ two baseY) +:+ "/>"
      +:+ "<polyline" +:+ attr "class" "line" +:+ attr "points" points +:+ "/>"
      +:+ cat (imap (dot_at n ceiling) series)
      +:+ cat (imap (x_label (length series) series) (label_indexes (length series)))
      +:+ "</svg>"
  end.

(** ** [assets.go] *)
Record asset := { urlPath : string; contentType : string; body : list ascii; gzipBody : option (list ascii) }.
Record assetRegistry := { byName : gmap string asset; byPath : gmap string asset }.

(** The embedded files; [compress/gzip] at the best level. *)
Class Embedded := { embed_ReadFile : string -> option (list ascii); gzip_Best : list ascii -> list ascii }.

(** Name, file, base name and extension. *)
Definition staticSources : list (string * string * string * string) := [
  ("app.css", "assets/app.css", "app", ".css");
  ("app.js", "assets/app.js", "app", ".js");
  ("htmx.min.js", "assets/vendor/htmx-2.0.4.min.js", "htmx.min", ".js")].

Section assets.
Context `{EM : Embedded} `{SH : SHA256}.

Definition gzipIfSmaller (raw : list ascii) : option (list ascii) :=
  let gz := gzip_Best raw in if Nat.leb (length raw) (length gz) then None else Some gz.

Definition fingerprint (raw : list ascii) : string := take_bytes 12 (hex_EncodeToString (sha256_Sum256 raw)).

Definition asset_of (base ext : string) (raw : list ascii) : asset := {|
  urlPath := "/ui/assets/" +:+ base +:+ "-" +:+ fingerprint raw +:+ ext;
  contentType := if String.eqb ext ".js" then "text/javascript; charset=utf-8" else "text/css; charset=utf-8";
  body := raw; gzipBody := gzipIfSmaller raw |}.

Fixpoint register (sources : list (string * string * string * string)) (reg : assetRegistry) : result assetRegistry :=
  match sources with
  | [] => Ok reg
  | (name, file, base, ext) :: rest =>
      match embed_ReadFile file with
      | None => Err (Wrap "console: reading embedded asset" (NewErr file))
      | Some raw =>
          let a := asset_of base ext raw in
          register rest {| byName := <[name := a]> (byName reg); byPath := <[urlPath a := a]> (byPath reg) |}
      end
  end.
Definition buildAssetRegistry : result assetRegistry := register staticSources {| byName := ∅; byPath := ∅ |}.
End assets.

(** [assetRegistry.URL]: an unknown name is a panic, as is a registry that cannot be built. *)
Definition asset_URL (reg : assetRegistry) (name : string) : string := from_option urlPath "" (byName reg !! name).

Definition acceptsGzip (r : HttpRequest) : bool :=
  existsb (fun enc => String.eqb (TrimSpace enc) "gzip") (SplitByte (hr_Header r "Accept-Encoding") ",").

Definition assets_ServeHTTP (reg : assetRegistry) (path : string) (r : HttpRequest) (notFound : Response) : Response :=
  match byPath reg !! path with
  | None => notFound
  | Some a =>
      let h : gmap string string :=
        <["Content-Type" := contentType a]>
        (<["Cache-Control" := "public, max-age=31536000, immutable"]> {["Vary" := "Accept-Encoding"]}) in
      match gzipBody a with
      | Some gz =>
          if acceptsGzip r
          then {| rs_Status := 200; rs_Header := <["Content-Encoding" := "gzip"]> h; rs_Body := Raw gz |}
          else {| rs_Status := 200; rs_Header := h; rs_Body := Raw (body a) |}
      | None => {| rs_Status := 200; rs_Header := h; rs_Body := Raw (body a) |}
      end
  end.
