(* ===== verification/Console.v ===== *)
(** * The console ([internal/console/handler.go])

    The console talks to the rest of the program through the interfaces of
    types.go: here records of actions over any shared state [W].  Every handler
    ends in one call that writes the answer; a page is what the templates make
    of its data. *)
From Stdlib Require Import Ascii String.
From S2P Require Import GoLib GoUrl Text Http Act Mux Domain Blob Auth QrApi AccountApi Router ConsolePages.
Local Open Scope string_scope.
Local Open Scope Z_scope.
Local Open Scope go_scope.

(** ** The interfaces *)
Record CodesService (W : Type) := {
  cs_List : string -> CodeFilter -> Act W (res console_error CodePage);
  cs_Create : string -> CreateCodeInput -> Act W (res console_error Code);
  cs_Get : string -> string -> Act W (res console_error Code);
  cs_UpdateDestination : string -> string -> string -> option Z -> Act W (res console_error Code);
  cs_Delete : string -> string -> Act W (res console_error unit);
  cs_StorageURL : string -> string -> Act W (res console_error (option string));
}.
Record TokensService (W : Type) := {
  ts_List : string -> Act W (res console_error (list APIToken));
  ts_Create : string -> string -> option Z -> Act W (res console_error (APIToken * string));
  ts_Revoke : string -> string -> Act W (res console_error unit);
}.
Record AnalyticsService (W : Type) := { as_Get : string -> AnalyticsQuery -> Act W (res console_error AnalyticsResult) }.
(** [SignIn] and [SignOut] set cookies. *)
Record ConsoleAuth (W : Type) := {
  ca_SignIn : string -> string -> Act W (res console_error (User * list Cookie));
  ca_CurrentUser : Incoming -> Act W (option User);
  ca_SignOut : list Cookie;
}.
Record Deps (W : Type) := {
  d_Codes : CodesService W; d_Tokens : TokensService W; d_Analytics : option (AnalyticsService W); d_Auth : ConsoleAuth W;
}.
Global Arguments cs_List {W}.
Global Arguments cs_Create {W}.
Global Arguments cs_Get {W}.
Global Arguments cs_UpdateDestination {W}.
Global Arguments cs_Delete {W}.
Global Arguments cs_StorageURL {W}.
Global Arguments ts_List {W}.
Global Arguments ts_Create {W}.
Global Arguments ts_Revoke {W}.
Global Arguments as_Get {W}.
Global Arguments ca_SignIn {W}.
Global Arguments ca_CurrentUser {W}.
Global Arguments ca_SignOut {W}.
Global Arguments d_Codes {W}.
Global Arguments d_Tokens {W}.
Global Arguments d_Analytics {W}.
Global Arguments d_Auth {W}.

(** ** The data of the pages *)
Record codeNewData := {
  cn_Destination : string; cn_Alias : string; cn_Mode : string; cn_FgColor : string; cn_BgColor : string; cn_ModuleShape : string;
  cn_MarginModules : Z; cn_SizePx : Z; cn_ECLevel : string; cn_Error : string;
}.
Record codeView := { vw_Code : Code; vw_ScanURL : string; vw_Mode : string }.
Record codeDetailData := {
  dt_Code : codeView; dt_ImageURL : string; dt_StorageURL : string; dt_Analytics : option AnalyticsResult;
  dt_From : string; dt_To : string; dt_Error : string;
}.
Inductive Content :=
| SignInData (Email Error : string)
| CodesListData (Items : list Code) (NextCursor : string)
| CodeNewData (d : codeNewData)
| CodeDetailData (d : codeDetailData)
| TokensData (Items : list APIToken) (Error : string)
| TokenCreatedData (Name Secret : string).

Record Layout := {
  l_Title : string; l_Nonce : string; l_AppCSSURL : string; l_AppJSURL : string; l_HtmxURL : string; l_CSRFHeader : string;
  l_Section : string; l_User : option UserView; l_Content : Content;
}.

(** The parsed templates: the page of a layout.  [r.ParseForm], for a body and
    a query: the values [r.FormValue] reads, or an error.  The runes that
    [strconv.Quote] leaves alone. *)
Class Templates := { tmpl_render : string -> Layout -> list ascii }.
Class Forms := { ParseForm : HttpRequest -> option Values }.
Class PrintTable := { unicode_IsPrint : Z -> bool }.

(** ** [strconv.Quote] *)
Definition hex_digits (n : nat) (z : Z) : string :=
  of_bytes ((fun i => hex_digit (Z.shiftr z (4 * Z.of_nat i) mod 16)) <$> rev (seq 0 n)).
Definition backslash : ascii := "092".
Definition quote_rune `{PrintTable} (r : Z) : string :=
  let esc s := String backslash s in
  if (r =? 34) || (r =? 92) then esc (String (byte_of r) "")
  else if (32 <=? r) && (r <=? 126) || (126 <? r) && unicode_IsPrint r then of_bytes (EncodeRune r)
  else if r =? 7 then esc "a" else if r =? 8 then esc "b" else if r =? 12 then esc "f" else if r =? 10 then esc "n"
  else if r =? 13 then esc "r" else if r =? 9 then esc "t" else if r =? 11 then esc "v"
  else if (r <? 32) || (r =? 127) then esc ("x" +:+ hex_digits 2 r)
  else if r <? 65536 then esc ("u" +:+ hex_digits 4 r) else esc ("U" +:+ hex_digits 8 r).
Fixpoint quote_from `{PrintTable} (skip : nat) (s : string) : string :=
  match s with
  | EmptyString => ""
  | String c s' =>
      match skip with
      | S k => quote_from k s'
      | O =>
          let '(r, w) := DecodeRune s in
          (if Nat.eqb w 1 && (r =? RuneError) then String backslash ("x" +:+ hex_digits 2 (code c)) else quote_rune r)
          +:+ quote_from (pred w) s'
      end
  end.
Definition strconv_Quote `{PrintTable} (s : string) : string := Public.quoted (quote_from 0 s).

(** ** Helpers *)
Definition isSafeMethod (m : string) : bool := String.eqb m "GET" || String.eqb m "HEAD" || String.eqb m "OPTIONS".
Definition isHTMXRequest (r : HttpRequest) : bool := String.eqb (hr_Header r "HX-Request") "true".

Definition signedInMarker : string := "signed_in".
Definition cookieRejectedMarker : string := "cookie".
Definition cookieRejectedMessage : string :=
  "Your browser rejected the session cookie. Serve qurator over HTTPS, or set QURATOR_SERVER_BASE_URL to your http:// origin.".

Definition html (status : Z) (h : gmap string string) (text : list ascii) : Response := {|
  rs_Status := status;
  rs_Header := <["Cache-Control" := "no-store"]> (<["Content-Type" := "text/html; charset=utf-8"]> h);
  rs_Body := Raw text |}.

Definition formError (status : Z) (message : string) : Response :=
  html status {["X-Qurator-Form-Error" := "true"]}
    (bytes ("<p class=" +:+ Public.quoted "banner banner-danger" +:+ " role=" +:+ Public.quoted "alert" +:+ ">" +:+ escapeHTML message +:+ "</p>")).
Definition renderError (status : Z) (message : string) : Response :=
  html status ∅
    (bytes ("<!doctype html><html><body><p class=" +:+ Public.quoted "error-banner" +:+ " role=" +:+ Public.quoted "alert" +:+ ">"
            +:+ escapeHTML message +:+ "</p></body></html>")).

(** [http.NotFound]. *)
Definition http_NotFound : Response := http_Error 404 "404 page not found" ∅.

(** The text from the byte after the first occurrence of [": "]. *)
Definition after_colon (msg : string) : string :=
  match String.index 0 ": " msg with Some i => drop_bytes (i + 2) msg | None => msg end.
Definition safeErrorMessage (e : console_error) (fallback : string) : string :=
  match e with con_Validation d => after_colon (validation_text d) | _ => fallback end.

Definition not_found_or_500 (e : console_error) : Response := match e with con_NotFound => http_NotFound | _ => Internal ∅ end.

(** [ifMatchVersion]. *)
Definition TrimSuffix (s p : string) : string := if HasSuffix s p then rev_string (drop_bytes (String.length p) (rev_string s)) else s.
Definition ifMatchVersion (header : string) : option Z :=
  let header := TrimSpace header in
  if String.eqb header "" then None
  else Atoi (TrimSuffix (TrimPrefix header (String "034" "")) (String "034" "")).

Definition defaultCodeNewData : codeNewData := {|
  cn_Destination := ""; cn_Alias := ""; cn_Mode := modeDynamic; cn_FgColor := "#101828"; cn_BgColor := "#FFFFFF";
  cn_ModuleShape := ShapeSquare; cn_MarginModules := 4; cn_SizePx := 512; cn_ECLevel := ECMedium; cn_Error := "" |}.
Definition set_Error (msg : string) (d : codeNewData) : codeNewData := {|
  cn_Destination := cn_Destination d; cn_Alias := cn_Alias d; cn_Mode := cn_Mode d; cn_FgColor := cn_FgColor d; cn_BgColor := cn_BgColor d;
  cn_ModuleShape := cn_ModuleShape d; cn_MarginModules := cn_MarginModules d; cn_SizePx := cn_SizePx d; cn_ECLevel := cn_ECLevel d;
  cn_Error := msg |}.

Definition form_text (form : Values) (name dflt : string) : string := let v := Values_Get form name in if String.eqb v "" then dflt else v.
Definition form_int (form : Values) (name : string) (dflt : Z) : Z :=
  let v := Values_Get form name in if String.eqb v "" then dflt else default dflt (Atoi v).

(** The form of a new code over its defaults. *)
Definition code_form (form : Values) : codeNewData :=
  let d := defaultCodeNewData in {|
  cn_Destination := TrimSpace (Values_Get form "destination"); cn_Alias := TrimSpace (Values_Get form "alias");
  cn_Mode := form_text form "mode" (cn_Mode d); cn_FgColor := form_text form "fg_color" (cn_FgColor d);
  cn_BgColor := form_text form "bg_color" (cn_BgColor d); cn_ModuleShape := form_text form "module_shape" (cn_ModuleShape d);
  cn_MarginModules := form_int form "margin_modules" (cn_MarginModules d); cn_SizePx := form_int form "size_px" (cn_SizePx d);
  cn_ECLevel := form_text form "ec_level" (cn_ECLevel d); cn_Error := "" |}.
Definition create_input (d : codeNewData) : CreateCodeInput := {|
  cc_Destination := cn_Destination d; cc_Alias := cn_Alias d; cc_Mode := cn_Mode d;
  cc_Styling := {| si_FgColor := cn_FgColor d; si_BgColor := cn_BgColor d; si_ModuleShape := cn_ModuleShape d;
                   si_MarginModules := cn_MarginModules d; si_SizePx := cn_SizePx d; si_ECLevel := cn_ECLevel d |} |}.

(** ** The handlers *)
Section handler.
Context `{RD : Redirects} `{TM : Templates} `{FM : Forms} `{PT : PrintTable} `{LF : LayoutFormat} `{UT : UpperTable}.
Context {W : Type} (sc : Sched W) (d : Deps W) (reg : assetRegistry).
Notation T := (Act W Reply).

Definition send (r : Response) : T := mret (plain r).

(** [http.Redirect], after the handler set headers of its own. *)
Definition http_Redirect (h : gmap string string) (r : Incoming) (url : string) (status : Z) : Response :=
  let p := RedirectHandler (hr_Method (in_Http r)) url status in
  {| rs_Status := rs_Status p; rs_Header := rs_Header p ∪ h; rs_Body := rs_Body p |}.

Definition redirectAfterMutation (r : Incoming) (target : string) : Response :=
  if isHTMXRequest (in_Http r) then WriteStatus 200 {["HX-Redirect" := target]} else http_Redirect ∅ r target 303.

Definition baseLayout (nonce : string) (user : option User) (title section : string) (content : Content) : Layout := {|
  l_Title := title; l_Nonce := nonce; l_AppCSSURL := asset_URL reg "app.css"; l_AppJSURL := asset_URL reg "app.js";
  l_HtmxURL := asset_URL reg "htmx.min.js"; l_CSRFHeader := CSRFHeader; l_Section := section; l_User := newUserView <$> user;
  l_Content := content |}.

(** The message an htmx form shows in place. *)
Definition form_message (content : Content) : string :=
  match content with CodeNewData d => cn_Error d | TokensData _ e => e | _ => "" end.

Definition render (nonce : string) (user : option User) (r : Incoming) (status : Z) (page title : string) (content : Content) : Response :=
  if isHTMXRequest (in_Http r) && (status =? 400) && negb (String.eqb (form_message content) "")
  then formError status (form_message content)
  else html status ∅ (tmpl_render page (baseLayout nonce user title (sectionForPage page) content)).

(** [requireAuth]. *)
Definition requireAuth (next : User -> Incoming -> T) (r : Incoming) : T :=
  user ← ca_CurrentUser (d_Auth d) r;
  match user with
  | None =>
      let target := "/ui/signin" +:+ (if String.eqb (Values_Get (hr_Query (in_Http r)) signedInMarker) "1"
                                      then "?" +:+ cookieRejectedMarker +:+ "=1" else "") in
      send (http_Redirect no_store r target 302)
  | Some u =>
      if negb (isSafeMethod (hr_Method (in_Http r))) && String.eqb (hr_Header (in_Http r) CSRFHeader) ""
      then send (renderError 403 "This action requires the console's own interface.")
      else next u r
  end.

Section page.
Context (nonce : string).

(** *** Sign-in and sign-out *)
Definition getSignIn (r : Incoming) : T :=
  user ← ca_CurrentUser (d_Auth d) r;
  send (match user with
         | Some _ => http_Redirect ∅ r "/ui/" 302
         | None =>
             let msg := if String.eqb (Values_Get (hr_Query (in_Http r)) cookieRejectedMarker) "1" then cookieRejectedMessage else "" in
             render nonce None r 200 "signin.html" "Sign in" (SignInData "" msg)
         end).

Definition postSignIn (r : Incoming) : T :=
  match ParseForm (in_Http r) with
  | None => send (render nonce None r 400 "signin.html" "Sign in" (SignInData "" "Could not read the form."))
  | Some form =>
      let email := TrimSpace (Values_Get form "email") in
      res ← ca_SignIn (d_Auth d) email (Values_Get form "password");
      match res with
      | Err e =>
          let msg := match e with con_InvalidCredentials => "Incorrect email or password." | _ => "Could not sign in." end in
          send (render nonce None r 401 "signin.html" "Sign in" (SignInData email msg))
      | Ok (_, cookies) =>
          mret {| rp_Response := http_Redirect ∅ r ("/ui/?" +:+ signedInMarker +:+ "=1") 303; rp_Cookies := cookies |}
      end
  end.

Definition postSignOut (_ : User) (r : Incoming) : T :=
  mret {| rp_Response := redirectAfterMutation r "/ui/signin"; rp_Cookies := ca_SignOut (d_Auth d) |}.

(** *** Codes *)
Definition getCodesList (user : User) (r : Incoming) : T :=
  if negb (String.eqb (in_Path r) "/ui/") then send http_NotFound
  else
    let filter := {| f_UserID := user_ID user; CreatedAfter := None; CreatedBefore := None; f_Destination := "";
                     Limit := CodesApi.defaultPageLimit; Cursor := Values_Get (hr_Query (in_Http r)) "cursor" |} in
    page ← cs_List (d_Codes d) (user_ID user) filter;
    send (match page with
           | Err _ => Internal ∅
           | Ok p => render nonce (Some user) r 200 "codes_list.html" "Your codes" (CodesListData (cp_Items p) (cp_NextCursor p))
           end).

Definition code_new_page (user : User) (r : Incoming) (status : Z) (data : codeNewData) : Response :=
  render nonce (Some user) r status "code_new.html" "New code" (CodeNewData data).

Definition getCodeNew (user : User) (r : Incoming) : T := send (code_new_page user r 200 defaultCodeNewData).

Definition postCodeCreate (user : User) (r : Incoming) : T :=
  match ParseForm (in_Http r) with
  | None => send (code_new_page user r 400 (set_Error "Could not read the form." defaultCodeNewData))
  | Some form =>
      let data := code_form form in
      if negb (String.eqb (cn_Mode data) modeDynamic) && negb (String.eqb (cn_Mode data) modeDirect)
      then
        let e := con_Validation ("unknown mode " +:+ strconv_Quote (cn_Mode data)) in
        send (code_new_page user r 400 (set_Error (safeErrorMessage e "Could not create the code.") data))
      else
        res ← cs_Create (d_Codes d) (user_ID user) (create_input data);
        send (match res with
               | Ok c => redirectAfterMutation r ("/ui/codes/" +:+ code_ID c)
               | Err (con_Validation m) =>
                   code_new_page user r 400 (set_Error (safeErrorMessage (con_Validation m) "Could not create the code.") data)
               | Err _ => Internal ∅
               end)
  end.

(** A failed analytics query or storage address only leaves its row out. *)
Definition getCodeDetail (user : User) (r : Incoming) : T :=
  let id := hr_PathValue (in_Http r) "id" in
  res ← cs_Get (d_Codes d) (user_ID user) id;
  match res with
  | Err e => send (not_found_or_500 e)
  | Ok c =>
      to ← look sc (fun env _ => time_Now env);
      let from := to - 30 * Day in
      analytics ← (match d_Analytics d with
                   | Some a =>
                       if String.eqb (codeMode c) modeDirect then mret None
                       else res ← as_Get a (user_ID user) {| q_CodeID := id; q_From := from; q_To := to; q_Bucket := BucketDay |};
                            mret (match res with Ok x => Some x | Err _ => None end)
                   | None => mret None
                   end);
      url ← cs_StorageURL (d_Codes d) (user_ID user) id;
      send (render nonce (Some user) r 200 "code_detail.html" (ShortCode c) (CodeDetailData {|
        dt_Code := {| vw_Code := c; vw_ScanURL := "/r/" +:+ ShortCode c; vw_Mode := codeMode c |};
        dt_ImageURL := "/i/" +:+ code_ID c +:+ ".png";
        dt_StorageURL := match url with Ok (Some u) => u | _ => "" end;
        dt_Analytics := analytics;
        dt_From := time_Format "2006-01-02" from; dt_To := time_Format "2006-01-02" to; dt_Error := "" |}))
  end.

Definition destination_updated (c : Code) : Response :=
  html 200 {["ETag" := Public.quoted (Itoa (Version c))]}
    (bytes ("<p role=" +:+ Public.quoted "status" +:+ ">Destination updated to " +:+ escapeHTML (Destination c) +:+ ".</p>")).

Definition update_answer (res : res console_error Code) : Response :=
  match res with
  | Ok c => destination_updated c
  | Err con_VersionConflict => formError 409 "Someone else changed this code in the meantime. Reload and try again."
  | Err con_NotFound => formError 404 "Code not found."
  | Err (con_Validation m) => formError 400 (safeErrorMessage (con_Validation m) "Could not update the destination.")
  | Err _ => Internal ∅
  end.

Definition patchCodeDestination (user : User) (r : Incoming) : T :=
  let id := hr_PathValue (in_Http r) "id" in
  match ParseForm (in_Http r) with
  | None => send (WriteError CodeInvalidRequest "Could not read the form." [] ∅)
  | Some form =>
      let destination := TrimSpace (Values_Get form "destination") in
      res ← cs_UpdateDestination (d_Codes d) (user_ID user) id destination (ifMatchVersion (hr_Header (in_Http r) "If-Match"));
      send (update_answer res)
  end.

Definition deleteCode (user : User) (r : Incoming) : T :=
  res ← cs_Delete (d_Codes d) (user_ID user) (hr_PathValue (in_Http r) "id");
  send (match res with Ok _ => redirectAfterMutation r "/ui/" | Err e => not_found_or_500 e end).

(** *** Tokens *)
Definition tokens_page (user : User) (r : Incoming) (status : Z) (items : list APIToken) (msg : string) : Response :=
  render nonce (Some user) r status "tokens.html" "API tokens" (TokensData items msg).

Definition getTokens (user : User) (r : Incoming) : T :=
  res ← ts_List (d_Tokens d) (user_ID user);
  send (match res with Ok items => tokens_page user r 200 items "" | Err _ => Internal ∅ end).

(** A time that does not parse is no expiry. *)
Definition form_expiry (form : Values) : option Z :=
  let v := TrimSpace (Values_Get form "expires_at") in
  if String.eqb v "" then None else time_ParseLayout "2006-01-02T15:04" v.

Definition postTokenCreate (user : User) (r : Incoming) : T :=
  match ParseForm (in_Http r) with
  | None => send (tokens_page user r 400 [] "Could not read the form.")
  | Some form =>
      let name := TrimSpace (Values_Get form "name") in
      res ← ts_Create (d_Tokens d) (user_ID user) name (form_expiry form);
      match res with
      | Ok (_, secret) =>
          send (render nonce (Some user) r 201 "token_created.html" "Token created" (TokenCreatedData name secret))
      | Err e =>
          items ← ts_List (d_Tokens d) (user_ID user);
          send (tokens_page user r 400 (match items with Ok l => l | Err _ => [] end) (safeErrorMessage e "Could not create the token."))
      end
  end.

Definition deleteToken (user : User) (r : Incoming) : T :=
  res ← ts_Revoke (d_Tokens d) (user_ID user) (hr_PathValue (in_Http r) "id");
  send (match res with Ok _ => redirectAfterMutation r "/ui/tokens" | Err e => not_found_or_500 e end).

(** *** Routes *)
Definition console_mux : Mux (Incoming -> T) := [
  Build_entry "GET /ui/assets/" (fun r => send (assets_ServeHTTP reg (in_Path r) (in_Http r) http_NotFound));
  Build_entry "GET /ui/signin" getSignIn;
  Build_entry "POST /ui/signin" postSignIn;
  Build_entry "POST /ui/signout" (requireAuth postSignOut);
  Build_entry "GET /ui/" (requireAuth getCodesList);
  Build_entry "GET /ui/codes/new" (requireAuth getCodeNew);
  Build_entry "POST /ui/codes" (requireAuth postCodeCreate);
  Build_entry "GET /ui/codes/{id}" (requireAuth getCodeDetail);
  Build_entry "PATCH /ui/codes/{id}" (requireAuth patchCodeDestination);
  Build_entry "DELETE /ui/codes/{id}" (requireAuth deleteCode);
  Build_entry "GET /ui/tokens" (requireAuth getTokens);
  Build_entry "POST /ui/tokens" (requireAuth postTokenCreate);
  Build_entry "DELETE /ui/tokens/{id}" (requireAuth deleteToken)].
End page.

(** [withCSP]: the handler's own headers override. *)
Definition withCSP (next : string -> Incoming -> T) (r : Incoming) : T :=
  nonce ← look sc (fun env _ => newNonce (rand_byte env));
  p ← next nonce r;
  let resp := rp_Response p in
  mret {| rp_Response := {| rs_Status := rs_Status resp; rs_Header := rs_Header resp ∪ csp_headers nonce; rs_Body := rs_Body resp |};
          rp_Cookies := rp_Cookies p |}.

Definition console_ServeHTTP : Incoming -> T := withCSP (fun nonce => mux_ServeHTTP send (console_mux nonce)).
End handler.
