(* ===== verification/ConsoleAdapters.v ===== *)
(** * The console over the real services ([cmd/qurator/console_adapters.go])

    The adapters translate the errors of the services into the sentinels of the
    console.  The code adapter acts on what the code service shares, the others
    on what the authenticator shares. *)
From Stdlib Require Import Ascii String.
From S2P Require Import GoLib GoUrl Text Http Act Domain Destination Blob Password MemStore Store Cache Codes Auth QrApi CodesApi AccountApi Router ConsolePages Console.
Local Open Scope string_scope.
Local Open Scope Z_scope.
Local Open Scope go_scope.

(** ** [translateCodesErr]: the cases of the switch, in order *)
Definition endash : string := of_bytes (EncodeRune 8211).
Definition translations : list (sentinel * console_error) := [
  (ErrNotFound : sentinel, con_NotFound);
  (ErrConflict : sentinel, con_VersionConflict);
  (ErrAliasTaken : sentinel, con_Validation "that alias is already in use");
  (codes_ErrAliasReserved : sentinel, con_Validation "that alias is reserved");
  (codes_ErrAliasInvalid : sentinel, con_Validation ("aliases are 3" +:+ endash +:+ "64 characters of a-z, 0-9 and hyphens"));
  (ErrUnsupportedScheme : sentinel, con_Validation "the destination must use an allowed scheme");
  (ErrSelfReferential : sentinel, con_Validation "the destination cannot point back at this instance");
  (ErrDestinationTooLong : sentinel, con_Validation ("the destination must be at most " +:+ Itoa MaxDestinationLength +:+ " characters"));
  (ErrInvalidDestination : sentinel, con_Validation "the destination is not a valid URL");
  (ErrInvalidStyling : sentinel, con_Validation "the styling is not valid");
  (ErrInvalidMode : sentinel, con_Validation "mode must be dynamic or direct");
  (ErrScanURLNotConfigured : sentinel,
   con_Validation "dynamic codes need a public scan address; ask the operator to configure QURATOR_SERVER_BASE_URL, or choose direct mode");
  (ErrContrastTooLow : sentinel, con_Validation "increase the contrast between foreground and background colours");
  (ErrDimensionsExceeded : sentinel, con_Validation "the image dimensions exceed this instance's limit");
  (ErrInvalidOption : sentinel, con_Validation "one of the styling options is invalid");
  (ErrContentTooLarge : sentinel, con_Validation "the destination is too long for the selected error correction level");
  (ErrDirectImmutable : sentinel,
   con_Validation "this is a direct code; its destination is printed into the image and cannot be changed")].

Fixpoint translate_from (cases : list (sentinel * console_error)) (e : error) : console_error :=
  match cases with
  | [] => con_Other e
  | (s, c) :: cases' => if errors_Is e s then c else translate_from cases' e
  end.
Definition translateCodesErr (e : error) : console_error := translate_from translations e.
Definition translated {A} (r : result A) : res console_error A := match r with Ok a => Ok a | Err e => Err (translateCodesErr e) end.
(** An error handed on as it is. *)
Definition untranslated {A} (r : result A) : res console_error A := match r with Ok a => Ok a | Err e => Err (con_Other e) end.
(** Only [ErrNotFound] is translated. *)
Definition or_not_found (e : error) : console_error := if errors_Is e ErrNotFound then con_NotFound else con_Other e.

(** ** Codes *)
Section codes.
Context `{U : UnicodeTable} `{IP : IPParser} `{RE : Renderer} `{SN : Sniffer}.
Context {DB BL CA : Type} `{ST : CodeStore DB} `{BS : BlobStore BL} `{OC : OtterCache CA}.
Notation W := (World DB BL CA).
Context (sc : Sched W) (svc : Service).

Definition consoleCodes_List (userID : string) (f : CodeFilter) : Act W (res console_error CodePage) :=
  let f := {| f_UserID := userID; CreatedAfter := CreatedAfter f; CreatedBefore := CreatedBefore f;
              f_Destination := f_Destination f; Limit := Limit f; Cursor := Cursor f |} in
  r ← List_ sc f;
  mret (match r with
        | Err e => Err (con_Other e)
        | Ok (items, next) => Ok {| cp_Items := items; cp_NextCursor := next |}
        end).

(** [domain.Styling] with the fields of the form; the others are zero. *)
Definition form_styling (s : StylingInput) : Styling := {|
  styling_ID := ""; FgColor := si_FgColor s; BgColor := si_BgColor s; styling_ModuleShape := si_ModuleShape s;
  MarginModules := si_MarginModules s; SizePx := si_SizePx s; styling_ECLevel := si_ECLevel s; ECLevelEffective := "";
  LogoBlobKey := ""; LogoScale := f64_zero |}.
Definition form_create (userID : string) (i : CreateCodeInput) : CreateInput := {|
  in_UserID := userID; in_Mode := cc_Mode i; in_Destination := cc_Destination i; in_Alias := cc_Alias i;
  in_Styling := form_styling (cc_Styling i); in_Logo := []; in_LogoAutoRaise := false; in_ClientRef := "" |}.

Definition consoleCodes_Create (userID : string) (i : CreateCodeInput) : Act W (res console_error Code) :=
  r ← Create sc svc (form_create userID i); mret (translated r).

Definition consoleCodes_Get (userID id : string) : Act W (res console_error Code) :=
  r ← Get sc id userID; mret (translated r).

Definition consoleCodes_StorageURL (userID id : string) : Act W (res console_error (option string)) :=
  r ← Get sc id userID;
  match r with
  | Err e => mret (Err (translateCodesErr e))
  | Ok c => u ← ask_env sc (fun env => StorageURL svc env c); mret (Ok u)
  end.

(** Without a version from the caller, the one of the row now. *)
Definition consoleCodes_UpdateDestination (userID id dest : string) (ifMatch : option Z) : Act W (res console_error Code) :=
  match ifMatch with
  | Some v => r ← svc_UpdateDestination sc svc id userID dest v; mret (translated r)
  | None =>
      cur ← Get sc id userID;
      match cur with
      | Err e => mret (Err (translateCodesErr e))
      | Ok c => r ← svc_UpdateDestination sc svc id userID dest (Version c); mret (translated r)
      end
  end.

Definition consoleCodes_Delete (userID id : string) : Act W (res console_error unit) :=
  r ← Delete sc id userID; mret (translated r).

Definition consoleCodes : CodesService W := {|
  cs_List := consoleCodes_List; cs_Create := consoleCodes_Create; cs_Get := consoleCodes_Get;
  cs_UpdateDestination := consoleCodes_UpdateDestination; cs_Delete := consoleCodes_Delete;
  cs_StorageURL := consoleCodes_StorageURL |}.
End codes.

(** ** Tokens, analytics and sessions *)
Section accounts.
Context `{U : UnicodeTable} `{IP : IPParser} `{NT : IPNets} `{SH : SHA256} `{JW : JWT} `{A2 : Argon2}.
Context {DB : Type} `{ST : AuthStore DB} `{AC : !AccountStore DB} `{CS : !CodeStore DB}.
Notation W := (AuthWorld DB).
Context (sc : Sched W) (a : Authenticator).

Definition consoleTokens_List (userID : string) : Act W (res console_error (list APIToken)) :=
  r ← ask_db sc (fun env s => ac_ListTokens env userID s); mret (untranslated r).
Definition consoleTokens_Create (userID name : string) (expiresAt : option Z) : Act W (res console_error (APIToken * string)) :=
  r ← CreateToken sc a userID name expiresAt; mret (untranslated r).
Definition consoleTokens_Revoke (userID id : string) : Act W (res console_error unit) :=
  r ← on_db sc (fun env s => au_RevokeToken env id userID s);
  mret (match r with Ok _ => Ok tt | Err e => Err (or_not_found e) end).
Definition consoleTokens : TokensService W := {|
  ts_List := consoleTokens_List; ts_Create := consoleTokens_Create; ts_Revoke := consoleTokens_Revoke |}.

(** Ownership first. *)
Definition consoleAnalytics_Get (userID : string) (q : AnalyticsQuery) : Act W (res console_error AnalyticsResult) :=
  c ← ask_db sc (fun env s => st_GetCodeByID env (q_CodeID q) userID s);
  match c with
  | Err e => mret (Err (or_not_found e))
  | Ok _ => r ← ask_db sc (fun env s => ac_QueryAnalytics env q s); mret (untranslated r)
  end.
Definition consoleAnalytics : AnalyticsService W := {| as_Get := consoleAnalytics_Get |}.

(** The decision of [SignIn] about a password, with the throwaway hash and the
    derivations as in [AccountApi.check_password]. *)
Definition console_dummy (dummy : option string) (password : string) : Act W (res console_error User * option string * list kdf_run) :=
  p ← ask sc (fun env => DummyVerify (rand_byte env) dummy password);
  mret (Err con_InvalidCredentials, p.1, dummy_runs dummy (default "" p.1)).
Definition console_check (dummy : option string) (email password : string) :
    Act W (res console_error User * option string * list kdf_run) :=
  u ← ask_db sc (fun env s => au_GetUserByEmail env email s);
  match u with
  | Err e => if errors_Is e ErrNotFound then console_dummy dummy password else mret (Err (con_Other e), dummy, [])
  | Ok u =>
      if String.eqb (user_PasswordHash u) "" then console_dummy dummy password
      else mret (match VerifyPassword (user_PasswordHash u) password with
                 | Err e => Err (con_Other e)
                 | Ok false => Err con_InvalidCredentials
                 | Ok true => Ok u
                 end, dummy, verify_runs (user_PasswordHash u))
  end.

Definition consoleAuth_SignIn (dummy : option string) (email password : string) :
    Act W (res console_error (User * list Cookie) * option string * list kdf_run) :=
  p ← console_check dummy (TrimSpace email) password;
  let '(u, dummy, runs) := p in
  match u with
  | Err e => mret (Err e, dummy, runs)
  | Ok u =>
      s ← IssueSession sc a u;
      match s with
      | Err e => mret (Err (con_Other e), dummy, runs)
      | Ok (token, exp) =>
          c ← ask sc (fun env => SessionCookie a (time_Now env) token exp);
          mret (Ok (u, [c]), dummy, runs)
      end
  end.

Definition consoleAuth_CurrentUser (r : Incoming) : Act W (option User) :=
  match in_Identity r with
  | None => mret None
  | Some id =>
      u ← ask_db sc (fun env s => au_GetUserByID env (id_UserID id) s);
      mret (match u with Ok u => Some u | Err _ => None end)
  end.

(** The interface, in a process whose throwaway hash is [dummy]. *)
Definition consoleAuth (dummy : option string) : ConsoleAuth W := {|
  ca_SignIn := fun email password => r ← consoleAuth_SignIn dummy email password; mret r.1.1;
  ca_CurrentUser := consoleAuth_CurrentUser;
  ca_SignOut := [ClearSessionCookie a] |}.
End accounts.
