(* ===== verification/ConsoleFacts.v ===== *)
(** * Theorems about the console

    The guard, the sign-in, the masking of errors, escaping and the chart; then
    instances of the theorems on concrete inputs, and the executions that show
    where the console departs from what its comments say. *)
From Stdlib Require Import Ascii String.
From S2P Require Import GoLib Text Http Act Domain GoUrl Destination Blob MemStore Concrete Store Cache Codes CodesProps Password Auth AuthProps QrApi CodesApi AccountApi Mux Router RouterFacts Handlers ConsolePages Console ConsoleAdapters.
Local Open Scope string_scope.
Local Open Scope Z_scope.
Local Open Scope go_scope.

(** ** The axis of the chart *)
Definition digits_125 : list Z := [1; 2; 5].
Definition nice (rows v : Z) : Prop := exists k d, 0 <= k /\ d ∈ digits_125 /\ v = d * 10 ^ k * rows.

Lemma elem_125 d : d ∈ digits_125 <-> d = 1 \/ d = 2 \/ d = 5.
Proof. unfold digits_125. rewrite !elem_of_cons, elem_of_nil. naive_solver. Qed.

Lemma magnitude_spec fuel step k :
  0 <= k -> 10 ^ k <= step -> step < 10 ^ 18 -> step < 10 ^ (k + Z.of_nat fuel) ->
  exists j, 0 <= j < 18 /\ magnitude fuel step (10 ^ k) = 10 ^ j /\ 10 ^ j <= step < 10 ^ (j + 1).
Proof.
  revert k. induction fuel as [|fuel IH]; intros k Hk Hlo Hmax Hhi.
  { rewrite Z.add_0_r in Hhi. lia. }
  assert (Hk18 : k < 18) by (apply (Z.pow_lt_mono_r_iff 10); lia).
  cbn [magnitude]. rewrite <- (Z.pow_succ_r 10 k) by lia.
  assert (10 ^ Z.succ k <= 10 ^ 18) by (apply Z.pow_le_mono_r; lia). rewrite wrap64_id by (unfold int64_ok; lia).
  destruct (Z.leb_spec (10 ^ Z.succ k) step).
  - apply IH; [lia|lia|lia|]. replace (Z.succ k + Z.of_nat fuel) with (k + Z.of_nat (S fuel)) by lia. done.
  - exists k. rewrite Z.add_1_r. split_and!; lia.
Qed.

(** The least of 1, 2, 5, 10 times a power of ten that is not below [step]. *)
Definition nice_step (step mag : Z) : Z :=
  if step <=? mag then mag else if step <=? 2 * mag then 2 * mag else if step <=? 5 * mag then 5 * mag else 10 * mag.

Lemma nice_step_least step j :
  0 <= j -> 10 ^ j <= step < 10 ^ (j + 1) ->
  let s := nice_step step (10 ^ j) in
  step <= s <= 10 ^ (j + 1) /\ (exists k d, 0 <= k /\ d ∈ digits_125 /\ s = d * 10 ^ k)
  /\ forall k d, 0 <= k -> d ∈ digits_125 -> step <= d * 10 ^ k -> s <= d * 10 ^ k.
Proof.
  intros Hj Hs. cbv zeta. assert (Hp : 10 ^ (j + 1) = 10 * 10 ^ j) by (rewrite Z.pow_add_r by lia; lia).
  assert (Hpos : 0 < 10 ^ j) by (apply Z.pow_pos_nonneg; lia). rewrite Hp in Hs |- *. split_and!.
  - unfold nice_step. destruct (Z.leb_spec step (10 ^ j)), (Z.leb_spec step (2 * 10 ^ j)), (Z.leb_spec step (5 * 10 ^ j)); lia.
  - unfold nice_step. destruct (Z.leb_spec step (10 ^ j)), (Z.leb_spec step (2 * 10 ^ j)), (Z.leb_spec step (5 * 10 ^ j)); lia.
  - unfold nice_step. destruct (Z.leb_spec step (10 ^ j)); [|destruct (Z.leb_spec step (2 * 10 ^ j)); [|destruct (Z.leb_spec step (5 * 10 ^ j))]].
    + exists j, 1. split_and!; [lia|apply elem_125; lia|lia].
    + exists j, 2. split_and!; [lia|apply elem_125; lia|lia].
    + exists j, 5. split_and!; [lia|apply elem_125; lia|lia].
    + exists (j + 1), 1. split_and!; [lia|apply elem_125; lia|rewrite Hp; lia].
  - intros k d Hk Hd Hle. apply elem_125 in Hd.
    destruct (Z.lt_trichotomy k j) as [Hlt|[->|Hgt]].
    + assert (10 * 10 ^ k <= 10 ^ j) by (rewrite <- Z.pow_succ_r by lia; apply Z.pow_le_mono_r; lia). lia.
    + unfold nice_step. destruct (Z.leb_spec step (10 ^ j)), (Z.leb_spec step (2 * 10 ^ j)), (Z.leb_spec step (5 * 10 ^ j)); lia.
    + assert (10 * 10 ^ j <= 10 ^ k) by (rewrite <- Hp; apply Z.pow_le_mono_r; lia).
      unfold nice_step. destruct (Z.leb_spec step (10 ^ j)), (Z.leb_spec step (2 * 10 ^ j)), (Z.leb_spec step (5 * 10 ^ j)); lia.
Qed.

(** The axis of the chart.  For every largest count up to 2*10^18, the
    ceiling of the axis is at least the count and fits an int64; it is the least
    such value of the form 4, 8 or 20 times a power of ten, so that no smaller
    axis would do; and the five labels, as the code computes them, are the exact
    quarters of it. *)
Theorem niceCeiling_least (max : Z) : max <= 2 * 10 ^ 18 ->
  let c := niceCeiling max chartGridRows in
  max <= c <= 2 * 10 ^ 18 /\ nice chartGridRows c /\ (forall v, nice chartGridRows v -> max <= v -> c <= v)
  /\ forall row, 0 <= row <= chartGridRows -> chartGridRows * Z.quot (wrap64 (c * row)) chartGridRows = c * row.
Proof.
  intros Hmax c.
  assert (Hc : max <= c <= 2 * 10 ^ 18 /\ nice 4 c /\ forall v, nice 4 v -> max <= v -> c <= v).
  { unfold c, niceCeiling, chartGridRows. destruct (Z.ltb_spec max 4) as [Hsmall|Hbig].
    - split_and!; [lia|lia|exists 0, 1; split_and!; [lia|apply elem_125; lia|lia]|].
      intros v (k & d & Hk & Hd & ->) _. apply elem_125 in Hd. pose proof (Z.pow_pos_nonneg 10 k). nia.
    - rewrite (wrap64_id (max + 4)), (wrap64_id (max + 4 - 1)) by (unfold int64_ok; lia).
      rewrite Z.quot_div_nonneg by lia.
      pose proof (Z.div_mod (max + 4 - 1) 4) as Hdiv. pose proof (Z.mod_pos_bound (max + 4 - 1) 4) as Hmod.
      set (step := (max + 4 - 1) / 4) in *. clearbody step.
      assert (Hstep : 4 * step <= max + 3 < 4 * step + 4) by lia. clear Hdiv Hmod.
      destruct (magnitude_spec 19 step 0) as (j & Hj & Em & Hb); [lia..|]. change (10 ^ 0) with 1 in Em. rewrite Em.
      assert (Hmag : 10 ^ j <= 10 ^ 17) by (apply Z.pow_le_mono_r; lia).
      assert (Hpos : 0 < 10 ^ j) by (apply Z.pow_pos_nonneg; lia).
      rewrite (wrap64_id (2 * 10 ^ j)), (wrap64_id (5 * 10 ^ j)), (wrap64_id (10 * 10 ^ j)) by (unfold int64_ok; lia).
      fold (nice_step step (10 ^ j)).
      destruct (nice_step_least step j) as (Hs & (k & d & Hk & Hd & E) & Hleast); [lia|lia|].
      assert (10 ^ (j + 1) <= 10 ^ 18) by (apply Z.pow_le_mono_r; lia).
      rewrite wrap64_id by (unfold int64_ok; lia). split_and!; [lia| |exists k, d; by rewrite E|].
      { assert (nice_step step (10 ^ j) <= 5 * 10 ^ 17) by (apply (Hleast 17 5); [lia|apply elem_125; lia|lia]). lia. }
      intros v (k' & d' & Hk' & Hd' & ->) Hv. assert (nice_step step (10 ^ j) <= d' * 10 ^ k') by (apply (Hleast k' d'); [done|done|lia]). lia. }
  destruct Hc as (Hb & Hn & Hl). split_and!; [lia|lia|done|done|].
  intros row Hrow. unfold chartGridRows in *. clearbody c.
  destruct Hn as (k & d & Hk & Hd & E). apply elem_125 in Hd. pose proof (Z.pow_nonneg 10 k ltac:(lia)).
  assert (0 <= c) by nia. rewrite wrap64_id by (unfold int64_ok; nia). rewrite E.
  replace (d * 10 ^ k * 4 * row) with (d * 10 ^ k * row * 4) by lia. rewrite Z.quot_mul by lia. lia.
Qed.

(** ** Escaping *)

(** The text of a page with its entities read back. *)
Definition entities : list (string * ascii) := [("&amp;", "&"%char); ("&lt;", "<"%char); ("&gt;", ">"%char); ("&quot;", "034"%char)].
Fixpoint read_entity (es : list (string * ascii)) (s : string) : option (ascii * string) :=
  match es with
  | [] => None
  | (e, c) :: es' => if HasPrefix s e then Some (c, drop_bytes (String.length e) s) else read_entity es' s
  end.
Fixpoint unescape_html (fuel : nat) (s : string) : string :=
  match fuel, s with
  | S fuel', String c s' =>
      match read_entity entities s with
      | Some (d, rest) => String d (unescape_html fuel' rest)
      | None => String c (unescape_html fuel' s')
      end
  | _, _ => ""
  end.

Definition unescapeHTML (s : string) : string := unescape_html (String.length s) s.

Definition markup (c : ascii) : bool := Ascii.eqb c "<" || Ascii.eqb c ">" || Ascii.eqb c "034".

Lemma html_entity_cases c : (exists e, (e, c) ∈ entities /\ html_entity c = e) \/ (html_entity c = String c "" /\ c <> "&"%char /\ markup c = false).
Proof.
  unfold html_entity, markup, entities.
  destruct (Ascii.eqb_spec c "&") as [->|]; [left; eexists; split; [|done]; set_solver|].
  destruct (Ascii.eqb_spec c "<") as [->|]; [left; eexists; split; [|done]; set_solver|].
  destruct (Ascii.eqb_spec c ">") as [->|]; [left; eexists; split; [|done]; set_solver|].
  destruct (Ascii.eqb_spec c "034") as [->|]; [left; eexists; split; [|done]; set_solver|]. by right.
Qed.

Lemma escapeHTML_cons c s : escapeHTML (String c s) = html_entity c +:+ escapeHTML s.
Proof. done. Qed.

Lemma escapeHTML_clean s : string_forall (fun c => negb (markup c)) (escapeHTML s) = true.
Proof.
  induction s as [|c s IH]; [done|]. rewrite escapeHTML_cons, string_forall_app, IH, andb_true_r.
  destruct (html_entity_cases c) as [(e & He & ->)|(-> & _ & Hm)].
  - revert e He. clear. intros e He. unfold entities in He. rewrite !elem_of_cons, elem_of_nil in He.
    destruct He as [[= ->]|[[= ->]|[[= ->]|[[= ->]|[]]]]]; reflexivity.
  - unfold string_forall. cbn [bytes forallb]. by rewrite Hm.
Qed.

Lemma empty_append s : "" +:+ s = s.
Proof. done. Qed.

Lemma read_escaped c s : read_entity entities (html_entity c +:+ s) = match html_entity c with String d "" => None | _ => Some (c, s) end.
Proof.
  destruct (html_entity_cases c) as [(e & He & ->)|(-> & Hc & _)].
  - unfold entities in He. rewrite !elem_of_cons, elem_of_nil in He.
    destruct He as [[= -> ->]|[[= -> ->]|[[= -> ->]|[[= -> ->]|[]]]]]; cbn [read_entity entities]; rewrite ?HasPrefix_app, ?drop_bytes_app; reflexivity.
  - cbn [read_entity entities]. rewrite append_cons, empty_append. cbn [HasPrefix].
    destruct (Ascii.eqb_spec "&" c) as [<-|]; [done|]. destruct (Ascii.eqb_spec c "&") as [->|]; done.
Qed.

Lemma unescape_escaped s fuel : (String.length s <= fuel)%nat -> unescape_html fuel (escapeHTML s) = s.
Proof.
  revert fuel. induction s as [|c s IH]; intros fuel Hf.
  { by destruct fuel. }
  destruct fuel as [|fuel]; [cbn [String.length] in Hf; lia|]. cbn [String.length] in Hf. rewrite escapeHTML_cons.
  pose proof (read_escaped c (escapeHTML s)) as Hr. pose proof (html_entity_cases c) as Hc.
  destruct (html_entity c) as [|d e] eqn:E.
  { destruct Hc as [(e & He & <-)|(? & _)]; [|done]. unfold entities in He. rewrite !elem_of_cons, elem_of_nil in He. naive_solver. }
  rewrite append_cons in Hr |- *. cbn [unescape_html]. rewrite Hr. destruct e as [|d' e].
  - rewrite empty_append. destruct Hc as [(e & He & <-)|([= <-] & _)].
    + unfold entities in He. rewrite !elem_of_cons, elem_of_nil in He. naive_solver.
    + f_equal. apply IH. lia.
  - f_equal. apply IH. lia.
Qed.

Lemma escapeHTML_longer s : (String.length s <= String.length (escapeHTML s))%nat.
Proof.
  induction s as [|c s IH]; [done|]. rewrite escapeHTML_cons, string_app_length. cbn [String.length].
  destruct (html_entity_cases c) as [(e & He & ->)|(-> & _)]; [|cbn [String.length]; lia].
  unfold entities in He. rewrite !elem_of_cons, elem_of_nil in He.
  destruct He as [[= -> _]|[[= -> _]|[[= -> _]|[[= -> _]|[]]]]]; cbn [String.length]; lia.
Qed.

(** Escaping.  The text that the console puts into an error banner or a
    status line has no angle bracket and no quotation mark, whatever the
    message or the destination is, and a reader of entities gets back exactly
    the original. *)
Theorem escapeHTML_safe (s : string) :
  string_forall (fun c => negb (markup c)) (escapeHTML s) = true /\ unescapeHTML (escapeHTML s) = s.
Proof. split; [apply escapeHTML_clean|]. apply unescape_escaped, escapeHTML_longer. Qed.
(** ** The gate *)

(** A matched entry answers the method of the request; GET answers HEAD too. *)
Lemma findHandler_method {H} (mux : Mux H) m p e ms :
  findHandler mux m p = Matched e ms ->
  pt_Method (parsePattern (e_Pattern e)) = m \/ pt_Method (parsePattern (e_Pattern e)) = ""
  \/ (m = "HEAD" /\ pt_Method (parsePattern (e_Pattern e)) = "GET").
Proof.
  unfold findHandler, matchOrRedirect, found_or_not. set (p' := if String.eqb m "CONNECT" then p else cleanPath p).
  destruct (_ && exactMatch _ _); [done|]. destruct (negb (String.eqb p' p)); [done|].
  assert (Hm : forall m0 ms0 e0 ms', matchPath (of_method m0 mux) (path_segments p') ms0 = Some (e0, ms') ->
    pt_Method (parsePattern (e_Pattern e0)) = m0).
  { intros m0 ms0 e0 ms' (segs & Hin & _)%matchPath_fits. apply list_elem_of_omap in Hin as (e' & _ & He).
    cbv zeta in He. destruct (String.eqb_spec (pt_Method (parsePattern (e_Pattern e'))) m0); [|done]. by injection He as <- <-. }
  unfold mux_match. destruct (matchPath (of_method m mux) _ _) as [[e1 m1]|] eqn:E1.
  { intros [= <- <-]. left. by eapply Hm. }
  destruct (if String.eqb m "HEAD" then _ else _) as [[e2 m2]|] eqn:E2.
  - intros [= <- <-]. destruct (String.eqb_spec m "HEAD"); [|done]. right; right. split; [done|]. by eapply Hm.
  - destruct (matchPath (of_method "" mux) _ _) as [[e3 m3]|] eqn:E3; [|by destruct (matchingMethods _ _)].
    intros [= <- <-]. right; left. by eapply Hm.
Qed.

(** An interface whose callers are who the middleware says they are. *)
Definition knows_nobody {W} (d : Deps W) : Prop := forall r, in_Identity r = None -> ca_CurrentUser (d_Auth d) r = mret None.

Section gate.
Context `{RD : Redirects} `{TM : Templates} `{FM : Forms} `{PT : PrintTable} `{LF : LayoutFormat} `{UT : UpperTable}.
Context {W : Type} (sc : Sched W) (d : Deps W) (reg : assetRegistry).
Notation T := (Act W Reply).

(** The request carries no identity, or would change something without the
    header that only the console's own script sends. *)
Definition shut_out (r : Incoming) : Prop :=
  in_Identity r = None \/ (isSafeMethod (hr_Method (in_Http r)) = false /\ hr_Header (in_Http r) CSRFHeader = "").

(** Nothing was done but looking up the caller, and no cookie is set. *)
Definition only_looked (r : Incoming) (st : nat * W) (out : Reply * (nat * W)) : Prop :=
  rp_Cookies out.1 = [] /\ (out.2 = st \/ out.2 = (ca_CurrentUser (d_Auth d) r st).2).

Lemma requireAuth_shut next r st : knows_nobody d -> shut_out r -> only_looked r st (requireAuth d next r st).
Proof.
  intros Hd Hs. unfold requireAuth. rewrite bind_step. destruct (ca_CurrentUser (d_Auth d) r st) as [u st1] eqn:E.
  assert (Hst : (ca_CurrentUser (d_Auth d) r st).2 = st1) by by rewrite E.
  destruct u as [u|]; [|split; [done|by right]].
  destruct Hs as [Hi|[Hm Hh]]; [by rewrite Hd in E|]. rewrite Hm, Hh. split; [done|by right].
Qed.

Lemma safe_get m p : pt_Method (parsePattern p) = "GET" ->
  pt_Method (parsePattern p) = m \/ pt_Method (parsePattern p) = "" \/ m = "HEAD" /\ pt_Method (parsePattern p) = "GET" ->
  isSafeMethod m = true.
Proof. intros Hp. rewrite Hp. by intros [<-|[?|[-> _]]]. Qed.
Definition is_signin (r : Incoming) : Prop := hr_Method (in_Http r) = "POST" /\ path_segments (in_EscapedPath r) = ["ui"; "signin"].

Lemma entry_shut nonce e r st :
  knows_nobody d -> shut_out r -> e ∈ console_mux sc d reg nonce -> e_Pattern e <> "POST /ui/signin" ->
  (isSafeMethod (hr_Method (in_Http r)) = true \/ pt_Method (parsePattern (e_Pattern e)) <> "GET") ->
  only_looked r st (e_Handler e r st).
Proof.
  intros Hd Hs He Hp Hm. unfold console_mux in He. rewrite !elem_of_cons, elem_of_nil in He.
  destruct He as [->|[->|[->|He]]]; cbn [e_Handler e_Pattern] in *.
  - split; [done|by left].
  - destruct Hm as [Hm|Hm]; [|by destruct Hm]. unfold getSignIn. rewrite bind_step.
    destruct Hs as [Hi|[Hm' _]]; [|congruence]. rewrite (Hd r Hi). split; [done|by left].
  - done.
  - repeat (destruct He as [->|He]; [by apply requireAuth_shut|]). done.
Qed.

(** C12: the gate of the console.  Whatever services the console is given,
    unless it is the sign-in form that is posted, a request without an identity
    does nothing, and neither does one that would change something and lacks
    the header only the console's own script sends: at most the caller is
    looked up, no cookie is set, and no service is called. *)
Theorem console_gate (r : Incoming) n w :
  knows_nobody d -> shut_out r -> ~ is_signin r ->
  let out := console_ServeHTTP sc d reg r (n, w) in
  let st := (S n, sc_others sc n w) in
  rp_Cookies out.1 = []
  /\ exists r', in_Identity r' = in_Identity r /\ (out.2 = st \/ out.2 = (ca_CurrentUser (d_Auth d) r' st).2).
Proof.
  intros Hd Hs Hsign. cbv zeta. unfold console_ServeHTTP, withCSP, look, call. rewrite bind_step. cbn beta iota zeta.
  set (nonce := newNonce _). rewrite bind_step.
  assert (Hlook : exists r', in_Identity r' = in_Identity r /\ only_looked r' (S n, sc_others sc n w)
    (mux_ServeHTTP send (console_mux sc d reg nonce) r (S n, sc_others sc n w))).
  { unfold mux_ServeHTTP. destruct (findHandler _ _ _) as [e ms|path|allowed|] eqn:E.
    - pose proof (findHandler_method _ _ _ _ _ E) as Hm. apply findHandler_fits in E as [Hin Hf].
      exists (with_match r (e_Pattern e) ms). split; [done|]. destruct e as [pat hd]. cbn [e_Pattern] in Hf, Hm.
      apply (entry_shut nonce (Build_entry pat hd)); [done|done|done| |]; cbn [e_Pattern].
      + intros ->. apply Hsign. split.
        * by destruct Hm as [<-|[?|[_ ?]]].
        * cbn in Hf. inversion Hf as [|? ? ? Hf1| |]; subst. inversion Hf1 as [|? ? ? Hf2| |]; subst. by inversion Hf2.
      + destruct (decide (pt_Method (parsePattern pat) = "GET")) as [Hg|]; [left|by right].
        cbn [in_Http with_match hr_Method]. by eapply safe_get.
    - exists r. split; [done|]. split; [done|by left].
    - exists r. split; [done|]. split; [done|by left].
    - exists r. split; [done|]. split; [done|by left]. }
  revert Hlook. generalize (mux_ServeHTTP send (console_mux sc d reg nonce) r (S n, sc_others sc n w)).
  intros [p st1] (r' & Hr & Hc & Hst). cbn in *. split; [done|]. by exists r'.
Qed.
End gate.

(** ** What an error shows *)

(** Every text an error of the code service can put on a page. *)
Definition safe_messages : list string := (fun m => "validation failed: " +:+ m) <$> [
  "that alias is already in use"; "that alias is reserved"; "aliases are 3" +:+ endash +:+ "64 characters of a-z, 0-9 and hyphens";
  "the destination must use an allowed scheme"; "the destination cannot point back at this instance";
  "the destination must be at most 2048 characters"; "the destination is not a valid URL"; "the styling is not valid";
  "mode must be dynamic or direct";
  "dynamic codes need a public scan address; ask the operator to configure QURATOR_SERVER_BASE_URL, or choose direct mode";
  "increase the contrast between foreground and background colours"; "the image dimensions exceed this instance's limit";
  "one of the styling options is invalid"; "the destination is too long for the selected error correction level";
  "this is a direct code; its destination is printed into the image and cannot be changed"].

Lemma translations_safe : Forall (fun p => match p.2 with
  | con_Validation m => after_colon (validation_text m) ∈ safe_messages
  | con_Other _ => False
  | _ => True end) translations.
Proof. repeat constructor; cbn [snd]; apply (bool_decide_unpack _); vm_compute; exact I. Qed.

Lemma translate_safe e m : translateCodesErr e = con_Validation m -> after_colon (validation_text m) ∈ safe_messages.
Proof.
  unfold translateCodesErr. pose proof translations_safe as Hall. induction Hall as [|[s c] l Hc Hl IH]; [done|].
  cbn [translate_from]. destruct (errors_Is e s); [|done]. intros ->. done.
Qed.

Lemma answer_safe (res : res console_error Code) :
  (exists c, res = Ok c) \/ (exists e, res = Err (translateCodesErr e)) ->
  let resp := update_answer res in
  resp = Internal ∅ \/ resp = formError 404 "Code not found."
  \/ resp = formError 409 "Someone else changed this code in the meantime. Reload and try again."
  \/ (exists m, m ∈ safe_messages /\ resp = formError 400 m) \/ exists c, resp = destination_updated c.
Proof.
  intros [[c ->]|[e ->]]; cbn [update_answer]; [right; right; right; right; by eexists|].
  destruct (translateCodesErr e) as [| | |m|e'] eqn:E; [by right; left|by right; right; left|by left| |by left].
  right; right; right; left. eexists. split; [by eapply translate_safe|done].
Qed.

Section masked.
Context `{RD : Redirects} `{TM : Templates} `{FM : Forms} `{PT : PrintTable} `{LF : LayoutFormat} `{UT : UpperTable}.
Context `{U : UnicodeTable} `{IP : IPParser} `{RE : Renderer} `{SN : Sniffer}.
Context {DB BL CA : Type} `{ST : CodeStore DB} `{BS : BlobStore BL} `{OC : OtterCache CA}.
Notation W := (World DB BL CA).
Context (sc : Sched W) (svc : Service) (d : Deps W) (reg : assetRegistry) (nonce : string).

(** The page of the form again, with what was entered and a message. *)
Definition form_again (user : User) (r : Incoming) (data : codeNewData) (m : string) : Response :=
  code_new_page reg nonce user r 400 (set_Error m data).

(** C24: an error shows only what it should.  Over any store, blob store, cache
    and renderer, with other requests in between, the console answers the
    creation of a code with a redirect to it, with the bare internal error, or
    with the form, as it was entered, and a message of a fixed list (or one that
    quotes the mode that was entered); and a change of destination with the new
    destination, the bare internal error, or one of the fixed messages.  No text
    of a driver, a path or a key can reach the page. *)
Theorem console_errors_masked (user : User) (r : Incoming) (form : Values) st :
  d_Codes d = consoleCodes sc svc -> ParseForm (in_Http r) = Some form ->
  let data := code_form form in
  (let resp := rp_Response (postCodeCreate d reg nonce user r st).1 in
   resp = Internal ∅ \/ (exists id, resp = redirectAfterMutation r ("/ui/codes/" +:+ id))
   \/ resp = form_again user r data ("validation failed: unknown mode " +:+ strconv_Quote (cn_Mode data))
   \/ exists m, m ∈ safe_messages /\ resp = form_again user r data m)
  /\ let resp := rp_Response (patchCodeDestination d user r st).1 in
     resp = Internal ∅ \/ resp = formError 404 "Code not found."
     \/ resp = formError 409 "Someone else changed this code in the meantime. Reload and try again."
     \/ (exists m, m ∈ safe_messages /\ resp = formError 400 m) \/ exists c, resp = destination_updated c.
Proof.
  intros Hd Hf data. split.
  - unfold postCodeCreate. rewrite Hf, Hd. fold data. cbv zeta. destruct (_ && _); [right; right; by left|].
    rewrite bind_step. cbn [cs_Create consoleCodes]. unfold consoleCodes_Create. rewrite bind_step.
    destruct (Create sc svc _ st) as [[c|e] st1]; [right; left; by eexists|].
    cbn [translated mret act_ret]. destruct (translateCodesErr e) as [| | |m|e'] eqn:E; try by left.
    right; right; right. eexists. split; [by eapply translate_safe|done].
  - unfold patchCodeDestination. rewrite Hf, Hd. cbv zeta. rewrite bind_step. cbn [cs_UpdateDestination consoleCodes].
    destruct (consoleCodes_UpdateDestination sc svc _ _ _ _ st) as [r0 st1] eqn:E0. apply answer_safe.
    revert E0. unfold consoleCodes_UpdateDestination, translated. destruct (ifMatchVersion _) as [v|].
    + rewrite bind_step. destruct (svc_UpdateDestination _ _ _ _ _ _ _) as [[c|e] st2]; intros [= <- _]; eauto.
    + rewrite bind_step. destruct (Get sc _ _ st) as [[c|e] st2]; [|intros [= <- _]; eauto].
      rewrite bind_step. destruct (svc_UpdateDestination _ _ _ _ _ _ _) as [[c'|e] st3]; intros [= <- _]; eauto.
Qed.
End masked.

(** ** The two sign-ins *)
Section signin.
Context `{U : UnicodeTable} `{IP : IPParser} `{NT : IPNets} `{SH : SHA256} `{JW : JWT} `{A2 : Argon2}.
Context `{JS : JsonDecode signinRequest}.
Context {DB : Type} `{ST : AuthStore DB} `{AC : !AccountStore DB} `{CS : !CodeStore DB}.
Notation W := (AuthWorld DB).
Context (sc : Sched W) (a : Authenticator).

(** C19: one way to sign in.  For an address and a password, both given, the
    sign-in form and the sign-in of the API decide alike in every state of the
    store, whatever other requests do in between: they accept the same
    credentials, set the same cookie, make the same runs of Argon2, and leave
    the same state behind. *)
Theorem console_signin_agrees (dummy : option string) (r : HttpRequest) (body : signinRequest) st :
  decodeJSON (hr_Body r) = Ok body -> TrimSpace (si_Email body) <> "" -> si_Password body <> "" ->
  let '((reply, dummy1, runs1), st1) := signin sc a dummy r st in
  let '((res, dummy2, runs2), st2) := consoleAuth_SignIn sc a dummy (si_Email body) (si_Password body) st in
  st1 = st2 /\ dummy1 = dummy2 /\ runs1 = runs2
  /\ match res with
     | Ok (u, cookies) => rp_Cookies reply = cookies /\ rp_Response reply = WriteJSON 200 (toUserJSON u) no_store
     | Err con_InvalidCredentials => reply = plain bad_login
     | Err _ => reply = plain (Internal no_store)
     end.
Proof.
  intros Hd He Hp. unfold signin, consoleAuth_SignIn. rewrite Hd. cbv zeta.
  apply String.eqb_neq in He, Hp. rewrite He, Hp. cbn [orb].
  assert (Hc : let '((u1, dummy1, runs1), st1) := check_password sc dummy (TrimSpace (si_Email body)) (si_Password body) st in
    let '((u2, dummy2, runs2), st2) := console_check sc dummy (TrimSpace (si_Email body)) (si_Password body) st in
    st1 = st2 /\ dummy1 = dummy2 /\ runs1 = runs2
    /\ match u2 with
       | Ok u => u1 = Ok u
       | Err con_InvalidCredentials => u1 = Err bad_login
       | Err _ => u1 = Err (Internal no_store)
       end).
  { unfold check_password, console_check, DummyLogin, console_dummy. rewrite ?bind_step.
    destruct (ask_db _ _ _) as [[u|e] st1]; [|destruct (errors_Is e ErrNotFound)]; cbn [negb].
    - destruct (String.eqb (user_PasswordHash u) ""); [rewrite ?bind_step; by destruct (ask _ _ _)|].
      destruct (VerifyPassword _ _) as [[|]|]; done.
    - rewrite ?bind_step. by destruct (ask _ _ _).
    - done. }
  rewrite ?bind_step. destruct (check_password _ _ _ _ st) as [[[u1 dm1] rn1] st1].
  destruct (console_check _ _ _ _ st) as [[[u2 dm2] rn2] st2]. destruct Hc as (-> & -> & -> & Hu).
  destruct u2 as [u|e]; [subst u1|by destruct e; subst u1].
  rewrite ?bind_step. destruct (IssueSession sc a u st2) as [[[token exp]|e] st3]; [|done].
  rewrite ?bind_step. by destruct (ask _ _ _) as [c st4].
Qed.

(** The adapter knows nobody without an identity. *)
Lemma consoleAuth_nobody dummy r : in_Identity r = None -> ca_CurrentUser (consoleAuth sc a dummy) r = mret None.
Proof. intros Hi. cbn [ca_CurrentUser consoleAuth]. unfold consoleAuth_CurrentUser. by rewrite Hi. Qed.
End signin.

Lemma niceCeiling_least_witness : niceCeiling 101 chartGridRows = 200 /\ 4 * Z.quot (wrap64 (200 * 3)) 4 = 600.
Proof.
  destruct (niceCeiling_least 101 ltac:(lia)) as (_ & _ & _ & Hrow).
  assert (E : niceCeiling 101 chartGridRows = 200) by (vm_compute; reflexivity). split; [exact E|].
  rewrite E in Hrow. apply (Hrow 3). unfold chartGridRows. lia.
Defined.

#[local] Existing Instance Handlers.plain_redirects.
#[local] Instance demo_templates : Templates := {| tmpl_render := fun page l => bytes (page +:+ l_Nonce l) |}.
(** The body is the destination, or an expiry. *)
#[local] Instance demo_forms : Forms := {|
  ParseForm := fun r => Some {["destination" := [of_bytes (hr_Body r)]; "expires_at" := [of_bytes (hr_Body r)]]} |}.
#[local] Instance demo_print : PrintTable := {| unicode_IsPrint := fun _ => true |}.
#[local] Instance demo_layouts : LayoutFormat := {| time_Format := fun _ _ => ""; time_ParseLayout := fun _ _ => None |}.
#[local] Instance demo_upper : UpperTable := {| strings_ToUpper := fun s => s |}.

Definition no_assets : assetRegistry := {| byName := ∅; byPath := ∅ |}.
Definition ask (m p id header body : string) (i : option Identity) : Incoming := {|
  in_Http := {| hr_Method := m; hr_Pattern := ""; hr_PathValue := fun _ => id; hr_Query := {["cursor" := ["?"]]};
                hr_Header := fun k => if String.eqb k CSRFHeader then header else ""; hr_Body := bytes body |};
  in_EscapedPath := p; in_Path := p; in_RawQuery := ""; in_Creds := {| Header_Values := fun _ => []; Cookie_ := fun _ => None; RemoteAddr := "" |};
  in_Identity := i; in_Route := "" |}.

(** A console whose services all delete everything, were they called. *)
Definition wipe {A} (x : A) : Act (AuthWorld memStore) A := fun st => (x, (fst st, Build_AuthWorld NewMemStore (newTTLCache 0) (newTTLCache 0) ∅)).
Definition fail {A} : Act (AuthWorld memStore) (res console_error A) := wipe (Err con_NotFound).

Section gate.
#[local] Existing Instance AccountApi.no_ip.
#[local] Existing Instance AccountApi.no_nets.
#[local] Existing Instance AccountApi.no_sha.
#[local] Existing Instance AccountApi.no_jwt.
#[local] Existing Instance AccountApi.toy_argon.
#[local] Existing Instance AccountApi.lines_body.

Definition wiping_deps : Deps (AuthWorld memStore) := {|
  d_Codes := {| cs_List := fun _ _ => fail; cs_Create := fun _ _ => fail; cs_Get := fun _ _ => fail;
                cs_UpdateDestination := fun _ _ _ _ => fail; cs_Delete := fun _ _ => fail; cs_StorageURL := fun _ _ => fail |};
  d_Tokens := {| ts_List := fun _ => fail; ts_Create := fun _ _ _ => fail; ts_Revoke := fun _ _ => fail |};
  d_Analytics := None; d_Auth := consoleAuth calm bob_auth None |}.

Definition anonymous_delete : Incoming := ask "DELETE" "/ui/codes/cod_1" "" "1" "" None.

Lemma console_gate_witness :
  aw_store (console_ServeHTTP calm wiping_deps no_assets anonymous_delete (5%nat, bob_world)).2.2 = aw_store bob_world
  /\ rs_Status (rp_Response (console_ServeHTTP calm wiping_deps no_assets anonymous_delete (5%nat, bob_world)).1) = 302.
Proof.
  split; [|vm_compute; reflexivity].
  destruct (console_gate calm wiping_deps no_assets anonymous_delete 5 bob_world) as (_ & r' & Hr & Hst).
  - intros r Hr. by apply consoleAuth_nobody.
  - left. reflexivity.
  - intros [E _]. discriminate E.
  - destruct Hst as [->| ->]; [reflexivity|]. cbn [d_Auth wiping_deps]. rewrite consoleAuth_nobody by exact Hr. reflexivity.
Defined.

Lemma console_signin_agrees_witness :
  let '((reply, _, _), _) := signin calm bob_auth None (login "bob@example.com" "tulip") (5%nat, bob_world) in
  let '((res, _, _), _) := consoleAuth_SignIn calm bob_auth None "bob@example.com" "tulip" (5%nat, bob_world) in
  rs_Status (rp_Response reply) = 200 /\ exists u, res = Ok (u, rp_Cookies reply).
Proof.
  pose proof (console_signin_agrees (JS := lines_body) calm bob_auth None (login "bob@example.com" "tulip")
    {| si_Email := "bob@example.com"; si_Password := "tulip" |} (5%nat, bob_world)
    ltac:(vm_compute; reflexivity) ltac:(vm_compute; discriminate) ltac:(discriminate)) as H.
  cbn [si_Email si_Password] in H.
  assert (Hok : exists x, (consoleAuth_SignIn calm bob_auth None "bob@example.com" "tulip" (5%nat, bob_world)).1.1.1 = Ok x)
    by (vm_compute; eexists; reflexivity).
  destruct (signin calm bob_auth None _ _) as [[[reply d1] r1] st1].
  destruct (consoleAuth_SignIn calm bob_auth None _ _ _) as [[[res d2] r2] st2].
  destruct Hok as [[u c] E]. cbn [fst] in E. subst res. destruct H as (_ & _ & _ & Hc & Hr).
  split; [rewrite Hr; reflexivity|]. exists u. rewrite Hc. reflexivity.
Defined.
End gate.

(** ** Over the code service *)
Definition code_deps (sc : Sched DemoWorld) : Deps DemoWorld := {|
  d_Codes := consoleCodes sc demo_svc;
  d_Tokens := {| ts_List := fun _ => mret (Ok []); ts_Create := fun _ _ _ => mret (Err con_NotFound);
                 ts_Revoke := fun _ _ => mret (Err con_NotFound) |};
  d_Analytics := None;
  d_Auth := {| ca_SignIn := fun _ _ => mret (Err con_InvalidCredentials); ca_CurrentUser := fun _ => mret None; ca_SignOut := [] |} |}.

Definition demo_user : User := {|
  user_ID := "usr_1"; user_Email := "a@example.com"; user_PasswordHash := ""; user_IsAdmin := false;
  user_TokenVersion := 0; user_Source := UserSourceLocal; user_CreatedAt := 0; user_LastLoginAt := None |}.

Definition form_of (dest : string) : gmap string (list string) := {["destination" := [dest]; "expires_at" := [dest]]}.
Definition patch_to (dest : string) : Incoming := ask "PATCH" "/ui/codes/x" demo_id "1" dest None.

Lemma console_errors_masked_witness :
  (exists m, m ∈ safe_messages
     /\ rp_Response (patchCodeDestination (code_deps demo_sched) demo_user (patch_to "javascript:alert(1)") (20%nat, demo_world)).1 = formError 400 m)
  /\ rs_Status (rp_Response (patchCodeDestination (code_deps demo_sched) demo_user (patch_to "https://example.com/b") (20%nat, demo_world)).1) = 200.
Proof.
  split; [|vm_compute; reflexivity].
  destruct (console_errors_masked (FM := demo_forms) demo_sched demo_svc (code_deps demo_sched) no_assets "n" demo_user (patch_to "javascript:alert(1)")
    (form_of "javascript:alert(1)") (20%nat, demo_world) eq_refl ltac:(vm_compute; reflexivity)) as [_ H].
  cbv zeta in H. destruct H as [H|[H|[H|[H|[c H]]]]]; [| | |exact H|];
    exfalso; apply (f_equal rs_Status) in H; revert H; vm_compute; discriminate.
Defined.

(** [ifMatchVersion]'s comment says that without If-Match the last write wins.
    The adapter reads the version and asks for exactly that one, so that a
    write in between is a conflict, which the API's PATCH without If-Match
    would have retried. *)
Example console_not_last_write_wins :
  let update w := (svc_UpdateDestination demo_sched demo_svc demo_id "usr_1" "https://example.com/c" 0 (30%nat, w)).2.2 in
  let sc := {| sc_env := env_at; sc_others := fun n w => if Nat.eqb n 22 then update w else w |} in
  rs_Status (rp_Response (patchCodeDestination (code_deps sc) demo_user (patch_to "https://example.com/b") (20%nat, demo_world)).1) = 409
  /\ is_Ok (svc_UpdateDestination sc demo_svc demo_id "usr_1" "https://example.com/b" 0 (21%nat, demo_world)).1 = true.
Proof. vm_compute. split; reflexivity. Qed.

(** A cursor that is not one is the caller's mistake for the API and an
    internal error for the console. *)
Example console_bad_cursor :
  rp_Response (getCodesList (code_deps demo_sched) no_assets "n" demo_user (ask "GET" "/ui/" "" "1" "" None) (20%nat, demo_world)).1 = Internal ∅.
Proof. vm_compute. reflexivity. Qed.

(** [safeErrorMessage] cuts at the first colon of the sentinel's own text. *)
Example safeErrorMessage_keeps_prefix :
  safeErrorMessage (con_Validation "that alias is reserved") "" = "validation failed: that alias is reserved".
Proof. reflexivity. Qed.

(** An expiry that does not parse makes a token without one. *)
Example bad_expiry_never_expires : form_expiry {["expires_at" := ["2026-07-01T10:00:30"]]} = None.
Proof. reflexivity. Qed.
