(* ===== verification/JsonRows.v ===== *)
(** * Archive rows as JSON: what the export relies on, and a codec

    [encoding/json] reproduces a row whose strings are valid UTF-8, whose times
    have a four-digit year and whose integers and floats are in range, on one
    line.  The laws are stated here once per row type; a computable codec that
    satisfies them lets the export and the import run on concrete stores. *)
From Stdlib Require Import Ascii String BinaryString.
From S2P Require Import GoLib Domain Base64 MemStore Export.
Local Open Scope string_scope.
Local Open Scope Z_scope.

(** ** Values the encoding keeps *)
Definition valid_utf8 (s : string) : Prop := of_bytes (concat (EncodeRune <$> runes s)) = s.
Definition json_time (t : Z) : Prop := year_ok t.
Definition json_opt_time (t : option Z) : Prop := from_option json_time True t.
Definition is_finite (f : float64) : Prop :=
  match f with S754_infinity _ | S754_nan => False | _ => True end.

Definition json_user (r : userRecord) : Prop :=
  Forall valid_utf8 [ur_ID r; ur_Email r; ur_Source r] /\ int64_ok (ur_TokenVersion r)
  /\ json_time (ur_CreatedAt r) /\ json_opt_time (ur_LastLoginAt r).
Definition json_token (r : tokenRecord) : Prop :=
  Forall valid_utf8 [tr_ID r; tr_UserID r; tr_Name r] /\ json_time (tr_CreatedAt r)
  /\ Forall json_opt_time [tr_LastUsedAt r; tr_RevokedAt r; tr_ExpiresAt r].
Definition json_styling (s : Styling) : Prop :=
  Forall valid_utf8 [styling_ID s; FgColor s; BgColor s; styling_ModuleShape s; styling_ECLevel s;
                     ECLevelEffective s; LogoBlobKey s]
  /\ int64_ok (MarginModules s) /\ int64_ok (SizePx s) /\ is_finite (LogoScale s).
Definition json_code (c : Code) : Prop :=
  Forall valid_utf8 [code_ID c; ShortCode c; code_UserID c; Mode c; ClientRef c; Destination c; State c;
                     BlobKey c; BlobETag c]
  /\ json_styling (code_Styling c) /\ int64_ok (Version c)
  /\ json_time (code_CreatedAt c) /\ json_time (UpdatedAt c) /\ json_opt_time (DeletedAt c).
Definition json_reservation (r : reservationRecord) : Prop :=
  Forall valid_utf8 [rr_ShortCode r; rr_CodeID r] /\ json_time (rr_ReservedAt r)
  /\ json_opt_time (rr_ReleasedAt r).
Definition json_rollup (r : RollupDelta) : Prop :=
  Forall valid_utf8 [rd_CodeID r; rd_Dimension r; rd_Value r] /\ json_time (HourBucket r)
  /\ int64_ok (rd_Count r).

(** One line of text: not empty, no line break inside. *)
Definition good_line (line : string) : Prop :=
  line <> "" /\ string_forall (fun c => negb (Ascii.eqb c "010") && negb (Ascii.eqb c "013")) line = true.

Class JsonOk (R : Type) (ok : R -> Prop) `{Json R} : Prop :=
  marshal_ok r : ok r -> exists line, Marshal r = Some line /\ Unmarshal line = Some r /\ good_line line.

(** ** A codec by fields *)

(** [{f1;f2;...;] with every field in base 64. *)
Definition join_fields (l : list string) : string :=
  String "{" (foldr (fun f acc => EncodeToString alphabet_url (bytes f) +:+ String ";" acc) "" l).

Definition split_fields (s : string) : option (list string) :=
  match s with
  | String _ s' =>
      mapM (fun p => of_bytes <$> DecodeString alphabet_url p) (take (length (SplitByte s' ";") - 1)
        (SplitByte s' ";"))
  | EmptyString => None
  end.

Definition letter (c : ascii) : bool :=
  is_upper c || is_lower c || is_digit c || Ascii.eqb c "-" || Ascii.eqb c "_".

Lemma encode_letters l : string_forall letter (EncodeToString alphabet_url l) = true.
Proof.
  unfold EncodeToString, string_forall. rewrite bytes_of_bytes. apply forallb_forall.
  intros c (z & -> & Hz)%list_elem_of_In%list_elem_of_fmap.
  assert (Hr : digit_range z).
  { assert (Hb : Forall byte_range (code <$> l)) by (apply Forall_fmap, Forall_true; intros ?; apply code_bounds).
    apply encode_digits_range in Hb. rewrite Forall_forall in Hb. auto. }
  assert (Hall : forallb (fun n => letter (enc_char alphabet_url (Z.of_nat n))) (seq 0 64) = true)
    by (vm_compute; reflexivity).
  rewrite forallb_forall in Hall. specialize (Hall (Z.to_nat z)). unfold digit_range in Hr.
  rewrite Z2Nat.id in Hall by lia. apply Hall, in_seq. lia.
Qed.

Lemma letter_not c d : letter d = false -> letter c = true -> negb (Ascii.eqb c d) = true.
Proof. intros Hd Hc. apply negb_true_iff, Ascii.eqb_neq. congruence. Qed.

Lemma split_join l : split_fields (join_fields l) = Some l.
Proof.
  unfold split_fields, join_fields.
  assert (E : forall l, (SplitByte (foldr (fun f acc => EncodeToString alphabet_url (bytes f) +:+ String ";" acc)
      "" l) ";" = ((fun f => EncodeToString alphabet_url (bytes f)) <$> l) ++ [""])%list).
  { clear l. induction l as [|f l IH]; [done|]. cbn [foldr]. rewrite SplitByte_piece.
    - by rewrite IH.
    - apply (string_forall_impl letter); [|apply encode_letters]. intros c. by apply letter_not. }
  rewrite E, length_app, length_fmap, Nat.add_sub, take_app_length' by by rewrite length_fmap.
  clear E. induction l as [|f l IH]; [done|]. rewrite fmap_cons. cbn [mapM option_bind].
  rewrite (decode_encode _ _ good_alphabet_url). simpl. by rewrite IH, of_bytes_bytes.
Qed.

Lemma join_good_line l : good_line (join_fields l).
Proof.
  split; [done|]. unfold join_fields. rewrite string_forall_cons. apply andb_true_intro. split; [done|].
  induction l as [|f l IH]; [done|]. cbn [foldr]. rewrite string_forall_app. apply andb_true_intro.
  split; [|by rewrite string_forall_cons, IH].
  apply (string_forall_impl letter); [|apply encode_letters].
  intros c Hc. apply andb_true_intro. split; by apply letter_not.
Qed.

(** ** Fields *)
Definition z_field (z : Z) : string := BinaryString.of_Z z.
Definition field_z (s : string) : Z := BinaryString.to_Z s.
Definition opt_field (t : option Z) : string := from_option (fun z => String "t" (z_field z)) "" t.
Definition field_opt (s : string) : option Z :=
  match s with EmptyString => None | String _ s' => Some (field_z s') end.
Definition bool_field (b : bool) : string := if b then "true" else "".
Definition field_bool (s : string) : bool := negb (String.eqb s "").

Definition f64_fields (f : float64) : list string :=
  match f with
  | S754_zero s => ["0"; bool_field s; z_field 1; z_field 0]
  | S754_infinity s => ["i"; bool_field s; z_field 1; z_field 0]
  | S754_nan => ["n"; ""; z_field 1; z_field 0]
  | S754_finite s m e => ["f"; bool_field s; z_field (Zpos m); z_field e]
  end.
Definition fields_f64 (k s m e : string) : float64 :=
  if String.eqb k "0" then S754_zero (field_bool s)
  else if String.eqb k "i" then S754_infinity (field_bool s)
  else if String.eqb k "n" then S754_nan
  else S754_finite (field_bool s) (Z.to_pos (field_z m)) (field_z e).

Lemma field_z_field z : field_z (z_field z) = z.
Proof. apply BinaryString.Z_of_of_Z. Qed.
Lemma field_opt_field t : field_opt (opt_field t) = t.
Proof. destruct t; simpl; by rewrite ?field_z_field. Qed.
Lemma field_bool_field b : field_bool (bool_field b) = b.
Proof. by destruct b. Qed.

Arguments z_field : simpl never.
Arguments field_z : simpl never.
Arguments opt_field : simpl never.
Arguments field_opt : simpl never.
Arguments bool_field : simpl never.
Arguments field_bool : simpl never.

#[export] Hint Rewrite field_z_field field_opt_field field_bool_field : fields.

Lemma fields_f64_fields f :
  match f64_fields f with [k; s; m; e] => fields_f64 k s m e | _ => f64_zero end = f.
Proof. destruct f; unfold fields_f64; simpl; by autorewrite with fields. Qed.

Definition user_fields (r : userRecord) : list string :=
  [ur_ID r; ur_Email r; bool_field (ur_IsAdmin r); z_field (ur_TokenVersion r); ur_Source r;
   z_field (ur_CreatedAt r); opt_field (ur_LastLoginAt r)].
Definition fields_user (l : list string) : option userRecord :=
  match l with
  | [i; m; a; v; s; c; t] =>
      Some {| ur_ID := i; ur_Email := m; ur_IsAdmin := field_bool a; ur_TokenVersion := field_z v;
              ur_Source := s; ur_CreatedAt := field_z c; ur_LastLoginAt := field_opt t |}
  | _ => None
  end.

Definition token_fields (r : tokenRecord) : list string :=
  [tr_ID r; tr_UserID r; tr_Name r; z_field (tr_CreatedAt r); opt_field (tr_LastUsedAt r);
   opt_field (tr_RevokedAt r); opt_field (tr_ExpiresAt r)].
Definition fields_token (l : list string) : option tokenRecord :=
  match l with
  | [i; u; n; c; a; b; e] =>
      Some {| tr_ID := i; tr_UserID := u; tr_Name := n; tr_CreatedAt := field_z c;
              tr_LastUsedAt := field_opt a; tr_RevokedAt := field_opt b; tr_ExpiresAt := field_opt e |}
  | _ => None
  end.

Definition reservation_fields (r : reservationRecord) : list string :=
  [rr_ShortCode r; rr_CodeID r; z_field (rr_ReservedAt r); opt_field (rr_ReleasedAt r)].
Definition fields_reservation (l : list string) : option reservationRecord :=
  match l with
  | [s; c; a; b] =>
      Some {| rr_ShortCode := s; rr_CodeID := c; rr_ReservedAt := field_z a; rr_ReleasedAt := field_opt b |}
  | _ => None
  end.

Definition rollup_fields (r : RollupDelta) : list string :=
  [rd_CodeID r; z_field (HourBucket r); rd_Dimension r; rd_Value r; z_field (rd_Count r)].
Definition fields_rollup (l : list string) : option RollupDelta :=
  match l with
  | [c; h; d; v; n] =>
      Some {| rd_CodeID := c; HourBucket := field_z h; rd_Dimension := d; rd_Value := v;
              rd_Count := field_z n |}
  | _ => None
  end.

Definition code_fields (c : Code) : list string :=
  let s := code_Styling c in
  f64_fields (LogoScale s) ++
  [code_ID c; ShortCode c; bool_field (IsAlias c); code_UserID c; Mode c; ClientRef c; Destination c;
   State c; styling_ID s; FgColor s; BgColor s; styling_ModuleShape s; z_field (MarginModules s);
   z_field (SizePx s); styling_ECLevel s; ECLevelEffective s; LogoBlobKey s; BlobKey c; BlobETag c;
   z_field (Version c); z_field (code_CreatedAt c); z_field (UpdatedAt c); opt_field (DeletedAt c)]%list.
Definition fields_code (l : list string) : option Code :=
  match l with
  | [fk; fs; fm; fe; i; sc; al; u; mo; cr; d; st; si; fg; bg; sh; ma; sz; ec; ee; lb; bk; et; v; ca; ua; da] =>
      Some {| code_ID := i; ShortCode := sc; IsAlias := field_bool al; code_UserID := u; Mode := mo;
              ClientRef := cr; Destination := d; State := st;
              code_Styling := {| styling_ID := si; FgColor := fg; BgColor := bg;
                styling_ModuleShape := sh; MarginModules := field_z ma; SizePx := field_z sz;
                styling_ECLevel := ec; ECLevelEffective := ee; LogoBlobKey := lb;
                LogoScale := fields_f64 fk fs fm fe |};
              BlobKey := bk; BlobETag := et; Version := field_z v; code_CreatedAt := field_z ca;
              UpdatedAt := field_z ua; DeletedAt := field_opt da |}
  | _ => None
  end.

Definition json_of {R} (f : R -> list string) (g : list string -> option R) : Json R :=
  {| Marshal := fun r => Some (join_fields (f r)); Unmarshal := fun s => l ← split_fields s; g l |}.

#[export] Instance json_users : Json userRecord := json_of user_fields fields_user.
#[export] Instance json_tokens : Json tokenRecord := json_of token_fields fields_token.
#[export] Instance json_codes : Json Code := json_of code_fields fields_code.
#[export] Instance json_reservations : Json reservationRecord := json_of reservation_fields fields_reservation.
#[export] Instance json_rollups : Json RollupDelta := json_of rollup_fields fields_rollup.

Lemma json_of_ok {R} (f : R -> list string) g ok :
  (forall r, g (f r) = Some r) -> JsonOk (H := json_of f g) R ok.
Proof.
  intros Hfg r _. exists (join_fields (f r)). repeat split; try apply join_good_line.
  change (split_fields (join_fields (f r)) ≫= g = Some r). rewrite split_join. apply Hfg.
Qed.

#[export] Instance json_users_ok : JsonOk userRecord json_user.
Proof. apply json_of_ok. intros []. unfold user_fields, fields_user. simpl. by autorewrite with fields. Qed.
#[export] Instance json_tokens_ok : JsonOk tokenRecord json_token.
Proof. apply json_of_ok. intros []. unfold token_fields, fields_token. simpl. by autorewrite with fields. Qed.
#[export] Instance json_reservations_ok : JsonOk reservationRecord json_reservation.
Proof. apply json_of_ok. intros []. simpl. by autorewrite with fields. Qed.
#[export] Instance json_rollups_ok : JsonOk RollupDelta json_rollup.
Proof. apply json_of_ok. intros []. simpl. by autorewrite with fields. Qed.
#[export] Instance json_codes_ok : JsonOk Code json_code.
Proof.
  apply json_of_ok. intros [? ? ? ? ? ? ? ? [? ? ? ? ? ? ? ? ? f] ? ? ? ? ? ?]. unfold code_fields.
  cbn [code_Styling LogoScale]. pose proof (fields_f64_fields f) as E.
  destruct f; cbn [f64_fields] in *; simpl; autorewrite with fields; do 2 f_equal; by rewrite E.
Qed.

(** The manifest keeps its version and time; only they are read back. *)
Definition manifest_indent (m : Manifest) : option string :=
  Some (join_fields [mf_Version m; z_field (ExportedAt m)]).
Definition manifest_decode (s : string) : option Manifest :=
  l ← split_fields s;
  match l with
  | [v; t] => Some {| mf_Version := v; ExportedAt := field_z t; Entities := ∅ |}
  | _ => None
  end.
