(* ===== verification/FsCrash.v ===== *)
(** * The file blob store: crash safety and durability

    Any number of operations run at once on one data directory, their system
    calls interleaved in any order and failing at will, and the machine stops
    at some moment. *)
From Stdlib Require Import Ascii String.
From S2P Require Import GoLib Base64 Blob Threads FsBlob FsPaths FsRely FsSafe JsonRows.
Local Open Scope string_scope.
Local Open Scope Z_scope.

(** ** Operations and their results *)
Inductive op :=
| OpPut (key : string) (r : list ascii) (size : Z) (ct : string)
| OpGet (key : string)
| OpStat (key : string)
| OpDelete (key : string)
| OpPing.
Inductive outcome :=
| RPut (r : result string)
| RGet (r : result (list ascii * BlobInfo))
| RStat (r : result BlobInfo)
| RUnit (r : result unit).

Section crash.
Context (root : path) `{D : SHA256} `{!SHA256Ok} `{J : Json meta}.

Definition run_op (o : op) : prog call outcome :=
  match o with
  | OpPut k r n ct => x ← Put root k r n ct; Ret (RPut x)
  | OpGet k => x ← Get root k; Ret (RGet x)
  | OpStat k => x ← StatBlob root k; Ret (RStat x)
  | OpDelete k => x ← Delete root k; Ret (RUnit x)
  | OpPing => x ← Ping root; Ret (RUnit x)
  end.

Definition op_key (o : op) : option string :=
  match o with OpPut k _ _ _ | OpGet k | OpStat k | OpDelete k => Some k | OpPing => None end.
Definition usable_op (o : op) : Prop := from_option usable True (op_key o).

(** A machine just started: nobody holds a lock, and the disk is up to date. *)
Definition restart (fs : FS) : machine := {| m_fs := fs; m_locks := ∅; m_temps := ∅ |}.

Record at_rest (fs : FS) : Prop := {
  rest_past p : past fs p = [];
  rest_files p n : fs_files fs !! p = Some n -> exists i, fs_inodes fs !! n = Some i /\ i_synced i = true;
  rest_bound n i : fs_inodes fs !! n = Some i -> (n < fs_next fs)%nat;
  rest_inj p q n : fs_files fs !! p = Some n -> fs_files fs !! q = Some n -> p = q;
}.

(** The entry of every directory a path is in is on disk. *)
Definition rooted (fs : FS) (p : path) : Prop :=
  forall d, d `prefix_of` filepath_Dir p -> fs_dirs fs !! d = Some true.

Section pool.
Context (fs0 : FS) (Hrest : at_rest fs0) (ops : list op) (Hops : Forall usable_op ops).

Definition started : pool (Sys := call) (M := machine) outcome := (restart fs0, run_op <$> ops).

(** What the object, and the sidecar, of a key may be: what it was, or what one
    of the operations makes it. *)
Definition complete (k : string) (c : option (list ascii)) : Prop :=
  file_at fs0 (objPath root k) = c
  \/ match c with
     | Some d => exists n ct, OpPut k d n ct ∈ ops
     | None => OpDelete k ∈ ops
     end.
Definition complete_meta (k : string) (c : option (list ascii)) : Prop :=
  file_at fs0 (metaPath root k) = c
  \/ match c with
     | Some raw => exists d n ct s, OpPut k d n ct ∈ ops /\ Marshal (sidecar d ct) = Some s /\ raw = bytes s
     | None => OpDelete k ∈ ops
     end.

Definition allowed (p : path) (c : option (list ascii)) : Prop :=
  forall k, usable k -> (p = objPath root k -> complete k c) /\ (p = metaPath root k -> complete_meta k c).

Lemma allowed_obj k c : usable k -> complete k c -> allowed (objPath root k) c.
Proof.
  intros [Hk _] Hc k' [Hk' _]. split.
  - intros E. by rewrite <- (objPath_inj root k k' Hk Hk' E).
  - intros E. by apply objPath_metaPath in E.
Qed.

Lemma allowed_meta k c : usable k -> complete_meta k c -> allowed (metaPath root k) c.
Proof.
  intros [Hk _] Hc k' [Hk' _]. split.
  - intros E. symmetry in E. by apply objPath_metaPath in E.
  - intros E. by rewrite <- (metaPath_inj root k k' Hk Hk' E).
Qed.

(** Thread [i] is the only one to write or delete the key. *)
Definition writes (o : op) (k : string) : Prop :=
  match o with OpPut k' _ _ _ | OpDelete k' => k' = k | _ => False end.
Definition sole (i : nat) (k : string) : Prop :=
  usable k /\ forall j o, ops !! j = Some o -> writes o k -> j = i.
Definition mine (i : nat) (p : path) : Prop := exists k, sole i k /\ (p = objPath root k \/ p = metaPath root k).

Definition solid (d : path) : Prop := fs_dirs fs0 !! d = Some true.

Notation INV := (inv (guards root) allowed solid).
Notation RELY := (R (guards root) allowed mine solid).

Lemma file_at_lookup fs p n i :
  fs_files fs !! p = Some n -> fs_inodes fs !! n = Some i -> file_at fs p = Some (i_bytes i).
Proof. intros H1 H2. unfold file_at. rewrite H1. simpl. by rewrite H2. Qed.

Lemma inv_started : INV (restart fs0).
Proof.
  destruct Hrest as [P F B Hi]. split; try done.
  - intros p Hp. unfold entries. simpl. rewrite P. constructor; [|constructor]. unfold good_entry.
    destruct (fs_files fs0 !! p) as [n|] eqn:Hn.
    + destruct (F p n Hn) as (i & H1 & H2). exists i. split; [done|]. split; [done|].
      intros k Hk. split; intros ->; left; by apply (file_at_lookup _ _ n).
    + intros k Hk. split; intros ->; left; unfold file_at; by rewrite Hn.
  - intros p n Hn. destruct (F p n Hn) as (i & H1 & _). by exists i.
Qed.

Lemma sole_mine i k o :
  ops !! i = Some o -> writes o k -> usable k ->
  forall j, mine j (objPath root k) \/ mine j (metaPath root k) -> j = i.
Proof.
  intros Ho Hw [Hk _] j Hj. symmetry.
  assert (Hsole : exists k', sole j k' /\ k' = k).
  { destruct Hj as [(k' & Hs & [E|E])|(k' & Hs & [E|E])]; exists k'; (split; [done|]); pose proof Hs as [[Hk' _] _].
    - by apply (objPath_inj root).
    - by apply (objPath_metaPath root) in E.
    - symmetry in E. by apply (objPath_metaPath root) in E.
    - by apply (metaPath_inj root). }
  destruct Hsole as (k' & [_ Hj'] & ->). by apply (Hj' i o).
Qed.

(** What each operation ends with. *)
Definition ends (i : nat) (x : outcome) (m : machine) : Prop :=
  match x with
  | RPut x => forall k r n ct, ops !! i = Some (OpPut k r n ct) -> put_done root mine i k r ct x m
  | RGet x => forall k d info, ops !! i = Some (OpGet k) -> x = Ok (d, info) -> complete k (Some d)
  | _ => True
  end.

Lemma wp_run i o m : ops !! i = Some o -> INV m -> wp exec RELY i (run_op o) (ends i) m.
Proof.
  intros Ho Hm. assert (Hu : usable_op o) by (by eapply Forall_lookup_1; [exact Hops|]).
  assert (Hin : o ∈ ops) by by eapply list_elem_of_lookup_2.
  destruct o as [k r n ct|k|k|k|]; unfold usable_op in Hu; simpl in Hu; apply (wp_bind exec RELY _).
  - eapply wp_conseq; [apply wp_Put; try done|].
    + by eapply sole_mine.
    + apply allowed_obj; [done|]. right. eauto.
    + intros raw Hraw. apply allowed_meta; [done|]. right. eauto 10.
    + intros x m1 [Hm1 Hx]. apply (wp_done _ _ _ _ i (put_done root mine i k r ct x)); try done.
      * by apply put_done_stays.
      * intros m2 _ Hx2 k' r' n' ct' E. rewrite Ho in E. by injection E as <- <- <- <-.
  - eapply wp_conseq; [by apply wp_Get|]. intros x m1 Hx m2 _ k' d info E Ex.
    rewrite Ho in E. injection E as <-. destruct (Hx d info Ex) as [Ha _]. by apply (Ha k Hu).
  - eapply wp_conseq; [by apply wp_StatBlob|]. done.
  - eapply wp_conseq; [apply wp_Delete; try done|done].
    + by eapply sole_mine.
    + apply allowed_obj; [done|]. by right.
    + apply allowed_meta; [done|]. by right.
  - eapply wp_conseq; [by apply wp_Ping|]. done.
Qed.

Lemma wp_pool i p : started.2 !! i = Some p -> wp exec RELY i p (ends i) started.1.
Proof.
  simpl. rewrite list_lookup_fmap. destruct (ops !! i) as [o|] eqn:Ho; [|done]. intros [= <-].
  apply wp_run; [done|apply inv_started].
Qed.

Lemma pool_inv s : reachable exec started s -> INV s.1.
Proof.
  apply (wp_invariant exec RELY _ _ ends); [apply wp_pool|apply inv_started|].
  intros i m m' Hm Hg. apply (Hg (S i)); [lia|done].
Qed.

Lemma pool_ends s i x : reachable exec started s -> s.2 !! i = Some (Ret x) -> ends i x s.1.
Proof.
  intros Hr Hi. apply (wp_reachable exec RELY _ _ ends _ _ wp_pool Hr i _ Hi). apply R_refl.
Qed.

(** What a crash leaves at a managed path. *)
Lemma crash_entry s fs' p :
  reachable exec started s -> managed (guards root) p -> crashed (m_fs s.1) fs' ->
  (forall d, file_at fs' p = Some d -> allowed p (Some d))
  /\ (rooted fs0 p -> file_at fs' p = None -> allowed p None).
Proof.
  intros Hr Hp [(lost & Hl & Hfile) Hdata]. pose proof (pool_inv s Hr) as [E _ _ _ _ S].
  specialize (E p Hp). unfold entries in E. inversion E as [|? ? Hcur Hpast]; subst. clear E.
  assert (Hgood : forall e, e = fs_files (m_fs s.1) !! p \/ e ∈ past (m_fs s.1) p ->
                  good_entry allowed (m_fs s.1) p e).
  { intros e [->|He]; [done|]. rewrite Forall_forall in Hpast. by apply Hpast. }
  specialize (Hfile p). unfold file_at.
  destruct Hfile as [[-> (d & Hd & Hpre)]|[Hkeep Hor]].
  - split; [done|]. intros Hroot _. apply Hl in Hd. pose proof (S d (Hroot d Hpre)). congruence.
  - apply Hgood in Hor. destruct (fs_files fs' !! p) as [n|]; simpl.
    + destruct Hor as (i & H1 & H2 & H3). rewrite (Hdata n i H1 H2). simpl. by split; [intros d [= <-]|].
    + by split.
Qed.

(** C21: objects are never torn. Any number of operations on one data directory,
    interleaved in any order and with any call failing; the machine crashes at
    any moment. What is left of a key is then complete: what it was before, or
    everything one of the operations put there; and if the directories of the
    key were on disk and no operation deletes it, it is still there. While the
    machine runs, a reader only gets complete contents. *)
Theorem fsblob_crash_safe (s : pool outcome) (Hrun : reachable exec started s) :
  (forall fs' k, usable k -> crashed (m_fs s.1) fs' ->
     (forall d, file_at fs' (objPath root k) = Some d -> complete k (Some d))
     /\ (rooted fs0 (objPath root k) -> file_at fs' (objPath root k) = None -> complete k None))
  /\ (forall i k d info, ops !! i = Some (OpGet k) -> s.2 !! i = Some (Ret (RGet (Ok (d, info)))) ->
       complete k (Some d)).
Proof.
  split.
  - intros fs' k Hk Hc. assert (Hg : managed (guards root) (objPath root k)) by (exists (lock k), k; auto).
    destruct (crash_entry s fs' _ Hrun Hg Hc) as [H1 H2]. split.
    + intros d Hd. by apply (H1 d Hd k Hk).
    + intros Hroot Hn. by apply (H2 Hroot Hn k Hk).
  - intros i k d info Hop Hi. pose proof (pool_ends s i _ Hrun Hi) as He. by apply (He k d info).
Qed.

Lemma durable_crash s fs' p b :
  reachable exec started s -> durable p b s.1 -> rooted fs0 p -> crashed (m_fs s.1) fs' -> file_at fs' p = Some b.
Proof.
  intros Hr [(n & ino & H1 & H2 & H3 & <-) Hpast] Hroot [(lost & Hl & Hfile) Hdata].
  pose proof (pool_inv s Hr) as [_ _ _ _ _ S]. destruct (Hfile p) as [[_ (d & Hd & Hpre)]|[_ Hor]].
  - apply Hl in Hd. pose proof (S d (Hroot d Hpre)). congruence.
  - rewrite Hpast, H1 in Hor. destruct Hor as [Hor|[]%not_elem_of_nil].
    by apply (file_at_lookup _ _ n), Hdata.
Qed.

(** C22: what [Put] reported stored survives a crash. Once a [Put] has returned an
    entity tag, and no other operation writes the same key, any crash leaves the
    object and its sidecar on disk: after a restart [Get] returns exactly the
    bytes, the content type and the entity tag. The directories of the key must
    be on disk already. *)
Theorem fsblob_durable (s : pool outcome) (i : nat) (k : string) (r : list ascii) (n : Z) (ct etag : string)
    (fs' : FS) (turns : machine -> turn) (Hcalm : calm turns)
    (HJ : forall raw, Marshal (sidecar r ct) = Some raw -> Unmarshal raw = Some (sidecar r ct))
    (Hrun : reachable exec started s)
    (Hop : ops !! i = Some (OpPut k r n ct)) (Hret : s.2 !! i = Some (Ret (RPut (Ok etag))))
    (Hsole : forall j o, ops !! j = Some o -> writes o k -> j = i)
    (Hobj : rooted fs0 (objPath root k)) (Hmeta : rooted fs0 (metaPath root k))
    (Hcrash : crashed (m_fs s.1) fs') :
  etag = hex_EncodeToString (sha256_Sum256 r)
  /\ exists t, alone exec turns 0 (Get root k) (restart fs')
      = Some (Ok (r, {| bi_Key := k; bi_Size := Z.of_nat (length r); bi_ContentType := ct; bi_ETag := etag;
                        bi_ModTime := t |}), restart fs').
Proof.
  pose proof (pool_ends s i _ Hrun Hret k r n ct Hop eq_refl) as (E & raw & Hraw & Hs1 & Hs2).
  injection E as ->. split; [done|].
  assert (Hu : usable k).
  { assert (Hu : usable_op (OpPut k r n ct)) by (by eapply Forall_lookup_1; [exact Hops|]). exact Hu. }
  assert (Hm1 : mine i (objPath root k)) by (exists k; split; [by split|auto]).
  assert (Hm2 : mine i (metaPath root k)) by (exists k; split; [by split|auto]).
  pose proof (durable_crash s fs' _ _ Hrun (Hs1 Hm1) Hobj Hcrash) as F1.
  pose proof (durable_crash s fs' _ _ Hrun (Hs2 Hm2) Hmeta Hcrash) as F2.
  unfold file_at in F1. destruct (fs_files fs' !! objPath root k) as [x|] eqn:Hx; [|done]. simpl in F1.
  destruct (fs_inodes fs' !! x) as [ino|] eqn:Hi; [|done]. injection F1 as <-.
  exists (i_mtime ino). apply (run_Get root turns Hcalm 0 k (proj1 Hu) _ ino (bytes raw) (sidecar (i_bytes ino) ct)).
  - done.
  - split; [by exists x|]. split; [done|]. rewrite of_bytes_bytes. by apply HJ.
Qed.
End pool.
End crash.

(** ** Concrete runs *)
#[export] Instance short_sha : SHA256 := {| sha256_Sum256 := fun l => take 32 (l ++ replicate 32 "a"%char) |}.
#[export] Instance short_sha_ok : SHA256Ok.
Proof. intros l. cbn [sha256_Sum256 short_sha]. rewrite length_take, length_app, length_replicate. lia. Qed.

Definition meta_fields (m : meta) : list string := [ContentType m; ETag m; z_field (meta_Size m)].
Definition fields_meta (l : list string) : option meta :=
  match l with
  | [c; e; n] => Some {| ContentType := c; ETag := e; meta_Size := field_z n |}
  | _ => None
  end.
#[export] Instance json_meta : Json meta := json_of meta_fields fields_meta.
#[export] Instance json_meta_ok : JsonOk meta (fun _ => True).
Proof. apply json_of_ok. intros []. unfold meta_fields, fields_meta. simpl. by autorewrite with fields. Qed.

Definition data_dir : path := ["srv"; "qurator"].
Definition image : list ascii := bytes "image".
Definition dirs_of (on_disk : list path) : gmap path bool := list_to_map ((fun d => (d, true)) <$> ([] :: on_disk)).
Definition empty_fs (on_disk : list path) : FS :=
  {| fs_files := ∅; fs_past := ∅; fs_dirs := dirs_of on_disk; fs_inodes := ∅; fs_next := 0 |}.

Lemma empty_at_rest l : at_rest (empty_fs l).
Proof. by split. Qed.

(** A data directory in use: the shard of the key is there. *)
Definition shard_dirs (k : string) : list path :=
  prefixes (filepath_Dir (objPath data_dir k)) ++ prefixes (filepath_Dir (metaPath data_dir k)).

Lemma prefix_prefixes (d l : path) : d `prefix_of` l -> d = [] \/ d ∈ prefixes l.
Proof.
  intros [k ->]. induction d as [|x d IH]; [by left|]. right. simpl. destruct IH as [->|IH]; [by left|].
  right. apply list_elem_of_fmap. by exists d.
Qed.

Lemma prefixes_prefix (d l : path) : d ∈ [] :: prefixes l -> d `prefix_of` l.
Proof.
  intros [->|Hd]%elem_of_cons; [apply prefix_nil|]. revert d Hd. induction l as [|x l IH]; intros d Hd.
  - by apply not_elem_of_nil in Hd.
  - simpl in Hd. apply elem_of_cons in Hd as [->|(d' & -> & Hd)%list_elem_of_fmap].
    + apply prefix_cons, prefix_nil.
    + by apply prefix_cons, IH.
Qed.

Lemma rooted_dirs on_disk p :
  Forall (fun d => dirs_of on_disk !! d = Some true) ([] :: prefixes (filepath_Dir p)) -> rooted (empty_fs on_disk) p.
Proof.
  rewrite Forall_forall. intros H d [->|Hd]%prefix_prefixes; apply H; [by left|by right].
Qed.

Definition tick (name : string) : turn :=
  {| t_ctx := None; t_fault := None; t_now := 0; t_name := name; t_written := 0 |}.
(** A name longer than any in use. *)
Definition long_name (fs : FS) : string :=
  of_bytes (replicate (S (max_list ((fun e => String.length (last_seg e.1)) <$> map_to_list (fs_files fs)))) "x"%char).
Definition tick_at (m : machine) : turn := tick (long_name (m_fs m)).

Lemma calm_tick_at : calm tick_at.
Proof.
  split; [done|done|]. intros m d pattern. destruct (fs_files (m_fs m) !! _) as [n|] eqn:E; [|done]. exfalso.
  apply elem_of_map_to_list in E.
  assert (Hl : (String.length (pattern +:+ long_name (m_fs m)) <=
    max_list ((fun e => String.length (last_seg e.1)) <$> map_to_list (fs_files (m_fs m))))%nat).
  { apply max_list_elem_of_le, list_elem_of_fmap. eexists. split; [|exact E].
    unfold last_seg. cbn [fst]. by rewrite last_snoc. }
  rewrite string_app_length in Hl. unfold long_name in Hl.
  rewrite <- (length_bytes (of_bytes (replicate _ _))), bytes_of_bytes, length_replicate in Hl. lia.
Qed.

Lemma crashed_same fs : crashed fs fs.
Proof. split; [|done]. exists (fun _ => False). split; [done|]. intros p. right. auto. Qed.

(** One [Put] beside a [Get], the reader first. *)
Definition two_ops : list op := [OpGet "logos/a"; OpPut "logos/a" image 5 "image/png"].
Definition used_dir : FS := empty_fs (shard_dirs "logos/a").

Lemma usable_logo : usable "logos/a".
Proof. split; vm_compute; reflexivity. Qed.

Lemma two_ops_usable : Forall usable_op two_ops.
Proof. do 2 (constructor; [apply usable_logo|]). constructor. Qed.

Definition schedule (l : list nat) : list (nat * turn) := (fun i => (i, tick "1")) <$> l.
Definition put_then_get : pool outcome :=
  default (started data_dir used_dir []) (pool_steps exec (schedule (replicate 19 1%nat ++ replicate 6 0%nat)%list)
    (started data_dir used_dir two_ops)).

Lemma put_then_get_run : reachable exec (started data_dir used_dir two_ops) put_then_get.
Proof.
  apply (pool_steps_reachable exec _ (schedule (replicate 19 1%nat ++ replicate 6 0%nat)%list)
           (started data_dir used_dir two_ops)); [constructor|].
  vm_compute. reflexivity.
Qed.

Definition image_tag : string := hex_EncodeToString (sha256_Sum256 image).
Definition image_info : BlobInfo :=
  {| bi_Key := "logos/a"; bi_Size := 5; bi_ContentType := "image/png"; bi_ETag := image_tag; bi_ModTime := 0 |}.

Lemma fsblob_crash_safe_witness : complete data_dir used_dir two_ops "logos/a" (Some image).
Proof.
  destruct (fsblob_crash_safe data_dir used_dir (empty_at_rest _) two_ops two_ops_usable put_then_get
              put_then_get_run) as [_ H].
  apply (H 0%nat "logos/a" image image_info); [reflexivity|]. vm_compute. reflexivity.
Defined.

Lemma used_rooted p :
  p = objPath data_dir "logos/a" \/ p = metaPath data_dir "logos/a" -> rooted used_dir p.
Proof.
  intros [-> | ->]; apply rooted_dirs; apply (bool_decide_unpack _); vm_compute; done.
Qed.

Lemma fsblob_durable_witness :
  exists t, alone exec tick_at 0 (Get data_dir "logos/a") (restart (m_fs put_then_get.1))
    = Some (Ok (image, {| bi_Key := "logos/a"; bi_Size := 5; bi_ContentType := "image/png";
                          bi_ETag := image_tag; bi_ModTime := t |}), restart (m_fs put_then_get.1)).
Proof.
  refine (proj2 (fsblob_durable data_dir used_dir (empty_at_rest _) two_ops two_ops_usable put_then_get 1%nat
    "logos/a" image 5 "image/png" image_tag (m_fs put_then_get.1) tick_at calm_tick_at _ put_then_get_run
    eq_refl _ _ _ _ (crashed_same _))).
  - intros raw Hraw. destruct (marshal_ok (ok := fun _ : meta => True) (sidecar image "image/png") I)
      as (line & H1 & H2 & _). congruence.
  - vm_compute. reflexivity.
  - intros [|[|j]] o; simpl; [by intros [= <-]|done|done].
  - apply used_rooted. by left.
  - apply used_rooted. by right.
Defined.

(** ** Three limits *)

(** The shard directories are made by [Put] and their own entries are never
    synced: after the first [Put] of a shard a crash can leave nothing of an
    object that was reported stored. *)
Definition one_put : list op := [OpPut "logos/a" image 5 "image/png"].
Definition fresh_dir : FS := empty_fs (prefixes data_dir).
Definition after_put : pool outcome :=
  default (started data_dir fresh_dir []) (pool_steps exec (schedule (replicate 19 0%nat))
    (started data_dir fresh_dir one_put)).
Definition bare (fs : FS) : FS :=
  {| fs_files := ∅; fs_past := ∅; fs_dirs := ∅; fs_inodes := fs_inodes fs; fs_next := fs_next fs |}.

Lemma crashed_bare fs :
  Forall (fun e => Exists (fun d => fs_dirs fs !! d = Some false) ([] :: prefixes (filepath_Dir e.1)))
    (map_to_list (fs_files fs)) -> crashed fs (bare fs).
Proof.
  intros Hall. split; [|by intros n i]. set (lost := fun d => fs_dirs fs !! d = Some false).
  exists lost. split; [done|]. intros p.
  destruct (decide (Exists lost ([] :: prefixes (filepath_Dir p)))) as [Hx|Hx].
  - left. split; [apply lookup_empty|]. apply Exists_exists in Hx as (d & Hd%prefixes_prefix & Hl). by exists d.
  - right. split.
    + intros d Hl [->|Hd]%prefix_prefixes; apply Hx, Exists_exists; eexists; (split; [|exact Hl]); [by left|by right].
    + left. destruct (fs_files fs !! p) as [n|] eqn:E; [|done]. apply elem_of_map_to_list in E.
      rewrite Forall_forall in Hall. destruct Hx. apply (Hall _ E).
Qed.

Lemma file_at_bare fs p : file_at (bare fs) p = None.
Proof. unfold file_at, bare. cbn [fs_files]. by rewrite lookup_empty. Qed.

Theorem first_put_lost :
  exists s fs', reachable exec (started data_dir fresh_dir one_put) s
    /\ s.2 = [Ret (RPut (Ok image_tag))] /\ crashed (m_fs s.1) fs'
    /\ file_at fs' (objPath data_dir "logos/a") = None.
Proof.
  exists after_put, (bare (m_fs after_put.1)). split_and!.
  - apply (pool_steps_reachable exec _ (schedule (replicate 19 0%nat)) (started data_dir fresh_dir one_put));
      [constructor|]. vm_compute. reflexivity.
  - vm_compute. reflexivity.
  - apply crashed_bare, (bool_decide_unpack _). vm_compute. exact I.
  - apply file_at_bare.
Qed.

(** [Get] reads the sidecar under the lock and opens the object after it has
    given the lock back: a [Put] in between, and the reader gets the new bytes
    under the old entity tag.  [Put] renames the object before it writes the
    sidecar: a failure in between, and the mismatch is there to stay. *)
Definition image2 : list ascii := bytes "other".
Definition three_ops : list op :=
  [OpPut "logos/a" image 5 "image/png"; OpPut "logos/a" image2 5 "image/png"; OpGet "logos/a"].
Definition run3 (l : list nat) : pool outcome :=
  default (started data_dir used_dir []) (pool_steps exec (schedule l) (started data_dir used_dir three_ops)).
Definition during_get : pool outcome :=
  run3 (replicate 19 0%nat ++ replicate 5 2%nat ++ replicate 19 1%nat ++ [2%nat]).
Definition half_put : machine := (run3 (replicate 19 0%nat ++ replicate 11 1%nat)).1.

Theorem get_mixes_versions :
  reachable exec (started data_dir used_dir three_ops) during_get
  /\ exists info, during_get.2 !! 2%nat = Some (Ret (RGet (Ok (image2, info)))) /\ bi_ETag info = image_tag.
Proof.
  split.
  - apply (pool_steps_reachable exec _
      (schedule (replicate 19 0%nat ++ replicate 5 2%nat ++ replicate 19 1%nat ++ [2%nat])%list)
      (started data_dir used_dir three_ops)); [constructor|]. vm_compute. reflexivity.
  - exists image_info. split; vm_compute; reflexivity.
Qed.

Theorem half_put_mismatch :
  alone exec tick_at 0 (Get data_dir "logos/a") (restart (m_fs half_put)) = Some (Ok (image2, image_info), restart (m_fs half_put)).
Proof. vm_compute. reflexivity. Qed.
