(* ===== verification/FsRefine.v ===== *)
(** * The file blob store refines the in-memory one

    One operation at a time and no call failing, the file driver returns what
    the in-memory driver returns, for any sequence of operations. *)
From Stdlib Require Import Ascii String.
From S2P Require Import GoLib GoUrl Base64 Blob Threads FsBlob FsPaths FsRely FsSafe Concrete JsonRows FsCrash.
Local Open Scope string_scope.
Local Open Scope Z_scope.

Section refine.
Context (root : path) `{D : SHA256} `{!SHA256Ok} (ok : meta -> Prop) `{J : Json meta} `{!JsonOk meta ok}.

Section operation.
Context (turns : machine -> turn) (Hcalm : calm turns) (now : Z) (Hnow : forall m, t_now (turns m) = now).

Notation run p m := (alone exec turns 0 p m).

(** What [Put] leaves: the two files, and everything else as it was. *)
Record put_effect (key : string) (r raw : list ascii) (m m' : machine) : Prop := {
  pe_locks : m_locks m' = m_locks m;
  pe_files q : fs_files (m_fs m') !! q =
    if decide (q = metaPath root key) then Some (S (fs_next (m_fs m)))
    else if decide (q = objPath root key) then Some (fs_next (m_fs m)) else fs_files (m_fs m) !! q;
  pe_inodes n : fs_inodes (m_fs m') !! n =
    if decide (n = S (fs_next (m_fs m))) then Some {| i_bytes := raw; i_mtime := now; i_synced := true |}
    else if decide (n = fs_next (m_fs m)) then Some {| i_bytes := r; i_mtime := now; i_synced := true |}
    else fs_inodes (m_fs m) !! n;
  pe_next : fs_next (m_fs m') = S (S (fs_next (m_fs m)));
  pe_dirs d : d = filepath_Dir (objPath root key) \/ dir_exists (m_fs m) d = true -> dir_exists (m_fs m') d = true;
}.

Lemma Dir_not_nil key : ValidateKey key = None ->
  filepath_Dir (objPath root key) <> [] /\ filepath_Dir (metaPath root key) <> [].
Proof.
  intros Hv. destruct (paths_confined root key Hv) as (_ & [x Hx] & [y Hy] & _). rewrite Hx, Hy.
  split; destruct root; done.
Qed.

Lemma run_Put key r size ct raw m :
  ValidateKey key = None -> m_locks m !! lock key = None -> Marshal (sidecar r ct) = Some raw ->
  size < 0 \/ size = Z.of_nat (length r) ->
  exists m', run (Put root key r size ct) m = Some (Ok (etagFor r), m') /\ put_effect key r (bytes raw) m m'.
Proof.
  intros Hv Hl Hraw Hsize. destruct (Dir_not_nil key Hv) as [Hd1 Hd2].
  set (obj := objPath root key) in *. set (mt := metaPath root key) in *.
  set (m1 := with_fs m (add_dirs (filepath_Dir obj) (m_fs m))).
  set (m2 := with_fs m1 (add_dirs (filepath_Dir mt) (m_fs m1))).
  assert (Ho2 : dir_exists (m_fs m2) (filepath_Dir obj) = true) by (by apply dir_exists_mono, dir_exists_add).
  assert (Hm2 : dir_exists (m_fs m2) (filepath_Dir mt) = true) by (by apply dir_exists_add).
  destruct (stage_steps turns Hcalm 0 now Hnow (filepath_Dir obj) r m2 Ho2) as (tmp & m3 & m4 & m5 & E3 & E4 & E5 & Hst).
  set (m6 := with_locks m5 (<[lock key := 0%nat]> (m_locks m5))).
  assert (Hst6 : staged now tmp r (with_locks m2 (m_locks m6)) m6).
  { destruct Hst as [? ? ? ? ? ?]. by split. }
  destruct (rename_steps turns Hcalm 0 now tmp r obj (filepath_Dir obj) _ m6 Hst6) as (m7 & m8 & E7 & E8 & Hw).
  { unfold dir_exists in *. by rewrite (sg_dirs _ _ _ _ _ Hst6). }
  destruct (run_writeFileDurably turns Hcalm 0 now Hnow mt (bytes raw) m8) as (m9 & E9 & Hw9).
  { by apply (wr_dirs _ _ _ _ _ Hw). }
  assert (Hlocks : m_locks m9 = <[lock key := 0%nat]> (m_locks m5)).
  { by rewrite (wr_locks _ _ _ _ _ Hw9), (wr_locks _ _ _ _ _ Hw). }
  assert (Hl5 : m_locks m5 = m_locks m) by by rewrite (sg_locks _ _ _ _ _ Hst).
  exists {| m_fs := m_fs m9; m_locks := m_locks m5; m_temps := m_temps m9 |}. split.
  - unfold Put. rewrite (paths_Ok root key Hv). fold obj mt.
    rewrite (run_call turns 0 _ _ m None m) by by apply exec_CtxErr. cbv beta iota. unfold attempt.
    rewrite (run_call turns 0 _ _ m (Done tt) m1) by (cbn [exec]; by rewrite (no_fault turns Hcalm)). cbv beta iota.
    rewrite (run_call turns 0 _ _ m1 (Done tt) m2) by (cbn [exec]; by rewrite (no_fault turns Hcalm)). cbv beta iota.
    rewrite (run_call turns 0 _ _ _ _ _ E3). cbv beta iota. rewrite (run_call turns 0 _ _ _ _ _ E4). cbv beta iota.
    assert (Hsz : (0 <=? size) && negb (Z.of_nat (length r) =? size) = false).
    { destruct Hsize as [Hs| ->]; [by rewrite (proj2 (Z.leb_gt 0 size) Hs)|]. by rewrite Z.eqb_refl, andb_false_r. }
    cbv zeta. rewrite Hsz. rewrite (run_call turns 0 _ _ _ _ _ E5). cbv beta iota.
    rewrite (run_call turns 0 _ _ _ _ _ (exec_Close turns Hcalm 0 _ _)). cbv beta iota.
    fold (sidecar r ct). rewrite Hraw. apply run_locked; [by rewrite Hl5|]. fold m6.
    unfold commit, attempt. rewrite (run_call turns 0 _ _ _ _ _ E7). cbv beta iota.
    rewrite alone_bind, E8. cbv beta iota. rewrite alone_bind, E9. simpl. unfold etagFor. rewrite <- Hlocks.
    by destruct m9.
  - destruct Hw as [_ Wf Wi Wn Wd], Hw9 as [_ Vf Vi Vn Vd].
    change (fs_next (m_fs m8) = S (fs_next (m_fs m))) in Wn. split; cbn [m_fs m_locks].
    + done.
    + intros q. fold mt obj. rewrite Vf, Wn. case_decide; [done|]. rewrite Wf. done.
    + intros k. rewrite Vi, Wn. case_decide; [done|]. rewrite Wi. done.
    + by rewrite Vn, Wn.
    + intros d Hd. apply Vd, Wd. destruct Hd as [->|Hd]; [done|]. by do 2 apply dir_exists_mono.
Qed.

(** [Delete] of an object that is there. *)
Lemma run_Delete key m n n' :
  ValidateKey key = None -> m_locks m !! lock key = None ->
  fs_files (m_fs m) !! objPath root key = Some n -> fs_files (m_fs m) !! metaPath root key = Some n' ->
  dir_exists (m_fs m) (filepath_Dir (objPath root key)) = true ->
  let fs' := sync_dir (filepath_Dir (objPath root key))
               (set_entry (metaPath root key) None (set_entry (objPath root key) None (m_fs m))) in
  run (Delete root key) m = Some (Ok tt, with_fs m fs').
Proof.
  intros Hv Hl Ho Hm Hd fs'. assert (Hne : objPath root key <> metaPath root key) by by apply objPath_metaPath.
  unfold Delete. rewrite (paths_Ok root key Hv). set (obj := objPath root key) in *. set (mt := metaPath root key) in *.
  rewrite (run_call turns 0 _ _ m None m) by by apply exec_CtxErr. cbv beta iota.
  apply (run_locked turns 0 key _ m (Ok tt) fs' (m_temps m)); [done|]. set (m1 := with_locks m _). unfold attempt.
  set (m2 := with_fs m1 (set_entry obj None (m_fs m))).
  rewrite (run_call turns 0 _ _ m1 (Done tt) m2) by (cbn [exec]; by rewrite (no_fault turns Hcalm); simpl; rewrite Ho).
  cbv beta iota.
  set (m3 := with_fs m1 (set_entry mt None (set_entry obj None (m_fs m)))).
  rewrite (run_call turns 0 _ _ m2 (Done tt) m3).
  2: { cbn [exec]. rewrite (no_fault turns Hcalm). unfold m2. cbn [with_fs m_fs].
       rewrite files_set_entry, decide_False, Hm by done. done. }
  cbv beta iota. unfold syncDir, attempt. rewrite (run_call turns 0 _ _ m3 (Done tt) m3).
  2: { cbn [exec]. rewrite (no_fault turns Hcalm). unfold dir_exists in *. simpl. by rewrite Hd. }
  cbv beta iota. rewrite (run_call turns 0 _ _ m3 (Done tt) (with_fs m3 (sync_dir (filepath_Dir obj) (m_fs m3)))).
  { done. }
  cbn [exec]. by rewrite (no_fault turns Hcalm).
Qed.

Lemma run_Delete_missing key m :
  ValidateKey key = None -> m_locks m !! lock key = None -> fs_files (m_fs m) !! objPath root key = None ->
  run (Delete root key) m = Some (Err (Wrap "fsblob: " ErrBlobNotFound), m).
Proof.
  intros Hv Hl Ho. unfold Delete. rewrite (paths_Ok root key Hv).
  rewrite (run_call turns 0 _ _ m None m) by by apply exec_CtxErr. cbv beta iota.
  replace (Some (_, m)) with (Some (Err (A := unit) (Wrap "fsblob: " ErrBlobNotFound : error),
    {| m_fs := m_fs m; m_locks := m_locks m; m_temps := m_temps m |})) by by destruct m.
  apply run_locked; [done|]. set (m1 := with_locks m _). unfold attempt.
  rewrite (run_call turns 0 _ _ m1 NotExist m1); [done|]. cbn [exec]. rewrite (no_fault turns Hcalm). simpl. by rewrite Ho.
Qed.
End operation.

(** ** The simulation *)
Definition entry_meta (e : memEntry) : meta :=
  {| ContentType := me_contentType e; ETag := me_etag e; meta_Size := Z.of_nat (length (me_data e)) |}.

(** The files of the data directory are the entries of the map. *)
Record represents (b : memBlob) (m : machine) : Prop := {
  rp_locks : m_locks m = ∅;
  rp_bound p n : fs_files (m_fs m) !! p = Some n -> (n < fs_next (m_fs m))%nat;
  rp_absent k : ValidateKey k = None -> b !! k = None -> fs_files (m_fs m) !! objPath root k = None;
  rp_present k e : b !! k = Some e ->
    ValidateKey k = None
    /\ present root k m {| i_bytes := me_data e; i_mtime := me_modTime e; i_synced := true |}
         (bytes (default "" (Marshal (entry_meta e)))) (entry_meta e)
    /\ dir_exists (m_fs m) (filepath_Dir (objPath root k)) = true;
}.

(** The file driver wraps one error. *)
Definition wrapped {A} (r : result A) : result A :=
  match r with
  | Err (Sentinel (SBlob ErrBlobNotFound)) => Err (Wrap "fsblob: " ErrBlobNotFound)
  | _ => r
  end.

(** An operation on the in-memory driver. *)
Definition mem_op (env : Env) (o : op) (b : memBlob) : outcome * memBlob :=
  match o with
  | OpPut k r n ct => let '(x, b') := mb_Put env k r n ct b in (RPut (wrapped x), b')
  | OpGet k => (RGet (wrapped (mb_Get env k b)), b)
  | OpStat k => (RStat (wrapped (mb_Stat env k b)), b)
  | OpDelete k => let '(x, b') := mb_Delete env k b in (RUnit (wrapped x), b')
  | OpPing => (RUnit (Ok tt), b)
  end.

Section simulation.
Context (turns_of : Env -> machine -> turn) (Hcalm : forall env, calm (turns_of env)).
Context (Hnow : forall env m, t_now (turns_of env m) = time_Now env).

Definition plain_op (o : op) : Prop :=
  match o with
  | OpPut k r n ct => (n < 0 \/ n = Z.of_nat (length r)) /\ ok (sidecar r ct)
  | OpPing => False
  | _ => True
  end.

Lemma represents_put b m m' env k r ct :
  ValidateKey k = None -> ok (sidecar r ct) -> represents b m ->
  put_effect (time_Now env) k r (bytes (default "" (Marshal (sidecar r ct)))) m m' ->
  represents (<[k := {| me_data := r; me_contentType := ct; me_etag := etagFor r; me_modTime := time_Now env |}]> b) m'.
Proof.
  intros Hv Hok [L B Ab Pr] [El Ef Ei En Ed].
  assert (Hom : forall k', ValidateKey k' = None -> objPath root k' <> metaPath root k) by (intros; by apply objPath_metaPath).
  assert (Hmo : forall k', ValidateKey k' = None -> metaPath root k' <> objPath root k)
    by (intros k' Hk' E; symmetry in E; by apply objPath_metaPath in E).
  assert (Hobj : forall k', ValidateKey k' = None -> k' <> k ->
    fs_files (m_fs m') !! objPath root k' = fs_files (m_fs m) !! objPath root k').
  { intros k' Hk' Hne. rewrite Ef, decide_False, decide_False; [done| |by apply Hom].
    intros E. by apply (objPath_inj root) in E. }
  assert (Hmt : forall k', ValidateKey k' = None -> k' <> k ->
    fs_files (m_fs m') !! metaPath root k' = fs_files (m_fs m) !! metaPath root k').
  { intros k' Hk' Hne. rewrite Ef, decide_False, decide_False; [done|by apply Hmo|].
    intros E. by apply (metaPath_inj root) in E. }
  assert (Hino : forall n, (n < fs_next (m_fs m))%nat -> fs_inodes (m_fs m') !! n = fs_inodes (m_fs m) !! n).
  { intros n Hn. by rewrite Ei, !decide_False by lia. }
  split.
  - by rewrite El.
  - intros p n. rewrite Ef, En. repeat case_decide; [intros [= <-]; lia|intros [= <-]; lia|]. intros Hp%B. lia.
  - intros k' Hk'. destruct (decide (k' = k)) as [->|Hne]; [by rewrite lookup_insert_eq|].
    rewrite lookup_insert_ne by done. rewrite Hobj by done. by apply Ab.
  - intros k' e. destruct (decide (k' = k)) as [->|Hne].
    + rewrite lookup_insert_eq. intros [= <-]. split; [done|]. destruct (marshal_ok _ Hok) as (line & H1 & H2 & _).
      split; [|apply Ed; by left]. split; [|split].
      * exists (fs_next (m_fs m)). rewrite Ef, Ei. rewrite decide_False by by apply Hom.
        rewrite decide_True by done. rewrite decide_False by lia. by rewrite decide_True.
      * unfold file_at. rewrite Ef, decide_True by done. simpl. by rewrite Ei, decide_True.
      * rewrite of_bytes_bytes. change (entry_meta _) with (sidecar r ct). by rewrite H1.
    + rewrite lookup_insert_ne by done. intros He. destruct (Pr k' e He) as (Hk' & ((n & H1 & H2) & H3 & H4) & H5).
      split; [done|]. split; [|apply Ed; by right]. split; [|split; [|done]].
      * exists n. rewrite Hobj by done. split; [done|]. rewrite Hino by by eapply B. done.
      * unfold file_at in *. rewrite Hmt by done. destruct (fs_files (m_fs m) !! metaPath root k') as [n'|] eqn:E; [|done].
        simpl in *. by rewrite Hino by by eapply B.
Qed.

Lemma represents_delete b m k :
  ValidateKey k = None -> represents b m ->
  represents (delete k b) (with_fs m (sync_dir (filepath_Dir (objPath root k))
    (set_entry (metaPath root k) None (set_entry (objPath root k) None (m_fs m))))).
Proof.
  intros Hv [L B Ab Pr].
  assert (Hfile : forall p, p <> objPath root k -> p <> metaPath root k ->
    fs_files (set_entry (metaPath root k) None (set_entry (objPath root k) None (m_fs m))) !! p = fs_files (m_fs m) !! p).
  { intros p H1 H2. by rewrite !files_set_entry, !decide_False by congruence. }
  assert (Hne : forall k', ValidateKey k' = None -> k' <> k ->
    fs_files (set_entry (metaPath root k) None (set_entry (objPath root k) None (m_fs m))) !! objPath root k'
      = fs_files (m_fs m) !! objPath root k'
    /\ fs_files (set_entry (metaPath root k) None (set_entry (objPath root k) None (m_fs m))) !! metaPath root k'
      = fs_files (m_fs m) !! metaPath root k').
  { intros k' Hk' Hn. split; apply Hfile.
    - intros E. by apply (objPath_inj root) in E.
    - by apply objPath_metaPath.
    - intros E. symmetry in E. by apply objPath_metaPath in E.
    - intros E. by apply (metaPath_inj root) in E. }
  split.
  - done.
  - intros p n. cbn [with_fs m_fs sync_dir fs_files fs_next]. rewrite !files_set_entry.
    repeat case_decide; try done. apply B.
  - intros k' Hk' Hb. cbn [with_fs m_fs sync_dir fs_files]. destruct (decide (k' = k)) as [->|Hn].
    + rewrite !files_set_entry. repeat case_decide; done.
    + rewrite lookup_delete_ne in Hb by done. destruct (Hne k' Hk' Hn) as [-> _]. by apply Ab.
  - intros k' e. destruct (decide (k' = k)) as [->|Hn]; [by rewrite lookup_delete_eq|].
    rewrite lookup_delete_ne by done. intros He. destruct (Pr k' e He) as (Hk' & ((n & H1 & H2) & H3 & H4) & H5).
    destruct (Hne k' Hk' Hn) as [E1 E2]. split; [done|]. split; [|by apply dir_exists_sync].
    split; [|split; [|done]].
    + exists n. cbn [with_fs m_fs sync_dir fs_files fs_inodes]. by rewrite E1.
    + unfold file_at in *. cbn [with_fs m_fs sync_dir fs_files fs_inodes]. by rewrite E2.
Qed.

Lemma ValidateKey_err k e : ValidateKey k = Some e -> e = ErrInvalidKey.
Proof. unfold ValidateKey. intros Hv. repeat case_match; congruence. Qed.

Lemma mem_not_found b m k :
  represents b m -> ValidateKey k = None -> b !! k = None -> m_locks m !! lock k = None /\ fs_files (m_fs m) !! objPath root k = None.
Proof. intros Hrep Hv Hb. split; [by rewrite (rp_locks _ _ Hrep), lookup_empty|by apply (rp_absent _ _ Hrep)]. Qed.

(** One operation. *)
Lemma refine_op env o b m :
  plain_op o -> represents b m ->
  exists m', alone exec (turns_of env) 0 (run_op root o) m = Some ((mem_op env o b).1, m')
             /\ represents (mem_op env o b).2 m'.
Proof.
  intros Hop Hrep. assert (Hl : forall k, m_locks m !! lock k = None).
  { intros k. by rewrite (rp_locks _ _ Hrep), lookup_empty. }
  assert (Hc := Hcalm env). pose proof (mem_not_found b m) as Hnf.
  destruct o as [k r n ct|k|k|k|]; [| | | |done]; cbn [run_op mem_op]; rewrite alone_bind;
    unfold mb_Put, mb_Get, mb_Stat, mb_Delete; destruct (ValidateKey k) as [e|] eqn:Hv;
    try (destruct (run_invalid root (turns_of env) Hc 0 k e m Hv) as (E1 & E2 & E3 & E4);
         rewrite ?E1, ?E2, ?E3, ?E4; apply ValidateKey_err in Hv as ->; by exists m).
  - destruct Hop as [Hsize Hok]. destruct (marshal_ok _ Hok) as (raw & Hraw & _).
    destruct (run_Put (turns_of env) Hc (time_Now env) (Hnow env) k r n ct raw m) as (m' & -> & He); try done.
    exists m'. split; [done|]. apply (represents_put b m); try done. by rewrite Hraw.
  - destruct (b !! k) as [e|] eqn:Hb.
    + destruct (rp_present _ _ Hrep k e Hb) as (_ & Hp & _).
      rewrite (run_Get root _ Hc 0 k Hv m _ _ _ (Hl k) Hp). by exists m.
    + destruct (Hnf k Hrep Hv Hb) as [H1 H2]. destruct (run_missing root _ Hc 0 k Hv m H1 H2) as [-> _]. by exists m.
  - destruct (b !! k) as [e|] eqn:Hb.
    + destruct (rp_present _ _ Hrep k e Hb) as (_ & Hp & _).
      rewrite (run_StatBlob root _ Hc 0 k Hv m _ _ _ (Hl k) Hp). by exists m.
    + destruct (Hnf k Hrep Hv Hb) as [H1 H2]. destruct (run_missing root _ Hc 0 k Hv m H1 H2) as [_ ->]. by exists m.
  - destruct (b !! k) as [e|] eqn:Hb.
    + destruct (rp_present _ _ Hrep k e Hb) as (_ & ((x & Hx & _) & Hm & _) & Hd). unfold file_at in Hm.
      destruct (fs_files (m_fs m) !! metaPath root k) as [n'|] eqn:En; [|done].
      rewrite (run_Delete _ Hc k m x n' Hv (Hl k) Hx En Hd). eexists. split; [done|]. by apply represents_delete.
    + destruct (Hnf k Hrep Hv Hb) as [H1 H2]. rewrite (run_Delete_missing _ Hc k m Hv H1 H2). by exists m.
Qed.

(** ** Any sequence of operations *)
Fixpoint fs_trace (l : list (Env * op)) (m : machine) : option (list outcome * machine) :=
  match l with
  | [] => Some ([], m)
  | (env, o) :: l' =>
      match alone exec (turns_of env) 0 (run_op root o) m with
      | Some (x, m') => match fs_trace l' m' with Some (xs, m'') => Some (x :: xs, m'') | None => None end
      | None => None
      end
  end.

Fixpoint mem_trace (l : list (Env * op)) (b : memBlob) : list outcome * memBlob :=
  match l with
  | [] => ([], b)
  | (env, o) :: l' =>
      let '(x, b') := mem_op env o b in let '(xs, b'') := mem_trace l' b' in (x :: xs, b'')
  end.

(** C31: the file driver refines the in-memory driver. For any sequence of
    [Put], [Get], [Stat] and [Delete], one at a time and with no call failing,
    each [Put] declaring no size (a negative one) or the right one, on a data
    directory that holds the entries of a map, the file driver
    terminates with exactly the results of the in-memory driver (its not-found
    error wrapped) and leaves the entries of the map the in-memory driver
    leaves. *)
Theorem fsblob_refines (l : list (Env * op)) (b : memBlob) (m : machine)
    (Hl : Forall (fun x => plain_op x.2) l) (Hrep : represents b m) :
  exists m', fs_trace l m = Some ((mem_trace l b).1, m') /\ represents (mem_trace l b).2 m'.
Proof.
  revert b m Hrep. induction Hl as [|[env o] l Ho Hl IH]; intros b m Hrep; [by exists m|]. cbn [fs_trace mem_trace].
  destruct (refine_op env o b m Ho Hrep) as (m1 & E & Hrep1). destruct (mem_op env o b) as [x b1]. simpl in *.
  rewrite E. destruct (IH b1 m1 Hrep1) as (m2 & E2 & Hrep2). rewrite E2. destruct (mem_trace l b1) as [xs b2].
  by exists m2.
Qed.
End simulation.

(** A fresh data directory holds nothing. *)
Lemma represents_empty fs : fs_files fs = ∅ -> represents ∅ (restart fs).
Proof.
  intros E. split.
  - done.
  - intros p n. simpl. by rewrite E, lookup_empty.
  - intros k _ _. simpl. by rewrite E, lookup_empty.
  - intros k e. by rewrite lookup_empty.
Qed.
End refine.

(** ** A concrete sequence *)
Definition turns_at (env : Env) (m : machine) : turn :=
  {| t_ctx := None; t_fault := None; t_now := time_Now env; t_name := long_name (m_fs m); t_written := 0 |}.

Lemma calm_turns_at env : calm (turns_at env).
Proof. split; [done|done|]. apply (calm_name tick_at calm_tick_at). Qed.

Definition some_ops : list (Env * op) :=
  [(env0, OpGet "logos/a"); (env_at 1, OpPut "logos/a" image 5 "image/png"); (env_at 2, OpStat "logos/a");
   (env_at 3, OpPut "logos/a" image2 5 "image/png"); (env_at 4, OpGet "logos/a"); (env_at 5, OpGet "../a");
   (env_at 6, OpDelete "logos/a"); (env_at 7, OpDelete "logos/a")].

Lemma fsblob_refines_witness :
  exists m', fs_trace data_dir turns_at some_ops (restart fresh_dir) = Some ((mem_trace some_ops ∅).1, m')
    /\ represents data_dir (mem_trace some_ops ∅).2 m'.
Proof.
  refine (fsblob_refines data_dir (fun _ => True) turns_at calm_turns_at _ some_ops ∅ (restart fresh_dir) _ _).
  - by intros env m.
  - unfold some_ops. do 8 (constructor; [simpl; try (split; [right; reflexivity|]); exact I|]). constructor.
  - by apply represents_empty.
Defined.
