(* ===== verification/ExportFacts.v ===== *)
(** * Export and import: what survives, and what an archive holds

    An export carries no credential; the archive [Write] produces and the store
    [Read] rebuilds from it in the cases that fail; the lines of an entry, the
    spools, and the archive of a store whose rows [encoding/json] keeps, when
    nothing fails. *)
From Stdlib Require Import Ascii String.
From S2P Require Import GoLib Act Domain Base64 Rollup MemStore Concrete MemStoreFacts Export JsonRows.
Local Open Scope string_scope.
Local Open Scope Z_scope.

(** ** What an archive reveals *)

(** A store with every password and token hash blanked. *)
Definition strip_user (u : User) : User :=
  {| user_ID := user_ID u; user_Email := user_Email u; user_PasswordHash := "";
     user_IsAdmin := user_IsAdmin u; user_TokenVersion := user_TokenVersion u;
     user_Source := user_Source u; user_CreatedAt := user_CreatedAt u;
     user_LastLoginAt := user_LastLoginAt u |}.
Definition strip_token (t : APIToken) : APIToken :=
  {| token_ID := token_ID t; token_UserID := token_UserID t; token_Name := token_Name t;
     token_SecretHash := []; token_CreatedAt := token_CreatedAt t;
     token_LastUsedAt := token_LastUsedAt t; token_RevokedAt := token_RevokedAt t;
     token_ExpiresAt := token_ExpiresAt t |}.
Definition secretless (m : memStore) : memStore :=
  set_users (fmap strip_user) (set_tokens (fmap strip_token) m).

Lemma values_fmap {A B} (f : A -> B) (m : gmap string A) :
  (map_to_list (f <$> m)).*2 = f <$> (map_to_list m).*2.
Proof. rewrite map_to_list_fmap, <- !list_fmap_compose. by apply list_fmap_ext. Qed.

Lemma user_rows_secretless m : user_rows (secretless m) = strip_user <$> user_rows m.
Proof.
  unfold user_rows. cbn [secretless users set_users set_tokens]. rewrite values_fmap.
  by apply sort_Slice_fmap.
Qed.

Lemma ListTokens_secretless env id m :
  ListTokens env id (secretless m)
  = match ListTokens env id m with Ok l => Ok (strip_token <$> l) | Err e => Err e end.
Proof.
  unfold ListTokens, read_ctx. destruct (ctx_Err env); [done|]. f_equal.
  cbn [secretless tokens set_users set_tokens]. rewrite values_fmap, filter_fmap.
  by apply sort_Slice_fmap.
Qed.

Section alike.
Context (m m' : memStore) (sc : Sched memStore).

(** Two actions that read only, and in two states do the same. *)
Definition alike {A} (a b : Act memStore A) : Prop :=
  forall n, exists x n', a (n, m) = (x, (n', m)) /\ b (n, m') = (x, (n', m')).

Lemma alike_ret {A} (x : A) : alike (mret x) (mret x).
Proof. intros n. by exists x, n. Qed.

Lemma alike_bind {A B} (a b : Act memStore A) (k l : A -> Act memStore B) :
  alike a b -> (forall x, alike (k x) (l x)) -> alike (a ≫= k) (b ≫= l).
Proof.
  intros Ha Hk n. destruct (Ha n) as (x & n' & E1 & E2). destruct (Hk x n') as (y & n'' & E3 & E4).
  exists y, n''. by rewrite !bind_step, E1, E2.
Qed.

(** A read whose results differ by what the rest does not look at. *)
Lemma alike_look {A B} (rel : A -> A -> Prop) (f : Env -> memStore -> A) (k : A -> Act memStore B) :
  quiet sc -> (forall env, rel (f env m) (f env m')) ->
  (forall x y, rel x y -> alike (k x) (k y)) -> alike (look sc f ≫= k) (look sc f ≫= k).
Proof.
  intros Hq Hf Hk n. destruct (Hk _ _ (Hf (sc_env sc n)) (S n)) as (y & n' & E1 & E2).
  exists y, n'. rewrite !bind_step. unfold look. by rewrite !call_quiet.
Qed.

Lemma alike_walk {R S} (g : R -> R) (fn : R -> S -> Act memStore (result unit * S)) rows s :
  quiet sc -> (forall r s, alike (fn r s) (fn (g r) s)) ->
  alike (walk sc fn rows s) (walk sc fn (g <$> rows) s).
Proof.
  intros Hq Hfn. revert s. induction rows as [|r rows IH]; intros s; [apply alike_ret|].
  rewrite fmap_cons. cbn [walk]. apply alike_bind.
  { intros n. unfold look. rewrite !call_quiet by done. by eexists _, _. }
  intros [[]|e]; [|apply alike_ret].
  apply alike_bind; [apply Hfn|]. intros [[[]|e] s']; [apply IH|apply alike_ret].
Qed.

Definition rel_res {A} (rel : A -> A -> Prop) (r r' : result A) : Prop :=
  match r, r' with Ok a, Ok a' => rel a a' | Err e, Err e' => e = e' | _, _ => False end.

Lemma alike_for_each {R S} (g : R -> R) (rows : memStore -> list R)
    (fn : R -> S -> Act memStore (result unit * S)) s :
  quiet sc -> rows m' = g <$> rows m -> (forall r s, alike (fn r s) (fn (g r) s)) ->
  alike (for_each sc rows fn s) (for_each sc rows fn s).
Proof.
  intros Hq Hr Hfn. unfold for_each.
  apply (alike_look (rel_res (fun l l' => l' = g <$> l))); [done| |].
  - intros env. unfold read_ctx. by destruct (ctx_Err env).
  - intros [l|e] [l'|e']; simpl; try done; [intros ->; by apply alike_walk|intros ->; apply alike_ret].
Qed.

Context `{!Json userRecord, !Json tokenRecord, !Json Code, !Json reservationRecord, !Json RollupDelta}.
Context (io : ExportIO).

Lemma alike_spool {A R} `{!Json R} msg name (rows : memStore -> list A) (f : A -> R) :
  quiet sc -> rows m' = rows m ->
  alike (spool_rows sc io msg name rows f) (spool_rows sc io msg name rows f).
Proof.
  intros Hq Hr. unfold spool_rows. destruct (newSpool io name) as [sp|e]; [|apply alike_ret].
  apply alike_bind; [|intros [[]]; apply alike_ret].
  apply (alike_for_each id); [done|by rewrite list_fmap_id|]. intros r s. apply alike_ret.
Qed.
End alike.

Section credentials.
Context `{!Json userRecord, !Json tokenRecord, !Json Code, !Json reservationRecord, !Json RollupDelta}.

Lemma alike_write_user sc io m u sp :
  quiet sc -> alike m (secretless m) (write_user sc io u sp) (write_user sc io (strip_user u) sp).
Proof.
  intros Hq. unfold write_user. change (user_record (strip_user u)) with (user_record u).
  change (user_ID (strip_user u)) with (user_ID u).
  destruct (put io (user_record u) sp.1) as [[[]|e] us]; [|apply alike_ret].
  apply (alike_look _ _ _ (rel_res (fun l l' => l' = strip_token <$> l))); [done| |].
  - intros env. rewrite ListTokens_secretless. by destruct (ListTokens env (user_ID u) m).
  - intros [l|e] [l'|e']; simpl; try done; [intros ->|intros ->; apply alike_ret].
    rewrite <- list_fmap_compose. change (token_record ∘ strip_token) with token_record.
    destruct (put_all io (token_record <$> l) sp.2). apply alike_ret.
Qed.

(** C35: an export never carries a credential. Whatever fails on the way
    (contexts, spools, rows that do not encode, the output), exporting a store
    that nobody else is writing to gives byte for byte the archive, or the
    partial archive and the error, that exporting the same store with every
    password hash and token hash blanked gives. *)
Theorem export_no_credentials (MarshalIndent : Manifest -> option string)
    (sc : Sched memStore) (io : ExportIO) (m : memStore) (n : nat) (Hq : quiet sc) :
  (Write MarshalIndent sc io (n, m)).1 = (Write MarshalIndent sc io (n, secretless m)).1.
Proof.
  enough (H : alike m (secretless m) (Write MarshalIndent sc io) (Write MarshalIndent sc io)).
  { destruct (H n) as (x & n' & E1 & E2). by rewrite E1, E2. }
  unfold Write. apply alike_bind.
  { unfold spool_users. destruct (newSpool io fileUsers) as [us|e]; [|apply alike_ret].
    destruct (newSpool io fileTokens) as [ts|e]; [|apply alike_ret].
    apply alike_bind; [|intros [[]]; apply alike_ret].
    apply (alike_for_each _ _ _ strip_user); [done|apply user_rows_secretless|].
    intros u sp. by apply alike_write_user. }
  intros [[us ts]|e]; [|apply alike_ret].
  apply alike_bind; [by apply alike_spool|]. intros [cs|e]; [|apply alike_ret].
  apply alike_bind; [by apply alike_spool|]. intros [rs|e]; [|apply alike_ret].
  apply alike_bind; [by apply alike_spool|]. intros [rl|e]; [|apply alike_ret].
  apply (alike_look _ _ _ eq); [done|done|]. intros now _ <-.
  destruct (MarshalIndent _); apply alike_ret.
Qed.
End credentials.

(** A schedule of one caller. *)
Definition alone : Sched memStore := {| sc_env := env_at; sc_others := fun _ w => w |}.

Definition export (m : memStore) : result unit * list tarEntry :=
  (Write manifest_indent alone no_faults (0%nat, m)).1.
Definition import (entries : list tarEntry) (m : memStore) : result unit * memStore :=
  let '(r, (_, m')) := Read manifest_decode alone {| ts_entries := entries; ts_err := None |} false (0%nat, m)
  in (r, m').

(** An administrator; a live code with one day of scans; a code that was
    deleted and whose name was released. *)
Definition sample_user : User :=
  {| user_ID := "usr_1"; user_Email := "Ada@Example.com"; user_PasswordHash := "hash"; user_IsAdmin := true;
     user_TokenVersion := 3; user_Source := UserSourceLocal; user_CreatedAt := epoch; user_LastLoginAt := None |}.
Definition sample_delta : RollupDelta :=
  {| rd_CodeID := "cod_1"; HourBucket := epoch; rd_Dimension := DimTotal; rd_Value := ""; rd_Count := 7 |}.
Definition carried_store : memStore :=
  run [(env0, OpCreateUser sample_user);
       (env0, OpCreateCodes [sample_code "cod_1" "spring" "usr_1"; sample_code "cod_2" "autumn" "usr_1"]);
       (env_at 1, OpDeleteCode "cod_2" "usr_1");
       (env_at 2, OpReleaseAlias "autumn");
       (env_at 3, OpInsertScanBatch {| Events := []; Rollups := [sample_delta] |})] NewMemStore.

Lemma export_no_credentials_witness :
  users carried_store !! "usr_1" = Some sample_user
  /\ (Write manifest_indent alone no_faults (0%nat, carried_store)).1
     = (Write manifest_indent alone no_faults (0%nat, secretless carried_store)).1.
Proof.
  split; [vm_compute; reflexivity|].
  exact (export_no_credentials manifest_indent alone no_faults carried_store 0 (fun _ _ => eq_refl)).
Defined.

(** An alias used twice: its first code was deleted and the name released. *)
Definition reused_store : memStore :=
  run [(env0, OpCreateCodes [sample_code "cod_1" "spring" "usr_1"]);
       (env_at 1, OpDeleteCode "cod_1" "usr_1");
       (env_at 2, OpReleaseAlias "spring");
       (env_at 3, OpCreateCodes [sample_code "cod_2" "spring" "usr_1"])] NewMemStore.

(** A defect. The archive of a store where a released alias was used again
    cannot be imported: every code is recreated before any release is
    replayed, so the second code of that name is refused and the import stops,
    although the store exports without an error. *)
Theorem import_reused_alias_fails :
  wf_store reused_store
  /\ (export reused_store).1 = Ok tt
  /\ (import (export reused_store).2 NewMemStore).1
     = Err (Wrap "export: create code" (Wrap "memstore: short code" ErrAliasTaken)).
Proof.
  split; [|split; vm_compute; reflexivity].
  apply wf_run, wf_NewMemStore.
Qed.

(** ** Lines *)

(** A row that comes back from its line, and whose line the scanner takes. *)
Definition keepable {R} `{Json R} (r : R) : Prop :=
  exists line, Marshal r = Some line /\ Unmarshal line = Some r /\ good_line line /\ len line < maxToken.

Definition line_of {R} `{Json R} (r : R) : string := default "" (Marshal r).

Definition jsonl (ls : list string) : string := foldr (fun l acc => l +:+ String newline acc) "" ls.

Lemma keepable_line {R} `{Json R} (r : R) :
  keepable r -> Marshal r = Some (line_of r) /\ Unmarshal (line_of r) = Some r
                /\ good_line (line_of r) /\ len (line_of r) < maxToken.
Proof. intros (line & E & ?). unfold line_of. by rewrite E. Qed.

Lemma good_line_newline l :
  good_line l -> string_forall (fun c => negb (Ascii.eqb c newline)) l = true.
Proof.
  intros [_ H]. apply (string_forall_impl _ _ _ (fun c Hc => proj1 (andb_prop _ _ Hc)) H).
Qed.

Lemma scan_jsonl ls : Forall good_line ls -> scan_lines (SplitByte (jsonl ls) newline) = ls.
Proof.
  intros Hls. assert (E : SplitByte (jsonl ls) newline = (ls ++ [""])%list).
  { induction Hls as [|l ls Hl _ IH]; [done|]. cbn [jsonl foldr].
    rewrite SplitByte_piece by by apply good_line_newline.
    change ((l :: ls) ++ [""])%list with (l :: (ls ++ [""]))%list. by rewrite <- IH. }
  rewrite E. clear E Hls. induction ls as [|l ls IH]; [done|]. cbn [app scan_lines].
  destruct (ls ++ [""])%list eqn:E; [by destruct ls|]. by rewrite IH.
Qed.

Lemma dropCR_good l : good_line l -> dropCR l = l.
Proof.
  intros [_ H]. unfold string_forall in H. rewrite forallb_forall in H.
  unfold dropCR, HasSuffix, rev_string. destruct (rev (bytes l)) as [|c k] eqn:E; [done|].
  assert (Hc : In c (bytes l)) by (apply in_rev; rewrite E; by left).
  apply H, andb_prop in Hc as [_ Hc]. apply negb_true_iff in Hc.
  change (rev (bytes (String "013" ""))) with ["013"%char]. cbn [of_bytes HasPrefix].
  by rewrite ?(Ascii.eqb_sym "013"), Hc.
Qed.

(** ** Spools *)
Definition add_line (s : spooledEntity) (l : string) : spooledEntity :=
  {| sp_name := sp_name s; sp_f := sp_f s +:+ l +:+ String newline ""; sp_n := incr64 (sp_n s) |}.

Lemma app_assoc_str a b c : (a +:+ b) +:+ c = a +:+ (b +:+ c).
Proof. induction a as [|x a IH]; [done|]. by rewrite !append_cons, IH. Qed.

Lemma add_lines_entry s ls :
  spool_entry (foldl add_line s ls) = (sp_name s, sp_f s +:+ jsonl ls).
Proof.
  revert s. induction ls as [|l ls IH]; intros s; [by rewrite append_empty|].
  cbn [foldl]. rewrite IH. cbn [add_line sp_name sp_f jsonl foldr].
  f_equal. rewrite !app_assoc_str. by rewrite append_cons.
Qed.

Lemma put_keepable {R} `{Json R} (r : R) s : keepable r -> put no_faults r s = (Ok tt, add_line s (line_of r)).
Proof. intros (E & _)%keepable_line. unfold put. by rewrite E. Qed.

Lemma put_all_keepable {R} `{Json R} (rs : list R) s :
  Forall keepable rs -> put_all no_faults rs s = (Ok tt, foldl add_line s (line_of <$> rs)).
Proof.
  intros Hrs. revert s. induction Hrs as [|r rs Hr _ IH]; intros s; [done|].
  cbn [put_all]. by rewrite put_keepable.
Qed.

Definition spool (name : string) : spooledEntity := {| sp_name := name; sp_f := ""; sp_n := 0 |}.

Section write.
Context `{!Json userRecord, !Json tokenRecord, !Json Code, !Json reservationRecord, !Json RollupDelta}.
Context (sc : Sched memStore) (Hq : quiet sc) (Hl : live sc) (m : memStore).

(** One walk whose callback always succeeds and only reads. *)
Lemma runs_walk {R S} (fn : R -> S -> Act memStore (result unit * S)) (upd : S -> R -> S) rows s :
  (forall r s, r ∈ rows -> runs (eq m) (fn r s) (fun x w => m = w /\ x = (Ok tt, upd s r))) ->
  runs (eq m) (walk sc fn rows s) (fun x w => m = w /\ x = (Ok tt, foldl upd s rows)).
Proof.
  revert s. induction rows as [|r rows IH]; intros s Hfn; [by apply runs_ret|].
  cbn [walk]. apply runs_call_then; [done|]. intros n w <-. cbn [fst snd].
  unfold read_ctx. rewrite Hl. eapply runs_bind; [apply Hfn; by left|].
  intros x n' w' [<- ->]. apply (IH (upd s r)); [|done]. intros r' s' Hr'. apply Hfn. by right.
Qed.

Lemma runs_for_each {R S} (rows : memStore -> list R) (fn : R -> S -> Act memStore (result unit * S))
    (upd : S -> R -> S) s :
  (forall r s, r ∈ rows m -> runs (eq m) (fn r s) (fun x w => m = w /\ x = (Ok tt, upd s r))) ->
  runs (eq m) (for_each sc rows fn s) (fun x w => m = w /\ x = (Ok tt, foldl upd s (rows m))).
Proof.
  intros Hfn. unfold for_each. apply runs_call_then; [done|]. intros n w <-. cbn [fst snd].
  unfold read_ctx. rewrite Hl. by apply runs_walk.
Qed.

Lemma foldl_fmap_line {A R} `{Json R} (f : A -> R) s rows :
  foldl (fun s a => add_line s (line_of (f a))) s rows = foldl add_line s (line_of <$> (f <$> rows)).
Proof. revert s. induction rows as [|a rows IH]; intros s; [done|]. apply IH. Qed.

Lemma runs_spool {A R} `{!Json R} msg name (rows : memStore -> list A) (f : A -> R) :
  (forall a, a ∈ rows m -> keepable (f a)) ->
  runs (eq m) (spool_rows sc no_faults msg name rows f)
    (fun x w => m = w /\ exists sp, x = Ok sp /\ spool_entry sp = (name, jsonl (line_of <$> (f <$> rows m)))).
Proof.
  intros Hk. unfold spool_rows. cbn [newSpool no_faults io_CreateTemp].
  eapply runs_bind.
  - apply (runs_for_each rows (write_row no_faults f) (fun s a => add_line s (line_of (f a)))).
    intros a s Ha. apply runs_ret. intros w <-. split; [done|]. by apply put_keepable, Hk.
  - intros x. intros n w [<- ->]. cbn. split; [done|]. eexists. split; [done|].
    by rewrite foldl_fmap_line, add_lines_entry.
Qed.
(** The tokens of a user, as [ListTokens] orders them. *)
Definition tokens_of (u : User) : list APIToken :=
  sort_Slice token_less (filter (fun t => token_UserID t = user_ID u) (map_to_list (tokens m)).*2).

Definition token_rows : list tokenRecord :=
  concat ((fun u => token_record <$> tokens_of u) <$> user_rows m).

Lemma runs_write_user u sp :
  keepable (user_record u) -> Forall keepable (token_record <$> tokens_of u) ->
  runs (eq m) (write_user sc no_faults u sp)
    (fun x w => m = w /\ x = (Ok tt, (add_line sp.1 (line_of (user_record u)),
                              foldl add_line sp.2 (line_of <$> (token_record <$> tokens_of u))))).
Proof.
  intros Hu Ht. unfold write_user. rewrite put_keepable by done.
  apply runs_call_then; [done|]. intros n w <-. cbn [fst snd]. unfold ListTokens, read_ctx. rewrite Hl.
  fold (tokens_of u). rewrite put_all_keepable by done. apply runs_ret. by intros w <-.
Qed.

Lemma foldl_users us sp :
  foldl (fun sp u => (add_line sp.1 (line_of (user_record u)),
                      foldl add_line sp.2 (line_of <$> (token_record <$> tokens_of u)))) sp us
  = (foldl add_line sp.1 (line_of <$> (user_record <$> us)),
     foldl add_line sp.2 (line_of <$> concat ((fun u => token_record <$> tokens_of u) <$> us))).
Proof.
  revert sp. induction us as [|u us IH]; intros [a b]; [done|]. cbn [foldl]. rewrite IH.
  rewrite !fmap_cons. cbn [concat foldl fst snd]. by rewrite fmap_app, foldl_app.
Qed.

(** The archive after its manifest. *)
Definition archive_rows : list tarEntry :=
  [(fileUsers, jsonl (line_of <$> (user_record <$> user_rows m)));
   (fileTokens, jsonl (line_of <$> token_rows));
   (fileCodes, jsonl (line_of <$> code_rows m));
   (fileReservations, jsonl (line_of <$> (reservation_record <$> reservation_rows m)));
   (fileRollups, jsonl (line_of <$> rollup_rows m))].

Record keepable_store : Prop := {
  keep_users u : u ∈ user_rows m -> keepable (user_record u);
  keep_tokens u : u ∈ user_rows m -> Forall keepable (token_record <$> tokens_of u);
  keep_codes c : c ∈ code_rows m -> keepable c;
  keep_reservations r : r ∈ reservation_rows m -> keepable (reservation_record r);
  keep_rollups r : r ∈ rollup_rows m -> keepable r;
}.

Lemma runs_spool_users :
  keepable_store ->
  runs (eq m) (spool_users sc no_faults)
    (fun x w => m = w /\ exists us ts, x = Ok (us, ts)
       /\ spool_entry us = (fileUsers, jsonl (line_of <$> (user_record <$> user_rows m)))
       /\ spool_entry ts = (fileTokens, jsonl (line_of <$> token_rows))).
Proof.
  intros [Hu Ht _ _ _]. unfold spool_users. cbn [newSpool no_faults io_CreateTemp].
  eapply runs_bind.
  - apply (runs_for_each user_rows (write_user sc no_faults)
      (fun sp u => (add_line sp.1 (line_of (user_record u)),
                    foldl add_line sp.2 (line_of <$> (token_record <$> tokens_of u))))).
    intros u sp Hin. by apply runs_write_user; [apply Hu|apply Ht].
  - intros x n w [<- ->]. cbn [mret act_ret]. split; [done|]. rewrite foldl_users. eexists _, _.
    split; [done|]. by rewrite !add_lines_entry.
Qed.

(** With nothing failing, [Write] leaves the store alone and yields a manifest
    of its format and one line per row. *)
Lemma runs_Write (MI : Manifest -> option string) :
  keepable_store -> (forall man, is_Some (MI man)) ->
  runs (eq m) (Write MI sc no_faults)
    (fun x w => exists man body, MI man = Some body /\ mf_Version man = FormatVersion
                /\ x = (Ok tt, (fileManifest, body) :: archive_rows)).
Proof.
  intros Hk HM. unfold Write. eapply runs_reads; [by apply runs_spool_users|].
  intros x (us & ts & -> & Eu & Et).
  eapply runs_reads; [by apply runs_spool, keep_codes|]. intros x (cs & -> & Ec).
  eapply runs_reads; [by apply runs_spool, keep_reservations|]. intros x (rs & -> & Er).
  eapply runs_reads; [by apply runs_spool, keep_rollups|]. intros x (rl & -> & El).
  rewrite list_fmap_id in Ec. rewrite list_fmap_id in El. apply runs_call_then; [done|]. intros n w <-. cbn [fst snd].
  destruct (HM (manifest_of (time_Now (sc_env sc n)) us ts cs rs rl)) as [body Eb]. rewrite Eb.
  apply runs_ret. intros w <-. eexists _, body. split; [done|]. split; [done|].
  cbn [fmap list_fmap]. by rewrite Eu, Et, Ec, Er, El.
Qed.
End write.
