(* ===== verification/ExportImport.v ===== *)
(** * Export then import: the round trip

    The store [Read] rebuilds from the archive [Write] made. *)
From Stdlib Require Import Ascii String.
From S2P Require Import GoLib Act Domain Base64 Rollup MemStore Concrete MemStoreFacts Export JsonRows ExportFacts.
Local Open Scope string_scope.
Local Open Scope Z_scope.

(** ** Reading back *)

(** A callback over a file of rows: [inv] relates the rows already read, the
    closure's variables and the store. *)
Lemma runs_drainJSONL {R S} `{!Json R} (fn : string -> S -> Act memStore (result unit * S))
    (inv : list R -> S -> memStore -> Prop) (rows : list R) s :
  Forall keepable rows ->
  (forall done r todo s, rows = (done ++ r :: todo)%list -> Unmarshal (line_of r) = Some r ->
     runs (inv done s) (fn (line_of r) s) (fun x w => exists s', x = (Ok tt, s') /\ inv (done ++ [r])%list s' w)) ->
  runs (inv [] s) (drainJSONL fn (jsonl (line_of <$> rows)) s)
    (fun x w => exists s', x = (Ok tt, s') /\ inv rows s' w).
Proof.
  intros Hk Hfn. unfold drainJSONL. rewrite scan_jsonl.
  2:{ apply Forall_fmap. eapply Forall_impl; [done|]. intros r (_ & _ & Hg & _)%keepable_line. done. }
  assert (Hgen : forall todo pre s, rows = (pre ++ todo)%list -> Forall keepable todo ->
    runs (inv pre s) (drain_lines fn (line_of <$> todo) s)
      (fun x w => exists s', x = (Ok tt, s') /\ inv rows s' w)); [|by apply Hgen].
  clear s. induction todo as [|r todo IH]; intros pre s E Ht.
  { apply runs_ret. intros w Hw. exists s. by rewrite E, app_nil_r. }
  inversion_clear Ht as [|? ? Hr Ht']. destruct (keepable_line r Hr) as (_ & Hu & Hg & Hlen).
  rewrite fmap_cons. cbn [drain_lines].
  destruct (Z.leb_spec maxToken (len (line_of r))); [lia|]. rewrite dropCR_good by done.
  destruct (String.eqb_spec (line_of r) "") as [E0|_]; [by destruct Hg|].
  eapply runs_bind; [by apply (Hfn pre r todo)|].
  intros x n w (s' & -> & Hw). apply (IH (pre ++ [r])%list s'); [|done|done].
  by rewrite E, <- app_assoc.
Qed.

(** ** Stores an archive can carry *)
Section import.
Context `{U : UnicodeTable}.
Context `{!Json userRecord, !Json tokenRecord, !Json Code, !Json reservationRecord, !Json RollupDelta}.

(** A stored code has its required fields and every default filled in, and its
    short code is in lower case. *)
Record settled (c : Code) : Prop := {
  set_ids : code_ID c <> "" /\ ShortCode c <> "" /\ code_UserID c <> "";
  set_defaults : Mode c <> "" /\ State c <> "" /\ styling_ID (code_Styling c) <> "";
  set_times : code_CreatedAt c <> 0 /\ UpdatedAt c <> 0;
  set_lower : ToLower (ShortCode c) = ShortCode c;
}.

Record exportable (m : memStore) : Prop := {
  ex_wf : wf_store m;
  ex_users u : u ∈ user_rows m -> user_ID u <> "" /\ user_Email u <> "" /\ user_CreatedAt u <> 0;
  ex_codes id c : codes m !! id = Some c -> settled c;
  (** Every reservation is of a code of that name... *)
  ex_owner k r : reservations m !! k = Some r -> exists c, codes m !! res_codeID r = Some c /\ ShortCode c = k;
  (** ... and every code's name is reserved for it: no name was used twice. *)
  ex_once id c : codes m !! id = Some c -> exists r, reservations m !! ShortCode c = Some r /\ res_codeID r = id;
  ex_rollups k n : rollups m !! k = Some n ->
    is_Some (codes m !! rk_code k) /\ rk_dim k <> "" /\ rk_hour k <> 0 /\ Truncate (rk_hour k) Hour = rk_hour k
    /\ int64_ok n;
}.

(** What an imported code reads: a deleted code was deleted again. *)
Definition restored (c c' : Code) : Prop :=
  if is_deleted c then exists t, c' = set_code (Destination c) (State c) 2 t (Some t) c
  else c' = set_code (Destination c) (State c) 1 (UpdatedAt c) None c.

(** [m'] is what [m] carries into an empty store. *)
Record imported (m m' : memStore) : Prop := {
  im_wf : wf_store m';
  im_users : users m' = strip_user <$> users m;
  im_codes id :
    match codes m !! id, codes m' !! id with
    | Some c, Some c' => restored c c'
    | None, None => True
    | _, _ => False
    end;
  im_names : byCode m' = byCode m;
  im_rollups : rollups m' = rollups m;
  im_rest : tokens m' = ∅ /\ events m' = [];
}.

Lemma restored_id c c' : restored c c' -> code_ID c' = code_ID c /\ ShortCode c' = ShortCode c
  /\ code_UserID c' = code_UserID c /\ ClientRef c' = ClientRef c /\ is_deleted c' = is_deleted c.
Proof.
  unfold restored, is_deleted. destruct (String.eqb (State c) CodeDeleted) eqn:E.
  - by intros [t ->].
  - by intros ->.
Qed.

(** *** The operations an import performs *)
Lemma CreateUser_free env u w :
  ctx_Err env = None -> user_ID u <> "" -> user_Email u <> "" -> user_CreatedAt u <> 0 ->
  users w !! user_ID u = None -> emails w !! ToLower (user_Email u) = None ->
  CreateUser env u w
  = (Ok tt, set_emails <[ToLower (user_Email u) := user_ID u]> (set_users <[user_ID u := u]> w)).
Proof.
  intros He H1%String.eqb_neq H2%String.eqb_neq H3%Z.eqb_neq Hu Hm. unfold CreateUser, with_ctx, IsZero.
  by rewrite He, H1, H2, Hu, Hm, H3.
Qed.

Lemma CreateCode_free env c w :
  ctx_Err env = None -> code_ID c <> "" -> ShortCode c <> "" -> code_UserID c <> "" ->
  codes w !! code_ID c = None -> byCode w !! ToLower (ShortCode c) = None -> wf_store w ->
  (ClientRef c = "" \/ byRef w !! (code_UserID c, ClientRef c) = None) ->
  CreateCode env c w
  = (Ok (reflect_row c (stored_row env 0 c)), insert_row (time_Now env) (stored_row env 0 c) w).
Proof.
  intros He H1%String.eqb_neq H2%String.eqb_neq H3%String.eqb_neq Hid Hk Hwf Href.
  unfold CreateCode, CreateCodes, with_ctx. rewrite He.
  assert (Hc : check_rows w [c] ∅ ∅ ∅ = None).
  { cbn [check_rows]. rewrite H1, H2, H3, Hid, Hk. simpl.
    rewrite !bool_decide_eq_false_2 by first [by intros [? [=]] | apply not_elem_of_empty]. simpl.
    pose proof (wf_index _ Hwf (ToLower (ShortCode c))) as Hi. rewrite Hk in Hi.
    destruct (reservations w !! ToLower (ShortCode c)) as [r|]; simpl in *.
    - destruct (taken r); [done|]. destruct (String.eqb_spec (ClientRef c) ""); [done|].
      destruct Href as [|Hr]; [done|]. rewrite Hr.
      by rewrite !bool_decide_eq_false_2 by first [by intros [? [=]] | apply not_elem_of_empty].
    - destruct (String.eqb_spec (ClientRef c) ""); [done|].
      destruct Href as [|Hr]; [done|]. rewrite Hr.
      by rewrite !bool_decide_eq_false_2 by first [by intros [? [=]] | apply not_elem_of_empty]. }
  by rewrite Hc.
Qed.

Lemma stored_imported env c :
  settled c ->
  stored_row env 0 (imported_code c)
  = set_code (Destination c) (if is_deleted c then CodeDisabled else State c) 1 (UpdatedAt c) None c.
Proof.
  intros [_ (H1%String.eqb_neq & H2%String.eqb_neq & H3%String.eqb_neq) (H4%Z.eqb_neq & H5%Z.eqb_neq) Hlow].
  unfold stored_row, imported_code, set_mode_state, set_code, is_deleted, IsZero. simpl.
  rewrite H1, H3, H4, H5, Hlow. rewrite H1.
  destruct (String.eqb (State c) CodeDeleted); [done|]. by rewrite H2.
Qed.

Lemma DeleteCode_live env id u c w :
  ctx_Err env = None -> codes w !! id = Some c -> code_UserID c = u -> is_deleted c = false ->
  DeleteCode env id u w
  = (Ok tt, set_codes <[id := set_code (Destination c) CodeDeleted (incr64 (Version c)) (time_Now env)
                                (Some (time_Now env)) c]> w).
Proof.
  intros He Hc Hu Hd. unfold DeleteCode, with_ctx, owned. rewrite He, Hc, Hu, String.eqb_refl.
  unfold is_deleted in Hd. by rewrite Hd.
Qed.

Lemma ReleaseAlias_deleted env k id c w :
  ctx_Err env = None -> wf_store w -> ToLower k = k -> byCode w !! k = Some id -> codes w !! id = Some c ->
  is_deleted c = true ->
  exists r, ReleaseAlias env k w = (Ok tt, set_byCode (delete k) (set_reservations <[k := r]> w)).
Proof.
  intros He Hwf Hk Hb Hc Hd. pose proof (wf_index _ Hwf k) as Hi. rewrite Hb in Hi.
  unfold ReleaseAlias, with_ctx. rewrite He, Hk.
  destruct (reservations w !! k) as [r|]; simpl in Hi; [|done].
  destruct (taken r); [|done]. injection Hi as ->. rewrite Hc. simpl. rewrite Hd. simpl.
  rewrite Hb, Hc. simpl. rewrite Hd. eauto.
Qed.
(** *** Rows of a well-formed store *)
Lemma elem_of_values {A} (mm : gmap string A) x : x ∈ (map_to_list mm).*2 <-> exists k, mm !! k = Some x.
Proof.
  rewrite list_elem_of_fmap. split.
  - intros ([k y] & -> & H%elem_of_map_to_list). eauto.
  - intros [k H%elem_of_map_to_list]. by exists (k, x).
Qed.

Lemma NoDup_keyed {A} (f : A -> string) (mm : gmap string A) :
  (forall k x, mm !! k = Some x -> f x = k) -> NoDup (f <$> (map_to_list mm).*2).
Proof.
  intros Hf. rewrite <- list_fmap_compose.
  replace ((f ∘ snd) <$> map_to_list mm) with (map_to_list mm).*1; [apply NoDup_fst_map_to_list|].
  apply list_fmap_ext. intros i [k x] H%list_elem_of_lookup_2%elem_of_map_to_list. symmetry. by apply Hf.
Qed.

Lemma fresh_key {A K} (f : A -> K) done (r : A) todo r0 :
  NoDup (f <$> (done ++ r :: todo)%list) -> r0 ∈ done -> f r0 = f r -> False.
Proof.
  rewrite fmap_app, fmap_cons, NoDup_app. intros (_ & H & _) H0 E. apply (H (f r0)).
  - by apply list_elem_of_fmap_2.
  - rewrite E. by left.
Qed.

Lemma elem_of_user_rows m u : wf_store m -> u ∈ user_rows m <-> users m !! user_ID u = Some u.
Proof.
  intros Hwf. unfold user_rows. rewrite sort_Slice_Permutation, elem_of_values. split; [|eauto].
  intros [k Hk]. by rewrite (wf_users _ Hwf _ _ Hk).
Qed.

Lemma elem_of_code_rows m c : wf_store m -> c ∈ code_rows m <-> codes m !! code_ID c = Some c.
Proof.
  intros Hwf. unfold code_rows. rewrite sort_Slice_Permutation, elem_of_values. split; [|eauto].
  intros [k Hk]. by rewrite (wf_codes _ Hwf _ _ Hk).
Qed.

Section phases.
Context (sc : Sched memStore) (Hq : quiet sc) (Hl : live sc).
Context (m : memStore) (Hex : exportable m).

Let Hwf : wf_store m := ex_wf m Hex.

(** *** Users *)
Definition only_users (w : memStore) : Prop :=
  tokens w = ∅ /\ codes w = ∅ /\ byCode w = ∅ /\ events w = [] /\ rollups w = ∅.

Definition users_inv (done : list userRecord) (_ : unit) (w : memStore) : Prop :=
  wf_store w /\ only_users w
  /\ forall id u', users w !! id = Some u' <-> exists r, r ∈ done /\ ur_ID r = id /\ u' = imported_user r.

Lemma user_rows_ids : NoDup (ur_ID <$> (user_record <$> user_rows m)).
Proof.
  rewrite <- list_fmap_compose. unfold user_rows. rewrite sort_Slice_Permutation.
  apply NoDup_keyed, wf_users, Hwf.
Qed.

Lemma emails_once u u0 :
  u ∈ user_rows m -> u0 ∈ user_rows m -> ToLower (user_Email u) = ToLower (user_Email u0) ->
  user_ID u = user_ID u0.
Proof.
  intros Hu%elem_of_user_rows Hu0%elem_of_user_rows E; try done.
  assert (H1 : emails m !! ToLower (user_Email u) = Some (user_ID u)) by (apply (wf_emails _ Hwf); eauto).
  assert (H2 : emails m !! ToLower (user_Email u) = Some (user_ID u0)) by (apply (wf_emails _ Hwf); eauto).
  congruence.
Qed.

Lemma import_user_step done r todo s :
  (user_record <$> user_rows m) = (done ++ r :: todo)%list -> Unmarshal (line_of r) = Some r ->
  runs (users_inv done s) (import_user sc (line_of r) s)
    (fun x w => exists s', x = (Ok tt, s') /\ users_inv (done ++ [r])%list s' w).
Proof.
  intros E Hr. unfold import_user. rewrite Hr. apply runs_call_then; [done|].
  intros n w (Hw & (E1 & E2 & E3 & E4 & E5) & Hi). pose proof user_rows_ids as Hnd. rewrite E in Hnd.
  assert (Hin : forall x, x ∈ (done ++ r :: todo)%list -> exists u, x = user_record u /\ u ∈ user_rows m).
  { intros x. rewrite <- E. apply list_elem_of_fmap. }
  destruct (Hin r) as (u & -> & Hu); [rewrite elem_of_app; right; by left|].
  destruct (ex_users _ Hex u Hu) as (N1 & N2 & N3).
  assert (H1 : users w !! user_ID u = None).
  { destruct (users w !! _) as [u'|] eqn:Hu'; [|done]. exfalso.
    apply Hi in Hu' as (r0 & H0 & E0 & _). exact (fresh_key ur_ID _ _ _ r0 Hnd H0 E0). }
  assert (H2 : emails w !! ToLower (user_Email u) = None).
  { destruct (emails w !! _) as [id|] eqn:Hm; [|done]. exfalso.
    apply (wf_emails _ Hw) in Hm as (u' & Hu' & Em). apply Hi in Hu' as (r0 & H0 & E0 & ->).
    destruct (Hin r0) as (u0 & -> & Hu0); [rewrite elem_of_app; by left|].
    apply (fresh_key ur_ID _ _ _ _ Hnd H0). cbn. by apply emails_once. }
  pose proof (wf_CreateUser (sc_env sc n) (imported_user (user_record u)) w Hw) as Hw'.
  rewrite CreateUser_free in Hw' |- * by done. cbn [fst snd] in *.
  apply runs_ret. intros w' <-. exists tt. split; [done|]. split; [done|].
  split; [done|]. intros id u'. cbn [users set_users set_emails]. rewrite lookup_insert. case_decide as Ei.
  - split.
    + intros [= <-]. exists (user_record u). split; [rewrite elem_of_app; right; by left|]. by split.
    + intros (r0 & H0 & E0 & ->). f_equal. apply elem_of_app in H0 as [H0|H0%list_elem_of_singleton].
      * exfalso. apply (fresh_key ur_ID done (user_record u) todo r0 Hnd H0). by rewrite E0, <- Ei.
      * by subst r0.
  - rewrite Hi. split; intros (r0 & H0 & E0 & ->).
    + exists r0. rewrite elem_of_app. auto.
    + apply elem_of_app in H0 as [H0|H0%list_elem_of_singleton]; [by exists r0|]. by subst r0.
Qed.

Lemma runs_importUsers :
  (forall u, u ∈ user_rows m -> keepable (user_record u)) ->
  runs (eq NewMemStore) (importUsers sc (jsonl (line_of <$> (user_record <$> user_rows m))))
    (fun x w => x = Ok tt /\ wf_store w /\ only_users w /\ users w = strip_user <$> users m).
Proof.
  intros Hk. unfold importUsers. eapply runs_bind.
  - eapply runs_conseq.
    + apply (runs_drainJSONL _ users_inv); [|intros done r todo s; apply import_user_step].
      apply Forall_fmap, Forall_forall. intros u. apply Hk.
    + intros w <-. split; [apply wf_NewMemStore|]. split; [done|]. intros id u'. cbn.
      rewrite lookup_empty. split; [done|]. by intros (r & ?%elem_of_nil & _).
    + done.
  - intros x n w (s' & -> & Hw & Ho & Hi). cbn. do 3 (split; [done|]).
    apply (map_eq (M := gmap string)). intros id. rewrite lookup_fmap. apply option_eq. intros u'. rewrite Hi, fmap_Some. split.
    + intros (r & (u & -> & Hu)%list_elem_of_fmap & <- & ->). exists u. split; [|done].
      by apply elem_of_user_rows.
    + intros (u & Hu & ->). pose proof (wf_users _ Hwf _ _ Hu) as <-. exists (user_record u).
      split; [|done]. apply list_elem_of_fmap_2. by apply elem_of_user_rows.
Qed.
(** *** Codes *)
Definition frame (us : gmap string User) (w : memStore) : Prop :=
  tokens w = ∅ /\ events w = [] /\ users w = us.

Record codes_inv (us : gmap string User) (done : list Code) (ids : gset string) (w : memStore) : Prop := {
  ci_wf : wf_store w;
  ci_frame : frame us w /\ rollups w = ∅;
  ci_ids id : id ∈ ids <-> exists c, c ∈ done /\ code_ID c = id;
  ci_rows id c' : codes w !! id = Some c' -> exists c, c ∈ done /\ code_ID c = id /\ restored c c';
  ci_done c : c ∈ done -> exists c', codes w !! code_ID c = Some c' /\ restored c c';
  ci_names k id : byCode w !! k = Some id <-> exists c, c ∈ done /\ ShortCode c = k /\ code_ID c = id;
}.

Lemma code_rows_ids : NoDup (code_ID <$> code_rows m).
Proof. unfold code_rows. rewrite sort_Slice_Permutation. apply NoDup_keyed, wf_codes, Hwf. Qed.

Lemma names_once c c0 :
  c ∈ code_rows m -> c0 ∈ code_rows m -> ShortCode c = ShortCode c0 -> code_ID c = code_ID c0.
Proof.
  intros Hc%elem_of_code_rows Hc0%elem_of_code_rows E; try done.
  destruct (ex_once _ Hex _ _ Hc) as (r & Hr & <-), (ex_once _ Hex _ _ Hc0) as (r0 & Hr0 & <-). congruence.
Qed.

Lemma refs_once c c0 :
  c ∈ code_rows m -> c0 ∈ code_rows m -> ClientRef c <> "" ->
  code_UserID c = code_UserID c0 -> ClientRef c = ClientRef c0 -> code_ID c = code_ID c0.
Proof.
  intros Hc%elem_of_code_rows Hc0%elem_of_code_rows Hne Eu Er; try done.
  assert (H1 : byRef m !! (code_UserID c, ClientRef c) = Some (code_ID c)) by (apply (wf_byRef _ Hwf); eauto).
  assert (H2 : byRef m !! (code_UserID c, ClientRef c) = Some (code_ID c0))
    by (apply (wf_byRef _ Hwf); split; [done|]; by exists c0).
  congruence.
Qed.

(** What recreating one code changes. *)
Lemma codes_inv_add us done ids w w' c c' :
  codes_inv us done ids w -> wf_store w' -> frame us w' -> rollups w' = ∅ ->
  (forall c0, c0 ∈ done -> code_ID c0 <> code_ID c /\ ShortCode c0 <> ShortCode c) -> restored c c' ->
  codes w' = <[code_ID c := c']> (codes w) -> byCode w' = <[ShortCode c := code_ID c]> (byCode w) ->
  codes_inv us (done ++ [c])%list ({[code_ID c]} ∪ ids) w'.
Proof.
  intros [H1 H2 H3 H4 H5 H6] Hw' Hf Hr Hne Hres Ec Eb.
  assert (Hsnoc : forall c0, c0 ∈ (done ++ [c])%list <-> c0 ∈ done \/ c0 = c).
  { intros c0. by rewrite elem_of_app, list_elem_of_singleton. }
  split; [done|by split| | | |].
  - intros id. rewrite elem_of_union, elem_of_singleton, H3. setoid_rewrite Hsnoc. naive_solver.
  - intros id d. rewrite Ec, lookup_insert. setoid_rewrite Hsnoc. case_decide; [naive_solver|].
    intros (c0 & ? & ? & ?)%H4. eauto.
  - intros c0 [Hc0| ->]%Hsnoc; rewrite Ec; [|exists c'; by rewrite lookup_insert_eq].
    rewrite lookup_insert_ne; [by apply H5|]. destruct (Hne _ Hc0). congruence.
  - intros k id. rewrite Eb, lookup_insert. setoid_rewrite Hsnoc. case_decide as Ek.
    + split; [intros [= <-]; eauto 6|]. intros (c0 & [H0| ->] & Es & <-); [|done].
      destruct (Hne _ H0). congruence.
    + rewrite H6. naive_solver.
Qed.

(** The next row of the archive is free to be created. *)
Lemma next_code_free us done c todo ids w :
  code_rows m = (done ++ c :: todo)%list -> codes_inv us done ids w ->
  settled c /\ (forall c0, c0 ∈ done -> code_ID c0 <> code_ID c /\ ShortCode c0 <> ShortCode c)
  /\ codes w !! code_ID c = None /\ byCode w !! ShortCode c = None
  /\ (ClientRef c = "" \/ byRef w !! (code_UserID c, ClientRef c) = None).
Proof.
  intros E [Hw _ _ Hrows _ Hnames]. pose proof code_rows_ids as Hnd. rewrite E in Hnd.
  assert (Hin : forall x, x ∈ done \/ x = c -> x ∈ code_rows m).
  { intros x Hx. rewrite E, elem_of_app, elem_of_cons. tauto. }
  assert (Hdiff : forall c0, c0 ∈ done -> code_ID c0 <> code_ID c /\ ShortCode c0 <> ShortCode c).
  { intros c0 H0. assert (Hid : code_ID c0 <> code_ID c) by (intros Eid; by apply (fresh_key code_ID _ _ _ c0 Hnd)).
    split; [done|]. intros Es. apply Hid, names_once; auto. }
  split; [apply (ex_codes _ Hex (code_ID c)), elem_of_code_rows; auto|]. split; [done|].
  split; [|split].
  - destruct (codes w !! code_ID c) as [d|] eqn:Hd; [|done].
    apply Hrows in Hd as (c0 & H0 & E0 & _). by destruct (Hdiff c0 H0).
  - destruct (byCode w !! ShortCode c) as [id|] eqn:Hb; [|done].
    apply Hnames in Hb as (c0 & H0 & E0 & _). by destruct (Hdiff c0 H0).
  - destruct (decide (ClientRef c = "")) as [|Hne]; [by left|right].
    destruct (byRef w !! _) as [id|] eqn:Hr; [|done]. exfalso.
    apply (wf_byRef _ Hw) in Hr as (_ & d & Hd & Eu & Er). apply Hrows in Hd as (c0 & H0 & E0 & Hd).
    apply restored_id in Hd as (_ & _ & Eu' & Er' & _). destruct (Hdiff c0 H0) as [Hne0 _].
    apply Hne0. symmetry. apply refs_once; auto; congruence.
Qed.

Lemma import_code_step us done c todo ids :
  code_rows m = (done ++ c :: todo)%list -> Unmarshal (line_of c) = Some c ->
  runs (codes_inv us done ids) (import_code sc (line_of c) ids)
    (fun x w => exists ids', x = (Ok tt, ids') /\ codes_inv us (done ++ [c])%list ids' w).
Proof.
  intros E Hu. unfold import_code. rewrite Hu. apply runs_call_then; [done|].
  intros n w Hinv. pose proof Hinv as [Hw [(F1 & F2 & F3) F4] _ _ _ _].
  destruct (next_code_free _ _ _ _ _ _ E Hinv) as (Hset & Hdiff & Hid & Hk & Href).
  destruct (set_ids _ Hset) as (N1 & N2 & N3).
  set (env := sc_env sc n). set (row := set_code (Destination c) (if is_deleted c then CodeDisabled else State c)
    1 (UpdatedAt c) None c).
  pose proof (CreateCode_free env (imported_code c) w) as Ec.
  rewrite (set_lower _ Hset : ToLower (ShortCode (imported_code c)) = _), stored_imported in Ec by done.
  specialize (Ec (Hl n) N1 N2 N3 Hid Hk Hw Href). fold row in Ec.
  rewrite Ec. cbn [fst snd]. set (w1 := insert_row (time_Now env) row w).
  assert (Hw1 : wf_store w1) by by apply wf_insert_row.
  destruct (insert_row_rest (time_Now env) row w) as (R1 & _ & R2 & R3 & _ & R4).
  pose proof (insert_row_codes (time_Now env) row w) as Ecodes.
  pose proof (insert_row_byCode (time_Now env) row w) as Enames. fold w1 in R1, R2, R3, R4, Ecodes, Enames.
  destruct (String.eqb (State c) CodeDeleted) eqn:Ed.
  - apply runs_call_then; [done|]. intros n' w' <-. cbn [reflect_row code_ID code_UserID imported_code set_mode_state].
    assert (Erow : codes w1 !! code_ID c = Some row) by (rewrite Ecodes; apply lookup_insert_eq).
    pose proof (wf_DeleteCode (sc_env sc n') (code_ID c) (code_UserID c) w1 Hw1) as Hw2.
    rewrite (DeleteCode_live _ _ _ row) in Hw2 |- * by
      (done || apply Hl || (unfold row, is_deleted; by rewrite Ed)).
    cbn [fst snd] in *. apply runs_ret. intros w' <-. eexists. split; [done|].
    eapply (codes_inv_add us done ids w _ c); [done|done| | |done| |cbn [codes set_codes]; rewrite Ecodes; apply insert_insert_eq|done].
    + exact (conj (eq_trans R2 F1) (conj (eq_trans R3 F2) (eq_trans R1 F3))).
    + exact (eq_trans R4 F4).
    + unfold restored, is_deleted. rewrite Ed. eexists. unfold row, is_deleted. rewrite Ed.
      apply String.eqb_eq in Ed. by rewrite Ed.
  - apply runs_ret. intros w' <-. eexists. split; [done|].
    eapply (codes_inv_add us done ids w _ c); [done|done| | |done| |done|done].
    + exact (conj (eq_trans R2 F1) (conj (eq_trans R3 F2) (eq_trans R1 F3))).
    + exact (eq_trans R4 F4).
    + unfold restored, row, is_deleted. by rewrite Ed.
Qed.
(** *** Reservations *)
Section reservations.
Context (us : gmap string User) (ids : gset string) (w0 : memStore).
Context (H0 : codes_inv us (code_rows m) ids w0).

Definition named (k id : string) : Prop := exists c, c ∈ code_rows m /\ ShortCode c = k /\ code_ID c = id.
Definition released (done : list reservationRecord) (k : string) : Prop :=
  exists r, r ∈ done /\ rr_ShortCode r = k /\ rr_ReleasedAt r <> None.

Definition res_inv (done : list reservationRecord) (_ : unit) (w : memStore) : Prop :=
  wf_store w /\ frame us w /\ rollups w = ∅ /\ codes w = codes w0
  /\ forall k id, byCode w !! k = Some id <-> named k id /\ ~ released done k.

Lemma elem_of_reservation_rows r :
  r ∈ reservation_rows m <-> exists k v, reservations m !! k = Some v /\ r = reservation_row (k, v).
Proof.
  unfold reservation_rows. rewrite sort_Slice_Permutation, list_elem_of_fmap. split.
  - intros ([k v] & -> & H%elem_of_map_to_list). eauto.
  - intros (k & v & H%elem_of_map_to_list & ->). eauto.
Qed.

Lemma reservation_names : NoDup (rr_ShortCode <$> (reservation_record <$> reservation_rows m)).
Proof.
  unfold reservation_rows. rewrite sort_Slice_Permutation, <- !list_fmap_compose.
  apply NoDup_fst_map_to_list.
Qed.

(** A released reservation is of a deleted code. *)
Lemma released_owner k v :
  reservations m !! k = Some v -> res_releasedAt v <> None ->
  exists c, c ∈ code_rows m /\ code_ID c = res_codeID v /\ ShortCode c = k /\ is_deleted c = true.
Proof.
  intros Hv Hr. destruct (ex_owner _ Hex _ _ Hv) as (c & Hc & Hk).
  pose proof (wf_codes _ Hwf _ _ Hc) as Hid. exists c. split; [apply elem_of_code_rows; congruence|].
  do 2 (split; [done|]). destruct (is_deleted c) eqn:Hd; [done|]. exfalso.
  pose proof (wf_live _ Hwf _ _ Hc Hd) as Hb. rewrite (wf_index _ Hwf), Hk, Hv in Hb. simpl in Hb.
  unfold taken in Hb. by destruct (res_releasedAt v).
Qed.

Lemma import_reservation_step done r todo s :
  (reservation_record <$> reservation_rows m) = (done ++ r :: todo)%list -> Unmarshal (line_of r) = Some r ->
  runs (res_inv done s) (import_reservation sc ids (line_of r) s)
    (fun x w => exists s', x = (Ok tt, s') /\ res_inv (done ++ [r])%list s' w).
Proof.
  intros E Hu. unfold import_reservation. rewrite Hu.
  assert (Hr : r ∈ reservation_record <$> reservation_rows m).
  { rewrite E, elem_of_app. right. by left. }
  apply list_elem_of_fmap in Hr as (a & -> & (k & v & Hv & ->)%elem_of_reservation_rows).
  assert (Hrel : forall k0, released (done ++ [reservation_record (reservation_row (k, v))])%list k0
                            <-> released done k0 \/ k = k0 /\ res_releasedAt v <> None).
  { intros k0. unfold released. setoid_rewrite elem_of_app. setoid_rewrite list_elem_of_singleton.
    split; [intros (r0 & [Hr0| ->] & ? & ?); eauto|intros [(r0 & ? & ? & ?)|[? ?]]; [eauto 6|]].
    by exists (reservation_record (reservation_row (k, v))); auto. }
  cbn [reservation_record rr_ReleasedAt reservation_row ReleasedAt rr_CodeID ar_CodeID snd fst].
  destruct (decide (res_releasedAt v = None)) as [En|En].
  { rewrite bool_decide_eq_true_2 by done. cbn [orb]. apply runs_ret.
    intros w (Hw & Hf & Hro & Hc & Hn). exists tt. do 5 (split; [done|]). intros k0 id. rewrite Hn, Hrel. tauto. }
  destruct (released_owner k v Hv En) as (c & Hcr & Hid & Hk & Hd).
  rewrite bool_decide_eq_false_2 by done.
  rewrite bool_decide_eq_false_2 by (intros Hni; apply Hni, (ci_ids _ _ _ _ H0); eauto). cbn [orb].
  apply runs_call_then; [done|]. intros n w (Hw & Hf & Hro & Hc & Hn).
  change (rr_ShortCode (reservation_record (reservation_row (k, v)))) with k.
  assert (Hnot : ~ released done k).
  { intros (r0 & Hr0 & Es & _). pose proof reservation_names as Hnd. rewrite E in Hnd.
    exact (fresh_key rr_ShortCode _ _ _ r0 Hnd Hr0 Es). }
  assert (Hb : byCode w !! k = Some (code_ID c)) by (apply Hn; split; [by exists c|done]).
  destruct (ci_done _ _ _ _ H0 c Hcr) as (c' & Hc' & Hres). apply restored_id in Hres as (_ & _ & _ & _ & Hd').
  assert (Hlow : ToLower k = k).
  { rewrite <- Hk. apply set_lower, (ex_codes _ Hex (code_ID c)). by apply elem_of_code_rows. }
  pose proof (wf_ReleaseAlias (sc_env sc n) k w Hw) as Hw'.
  destruct (ReleaseAlias_deleted (sc_env sc n) k (code_ID c) c' w) as (r' & Er);
    [apply Hl|done|done|done|by rewrite Hc|congruence|]. rewrite Er in Hw' |- *. cbn [fst snd] in *.
  apply runs_ret. intros w' <-. exists tt. do 5 (split; [done|]). intros k0 id.
  cbn [byCode set_byCode]. rewrite lookup_delete, Hrel. case_decide as Ek; [|rewrite Hn; naive_solver].
  split; [done|]. intros [_ Hnr]. exfalso. apply Hnr. auto.
Qed.
(** After the last reservation the names are those of the exported store. *)
Lemma res_inv_names s w : res_inv (reservation_record <$> reservation_rows m) s w -> byCode w = byCode m.
Proof.
  intros (_ & _ & _ & _ & Hn). apply (map_eq (M := gmap string)). intros k. apply option_eq. intros id.
  rewrite Hn. split.
  - intros ((c & Hc%elem_of_code_rows & <- & <-) & Hnr); [|done].
    destruct (ex_once _ Hex _ _ Hc) as (v & Hv & Hid). rewrite (wf_index _ Hwf), Hv. simpl.
    destruct (taken v) eqn:Ht; [by rewrite Hid|]. exfalso. apply Hnr.
    exists (reservation_record (reservation_row (ShortCode c, v))). split.
    + apply list_elem_of_fmap_2, elem_of_reservation_rows. eauto.
    + split; [done|]. unfold taken in Ht. simpl. by destruct (res_releasedAt v).
  - intros Hb. destruct (wf_byCode _ Hwf _ _ Hb) as (c & Hc & Hk).
    pose proof (wf_codes _ Hwf _ _ Hc) as Hid. split.
    + exists c. split; [apply elem_of_code_rows; congruence|done].
    + intros (r & (a & -> & (k' & v & Hv & ->)%elem_of_reservation_rows)%list_elem_of_fmap & Es & Hr).
      simpl in Es, Hr. subst k'. rewrite (wf_index _ Hwf), Hv in Hb. simpl in Hb. unfold taken in Hb.
      by destruct (res_releasedAt v).
Qed.

(** *** Rollups *)
Definition add_delta (mm : gmap rollupKey Z) (r : RollupDelta) : gmap rollupKey Z :=
  bump (delta_key r) (rd_Count r) mm.
Definition deltas (l : list RollupDelta) : gmap rollupKey Z :=
  list_to_map ((fun r => (delta_key r, rd_Count r)) <$> l).

(** What is stored and what is still in the batch make up the rows read. *)
Definition roll_inv (done batch : list RollupDelta) (w : memStore) : Prop :=
  wf_store w /\ frame us w /\ codes w = codes w0 /\ byCode w = byCode m
  /\ (forall r, r ∈ batch -> r ∈ rollup_rows m) /\ foldl add_delta (rollups w) batch = deltas done.

Lemma elem_of_rollup_rows r :
  r ∈ rollup_rows m <-> exists k n, rollups m !! k = Some n /\ r = delta_of (k, n).
Proof.
  unfold rollup_rows. rewrite sort_Slice_Permutation, list_elem_of_fmap. split.
  - intros ([k n] & -> & H%elem_of_map_to_list). eauto.
  - intros (k & n & H%elem_of_map_to_list & ->). by exists (k, n).
Qed.

Lemma delta_key_of k n : rollups m !! k = Some n -> delta_key (delta_of (k, n)) = k.
Proof.
  intros (_ & _ & _ & Ht & _)%(ex_rollups _ Hex). unfold delta_key, delta_of. simpl. rewrite Ht. by destruct k.
Qed.

Lemma rollup_keys : NoDup (delta_key <$> rollup_rows m).
Proof.
  unfold rollup_rows. rewrite sort_Slice_Permutation, <- list_fmap_compose.
  replace ((delta_key ∘ delta_of) <$> map_to_list (rollups m)) with (map_to_list (rollups m)).*1;
    [apply NoDup_fst_map_to_list|].
  apply list_fmap_ext. intros i [k n] H%list_elem_of_lookup_2%elem_of_map_to_list. symmetry. by apply delta_key_of.
Qed.

Lemma check_rollups_ok w batch :
  codes w = codes w0 -> (forall r, r ∈ batch -> r ∈ rollup_rows m) -> check_rollups w batch = None.
Proof.
  intros Hc. induction batch as [|r batch IH]; intros Hb; [done|]. cbn [check_rollups].
  assert (Hr : r ∈ rollup_rows m) by (apply Hb; by left).
  apply elem_of_rollup_rows in Hr as (k & n & Hk & ->).
  destruct (ex_rollups _ Hex _ _ Hk) as ([c Hck] & Hd%String.eqb_neq & Hh%Z.eqb_neq & _).
  assert (Hcr : c ∈ code_rows m).
  { apply elem_of_code_rows; [done|]. by rewrite (wf_codes _ Hwf _ _ Hck). }
  destruct (ci_done _ _ _ _ H0 c Hcr) as (c' & Hc' & _). rewrite (wf_codes _ Hwf _ _ Hck), <- Hc in Hc'.
  cbn [delta_of rd_CodeID rd_Dimension HourBucket fst]. rewrite Hc'.
  rewrite bool_decide_eq_false_2 by done. unfold IsZero. rewrite Hd, Hh. apply IH.
  intros r Hr. apply Hb. by right.
Qed.

Lemma rollups_foldl batch w : rollups (foldl apply_delta w batch) = foldl add_delta (rollups w) batch.
Proof. revert w. induction batch as [|r batch IH]; intros w; [done|]. apply (IH (apply_delta w r)). Qed.

Lemma foldl_delta_rest batch w :
  frame us w -> codes (foldl apply_delta w batch) = codes w /\ byCode (foldl apply_delta w batch) = byCode w
  /\ frame us (foldl apply_delta w batch).
Proof.
  revert w. induction batch as [|r batch IH]; intros w Hf; [done|]. apply (IH (apply_delta w r) Hf).
Qed.

Lemma runs_flush done batch :
  runs (roll_inv done batch) (flush_rollups sc batch)
    (fun x w => x = (Ok tt, []) /\ roll_inv done [] w).
Proof.
  destruct batch as [|r batch]; [by apply runs_ret|].
  unfold flush_rollups. apply runs_call_then; [done|]. intros n w (Hw & Hf & Hc & Hb & Hin & Hs).
  unfold InsertScanBatch, with_ctx. rewrite Hl. cbn [check_events Events Rollups].
  rewrite check_rollups_ok by done. cbn [fst snd foldl]. apply runs_ret. intros w' <-. split; [done|].
  destruct (foldl_delta_rest (r :: batch) w Hf) as (E1 & E2 & E3).
  pose proof (rollups_foldl (r :: batch) w) as E4. cbn [foldl] in *.
  split; [by apply (wf_foldl_deltas (r :: batch))|]. split; [done|].
  split; [by rewrite E1|]. split; [by rewrite E2|]. split; [by intros ? ?%elem_of_nil|]. by rewrite E4.
Qed.

Lemma deltas_snoc done r todo :
  rollup_rows m = (done ++ r :: todo)%list -> add_delta (deltas done) r = deltas (done ++ [r])%list.
Proof.
  intros E. pose proof rollup_keys as Hnd. rewrite E in Hnd.
  assert (Hr : r ∈ rollup_rows m) by (rewrite E, elem_of_app; right; by left).
  apply elem_of_rollup_rows in Hr as (k & n & Hk & ->).
  destruct (ex_rollups _ Hex _ _ Hk) as (_ & _ & _ & _ & Hn).
  unfold deltas. rewrite fmap_app. cbn [fmap list_fmap].
  assert (Hni : delta_key (delta_of (k, n)) ∉ ((fun r => (delta_key r, rd_Count r)) <$> done).*1).
  { rewrite <- list_fmap_compose. intros (r0 & E0 & H1)%list_elem_of_fmap.
    by apply (fresh_key delta_key _ _ _ r0 Hnd). }
  assert (Hnone : deltas done !! delta_key (delta_of (k, n)) = None)
    by by apply not_elem_of_list_to_map_1.
  rewrite list_to_map_snoc by done. unfold add_delta, bump. fold (deltas done).
  rewrite Hnone. f_equal. unfold add64. simpl. by apply wrap64_id.
Qed.

Lemma import_rollup_step done r todo batch :
  rollup_rows m = (done ++ r :: todo)%list -> Unmarshal (line_of r) = Some r ->
  runs (roll_inv done batch) (import_rollup sc ids (line_of r) batch)
    (fun x w => exists batch', x = (Ok tt, batch') /\ roll_inv (done ++ [r])%list batch' w).
Proof.
  intros E Hu. unfold import_rollup. rewrite Hu.
  assert (Hr : r ∈ rollup_rows m) by (rewrite E, elem_of_app; right; by left).
  pose proof Hr as (k & n & Hk & Er)%elem_of_rollup_rows.
  destruct (ex_rollups _ Hex _ _ Hk) as ([c Hc] & _).
  rewrite bool_decide_eq_false_2.
  2:{ intros Hni. apply Hni, (ci_ids _ _ _ _ H0). pose proof (wf_codes _ Hwf _ _ Hc) as Hid.
      exists c. split; [apply elem_of_code_rows; congruence|]. by rewrite Er. }
  assert (Hstep : forall w, roll_inv done batch w -> roll_inv (done ++ [r])%list (batch ++ [r])%list w).
  { intros w (Hw & Hf & Hc0 & Hb & Hin & Hs). do 4 (split; [done|]). split.
    - intros r0. rewrite elem_of_app, list_elem_of_singleton. intros [| ->]; auto.
    - rewrite foldl_app, Hs. simpl. by apply (deltas_snoc _ _ todo). }
  case_bool_decide.
  - eapply runs_conseq; [apply (runs_flush (done ++ [r])%list)|apply Hstep|]. intros x w [-> Hw]. eauto.
  - apply runs_ret. intros w Hw. eexists. split; [done|]. by apply Hstep.
Qed.

Lemma deltas_all : deltas (rollup_rows m) = rollups m.
Proof.
  unfold deltas. rewrite <- (list_to_map_to_list (rollups m)). apply list_to_map_proper.
  - rewrite <- list_fmap_compose. apply rollup_keys.
  - unfold rollup_rows. rewrite sort_Slice_Permutation, <- list_fmap_compose.
    rewrite <- (list_fmap_id (map_to_list (rollups m))) at 2. apply reflexive_eq, list_fmap_ext.
    intros i [k n] H%list_elem_of_lookup_2%elem_of_map_to_list. simpl. by rewrite delta_key_of.
Qed.

Lemma runs_importRollups :
  (forall r, r ∈ rollup_rows m -> keepable r) ->
  runs (roll_inv [] []) (importRollups sc (jsonl (line_of <$> rollup_rows m)) ids)
    (fun x w => x = Ok tt /\ wf_store w /\ frame us w /\ codes w = codes w0 /\ byCode w = byCode m
                /\ rollups w = rollups m).
Proof.
  intros Hk. unfold importRollups. eapply runs_bind.
  - apply (runs_drainJSONL _ roll_inv); [by apply Forall_forall|].
    intros done r todo batch. apply import_rollup_step.
  - intros x n w (batch & -> & Hinv). eapply (runs_bind _ _ _ _ _ (runs_flush _ batch)); [|exact Hinv].
    intros y n' w' (-> & Hw & Hf & Hc & Hb & _ & Hs). cbn. do 5 (split; [done|]).
    rewrite <- deltas_all. apply Hs.
Qed.
End reservations.
(** *** The whole archive *)
Section archive.
Context (DM : string -> option Manifest).

Lemma runs_cons e es st P P' Q :
  runs P (read_entry DM sc e st) (fun x w => exists st', x = Ok st' /\ P' st' w) ->
  (forall st', runs (P' st') (read_entries DM sc es st') Q) ->
  runs P (read_entries DM sc (e :: es) st) Q.
Proof.
  intros He Hes. cbn [read_entries]. eapply runs_bind; [exact He|].
  intros x n w (st' & -> & Hw). by apply (Hes st' n w).
Qed.

Lemma runs_cons_to e es st st' P (P' : memStore -> Prop) Q :
  runs P (read_entry DM sc e st) (fun x w => exists st0, x = Ok st0 /\ st0 = st' /\ P' w) ->
  runs P' (read_entries DM sc es st') Q ->
  runs P (read_entries DM sc (e :: es) st) Q.
Proof.
  intros He Hes. apply (runs_cons _ _ _ _ (fun st0 w => st0 = st' /\ P' w) _ He).
  intros st0 n w [-> Hw]. by apply (Hes n w).
Qed.

Lemma entry_manifest body man ids :
  DM body = Some man -> mf_Version man = FormatVersion ->
  read_entry DM sc (fileManifest, body) (false, ids) = mret (Ok (true, ids)).
Proof.
  intros HD Hv. unfold read_entry, read_manifest. by rewrite String.eqb_refl, HD, Hv, String.eqb_refl.
Qed.

Lemma entry_users b ids P Q :
  runs P (importUsers sc b) (fun x w => x = Ok tt /\ Q w) ->
  runs P (read_entry DM sc (fileUsers, b) (true, ids)) (fun x w => exists st', x = Ok st' /\ st' = (true, ids) /\ Q w).
Proof.
  intros Ha. change (read_entry DM sc (fileUsers, b) (true, ids))
    with (r ← importUsers sc b; (mret (res_bind r (fun _ => Ok (true, ids))) : Act memStore (result (bool * gset string)))).
  eapply runs_bind; [exact Ha|]. intros x n w [-> Hw]. cbn. eauto.
Qed.

Lemma entry_tokens b ids P :
  runs P (skip_tokens b) (fun x w => x = Ok tt /\ P w) ->
  runs P (read_entry DM sc (fileTokens, b) (true, ids)) (fun x w => exists st', x = Ok st' /\ st' = (true, ids) /\ P w).
Proof.
  intros Ha. change (read_entry DM sc (fileTokens, b) (true, ids))
    with (r ← skip_tokens b; (mret (res_bind r (fun _ => Ok (true, ids))) : Act memStore (result (bool * gset string)))).
  eapply runs_bind; [exact Ha|]. intros x n w [-> Hw]. cbn. eauto.
Qed.

Lemma entry_codes b ids P (Q : gset string -> memStore -> Prop) :
  runs P (importCodes sc b ids) (fun x w => exists ids', x = (Ok tt, ids') /\ Q ids' w) ->
  runs P (read_entry DM sc (fileCodes, b) (true, ids))
    (fun x w => exists st', x = Ok st' /\ st'.1 = true /\ Q st'.2 w).
Proof.
  intros Ha. change (read_entry DM sc (fileCodes, b) (true, ids))
    with (rs ← importCodes sc b ids;
          (mret (res_bind rs.1 (fun _ => Ok (true, rs.2))) : Act memStore (result (bool * gset string)))).
  eapply runs_bind; [exact Ha|]. intros x n w (ids' & -> & Hw). cbn. eexists. by split.
Qed.

Lemma entry_reservations b ids P (Q : memStore -> Prop) :
  runs P (importReservations sc b ids) (fun x w => x = Ok tt /\ Q w) ->
  runs P (read_entry DM sc (fileReservations, b) (true, ids))
    (fun x w => exists st', x = Ok st' /\ st' = (true, ids) /\ Q w).
Proof.
  intros Ha. change (read_entry DM sc (fileReservations, b) (true, ids))
    with (r ← importReservations sc b ids;
          (mret (res_bind r (fun _ => Ok (true, ids))) : Act memStore (result (bool * gset string)))).
  eapply runs_bind; [exact Ha|]. intros x n w [-> Hw]. cbn. eauto.
Qed.

Lemma entry_rollups b ids P (Q : memStore -> Prop) :
  runs P (importRollups sc b ids) (fun x w => x = Ok tt /\ Q w) ->
  runs P (read_entry DM sc (fileRollups, b) (true, ids))
    (fun x w => exists st', x = Ok st' /\ st' = (true, ids) /\ Q w).
Proof.
  intros Ha. change (read_entry DM sc (fileRollups, b) (true, ids))
    with (r ← importRollups sc b ids;
          (mret (res_bind r (fun _ => Ok (true, ids))) : Act memStore (result (bool * gset string)))).
  eapply runs_bind; [exact Ha|]. intros x n w [-> Hw]. cbn. eauto.
Qed.

Lemma runs_skip_tokens (P : memStore -> Prop) :
  (forall u, u ∈ user_rows m -> Forall keepable (token_record <$> tokens_of m u)) ->
  runs P (skip_tokens (jsonl (line_of <$> token_rows m))) (fun x w => x = Ok tt /\ P w).
Proof.
  intros Hk. unfold skip_tokens. eapply runs_bind.
  - apply (runs_drainJSONL _ (fun _ (_ : unit) => P)).
    + unfold token_rows. apply Forall_concat, Forall_fmap, Forall_forall. intros u. apply Hk.
    + intros done r todo [] _ _. apply runs_ret. intros w Hw. by exists tt.
  - intros x n w (s' & -> & Hw). by split.
Qed.

Lemma runs_importReservations us ids w0 :
  codes_inv us (code_rows m) ids w0 -> (forall r, r ∈ reservation_rows m -> keepable (reservation_record r)) ->
  runs (eq w0) (importReservations sc (jsonl (line_of <$> (reservation_record <$> reservation_rows m))) ids)
    (fun x w => x = Ok tt /\ roll_inv us w0 [] [] w).
Proof.
  intros Hc Hk. unfold importReservations. eapply runs_bind.
  - eapply runs_conseq.
    + apply (runs_drainJSONL _ (res_inv us w0)); [by apply Forall_fmap, Forall_forall|].
      intros done r todo s. by apply import_reservation_step.
    + intros w <-. destruct Hc as [H1 [H2 H3] _ _ _ H6]. do 4 (split; [done|]). intros k id. rewrite H6.
      unfold named. split; [|by intros []]. intros H. split; [done|].
      by intros (r & ?%elem_of_nil & _).
    + done.
  - intros x n w (s' & -> & Hw & Hf & Hr & Hcd & Hn). cbn. split; [done|]. do 3 (split; [done|]).
    split; [by apply (res_inv_names us w0 s')|]. split; [by intros r ?%elem_of_nil|]. by rewrite Hr.
Qed.

Lemma imported_by us ids w0 w :
  us = strip_user <$> users m -> codes_inv us (code_rows m) ids w0 ->
  wf_store w -> frame us w -> codes w = codes w0 -> byCode w = byCode m -> rollups w = rollups m ->
  imported m w.
Proof.
  intros -> Hc Hw (F1 & F2 & F3) Ec Eb Er. split; [done|done| |done|done|done].
  intros id. rewrite Ec. destruct (codes m !! id) as [c|] eqn:Hid.
  - pose proof (wf_codes _ Hwf _ _ Hid) as <-.
    destruct (ci_done _ _ _ _ Hc c) as (c' & Hc' & Hr); [by apply elem_of_code_rows|]. by rewrite Hc'.
  - destruct (codes w0 !! id) as [c'|] eqn:Hid'; [|done].
    apply (ci_rows _ _ _ _ Hc) in Hid' as (c & Hin%elem_of_code_rows & Hi & _); [|done]. congruence.
Qed.

Lemma runs_archive_rows :
  keepable_store m ->
  runs (eq NewMemStore) (read_entries DM sc (archive_rows m) (true, ∅))
    (fun x w => exists ids, x = Ok (true, ids) /\ imported m w).
Proof.
  intros [Hku Hkt Hkc Hkr Hkl]. set (us := strip_user <$> users m).
  eapply runs_cons_to; [apply entry_users, runs_importUsers, Hku|].
  eapply runs_cons_to; [by apply entry_tokens, runs_skip_tokens|].
  eapply (runs_cons _ _ _ _ (fun st w => st.1 = true /\ codes_inv us (code_rows m) st.2 w)).
  { apply entry_codes. eapply runs_conseq.
    - apply (runs_drainJSONL _ (codes_inv us)); [by apply Forall_forall|].
      intros done c todo ids. apply import_code_step.
    - intros w (Hw & (E1 & E2 & E3 & E4 & E5) & Eu). split; [done|by repeat split| | | |].
      + intros id. split; [by intros ?%elem_of_empty|]. by intros (c & ?%elem_of_nil & _).
      + intros id c'. by rewrite E2, lookup_empty.
      + by intros c ?%elem_of_nil.
      + intros k id. rewrite E3, lookup_empty. split; [done|]. by intros (c & ?%elem_of_nil & _).
    - done. }
  intros [seen ids]. apply runs_from. intros w0 [Hs Hc]. cbn [fst snd] in Hs, Hc. subst seen.
  eapply runs_cons_to; [apply entry_reservations; by apply (runs_importReservations us)|].
  eapply runs_cons_to; [apply entry_rollups; by apply (runs_importRollups us ids w0)|].
  apply runs_ret. intros w (Hw & Hf & Ec & Eb & Er). exists ids. split; [done|]. by apply (imported_by us ids w0).
Qed.

Lemma runs_Read man body :
  keepable_store m -> DM body = Some man -> mf_Version man = FormatVersion ->
  runs (eq NewMemStore)
    (Read DM sc {| ts_entries := (fileManifest, body) :: archive_rows m; ts_err := None |} false)
    (fun x w => x = Ok tt /\ imported m w).
Proof.
  intros Hk HD Hv. unfold Read. apply runs_call_then; [done|]. intros n w <-.
  unfold CountUsers, read_ctx. rewrite Hl. cbn [fst snd]. unfold read_archive. cbn [ts_entries ts_err].
  eapply (runs_bind _ _ _ (fun x w => exists ids, x = Ok (true, ids) /\ imported m w)).
  - eapply runs_cons_to; [|by apply runs_archive_rows].
    rewrite (entry_manifest body man) by done. apply runs_ret. intros w <-. eauto.
  - intros x n' w (ids & -> & Hi). by cbn.
Qed.
End archive.
End phases.
End import.

(** ** The property *)
Definition fits {R} `{Json R} (r : R) : Prop := forall line, Marshal r = Some line -> len line < maxToken.

Lemma json_keepable {R} (ok : R -> Prop) `{JsonOk R ok} r : ok r -> fits r -> keepable r.
Proof. intros (line & E & Eu & Hg)%marshal_ok Hf. exists line. auto. Qed.

(** Every row of the store is one JSON keeps, on a line the scanner takes. *)
Record json_store `{!Json userRecord, !Json tokenRecord, !Json Code, !Json reservationRecord, !Json RollupDelta}
    (m : memStore) : Prop := {
  js_users id u : users m !! id = Some u -> json_user (user_record u) /\ fits (user_record u);
  js_tokens id t : tokens m !! id = Some t -> json_token (token_record t) /\ fits (token_record t);
  js_codes id c : codes m !! id = Some c -> json_code c /\ fits c;
  js_reservations k v : reservations m !! k = Some v ->
    let r := reservation_record (reservation_row (k, v)) in json_reservation r /\ fits r;
  js_rollups k n : rollups m !! k = Some n -> json_rollup (delta_of (k, n)) /\ fits (delta_of (k, n));
}.

Section roundtrip.
Context `{U : UnicodeTable}.
Context `{Ju : !Json userRecord, Jt : !Json tokenRecord, Jc : !Json Code, Jr : !Json reservationRecord,
          Jl : !Json RollupDelta}.
Context `{!JsonOk userRecord json_user, !JsonOk tokenRecord json_token, !JsonOk Code json_code,
          !JsonOk reservationRecord json_reservation, !JsonOk RollupDelta json_rollup}.

Lemma json_keepable_store m : wf_store m -> json_store m -> keepable_store m.
Proof.
  intros Hwf [Hu Ht Hc Hr Hl]. split.
  - intros u Hin%elem_of_user_rows; [|done]. destruct (Hu _ _ Hin). by apply (json_keepable json_user).
  - intros u _. apply Forall_fmap, Forall_forall. intros t.
    unfold tokens_of. rewrite sort_Slice_Permutation, list_elem_of_filter, elem_of_values.
    intros [_ [id Hid]]. destruct (Ht _ _ Hid). by apply (json_keepable json_token).
  - intros c Hin%elem_of_code_rows; [|done]. destruct (Hc _ _ Hin). by apply (json_keepable json_code).
  - intros r (k & v & Hv & ->)%elem_of_reservation_rows. destruct (Hr _ _ Hv).
    by apply (json_keepable json_reservation).
  - intros r (k & n & Hk & ->)%elem_of_rollup_rows. destruct (Hl _ _ Hk). by apply (json_keepable json_rollup).
Qed.

(** C30: export then import. Take a store in which every name was used once
    and every text is one JSON keeps (valid UTF-8: [encoding/json] replaces
    other bytes), on rows the importer's scanner takes. When nothing fails, no
    context ends and nobody else writes, exporting it succeeds, and importing
    the archive into an empty store succeeds and gives a well-formed store with the same users (without their password
    hashes), the same codes (identity, destination, state, styling and image;
    a deleted code is deleted again), exactly the same resolvable short codes
    (so a name that was free is free) and the same rollups, and neither tokens
    nor raw scans. *)
Theorem export_import_roundtrip (MI : Manifest -> option string) (DM : string -> option Manifest)
    (sc sc' : Sched memStore) (n n' : nat) (m : memStore)
    (Hman : forall man, exists body man', MI man = Some body /\ DM body = Some man'
                                          /\ mf_Version man' = mf_Version man)
    (Hq : quiet sc) (Hl : live sc) (Hq' : quiet sc') (Hl' : live sc')
    (Hex : exportable m) (Hj : json_store m) :
  exists entries n'' m',
    (Write MI sc no_faults (n, m)).1 = (Ok tt, entries)
    /\ Read DM sc' {| ts_entries := entries; ts_err := None |} false (n', NewMemStore) = (Ok tt, (n'', m'))
    /\ imported m m'.
Proof.
  pose proof (json_keepable_store m (ex_wf _ Hex) Hj) as Hk.
  assert (HM : forall man, is_Some (MI man)).
  { intros man. destruct (Hman man) as (body & _ & -> & _). by exists body. }
  pose proof (runs_Write sc Hq Hl m MI Hk HM n m eq_refl) as HW.
  destruct (Write MI sc no_faults (n, m)) as [x [n1 w1]].
  destruct HW as (man & body & Eb & Ev & ->). destruct (Hman man) as (body' & man' & Eb' & Ed & Ev').
  rewrite Eb in Eb'. injection Eb' as <-. rewrite Ev in Ev'.
  pose proof (runs_Read sc' Hq' Hl' m Hex DM man' body Hk Ed Ev' n' NewMemStore eq_refl) as HR.
  destruct (Read DM sc' _ false (n', NewMemStore)) as [y [n2 m']] eqn:ER. destruct HR as [-> Him].
  by exists ((fileManifest, body) :: archive_rows m), n2, m'.
Qed.
End roundtrip.

(** ** A store that satisfies the hypotheses *)

(** Checking every entry of a computed map. *)
Lemma map_entries {K V} `{Countable K} (P : K -> V -> Prop) (mm : gmap K V) :
  Forall (fun p => P p.1 p.2) (map_to_list mm) -> forall k v, mm !! k = Some v -> P k v.
Proof. rewrite Forall_forall. intros Hf k v Hk%elem_of_map_to_list. by apply (Hf (k, v)). Qed.

Ltac by_entries :=
  match goal with
  | |- forall k v, ?mm !! k = Some v -> @?P k v =>
      apply (map_entries P mm);
      let l := eval vm_compute in (map_to_list mm) in
      replace (map_to_list mm) with l by (vm_compute; reflexivity)
  end; repeat (apply Forall_cons_2 || apply Forall_nil_2).

Ltac in_range := vm_compute; split; [discriminate|reflexivity].

Ltac json_row :=
  lazymatch goal with
  | |- _ /\ _ => split; json_row
  | |- Forall _ (_ :: _) => apply Forall_cons_2; json_row
  | |- Forall _ [] => apply Forall_nil_2
  | |- valid_utf8 _ => vm_compute; reflexivity
  | |- int64_ok _ => in_range
  | |- json_time _ => in_range
  | |- json_opt_time _ => vm_compute; first [exact I | split; [discriminate|reflexivity]]
  | |- is_finite _ => vm_compute; exact I
  | |- fits _ =>
      let H := fresh in intros ? H; vm_compute in H; injection H as <-; vm_compute; reflexivity
  end.

Lemma carried_wf : wf_store carried_store.
Proof. apply wf_run, wf_NewMemStore. Qed.

Lemma carried_exportable : exportable carried_store.
Proof.
  split.
  - apply carried_wf.
  - intros u Hu%elem_of_user_rows; [|apply carried_wf].
    refine ((_ : forall k v, users carried_store !! k = Some v -> _) _ _ Hu). by_entries. done.
  - by_entries; split; done.
  - by_entries; eexists; (split; [vm_compute; reflexivity|reflexivity]).
  - by_entries; eexists; (split; [vm_compute; reflexivity|reflexivity]).
  - by_entries. split; [eexists; vm_compute; reflexivity|]. do 2 (split; [done|]).
    split; [vm_compute; reflexivity|]. unfold int64_ok. cbn. lia.
Qed.

Lemma carried_json : json_store carried_store.
Proof.
  split; by_entries; (split; [|json_row]); cbv [fst snd];
    unfold json_user, json_code, json_styling, json_reservation, json_rollup; json_row.
Qed.

Definition manifest_codec_ok (man : Manifest) :
  exists body man', manifest_indent man = Some body /\ manifest_decode body = Some man'
                    /\ mf_Version man' = mf_Version man.
Proof.
  exists (join_fields [mf_Version man; z_field (ExportedAt man)]).
  exists {| mf_Version := mf_Version man; ExportedAt := field_z (z_field (ExportedAt man)); Entities := ∅ |}.
  split; [done|]. split; [|done]. unfold manifest_decode. by rewrite split_join.
Qed.

Lemma export_import_roundtrip_witness :
  exists entries n'' m',
    (Write manifest_indent alone no_faults (0%nat, carried_store)).1 = (Ok tt, entries)
    /\ Read manifest_decode alone {| ts_entries := entries; ts_err := None |} false (0%nat, NewMemStore)
       = (Ok tt, (n'', m'))
    /\ imported carried_store m'.
Proof.
  exact (export_import_roundtrip manifest_indent manifest_decode alone alone 0 0 carried_store
    manifest_codec_ok (fun _ _ => eq_refl) (fun _ => eq_refl) (fun _ _ => eq_refl) (fun _ => eq_refl)
    carried_exportable carried_json).
Defined.
