(* ===== verification/Secret.v ===== *)
(** * The signing secret ([internal/auth/secret.go])

    A server without a configured secret loads one from a file of its data
    directory, or generates and stores one.  Several servers may start on the
    same directory at once, so a load is a sequence of system calls on a shared
    file system, and several of them interleave.

    The file system is what the calls can see: the directory entry of the
    path, and the contents of files by inode.  A call may also fail for reasons
    of its own ([fault]); [rand.Read] does not fail. *)
From Stdlib Require Import Ascii String.
From S2P Require Import GoLib Act Domain Base64 MemStore Concrete JsonRows.
Local Open Scope string_scope.
Local Open Scope Z_scope.

Definition SigningKeyFile : string := "signing.key".
Definition signingSecretBytes : nat := 32.
Definition signingSecretHint : string :=
  " (set QURATOR_AUTH_SIGNING_SECRET to supply a secret directly, or QURATOR_SERVER_DATA_DIR to move the key file)".

(** ** The file system at one path *)
Inductive node :=
| Regular (inode : nat) (mode : Z)
| Directory (mode : Z)
| Dangling.                          (* a symbolic link to nothing *)

Record FS := { fs_entry : option node; fs_data : gmap nat string; fs_next : nat }.

Definition os_ReadFile (fs : FS) : os_result string :=
  match fs_entry fs with
  | None | Some Dangling => NotExist
  | Some (Directory _) => OtherErr (NewErr "is a directory")
  | Some (Regular i _) => Done (default "" (fs_data fs !! i))
  end.

(** [O_CREATE|O_EXCL]: fails on anything at the path, a dangling link
    included. *)
Definition os_OpenExcl (mode : Z) (fs : FS) : os_result nat * FS :=
  match fs_entry fs with
  | Some _ => (Exist, fs)
  | None =>
      (Done (fs_next fs),
       {| fs_entry := Some (Regular (fs_next fs) mode); fs_data := <[fs_next fs := ""]> (fs_data fs);
          fs_next := S (fs_next fs) |})
  end.

Definition os_WriteString (i : nat) (s : string) (fs : FS) : FS :=
  {| fs_entry := fs_entry fs; fs_data := <[i := default "" (fs_data fs !! i) +:+ s]> (fs_data fs);
     fs_next := fs_next fs |}.

Definition os_Remove (fs : FS) : FS :=
  {| fs_entry := match fs_entry fs with Some (Directory m) => Some (Directory m) | _ => None end;
     fs_data := fs_data fs; fs_next := fs_next fs |}.

(** ** [LoadOrCreateSigningSecret] *)

(** Where a load is: the system call it makes next. *)
Inductive pc :=
| AtRead
| AtMkdir
| AtRand
| AtOpen (encoded : string)
| AtWrite (i : nat) (encoded : string)
| AtClose (i : nat) (encoded : string)
| AtRemove (e : error)
| Returned (r : result (string * bool)).

(** One turn: the random bytes, whether the call fails, and how much a failed
    write wrote. *)
Record turn := { t_rand : nat -> ascii; t_fault : option error; t_written : nat }.
Definition calm (rand : nat -> ascii) : turn := {| t_rand := rand; t_fault := None; t_written := 0 |}.

Definition start (path : string) : pc :=
  if String.eqb path "" then Returned (Err (NewErr "auth: signing secret file path is empty"))
  else AtRead.

Definition load_step (t : turn) (p : pc) (fs : FS) : pc * FS :=
  match p with
  | AtRead =>
      match t_fault t with
      | Some e => (Returned (Err (Wrap "auth: read signing secret file" e)), fs)
      | None =>
          match os_ReadFile fs with
          | Done raw =>
              let s := TrimSpace raw in
              if String.eqb s ""
              then (Returned (Err (NewErr "auth: signing secret file is empty; delete it to generate a new one")), fs)
              else (Returned (Ok (s, false)), fs)
          | NotExist => (AtMkdir, fs)
          | Exist => (Returned (Err (NewErr "auth: read signing secret file")), fs)
          | OtherErr e => (Returned (Err (Wrap "auth: read signing secret file" e)), fs)
          end
      end
  | AtMkdir =>
      match t_fault t with
      | Some e => (Returned (Err (Wrap "auth: create data dir for signing secret" e)), fs)
      | None => (AtRand, fs)
      end
  | AtRand =>
      (AtOpen (EncodeToString alphabet_url (t_rand t <$> seq 0 signingSecretBytes)), fs)
  | AtOpen encoded =>
      match t_fault t with
      | Some e => (Returned (Err (Wrap "auth: create signing secret file" e)), fs)
      | None =>
          match os_OpenExcl 384 fs with                                       (* 0o600 *)
          | (Done i, fs') => (AtWrite i encoded, fs')
          | (Exist, fs') => (AtRead, fs')
          | (NotExist, fs') => (Returned (Err (NewErr "auth: create signing secret file")), fs')
          | (OtherErr e, fs') => (Returned (Err (Wrap "auth: create signing secret file" e)), fs')
          end
      end
  | AtWrite i encoded =>
      match t_fault t with
      | Some e =>
          (AtRemove (Wrap "auth: write signing secret file" e),
           os_WriteString i (take_bytes (t_written t) (encoded +:+ String "010" "")) fs)
      | None => (AtClose i encoded, os_WriteString i (encoded +:+ String "010" "") fs)
      end
  | AtClose i encoded =>
      match t_fault t with
      | Some e => (AtRemove (Wrap "auth: write signing secret file" e), fs)
      | None => (Returned (Ok (encoded, true)), fs)
      end
  | AtRemove e =>
      (Returned (Err e), match t_fault t with Some _ => fs | None => os_Remove fs end)
  | Returned _ => (p, fs)
  end.

Definition finished (p : pc) : bool := match p with Returned _ => true | _ => false end.

(** One load running alone, for [n] calls. *)
Fixpoint load_alone (n : nat) (turns : nat -> turn) (p : pc) (fs : FS) : pc * FS :=
  match n with
  | O => (p, fs)
  | S n' => let '(p', fs') := load_step (turns O) p fs in load_alone n' (fun i => turns (S i)) p' fs'
  end.

(** Several loads on one data directory. *)
Record system := { sys_fs : FS; sys_loads : list pc }.

Definition sys_step (i : nat) (t : turn) (s : system) : option system :=
  match sys_loads s !! i with
  | None => None
  | Some p => let '(p', fs') := load_step t p (sys_fs s) in
              Some {| sys_fs := fs'; sys_loads := <[i := p']> (sys_loads s) |}
  end.

(** Nothing written fails: faults may hit any call but the write and the close
    of the new file. *)
Definition writes_work (t : turn) (p : pc) : Prop :=
  match p with AtWrite _ _ | AtClose _ _ => t_fault t = None | _ => True end.

Inductive sys_run (s0 : system) : system -> Prop :=
| run_start : sys_run s0 s0
| run_next s i t s' :
    sys_run s0 s -> (forall p, sys_loads s !! i = Some p -> writes_work t p) ->
    sys_step i t s = Some s' -> sys_run s0 s'.

(** ** [SigningSecretFilePermissive] *)
Definition SigningSecretFilePermissive (fs : FS) : bool :=
  match fs_entry fs with
  | Some (Regular _ mode) | Some (Directory mode) => negb (Z.land mode 63 =? 0)
  | _ => false
  end.
