(* ===== verification/SecretProps.v ===== *)
(** * The signing secret: agreement, termination, and two defects *)
From Stdlib Require Import Ascii String.
From S2P Require Import GoLib Act Domain Base64 MemStore Concrete JsonRows Secret.
Local Open Scope string_scope.
Local Open Scope Z_scope.

(** ** Generated secrets *)
Definition good_secret (s : string) : Prop := s <> "" /\ TrimSpace (s +:+ String "010" "") = s.

Lemma letter_graph c : letter c = true -> is_graph c = true.
Proof.
  destruct c as [[] [] [] [] [] [] [] []]; vm_compute; congruence.
Qed.

Lemma generated_good rand :
  good_secret (EncodeToString alphabet_url (rand <$> seq 0 signingSecretBytes)).
Proof.
  set (l := rand <$> seq 0 signingSecretBytes).
  assert (Hl : String.length (EncodeToString alphabet_url l) = 43%nat).
  { rewrite EncodeToString_length. unfold l. by rewrite length_fmap, length_seq. }
  assert (Hne : EncodeToString alphabet_url l <> "") by (intros E; by rewrite E in Hl).
  split; [done|]. apply TrimSpace_graph_line; [|done].
  apply (string_forall_impl letter); [apply letter_graph|apply encode_letters].
Qed.

(** ** Agreement *)
Definition creator (p : pc) : bool :=
  match p with AtWrite _ _ | AtClose _ _ | Returned (Ok (_, true)) => true | _ => false end.

(** What a load may be doing when the path is absent, or is the file [i] with
    contents [c]. *)
Definition pc_absent (p : pc) : Prop :=
  match p with
  | AtOpen e => good_secret e
  | AtWrite _ _ | AtClose _ _ | AtRemove _ | Returned (Ok _) => False
  | _ => True
  end.
Definition pc_present (i : nat) (c : string) (p : pc) : Prop :=
  match p with
  | AtOpen e => good_secret e
  | AtWrite j e => j = i /\ c = "" /\ good_secret e
  | AtClose j e => j = i /\ c = e +:+ String "010" "" /\ good_secret e
  | Returned (Ok (s, _)) => s = TrimSpace c /\ s <> ""
  | AtRemove _ => False
  | _ => True
  end.

Definition fs_inv (fs : FS) (ps : list pc) : Prop :=
  match fs_entry fs with
  | None => Forall pc_absent ps
  | Some (Regular i _) => exists c, fs_data fs !! i = Some c /\ Forall (pc_present i c) ps
  | _ => False
  end.

Record sys_inv (s : system) : Prop := {
  si_fs : fs_inv (sys_fs s) (sys_loads s);
  si_creator a b p q : sys_loads s !! a = Some p -> sys_loads s !! b = Some q ->
    creator p = true -> creator q = true -> a = b;
}.

Lemma absent_present i c p : pc_absent p -> pc_present i c p.
Proof. destruct p as [| | | | | | |[[s b]|e]]; simpl; tauto. Qed.

Lemma absent_not_creator p : pc_absent p -> creator p = false.
Proof. destruct p as [| | | | | | |[[s []]|e]]; simpl; tauto. Qed.

(** One call of one load keeps the invariant. *)
Lemma step_absent t p fs ps i :
  fs_entry fs = None -> Forall pc_absent ps -> ps !! i = Some p -> writes_work t p ->
  fs_inv (load_step t p fs).2 (<[i := (load_step t p fs).1]> ps).
Proof.
  intros He Hps Hp Hw. pose proof (Forall_lookup_1 _ _ _ _ Hps Hp) as Ha.
  assert (Hkeep : forall p', pc_absent p' -> fs_inv fs (<[i := p']> ps)).
  { intros p' H. unfold fs_inv. rewrite He. by apply Forall_insert. }
  destruct p as [| | |e|j e|j e|e|[[s b]|e]]; simpl in *; try done;
    destruct (t_fault t); try (by apply Hkeep).
  - unfold os_ReadFile. rewrite He. by apply Hkeep.
  - apply Hkeep, generated_good.
  - apply Hkeep, generated_good.
  - unfold os_OpenExcl. rewrite He. simpl. unfold fs_inv. simpl. exists "".
    rewrite lookup_insert_eq. split; [done|]. apply Forall_insert; [|done].
    eapply Forall_impl; [done|]. apply absent_present.
Qed.

Lemma step_present t p fs ps i j m c :
  fs_entry fs = Some (Regular j m) -> fs_data fs !! j = Some c -> Forall (pc_present j c) ps ->
  (forall k q, ps !! k = Some q -> creator p = true -> creator q = true -> k = i) ->
  ps !! i = Some p -> writes_work t p ->
  fs_inv (load_step t p fs).2 (<[i := (load_step t p fs).1]> ps).
Proof.
  intros He Hc Hps Huniq Hp Hw. pose proof (Forall_lookup_1 _ _ _ _ Hps Hp) as Ha.
  assert (Hkeep : forall p', pc_present j c p' -> fs_inv fs (<[i := p']> ps)).
  { intros p' H. unfold fs_inv. rewrite He. exists c. split; [done|]. by apply Forall_insert. }
  destruct p as [| | |e|k e|k e|e|[[s b]|e]]; simpl in *; try done;
    try (destruct (t_fault t); try discriminate; try (by apply Hkeep)); try (by apply Hkeep).
  - unfold os_ReadFile. rewrite He, Hc. simpl. destruct (String.eqb_spec (TrimSpace c) ""); by apply Hkeep.
  - apply Hkeep, generated_good.
  - apply Hkeep, generated_good.
  - unfold os_OpenExcl. rewrite He. by apply Hkeep.
  - destruct Ha as (-> & -> & Hg). unfold fs_inv, os_WriteString. simpl. rewrite He, Hc. simpl.
    exists (e +:+ String "010" ""). rewrite lookup_insert_eq. split; [done|].
    apply Forall_lookup_2. intros k q. rewrite list_lookup_insert_Some.
    intros [(<- & <- & _)|[Hne Hq]]; [done|].
    pose proof (Forall_lookup_1 _ _ _ _ Hps Hq) as Hq'.
    assert (Hn : creator q = false).
    { destruct (creator q) eqn:E; [|done]. destruct Hne. symmetry. by apply (Huniq k q Hq). }
    destruct q as [| | |e'|k' e'|k' e'|e'|[[s []]|e']]; simpl in *; try done; by destruct Hq' as [-> []].
  - destruct Ha as (-> & -> & Hg1 & Hg2). apply Hkeep. simpl. by rewrite Hg2.
Qed.

Lemma step_creator t p fs :
  creator (load_step t p fs).1 = true ->
  creator p = true \/ (exists e, p = AtOpen e) /\ fs_entry fs = None.
Proof.
  destruct p as [| | |e|k e|k e|e|[[s b]|e]]; simpl; try (destruct (t_fault t)); auto; try done.
  - unfold os_ReadFile. destruct (fs_entry fs) as [[|d|]|]; simpl; try done. by case_match.
  - unfold os_OpenExcl. destruct (fs_entry fs); simpl; [done|]. eauto.
Qed.

Lemma sys_inv_step s i t s' :
  sys_inv s -> (forall p, sys_loads s !! i = Some p -> writes_work t p) ->
  sys_step i t s = Some s' -> sys_inv s'.
Proof.
  intros [Hfs Hcr] Hw Hs. unfold sys_step in Hs. destruct (sys_loads s !! i) as [p|] eqn:Hp; [|done].
  specialize (Hw p eq_refl).
  assert (Hnew : fs_inv (load_step t p (sys_fs s)).2 (<[i := (load_step t p (sys_fs s)).1]> (sys_loads s))).
  { unfold fs_inv in Hfs. destruct (fs_entry (sys_fs s)) as [[j m|m|]|] eqn:He; try done.
    - destruct Hfs as (c & Hc & Hps). apply (step_present t p _ _ i j m c); try done.
      intros k q Hq H1 H2. by apply (Hcr k i q p).
    - by apply step_absent. }
  destruct (load_step t p (sys_fs s)) as [p' fs'] eqn:Es. injection Hs as <-. split; [done|].
  cbn [sys_loads]. intros a b q r. rewrite !list_lookup_insert_Some.
  assert (Hp' : creator p' = true -> creator p = true \/ fs_entry (sys_fs s) = None).
  { intros H. pose proof (step_creator t p (sys_fs s)) as Hc. rewrite Es in Hc.
    destruct (Hc H) as [|[_ ?]]; auto. }
  assert (Hnone : forall k x, sys_loads s !! k = Some x -> creator x = true -> fs_entry (sys_fs s) <> None).
  { intros k x Hx Hc He. unfold fs_inv in Hfs. rewrite He in Hfs.
    pose proof (Forall_lookup_1 _ _ _ _ Hfs Hx) as Ha. by rewrite (absent_not_creator x Ha) in Hc. }
  intros [(<- & <- & _)|[Hne Hq]] [(<- & <- & _)|[Hne' Hr]] H1 H2; [done| | |by apply (Hcr a b q r)].
  - destruct (Hp' H1) as [H|H]; [by apply (Hcr i b p r)|]. by destruct (Hnone b r Hr H2).
  - destruct (Hp' H2) as [H|H]; [by apply (Hcr a i q p)|]. by destruct (Hnone a q Hq H1).
Qed.

Lemma sys_inv_run s0 s : sys_inv s0 -> sys_run s0 s -> sys_inv s.
Proof. intros H0. induction 1 as [|s i t s' _ IH Hw Hs]; [done|]. by eapply sys_inv_step. Qed.

(** [n] servers starting at once on a directory that has no file, or one with
    some contents. *)
Definition starting (n : nat) (fs : FS) : system := {| sys_fs := fs; sys_loads := replicate n AtRead |}.

Definition ordinary (fs : FS) : Prop :=
  match fs_entry fs with
  | None => True
  | Some (Regular i _) => is_Some (fs_data fs !! i)
  | _ => False
  end.

Lemma sys_inv_starting n fs : ordinary fs -> sys_inv (starting n fs).
Proof.
  intros Ho. split; cbn [starting sys_fs sys_loads].
  - unfold ordinary in Ho. unfold fs_inv. destruct (fs_entry fs) as [[i m|m|]|]; try done.
    + destruct Ho as [c Hc]. exists c. split; [done|]. by apply Forall_replicate.
    + by apply Forall_replicate.
  - intros a b p q (-> & _)%lookup_replicate. done.
Qed.

(** C37: servers that start together share one secret. Any number of servers
    load the secret of one data directory, their system calls interleaved in
    any order and any of them failing except the write and the close of a new
    file: those that start up hold the same secret, which is what the file
    contains then, and at most one of them created it. *)
Theorem signing_secret_agreement (n : nat) (fs : FS) (s : system)
    (Ho : ordinary fs) (Hrun : sys_run (starting n fs) s) :
  (forall i j s1 s2 c1 c2, sys_loads s !! i = Some (Returned (Ok (s1, c1))) ->
     sys_loads s !! j = Some (Returned (Ok (s2, c2))) -> s1 = s2 /\ (c1 = true -> c2 = true -> i = j))
  /\ (forall i s1 c1, sys_loads s !! i = Some (Returned (Ok (s1, c1))) ->
       s1 <> "" /\ exists raw, os_ReadFile (sys_fs s) = Done raw /\ TrimSpace raw = s1).
Proof.
  pose proof (sys_inv_run _ _ (sys_inv_starting n fs Ho) Hrun) as [Hfs Hcr]. unfold fs_inv in Hfs.
  assert (Hok : forall i s1 c1, sys_loads s !! i = Some (Returned (Ok (s1, c1))) ->
    s1 <> "" /\ exists raw, os_ReadFile (sys_fs s) = Done raw /\ TrimSpace raw = s1).
  { intros i s1 c1 Hi. unfold os_ReadFile. destruct (fs_entry (sys_fs s)) as [[j m|m|]|]; try done.
    - destruct Hfs as (c & Hc & Hps). pose proof (Forall_lookup_1 _ _ _ _ Hps Hi) as [-> Hne].
      split; [done|]. exists c. by rewrite Hc.
    - by pose proof (Forall_lookup_1 _ _ _ _ Hfs Hi). }
  split; [|exact Hok]. intros i j s1 s2 c1 c2 Hi Hj. split.
  - destruct (Hok _ _ _ Hi) as (_ & r1 & E1 & <-), (Hok _ _ _ Hj) as (_ & r2 & E2 & <-). congruence.
  - intros -> ->. by apply (Hcr i j _ _ Hi Hj).
Qed.

(** ** One server *)
Definition absent : FS := {| fs_entry := None; fs_data := ∅; fs_next := 0 |}.
Definition dangling : FS := {| fs_entry := Some Dangling; fs_data := ∅; fs_next := 0 |}.

Definition untroubled (turns : nat -> turn) : Prop := forall i, t_fault (turns i) = None.

Lemma untroubled_tail turns : untroubled turns -> untroubled (fun i => turns (S i)).
Proof. intros H i. apply H. Qed.

Lemma load_alone_step n turns p fs :
  load_alone (S n) turns p fs
  = load_alone n (fun i => turns (S i)) (load_step (turns O) p fs).1 (load_step (turns O) p fs).2.
Proof. cbn [load_alone]. by destruct (load_step (turns O) p fs). Qed.

Lemma load_alone_returned n turns r fs : load_alone n turns (Returned r) fs = (Returned r, fs).
Proof. revert turns. induction n as [|n IH]; intros turns; [done|]. rewrite load_alone_step. apply IH. Qed.

Lemma load_existing n turns raw fs :
  untroubled turns -> os_ReadFile fs = Done raw -> TrimSpace raw <> "" ->
  load_alone (S n) turns AtRead fs = (Returned (Ok (TrimSpace raw, false)), fs).
Proof.
  intros Ht Hr Hne%String.eqb_neq. rewrite load_alone_step. cbn [load_step].
  rewrite (Ht 0%nat), Hr, Hne. apply load_alone_returned.
Qed.

(** Starting up ends, and the secret survives a restart. When no call
    fails, a load returns after at most six calls: what an existing file holds
    (an error if that is blank), or else a new secret of 32 random bytes, kept
    in a file that others cannot read and that every later load returns. *)
Theorem signing_secret_persists (turns : nat -> turn) (fs : FS)
    (Ht : untroubled turns) (Ho : ordinary fs) :
  match os_ReadFile fs with
  | Done raw =>
      exists r, load_alone 6 turns AtRead fs = (Returned r, fs)
        /\ if String.eqb (TrimSpace raw) "" then is_Ok r = false else r = Ok (TrimSpace raw, false)
  | _ =>
      let secret := EncodeToString alphabet_url (t_rand (turns 2%nat) <$> seq 0 signingSecretBytes) in
      exists fs', load_alone 6 turns AtRead fs = (Returned (Ok (secret, true)), fs')
        /\ SigningSecretFilePermissive fs' = false
        /\ forall turns', untroubled turns' ->
             load_alone 6 turns' AtRead fs' = (Returned (Ok (secret, false)), fs')
  end.
Proof.
  destruct (os_ReadFile fs) as [raw| | |e] eqn:Hr; unfold ordinary in Ho; unfold os_ReadFile in Hr;
    destruct (fs_entry fs) as [[j m|m|]|] eqn:He; try done.
  - destruct (String.eqb_spec (TrimSpace raw) "") as [E|E].
    + exists (Err (NewErr "auth: signing secret file is empty; delete it to generate a new one")).
      split; [|done]. rewrite load_alone_step. cbn [load_step]. unfold os_ReadFile.
      rewrite (Ht 0%nat), He. injection Hr as Hr. rewrite Hr, E. apply load_alone_returned.
    + eexists. split; [|done]. apply load_existing; [done| |done]. unfold os_ReadFile. by rewrite He.
  - set (secret := EncodeToString _ _). destruct (generated_good (t_rand (turns 2%nat))) as [Hg1 Hg2].
    fold secret in Hg1, Hg2.
    exists (os_WriteString (fs_next fs) (secret +:+ String "010" "") (os_OpenExcl 384 fs).2).
    split; [|split].
    + assert (E1 : load_step (turns 0%nat) AtRead fs = (AtMkdir, fs)).
      { unfold load_step, os_ReadFile. by rewrite Ht, He. }
      assert (E2 : load_step (turns 1%nat) AtMkdir fs = (AtRand, fs)) by (unfold load_step; by rewrite Ht).
      assert (E3 : load_step (turns 2%nat) AtRand fs = (AtOpen secret, fs)) by done.
      assert (E4 : load_step (turns 3%nat) (AtOpen secret) fs
                   = (AtWrite (fs_next fs) secret, (os_OpenExcl 384 fs).2)).
      { unfold load_step, os_OpenExcl. by rewrite Ht, He. }
      cbn [load_alone]. rewrite E1, E2, E3, E4. unfold load_step. by rewrite !Ht.
    + unfold os_WriteString, os_OpenExcl. by rewrite He.
    + intros turns' Ht'. rewrite <- Hg2 at 2. apply load_existing; [done| |by rewrite Hg2].
      unfold os_ReadFile, os_WriteString, os_OpenExcl. rewrite He. simpl.
      by rewrite !lookup_insert_eq.
Qed.

Lemma signing_secret_persists_witness :
  exists fs', load_alone 6 (fun n => calm (rand_byte (env_at n))) AtRead absent
              = (Returned (Ok (EncodeToString alphabet_url (rand_byte (env_at 2) <$> seq 0 32), true)), fs').
Proof.
  destruct (signing_secret_persists (fun n => calm (rand_byte (env_at n))) absent (fun _ => eq_refl) I)
    as (fs' & H & _).
  exists fs'. exact H.
Defined.

(** Two servers start; the second one reads the file between its creation and
    its contents. *)
Definition race (n : nat) : turn := calm (rand_byte (env_at n)).
Definition sys_steps (s : system) (l : list nat) : option system :=
  foldl (fun os i => s ← os; sys_step i (race i) s) (Some s) l.

Lemma sys_steps_run s0 s l s' : sys_run s0 s -> sys_steps s l = Some s' -> sys_run s0 s'.
Proof.
  unfold sys_steps. revert s. induction l as [|i l IH]; intros s Hr Hs; cbn [foldl] in Hs; [congruence|].
  destruct (sys_step i (race i) s) as [s1|] eqn:E; simpl in Hs; rewrite E in Hs.
  - apply (IH s1); [|done]. apply (run_next s0 s i (race i)); [done| |done]. intros [] _; done.
  - exfalso. clear -Hs. induction l as [|j l IH]; [done|]. by apply IH.
Qed.

Definition race_end : system :=
  default (starting 0 absent) (sys_steps (starting 2 absent) [0; 1; 0; 1; 0; 1; 0; 1; 0; 0; 1]%nat).

Lemma race_end_run : sys_run (starting 2 absent) race_end.
Proof.
  apply (sys_steps_run _ (starting 2 absent) [0; 1; 0; 1; 0; 1; 0; 1; 0; 0; 1]%nat); [apply run_start|].
  vm_compute. reflexivity.
Qed.

Lemma signing_secret_agreement_witness :
  exists s1 s2, sys_loads race_end = [Returned (Ok (s1, true)); Returned (Ok (s2, false))] /\ s1 = s2.
Proof.
  destruct (sys_loads race_end) as [|p [|q [|]]] eqn:E; try (vm_compute in E; discriminate).
  destruct p as [| | | | | | |[[s1 []]|]]; try (vm_compute in E; discriminate).
  destruct q as [| | | | | | |[[s2 []]|]]; try (vm_compute in E; discriminate).
  exists s1, s2. split; [done|].
  refine (proj1 (proj1 (signing_secret_agreement 2 absent race_end I race_end_run)
                   0%nat 1%nat s1 s2 true false _ _)); by rewrite E.
Defined.

(** ** Two defects *)

(** A dangling link at the path: reading says the file does not exist, creating
    says that it does, and the load calls itself for ever. *)
Theorem dangling_link_loops (n : nat) (turns : nat -> turn) :
  untroubled turns -> finished (load_alone n turns AtRead dangling).1 = false.
Proof.
  intros Ht.
  assert (H : forall n turns p, untroubled turns ->
    match p with AtRead | AtMkdir | AtRand | AtOpen _ => True | _ => False end ->
    finished (load_alone n turns p dangling).1 = false); [|by apply H].
  clear n turns Ht. induction n as [|n IH]; intros turns p Ht Hp; [by destruct p|].
  rewrite load_alone_step. pose proof (untroubled_tail _ Ht) as Ht'.
  destruct p as [| | |e| | | |]; try done; unfold load_step; rewrite ?(Ht 0%nat); by apply IH.
Qed.

(** The second of two servers starting on an empty directory can fail, although
    no call fails: it reads the file before the first one has written it. *)
Theorem second_server_fails :
  exists s, sys_run (starting 2 absent) s
    /\ (exists secret e, sys_loads s = [Returned (Ok (secret, true)); Returned (Err e)]).
Proof.
  destruct (sys_steps (starting 2 absent) [0; 0; 0; 0; 1; 0; 0]%nat) as [s|] eqn:E;
    [|vm_compute in E; discriminate].
  exists s. split; [eapply sys_steps_run; [apply run_start|exact E]|].
  vm_compute in E. injection E as <-. eexists _, _. reflexivity.
Qed.
