(* ===== verification/Sql.v ===== *)
(** * SQL statements

    What the store drivers use of SQL: tables keyed by their primary key,
    uniqueness and foreign-key constraints, [SELECT], [UPDATE], [DELETE] and
    [INSERT ... ON CONFLICT], statements that may fail, and transactions.  A
    statement reads and changes a whole database; one that fails changes
    nothing.  Which of several violated constraints an [INSERT] reports is the
    engine's choice, a parameter. *)
From Stdlib Require Import Ascii String.
From S2P Require Import GoLib Act.
Local Open Scope string_scope.
Local Open Scope Z_scope.

(** ** Values *)

(** An [INTEGER] column holds an integer, or a real once an addition has left
    the 64-bit range. *)
Inductive sqlNum := SqlInt (z : Z) | SqlReal (f : float64).

#[export] Instance sqlNum_eq_dec : EqDecision sqlNum.
Proof. solve_decision. Defined.

Definition int64_okb (z : Z) : bool := (- 2 ^ 63 <=? z) && (z <? 2 ^ 63).

Definition num_real (n : sqlNum) : float64 :=
  match n with SqlInt z => f64_of_Z z | SqlReal f => f end.

(** The integer a finite binary64 value is, if it is one. *)
Definition f64_exact_Z (f : float64) : option Z :=
  match f with
  | S754_zero _ => Some 0
  | S754_finite s m e =>
      let v := if s then Z.neg m else Z.pos m in
      if 0 <=? e then Some (v * 2 ^ e)
      else if v mod 2 ^ (- e) =? 0 then Some (v / 2 ^ (- e)) else None
  | _ => None
  end.

(** Storing into an [INTEGER] column: a real that is a 64-bit integer becomes one. *)
Definition integer_affinity (n : sqlNum) : sqlNum :=
  match n with
  | SqlInt z => SqlInt z
  | SqlReal f =>
      match f64_exact_Z f with
      | Some z => if int64_okb z then SqlInt z else SqlReal f
      | None => SqlReal f
      end
  end.

Definition sql_plus (a b : sqlNum) : sqlNum :=
  match a, b with
  | SqlInt x, SqlInt y =>
      if int64_okb (x + y) then SqlInt (x + y)
      else SqlReal (SFadd 53 1024 (f64_of_Z x) (f64_of_Z y))
  | _, _ => SqlReal (SFadd 53 1024 (num_real a) (num_real b))
  end.

(** [column = ?] with a 64-bit integer: the reals a column keeps are outside
    the range or not whole. *)
Definition num_eqb (n : sqlNum) (z : Z) : bool :=
  match n with SqlInt v => v =? z | SqlReal _ => false end.

(** [lower] and [COLLATE NOCASE] fold the ASCII letters only.  (On texts
    without a NUL byte, where a comparison under [NOCASE] would stop.) *)
Definition sql_lower (s : string) : string := string_map lower_byte s.
Definition nocase_eqb (a b : string) : bool := String.eqb (sql_lower a) (sql_lower b).

(** ** Errors *)
Inductive dbErr :=
| ErrNoRows                               (* sql.ErrNoRows *)
| SqliteError (code : Z) (msg : string)   (* *sqlite.Error *)
| PgError (code constraint : string)      (* *pgconn.PgError *)
| OtherDb (e : error).                    (* a cancelled context, a closed pool... *)

Definition SQLITE_CONSTRAINT_FOREIGNKEY : Z := 787.
Definition SQLITE_CONSTRAINT_PRIMARYKEY : Z := 1555.
Definition SQLITE_CONSTRAINT_UNIQUE : Z := 2067.
Definition SQLITE_FULL : Z := 13.

Class SqlEngine := { report : list dbErr -> dbErr }.
Class SqlEngineOk `{SqlEngine} : Prop := { report_in es : es <> [] -> report es ∈ es }.

(** [rows.Scan] of a number into an [int64]. *)
Definition scan_int (n : sqlNum) : result Z :=
  match n with SqlInt z => Ok z | SqlReal _ => Err (NewErr "sql: Scan error: converting to an integer") end.

(** ** Tables *)
Section table.
Context {K : Type} `{Countable K} {R : Type}.
Implicit Types (t : gmap K R) (P : R -> bool) (f : R -> R).

Definition rows_of t : list R := (map_to_list t).*2.
Definition sql_select P t : list R := filter (fun r => P r = true) (rows_of t).
Definition sql_count P t : Z := Z.of_nat (length (sql_select P t)).
Definition sql_exists P t : bool := existsb P (rows_of t).

(** [UPDATE ... SET ... WHERE ...]: the rows affected and the table.  No
    statement sets a primary key. *)
Definition sql_update P f t : Z * gmap K R :=
  (sql_count P t, (fun r => if P r then f r else r) <$> t).

(** A uniqueness constraint: the error it reports, and when a new row clashes
    with a present one. *)
Record unique := { u_err : dbErr; u_clash : R -> R -> bool }.

Definition violated (us : list unique) (r : R) t : list dbErr :=
  u_err <$> filter (fun u => sql_exists (u_clash u r) t = true) us.

(** Uniqueness is checked as the row goes in, foreign keys ([fk]: every
    referenced row exists) when the statement ends. *)
Definition sql_insert `{SqlEngine} (us : list unique) (fk : bool) (k : K) (r : R) t
    : res dbErr (gmap K R) :=
  match violated us r t with
  | [] =>
      if fk then Ok (<[k := r]> t)
      else Err (SqliteError SQLITE_CONSTRAINT_FOREIGNKEY "FOREIGN KEY constraint failed")
  | es => Err (report es)
  end.
End table.
Arguments unique : clear implicits.

(** [QueryRow(...).Scan]: the first row, if there is one. *)
Definition query_row {A} (l : list A) : res dbErr A :=
  match l with [] => Err ErrNoRows | a :: _ => Ok a end.

(** [SELECT EXISTS]-style foreign key lookup. *)
Definition references {K} `{Countable K} {R} (k : K) (t : gmap K R) : bool := bool_decide (is_Some (t !! k)).

(** ** Statements and transactions

    The [n]th call of an operation to the database may fail of itself
    ([fault n]: I/O, a busy file, a connection lost), and fails when the
    context is done. *)
Section tx.
Context {D : Type} (env : Env) (fault : nat -> option dbErr) (tr : dbErr -> error).

Definition statement_fault (n : nat) : option dbErr :=
  match ctx_Err env with Some e => Some (OtherDb (e : error)) | None => fault n end.

Definition statement {A} (s : D -> res dbErr (A * D)) : Act D (res dbErr A) := fun '(n, d) =>
  match statement_fault n with
  | Some e => (Err e, (S n, d))
  | None =>
      match s d with
      | Ok (a, d') => (Ok a, (S n, d'))
      | Err e => (Err e, (S n, d))
      end
  end.

Definition query {A} (s : D -> res dbErr A) : Act D (res dbErr A) :=
  statement (fun d => res_bind (s d) (fun a => Ok (a, d))).

(** [BEGIN], the body, then [COMMIT], or [ROLLBACK] when the body fails.  A
    commit that fails leaves the database as it was. *)
Definition transaction (begin_err commit_err : dbErr -> error) (fn : Act D (result unit))
    : Act D (result unit) := fun '(n, d) =>
  match statement_fault n with
  | Some e => (Err (begin_err e), (S n, d))
  | None =>
      let '(r, (n', d')) := fn (S n, d) in
      match r with
      | Err e => (Err e, (n', d))
      | Ok _ =>
          match statement_fault n' with
          | Some e => (Err (commit_err e), (S n', d))
          | None => (Ok tt, (S n', d'))
          end
      end
  end.

(** [if err != nil { return translate(err) }] *)
Definition checked {A B} (m : Act D (res dbErr A)) (k : A -> Act D (result B)) : Act D (result B) :=
  r ← m; match r with Ok a => k a | Err e => mret (Err (tr e)) end.

Lemma transaction_atomic be ce fn n d :
  match transaction be ce fn (n, d) with
  | (Err _, (_, d')) => d' = d
  | (Ok _, (_, d')) => exists n', fn (S n, d) = (Ok tt, (n', d'))
  end.
Proof.
  unfold transaction. destruct (statement_fault n); [done|].
  destruct (fn (S n, d)) as [[[]|e] [n' d']] eqn:E; [|done].
  destruct (statement_fault n'); [done|]. by exists n'.
Qed.

Lemma statement_atomic {A} (s : D -> res dbErr (A * D)) n d :
  match statement s (n, d) with
  | (Err _, (_, d')) => d' = d
  | (Ok a, (_, d')) => s d = Ok (a, d')
  end.
Proof. unfold statement. destruct (statement_fault n); [done|]. by destruct (s d) as [[a d']|e] eqn:E. Qed.
End tx.

(** ** Tables and their rows *)
Section table_facts.
Context {K : Type} `{Countable K} {R : Type}.
Implicit Types (t : gmap K R) (P : R -> bool).

Lemma elem_of_rows t r : r ∈ rows_of t <-> exists k, t !! k = Some r.
Proof.
  unfold rows_of. rewrite list_elem_of_fmap. split.
  - intros ([k x] & -> & Hx). exists k. by apply elem_of_map_to_list.
  - intros [k Hk]. exists (k, r). by rewrite elem_of_map_to_list.
Qed.

Lemma elem_of_select P t r : r ∈ sql_select P t <-> P r = true /\ exists k, t !! k = Some r.
Proof. unfold sql_select. by rewrite list_elem_of_filter, elem_of_rows. Qed.

Lemma sql_exists_spec P t : sql_exists P t = true <-> exists k r, t !! k = Some r /\ P r = true.
Proof.
  unfold sql_exists. rewrite existsb_exists. split.
  - intros (r & Hr & HP). apply list_elem_of_In, elem_of_rows in Hr as [k Hk]. eauto.
  - intros (k & r & Hk & HP). exists r. split; [|done]. apply list_elem_of_In, elem_of_rows. eauto.
Qed.

Lemma sql_exists_false P t : sql_exists P t = false <-> forall k r, t !! k = Some r -> P r = false.
Proof.
  rewrite <- not_true_iff_false, sql_exists_spec. split.
  - intros Hn k r Hk. apply not_true_is_false. intros HP. apply Hn. eauto.
  - intros Ha (k & r & Hk & HP). by rewrite (Ha _ _ Hk) in HP.
Qed.

Lemma select_none P t : (forall k r, t !! k = Some r -> P r = false) -> sql_select P t = [].
Proof.
  intros Hn. apply elem_of_nil_inv. intros r [HP [k Hk]]%elem_of_select. by rewrite (Hn _ _ Hk) in HP.
Qed.

(** A condition only one row meets selects that row. *)
Lemma select_one P t k r :
  t !! k = Some r -> P r = true -> (forall k' r', t !! k' = Some r' -> P r' = true -> k' = k) ->
  sql_select P t = [r].
Proof.
  intros Hk HP Hu. apply Permutation_singleton_r.
  unfold sql_select, rows_of. rewrite <- (insert_delete_id t k r Hk).
  rewrite (fmap_Permutation snd _ _ (map_to_list_insert _ k r (lookup_delete_eq t k))).
  rewrite fmap_cons, filter_cons, decide_True by done.
  change (filter _ _) with (sql_select P (delete k t)). rewrite select_none; [done|].
  intros k' r' [Hne Hk']%lookup_delete_Some. apply not_true_is_false. intros HP'.
  by destruct (Hne (eq_sym (Hu _ _ Hk' HP'))).
Qed.

(** [WHERE id = ? AND ...] on the primary key. *)
Lemma select_key (key : R -> K) P t id :
  (forall k r, t !! k = Some r -> key r = k) ->
  (forall r, P r = true -> key r = id) ->
  sql_select P t = match t !! id with Some r => if P r then [r] else [] | None => [] end.
Proof.
  intros Hkey HP. destruct (t !! id) as [r|] eqn:E.
  - destruct (P r) eqn:Ep.
    + apply (select_one P t id r E Ep). intros k' r' Hk' HP'.
      by rewrite <- (Hkey _ _ Hk'), (HP _ HP').
    + apply select_none. intros k' r' Hk'. apply not_true_is_false. intros HP'.
      assert (k' = id) as -> by (by rewrite <- (Hkey _ _ Hk'), (HP _ HP')). congruence.
  - apply select_none. intros k' r' Hk'. apply not_true_is_false. intros HP'.
    assert (k' = id) as -> by (by rewrite <- (Hkey _ _ Hk'), (HP _ HP')). congruence.
Qed.

Lemma count_zero P t : sql_count P t = 0 <-> forall k r, t !! k = Some r -> P r = false.
Proof.
  unfold sql_count. split.
  - intros E k r Hk. apply not_true_is_false. intros HP.
    assert (Hr : r ∈ sql_select P t) by (apply elem_of_select; eauto).
    destruct (sql_select P t); [by apply not_elem_of_nil in Hr|]. simpl in E. lia.
  - intros Hn. by rewrite select_none.
Qed.

Lemma count_nonneg P t : 0 <= sql_count P t.
Proof. unfold sql_count. lia. Qed.

Lemma update_lookup P f t k :
  (sql_update P f t).2 !! k = (fun r => if P r then f r else r) <$> t !! k.
Proof. unfold sql_update. simpl. by rewrite lookup_fmap. Qed.

(** An update that touches no row changes nothing. *)
Lemma update_none P f t : (forall k r, t !! k = Some r -> P r = false) -> sql_update P f t = (0, t).
Proof.
  intros Hn. unfold sql_update. rewrite (proj2 (count_zero P t) Hn). f_equal.
  apply map_eq. intros k. rewrite lookup_fmap. destruct (t !! k) eqn:E; [|done]. simpl. by rewrite (Hn _ _ E).
Qed.

Lemma update_one P f t k r :
  t !! k = Some r -> P r = true -> (forall k' r', t !! k' = Some r' -> P r' = true -> k' = k) ->
  sql_update P f t = (1, <[k := f r]> t).
Proof.
  intros Hk HP Hu. unfold sql_update, sql_count. rewrite (select_one P t k r Hk HP Hu). f_equal.
  apply map_eq. intros k'. rewrite lookup_fmap, lookup_insert. case_decide as E.
  - subst. by rewrite Hk; simpl; rewrite HP.
  - destruct (t !! k') as [r'|] eqn:E'; [|done]. simpl. destruct (P r') eqn:EP; [|done].
    by destruct (E (eq_sym (Hu _ _ E' EP))).
Qed.

Lemma violated_nil us r t :
  violated us r t = [] <-> forall u, u ∈ us -> sql_exists (u_clash u r) t = false.
Proof.
  unfold violated. split.
  - intros E u Hu. apply not_true_is_false. intros Hx. apply fmap_nil_inv in E.
    assert (Hin : u ∈ filter (fun u => sql_exists (u_clash u r) t = true) us) by (by apply list_elem_of_filter).
    rewrite E in Hin. by apply not_elem_of_nil in Hin.
  - intros Hn. destruct (filter _ us) as [|u l] eqn:E; [done|].
    assert (Hu : u ∈ filter (fun u => sql_exists (u_clash u r) t = true) us) by (rewrite E; apply list_elem_of_here).
    apply list_elem_of_filter in Hu as [Hx Hu]. by rewrite (Hn u Hu) in Hx.
Qed.

Lemma sql_insert_ok `{SqlEngine} us k r t :
  violated us r t = [] -> sql_insert us true k r t = Ok (<[k := r]> t).
Proof. intros E. unfold sql_insert. by rewrite E. Qed.

Lemma sql_insert_clash `{SqlEngineOk} us fk k r t :
  violated us r t <> [] -> exists e, sql_insert us fk k r t = Err e /\ e ∈ violated us r t.
Proof.
  intros E. unfold sql_insert. destruct (violated us r t) as [|e es] eqn:V; [done|].
  eexists. split; [done|]. by apply report_in.
Qed.
End table_facts.

Lemma violated_err {K} `{Countable K} {R} (us : list (unique R)) r (t : gmap K R) e :
  e ∈ violated us r t -> e ∈ u_err <$> us.
Proof.
  unfold violated. rewrite !list_elem_of_fmap. intros (u & -> & Hu). apply list_elem_of_filter in Hu as [_ Hu]. eauto.
Qed.

(** A row goes in when no present row clashes with it. *)
Lemma violated_fmap {K} `{Countable K} {A R} (g : A -> R) (us : list (unique R)) r (m : gmap K A) :
  violated us r (g <$> m) = []
  <-> Forall (fun u => forall k x, m !! k = Some x -> u_clash u r (g x) = false) us.
Proof.
  rewrite violated_nil, Forall_forall. split; intros Hn u Hu.
  - intros k x Hk. apply (proj1 (sql_exists_false _ _) (Hn u Hu) k). by rewrite lookup_fmap, Hk.
  - apply sql_exists_false. intros k y Hk. apply lookup_fmap_Some in Hk as (x & <- & Hx). eauto.
Qed.

Lemma references_fmap {K} `{Countable K} {A B} (f : A -> B) (k : K) (m : gmap K A) :
  references k (f <$> m) = references k m.
Proof. unfold references. apply bool_decide_ext. rewrite lookup_fmap. by rewrite fmap_is_Some. Qed.

(** ** Runs without faults

    [runs a d r d']: from the database [d], the action gives [r] and leaves [d']. *)
Section runs.
Context {D : Type}.
Definition runs {A} (a : Act D A) (d : D) (r : A) (d' : D) : Prop :=
  forall n, exists n', a (n, d) = (r, (n', d')).

Lemma runs_return {A} (x : A) d : runs (mret x) d x d.
Proof. intros n. by exists n. Qed.

Lemma runs_then {A B} (a : Act D A) (k : A -> Act D B) d x d1 r d' :
  runs a d x d1 -> runs (k x) d1 r d' -> runs (a ≫= k) d r d'.
Proof.
  intros Ha Hk n. destruct (Ha n) as [n1 E1]. destruct (Hk n1) as [n2 E2].
  exists n2. unfold mbind, act_bind. by rewrite E1.
Qed.

Lemma runs_det {A} (a : Act D A) d r1 d1 r2 d2 : runs a d r1 d1 -> runs a d r2 d2 -> r1 = r2 /\ d1 = d2.
Proof. intros H1 H2. destruct (H1 0%nat) as [? E1]. destruct (H2 0%nat) as [? E2]. rewrite E1 in E2. by simplify_eq. Qed.

Definition no_fault : nat -> option dbErr := fun _ => None.

Section env.
Context (env : Env) (Hctx : ctx_Err env = None) (tr : dbErr -> error).

Lemma no_statement_fault n : statement_fault env no_fault n = None.
Proof. unfold statement_fault. by rewrite Hctx. Qed.

Lemma runs_statement {A} (s : D -> res dbErr (A * D)) d :
  runs (statement env no_fault s) d
    (match s d with Ok (a, _) => Ok a | Err e => Err e end) (match s d with Ok (_, d') => d' | Err _ => d end).
Proof. intros n. unfold statement. rewrite no_statement_fault. destruct (s d) as [[a d']|e]; eauto. Qed.

Lemma runs_statement_Ok {A} (s : D -> res dbErr (A * D)) d a d' :
  s d = Ok (a, d') -> runs (statement env no_fault s) d (Ok a) d'.
Proof. intros E. pose proof (runs_statement s d) as Hr. by rewrite E in Hr. Qed.

Lemma runs_statement_Err {A} (s : D -> res dbErr (A * D)) d e :
  s d = Err e -> runs (statement env no_fault s) d (Err e) d.
Proof. intros E. pose proof (runs_statement s d) as Hr. by rewrite E in Hr. Qed.

Lemma runs_query {A} (s : D -> res dbErr A) d : runs (query env no_fault s) d (s d) d.
Proof.
  unfold query. destruct (s d) eqn:E.
  - apply runs_statement_Ok. by rewrite E.
  - apply runs_statement_Err. by rewrite E.
Qed.

Lemma runs_checked {A B} (m : Act D (res dbErr A)) (k : A -> Act D (result B)) d a d1 r d' :
  runs m d (Ok a) d1 -> runs (k a) d1 r d' -> runs (checked tr m k) d r d'.
Proof. intros Hm Hk. unfold checked. eapply runs_then; [exact Hm|exact Hk]. Qed.

Lemma runs_checked_Err {A B} (m : Act D (res dbErr A)) (k : A -> Act D (result B)) d e d1 :
  runs m d (Err e) d1 -> runs (checked tr m k) d (Err (tr e)) d1.
Proof. intros Hm. unfold checked. eapply runs_then; [exact Hm|]. apply runs_return. Qed.

Lemma runs_try {A B} (m : Act D (result A)) (k : A -> Act D (result B)) d a d1 r d' :
  runs m d (Ok a) d1 -> runs (k a) d1 r d' -> runs (try m k) d r d'.
Proof. intros Hm Hk. unfold try. eapply runs_then; [exact Hm|exact Hk]. Qed.

Lemma runs_try_Err {A B} (m : Act D (result A)) (k : A -> Act D (result B)) d e d1 :
  runs m d (Err e) d1 -> runs (try m k) d (Err e) d1.
Proof. intros Hm. unfold try. eapply runs_then; [exact Hm|]. apply runs_return. Qed.

Lemma runs_transaction be ce fn d d' :
  runs fn d (Ok tt) d' -> runs (transaction env no_fault be ce fn) d (Ok tt) d'.
Proof.
  intros Hf n. unfold transaction. rewrite no_statement_fault.
  destruct (Hf (S n)) as [n' ->]. rewrite no_statement_fault. eauto.
Qed.

Lemma runs_transaction_Err be ce fn d e d' :
  runs fn d (Err e) d' -> runs (transaction env no_fault be ce fn) d (Err e) d.
Proof.
  intros Hf n. unfold transaction. rewrite no_statement_fault.
  destruct (Hf (S n)) as [n' ->]. eauto.
Qed.
End env.
End runs.

(** ** Runs with faults

    [tracks a a0]: whatever the faults of [a], when it succeeds it has done
    what [a0] does; on an error it may have done anything. *)
Section tracks.
Context {D : Type}.

Definition tracks {A} (a a0 : Act D (result A)) : Prop :=
  forall n d, match a (n, d) with (Err _, _) => True | (Ok x, (n', d')) => a0 (n, d) = (Ok x, (n', d')) end.

Lemma tracks_refl {A} (a : Act D (result A)) : tracks a a.
Proof. intros n d. destruct (a (n, d)) as [[x|e] [n' d']]; done. Qed.

Lemma tracks_try {A B} (a a0 : Act D (result A)) (k k0 : A -> Act D (result B)) :
  tracks a a0 -> (forall x, tracks (k x) (k0 x)) -> tracks (try a k) (try a0 k0).
Proof.
  intros Ha Hk n d. unfold try, mbind, act_bind. specialize (Ha n d).
  destruct (a (n, d)) as [[x|e] [n' d']]; [|done]. rewrite Ha. apply Hk.
Qed.

Context (env : Env) (fault : nat -> option dbErr) (tr : dbErr -> error).
Notation calm := {| ctx_Err := None; time_Now := time_Now env; rand_byte := rand_byte env |}.

Lemma tracks_checked {A B} (s : D -> res dbErr (A * D)) (k k0 : A -> Act D (result B)) :
  (forall x, tracks (k x) (k0 x)) ->
  tracks (checked tr (statement env fault s) k) (checked tr (statement calm no_fault s) k0).
Proof.
  intros Hk n d. unfold checked, mbind, act_bind, statement.
  destruct (statement_fault env fault n); [done|]. simpl.
  destruct (s d) as [[a d']|e]; [|done]. apply Hk.
Qed.

Lemma tracks_transaction be ce fn fn0 :
  tracks fn fn0 ->
  tracks (transaction env fault be ce fn) (transaction calm no_fault be ce fn0).
Proof.
  intros Hf n d. unfold transaction. destruct (statement_fault env fault n); [done|]. simpl.
  specialize (Hf (S n) d). destruct (fn (S n, d)) as [[[]|e] [n' d']]; [|done]. rewrite Hf.
  destruct (statement_fault env fault n'); [done|]. done.
Qed.
End tracks.

Lemma filter_ext_on {A} (P Q : A -> Prop) `{!forall x, Decision (P x)} `{!forall x, Decision (Q x)} (l : list A) :
  (forall x, x ∈ l -> P x <-> Q x) -> filter P l = filter Q l.
Proof.
  induction l as [|x l IH]; intros Hl; [done|]. rewrite !filter_cons, IH by (intros; by apply Hl, list_elem_of_further).
  apply decide_ext, Hl, list_elem_of_here.
Qed.

(** ** Ordered results *)
Lemma rows_of_fmap {K} `{Countable K} {A R} (g : A -> R) (m : gmap K A) : rows_of (g <$> m) = g <$> rows_of m.
Proof.
  unfold rows_of. rewrite map_to_list_fmap, <- !list_fmap_compose. apply list_fmap_ext. by intros ? [].
Qed.

Lemma select_fmap {K} `{Countable K} {A R} (g : A -> R) (P : R -> bool) (m : gmap K A) :
  sql_select P (g <$> m) = g <$> filter (fun x => P (g x) = true) (rows_of m).
Proof. unfold sql_select. by rewrite rows_of_fmap, filter_fmap. Qed.

Lemma proj_order {A B} (less : B -> B -> bool) (f : A -> B) :
  StrictWeakOrder less -> StrictWeakOrder (fun x y => less (f x) (f y)).
Proof. intros [H1 H2 H3]. split; intros *; [apply H1|apply H2|apply H3]. Qed.

Lemma StronglySorted_fmap_on {A B} (R : A -> A -> Prop) (R' : B -> B -> Prop) (g : A -> B) l :
  (forall x y, x ∈ l -> y ∈ l -> R x y -> R' (g x) (g y)) -> StronglySorted R l -> StronglySorted R' (g <$> l).
Proof.
  intros Hg Hs. induction Hs as [|x l Hl IH Hx]; [constructor|]. rewrite fmap_cons. constructor.
  - apply IH. intros y z Hy Hz. apply Hg; by apply list_elem_of_further.
  - rewrite Forall_forall in Hx. rewrite Forall_forall. intros b (y & -> & Hy)%list_elem_of_fmap.
    apply Hg; [apply list_elem_of_here|by apply list_elem_of_further|by apply Hx].
Qed.

(** Sorting images whose comparisons agree on the elements at hand. *)
Lemma sort_Slice_fmap_on {A B} (less : A -> A -> bool) (less' : B -> B -> bool)
    `{!StrictWeakOrder less} `{!StrictWeakOrder less'} (g : A -> B) l :
  (forall x y, x ∈ l -> y ∈ l -> less' (g x) (g y) = less x y) -> distinguishes less l ->
  sort_Slice less' (g <$> l) = g <$> sort_Slice less l.
Proof.
  intros Hg Hd. symmetry. apply sort_Slice_unique; [done| | |].
  - intros x y (a & -> & Ha)%list_elem_of_fmap (b & -> & Hb)%list_elem_of_fmap.
    rewrite !Hg by done. intros H1 H2. by rewrite (Hd a b).
  - apply (StronglySorted_fmap_on (not_less less)).
    + intros x y Hx Hy. rewrite sort_Slice_Permutation in Hx, Hy. unfold not_less. by rewrite Hg.
    + by apply sort_Slice_sorted.
  - by rewrite sort_Slice_Permutation.
Qed.
