(* ===== verification/Sqlite.v ===== *)
(** * The SQLite driver ([internal/store/sqlite/sqlite.go])

    The tables as the migrations leave them
    ([internal/store/migrations/0001_initial.go] to [0004_client_ref.go]), one
    statement per query of the driver, and its operations composed of them.
    Time stamps are [TEXT] in the driver's layout, optional values are
    nullable columns.  The writer pool holds one connection, so an operation
    that writes is a function of the database it starts from; it reads the
    clock at one instant. *)
From Stdlib Require Import Ascii String.
From S2P Require Import GoLib Act Domain Base64 Rollup MemStore Sql.
Local Open Scope string_scope.
Local Open Scope Z_scope.
Local Open Scope go_scope.

(** ** The schema *)
Record usersRow := {
  users_id : string;
  users_email : string;
  users_password_hash : option string;
  users_is_admin : Z;
  users_token_version : sqlNum;
  users_source : string;
  users_created_at : string;
  users_last_login_at : option string;
}.

Record apiTokensRow := {
  at_id : string;
  at_user_id : string;
  at_name : string;
  at_secret_hash : list ascii;
  at_created_at : string;
  at_last_used_at : option string;
  at_revoked_at : option string;
  at_expires_at : option string;
}.

Record stylingRow := {
  sp_id : string;
  sp_fg_color : string;
  sp_bg_color : string;
  sp_module_shape : string;
  sp_margin_modules : Z;
  sp_size_px : Z;
  sp_ec_level : string;
  sp_ec_level_effective : string;
  sp_logo_blob_key : option string;
  sp_logo_scale : option float64;
}.

Record codesRow := {
  c_id : string;
  c_short_code : string;
  c_is_alias : Z;
  c_user_id : string;
  c_mode : string;
  c_client_ref : option string;
  c_destination : string;
  c_state : string;
  c_styling_id : string;
  c_blob_key : string;
  c_blob_etag : string;
  c_version : sqlNum;
  c_created_at : string;
  c_updated_at : string;
  c_deleted_at : option string;
}.

Record reservationsRow := {
  ar_short_code : string;
  ar_code_id : option string;
  ar_reserved_at : string;
  ar_released_at : option string;
}.

Record scanEventsRow := {
  se_id : Z;
  se_code_id : string;
  se_occurred_at : string;
  se_ua_family : string;
  se_device_category : string;
  se_referrer_host : string;
  se_is_bot : Z;
}.

(** Primary key of [scan_rollups]: code, hour, dimension, value. *)
Notation rollupPK := (string * string * string * string)%type.

Record sqliteDB := {
  tb_users : gmap string usersRow;
  tb_tokens : gmap string apiTokensRow;
  tb_styling : gmap string stylingRow;
  tb_codes : gmap string codesRow;
  tb_reservations : gmap string reservationsRow;
  tb_events : gmap Z scanEventsRow;
  tb_events_seq : Z;                       (* sqlite_sequence: AUTOINCREMENT *)
  tb_rollups : gmap rollupPK sqlNum;
}.

Definition empty_db : sqliteDB :=
  {| tb_users := ∅; tb_tokens := ∅; tb_styling := ∅; tb_codes := ∅; tb_reservations := ∅;
     tb_events := ∅; tb_events_seq := 0; tb_rollups := ∅ |}.

Definition with_users (t : gmap string usersRow) (d : sqliteDB) : sqliteDB :=
  {| tb_users := t; tb_tokens := tb_tokens d; tb_styling := tb_styling d; tb_codes := tb_codes d;
     tb_reservations := tb_reservations d; tb_events := tb_events d;
     tb_events_seq := tb_events_seq d; tb_rollups := tb_rollups d |}.
Definition with_tokens (t : gmap string apiTokensRow) (d : sqliteDB) : sqliteDB :=
  {| tb_users := tb_users d; tb_tokens := t; tb_styling := tb_styling d; tb_codes := tb_codes d;
     tb_reservations := tb_reservations d; tb_events := tb_events d;
     tb_events_seq := tb_events_seq d; tb_rollups := tb_rollups d |}.
Definition with_styling (t : gmap string stylingRow) (d : sqliteDB) : sqliteDB :=
  {| tb_users := tb_users d; tb_tokens := tb_tokens d; tb_styling := t; tb_codes := tb_codes d;
     tb_reservations := tb_reservations d; tb_events := tb_events d;
     tb_events_seq := tb_events_seq d; tb_rollups := tb_rollups d |}.
Definition with_codes (t : gmap string codesRow) (d : sqliteDB) : sqliteDB :=
  {| tb_users := tb_users d; tb_tokens := tb_tokens d; tb_styling := tb_styling d; tb_codes := t;
     tb_reservations := tb_reservations d; tb_events := tb_events d;
     tb_events_seq := tb_events_seq d; tb_rollups := tb_rollups d |}.
Definition with_reservations (t : gmap string reservationsRow) (d : sqliteDB) : sqliteDB :=
  {| tb_users := tb_users d; tb_tokens := tb_tokens d; tb_styling := tb_styling d;
     tb_codes := tb_codes d; tb_reservations := t; tb_events := tb_events d;
     tb_events_seq := tb_events_seq d; tb_rollups := tb_rollups d |}.
Definition with_events (t : gmap Z scanEventsRow) (seq : Z) (d : sqliteDB) : sqliteDB :=
  {| tb_users := tb_users d; tb_tokens := tb_tokens d; tb_styling := tb_styling d;
     tb_codes := tb_codes d; tb_reservations := tb_reservations d; tb_events := t;
     tb_events_seq := seq; tb_rollups := tb_rollups d |}.
Definition with_rollups (t : gmap rollupPK sqlNum) (d : sqliteDB) : sqliteDB :=
  {| tb_users := tb_users d; tb_tokens := tb_tokens d; tb_styling := tb_styling d;
     tb_codes := tb_codes d; tb_reservations := tb_reservations d; tb_events := tb_events d;
     tb_events_seq := tb_events_seq d; tb_rollups := t |}.

(** *** Uniqueness: primary keys and the unique indexes *)
Definition pk_err (col : string) : dbErr :=
  SqliteError SQLITE_CONSTRAINT_PRIMARYKEY ("UNIQUE constraint failed: " +:+ col).
Definition unique_err (cols : string) : dbErr :=
  SqliteError SQLITE_CONSTRAINT_UNIQUE ("UNIQUE constraint failed: " +:+ cols).

Definition users_unique : list (unique usersRow) :=
  [{| u_err := pk_err "users.id"; u_clash := fun r s => String.eqb (users_id r) (users_id s) |};
   {| u_err := unique_err "users.email";            (* users_email_ci *)
      u_clash := fun r s => nocase_eqb (users_email r) (users_email s) |}].

Definition api_tokens_unique : list (unique apiTokensRow) :=
  [{| u_err := pk_err "api_tokens.id"; u_clash := fun r s => String.eqb (at_id r) (at_id s) |}].

Definition styling_unique : list (unique stylingRow) :=
  [{| u_err := pk_err "styling_profiles.id"; u_clash := fun r s => String.eqb (sp_id r) (sp_id s) |}].

Definition row_live (r : codesRow) : bool := negb (String.eqb (c_state r) CodeDeleted).

(** [codes_short_code_ci] and [codes_user_client_ref] are partial indexes. *)
Definition codes_unique : list (unique codesRow) :=
  [{| u_err := pk_err "codes.id"; u_clash := fun r s => String.eqb (c_id r) (c_id s) |};
   {| u_err := unique_err "codes.short_code";
      u_clash := fun r s => row_live r && row_live s && nocase_eqb (c_short_code r) (c_short_code s) |};
   {| u_err := unique_err "codes.user_id, codes.client_ref";
      u_clash := fun r s =>
        match c_client_ref r, c_client_ref s with
        | Some a, Some b => String.eqb (c_user_id r) (c_user_id s) && String.eqb a b
        | _, _ => false
        end |}].

(** ** Error translation *)
Definition db_error (e : dbErr) : error :=
  match e with
  | ErrNoRows => NewErr "sql: no rows in result set"
  | SqliteError _ msg => NewErr msg
  | PgError code _ => NewErr code
  | OtherDb e => e
  end.

(** [wrapped] is the error as the caller has it: the native error, or a wrapper
    around it that [errors.As] sees through. *)
Definition translate_as (wrapped : error) (e : dbErr) : error :=
  match e with
  | ErrNoRows => Wrap "sqlite" ErrNotFound
  | SqliteError code msg =>
      if (code =? SQLITE_CONSTRAINT_UNIQUE) || (code =? SQLITE_CONSTRAINT_PRIMARYKEY) then
        if Contains msg "codes.short_code" || Contains msg "alias_reservations.short_code"
        then Wrap "sqlite" ErrAliasTaken
        else if Contains msg "codes.client_ref" then Wrap "sqlite" ErrClientRefTaken
        else Wrap "sqlite" ErrConflict
      else if code =? SQLITE_CONSTRAINT_FOREIGNKEY then Wrap "sqlite" ErrNotFound
      else wrapped
  | PgError _ _ | OtherDb _ => wrapped
  end.

Definition translate (e : dbErr) : error := translate_as (db_error e) e.

Definition notFound (what : string) : error := Wrap ("sqlite: " +:+ what) ErrNotFound.
Definition conflict (what : string) : error := Wrap ("sqlite: " +:+ what) ErrConflict.

(** The layout [tsLayout]: fixed width, microseconds, UTC. *)
Class SqlTime := { Format_tsLayout : Z -> string }.

(** An instant the layout represents exactly. *)
Definition micro (t : Z) : Prop := year_ok t /\ t mod Microsecond = 0.

Class SqlTimeOk `{TimeFormat} `{SqlTime} : Prop := {
  parse_tsLayout t : micro t -> Parse_RFC3339Nano (Format_tsLayout t) = Some t;
  tsLayout_order t u : micro t -> micro u -> str_ltb (Format_tsLayout t) (Format_tsLayout u) = (t <? u);
  tsLayout_no_nul t : micro t -> "000"%char ∉ bytes (Format_tsLayout t);
}.

Section sqlite.
Context `{U : UnicodeTable} `{TF : TimeFormat} `{ST : SqlTime} `{SE : SqlEngine}.

(** ** Value helpers *)
Definition fmtTime (t : Z) : string := Format_tsLayout (Truncate t Microsecond).
Definition fmtTimePtr (t : option Z) : option string := fmtTime <$> t.
Definition parseTime (s : string) : result Z :=
  match Parse_RFC3339Nano s with
  | Some t => Ok t
  | None => Err (Wrap "sqlite: bad timestamp" (NewErr "time"))
  end.
Definition parseTimePtr (s : option string) : result (option Z) :=
  match s with
  | None => Ok None
  | Some s => res_bind (parseTime s) (fun t => Ok (Some t))
  end.
Definition b2i (b : bool) : Z := if b then 1 else 0.
Definition nullStr (s : string) : option string := if String.eqb s "" then None else Some s.
Definition nullFloat (f : float64) : option float64 := if f64_eqb f f64_zero then None else Some f.
(** The driver stores a NaN as [NULL]. *)
Definition bind_real (f : option float64) : option float64 :=
  match f with Some S754_nan => None | _ => f end.
Definition now (env : Env) : Z := Truncate (time_Now env) Microsecond.

(** ** Scanning rows *)
Definition scanUser (r : usersRow) : result User :=
  res_bind (scan_int (users_token_version r)) (fun version =>
  res_bind (parseTime (users_created_at r)) (fun created =>
  res_bind (parseTimePtr (users_last_login_at r)) (fun login =>
  Ok {| user_ID := users_id r; user_Email := users_email r;
        user_PasswordHash := default "" (users_password_hash r);
        user_IsAdmin := negb (users_is_admin r =? 0); user_TokenVersion := version;
        user_Source := users_source r; user_CreatedAt := created; user_LastLoginAt := login |}))).

Definition scanToken (r : apiTokensRow) : result APIToken :=
  res_bind (parseTime (at_created_at r)) (fun created =>
  res_bind (parseTimePtr (at_last_used_at r)) (fun used =>
  res_bind (parseTimePtr (at_revoked_at r)) (fun revoked =>
  res_bind (parseTimePtr (at_expires_at r)) (fun expires =>
  Ok {| token_ID := at_id r; token_UserID := at_user_id r; token_Name := at_name r;
        token_SecretHash := at_secret_hash r; token_CreatedAt := created;
        token_LastUsedAt := used; token_RevokedAt := revoked; token_ExpiresAt := expires |})))).

Definition scanCode (p : codesRow * stylingRow) : result Code :=
  let '(r, sp) := p in
  res_bind (scan_int (c_version r)) (fun version =>
  res_bind (parseTime (c_created_at r)) (fun created =>
  res_bind (parseTime (c_updated_at r)) (fun updated =>
  res_bind (parseTimePtr (c_deleted_at r)) (fun deleted =>
  Ok {| code_ID := c_id r; ShortCode := c_short_code r; IsAlias := negb (c_is_alias r =? 0);
        code_UserID := c_user_id r; Mode := c_mode r; ClientRef := default "" (c_client_ref r);
        Destination := c_destination r; State := c_state r;
        code_Styling :=
          {| styling_ID := sp_id sp; FgColor := sp_fg_color sp; BgColor := sp_bg_color sp;
             styling_ModuleShape := sp_module_shape sp; MarginModules := sp_margin_modules sp;
             SizePx := sp_size_px sp; styling_ECLevel := sp_ec_level sp;
             ECLevelEffective := sp_ec_level_effective sp;
             LogoBlobKey := default "" (sp_logo_blob_key sp);
             LogoScale := default f64_zero (sp_logo_scale sp) |};
        BlobKey := c_blob_key r; BlobETag := c_blob_etag r; Version := version;
        code_CreatedAt := created; UpdatedAt := updated; DeletedAt := deleted |})))).

(** [codeFrom]: the join with the styling profiles. *)
Definition join_styling (d : sqliteDB) (rs : list codesRow) : list (codesRow * stylingRow) :=
  omap (fun r => (fun sp => (r, sp)) <$> tb_styling d !! c_styling_id r) rs.

(** Scanning every row of a result, stopping at the first error. *)
Fixpoint scan_all {R A} (scan : R -> result A) (rs : list R) : result (list A) :=
  match rs with
  | [] => Ok []
  | r :: rs' => res_bind (scan r) (fun a => res_bind (scan_all scan rs') (fun l => Ok (a :: l)))
  end.

(** ** Operations *)
Section operations.
Context (env : Env) (fault : nat -> option dbErr).
Notation statement := (statement env fault).
Notation query := (query env fault).
Notation "x <-? m ; k" := (checked translate m (fun x => k))
  (at level 20, m at level 100, k at level 200).

(** [s.withTx] *)
Definition withTx (fn : Act sqliteDB (result unit)) : Act sqliteDB (result unit) :=
  transaction env fault (fun e => Wrap "sqlite: begin" (db_error e))
    (fun e => translate_as (Wrap "sqlite: commit" (db_error e)) e) fn.

(** *** Users *)
(** The arguments the insert binds. *)
Definition user_row (created : Z) (u : User) : usersRow :=
  {| users_id := user_ID u; users_email := user_Email u;
     users_password_hash := nullStr (user_PasswordHash u); users_is_admin := b2i (user_IsAdmin u);
     users_token_version := SqlInt (user_TokenVersion u); users_source := user_Source u;
     users_created_at := fmtTime created; users_last_login_at := fmtTimePtr (user_LastLoginAt u) |}.

Definition CreateUser (u : User) : Act sqliteDB (result unit) :=
  if String.eqb (user_ID u) "" || String.eqb (user_Email u) ""
  then mret (Err (NewErr "sqlite: user id and email are required"))
  else
    let created := if IsZero (user_CreatedAt u) then now env else user_CreatedAt u in
    _ <-? statement (fun d =>
      res_bind (sql_insert users_unique true (user_ID u) (user_row created u) (tb_users d))
        (fun t => Ok (tt, with_users t d)));
    mret (Ok tt).

Definition GetUserByID (id : string) : Act sqliteDB (result User) :=
  r <-? query (fun d => query_row (sql_select (fun r => String.eqb (users_id r) id) (tb_users d)));
  mret (scanUser r).

Definition GetUserByEmail (email : string) : Act sqliteDB (result User) :=
  r <-? query (fun d => query_row (sql_select (fun r => nocase_eqb (users_email r) email) (tb_users d)));
  mret (scanUser r).

Definition set_token_version (r : usersRow) : usersRow :=
  {| users_id := users_id r; users_email := users_email r;
     users_password_hash := users_password_hash r; users_is_admin := users_is_admin r;
     users_token_version := integer_affinity (sql_plus (users_token_version r) (SqlInt 1));
     users_source := users_source r; users_created_at := users_created_at r;
     users_last_login_at := users_last_login_at r |}.

(** [UPDATE ... RETURNING token_version]: the updated row, if any. *)
Definition BumpTokenVersion (userID : string) : Act sqliteDB (result Z) :=
  v <-? statement (fun d =>
    let P r := String.eqb (users_id r) userID in
    let t := (sql_update P set_token_version (tb_users d)).2 in
    res_bind (query_row (users_token_version <$> sql_select P t))
      (fun v => Ok (v, with_users t d)));
  mret (scan_int v).

Definition CountUsers : Act sqliteDB (result Z) :=
  n <-? query (fun d => Ok (sql_count (fun _ => true) (tb_users d))); mret (Ok n).

(** *** Tokens *)
Definition token_row (created : Z) (t : APIToken) : apiTokensRow :=
  {| at_id := token_ID t; at_user_id := token_UserID t; at_name := token_Name t;
     at_secret_hash := token_SecretHash t; at_created_at := fmtTime created;
     at_last_used_at := fmtTimePtr (token_LastUsedAt t); at_revoked_at := fmtTimePtr (token_RevokedAt t);
     at_expires_at := fmtTimePtr (token_ExpiresAt t) |}.

Definition CreateToken (t : APIToken) : Act sqliteDB (result unit) :=
  if String.eqb (token_ID t) "" || String.eqb (token_UserID t) ""
  then mret (Err (NewErr "sqlite: token id and user id are required"))
  else
    let created := if IsZero (token_CreatedAt t) then now env else token_CreatedAt t in
    _ <-? statement (fun d =>
      res_bind (sql_insert api_tokens_unique (references (token_UserID t) (tb_users d))
                  (token_ID t) (token_row created t) (tb_tokens d))
        (fun tb => Ok (tt, with_tokens tb d)));
    mret (Ok tt).

Definition GetTokenByID (id : string) : Act sqliteDB (result APIToken) :=
  r <-? query (fun d => query_row (sql_select (fun r => String.eqb (at_id r) id) (tb_tokens d)));
  mret (scanToken r).

Definition tokens_order (a b : apiTokensRow) : bool :=
  lex_less (fun a b => str_ltb (at_created_at a) (at_created_at b))
    (fun a b => str_ltb (at_id a) (at_id b)) a b.

Definition ListTokens (userID : string) : Act sqliteDB (result (list APIToken)) :=
  rs <-? query (fun d =>
    Ok (sort_Slice tokens_order (sql_select (fun r => String.eqb (at_user_id r) userID) (tb_tokens d))));
  mret (scan_all scanToken rs).

Definition set_token_used_revoked (used revoked : option string) (r : apiTokensRow) : apiTokensRow :=
  {| at_id := at_id r; at_user_id := at_user_id r; at_name := at_name r;
     at_secret_hash := at_secret_hash r; at_created_at := at_created_at r;
     at_last_used_at := used; at_revoked_at := revoked; at_expires_at := at_expires_at r |}.

Definition RevokeToken (id userID : string) : Act sqliteDB (result unit) :=
  n <-? statement (fun d =>
    let '(n, t) := sql_update (fun r => String.eqb (at_id r) id && String.eqb (at_user_id r) userID)
      (fun r => set_token_used_revoked (at_last_used_at r)
                  (Some (default (fmtTime (now env)) (at_revoked_at r))) r) (tb_tokens d) in
    Ok (n, with_tokens t d));
  mret (if n =? 0 then Err (notFound ("token " +:+ id)) else Ok tt).

Definition TouchTokenLastUsed (id : string) (at_ : Z) : Act sqliteDB (result unit) :=
  n <-? statement (fun d =>
    let '(n, t) := sql_update (fun r => String.eqb (at_id r) id)
      (fun r => set_token_used_revoked (Some (fmtTime at_)) (at_revoked_at r) r) (tb_tokens d) in
    Ok (n, with_tokens t d));
  mret (if n =? 0 then Err (notFound ("token " +:+ id)) else Ok tt).

(** *** Codes *)

(** The Go struct [codeRow]: a code with every defaulted value resolved. *)
Record codeRow := {
  cr_c : Code;
  cr_shortCode : string;
  cr_created : Z;
  cr_updated : Z;
  cr_state : CodeState;
  cr_mode : CodeMode;
  cr_styling : Styling;
}.

(** [off] is the offset of the next unused random byte. *)
Definition newCodeRow (off : nat) (c : Code) : result codeRow :=
  if String.eqb (code_ID c) "" || String.eqb (ShortCode c) "" || String.eqb (code_UserID c) ""
  then Err (NewErr "sqlite: code id, short code and user id are required")
  else
    let created := if IsZero (code_CreatedAt c) then now env else code_CreatedAt c in
    Ok {| cr_c := c; cr_shortCode := ToLower (ShortCode c); cr_created := created;
          cr_updated := if IsZero (UpdatedAt c) then created else UpdatedAt c;
          cr_state := if String.eqb (State c) "" then CodeActive else State c;
          cr_mode := if String.eqb (Mode c) "" then ModeDynamic else Mode c;
          cr_styling := if String.eqb (styling_ID (code_Styling c)) ""
                        then set_styling_ID (NewID (rand_byte env) off "sty") (code_Styling c)
                        else code_Styling c |}.

Fixpoint new_rows (off : nat) (cs : list Code) : result (list codeRow) :=
  match cs with
  | [] => Ok []
  | c :: cs' =>
      res_bind (newCodeRow off c) (fun r =>
      res_bind (new_rows (off + styling_draws c) cs') (fun rs => Ok (r :: rs)))
  end.

(** What the caller's struct reads once the transaction has committed. *)
Definition reflect (r : codeRow) : Code :=
  let c := cr_c r in
  {| code_ID := code_ID c; ShortCode := cr_shortCode r; IsAlias := IsAlias c;
     code_UserID := code_UserID c; Mode := cr_mode r; ClientRef := ClientRef c;
     Destination := Destination c; State := cr_state r; code_Styling := cr_styling r;
     BlobKey := BlobKey c; BlobETag := BlobETag c; Version := 1;
     code_CreatedAt := Truncate (cr_created r) Microsecond;
     UpdatedAt := Truncate (cr_updated r) Microsecond; DeletedAt := None |}.

Definition styling_row (s : Styling) : stylingRow :=
  {| sp_id := styling_ID s; sp_fg_color := FgColor s; sp_bg_color := BgColor s;
     sp_module_shape := styling_ModuleShape s; sp_margin_modules := MarginModules s;
     sp_size_px := SizePx s; sp_ec_level := styling_ECLevel s;
     sp_ec_level_effective := ECLevelEffective s; sp_logo_blob_key := nullStr (LogoBlobKey s);
     sp_logo_scale := bind_real (nullFloat (LogoScale s)) |}.

Definition codes_row (r : codeRow) : codesRow :=
  let c := cr_c r in
  {| c_id := code_ID c; c_short_code := cr_shortCode r; c_is_alias := b2i (IsAlias c);
     c_user_id := code_UserID c; c_mode := cr_mode r; c_client_ref := nullStr (ClientRef c);
     c_destination := Destination c; c_state := cr_state r; c_styling_id := styling_ID (cr_styling r);
     c_blob_key := BlobKey c; c_blob_etag := BlobETag c; c_version := SqlInt 1;
     c_created_at := fmtTime (cr_created r); c_updated_at := fmtTime (cr_updated r);
     c_deleted_at := None |}.

Definition sql_insert_styling (s : Styling) (d : sqliteDB) : res dbErr (unit * sqliteDB) :=
  res_bind (sql_insert styling_unique true (styling_ID s) (styling_row s) (tb_styling d))
    (fun t => Ok (tt, with_styling t d)).

Definition sql_insert_code (r : codeRow) (d : sqliteDB) : res dbErr (unit * sqliteDB) :=
  let row := codes_row r in
  res_bind (sql_insert codes_unique
              (references (c_user_id row) (tb_users d) && references (c_styling_id row) (tb_styling d))
              (c_id row) row (tb_codes d))
    (fun t => Ok (tt, with_codes t d)).

(** The upsert of the reservation: a present row is re-armed only when it was
    released.  The number of rows affected. *)
Definition sql_reserve (r : codeRow) (d : sqliteDB) : res dbErr (Z * sqliteDB) :=
  let key := cr_shortCode r in
  let row := {| ar_short_code := key; ar_code_id := Some (code_ID (cr_c r));
                ar_reserved_at := fmtTime (now env); ar_released_at := None |} in
  match tb_reservations d !! key with
  | Some old =>
      match ar_released_at old with
      | Some _ => Ok (1, with_reservations (<[key := row]> (tb_reservations d)) d)
      | None => Ok (0, d)
      end
  | None =>
      if references (code_ID (cr_c r)) (tb_codes d)
      then Ok (1, with_reservations (<[key := row]> (tb_reservations d)) d)
      else Err (SqliteError SQLITE_CONSTRAINT_FOREIGNKEY "FOREIGN KEY constraint failed")
  end.

Definition insertCode (r : codeRow) : Act sqliteDB (result unit) :=
  _ <-? statement (sql_insert_styling (cr_styling r));
  _ <-? statement (sql_insert_code r);
  n <-? statement (sql_reserve r);
  mret (if n =? 0 then Err (Wrap "sqlite: short code reserved" ErrAliasTaken) else Ok tt).

Fixpoint insert_codes (rs : list codeRow) : Act sqliteDB (result unit) :=
  match rs with
  | [] => mret (Ok tt)
  | r :: rs' => _ <-! insertCode r; insert_codes rs'
  end.

Definition CreateCodes (cs : list Code) : Act sqliteDB (result (list Code)) :=
  match cs with
  | [] => mret (Ok [])
  | _ =>
      match new_rows 0 cs with
      | Err e => mret (Err e)
      | Ok rows => _ <-! withTx (insert_codes rows); mret (Ok (reflect <$> rows))
      end
  end.

Definition CreateCode (c : Code) : Act sqliteDB (result Code) :=
  out <-! CreateCodes [c]; mret (Ok (default c (head out))).

(** The first row of the live codes of a short code, then of the deleted code
    that holds its reservation. *)
Definition shortcode_order (a b : codesRow) : bool :=
  lex_less (fun a b => row_live a && negb (row_live b))
    (fun a b => str_ltb (c_created_at b) (c_created_at a)) a b.

Definition sql_by_short_code (sc : string) (d : sqliteDB) : list (codesRow * stylingRow) :=
  let holder :=                            (* the subquery: NULL when there is no row *)
    match tb_reservations d !! sql_lower sc with
    | Some r => match ar_released_at r with None => ar_code_id r | Some _ => None end
    | None => None
    end in
  let P r := nocase_eqb (c_short_code r) sc
             && (row_live r || match holder with Some id => String.eqb (c_id r) id | None => false end) in
  take 1 (sort_Slice (fun a b => shortcode_order a.1 b.1) (join_styling d (sql_select P (tb_codes d)))).

Definition GetCodeByShortCode (sc : string) : Act sqliteDB (result Code) :=
  r <-? query (fun d => query_row (sql_by_short_code sc d));
  mret (scanCode r).

Definition GetCodeByID (id userID : string) : Act sqliteDB (result Code) :=
  r <-? query (fun d => query_row (join_styling d
         (sql_select (fun r => String.eqb (c_id r) id && String.eqb (c_user_id r) userID) (tb_codes d))));
  mret (scanCode r).

Definition GetCodeByClientRef (userID ref : string) : Act sqliteDB (result Code) :=
  if String.eqb ref "" then mret (Err (notFound "client_ref"))
  else
    r <-? query (fun d => query_row (join_styling d
           (sql_select (fun r => String.eqb (c_user_id r) userID
                                 && bool_decide (c_client_ref r = Some ref)) (tb_codes d))));
    mret (scanCode r).

(** *** Listing *)
Definition encodeCursor (p : cursorPos) : string :=
  EncodeToString alphabet_url (bytes (fmtTime (cp_createdAt p) +:+ String "000" (cp_id p))).

Definition decodeCursor (s : string) : result cursorPos :=
  match DecodeString alphabet_url s with
  | None => Err (Wrap "sqlite: invalid cursor" (NewErr "base64"))
  | Some raw =>
      let '(ts, id, ok) := CutByte (of_bytes raw) "000" in
      if negb ok || String.eqb id "" then Err (NewErr "sqlite: invalid cursor")
      else match parseTime ts with
      | Err e => Err (Wrap "sqlite: invalid cursor" e)
      | Ok t => Ok {| cp_createdAt := t; cp_id := id |}
      end
  end.

Definition codes_order (a b : codesRow) : bool :=
  lex_less (fun a b => str_ltb (c_created_at b) (c_created_at a))
    (fun a b => str_ltb (c_id b) (c_id a)) a b.

(** The conditions of the [WHERE] clause, in the order they are appended. *)
Definition list_where (f : CodeFilter) (after : option cursorPos) (r : codesRow) : bool :=
  String.eqb (c_user_id r) (f_UserID f) && row_live r
  && from_option (fun t => str_ltb (fmtTime t) (c_created_at r)) true (CreatedAfter f)
  && from_option (fun t => str_ltb (c_created_at r) (fmtTime t)) true (CreatedBefore f)
  && (String.eqb (f_Destination f) ""
      || Contains (sql_lower (c_destination r)) (sql_lower (f_Destination f)))
  && from_option (fun p =>
       let ts := fmtTime (cp_createdAt p) in
       str_ltb (c_created_at r) ts
       || (String.eqb (c_created_at r) ts && str_ltb (c_id r) (cp_id p))) true after.

Definition ListCodes (f : CodeFilter) : Act sqliteDB (result (list Code * string)) :=
  let limit := page_limit f in
  match (if String.eqb (Cursor f) "" then Ok None
         else res_bind (decodeCursor (Cursor f)) (fun p => Ok (Some p))) with
  | Err e => mret (Err e)
  | Ok after =>
      rs <-? query (fun d => Ok (take (limit + 1)
             (sort_Slice (fun a b => codes_order a.1 b.1)
                (join_styling d (sql_select (list_where f after) (tb_codes d))))));
      mret (res_bind (scan_all scanCode rs) (fun out =>
        if bool_decide (limit < length out)%nat then
          let page := take limit out in
          Ok (page, from_option (fun c => encodeCursor
                      {| cp_createdAt := code_CreatedAt c; cp_id := code_ID c |}) "" (last page))
        else Ok (out, "")))
  end.

(** *** Mutations of one code *)

(** [ownedExists]: does [userID] have a code [id]? *)
Definition ownedExists (id userID : string) : Act sqliteDB (result bool) :=
  r ← query (fun d => query_row
        (sql_select (fun r => String.eqb (c_id r) id && String.eqb (c_user_id r) userID) (tb_codes d)));
  mret match r with
       | Ok _ => Ok true
       | Err ErrNoRows => Ok false
       | Err e => Err (translate e)
       end.

Definition set_codes_row (dest state : string) (updated : string) (deleted : option string)
    (r : codesRow) : codesRow :=
  {| c_id := c_id r; c_short_code := c_short_code r; c_is_alias := c_is_alias r;
     c_user_id := c_user_id r; c_mode := c_mode r; c_client_ref := c_client_ref r;
     c_destination := dest; c_state := state; c_styling_id := c_styling_id r;
     c_blob_key := c_blob_key r; c_blob_etag := c_blob_etag r;
     c_version := integer_affinity (sql_plus (c_version r) (SqlInt 1));
     c_created_at := c_created_at r; c_updated_at := updated; c_deleted_at := deleted |}.

(** [UPDATE codes SET ... WHERE ...].  The statements keep a live row's short
    code and never make a deleted row live, so the unique indexes still hold. *)
Definition sql_update_codes (P : codesRow -> bool) (f : codesRow -> codesRow) (d : sqliteDB)
    : res dbErr (Z * sqliteDB) :=
  let '(n, t) := sql_update P f (tb_codes d) in Ok (n, with_codes t d).

(** What the three mutations do when their guarded update touched no row:
    [gone] when the caller has no such code, else [present]. *)
Definition when_owned (id userID : string) (present : result unit) : Act sqliteDB (result unit) :=
  exists_ <-! ownedExists id userID;
  mret (if negb exists_ then Err (notFound ("code " +:+ id)) else present).

Definition UpdateDestination (id userID dest : string) (expectedVersion : Z) : Act sqliteDB (result unit) :=
  withTx (
    n <-? statement (sql_update_codes
            (fun r => String.eqb (c_id r) id && String.eqb (c_user_id r) userID
                      && num_eqb (c_version r) expectedVersion && row_live r)
            (fun r => set_codes_row dest (c_state r) (fmtTime (now env)) (c_deleted_at r) r));
    if n =? 1 then mret (Ok tt)
    else when_owned id userID (Err (conflict ("code " +:+ id +:+ " version mismatch or deleted")))).

Definition SetCodeState (id userID : string) (state : CodeState) : Act sqliteDB (result unit) :=
  if String.eqb state CodeActive || String.eqb state CodeDisabled then
    withTx (
      n <-? statement (sql_update_codes
              (fun r => String.eqb (c_id r) id && String.eqb (c_user_id r) userID && row_live r)
              (fun r => set_codes_row (c_destination r) state (fmtTime (now env)) (c_deleted_at r) r));
      if n =? 1 then mret (Ok tt)
      else when_owned id userID (Err (conflict ("code " +:+ id +:+ " is deleted"))))
  else if String.eqb state CodeDeleted then mret (Err (NewErr "sqlite: use DeleteCode to delete"))
  else mret (Err (NewErr "sqlite: unknown state")).

Definition DeleteCode (id userID : string) : Act sqliteDB (result unit) :=
  withTx (
    let ts := fmtTime (now env) in
    n <-? statement (sql_update_codes
            (fun r => String.eqb (c_id r) id && String.eqb (c_user_id r) userID && row_live r)
            (fun r => set_codes_row (c_destination r) CodeDeleted ts (Some ts) r));
    if n =? 1 then mret (Ok tt) else when_owned id userID (Ok tt)).

(** *** Aliases *)
Definition live_named (sc : string) (r : codesRow) : bool :=
  nocase_eqb (c_short_code r) sc && row_live r.
Definition reserved_as (key : string) (r : reservationsRow) : bool :=
  String.eqb (ar_short_code r) key && bool_decide (ar_released_at r = None).

Definition IsAliasAvailable (sc : string) : Act sqliteDB (result bool) :=
  n <-? query (fun d =>
    Ok (sql_count (live_named sc) (tb_codes d)
        + sql_count (reserved_as (sql_lower sc)) (tb_reservations d)));
  mret (Ok (n =? 0)).

Definition set_released (at_ : string) (r : reservationsRow) : reservationsRow :=
  {| ar_short_code := ar_short_code r; ar_code_id := ar_code_id r;
     ar_reserved_at := ar_reserved_at r; ar_released_at := Some at_ |}.

Definition ReleaseAlias (sc : string) : Act sqliteDB (result unit) :=
  let key := ToLower sc in
  withTx (
    one ← query (fun d => query_row (sql_select (reserved_as key) (tb_reservations d)));
    match one with
    | Err ErrNoRows => mret (Err (notFound ("alias " +:+ key +:+ " not reserved")))
    | Err e => mret (Err (translate e))
    | Ok _ =>
        live <-? query (fun d => Ok (sql_count (live_named key) (tb_codes d)));
        if 0 <? live then mret (Err (conflict ("alias " +:+ key +:+ " owned by live code")))
        else
          _ <-? statement (fun d =>
            let '(n, t) := sql_update (reserved_as key) (set_released (fmtTime (now env))) (tb_reservations d) in
            Ok (n, with_reservations t d));
          mret (Ok tt)
    end).

(** *** Analytics *)
Definition malformed_event (ev : ScanEvent) : bool := String.eqb (ev_CodeID ev) "" || IsZero (OccurredAt ev).
Definition malformed_rollup (r : RollupDelta) : bool :=
  String.eqb (rd_CodeID r) "" || String.eqb (rd_Dimension r) "" || IsZero (HourBucket r).

Definition event_row (id : Z) (ev : ScanEvent) : scanEventsRow :=
  {| se_id := id; se_code_id := ev_CodeID ev; se_occurred_at := fmtTime (OccurredAt ev);
     se_ua_family := UAFamily ev; se_device_category := ev_DeviceCategory ev;
     se_referrer_host := ReferrerHost ev; se_is_bot := b2i (IsBot ev) |}.

(** One execution of the prepared event insert: [AUTOINCREMENT] takes the next
    id, until there is none. *)
Definition sql_insert_event (ev : ScanEvent) (d : sqliteDB) : res dbErr (unit * sqliteDB) :=
  let id := tb_events_seq d + 1 in
  if negb (int64_okb id) then Err (SqliteError SQLITE_FULL "database or disk is full")
  else if negb (references (ev_CodeID ev) (tb_codes d))
  then Err (SqliteError SQLITE_CONSTRAINT_FOREIGNKEY "FOREIGN KEY constraint failed")
  else
    Ok (tt, with_events (<[id := event_row id ev]> (tb_events d)) id d).

Definition rollup_pk (r : RollupDelta) : rollupPK :=
  (rd_CodeID r, fmtTime (Truncate (HourBucket r) Hour), rd_Dimension r, rd_Value r).

Definition sql_upsert_rollup (r : RollupDelta) (d : sqliteDB) : res dbErr (unit * sqliteDB) :=
  match tb_rollups d !! rollup_pk r with
  | Some n =>
      let n' := integer_affinity (sql_plus n (SqlInt (rd_Count r))) in
      Ok (tt, with_rollups (<[rollup_pk r := n']> (tb_rollups d)) d)
  | None =>
      if references (rd_CodeID r) (tb_codes d)
      then Ok (tt, with_rollups (<[rollup_pk r := SqlInt (rd_Count r)]> (tb_rollups d)) d)
      else Err (SqliteError SQLITE_CONSTRAINT_FOREIGNKEY "FOREIGN KEY constraint failed")
  end.

(** [for _, x := range xs { if _, err := stmt.Exec(x); err != nil { return translate(err) } }] *)
Fixpoint exec_each {X} (s : X -> sqliteDB -> res dbErr (unit * sqliteDB)) (xs : list X)
    : Act sqliteDB (result unit) :=
  match xs with
  | [] => mret (Ok tt)
  | x :: xs' => _ <-? statement (s x); exec_each s xs'
  end.

(** [PrepareContext], then the executions. *)
Definition prepared {X} (s : X -> sqliteDB -> res dbErr (unit * sqliteDB)) (xs : list X)
    : Act sqliteDB (result unit) :=
  match xs with
  | [] => mret (Ok tt)
  | _ => _ <-? query (fun d => Ok tt); exec_each s xs
  end.

Definition InsertScanBatch (b : ScanBatch) : Act sqliteDB (result unit) :=
  match Events b, Rollups b with
  | [], [] => mret (Ok tt)
  | _, _ =>
      if existsb malformed_event (Events b) then mret (Err (NewErr "sqlite: event is malformed"))
      else if existsb malformed_rollup (Rollups b) then mret (Err (NewErr "sqlite: rollup is malformed"))
      else withTx (_ <-! prepared sql_insert_event (Events b); prepared sql_upsert_rollup (Rollups b))
  end.

Definition in_range (q : AnalyticsQuery) (p : rollupPK * sqlNum) : bool :=
  let '(code, hour, _, _) := p.1 in
  String.eqb code (q_CodeID q) && negb (str_ltb hour (fmtTime (q_From q)))
  && str_ltb hour (fmtTime (q_To q)).

Fixpoint add_rows (rows : list (rollupPK * sqlNum)) (a : aggregator) : result aggregator :=
  match rows with
  | [] => Ok a
  | ((_, hourS, dim, value), n) :: rows' =>
      res_bind (scan_int n) (fun n =>
      res_bind (parseTime hourS) (fun hour => add_rows rows' (add a hour dim value n)))
  end.

Definition QueryAnalytics (q : AnalyticsQuery) : Act sqliteDB (result AnalyticsResult) :=
  let bucket := if String.eqb (q_Bucket q) "" then BucketDay else q_Bucket q in
  rows <-? query (fun d => Ok (filter (fun p => in_range q p = true) (map_to_list (tb_rollups d))));
  mret (res_bind (add_rows rows (newAggregator bucket)) (fun a => Ok (agg_result a))).

Definition events_order (a b : scanEventsRow) : bool :=
  lex_less (fun a b => str_ltb (se_occurred_at a) (se_occurred_at b))
    (fun a b => se_id a <? se_id b) a b.

(** [DELETE ... WHERE id IN (SELECT id ... ORDER BY occurred_at, id LIMIT ?)] *)
Definition sql_prune (before : string) (limit : Z) (d : sqliteDB) : res dbErr (Z * sqliteDB) :=
  let old := sort_Slice events_order
               (sql_select (fun r => str_ltb (se_occurred_at r) before) (tb_events d)) in
  let drop : gset Z := list_to_set (se_id <$> take (Z.to_nat limit) old) in
  let gone := sql_count (fun r => bool_decide (se_id r ∈ drop)) (tb_events d) in
  let kept := filter (fun p : Z * scanEventsRow => se_id p.2 ∉ drop) (tb_events d) in
  Ok (gone, with_events kept (tb_events_seq d) d).

Definition PruneScanEvents (before limit : Z) : Act sqliteDB (result Z) :=
  if limit <=? 0 then mret (Ok 0)
  else n <-? statement (sql_prune (fmtTime before) limit); mret (Ok n).

(** *** Bulk iteration

    A walker streams the rows of one query, the snapshot it was given; between
    two rows [fn] may use the store.  Fetching the next row may fail. *)
Section walkers.
Context {S : Type}.

Fixpoint walk {R A} (scan : R -> result A) (fn : A -> S -> Act sqliteDB (result unit * S))
    (rows : list R) (s : S) : Act sqliteDB (result unit * S) :=
  next ← query (fun d => Ok tt);
  match next with
  | Err e => mret (Err (translate e), s)
  | Ok _ =>
      match rows with
      | [] => mret (Ok tt, s)
      | r :: rows' =>
          match scan r with
          | Err e => mret (Err e, s)
          | Ok a =>
              rs ← fn a s;
              match rs with
              | (Err e, s') => mret (Err e, s')
              | (Ok _, s') => walk scan fn rows' s'
              end
          end
      end
  end.

Definition for_each {R A} (rows : sqliteDB -> list R) (scan : R -> result A)
    (fn : A -> S -> Act sqliteDB (result unit * S)) (s : S) : Act sqliteDB (result unit * S) :=
  rs ← query (fun d => Ok (rows d));
  match rs with
  | Err e => mret (Err (translate e), s)
  | Ok rs => walk scan fn rs s
  end.

Definition users_order (a b : usersRow) : bool :=
  lex_less (fun a b => str_ltb (users_created_at a) (users_created_at b))
    (fun a b => str_ltb (users_id a) (users_id b)) a b.
Definition ForEachUser :=
  for_each (fun d => sort_Slice users_order (rows_of (tb_users d))) scanUser.

Definition codes_walk_order (a b : codesRow * stylingRow) : bool :=
  lex_less (fun a b => str_ltb (c_created_at a.1) (c_created_at b.1))
    (fun a b => str_ltb (c_id a.1) (c_id b.1)) a b.
Definition ForEachCode :=
  for_each (fun d => sort_Slice codes_walk_order (join_styling d (rows_of (tb_codes d)))) scanCode.

Definition rollups_order (a b : rollupPK * sqlNum) : bool :=
  lex_less (fun a b => str_ltb a.1.1.1.1 b.1.1.1.1)
    (lex_less (fun a b => str_ltb a.1.1.1.2 b.1.1.1.2)
      (lex_less (fun a b => str_ltb a.1.1.2 b.1.1.2)
        (fun a b => str_ltb a.1.2 b.1.2))) a b.
Definition scanRollup (p : rollupPK * sqlNum) : result RollupDelta :=
  let '(code, hourS, dim, value) := p.1 in
  res_bind (scan_int p.2) (fun n =>
  res_bind (parseTime hourS) (fun hour =>
  Ok {| rd_CodeID := code; HourBucket := hour; rd_Dimension := dim; rd_Value := value; rd_Count := n |})).
Definition ForEachRollup :=
  for_each (fun d => sort_Slice rollups_order (map_to_list (tb_rollups d))) scanRollup.

Definition scanReservation (r : reservationsRow) : result AliasReservation :=
  res_bind (parseTime (ar_reserved_at r)) (fun reserved =>
  res_bind (parseTimePtr (ar_released_at r)) (fun released =>
  Ok {| ar_ShortCode := ar_short_code r; ar_CodeID := default "" (ar_code_id r);
        ReservedAt := reserved; ReleasedAt := released |})).
Definition ForEachReservation :=
  for_each (fun d => sort_Slice (fun a b => str_ltb (ar_short_code a) (ar_short_code b))
                       (rows_of (tb_reservations d))) scanReservation.
End walkers.
End operations.
End sqlite.
