(* ===== verification/SqliteRel.v ===== *)
(** * Databases and in-memory stores

    The relation between a SQLite database and the in-memory store: every row
    is the encoding of an entry, every entry has its row.  It carries what the
    encodings need of the entries: instants the time layout represents, ASCII
    names (SQLite folds the case of ASCII letters only), counters in range and
    references that resolve.  Then the operations on users and tokens. *)
From Stdlib Require Import Ascii String.
From S2P Require Import GoLib Act Domain Base64 Rollup MemStore MemStoreFacts Sql Sqlite.
Local Open Scope string_scope.
Local Open Scope Z_scope.

(** An instant with no digits below the microsecond: [micro].  An instant the
    code may be given: zero, or one that stays non-zero when truncated. *)
Definition stamp (t : Z) : Prop := year_ok t /\ (t = 0 \/ Microsecond <= t).
Definition stamp_opt (t : option Z) : Prop := from_option stamp True t.
Definition micro_opt (t : option Z) : Prop := from_option micro True t.
Definition name_byte (c : ascii) : bool := is_ascii c && negb (Ascii.eqb c "000").
Definition ascii_str (s : string) : Prop := string_forall name_byte s = true.
Definition lowered (s : string) : Prop := string_forall (fun c => name_byte c && negb (is_upper c)) s = true.

Definition trunc (t : Z) : Z := Truncate t Microsecond.

Arguments trunc : simpl never.
Arguments micro_opt : simpl never.
Arguments stamp_opt : simpl never.
Arguments fmtTime : simpl never.
Arguments fmtTimePtr : simpl never.
Arguments now : simpl never.

Lemma micro_trunc t : year_ok t -> micro (trunc t).
Proof.
  intros Ht. split; [|by apply Truncate_multiple].
  pose proof (Truncate_le t Microsecond). unfold trunc, year_ok in *.
  unfold Truncate, Microsecond in *. simpl in *. pose proof (Z.mod_pos_bound t 1000).
  pose proof (Z.mod_le t 1000). lia.
Qed.

Lemma trunc_micro t : micro t -> trunc t = t.
Proof. intros [_ Hm]. by apply Truncate_id. Qed.

Lemma IsZero_trunc t : stamp t -> IsZero (trunc t) = IsZero t.
Proof.
  intros [Hy Hs]. unfold IsZero. apply Bool.eq_iff_eq_true. rewrite !Z.eqb_eq.
  pose proof (Truncate_le t Microsecond ltac:(done)) as Hle. fold (trunc t) in Hle.
  pose proof (micro_trunc t Hy) as [_ Hm].
  split; [intros E|intros ->; done]. destruct Hs as [|Hs]; [done|]. exfalso. unfold Microsecond in *. lia.
Qed.

Section encodings.
Context `{U : UnicodeTable} `{TF : TimeFormat} `{ST : SqlTime} `{!SqlTimeOk}.

Lemma fmtTime_trunc t : fmtTime (trunc t) = fmtTime t.
Proof. unfold fmtTime, trunc. by rewrite Truncate_idemp. Qed.

Lemma parse_fmtTime t : micro t -> parseTime (fmtTime t) = Ok t.
Proof.
  intros Ht. unfold parseTime, fmtTime. fold (trunc t). rewrite trunc_micro by done.
  by rewrite parse_tsLayout.
Qed.

Lemma parse_fmtTimePtr t : micro_opt t -> parseTimePtr (fmtTimePtr t) = Ok t.
Proof. destruct t as [t|]; [|done]. intros Ht. unfold fmtTimePtr, parseTimePtr. simpl. by rewrite parse_fmtTime. Qed.

Lemma fmtTime_inj t u : micro t -> micro u -> fmtTime t = fmtTime u -> t = u.
Proof. intros Ht Hu E. pose proof (parse_fmtTime t Ht) as P. rewrite E, parse_fmtTime in P by done. by simplify_eq. Qed.

Lemma fmtTime_ltb t u : micro t -> micro u -> str_ltb (fmtTime t) (fmtTime u) = (t <? u).
Proof.
  intros Ht Hu. unfold fmtTime. change (Truncate t _) with (trunc t). change (Truncate u _) with (trunc u).
  rewrite !trunc_micro by done. by apply tsLayout_order.
Qed.

Lemma fmtTime_eqb t u : micro t -> micro u -> String.eqb (fmtTime t) (fmtTime u) = (t =? u).
Proof.
  intros Ht Hu. apply Bool.eq_iff_eq_true. rewrite String.eqb_eq, Z.eqb_eq.
  split; [by apply fmtTime_inj|by intros ->].
Qed.

(** ** Entries as rows *)
Definition urow (u : User) : usersRow := user_row (user_CreatedAt u) u.
Definition trow (t : APIToken) : apiTokensRow := token_row (token_CreatedAt t) t.
Definition crow (c : Code) : codesRow :=
  {| c_id := code_ID c; c_short_code := ShortCode c; c_is_alias := b2i (IsAlias c);
     c_user_id := code_UserID c; c_mode := Mode c; c_client_ref := nullStr (ClientRef c);
     c_destination := Destination c; c_state := State c; c_styling_id := styling_ID (code_Styling c);
     c_blob_key := BlobKey c; c_blob_etag := BlobETag c; c_version := SqlInt (Version c);
     c_created_at := fmtTime (code_CreatedAt c); c_updated_at := fmtTime (UpdatedAt c);
     c_deleted_at := fmtTimePtr (DeletedAt c) |}.
Definition rrow (key : string) (r : reservation) : reservationsRow :=
  {| ar_short_code := key; ar_code_id := Some (res_codeID r);
     ar_reserved_at := fmtTime (res_reservedAt r); ar_released_at := fmtTimePtr (res_releasedAt r) |}.
Definition erow (r : scanRow) : Z * scanEventsRow := (sr_seq r, event_row (sr_seq r) (sr_ev r)).

(** ** What the encodings need *)
Definition real_ok (f : float64) : Prop := default f64_zero (bind_real (nullFloat f)) = f.

Record user_ok (u : User) : Prop := {
  uok_created : micro (user_CreatedAt u);
  uok_login : micro_opt (user_LastLoginAt u);
  uok_email : ascii_str (user_Email u);
}.
Record token_ok (t : APIToken) : Prop := {
  tok_created : micro (token_CreatedAt t);
  tok_used : micro_opt (token_LastUsedAt t);
  tok_revoked : micro_opt (token_RevokedAt t);
  tok_expires : micro_opt (token_ExpiresAt t);
}.
Record code_ok (c : Code) : Prop := {
  cok_created : micro (code_CreatedAt c);
  cok_updated : micro (UpdatedAt c);
  cok_deleted : micro_opt (DeletedAt c);
  cok_short : lowered (ShortCode c);
  cok_scale : real_ok (LogoScale (code_Styling c));
  cok_id : code_ID c <> "";
}.

Lemma b2i_bool b : negb (b2i b =? 0) = b.
Proof. by destruct b. Qed.
Lemma nullStr_default s : default "" (nullStr s) = s.
Proof. unfold nullStr. by destruct (String.eqb_spec s "") as [->|]. Qed.
Lemma nullStr_Some s r : nullStr s = Some r <-> s = r /\ r <> "".
Proof. unfold nullStr. destruct (String.eqb_spec s "") as [->|]; naive_solver. Qed.

Lemma scan_user_row u : user_ok u -> scanUser (urow u) = Ok u.
Proof.
  intros [H1 H2 _]. unfold scanUser. cbn -[parseTime parseTimePtr].
  rewrite parse_fmtTime by done. cbn [res_bind]. rewrite parse_fmtTimePtr by done. cbn [res_bind].
  rewrite nullStr_default, b2i_bool. by destruct u.
Qed.

Lemma scan_token_row t : token_ok t -> scanToken (trow t) = Ok t.
Proof.
  intros [H1 H2 H3 H4]. unfold scanToken. cbn -[parseTime parseTimePtr].
  rewrite parse_fmtTime by done. cbn [res_bind]. rewrite !parse_fmtTimePtr by done. by destruct t.
Qed.

Lemma scan_code_row c : code_ok c -> scanCode (crow c, styling_row (code_Styling c)) = Ok c.
Proof.
  intros [H1 H2 H3 H4 H5 _]. unfold scanCode. cbn -[parseTime parseTimePtr].
  rewrite !parse_fmtTime by done. cbn [res_bind]. rewrite parse_fmtTimePtr by done. cbn [res_bind].
  rewrite !nullStr_default, b2i_bool, H5. by destruct c as [????????[]].
Qed.

(** ** The relation *)
Record mem_ok (m : memStore) : Prop := {
  mok_wf : wf_store m;
  mok_users id u : users m !! id = Some u -> user_ok u;
  mok_tokens id t : tokens m !! id = Some t -> token_ok t;
  mok_codes id c : codes m !! id = Some c -> code_ok c;
  mok_res key r : reservations m !! key = Some r ->
    lowered key /\ micro (res_reservedAt r) /\ micro_opt (res_releasedAt r);
  mok_events r : r ∈ events m -> micro (OccurredAt (sr_ev r)) /\ sr_seq r <= nextSeq m;
  mok_seqs : NoDup (sr_seq <$> events m);
  mok_rollups k n : rollups m !! k = Some n ->
    micro (rk_hour k) /\ is_Some (codes m !! rk_code k);
}.

Record rel (d : sqliteDB) (m : memStore) : Prop := {
  rel_ok : mem_ok m;
  rel_users : tb_users d = urow <$> users m;
  rel_tokens : tb_tokens d = trow <$> tokens m;
  rel_codes : tb_codes d = crow <$> codes m;
  rel_styling id c : codes m !! id = Some c ->
    tb_styling d !! styling_ID (code_Styling c) = Some (styling_row (code_Styling c));
  rel_res key : tb_reservations d !! key = rrow key <$> reservations m !! key;
  rel_events : tb_events d = list_to_map (erow <$> events m);
  rel_seq : tb_events_seq d = nextSeq m;
  rel_rollups code h dim v : micro h ->
    tb_rollups d !! (code, fmtTime h, dim, v)
    = SqlInt <$> rollups m !! {| rk_code := code; rk_hour := h; rk_dim := dim; rk_val := v |};
  rel_sty_key k s : tb_styling d !! k = Some s -> sp_id s = k;
  rel_hours code hs dim v n : tb_rollups d !! (code, hs, dim, v) = Some n -> exists h, micro h /\ hs = fmtTime h;
}.

Lemma rel_empty : rel empty_db NewMemStore.
Proof.
  split; unfold empty_db, NewMemStore; cbn;
    try (intros *; rewrite ?lookup_empty, ?fmap_empty; done).
  split; cbn; try (intros *; rewrite ?lookup_empty; done).
  - apply wf_NewMemStore.
  - intros r Hr. by apply not_elem_of_nil in Hr.
  - constructor.
Qed.

(** ** Names *)
Lemma ascii_str_ascii s : ascii_str s -> string_forall is_ascii s = true.
Proof. apply string_forall_impl. by intros c [? _]%andb_prop. Qed.

Lemma ToLower_name s : ascii_str s -> ToLower s = string_map lower_byte s.
Proof. intros Hs. by apply ToLower_ascii, ascii_str_ascii. Qed.

Lemma sql_lower_ascii s : ascii_str s -> sql_lower s = ToLower s.
Proof. intros Hs. unfold sql_lower. by rewrite ToLower_name. Qed.

Lemma lowered_ascii s : lowered s -> ascii_str s.
Proof. apply string_forall_impl. by intros c [? _]%andb_prop. Qed.

Lemma ToLower_lowered s : lowered s -> ToLower s = s.
Proof.
  intros Hs. apply ToLower_id. revert Hs. apply string_forall_impl. intros c [[Ha _]%andb_prop Hu]%andb_prop. by rewrite Ha, Hu.
Qed.

Lemma lower_ascii s : ascii_str s -> lowered (ToLower s).
Proof.
  intros Hs. rewrite ToLower_name by done. unfold lowered. apply string_forall_spec.
  intros c Hc. unfold string_map in Hc. rewrite bytes_of_bytes in Hc.
  apply list_elem_of_fmap in Hc as (b & -> & Hb).
  pose proof (proj1 (string_forall_spec _ _) Hs b Hb) as Ha. revert Ha. clear.
  by destruct b as [[] [] [] [] [] [] [] []].
Qed.

Lemma nocase_key key sc : lowered key -> ascii_str sc -> nocase_eqb key sc = String.eqb key (ToLower sc).
Proof.
  intros Hk Hs. unfold nocase_eqb. rewrite !sql_lower_ascii by (done || by apply lowered_ascii).
  by rewrite (ToLower_lowered key).
Qed.

Lemma nocase_emails a b : ascii_str a -> ascii_str b -> nocase_eqb a b = String.eqb (ToLower a) (ToLower b).
Proof. intros Ha Hb. unfold nocase_eqb. by rewrite !sql_lower_ascii. Qed.
End encodings.

(** Errors the callers cannot tell apart: they match the same sentinels of
    the store. *)
Definition same_error (e e' : error) : Prop := forall s : store_sentinel, errors_Is e s = errors_Is e' s.
Definition agree {A} (r r' : result A) : Prop :=
  match r, r' with
  | Ok a, Ok b => a = b
  | Err e, Err e' => same_error e e'
  | _, _ => False
  end.

Lemma agree_refl {A} (r : result A) : agree r r.
Proof. by destruct r. Qed.

(** The instants of a value, truncated as the driver stores them. *)
Definition env_micro (env : Env) : Env :=
  {| ctx_Err := ctx_Err env; time_Now := now env; rand_byte := rand_byte env |}.
Definition trunc_user (u : User) : User :=
  {| user_ID := user_ID u; user_Email := user_Email u; user_PasswordHash := user_PasswordHash u;
     user_IsAdmin := user_IsAdmin u; user_TokenVersion := user_TokenVersion u;
     user_Source := user_Source u; user_CreatedAt := trunc (user_CreatedAt u);
     user_LastLoginAt := trunc <$> user_LastLoginAt u |}.
Definition trunc_token (t : APIToken) : APIToken :=
  {| token_ID := token_ID t; token_UserID := token_UserID t; token_Name := token_Name t;
     token_SecretHash := token_SecretHash t; token_CreatedAt := trunc (token_CreatedAt t);
     token_LastUsedAt := trunc <$> token_LastUsedAt t; token_RevokedAt := trunc <$> token_RevokedAt t;
     token_ExpiresAt := trunc <$> token_ExpiresAt t |}.

Section sim.
Context `{U : UnicodeTable} `{TF : TimeFormat} `{ST : SqlTime} {Hst : SqlTimeOk} `{SE : SqlEngine} {Hse : SqlEngineOk}.
Context (env : Env) (Hctx : ctx_Err env = None) (Hnow : year_ok (time_Now env)).

(** The operation [a] of the driver and the operation [f] of the in-memory
    store, from related states. *)
Definition sim {A} (a : Act sqliteDB (result A)) (f : memStore -> result A * memStore)
    (d : sqliteDB) (m : memStore) : Prop :=
  exists r d', runs a d r d' /\ agree r (f m).1 /\ rel d' (f m).2.
Definition reads {A} (a : Act sqliteDB (result A)) (r : result A) (d : sqliteDB) : Prop :=
  exists r', runs a d r' d /\ agree r' r.

Lemma sim_intro {A} (a : Act sqliteDB (result A)) f d m r d' rm m' :
  f m = (rm, m') -> runs a d r d' -> agree r rm -> rel d' m' -> sim a f d m.
Proof. intros E Hr Ha HR. exists r, d'. by rewrite E. Qed.

Lemma micro_now : micro (now env).
Proof. by apply micro_trunc. Qed.

Lemma fmtTimePtr_trunc t : fmtTimePtr (trunc <$> t) = fmtTimePtr t.
Proof. destruct t as [t|]; [|done]. unfold fmtTimePtr. simpl. by rewrite fmtTime_trunc. Qed.

Lemma micro_opt_trunc t : stamp_opt t -> micro_opt (trunc <$> t).
Proof. destruct t as [t|]; [|done]. intros [Hy _]. by apply micro_trunc. Qed.

(** ** Users *)
Lemma users_clash d m created u :
  rel d m -> ascii_str (user_Email u) ->
  violated users_unique (user_row created u) (tb_users d) = []
  <-> users m !! user_ID u = None /\ emails m !! ToLower (user_Email u) = None.
Proof.
  intros HR Hs. pose proof (rel_ok _ _ HR) as Hok. pose proof (mok_wf _ Hok) as Hwf.
  assert (He : forall k v, users m !! k = Some v ->
            nocase_eqb (user_Email u) (user_Email v) = String.eqb (ToLower (user_Email u)) (ToLower (user_Email v))).
  { intros k v Hv. apply nocase_emails; [done|]. by apply (mok_users _ Hok k). }
  rewrite (rel_users _ _ HR), violated_fmap. unfold users_unique. rewrite !Forall_cons. cbn [u_clash]. split.
  - intros (H1 & H2 & _). split.
    + destruct (users m !! user_ID u) as [v|] eqn:E; [|done]. specialize (H1 _ _ E). simpl in H1.
      by rewrite (wf_users _ Hwf _ _ E), String.eqb_refl in H1.
    + destruct (emails m !! ToLower (user_Email u)) as [id|] eqn:E; [|done].
      apply (wf_emails _ Hwf) in E as (v & Hv & Ev). specialize (H2 _ _ Hv). simpl in H2.
      by rewrite (He _ _ Hv), Ev, String.eqb_refl in H2.
  - intros [H1 H2]. split_and!; [| |done]; intros k v Hv; simpl; apply not_true_is_false.
    + intros E%String.eqb_eq. rewrite (wf_users _ Hwf _ _ Hv) in E. congruence.
    + rewrite (He _ _ Hv). intros E%String.eqb_eq.
      assert (Hk : emails m !! ToLower (user_Email u) = Some k) by (apply (wf_emails _ Hwf); eauto). congruence.
Qed.

Lemma rel_with_users d m m' :
  rel d m -> mem_ok m' -> tokens m' = tokens m -> codes m' = codes m ->
  reservations m' = reservations m -> events m' = events m -> nextSeq m' = nextSeq m ->
  rollups m' = rollups m -> rel (with_users (urow <$> users m') d) m'.
Proof.
  intros [H1 H2 H3 H4 H5 H6 H7 H8 H9 H10 H11] Hok E1 E2 E3 E4 E5 E6.
  split; cbn [with_users tb_users tb_tokens tb_styling tb_codes tb_reservations tb_events tb_events_seq tb_rollups];
    rewrite ?E1, ?E2, ?E3, ?E4, ?E5, ?E6; done.
Qed.

Lemma mem_ok_set_users f m :
  mem_ok m -> wf_store (set_users f m) -> (forall id u, f (users m) !! id = Some u -> user_ok u) ->
  mem_ok (set_users f m).
Proof. intros [H1 H2 H3 H4 H5 H6 H7 H8] Hwf Hu. by split. Qed.

(** What the in-memory store keeps of [u]. *)
Definition kept_user (u : User) : User :=
  let u' := trunc_user u in if IsZero (user_CreatedAt u) then set_user_CreatedAt (now env) u' else u'.

Lemma kept_user_row u : stamp (user_CreatedAt u) ->
  urow (kept_user u) = user_row (if IsZero (user_CreatedAt u) then now env else user_CreatedAt u) u.
Proof.
  intros Hc. unfold kept_user, urow, user_row. destruct (IsZero _);
    cbn [set_user_CreatedAt trunc_user user_ID user_Email user_PasswordHash user_IsAdmin user_TokenVersion
         user_Source user_CreatedAt user_LastLoginAt]; by rewrite ?fmtTime_trunc, fmtTimePtr_trunc.
Qed.

Lemma kept_user_ok u :
  stamp (user_CreatedAt u) -> stamp_opt (user_LastLoginAt u) -> ascii_str (user_Email u) -> user_ok (kept_user u).
Proof.
  intros [Hc _] Hl He. unfold kept_user.
  destruct (IsZero _); split; cbn; auto using micro_now, micro_opt_trunc, micro_trunc.
Qed.

Lemma mem_CreateUser u m : stamp (user_CreatedAt u) ->
  MemStore.CreateUser (env_micro env) (trunc_user u) m =
    if String.eqb (user_ID u) "" || String.eqb (user_Email u) ""
    then (Err (NewErr "memstore: user id and email are required"), m)
    else match users m !! user_ID u with
    | Some _ => (Err (Wrap "memstore: user id" ErrConflict), m)
    | None =>
        match emails m !! ToLower (user_Email u) with
        | Some _ => (Err (Wrap "memstore: email" ErrConflict), m)
        | None => (Ok tt, set_emails <[ToLower (user_Email u) := user_ID u]>
                            (set_users <[user_ID u := kept_user u]> m))
        end
    end.
Proof.
  intros Hc. unfold MemStore.CreateUser, with_ctx, kept_user. cbn [ctx_Err env_micro]. rewrite Hctx.
  change (user_CreatedAt (trunc_user u)) with (trunc (user_CreatedAt u)). rewrite IsZero_trunc by done.
  by destruct (IsZero (user_CreatedAt u)).
Qed.

Lemma CreateUser_sim u d m :
  rel d m -> stamp (user_CreatedAt u) -> stamp_opt (user_LastLoginAt u) -> ascii_str (user_Email u) ->
  sim (CreateUser env no_fault u) (MemStore.CreateUser (env_micro env) (trunc_user u)) d m.
Proof.
  intros HR Hc Hl He. pose proof (rel_ok _ _ HR) as Hok.
  pose proof (wf_CreateUser (env_micro env) (trunc_user u) m (mok_wf _ Hok)) as Hwf.
  pose proof (mem_CreateUser u m Hc) as E. pose proof (users_clash d m (if IsZero (user_CreatedAt u) then now env else user_CreatedAt u) u HR He) as Hv.
  unfold CreateUser. destruct (String.eqb (user_ID u) "" || String.eqb (user_Email u) "") eqn:Hreq.
  { eapply sim_intro; [exact E|apply runs_return|done|done]. }
  destruct (decide (violated users_unique (user_row (if IsZero (user_CreatedAt u) then now env else user_CreatedAt u) u) (tb_users d) = [])) as [Hn|Hn].
  - destruct (proj1 Hv Hn) as [H1 H2]. rewrite H1, H2 in E. rewrite E in Hwf. cbn [snd] in Hwf.
    eapply (sim_intro _ _ _ _ (Ok tt)); [exact E| |done|].
    + eapply runs_checked; [|apply runs_return]. apply runs_statement_Ok; [done|].
      by rewrite (sql_insert_ok _ _ _ _ Hn).
    + rewrite (rel_users _ _ HR), <- kept_user_row, <- fmap_insert by done.
      match goal with |- rel _ ?m' => apply (rel_with_users d m m') end; try done.
      split; try done; try apply Hok.
      intros id v. cbn. intros [[<- <-]|[_ Hv']]%lookup_insert_Some; [by apply kept_user_ok|].
      by apply (mok_users _ Hok id).
  - destruct (sql_insert_clash users_unique true (user_ID u) _ _ Hn) as (e & Ei & He').
    apply violated_err in He'. unfold users_unique in He'. simpl in He'.
    assert (Ht : translate e = Wrap "sqlite" ErrConflict).
    { apply elem_of_cons in He' as [->|He']; [done|]. by apply list_elem_of_singleton in He' as ->. }
    assert (Hr : runs (CreateUser env no_fault u) d (Err (Wrap "sqlite" ErrConflict)) d).
    { rewrite <- Ht. unfold CreateUser. rewrite Hreq. eapply runs_checked_Err.
      apply runs_statement_Err; [done|]. by rewrite Ei. }
    unfold CreateUser in Hr. rewrite Hreq in Hr.
    destruct (users m !! _) eqn:E1; [|destruct (emails m !! _) eqn:E2; [|by destruct (Hn (proj2 Hv (conj eq_refl eq_refl)))]];
      eapply sim_intro; try exact E; try exact Hr; done.
Qed.

(** A query whose rows are then scanned. *)
Lemma runs_scan {R A} (s : sqliteDB -> res dbErr R) (f : R -> result A) d :
  runs (checked translate (query env no_fault s) (fun r => mret (f r))) d
    (match s d with Ok r => f r | Err e => Err (translate e) end) d.
Proof.
  pose proof (runs_query env Hctx s d) as Hq. destruct (s d) as [r|e].
  - eapply runs_checked; [exact Hq|apply runs_return].
  - by apply runs_checked_Err.
Qed.

(** A statement whose result decides. *)
Lemma runs_decide {R A} (s : sqliteDB -> res dbErr (R * sqliteDB)) (f : R -> result A) d :
  runs (checked translate (statement env no_fault s) (fun r => mret (f r))) d
    (match s d with Ok (r, _) => f r | Err e => Err (translate e) end)
    (match s d with Ok (_, d') => d' | Err _ => d end).
Proof.
  pose proof (runs_statement env Hctx s d) as Hq. destruct (s d) as [[r d']|e].
  - eapply runs_checked; [exact Hq|apply runs_return].
  - by apply runs_checked_Err.
Qed.

Lemma GetUserByID_sim id d m :
  rel d m -> reads (GetUserByID env no_fault id) (MemStore.GetUserByID (env_micro env) id m) d.
Proof.
  intros HR. eexists. split; [apply runs_scan|]. pose proof (rel_ok _ _ HR) as Hok.
  rewrite (rel_users _ _ HR), (select_key users_id _ _ id).
  - rewrite lookup_fmap. unfold MemStore.GetUserByID, read_ctx. cbn [ctx_Err env_micro]. rewrite Hctx.
    destruct (users m !! id) as [u|] eqn:E; [|done]. cbn [fmap option_fmap option_map].
    unfold urow at 1. cbn [users_id user_row].
    rewrite (wf_users _ (mok_wf _ Hok) _ _ E), String.eqb_refl. cbn [query_row].
    rewrite scan_user_row; [done|]. by apply (mok_users _ Hok id).
  - intros k r Hk. apply lookup_fmap_Some in Hk as (u & <- & Hu). by apply (wf_users _ (mok_wf _ Hok)).
  - intros r. by apply String.eqb_eq.
Qed.

Lemma GetUserByEmail_sim email d m :
  rel d m -> ascii_str email ->
  reads (GetUserByEmail env no_fault email) (MemStore.GetUserByEmail (env_micro env) email m) d.
Proof.
  intros HR He. eexists. split; [apply runs_scan|]. pose proof (rel_ok _ _ HR) as Hok.
  pose proof (mok_wf _ Hok) as Hwf. rewrite (rel_users _ _ HR).
  unfold MemStore.GetUserByEmail, read_ctx. cbn [ctx_Err env_micro]. rewrite Hctx.
  assert (Hn : forall k u, users m !! k = Some u ->
            nocase_eqb (users_email (urow u)) email = true -> emails m !! ToLower email = Some k).
  { intros k u Hu E. apply (wf_emails _ Hwf). exists u. split; [done|].
    change (users_email (urow u)) with (user_Email u) in E.
    rewrite nocase_emails in E by (done || by apply (mok_users _ Hok k)). by apply String.eqb_eq in E. }
  destruct (emails m !! ToLower email) as [id|] eqn:E.
  - destruct (proj1 (wf_emails _ Hwf _ _) E) as (u & Hu & Eu). rewrite Hu.
    rewrite (select_one _ _ id (urow u)).
    + cbn [query_row]. rewrite scan_user_row; [done|]. by apply (mok_users _ Hok id).
    + by rewrite lookup_fmap, Hu.
    + change (users_email (urow u)) with (user_Email u).
      rewrite nocase_emails by (done || by apply (mok_users _ Hok id)). by apply String.eqb_eq.
    + intros k r Hk HP. apply lookup_fmap_Some in Hk as (v & <- & Hv).
      specialize (Hn _ _ Hv HP). congruence.
  - rewrite select_none; [done|]. intros k r Hk. apply lookup_fmap_Some in Hk as (v & <- & Hv).
    apply not_true_is_false. intros HP. by specialize (Hn _ _ Hv HP).
Qed.

Lemma CountUsers_sim d m :
  rel d m -> reads (CountUsers env no_fault) (MemStore.CountUsers (env_micro env) m) d.
Proof.
  intros HR. eexists. split; [apply runs_scan|]. rewrite (rel_users _ _ HR).
  unfold MemStore.CountUsers, read_ctx. cbn [ctx_Err env_micro]. rewrite Hctx. simpl.
  unfold sql_count, sql_select. rewrite filter_all by done.
  unfold rows_of. rewrite length_fmap, length_map_to_list. by rewrite map_size_fmap.
Qed.

(** The counter, when it has room. *)
Lemma plus_one z : int64_ok z -> z < 2 ^ 63 - 1 ->
  integer_affinity (sql_plus (SqlInt z) (SqlInt 1)) = SqlInt (incr64 z).
Proof.
  intros Hz Hlt. unfold sql_plus. assert (Hok : int64_okb (z + 1) = true).
  { unfold int64_okb. unfold int64_ok in Hz. destruct (Z.leb_spec (- 2 ^ 63) (z + 1)), (Z.ltb_spec (z + 1) (2 ^ 63)); lia. }
  rewrite Hok. simpl. f_equal. unfold incr64, add64. rewrite wrap64_id; [done|].
  unfold int64_ok in *. lia.
Qed.

Lemma user_key d m k r : rel d m -> tb_users d !! k = Some r -> users_id r = k.
Proof.
  intros HR Hk. rewrite (rel_users _ _ HR) in Hk. apply lookup_fmap_Some in Hk as (u & <- & Hu).
  by apply (wf_users _ (mok_wf _ (rel_ok _ _ HR))).
Qed.

(** The counter of a user has room for one more. *)
Definition counter_ok (z : Z) : Prop := int64_ok z /\ z < 2 ^ 63 - 1.

Lemma BumpTokenVersion_sim id d m :
  rel d m -> (forall u, users m !! id = Some u -> counter_ok (user_TokenVersion u)) ->
  sim (BumpTokenVersion env no_fault id) (MemStore.BumpTokenVersion (env_micro env) id) d m.
Proof.
  intros HR Hc. pose proof (rel_ok _ _ HR) as Hok. pose proof (mok_wf _ Hok) as Hwf.
  pose proof (wf_BumpTokenVersion (env_micro env) id m Hwf) as Hwf'.
  assert (E : MemStore.BumpTokenVersion (env_micro env) id m =
    match users m !! id with
    | None => (Err (Wrap "memstore: user" ErrNotFound), m)
    | Some u => (Ok (incr64 (user_TokenVersion u)),
                 set_users <[id := set_user_TokenVersion (incr64 (user_TokenVersion u)) u]> m)
    end).
  { unfold MemStore.BumpTokenVersion, with_ctx. cbn [ctx_Err env_micro]. by rewrite Hctx. }
  rewrite E in Hwf'. set (P := fun r => String.eqb (users_id r) id).
  destruct (users m !! id) as [u|] eqn:Hu.
  - destruct (Hc u eq_refl) as [Hi Hlt].
    assert (Hl : tb_users d !! id = Some (urow u)) by (by rewrite (rel_users _ _ HR), lookup_fmap, Hu).
    assert (HP : P (urow u) = true) by (unfold P; apply String.eqb_eq; by apply (user_key d m id)).
    assert (Hu1 : forall k r, tb_users d !! k = Some r -> P r = true -> k = id).
    { intros k r Hk Hr. apply String.eqb_eq in Hr. by rewrite <- (user_key _ _ _ _ HR Hk). }
    assert (Hrow : set_token_version (urow u) = urow (set_user_TokenVersion (incr64 (user_TokenVersion u)) u)).
    { unfold set_token_version, urow, user_row. cbn -[integer_affinity sql_plus]. by rewrite plus_one. }
    eapply (sim_intro _ _ _ _ (Ok (incr64 (user_TokenVersion u)))); [exact E| |done|].
    + eapply runs_checked; [apply runs_statement_Ok; [done|]|].
      * cbv zeta. fold P. rewrite (update_one P set_token_version _ id _ Hl HP Hu1). cbn [snd].
        rewrite (select_one P _ id (set_token_version (urow u))).
        -- cbn [fmap list_fmap query_row res_bind]. rewrite Hrow. reflexivity.
        -- by rewrite lookup_insert_eq.
        -- exact HP.
        -- intros k r Hk Hr. apply lookup_insert_Some in Hk as [[<- _]|[_ Hk]]; [done|]. by apply (Hu1 k r).
      * apply runs_return.
    + rewrite (rel_users _ _ HR), <- fmap_insert.
      match goal with |- rel _ ?m' => apply (rel_with_users d m m') end; try done.
      apply mem_ok_set_users; [done|done|]. intros k v [[<- <-]|[_ Hv]]%lookup_insert_Some.
      * destruct (mok_users _ Hok _ _ Hu). by split.
      * by apply (mok_users _ Hok k).
  - eapply sim_intro; [exact E| | |exact HR].
    + eapply runs_checked_Err. apply runs_statement_Err; [done|]. cbv zeta. fold P.
      rewrite select_none; [done|]. intros k r Hk. rewrite update_lookup in Hk.
      apply fmap_Some in Hk as (r0 & Hk & ->). assert (E0 : P r0 = false).
      { apply not_true_is_false. intros Hr. apply String.eqb_eq in Hr. rewrite (user_key _ _ _ _ HR Hk) in Hr.
        subst k. rewrite (rel_users _ _ HR), lookup_fmap, Hu in Hk. done. }
      by rewrite E0.
    + done.
Qed.

(** ** Tokens *)
Lemma token_key d m k r : rel d m -> tb_tokens d !! k = Some r -> at_id r = k.
Proof.
  intros HR Hk. rewrite (rel_tokens _ _ HR) in Hk. apply lookup_fmap_Some in Hk as (t & <- & Ht).
  by apply (wf_tokens _ (mok_wf _ (rel_ok _ _ HR))).
Qed.

Lemma rel_with_tokens d m m' :
  rel d m -> mem_ok m' -> users m' = users m -> codes m' = codes m ->
  reservations m' = reservations m -> events m' = events m -> nextSeq m' = nextSeq m ->
  rollups m' = rollups m -> rel (with_tokens (trow <$> tokens m') d) m'.
Proof.
  intros [H1 H2 H3 H4 H5 H6 H7 H8 H9 H10 H11] Hok E1 E2 E3 E4 E5 E6.
  split; cbn [with_tokens tb_users tb_tokens tb_styling tb_codes tb_reservations tb_events tb_events_seq tb_rollups];
    rewrite ?E1, ?E2, ?E3, ?E4, ?E5, ?E6; done.
Qed.

Lemma mem_ok_set_token id t m :
  mem_ok m -> token_ID t = id -> token_ok t -> mem_ok (set_tokens <[id := t]> m).
Proof.
  intros [H1 H2 H3 H4 H5 H6 H7 H8] Hid Ht. split; try done.
  - by apply wf_set_token.
  - intros k v. cbn. intros [[_ <-]|[_ Hv]]%lookup_insert_Some; [done|]. by apply (H3 k).
Qed.

Lemma tokens_clash d m created t : rel d m ->
  violated api_tokens_unique (token_row created t) (tb_tokens d) = [] <-> tokens m !! token_ID t = None.
Proof.
  intros HR. pose proof (mok_wf _ (rel_ok _ _ HR)) as Hwf.
  rewrite (rel_tokens _ _ HR), violated_fmap. unfold api_tokens_unique. rewrite Forall_singleton. cbn [u_clash].
  split.
  - intros Hn. destruct (tokens m !! token_ID t) as [v|] eqn:E; [|done]. specialize (Hn _ _ E). simpl in Hn.
    by rewrite (wf_tokens _ Hwf _ _ E), String.eqb_refl in Hn.
  - intros Hn k v Hv. simpl. apply not_true_is_false. intros E%String.eqb_eq.
    rewrite (wf_tokens _ Hwf _ _ Hv) in E. congruence.
Qed.

Definition kept_token (t : APIToken) : APIToken :=
  let t' := trunc_token t in
  if IsZero (token_CreatedAt t)
  then set_token_times (now env) (token_LastUsedAt t') (token_RevokedAt t') t' else t'.

Lemma kept_token_row t :
  trow (kept_token t) = token_row (if IsZero (token_CreatedAt t) then now env else token_CreatedAt t) t.
Proof.
  unfold kept_token, trow, token_row. destruct (IsZero _);
    cbn [set_token_times trunc_token token_ID token_UserID token_Name token_SecretHash token_CreatedAt
         token_LastUsedAt token_RevokedAt token_ExpiresAt]; by rewrite ?fmtTime_trunc, !fmtTimePtr_trunc.
Qed.

Record token_stamps (t : APIToken) : Prop := {
  ts_created : stamp (token_CreatedAt t);
  ts_used : stamp_opt (token_LastUsedAt t);
  ts_revoked : stamp_opt (token_RevokedAt t);
  ts_expires : stamp_opt (token_ExpiresAt t);
}.

Lemma kept_token_ok t : token_stamps t -> token_ok (kept_token t).
Proof.
  intros [[Hc _] Hu Hr He]. unfold kept_token.
  destruct (IsZero _); split; cbn; auto using micro_now, micro_opt_trunc, micro_trunc.
Qed.

Lemma CreateToken_sim t d m :
  rel d m -> token_stamps t -> is_Some (users m !! token_UserID t) ->
  sim (CreateToken env no_fault t) (MemStore.CreateToken (env_micro env) (trunc_token t)) d m.
Proof.
  intros HR Hs Hu. pose proof (rel_ok _ _ HR) as Hok.
  assert (E : MemStore.CreateToken (env_micro env) (trunc_token t) m =
    if String.eqb (token_ID t) "" || String.eqb (token_UserID t) ""
    then (Err (NewErr "memstore: token id and user id are required"), m)
    else match tokens m !! token_ID t with
    | Some _ => (Err (Wrap "memstore: token id" ErrConflict), m)
    | None => (Ok tt, set_tokens <[token_ID t := kept_token t]> m)
    end).
  { unfold MemStore.CreateToken, with_ctx, kept_token. cbn [ctx_Err env_micro]. rewrite Hctx.
    change (token_CreatedAt (trunc_token t)) with (trunc (token_CreatedAt t)).
    rewrite IsZero_trunc by apply Hs. by destruct (IsZero (token_CreatedAt t)). }
  unfold CreateToken. destruct (String.eqb (token_ID t) "" || String.eqb (token_UserID t) "").
  { eapply sim_intro; [exact E|apply runs_return|done|done]. }
  assert (Hf : references (token_UserID t) (tb_users d) = true).
  { rewrite (rel_users _ _ HR), references_fmap. by apply bool_decide_eq_true_2. }
  pose proof (tokens_clash d m (if IsZero (token_CreatedAt t) then now env else token_CreatedAt t) t HR) as Hv.
  cbv zeta. destruct (tokens m !! token_ID t) eqn:Ht.
  - destruct (sql_insert_clash api_tokens_unique true (token_ID t)
      (token_row (if IsZero (token_CreatedAt t) then now env else token_CreatedAt t) t) (tb_tokens d))
      as (e & Ei & He'); [by intros Hn%Hv|].
    apply violated_err, list_elem_of_singleton in He' as ->.
    eapply sim_intro; [exact E| | |done].
    + eapply runs_checked_Err. apply runs_statement_Err; [done|]. by rewrite Hf, Ei.
    + done.
  - eapply (sim_intro _ _ _ _ (Ok tt)); [exact E| |done|].
    + eapply runs_checked; [|apply runs_return]. apply runs_statement_Ok; [done|].
      by rewrite Hf, (sql_insert_ok _ _ _ _ (proj2 Hv eq_refl)).
    + rewrite (rel_tokens _ _ HR), <- kept_token_row, <- fmap_insert.
      match goal with |- rel _ ?m' => apply (rel_with_tokens d m m') end; try done.
      apply mem_ok_set_token; [done| |by apply kept_token_ok]. unfold kept_token. by destruct (IsZero _).
Qed.

Lemma GetTokenByID_sim id d m :
  rel d m -> reads (GetTokenByID env no_fault id) (MemStore.GetTokenByID (env_micro env) id m) d.
Proof.
  intros HR. eexists. split; [apply runs_scan|]. pose proof (rel_ok _ _ HR) as Hok.
  rewrite (select_key at_id _ _ id).
  - rewrite (rel_tokens _ _ HR), lookup_fmap. unfold MemStore.GetTokenByID, read_ctx.
    cbn [ctx_Err env_micro]. rewrite Hctx.
    destruct (tokens m !! id) as [t|] eqn:E; [|done]. cbn [fmap option_fmap option_map].
    unfold trow at 1. cbn [at_id token_row].
    rewrite (wf_tokens _ (mok_wf _ Hok) _ _ E), String.eqb_refl. cbn [query_row].
    rewrite scan_token_row; [done|]. by apply (mok_tokens _ Hok id).
  - intros k r Hk. by apply (token_key d m).
  - intros r. by apply String.eqb_eq.
Qed.

Lemma scan_all_rows {R A B} (scan : R -> result A) (g : B -> R) (h : B -> A) l :
  (forall x, x ∈ l -> scan (g x) = Ok (h x)) -> scan_all scan (g <$> l) = Ok (h <$> l).
Proof.
  intros Hg. induction l as [|x l IH]; [done|]. rewrite !fmap_cons. cbn [scan_all].
  rewrite Hg by apply list_elem_of_here. cbn [res_bind].
  by rewrite IH by (intros; by apply Hg, list_elem_of_further).
Qed.

#[local] Instance tokens_order_swo : StrictWeakOrder tokens_order.
Proof. unfold tokens_order. apply _. Qed.
#[local] Instance token_less_swo : StrictWeakOrder token_less.
Proof. unfold token_less. apply _. Qed.

Lemma ListTokens_sim userID d m :
  rel d m -> reads (ListTokens env no_fault userID) (MemStore.ListTokens (env_micro env) userID m) d.
Proof.
  intros HR. eexists. split; [apply runs_scan|]. pose proof (rel_ok _ _ HR) as Hok.
  assert (Hin : forall (P : APIToken -> Prop) `{!forall t, Decision (P t)} t,
            t ∈ filter P (rows_of (tokens m)) -> tokens m !! token_ID t = Some t).
  { intros P ? t [_ Ht]%list_elem_of_filter. apply elem_of_rows in Ht as [k Hk].
    by rewrite (wf_tokens _ (mok_wf _ Hok) _ _ Hk). }
  unfold MemStore.ListTokens, read_ctx. cbn [ctx_Err env_micro]. rewrite Hctx.
  rewrite (rel_tokens _ _ HR), select_fmap.
  change (map_to_list (tokens m)).*2 with (rows_of (tokens m)).
  rewrite (list_filter_iff _ (fun t => token_UserID t = userID)) by (intros t; apply String.eqb_eq).
  rewrite (sort_Slice_fmap_on token_less tokens_order trow).
  - rewrite (scan_all_rows scanToken trow id); [by rewrite list_fmap_id|].
    intros t Ht. rewrite sort_Slice_Permutation in Ht. apply scan_token_row.
    by eapply (mok_tokens _ Hok), Hin.
  - intros x y Hx%Hin Hy%Hin. unfold tokens_order, token_less, lex_less. cbn [at_created_at at_id trow token_row].
    by rewrite !fmtTime_ltb by (by eapply (mok_tokens _ Hok)).
  - intros x y Hx%Hin Hy%Hin. unfold token_less, lex_less.
    destruct (Z.ltb_spec (token_CreatedAt x) (token_CreatedAt y)); [done|].
    destruct (Z.ltb_spec (token_CreatedAt y) (token_CreatedAt x)); [done|].
    intros H1 H2. pose proof (str_ltb_total _ _ H1 H2) as E. rewrite E in Hx. congruence.
Qed.

(** An update of the token [id], where [P] may ask for more than the id. *)
Lemma token_update d m id (P : apiTokensRow -> bool) f :
  rel d m -> (forall r, P r = true -> at_id r = id) ->
  sql_update P f (tb_tokens d)
  = match tokens m !! id with
    | Some t => if P (trow t) then (1, <[id := f (trow t)]> (tb_tokens d)) else (0, tb_tokens d)
    | None => (0, tb_tokens d)
    end.
Proof.
  intros HR HP.
  assert (Hu : forall k r, tb_tokens d !! k = Some r -> P r = true -> k = id).
  { intros k r Hk Hr. rewrite <- (token_key _ _ _ _ HR Hk). by apply HP. }
  assert (Hl : tb_tokens d !! id = trow <$> tokens m !! id) by (by rewrite (rel_tokens _ _ HR), lookup_fmap).
  destruct (tokens m !! id) as [t|]; simpl in Hl.
  - destruct (P (trow t)) eqn:E; [by apply update_one|]. apply update_none.
    intros k r Hk. apply not_true_is_false. intros Hr. assert (k = id) as -> by eauto. congruence.
  - apply update_none. intros k r Hk. apply not_true_is_false. intros Hr. assert (k = id) as -> by eauto. congruence.
Qed.

Lemma set_token_rel d m id t :
  rel d m -> token_ID t = id -> token_ok t ->
  rel (with_tokens (<[id := trow t]> (tb_tokens d)) d) (set_tokens <[id := t]> m).
Proof.
  intros HR Hid Ht. rewrite (rel_tokens _ _ HR), <- fmap_insert.
  match goal with |- rel _ ?m' => apply (rel_with_tokens d m m') end; try done.
  apply mem_ok_set_token; [by apply (rel_ok _ _ HR)|done|done].
Qed.

Lemma same_tokens d m : rel d m -> rel (with_tokens (tb_tokens d) d) m.
Proof. by destruct d. Qed.

Lemma RevokeToken_sim id userID d m :
  rel d m -> sim (RevokeToken env no_fault id userID) (MemStore.RevokeToken (env_micro env) id userID) d m.
Proof.
  intros HR. pose proof (rel_ok _ _ HR) as Hok.
  set (P := fun r => String.eqb (at_id r) id && String.eqb (at_user_id r) userID).
  set (f := fun r => set_token_used_revoked (at_last_used_at r)
              (Some (default (fmtTime (now env)) (at_revoked_at r))) r).
  pose proof (token_update d m id P f HR ltac:(by intros r [E%String.eqb_eq _]%andb_prop)) as Hup.
  assert (E : MemStore.RevokeToken (env_micro env) id userID m =
    match tokens m !! id with
    | None => (Err (Wrap "memstore: token" ErrNotFound), m)
    | Some t =>
        if negb (String.eqb (token_UserID t) userID) then (Err (Wrap "memstore: token" ErrNotFound), m)
        else match token_RevokedAt t with
        | Some _ => (Ok tt, m)
        | None => (Ok tt, set_tokens <[id := set_token_times (token_CreatedAt t) (token_LastUsedAt t)
                                              (Some (now env)) t]> m)
        end
    end) by (unfold MemStore.RevokeToken, with_ctx; cbn [ctx_Err env_micro]; by rewrite Hctx).
  pose proof (runs_decide (fun d0 => let '(n, t) := sql_update P f (tb_tokens d0) in Ok (n, with_tokens t d0))
                (fun n => if n =? 0 then Err (notFound ("token " +:+ id)) else Ok tt) d) as Hrun.
  cbv beta in Hrun. rewrite Hup in Hrun. destruct (tokens m !! id) as [t|] eqn:Ht.
  - assert (Hid : token_ID t = id) by (by apply (wf_tokens _ (mok_wf _ Hok))).
    pose proof (mok_tokens _ Hok _ _ Ht) as Htok.
    assert (EP : P (trow t) = String.eqb (token_UserID t) userID).
    { unfold P. cbn. by rewrite Hid, String.eqb_refl. }
    rewrite EP in Hrun. destruct (String.eqb (token_UserID t) userID); simpl in E, Hrun.
    + destruct (token_RevokedAt t) as [at_|] eqn:Er.
      * eapply (sim_intro _ _ _ _ (Ok tt)); [exact E|exact Hrun|done|].
        replace (f (trow t)) with (trow t); [|unfold f, set_token_used_revoked, trow, token_row; cbn; by rewrite Er].
        rewrite insert_id; [by apply same_tokens|]. by rewrite (rel_tokens _ _ HR), lookup_fmap, Ht.
      * eapply (sim_intro _ _ _ _ (Ok tt)); [exact E|exact Hrun|done|].
        match goal with |- rel _ (set_tokens <[_ := ?t']> _) => replace (f (trow t)) with (trow t') end.
        -- apply set_token_rel; [done|done|]. destruct Htok. split; try done. exact micro_now.
        -- unfold f, set_token_used_revoked, trow, token_row; cbn. by rewrite Er.
    + eapply sim_intro; [exact E|exact Hrun|done|by apply same_tokens].
  - simpl in Hrun. eapply sim_intro; [exact E|exact Hrun|done|by apply same_tokens].
Qed.

Lemma TouchTokenLastUsed_sim id at_ d m :
  rel d m -> year_ok at_ ->
  sim (TouchTokenLastUsed env no_fault id at_) (MemStore.TouchTokenLastUsed (env_micro env) id (trunc at_)) d m.
Proof.
  intros HR Hat. pose proof (rel_ok _ _ HR) as Hok.
  set (P := fun r => String.eqb (at_id r) id).
  set (f := fun r => set_token_used_revoked (Some (fmtTime at_)) (at_revoked_at r) r).
  pose proof (token_update d m id P f HR ltac:(by intros r E%String.eqb_eq)) as Hup.
  assert (E : MemStore.TouchTokenLastUsed (env_micro env) id (trunc at_) m =
    match tokens m !! id with
    | None => (Err (Wrap "memstore: token" ErrNotFound), m)
    | Some t => (Ok tt, set_tokens <[id := set_token_times (token_CreatedAt t) (Some (trunc at_))
                                            (token_RevokedAt t) t]> m)
    end) by (unfold MemStore.TouchTokenLastUsed, with_ctx; cbn [ctx_Err env_micro]; by rewrite Hctx).
  pose proof (runs_decide (fun d0 => let '(n, t) := sql_update P f (tb_tokens d0) in Ok (n, with_tokens t d0))
                (fun n => if n =? 0 then Err (notFound ("token " +:+ id)) else Ok tt) d) as Hrun.
  cbv beta in Hrun. rewrite Hup in Hrun. destruct (tokens m !! id) as [t|] eqn:Ht.
  - assert (Hid : token_ID t = id) by (by apply (wf_tokens _ (mok_wf _ Hok))).
    pose proof (mok_tokens _ Hok _ _ Ht) as Htok.
    assert (EP : P (trow t) = true) by (unfold P; cbn; by rewrite Hid, String.eqb_refl).
    rewrite EP in Hrun. simpl in Hrun. eapply (sim_intro _ _ _ _ (Ok tt)); [exact E|exact Hrun|done|].
    match goal with |- rel _ (set_tokens <[_ := ?t']> _) => replace (f (trow t)) with (trow t') end.
    + apply set_token_rel; [done|done|]. destruct Htok. split; try done. cbn. by apply micro_trunc.
    + unfold f, set_token_used_revoked, trow, token_row; cbn. unfold fmtTimePtr; cbn. by rewrite fmtTime_trunc.
  - simpl in Hrun. eapply sim_intro; [exact E|exact Hrun|done|by apply same_tokens].
Qed.
End sim.
