(* ===== verification/SqliteCodes.v ===== *)
(** * SQLite against the in-memory store: codes, aliases and listing *)
From Stdlib Require Import Ascii String.
From S2P Require Import GoLib Act Domain Base64 Rollup MemStore MemStoreFacts Listing Sql Sqlite SqliteRel.
Local Open Scope string_scope.
Local Open Scope Z_scope.

Section sim.
Context `{U : UnicodeTable} `{TF : TimeFormat} `{ST : SqlTime} {Hst : SqlTimeOk} `{SE : SqlEngine} {Hse : SqlEngineOk}.
Context (env : Env) (Hctx : ctx_Err env = None) (Hnow : year_ok (time_Now env)).

Lemma code_key d m k r : rel d m -> tb_codes d !! k = Some r -> c_id r = k.
Proof.
  intros HR Hk. rewrite (rel_codes _ _ HR) in Hk. apply lookup_fmap_Some in Hk as (c & <- & Hc).
  by apply (wf_codes _ (mok_wf _ (rel_ok _ _ HR))).
Qed.

Lemma code_row_at d m id : rel d m -> tb_codes d !! id = crow <$> codes m !! id.
Proof. intros HR. by rewrite (rel_codes _ _ HR), lookup_fmap. Qed.

(** ** The join *)
Definition prow (c : Code) : codesRow * stylingRow := (crow c, styling_row (code_Styling c)).

Lemma join_rows d m l :
  rel d m -> Forall (fun c => codes m !! code_ID c = Some c) l -> join_styling d (crow <$> l) = prow <$> l.
Proof.
  intros HR. induction 1 as [|c l Hc Hl IH]; [done|]. rewrite !fmap_cons. unfold join_styling in *.
  cbn [omap list_omap crow c_styling_id]. rewrite (rel_styling _ _ HR _ _ Hc). cbn [fmap option_fmap option_map].
  by rewrite IH.
Qed.

Lemma join_one d m id c : rel d m -> codes m !! id = Some c -> join_styling d [crow c] = [prow c].
Proof.
  intros HR Hc. apply (join_rows d m [c] HR). constructor; [|constructor].
  by rewrite (wf_codes _ (mok_wf _ (rel_ok _ _ HR)) _ _ Hc).
Qed.

Lemma scan_prow m id c : mem_ok m -> codes m !! id = Some c -> scanCode (prow c) = Ok c.
Proof. intros Hok Hc. apply scan_code_row. by apply (mok_codes _ Hok id). Qed.

(** ** Lookups *)
Lemma GetCodeByID_sim id userID d m :
  rel d m -> reads (GetCodeByID env no_fault id userID) (MemStore.GetCodeByID (env_micro env) id userID m) d.
Proof.
  intros HR. eexists. split; [by apply runs_scan|]. pose proof (rel_ok _ _ HR) as Hok.
  rewrite (select_key c_id _ _ id).
  - rewrite (code_row_at _ _ _ HR). unfold MemStore.GetCodeByID, read_ctx, owned.
    cbn [ctx_Err env_micro]. rewrite Hctx.
    destruct (codes m !! id) as [c|] eqn:E; [|done]. cbn [fmap option_fmap option_map crow c_id c_user_id].
    rewrite (wf_codes _ (mok_wf _ Hok) _ _ E), String.eqb_refl. simpl andb.
    destruct (String.eqb (code_UserID c) userID); [|done].
    rewrite (join_one _ _ _ _ HR E). cbn [query_row]. by rewrite (scan_prow m id).
  - intros k r. by apply (code_key d m).
  - by intros r [E%String.eqb_eq _]%andb_prop.
Qed.

(** A query that only the code [id], or no code, answers. *)
Lemma lookup_sim (P : codesRow -> bool) d m oid :
  rel d m ->
  (forall k c, codes m !! k = Some c -> P (crow c) = true -> oid = Some k) ->
  (forall k, oid = Some k -> exists c, codes m !! k = Some c /\ P (crow c) = true) ->
  sql_select P (tb_codes d)
  = match oid ≫= (fun k => codes m !! k) with Some c => [crow c] | None => [] end.
Proof.
  intros HR Hu Hex. destruct oid as [k|]; simpl.
  - destruct (Hex k eq_refl) as (c & Hc & HP). rewrite Hc. apply (select_one P _ k).
    + by rewrite (code_row_at _ _ _ HR), Hc.
    + done.
    + intros k' r Hk Hr. rewrite (code_row_at _ _ _ HR) in Hk. apply fmap_Some in Hk as (c' & Hc' & ->).
      specialize (Hu _ _ Hc' Hr). congruence.
  - apply select_none. intros k r Hk. rewrite (code_row_at _ _ _ HR) in Hk. apply fmap_Some in Hk as (c & Hc & ->).
    apply not_true_is_false. intros HP. by specialize (Hu _ _ Hc HP).
Qed.

Lemma GetCodeByClientRef_sim userID ref d m :
  rel d m ->
  reads (GetCodeByClientRef env no_fault userID ref) (MemStore.GetCodeByClientRef (env_micro env) userID ref m) d.
Proof.
  intros HR. pose proof (rel_ok _ _ HR) as Hok. pose proof (mok_wf _ Hok) as Hwf.
  unfold MemStore.GetCodeByClientRef, read_ctx. cbn [ctx_Err env_micro]. rewrite Hctx.
  unfold GetCodeByClientRef. destruct (String.eqb_spec ref "") as [->|Hne].
  { eexists. split; [apply runs_return|]. by destruct (byRef m !! _). }
  eexists. split; [by apply runs_scan|].
  rewrite (lookup_sim _ _ m (byRef m !! (userID, ref)) HR).
  - destruct (byRef m !! (userID, ref)) as [id|] eqn:E; [|done]. simpl mbind.
    apply (wf_byRef _ Hwf) in E as (_ & c & Hc & _). unfold code_at. rewrite Hc.
    rewrite (join_one _ _ _ _ HR Hc). cbn [query_row]. by rewrite (scan_prow m id).
  - intros k c Hc [E1 E2]%andb_prop. apply String.eqb_eq in E1. apply bool_decide_eq_true in E2.
    cbn [crow c_user_id c_client_ref] in E1, E2. apply nullStr_Some in E2 as [<- _].
    apply (wf_byRef _ Hwf). split; [done|]. by exists c.
  - intros k (_ & c & Hc & Hu & Hr)%(wf_byRef _ Hwf). exists c. split; [done|].
    cbn [crow c_user_id c_client_ref]. rewrite Hu, String.eqb_refl. simpl.
    apply bool_decide_eq_true. by apply nullStr_Some.
Qed.

Lemma row_live_deleted c : row_live (crow c) = negb (is_deleted c).
Proof. done. Qed.

Lemma short_codes m id c sc : mem_ok m -> codes m !! id = Some c -> ascii_str sc ->
  nocase_eqb (ShortCode c) sc = String.eqb (ShortCode c) (ToLower sc).
Proof. intros Hok Hc Hs. apply nocase_key; [|done]. by apply (mok_codes _ Hok id). Qed.

#[local] Instance shortcode_order_swo : StrictWeakOrder shortcode_order.
Proof.
  unfold shortcode_order. apply lex_less_order; [|apply _]. split; intros *;
    repeat match goal with |- context [row_live ?r] => destruct (row_live r) end; simpl; auto.
Qed.

Lemma GetCodeByShortCode_sim sc d m :
  rel d m -> ascii_str sc ->
  reads (GetCodeByShortCode env no_fault sc) (MemStore.GetCodeByShortCode (env_micro env) sc m) d.
Proof.
  intros HR Hs. pose proof (rel_ok _ _ HR) as Hok. pose proof (mok_wf _ Hok) as Hwf.
  eexists. split; [by apply runs_scan|].
  unfold MemStore.GetCodeByShortCode, read_ctx. cbn [ctx_Err env_micro]. rewrite Hctx.
  unfold sql_by_short_code. rewrite (sql_lower_ascii sc) by done. rewrite (rel_res _ _ HR).
  set (holder := match rrow (ToLower sc) <$> reservations m !! ToLower sc with Some r => _ | None => _ end).
  assert (Hholder : holder = byCode m !! ToLower sc).
  { rewrite (wf_index _ Hwf). unfold holder. destruct (reservations m !! ToLower sc) as [r|]; [|done].
    cbn [fmap option_fmap option_map rrow ar_released_at ar_code_id mbind option_bind]. unfold taken.
    by destruct (res_releasedAt r). }
  rewrite Hholder. rewrite (lookup_sim _ _ m (byCode m !! ToLower sc) HR).
  - destruct (byCode m !! ToLower sc) as [id|] eqn:E; [|done]. simpl mbind.
    destruct (wf_byCode _ Hwf _ _ E) as (c & Hc & _). unfold code_at. rewrite Hc.
    rewrite (join_one _ _ _ _ HR Hc).
    assert (Hsort : forall (p : codesRow * stylingRow), sort_Slice (fun a b => shortcode_order a.1 b.1) [p] = [p]).
    { intros p. apply Permutation_singleton_r, sort_Slice_Permutation. }
    rewrite Hsort. cbn [take query_row]. by rewrite (scan_prow m id).
  - intros k c Hc [E1 E2]%andb_prop. cbn [crow c_short_code c_id] in E1, E2.
    rewrite (short_codes m k) in E1 by done. apply String.eqb_eq in E1. rewrite <- E1.
    apply orb_true_iff in E2 as [E2|E2].
    + rewrite row_live_deleted in E2. apply negb_true_iff in E2. by apply (wf_live _ Hwf).
    + rewrite <- E1 in E2. destruct (byCode m !! ShortCode c) as [id|]; [|done]. apply String.eqb_eq in E2.
      f_equal. rewrite <- E2. by apply (wf_codes _ Hwf).
  - intros k E. destruct (wf_byCode _ Hwf _ _ E) as (c & Hc & Es). exists c. split; [done|].
    cbn [crow c_short_code c_id]. rewrite (short_codes m k) by done. rewrite Es, String.eqb_refl, E. simpl.
    rewrite (wf_codes _ Hwf _ _ Hc), String.eqb_refl. apply orb_true_r.
Qed.

(** ** Guarded updates of one code *)
Lemma code_update d m id (P : codesRow -> bool) f :
  rel d m -> (forall r, P r = true -> c_id r = id) ->
  sql_update P f (tb_codes d)
  = match codes m !! id with
    | Some c => if P (crow c) then (1, <[id := f (crow c)]> (tb_codes d)) else (0, tb_codes d)
    | None => (0, tb_codes d)
    end.
Proof.
  intros HR HP.
  assert (Hu : forall k r, tb_codes d !! k = Some r -> P r = true -> k = id).
  { intros k r Hk Hr. rewrite <- (code_key _ _ _ _ HR Hk). by apply HP. }
  pose proof (code_row_at d m id HR) as Hl. destruct (codes m !! id) as [c|]; simpl in Hl.
  - destruct (P (crow c)) eqn:E; [by apply update_one|]. apply update_none.
    intros k r Hk. apply not_true_is_false. intros Hr. assert (k = id) as -> by eauto. congruence.
  - apply update_none. intros k r Hk. apply not_true_is_false. intros Hr. assert (k = id) as -> by eauto. congruence.
Qed.

Lemma same_codes d : with_codes (tb_codes d) d = d.
Proof. by destruct d. Qed.

Lemma owned_row d m id userID :
  rel d m ->
  sql_select (fun r => String.eqb (c_id r) id && String.eqb (c_user_id r) userID) (tb_codes d)
  = match codes m !! id with
    | Some c => if String.eqb (code_UserID c) userID then [crow c] else []
    | None => []
    end.
Proof.
  intros HR. rewrite (select_key c_id _ _ id).
  - rewrite (code_row_at _ _ _ HR). destruct (codes m !! id) as [c|] eqn:E; [|done].
    cbn [fmap option_fmap option_map crow c_id c_user_id].
    by rewrite (wf_codes _ (mok_wf _ (rel_ok _ _ HR)) _ _ E), String.eqb_refl.
  - intros k r. by apply (code_key d m).
  - by intros r [E%String.eqb_eq _]%andb_prop.
Qed.

Lemma when_owned_runs d m id userID present :
  rel d m ->
  runs (when_owned env no_fault id userID present) d
    match owned id userID m with Ok _ => present | Err _ => Err (notFound ("code " +:+ id)) end d.
Proof.
  intros HR. unfold when_owned, owned.
  assert (Hex : runs (ownedExists env no_fault id userID) d
            (Ok match codes m !! id with Some c => String.eqb (code_UserID c) userID | None => false end) d).
  { unfold ownedExists. eapply runs_then; [by apply runs_query|]. rewrite (owned_row _ _ _ _ HR).
    destruct (codes m !! id) as [c|]; [destruct (String.eqb _ _)|]; apply runs_return. }
  eapply runs_try; [exact Hex|].
  destruct (codes m !! id) as [c|]; [destruct (String.eqb _ _)|]; apply runs_return.
Qed.

(** What the three mutations share: an update guarded by more than the owner,
    then the question why it touched no row. *)
Lemma guarded_update d m id userID (P : codesRow -> bool) f present :
  rel d m ->
  (forall r, P r = true -> c_id r = id /\ c_user_id r = userID) ->
  let body := checked translate (statement env no_fault (sql_update_codes P f))
                (fun n => if n =? 1 then mret (Ok tt) else when_owned env no_fault id userID present) in
  match owned id userID m with
  | Err _ => runs (withTx env no_fault body) d (Err (notFound ("code " +:+ id))) d
  | Ok c =>
      if P (crow c) then runs (withTx env no_fault body) d (Ok tt) (with_codes (<[id := f (crow c)]> (tb_codes d)) d)
      else runs (withTx env no_fault body) d present d
  end.
Proof.
  intros HR HP body. pose proof (code_update d m id P f HR ltac:(naive_solver)) as Hup.
  assert (Hst' : forall n t, sql_update P f (tb_codes d) = (n, t) ->
            sql_update_codes P f d = Ok (n, with_codes t d)).
  { intros n t E. unfold sql_update_codes. by rewrite E. }
  assert (Hno : sql_update P f (tb_codes d) = (0, tb_codes d) ->
            runs body d (match owned id userID m with Ok _ => present | Err _ => Err (notFound ("code " +:+ id)) end) d).
  { intros E. apply Hst' in E. rewrite same_codes in E. unfold body.
    eapply runs_checked; [by apply runs_statement_Ok|]. by apply when_owned_runs. }
  unfold owned in *. destruct (codes m !! id) as [c|] eqn:Hc.
  - destruct (String.eqb_spec (code_UserID c) userID) as [Hu|Hu].
    + destruct (P (crow c)) eqn:EP.
      * apply runs_transaction; [done|]. unfold body.
        eapply runs_checked; [apply runs_statement_Ok; [done|by apply Hst']|]. apply runs_return.
      * specialize (Hno Hup). destruct present as [[]|e]; [by apply runs_transaction|by eapply runs_transaction_Err].
    + assert (EP : P (crow c) = false).
      { apply not_true_is_false. intros [_ E]%HP. by apply Hu. }
      rewrite EP in Hup. eapply runs_transaction_Err; [done|]. by apply Hno.
  - eapply runs_transaction_Err; [done|]. by apply Hno.
Qed.

Lemma set_code_rel d m id c dest state version updated deleted :
  let c' := set_code dest state version updated deleted c in
  rel d m -> codes m !! id = Some c -> micro updated -> micro_opt deleted ->
  (String.eqb state CodeDeleted = false -> is_deleted c = false) ->
  rel (with_codes (<[id := crow c']> (tb_codes d)) d) (set_codes <[id := c']> m).
Proof.
  intros c' HR Hc Hm Hd Hdel. pose proof (rel_ok _ _ HR) as Hok.
  destruct (mok_codes _ Hok _ _ Hc) as [K1 K2 K3 K4 K5 K6].
  assert (Hok' : mem_ok (set_codes <[id := c']> m)).
  { destruct Hok as [H1 H2 H3 H4 H5 H6 H7 H8]. split; try done.
    - apply (wf_set_code _ _ c); done.
    - intros k v. cbn. intros [[_ <-]|[_ Hv]]%lookup_insert_Some; [by split|]. by apply (H4 k).
    - intros k n Hk. destruct (H8 k n Hk) as [? Hin]. split; [done|]. cbn.
      rewrite lookup_insert_is_Some'. by right. }
  destruct HR as [_ H2 H3 H4 H5 H6 H7 H8 H9 H10 H11].
  split; cbn [with_codes tb_users tb_tokens tb_styling tb_codes tb_reservations tb_events tb_events_seq tb_rollups]; try done.
  - cbn. by rewrite fmap_insert, H4.
  - intros k v. cbn. intros [[<- <-]|[_ Hv]]%lookup_insert_Some; [exact (H5 _ _ Hc)|exact (H5 _ _ Hv)].
Qed.

Lemma UpdateDestination_sim id userID dest v d m :
  rel d m -> (forall c, codes m !! id = Some c -> counter_ok (Version c)) ->
  sim (UpdateDestination env no_fault id userID dest v)
    (MemStore.UpdateDestination (env_micro env) id userID dest v) d m.
Proof.
  intros HR Hv. pose proof (rel_ok _ _ HR) as Hok.
  pose proof (guarded_update d m id userID
    (fun r => String.eqb (c_id r) id && String.eqb (c_user_id r) userID && num_eqb (c_version r) v && row_live r)
    (fun r => set_codes_row dest (c_state r) (fmtTime (now env)) (c_deleted_at r) r)
    (Err (conflict ("code " +:+ id +:+ " version mismatch or deleted"))) HR) as Hg.
  specialize (Hg ltac:(intros r (((E1%String.eqb_eq & E2%String.eqb_eq)%andb_prop & _)%andb_prop & _)%andb_prop; done)).
  cbv zeta in Hg.
  assert (E : MemStore.UpdateDestination (env_micro env) id userID dest v m =
    match owned id userID m with
    | Err e => (Err e, m)
    | Ok c =>
        if String.eqb (State c) CodeDeleted then (Err (Wrap "memstore: code is deleted" ErrConflict), m)
        else if negb (Version c =? v) then (Err (Wrap "memstore: code version" ErrConflict), m)
        else (Ok tt, set_codes <[id := set_code dest (State c) (incr64 (Version c)) (now env) (DeletedAt c) c]> m)
    end) by (unfold MemStore.UpdateDestination, with_ctx; cbn [ctx_Err env_micro]; by rewrite Hctx).
  destruct (owned id userID m) as [c|e] eqn:Ho.
  - apply owned_Ok in Ho as [Hc Hu]. pose proof (mok_codes _ Hok _ _ Hc) as Hcok.
    assert (EP : String.eqb (c_id (crow c)) id && String.eqb (c_user_id (crow c)) userID
                 && num_eqb (c_version (crow c)) v && row_live (crow c)
                 = (Version c =? v) && negb (String.eqb (State c) CodeDeleted)).
    { cbn [crow c_id c_user_id c_version num_eqb]. rewrite (wf_codes _ (mok_wf _ Hok) _ _ Hc), Hu, !String.eqb_refl. done. }
    rewrite EP in Hg. destruct (String.eqb (State c) CodeDeleted) eqn:Ed.
    + rewrite andb_false_r in Hg. eapply sim_intro; [exact E|exact Hg|done|done].
    + rewrite andb_true_r in Hg. destruct (Version c =? v); simpl in E.
      * eapply (sim_intro _ _ _ _ (Ok tt)); [exact E|exact Hg|done|].
        match goal with |- rel _ (set_codes <[_ := ?c']> _) => assert (Er : set_codes_row dest (c_state (crow c))
          (fmtTime (now env)) (c_deleted_at (crow c)) (crow c) = crow c') end.
        { unfold set_codes_row, crow. cbn -[integer_affinity sql_plus]. destruct (Hv _ Hc). by rewrite plus_one. }
        cbv beta. rewrite Er. apply set_code_rel; [done|done|by apply micro_now|apply Hcok|done].
      * eapply sim_intro; [exact E|exact Hg|done|done].
  - eapply sim_intro; [exact E|exact Hg| |done].
    unfold owned in Ho. destruct (codes m !! id) as [c|]; [destruct (String.eqb _ _)|]; by simplify_eq.
Qed.

Lemma SetCodeState_sim id userID state d m :
  rel d m -> (forall c, codes m !! id = Some c -> counter_ok (Version c)) ->
  sim (SetCodeState env no_fault id userID state)
    (MemStore.SetCodeState (env_micro env) id userID state) d m.
Proof.
  intros HR Hv. pose proof (rel_ok _ _ HR) as Hok.
  pose proof (guarded_update d m id userID
    (fun r => String.eqb (c_id r) id && String.eqb (c_user_id r) userID && row_live r)
    (fun r => set_codes_row (c_destination r) state (fmtTime (now env)) (c_deleted_at r) r)
    (Err (conflict ("code " +:+ id +:+ " is deleted"))) HR) as Hg.
  specialize (Hg ltac:(intros r ((E1%String.eqb_eq & E2%String.eqb_eq)%andb_prop & _)%andb_prop; done)).
  cbv zeta in Hg.
  assert (E : MemStore.SetCodeState (env_micro env) id userID state m =
    if String.eqb state CodeDeleted then (Err (NewErr "memstore: use DeleteCode to delete"), m)
    else if negb (String.eqb state CodeActive || String.eqb state CodeDisabled)
    then (Err (NewErr "memstore: unknown state"), m)
    else match owned id userID m with
    | Err e => (Err e, m)
    | Ok c =>
        if String.eqb (State c) CodeDeleted then (Err (Wrap "memstore: code is deleted" ErrConflict), m)
        else (Ok tt, set_codes <[id := set_code (Destination c) state (incr64 (Version c)) (now env) (DeletedAt c) c]> m)
    end) by (unfold MemStore.SetCodeState, with_ctx; cbn [ctx_Err env_micro]; by rewrite Hctx).
  unfold SetCodeState. destruct (String.eqb state CodeActive || String.eqb state CodeDisabled) eqn:Es.
  2: { simpl in E. destruct (String.eqb state CodeDeleted); eapply sim_intro; first [exact E|apply runs_return|done]. }
  assert (End : String.eqb state CodeDeleted = false).
  { apply orb_true_iff in Es as [->%String.eqb_eq| ->%String.eqb_eq]; done. }
  rewrite End in E. simpl in E.
  destruct (owned id userID m) as [c|e] eqn:Ho.
  - apply owned_Ok in Ho as [Hc Hu]. pose proof (mok_codes _ Hok _ _ Hc) as Hcok.
    assert (EP : String.eqb (c_id (crow c)) id && String.eqb (c_user_id (crow c)) userID && row_live (crow c)
                 = negb (String.eqb (State c) CodeDeleted)).
    { cbn [crow c_id c_user_id]. by rewrite (wf_codes _ (mok_wf _ Hok) _ _ Hc), Hu, !String.eqb_refl. }
    rewrite EP in Hg. destruct (String.eqb (State c) CodeDeleted) eqn:Ed; cbn [negb] in Hg.
    + eapply sim_intro; [exact E|exact Hg|done|done].
    + eapply (sim_intro _ _ _ _ (Ok tt)); [exact E|exact Hg|done|].
      match goal with |- rel _ (set_codes <[_ := ?c']> _) => assert (Er : set_codes_row (c_destination (crow c)) state
        (fmtTime (now env)) (c_deleted_at (crow c)) (crow c) = crow c') end.
      { unfold set_codes_row, crow. cbn -[integer_affinity sql_plus]. destruct (Hv _ Hc). by rewrite plus_one. }
      cbv beta. rewrite Er. apply set_code_rel; [done|done|by apply micro_now|apply Hcok|done].
  - eapply sim_intro; [exact E|exact Hg| |done].
    unfold owned in Ho. destruct (codes m !! id) as [c|]; [destruct (String.eqb _ _)|]; by simplify_eq.
Qed.

Lemma DeleteCode_sim id userID d m :
  rel d m -> (forall c, codes m !! id = Some c -> counter_ok (Version c)) ->
  sim (DeleteCode env no_fault id userID) (MemStore.DeleteCode (env_micro env) id userID) d m.
Proof.
  intros HR Hv. pose proof (rel_ok _ _ HR) as Hok.
  pose proof (guarded_update d m id userID
    (fun r => String.eqb (c_id r) id && String.eqb (c_user_id r) userID && row_live r)
    (fun r => set_codes_row (c_destination r) CodeDeleted (fmtTime (now env)) (Some (fmtTime (now env))) r)
    (Ok tt) HR) as Hg.
  specialize (Hg ltac:(intros r ((E1%String.eqb_eq & E2%String.eqb_eq)%andb_prop & _)%andb_prop; done)).
  cbv zeta in Hg.
  assert (E : MemStore.DeleteCode (env_micro env) id userID m =
    match owned id userID m with
    | Err e => (Err e, m)
    | Ok c =>
        if String.eqb (State c) CodeDeleted then (Ok tt, m)
        else (Ok tt, set_codes <[id := set_code (Destination c) CodeDeleted (incr64 (Version c)) (now env)
                                        (Some (now env)) c]> m)
    end) by (unfold MemStore.DeleteCode, with_ctx; cbn [ctx_Err env_micro]; by rewrite Hctx).
  destruct (owned id userID m) as [c|e] eqn:Ho.
  - apply owned_Ok in Ho as [Hc Hu]. pose proof (mok_codes _ Hok _ _ Hc) as Hcok.
    assert (EP : String.eqb (c_id (crow c)) id && String.eqb (c_user_id (crow c)) userID && row_live (crow c)
                 = negb (String.eqb (State c) CodeDeleted)).
    { cbn [crow c_id c_user_id]. by rewrite (wf_codes _ (mok_wf _ Hok) _ _ Hc), Hu, !String.eqb_refl. }
    rewrite EP in Hg. destruct (String.eqb (State c) CodeDeleted) eqn:Ed; cbn [negb] in Hg.
    + eapply (sim_intro _ _ _ _ (Ok tt)); [exact E|exact Hg|done|done].
    + eapply (sim_intro _ _ _ _ (Ok tt)); [exact E|exact Hg|done|].
      match goal with |- rel _ (set_codes <[_ := ?c']> _) => assert (Er : set_codes_row (c_destination (crow c)) CodeDeleted
        (fmtTime (now env)) (Some (fmtTime (now env))) (crow c) = crow c') end.
      { unfold set_codes_row, crow. cbn -[integer_affinity sql_plus]. destruct (Hv _ Hc). by rewrite plus_one. }
      cbv beta. rewrite Er. apply set_code_rel; [done|done|by apply micro_now|by apply micro_now|done].
  - eapply sim_intro; [exact E|exact Hg| |done].
    unfold owned in Ho. destruct (codes m !! id) as [c|]; [destruct (String.eqb _ _)|]; by simplify_eq.
Qed.

(** ** Aliases *)
Lemma live_count d m key sc :
  rel d m -> ascii_str sc -> ToLower sc = key ->
  (0 <? sql_count (live_named sc) (tb_codes d))
  = from_option (fun c => negb (is_deleted c)) false (byCode m !! key ≫= fun id => codes m !! id).
Proof.
  intros HR Hs Hk. pose proof (rel_ok _ _ HR) as Hok. pose proof (mok_wf _ Hok) as Hwf.
  assert (Hn : forall id c, codes m !! id = Some c -> live_named sc (crow c) = String.eqb (ShortCode c) key && negb (is_deleted c)).
  { intros id c Hc. unfold live_named. cbn [crow c_short_code]. rewrite (short_codes m id c sc Hok Hc Hs). by rewrite Hk. }
  destruct (byCode m !! key ≫= fun id => codes m !! id) as [c|] eqn:E; [destruct (is_deleted c) eqn:Ed|]; simpl; rewrite ?Ed; simpl.
  1, 3: apply Z.ltb_ge, Z.eq_le_incl, count_zero; intros k r Hr; rewrite (code_row_at _ _ _ HR) in Hr;
    apply fmap_Some in Hr as (c' & Hc' & ->); apply not_true_is_false; rewrite (Hn _ _ Hc');
    intros [E1%String.eqb_eq E2%negb_true_iff]%andb_prop;
    pose proof (wf_live _ Hwf _ _ Hc' E2) as Hb; rewrite E1 in Hb; rewrite Hb in E; simpl in E; congruence.
  destruct (byCode m !! key) as [id|] eqn:Hb; [|done]. simpl in E. rename E into Hc. apply Z.ltb_lt.
  assert (Hne : sql_count (live_named sc) (tb_codes d) <> 0).
  { intros Hz. pose proof (proj1 (count_zero _ _) Hz id (crow c)) as Hf.
    rewrite (code_row_at _ _ _ HR), Hc in Hf. specialize (Hf eq_refl). rewrite (Hn _ _ Hc), Ed in Hf.
    destruct (wf_byCode _ Hwf _ _ Hb) as (c' & Hc' & Ek). assert (c' = c) as -> by congruence.
    by rewrite Ek, String.eqb_refl in Hf. }
  pose proof (count_nonneg (live_named sc) (tb_codes d)). lia.
Qed.

Lemma reserved_select d m key :
  rel d m ->
  sql_select (reserved_as key) (tb_reservations d)
  = match reservations m !! key with Some r => if taken r then [rrow key r] else [] | None => [] end.
Proof.
  intros HR. rewrite (select_key ar_short_code _ _ key).
  - rewrite (rel_res _ _ HR). destruct (reservations m !! key) as [r|]; [|done].
    cbn [fmap option_fmap option_map]. unfold reserved_as. cbn [rrow ar_short_code ar_released_at].
    rewrite String.eqb_refl. unfold taken. by destruct (res_releasedAt r).
  - intros k r Hk. rewrite (rel_res _ _ HR) in Hk. by apply fmap_Some in Hk as (x & _ & ->).
  - by intros r [E%String.eqb_eq _]%andb_prop.
Qed.

Lemma is_Some_bool {A} (o : option A) : bool_decide (is_Some o) = match o with Some _ => true | None => false end.
Proof. destruct o; [by apply bool_decide_eq_true_2|]. apply bool_decide_eq_false_2. by intros [? ?]. Qed.

Lemma IsAliasAvailable_sim sc d m :
  rel d m -> ascii_str sc ->
  reads (IsAliasAvailable env no_fault sc) (MemStore.IsAliasAvailable (env_micro env) sc m) d.
Proof.
  intros HR Hs. pose proof (mok_wf _ (rel_ok _ _ HR)) as Hwf. eexists. split; [by apply runs_scan|].
  unfold MemStore.IsAliasAvailable, read_ctx. cbn [ctx_Err env_micro]. rewrite Hctx.
  pose proof (live_count d m _ sc HR Hs eq_refl) as Hl. rewrite (sql_lower_ascii sc) by done.
  unfold sql_count at 2. rewrite (reserved_select _ _ _ HR). rewrite (wf_index _ Hwf) in Hl.
  rewrite is_Some_bool, (wf_index _ Hwf). pose proof (count_nonneg (live_named sc) (tb_codes d)) as Hnn.
  destruct (reservations m !! ToLower sc) as [r|]; simpl in *.
  - destruct (taken r) eqn:Et; simpl in *.
    + apply Z.eqb_neq. lia.
    + apply Z.ltb_ge in Hl. apply Z.eqb_eq. lia.
  - apply Z.ltb_ge in Hl. apply Z.eqb_eq. lia.
Qed.

Lemma release_rel d m key r byCode' :
  rel d m -> reservations m !! key = Some r ->
  let r' := {| res_codeID := res_codeID r; res_reservedAt := res_reservedAt r;
               res_releasedAt := Some (now env) |} in
  let m' := set_byCode byCode' (set_reservations <[key := r']> m) in
  wf_store m' ->
  rel (with_reservations (<[key := set_released (fmtTime (now env)) (rrow key r)]> (tb_reservations d)) d) m'.
Proof.
  intros HR Hr r' m' Hwf'.
  assert (Hok' : mem_ok m').
  { destruct (rel_ok _ _ HR) as [H1 H2 H3 H4 H5 H6 H7 H8]. split; try done.
    intros k x. cbn. intros [[<- <-]|[_ Hx]]%lookup_insert_Some; [|by apply H5].
    destruct (H5 _ _ Hr) as (? & ? & _). split_and!; [done|done|]. by apply micro_now. }
  destruct HR as [_ H2 H3 H4 H5 H6 H7 H8 H9 H10 H11].
  split; cbn [with_reservations tb_users tb_tokens tb_styling tb_codes tb_reservations tb_events tb_events_seq tb_rollups]; try done.
  intros k. cbn. rewrite !lookup_insert. by case_decide; [subst k|].
Qed.

Lemma ReleaseAlias_sim sc d m :
  rel d m -> ascii_str sc ->
  sim (ReleaseAlias env no_fault sc) (MemStore.ReleaseAlias (env_micro env) sc) d m.
Proof.
  intros HR Hs. pose proof (rel_ok _ _ HR) as Hok. pose proof (mok_wf _ Hok) as Hwf.
  pose proof (wf_ReleaseAlias (env_micro env) sc m Hwf) as Hwf'. set (key := ToLower sc) in *.
  assert (Hkey : ascii_str key /\ ToLower key = key).
  { pose proof (lower_ascii sc Hs) as Hl. split; [by apply lowered_ascii|by apply ToLower_lowered]. }
  pose proof (live_count d m key key HR (proj1 Hkey) (proj2 Hkey)) as Hlive.
  rewrite (wf_index _ Hwf) in Hlive. unfold MemStore.ReleaseAlias, with_ctx in Hwf'.
  cbn [ctx_Err env_micro] in Hwf'. rewrite Hctx in Hwf'. fold key in Hwf'.
  assert (E : MemStore.ReleaseAlias (env_micro env) sc m =
    match reservations m !! key with
    | None => (Err (Wrap "memstore: alias not reserved" ErrNotFound), m)
    | Some r =>
        if negb (taken r) then (Err (Wrap "memstore: alias not reserved" ErrNotFound), m)
        else if from_option (fun c => negb (is_deleted c)) false (codes m !! res_codeID r)
        then (Err (Wrap "memstore: alias owned by live code" ErrConflict), m)
        else
          let r' := {| res_codeID := res_codeID r; res_reservedAt := res_reservedAt r;
                       res_releasedAt := Some (now env) |} in
          let m := set_reservations <[key := r']> m in
          match byCode m !! key with
          | None => (Ok tt, m)
          | Some id =>
              if from_option is_deleted false (codes m !! id)
              then (Ok tt, set_byCode (delete key) m) else (Ok tt, m)
          end
    end) by (unfold MemStore.ReleaseAlias, with_ctx; cbn [ctx_Err env_micro]; by rewrite Hctx).
  pose proof (runs_query env Hctx (fun d0 => query_row (sql_select (reserved_as key) (tb_reservations d0))) d) as Hq.
  cbv beta in Hq. rewrite (reserved_select _ _ _ HR) in Hq.
  assert (Hmiss : (reservations m !! key ≫= fun r => if taken r then Some r else None) = None ->
            runs (ReleaseAlias env no_fault sc) d (Err (notFound ("alias " +:+ key +:+ " not reserved"))) d).
  { intros Hm. eapply runs_transaction_Err; [done|]. eapply runs_then; [exact Hq|]. fold key.
    destruct (reservations m !! key) as [r|]; [simpl in Hm; destruct (taken r); [done|]|]; apply runs_return. }
  destruct (reservations m !! key) as [r|] eqn:Er.
  2: { eapply sim_intro; [exact E|by apply Hmiss|done|done]. }
  destruct (taken r) eqn:Et; simpl in E.
  2: { eapply sim_intro; [exact E|apply Hmiss; simpl; by rewrite ?Et|done|done]. }
  simpl in Hlive, Hwf'. rewrite ?Et in Hlive; simpl in Hlive.
  assert (Hlq : runs (query env no_fault (fun d0 => Ok (sql_count (live_named key) (tb_codes d0)))) d
            (Ok (sql_count (live_named key) (tb_codes d))) d).
  { exact (runs_query env Hctx (fun d0 => Ok (sql_count (live_named key) (tb_codes d0))) d). }
  destruct (from_option (fun c => negb (is_deleted c)) false (codes m !! res_codeID r)) eqn:Elive.
  - eapply (sim_intro _ _ _ _ (Err (conflict ("alias " +:+ key +:+ " owned by live code")))); [exact E| |done|done]. eapply runs_transaction_Err; [done|].
    eapply runs_then; [exact Hq|]. cbn [query_row]. eapply runs_checked; [exact Hlq|].
    fold key. rewrite Hlive. apply runs_return.
  - assert (Hup : sql_update (reserved_as key) (set_released (fmtTime (now env))) (tb_reservations d)
            = (1, <[key := set_released (fmtTime (now env)) (rrow key r)]> (tb_reservations d))).
    { apply update_one.
      - by rewrite (rel_res _ _ HR), Er.
      - unfold reserved_as. cbn. rewrite String.eqb_refl. unfold taken in Et. by destruct (res_releasedAt r).
      - intros k x Hk Hx. rewrite (rel_res _ _ HR) in Hk. apply fmap_Some in Hk as (y & _ & ->).
        apply andb_prop in Hx as [Hx%String.eqb_eq _]. done. }
    set (d1 := with_reservations (<[key := set_released (fmtTime (now env)) (rrow key r)]> (tb_reservations d)) d).
    assert (Hrun : runs (ReleaseAlias env no_fault sc) d (Ok tt) d1).
    { eapply runs_transaction; [done|]. eapply runs_then; [exact Hq|]. cbn [query_row].
      eapply runs_checked; [exact Hlq|]. fold key. rewrite Hlive.
      eapply runs_checked; [|apply runs_return]. apply runs_statement_Ok; [done|]. by rewrite Hup. }
    rewrite ?Et, ?Elive in Hwf'; simpl in Hwf'; rewrite ?Elive in Hwf'. cbv zeta in E.
    assert (Hb : byCode m !! key = Some (res_codeID r)) by (by rewrite (wf_index _ Hwf), Er; simpl; rewrite Et).
    cbn [set_reservations byCode codes] in E, Hwf'. rewrite Hb in E, Hwf'.
    destruct (wf_byCode _ Hwf _ _ Hb) as (c & Hc & _). rewrite Hc in E, Elive, Hwf'. simpl in E, Elive, Hwf'.
    apply negb_false_iff in Elive. rewrite Elive in E, Hwf'.
    eapply (sim_intro _ _ _ _ (Ok tt)); [exact E|exact Hrun|done|]. by apply release_rel.
Qed.
End sim.

Section sim.
Context `{U : UnicodeTable} `{TF : TimeFormat} {HTF : TimeFormatOk} `{ST : SqlTime} {Hst : SqlTimeOk}.
Context `{SE : SqlEngine} {Hse : SqlEngineOk}.
Context (env : Env) (Hctx : ctx_Err env = None).

(** ** Cursors

    The two stores write different cursors; they correspond when they name
    the same position. *)
Lemma decode_encode_cursor p :
  micro (cp_createdAt p) -> cp_id p <> "" -> decodeCursor (encodeCursor p) = Ok p.
Proof.
  intros Hm Hi. unfold decodeCursor, encodeCursor.
  rewrite decode_encode, of_bytes_bytes by apply good_alphabet_url.
  rewrite CutByte_app.
  - simpl. rewrite (proj2 (String.eqb_neq _ _) Hi), parse_fmtTime by done. by destruct p.
  - unfold fmtTime. change (Truncate _ _) with (trunc (cp_createdAt p)). rewrite trunc_micro by done.
    by apply tsLayout_no_nul.
Qed.

Lemma sql_cursor_nonempty p : micro (cp_createdAt p) -> cp_id p <> "" -> encodeCursor p <> "".
Proof.
  intros Hm Hi E. pose proof (decode_encode_cursor p Hm Hi) as D. rewrite E in D. done.
Qed.

Definition position_ok (p : cursorPos) : Prop := micro (cp_createdAt p) /\ cp_id p <> "".
Definition cursors (cs cm : string) : Prop :=
  (cs = "" /\ cm = "")
  \/ exists p, position_ok p /\ cs = encodeCursor p /\ cm = MemStore.encodeCursor p.

(** The filter handed to the in-memory store: its own cursor, truncated bounds. *)
Definition mem_filter (cm : string) (f : CodeFilter) : CodeFilter :=
  {| f_UserID := f_UserID f; CreatedAfter := trunc <$> CreatedAfter f;
     CreatedBefore := trunc <$> CreatedBefore f; f_Destination := f_Destination f;
     Limit := Limit f; Cursor := cm |}.

Record filter_ok (f : CodeFilter) (m : memStore) : Prop := {
  fok_after : from_option year_ok True (CreatedAfter f);
  fok_before : from_option year_ok True (CreatedBefore f);
  fok_dest : f_Destination f = ""
    \/ (ascii_str (f_Destination f) /\ forall id c, codes m !! id = Some c -> ascii_str (Destination c));
}.

Lemma ToLower_empty s : ascii_str s -> String.eqb (ToLower s) "" = String.eqb s "".
Proof.
  intros Hs. rewrite ToLower_name by done. unfold string_map. by destruct s as [|a s].
Qed.

Lemma list_where_match f cm m after id c :
  mem_ok m -> filter_ok f m -> codes m !! id = Some c -> from_option position_ok True after ->
  list_where f after (crow c) = list_match (mem_filter cm f) after c.
Proof.
  intros Hok [F1 F2 F3] Hc Ha. destruct (mok_codes _ Hok _ _ Hc) as [K1 K2 K3 K4 K5 K6].
  unfold list_where, list_match, mem_filter. cbn [crow c_user_id c_created_at c_destination c_id f_UserID
    CreatedAfter CreatedBefore f_Destination Cursor].
  rewrite row_live_deleted. unfold is_deleted.
  assert (E1 : from_option (fun t => str_ltb (fmtTime t) (fmtTime (code_CreatedAt c))) true (CreatedAfter f)
          = negb (from_option (fun t => negb (After (code_CreatedAt c) t)) false (trunc <$> CreatedAfter f))).
  { destruct (CreatedAfter f) as [t|]; [|done]. cbn [from_option fmap option_fmap option_map].
    rewrite negb_involutive, <- (fmtTime_trunc t). unfold After. by apply fmtTime_ltb; [apply micro_trunc|]. }
  assert (E2 : from_option (fun t => str_ltb (fmtTime (code_CreatedAt c)) (fmtTime t)) true (CreatedBefore f)
          = negb (from_option (fun t => negb (Before (code_CreatedAt c) t)) false (trunc <$> CreatedBefore f))).
  { destruct (CreatedBefore f) as [t|]; [|done]. cbn [from_option fmap option_fmap option_map].
    rewrite negb_involutive, <- (fmtTime_trunc t). unfold Before. by apply fmtTime_ltb; [|apply micro_trunc]. }
  assert (E3 : String.eqb (f_Destination f) ""
               || Contains (sql_lower (Destination c)) (sql_lower (f_Destination f))
          = negb (negb (String.eqb (ToLower (f_Destination f)) "")
                  && negb (Contains (ToLower (Destination c)) (ToLower (f_Destination f))))).
  { destruct F3 as [->|[Hd Hds]]; [done|]. rewrite !sql_lower_ascii by (done || by apply (Hds id)).
    rewrite ToLower_empty by done. by destruct (String.eqb _ ""), (Contains _ _). }
  assert (E4 : from_option (fun p => let ts := fmtTime (cp_createdAt p) in
                 str_ltb (fmtTime (code_CreatedAt c)) ts
                 || String.eqb (fmtTime (code_CreatedAt c)) ts && str_ltb (code_ID c) (cp_id p)) true after
          = from_option (beforeInListing c) true after).
  { destruct after as [p|]; [|done]. destruct Ha as [Hp _]. cbn [from_option]. cbv zeta.
    rewrite fmtTime_ltb, fmtTime_eqb by done. unfold beforeInListing, Before.
    destruct (Z.eqb_spec (code_CreatedAt c) (cp_createdAt p)) as [->|]; simpl.
    - by rewrite Z.ltb_irrefl.
    - by rewrite orb_false_r. }
  cbv zeta in E4 |- *. rewrite E1, E2, E3, E4.
  destruct (String.eqb (code_UserID c) (f_UserID f)); [|done].
  destruct (String.eqb (State c) CodeDeleted); [done|].
  destruct (from_option (fun t => negb (After _ t)) false _); [done|].
  destruct (from_option (fun t => negb (Before _ t)) false _); [done|].
  by destruct (negb (String.eqb _ "") && _).
Qed.

#[local] Instance codes_order_swo : StrictWeakOrder (fun a b : codesRow * stylingRow => codes_order a.1 b.1).
Proof. apply (proj_order codes_order fst). unfold codes_order. apply _. Qed.
#[local] Instance list_less_swo : StrictWeakOrder list_less.
Proof. unfold list_less, After. apply _. Qed.

(** The rows of the query are the rows of the listing. *)
Lemma list_query d m f cm after :
  rel d m -> filter_ok f m -> from_option position_ok True after ->
  sort_Slice (fun a b => codes_order a.1 b.1)
    (join_styling d (sql_select (list_where f after) (tb_codes d)))
  = prow <$> list_rows (mem_filter cm f) after m.
Proof.
  intros HR Hf Ha. pose proof (rel_ok _ _ HR) as Hok. pose proof (mok_wf _ Hok) as Hwf.
  assert (Hsel : sql_select (list_where f after) (tb_codes d)
            = crow <$> filter (fun c => list_match (mem_filter cm f) after c = true) (rows_of (codes m))).
  { rewrite (rel_codes _ _ HR), select_fmap. f_equal. apply filter_ext_on.
    intros c [id Hc]%elem_of_rows. by rewrite (list_where_match f cm m after id c). }
  rewrite Hsel, (join_rows d m) by
    (done || (apply Forall_forall; intros c [_ Hc]%list_elem_of_filter; by apply (list_elem_of_codes m c Hwf))).
  unfold list_rows. change (map_to_list (codes m)).*2 with (rows_of (codes m)).
  apply (sort_Slice_fmap_on list_less (fun a b : codesRow * stylingRow => codes_order a.1 b.1) prow);
    [|by apply codes_distinguished].
  intros x y [_ Hx]%list_elem_of_filter [_ Hy]%list_elem_of_filter.
  apply (list_elem_of_codes m _ Hwf) in Hx, Hy. pose proof (mok_codes _ Hok _ _ Hx) as Kx.
  pose proof (mok_codes _ Hok _ _ Hy) as Ky. unfold codes_order, list_less, lex_less, After.
  cbn [prow fst crow c_created_at c_id]. by rewrite !fmtTime_ltb by (apply Kx || apply Ky).
Qed.

(** A page and the cursor of the next one. *)
Definition page_agree (r r' : result (list Code * string)) : Prop :=
  match r, r' with
  | Ok (rows, cs), Ok (rows', cm) => rows = rows' /\ cursors cs cm
  | Err e, Err e' => same_error e e'
  | _, _ => False
  end.

Lemma ListCodes_sim f cm d m :
  rel d m -> filter_ok f m -> cursors (Cursor f) cm ->
  exists r, runs (ListCodes env no_fault f) d r d
    /\ page_agree r (MemStore.ListCodes (env_micro env) (mem_filter cm f) m).
Proof.
  intros HR Hf Hcur. pose proof (rel_ok _ _ HR) as Hok. pose proof (mok_wf _ Hok) as Hwf.
  unfold ListCodes, MemStore.ListCodes, read_ctx. cbn [ctx_Err env_micro]. rewrite Hctx.
  change (Cursor (mem_filter cm f)) with cm. change (page_limit (mem_filter cm f)) with (page_limit f).
  assert (Hafter : exists after, from_option position_ok True after
    /\ (if String.eqb (Cursor f) "" then Ok None else res_bind (decodeCursor (Cursor f)) (fun p => Ok (Some p))) = Ok after
    /\ (if String.eqb cm "" then Ok None else res_bind (MemStore.decodeCursor cm) (fun p => Ok (Some p))) = Ok after).
  { destruct Hcur as [[-> ->]|(p & [Hp Hi] & -> & ->)]; [by exists None|]. exists (Some p). split; [done|].
    rewrite (proj2 (String.eqb_neq _ _) (sql_cursor_nonempty p Hp Hi)).
    rewrite (proj2 (String.eqb_neq _ _) (encodeCursor_nonempty p)).
    rewrite decode_encode_cursor, decode_encodeCursor by (done || apply Hp). done. }
  destruct Hafter as (after & Ha & -> & ->). cbn [res_bind].
  eexists. split; [by apply runs_scan|].
  rewrite (list_query d m f cm after HR Hf Ha), <- fmap_take.
  set (rows := list_rows (mem_filter cm f) after m).
  assert (Hrows : forall c, c ∈ rows -> code_ok c /\ scanCode (prow c) = Ok c).
  { intros c Hc. unfold rows, list_rows in Hc.
    rewrite (sort_Slice_Permutation list_less), list_elem_of_filter in Hc. destruct Hc as [_ Hc].
    apply (list_elem_of_codes m c Hwf) in Hc. split; [by apply (mok_codes _ Hok (code_ID c))|by eapply scan_prow]. }
  rewrite (scan_all_rows scanCode prow id).
  2: { intros c Hc. apply Hrows. by eapply elem_of_take in Hc as (i & Hi%list_elem_of_lookup_2 & _). }
  rewrite list_fmap_id. cbn [res_bind].
  assert (Hlen : bool_decide (page_limit f < length (take (page_limit f + 1) rows))%nat
               = bool_decide (page_limit f < length rows)%nat).
  { apply bool_decide_ext. rewrite length_take. lia. }
  cbv zeta. rewrite Hlen.
  destruct (bool_decide (page_limit f < length rows)%nat) eqn:Hl;
    [apply bool_decide_eq_true in Hl|apply bool_decide_eq_false in Hl].
  - rewrite take_take, Nat.min_l by lia. unfold page_agree. cbv zeta. split; [done|].
    destruct (last (take (page_limit f) rows)) as [c|] eqn:El; [|by left]. right.
    assert (Hc : c ∈ rows).
    { apply last_Some_elem_of in El. by apply elem_of_take in El as (i & Hi%list_elem_of_lookup_2 & _). }
    destruct (Hrows c Hc) as [Kc _]. eexists. split; [|by split]. split; apply Kc.
  - unfold page_agree. split; [|by left]. apply take_ge. lia.
Qed.
End sim.
