(* ===== verification/SqliteCreate.v ===== *)
(** * SQLite against the in-memory store: inserting codes

    One row and a batch against the in-memory store; the rules a row may
    break, and that a failing insertion names one of them, in both stores. *)
From Stdlib Require Import Ascii String.
From S2P Require Import GoLib Act Domain Base64 Rollup MemStore MemStoreFacts Sql Sqlite SqliteRel SqliteCodes.
Local Open Scope string_scope.
Local Open Scope Z_scope.

(** Success agrees, values included; a failure is a failure. *)
Definition fails_together {A} (r r' : result A) : Prop :=
  match r, r' with Ok a, Ok b => a = b | Err _, Err _ => True | _, _ => False end.

(** What the driver keeps of a row the caller passes: no deletion time. *)
Definition trunc_code (c : Code) : Code :=
  {| code_ID := code_ID c; ShortCode := ShortCode c; IsAlias := IsAlias c;
     code_UserID := code_UserID c; Mode := Mode c; ClientRef := ClientRef c;
     Destination := Destination c; State := State c; code_Styling := code_Styling c;
     BlobKey := BlobKey c; BlobETag := BlobETag c; Version := Version c;
     code_CreatedAt := trunc (code_CreatedAt c); UpdatedAt := trunc (UpdatedAt c); DeletedAt := None |}.

Section sim.
Context `{U : UnicodeTable} `{TF : TimeFormat} `{ST : SqlTime} {Hst : SqlTimeOk} `{SE : SqlEngine} {Hse : SqlEngineOk}.
Context (env : Env) (Hctx : ctx_Err env = None) (Hnow : year_ok (time_Now env)).

(** The row the in-memory store keeps. *)
Definition kept_code (off : nat) (c : Code) : Code := stored_row (env_micro env) off (trunc_code c).

Record row_ok (c : Code) : Prop := {
  rok_created : stamp (code_CreatedAt c);
  rok_updated : stamp (UpdatedAt c);
  rok_short : ascii_str (ShortCode c);
  rok_scale : real_ok (LogoScale (code_Styling c));
}.

Lemma kept_created off c : stamp (code_CreatedAt c) ->
  code_CreatedAt (kept_code off c) = trunc (if IsZero (code_CreatedAt c) then now env else code_CreatedAt c).
Proof.
  intros Hc. unfold kept_code, stored_row. cbn. rewrite IsZero_trunc by done.
  destruct (IsZero _); [|done]. symmetry. apply trunc_micro. by apply micro_now.
Qed.

Lemma kept_updated off c : stamp (code_CreatedAt c) -> stamp (UpdatedAt c) ->
  UpdatedAt (kept_code off c)
  = trunc (if IsZero (UpdatedAt c) then (if IsZero (code_CreatedAt c) then now env else code_CreatedAt c)
           else UpdatedAt c).
Proof.
  intros Hc Hu. pose proof (kept_created off c Hc) as E. unfold kept_code, stored_row in *. cbn in *.
  rewrite (IsZero_trunc (UpdatedAt c)) by done. by destruct (IsZero (UpdatedAt c)).
Qed.

Lemma row_codes off c r : row_ok c -> newCodeRow env off c = Ok r ->
  cr_shortCode r = ShortCode (kept_code off c) /\ code_ID (cr_c r) = code_ID (kept_code off c)
  /\ codes_row r = crow (kept_code off c) /\ cr_styling r = code_Styling (kept_code off c)
  /\ reflect r = reflect_row (trunc_code c) (kept_code off c).
Proof.
  intros [Hc Hu _ _] E. unfold newCodeRow in E.
  destruct (_ || _); [done|]. injection E as <-.
  pose proof (kept_created off c Hc) as E1. pose proof (kept_updated off c Hc Hu) as E2.
  split_and!; try done.
  - unfold codes_row, crow. rewrite E1, E2, !fmtTime_trunc. done.
  - unfold reflect, reflect_row. rewrite E1, E2. done.
Qed.

Lemma newCodeRow_Ok off c :
  code_ID c <> "" -> ShortCode c <> "" -> code_UserID c <> "" -> is_Ok (newCodeRow env off c) = true.
Proof.
  intros H1 H2 H3. unfold newCodeRow.
  by rewrite (proj2 (String.eqb_neq _ _) H1), (proj2 (String.eqb_neq _ _) H2), (proj2 (String.eqb_neq _ _) H3).
Qed.

Lemma kept_code_ok off c r : row_ok c -> newCodeRow env off c = Ok r -> code_ok (kept_code off c).
Proof.
  intros [[Hc1 Hc2] [Hu1 Hu2] Hs Hf] E.
  assert (Hy : year_ok (if IsZero (code_CreatedAt c) then now env else code_CreatedAt c)).
  { destruct (IsZero _); [by apply micro_now|done]. }
  split.
  - rewrite kept_created by done. by apply micro_trunc.
  - rewrite kept_updated by done. apply micro_trunc. by destruct (IsZero (UpdatedAt c)).
  - done.
  - by apply lower_ascii.
  - unfold kept_code, stored_row. cbn. by destruct (String.eqb _ "").
  - unfold newCodeRow in E. intros Hid. change (code_ID c = "") in Hid. by rewrite Hid in E.
Qed.

(** ** One row *)
Lemma kept_ref off c : ClientRef (kept_code off c) = ClientRef c /\ code_UserID (kept_code off c) = code_UserID c.
Proof. done. Qed.

Lemma codes_clash d m cp :
  rel d m -> code_ok cp -> fresh_row m cp -> violated codes_unique (crow cp) (tb_codes d) = [].
Proof.
  intros HR Hcp (F1 & F2 & F3). pose proof (rel_ok _ _ HR) as Hok. pose proof (mok_wf _ Hok) as Hwf.
  rewrite (rel_codes _ _ HR), violated_fmap. unfold codes_unique. rewrite !Forall_cons. cbn [u_clash].
  split_and!; [| | |done]; intros k c Hc; apply not_true_is_false; cbn [crow c_id c_short_code c_user_id c_client_ref].
  - intros E%String.eqb_eq. rewrite (wf_codes _ Hwf _ _ Hc) in E. congruence.
  - intros [[_ E1]%andb_prop E2]%andb_prop. rewrite row_live_deleted in E1. apply negb_true_iff in E1.
    pose proof (wf_live _ Hwf _ _ Hc E1) as Hb. unfold nocase_eqb in E2. apply String.eqb_eq in E2.
    destruct Hcp as [_ _ _ Hl _ _]. destruct (mok_codes _ Hok _ _ Hc) as [_ _ _ Hl' _ _].
    rewrite !sql_lower_ascii in E2 by (by apply lowered_ascii).
    rewrite !ToLower_lowered in E2 by done. congruence.
  - destruct (nullStr (ClientRef cp)) as [a|] eqn:Ea, (nullStr (ClientRef c)) as [b|] eqn:Eb; try done.
    intros [E1%String.eqb_eq E2%String.eqb_eq]%andb_prop. apply nullStr_Some in Ea as [Ea Hne], Eb as [Eb _].
    destruct F3 as [F3|F3]; [congruence|].
    assert (Hb : byRef m !! (code_UserID cp, ClientRef cp) = Some k).
    { apply (wf_byRef _ Hwf). split; [congruence|]. exists c. split_and!; congruence. }
    congruence.
Qed.

(** A row that is not fresh meets a constraint, or an unreleased reservation. *)
Lemma codes_clash_conv d m cp :
  rel d m -> ~ fresh_row m cp -> violated codes_unique (crow cp) (tb_codes d) = [] ->
  is_Some (byCode m !! ShortCode cp).
Proof.
  intros HR Hnf Hv. pose proof (rel_ok _ _ HR) as Hok. pose proof (mok_wf _ Hok) as Hwf.
  rewrite (rel_codes _ _ HR), violated_fmap in Hv. unfold codes_unique in Hv. rewrite !Forall_cons in Hv.
  cbn [u_clash] in Hv. destruct Hv as (V1 & _ & V3 & _).
  destruct (byCode m !! ShortCode cp) as [id|] eqn:E; [by eexists|]. exfalso. apply Hnf. split_and!.
  - destruct (codes m !! code_ID cp) as [c|] eqn:Ec; [|done]. specialize (V1 _ _ Ec).
    cbn [crow c_id] in V1. by rewrite (wf_codes _ Hwf _ _ Ec), String.eqb_refl in V1.
  - done.
  - destruct (decide (ClientRef cp = "")) as [|Hne]; [by left|right].
    destruct (byRef m !! (code_UserID cp, ClientRef cp)) as [id|] eqn:Er; [|done].
    apply (wf_byRef _ Hwf) in Er as (_ & c & Hc & Hu & Hr). specialize (V3 _ _ Hc).
    cbn [crow c_client_ref c_user_id] in V3. rewrite Hr, Hu in V3.
    rewrite (proj2 (nullStr_Some (ClientRef cp) (ClientRef cp))) in V3 by done.
    by rewrite !String.eqb_refl in V3.
Qed.

Definition after_insert (cp : Code) (d : sqliteDB) : sqliteDB :=
  with_reservations (<[ShortCode cp := rrow (ShortCode cp)
      {| res_codeID := code_ID cp; res_reservedAt := now env; res_releasedAt := None |}]> (tb_reservations d))
    (with_codes (<[code_ID cp := crow cp]> (tb_codes d))
       (with_styling (<[styling_ID (code_Styling cp) := styling_row (code_Styling cp)]> (tb_styling d)) d)).

Lemma after_insert_rel d m cp :
  rel d m -> code_ok cp -> fresh_row m cp -> tb_styling d !! styling_ID (code_Styling cp) = None ->
  rel (after_insert cp d) (insert_row (now env) cp m).
Proof.
  intros HR Hcp Hf Hsty. pose proof (rel_ok _ _ HR) as Hok.
  destruct (insert_row_rest (now env) cp m) as (Eu & Ee & Et & Ev & En & Er).
  assert (Hok' : mem_ok (insert_row (now env) cp m)).
  { destruct Hok as [H1 H2 H3 H4 H5 H6 H7 H8].
    split; rewrite ?Eu, ?Et, ?Ev, ?En, ?Er, ?insert_row_codes, ?insert_row_reservations; try done.
    - by apply wf_insert_row.
    - intros k v [[_ <-]|[_ Hv]]%lookup_insert_Some; [done|]. by apply (H4 k).
    - intros k x [[<- <-]|[_ Hx]]%lookup_insert_Some; [|by apply H5].
      split_and!; [apply Hcp|by apply micro_now|done].
    - intros k n Hk. destruct (H8 k n Hk) as [? Hin]. split; [done|]. rewrite lookup_insert_is_Some'. by right. }
  destruct HR as [_ H2 H3 H4 H5 H6 H7 H8 H9 H10 H11].
  split; rewrite ?Eu, ?Et, ?Ev, ?En, ?Er, ?insert_row_codes, ?insert_row_reservations;
    cbn [after_insert with_reservations with_codes with_styling tb_users tb_tokens tb_styling tb_codes
         tb_reservations tb_events tb_events_seq tb_rollups]; try done.
  - by rewrite fmap_insert, H4.
  - intros k v [[_ <-]|[_ Hv]]%lookup_insert_Some; [apply lookup_insert_eq|].
    rewrite lookup_insert_ne; [by apply (H5 k)|]. intros E. specialize (H5 _ _ Hv). rewrite <- E in H5. congruence.
  - intros k. rewrite !lookup_insert. by case_decide; [subst k|].
  - intros k s [[<- <-]|[_ Hs]]%lookup_insert_Some; [done|]. by apply H10.
Qed.

(** ** The rules a row may break

    The sentinels of the rules a row breaks: its ids are new, its short code is
    neither on a live code nor reserved, the owner has not used its client
    reference, and the owner exists. *)
Definition when (b : bool) (s : store_sentinel) : list store_sentinel := if b then [s] else [].

Definition styling_broken (s : Styling) (d : sqliteDB) : list store_sentinel :=
  when (sql_exists (fun x => String.eqb (styling_ID s) (sp_id x)) (tb_styling d)) ErrConflict.

Definition code_broken (r : codeRow) (d : sqliteDB) : list store_sentinel :=
  let c := cr_c r in
  (when (sql_exists (fun x => String.eqb (code_ID c) (c_id x)) (tb_codes d)) ErrConflict
   ++ when (sql_exists (fun x => row_live (codes_row r) && row_live x
                                 && nocase_eqb (cr_shortCode r) (c_short_code x)) (tb_codes d)) ErrAliasTaken
   ++ when (sql_exists (fun x => match nullStr (ClientRef c), c_client_ref x with
                                 | Some a, Some b => String.eqb (code_UserID c) (c_user_id x) && String.eqb a b
                                 | _, _ => false
                                 end) (tb_codes d)) ErrClientRefTaken
   ++ when (negb (references (code_UserID c) (tb_users d))) ErrNotFound)%list.

Definition reserved (key : string) (d : sqliteDB) : bool :=
  match tb_reservations d !! key with
  | Some x => match ar_released_at x with None => true | Some _ => false end
  | None => false
  end.

Definition broken (r : codeRow) (d : sqliteDB) : list store_sentinel :=
  (styling_broken (cr_styling r) d ++ code_broken r d ++ when (reserved (cr_shortCode r) d) ErrAliasTaken)%list.

(** The database with the row in. *)
Definition after_styling (r : codeRow) (d : sqliteDB) : sqliteDB :=
  with_styling (<[styling_ID (cr_styling r) := styling_row (cr_styling r)]> (tb_styling d)) d.
Definition after_code (r : codeRow) (d : sqliteDB) : sqliteDB :=
  with_codes (<[code_ID (cr_c r) := codes_row r]> (tb_codes d)) (after_styling r d).
Definition after_row (r : codeRow) (d : sqliteDB) : sqliteDB :=
  with_reservations (<[cr_shortCode r := {| ar_short_code := cr_shortCode r; ar_code_id := Some (code_ID (cr_c r));
                                           ar_reserved_at := fmtTime (now env); ar_released_at := None |}]> (tb_reservations d))
    (after_code r d).

(** The rules the first offending row of a batch breaks. *)
Fixpoint batch_broken (rows : list codeRow) (d : sqliteDB) : list store_sentinel :=
  match rows with
  | [] => []
  | r :: rows' => match broken r d with [] => batch_broken rows' (after_row r d) | v => v end
  end.

(** The error is that of one of the rules. *)
Definition reports (v : list store_sentinel) (e : error) : Prop :=
  exists s, s ∈ v /\ same_error e (Sentinel (SStore s)).

Lemma reports_in s v e : same_error e (Sentinel (SStore s)) -> s ∈ v -> reports v e.
Proof. by exists s. Qed.

Lemma reports_mono v w e : v ⊆ w -> reports v e -> reports w e.
Proof. intros Hvw (s & Hs & He). exists s. auto. Qed.

Lemma reports_nonempty v e : reports v e -> v <> [].
Proof. intros (s & Hs & _) ->. by apply not_elem_of_nil in Hs. Qed.

Lemma in_when b s : b = true -> s ∈ when b s.
Proof. intros ->. apply list_elem_of_here. Qed.

Lemma when_nil b s : when b s = [] -> b = false.
Proof. by destruct b. Qed.

Lemma clash_named {K} `{Countable K} {R} (us : list (unique R)) r (t : gmap K R) e :
  e ∈ violated us r t -> exists u, u ∈ us /\ e = u_err u /\ sql_exists (u_clash u r) t = true.
Proof.
  unfold violated. intros (u & -> & Hu)%list_elem_of_fmap. apply list_elem_of_filter in Hu as [? ?]. eauto.
Qed.

(** A statement that goes through when [v] is empty, with [y], and else fails
    with the error of one of them. *)
Definition ruled {X} (v : list store_sentinel) (x : res dbErr X) (y : X) : Prop :=
  match x with Ok z => v = [] /\ z = y | Err e => reports v (translate e) end.

Lemma insert_styling_ruled r d :
  ruled (styling_broken (cr_styling r) d) (sql_insert_styling (cr_styling r) d) (tt, after_styling r d).
Proof.
  unfold ruled, sql_insert_styling, sql_insert. destruct (violated _ _ _) as [|e es] eqn:V.
  - split; [|done]. rewrite violated_nil in V. unfold styling_broken.
    specialize (V _ (list_elem_of_here _ _)). cbn [u_clash styling_row sp_id] in V. by rewrite V.
  - assert (Hin : report (e :: es) ∈ violated styling_unique (styling_row (cr_styling r)) (tb_styling d))
      by (rewrite V; by apply report_in).
    apply clash_named in Hin as (u & ->%list_elem_of_singleton & -> & Hc).
    apply (reports_in ErrConflict); [by intros []|by apply in_when].
Qed.

Lemma code_broken_nil r d :
  references (code_UserID (cr_c r)) (tb_users d) = true ->
  code_broken r d = [] <-> violated codes_unique (codes_row r) (tb_codes d) = [].
Proof.
  intros Hu. unfold code_broken. cbv zeta. rewrite Hu, violated_nil. cbn [negb when]. rewrite app_nil_r. split.
  - intros [E0 [E1 E2]%app_nil]%app_nil u Hin. unfold codes_unique in Hin. rewrite !elem_of_cons, elem_of_nil in Hin.
    destruct Hin as [->|[->|[->|[]]]]; cbn [u_clash codes_row c_id c_short_code c_client_ref c_user_id]; by eapply when_nil.
  - intros V.
    pose proof (V _ (list_elem_of_lookup_2 codes_unique 0 _ eq_refl)) as V0.
    pose proof (V _ (list_elem_of_lookup_2 codes_unique 1 _ eq_refl)) as V1.
    pose proof (V _ (list_elem_of_lookup_2 codes_unique 2 _ eq_refl)) as V2.
    cbn [u_clash codes_row c_id c_short_code c_client_ref c_user_id] in V0, V1, V2.
    rewrite V0. cbn [when app]. rewrite V1. cbn [when app]. by rewrite V2.
Qed.

Lemma insert_code_ruled r d :
  ruled (code_broken r d) (sql_insert_code r (after_styling r d)) (tt, after_code r d).
Proof.
  assert (Hsty : references (c_styling_id (codes_row r)) (tb_styling (after_styling r d)) = true).
  { apply bool_decide_eq_true_2. cbn. rewrite lookup_insert_eq. by eexists. }
  unfold ruled, sql_insert_code, sql_insert. cbv zeta. rewrite Hsty, andb_true_r.
  change (tb_codes (after_styling r d)) with (tb_codes d). change (tb_users (after_styling r d)) with (tb_users d).
  destruct (violated codes_unique (codes_row r) (tb_codes d)) as [|e es] eqn:V.
  - change (c_user_id (codes_row r)) with (code_UserID (cr_c r)).
    destruct (references (code_UserID (cr_c r)) (tb_users d)) eqn:Hu; [split; [by apply code_broken_nil|done]|].
    apply (reports_in ErrNotFound); [by intros []|]. unfold code_broken. rewrite Hu, !elem_of_app.
    right; right; right. by apply in_when.
  - assert (Hin : report (e :: es) ∈ violated codes_unique (codes_row r) (tb_codes d)) by (rewrite V; by apply report_in).
    apply clash_named in Hin as (u & Hu & -> & Hc).
    unfold codes_unique in Hu. rewrite !elem_of_cons, elem_of_nil in Hu. unfold code_broken.
    destruct Hu as [->|[->|[->|[]]]]; cbn [u_clash codes_row c_id c_short_code c_client_ref c_user_id] in Hc;
      [apply (reports_in ErrConflict)|apply (reports_in ErrAliasTaken)|apply (reports_in ErrClientRefTaken)];
      try (by intros []); rewrite !elem_of_app;
      [left|right; left|right; right; left]; by apply in_when.
Qed.

Lemma reserve_ruled r d :
  exists n d', sql_reserve env r (after_code r d) = Ok (n, d')
    /\ if reserved (cr_shortCode r) d then n = 0 else n = 1 /\ d' = after_row r d.
Proof.
  assert (Hcode : references (code_ID (cr_c r)) (tb_codes (after_code r d)) = true).
  { apply bool_decide_eq_true_2. cbn. rewrite lookup_insert_eq. by eexists. }
  unfold sql_reserve, reserved. rewrite Hcode. change (tb_reservations (after_code r d)) with (tb_reservations d).
  destruct (tb_reservations d !! cr_shortCode r) as [x|]; [|by eauto]. destruct (ar_released_at x); eauto.
Qed.

(** Inserting a row: it goes in when it breaks no rule, and else the error is
    that of a rule it breaks. *)
Definition inserts (v : list store_sentinel) (a : Act sqliteDB (result unit)) (d d' : sqliteDB) : Prop :=
  (v = [] /\ runs a d (Ok tt) d') \/ exists e d1, runs a d (Err e) d1 /\ reports v e.

Lemma insertCode_spec r d : inserts (broken r d) (insertCode env no_fault r) d (after_row r d).
Proof.
  unfold insertCode, broken. pose proof (insert_styling_ruled r d) as S1.
  destruct (sql_insert_styling (cr_styling r) d) as [[[] d1]|e] eqn:E1; cbn [ruled] in S1.
  2: { right. exists (translate e), d. split; [by apply runs_checked_Err, runs_statement_Err|].
       eapply reports_mono; [|exact S1]. set_solver. }
  destruct S1 as [-> [= ->]]. pose proof (insert_code_ruled r d) as S2.
  assert (R1 : runs (statement env no_fault (sql_insert_styling (cr_styling r))) d (Ok tt) (after_styling r d))
    by by apply runs_statement_Ok.
  destruct (sql_insert_code r (after_styling r d)) as [[[] d2]|e] eqn:E2; cbn [ruled] in S2.
  2: { right. exists (translate e), (after_styling r d). split.
       - eapply runs_checked; [exact R1|]. by apply runs_checked_Err, runs_statement_Err.
       - eapply reports_mono; [|exact S2]. set_solver. }
  destruct S2 as [-> [= ->]]. destruct (reserve_ruled r d) as (n & d3 & E3 & Hn).
  assert (Hrun : runs (insertCode env no_fault r) d
            (if n =? 0 then Err (Wrap "sqlite: short code reserved" ErrAliasTaken) else Ok tt) d3).
  { eapply runs_checked; [exact R1|]. eapply runs_checked; [by apply runs_statement_Ok|].
    eapply runs_checked; [by apply runs_statement_Ok|]. apply runs_return. }
  destruct (reserved _ _).
  - subst n. right. exists (Wrap "sqlite: short code reserved" ErrAliasTaken), d3. split; [exact Hrun|].
    apply (reports_in ErrAliasTaken); [by intros []|]. apply list_elem_of_here.
  - destruct Hn as [-> ->]. by left.
Qed.

Lemma insert_codes_spec rows d :
  exists d', inserts (batch_broken rows d) (insert_codes env no_fault rows) d d'.
Proof.
  revert d. induction rows as [|r rows IH]; intros d; [exists d; left; split; [done|apply runs_return]|].
  cbn [batch_broken insert_codes]. destruct (insertCode_spec r d) as [[-> Hr]|(e & d1 & Hr & He)].
  - destruct (IH (after_row r d)) as [d' [[-> Hrs]|(e & d1 & Hrs & He)]]; exists d'.
    + left. split; [done|]. by eapply runs_try.
    + right. exists e, d1. split; [by eapply runs_try|done].
  - exists d. right. exists e, d1. split; [by apply runs_try_Err|].
    pose proof (reports_nonempty _ _ He). by destruct (broken r d).
Qed.

Lemma fresh_decision m cp : fresh_row m cp \/ ~ fresh_row m cp.
Proof.
  unfold fresh_row. destruct (codes m !! code_ID cp); [right; by intros [? _]|].
  destruct (byCode m !! ShortCode cp); [right; by intros (_ & ? & _)|].
  destruct (decide (ClientRef cp = "")); [by left; auto|].
  destruct (byRef m !! (code_UserID cp, ClientRef cp)); [right|left; auto]. intros (_ & _ & [|]); done.
Qed.

Lemma reserved_taken d m key : rel d m -> reserved key d = bool_decide (is_Some (byCode m !! key)).
Proof.
  intros HR. pose proof (wf_index _ (mok_wf _ (rel_ok _ _ HR)) key) as Hidx. unfold reserved.
  rewrite (rel_res _ _ HR), Hidx. destruct (reservations m !! key) as [x|]; [|done].
  unfold taken. cbn. destruct (res_releasedAt x); done.
Qed.

(** A new row breaks no rule exactly when the in-memory store finds it fresh. *)
Lemma broken_fresh d m off c r :
  rel d m -> row_ok c -> newCodeRow env off c = Ok r -> is_Some (users m !! code_UserID c) ->
  tb_styling d !! styling_ID (code_Styling (kept_code off c)) = None ->
  broken r d = [] <-> fresh_row m (kept_code off c).
Proof.
  intros HR Hrow En Hu Hsty. pose proof (kept_code_ok off c r Hrow En) as Hcp.
  destruct (row_codes off c r Hrow En) as (E1 & E2 & E3 & E4 & _).
  assert (Eu : code_UserID (cr_c r) = code_UserID c).
  { change (c_user_id (codes_row r) = code_UserID c). by rewrite E3. }
  assert (Hs : styling_broken (cr_styling r) d = []).
  { unfold styling_broken. rewrite E4, (proj2 (sql_exists_false _ _)); [done|]. intros k x Hk.
    apply String.eqb_neq. rewrite (rel_sty_key _ _ HR _ _ Hk). congruence. }
  assert (Hr : references (code_UserID (cr_c r)) (tb_users d) = true).
  { rewrite Eu, (rel_users _ _ HR), references_fmap. exact (bool_decide_eq_true_2 _ Hu). }
  unfold broken. rewrite Hs, (reserved_taken d m _ HR), E1. cbn [app]. split.
  - intros [Hv Hn%when_nil]%app_nil. apply (proj1 (code_broken_nil r d Hr)) in Hv. rewrite E3 in Hv.
    destruct (fresh_decision m (kept_code off c)) as [|Hf]; [done|].
    pose proof (codes_clash_conv d m _ HR Hf Hv) as Hb. by apply bool_decide_eq_false in Hn.
  - intros Hf. rewrite (proj2 (code_broken_nil r d Hr)); [|rewrite E3; by apply (codes_clash d m)].
    destruct Hf as (_ & -> & _). done.
Qed.

Lemma after_row_insert off c r d :
  row_ok c -> newCodeRow env off c = Ok r -> after_row r d = after_insert (kept_code off c) d.
Proof.
  intros Hrow En. destruct (row_codes off c r Hrow En) as (E1 & E2 & E3 & E4 & _).
  unfold after_row, after_code, after_styling, after_insert. by rewrite E1, E2, E3, E4.
Qed.

Lemma insertCode_runs d m off c r :
  rel d m -> row_ok c -> newCodeRow env off c = Ok r -> is_Some (users m !! code_UserID c) ->
  tb_styling d !! styling_ID (code_Styling (kept_code off c)) = None ->
  (fresh_row m (kept_code off c) -> runs (insertCode env no_fault r) d (Ok tt) (after_insert (kept_code off c) d))
  /\ (~ fresh_row m (kept_code off c) -> exists e d', runs (insertCode env no_fault r) d (Err e) d').
Proof.
  intros HR Hrow En Hu Hsty. rewrite <- (broken_fresh d m off c r) by done. rewrite <- (after_row_insert off c r) by done.
  destruct (insertCode_spec r d) as [[-> Hr]|(e & d' & Hr & He)]; [done|].
  split; [|by eauto]. intros E. by destruct (reports_nonempty _ _ He).
Qed.

(** ** The batch *)

(** [m'] is [m] with rows whose keys are in the given sets. *)
Record grown_to (m m' : memStore) (sID sCode : gset string) (sRef : gset (string * string)) : Prop := {
  gt_id id : is_Some (codes m' !! id) <-> is_Some (codes m !! id) \/ id ∈ sID;
  gt_code k : is_Some (byCode m' !! k) <-> is_Some (byCode m !! k) \/ k ∈ sCode;
  gt_ref k : is_Some (byRef m' !! k) <-> is_Some (byRef m !! k) \/ k ∈ sRef;
  gt_users : users m' = users m;
}.

Lemma grown_to_refl m : grown_to m m ∅ ∅ ∅.
Proof. split; [| | |done]; intros k; rewrite elem_of_empty; tauto. Qed.

Lemma grown_to_insert m m' sID sCode sRef t cp :
  grown_to m m' sID sCode sRef ->
  grown_to m (insert_row t cp m') ({[code_ID cp]} ∪ sID) ({[ShortCode cp]} ∪ sCode) (add_ref cp sRef).
Proof.
  intros [G1 G2 G3 G4]. split.
  - intros id. rewrite insert_row_codes, lookup_insert_is_Some', elem_of_union, elem_of_singleton, G1. naive_solver.
  - intros k. rewrite insert_row_byCode, lookup_insert_is_Some', elem_of_union, elem_of_singleton, G2. naive_solver.
  - intros k. rewrite insert_row_byRef. unfold add_ref. destruct (String.eqb (ClientRef cp) ""); [apply G3|].
    rewrite lookup_insert_is_Some', elem_of_union, elem_of_singleton, G3. naive_solver.
  - destruct (insert_row_rest t cp m') as (-> & _). done.
Qed.

(** The error is that of a rule of the in-memory store that [c] breaks. *)
Definition offends (m : memStore) (c : Code) (e : error) : Prop :=
  (is_Some (codes m !! code_ID c) /\ same_error e (Sentinel ErrConflict))
  \/ (is_Some (byCode m !! ToLower (ShortCode c)) /\ same_error e (Sentinel ErrAliasTaken))
  \/ (ClientRef c <> "" /\ is_Some (byRef m !! (code_UserID c, ClientRef c))
      /\ same_error e (Sentinel ErrClientRefTaken)).

Lemma offends_broken d m off c r e :
  rel d m -> row_ok c -> newCodeRow env off c = Ok r -> offends m c e -> reports (broken r d) e.
Proof.
  intros HR Hrow En Ho. pose proof (mok_wf _ (rel_ok _ _ HR)) as Hwf.
  destruct (row_codes off c r Hrow En) as (E1 & E2 & E3 & _).
  assert (Eu : code_UserID (cr_c r) = code_UserID c) by (change (c_user_id (codes_row r) = code_UserID c); by rewrite E3).
  assert (Ef : nullStr (ClientRef (cr_c r)) = nullStr (ClientRef c))
    by (change (c_client_ref (codes_row r) = nullStr (ClientRef c)); by rewrite E3).
  unfold broken, code_broken. cbv zeta. rewrite Eu, Ef, E1, E2, (reserved_taken d m _ HR).
  destruct Ho as [[[x Hx] He]|[[Hx He]|(Hne & [id Hx] & He)]].
  - apply (reports_in ErrConflict); [done|]. rewrite !elem_of_app. right; left; left. apply in_when, sql_exists_spec.
    exists (code_ID c), (crow x). split; [by rewrite (rel_codes _ _ HR), lookup_fmap, Hx|].
    cbn [crow c_id]. rewrite (wf_codes _ Hwf _ _ Hx). apply String.eqb_refl.
  - apply (reports_in ErrAliasTaken); [done|]. rewrite !elem_of_app. right; right.
    by apply in_when, bool_decide_eq_true_2.
  - apply (reports_in ErrClientRefTaken); [done|]. rewrite !elem_of_app. right; left; right; right; left.
    apply in_when, sql_exists_spec. apply (wf_byRef _ Hwf) in Hx as (_ & x & Hx & Hu & Hr).
    exists id, (crow x). split; [by rewrite (rel_codes _ _ HR), lookup_fmap, Hx|]. cbn [crow c_client_ref c_user_id].
    rewrite Hr, Hu, (proj2 (nullStr_Some (ClientRef c) (ClientRef c))) by done. by rewrite !String.eqb_refl.
Qed.

(** The checking pass accepts a row exactly when it is fresh where the batch
    has come to. *)
Lemma check_rows_step off m m' c cs sID sCode sRef :
  wf_store m -> grown_to m m' sID sCode sRef -> is_Ok (newCodeRow env off c) = true ->
  (fresh_row m' (kept_code off c) ->
     check_rows m (trunc_code c :: cs) sID sCode sRef
     = check_rows m cs ({[code_ID c]} ∪ sID) ({[ToLower (ShortCode c)]} ∪ sCode) (add_ref (kept_code off c) sRef))
  /\ (~ fresh_row m' (kept_code off c) ->
       exists e, check_rows m (trunc_code c :: cs) sID sCode sRef = Some e /\ offends m' c e).
Proof.
  intros Hwf [G1 G2 G3 _] Hreq. unfold newCodeRow in Hreq.
  destruct (String.eqb (code_ID c) "" || String.eqb (ShortCode c) "" || String.eqb (code_UserID c) "") eqn:Eq; [done|].
  cbn [check_rows trunc_code code_ID ShortCode code_UserID ClientRef]. rewrite Eq.
  specialize (G1 (code_ID c)). specialize (G2 (ToLower (ShortCode c))). specialize (G3 (code_UserID c, ClientRef c)).
  pose proof (wf_index _ Hwf (ToLower (ShortCode c))) as Hidx.
  change (fresh_row m' (kept_code off c)) with
    (codes m' !! code_ID c = None /\ byCode m' !! ToLower (ShortCode c) = None
     /\ (ClientRef c = "" \/ byRef m' !! (code_UserID c, ClientRef c) = None)).
  unfold add_ref. change (ClientRef (kept_code off c)) with (ClientRef c).
  change (code_UserID (kept_code off c)) with (code_UserID c).
  unfold offends. rewrite !eq_None_not_Some, G1, G2, G3.
  repeat match goal with |- context [bool_decide ?P || bool_decide ?Q] =>
    replace (bool_decide P || bool_decide Q) with (bool_decide (P \/ Q)) by apply bool_decide_or end.
  destruct (decide (is_Some (codes m !! code_ID c) \/ code_ID c ∈ sID)) as [H1|H1].
  { rewrite (bool_decide_eq_true_2 _ H1). split; [tauto|]. intros _. eexists. split; [done|]. left. split; [by apply G1|by intros []]. }
  rewrite (bool_decide_eq_false_2 _ H1).
  destruct (decide (is_Some (byCode m !! ToLower (ShortCode c)) \/ ToLower (ShortCode c) ∈ sCode)) as [H2|H2].
  { rewrite (bool_decide_eq_true_2 _ H2). split; [tauto|]. intros _. eexists. split; [done|]. right; left. split; [by apply G2|by intros []]. }
  rewrite (bool_decide_eq_false_2 _ H2).
  assert (Ht : from_option taken false (reservations m !! ToLower (ShortCode c)) = false).
  { destruct (reservations m !! ToLower (ShortCode c)) as [x|]; [|done]. simpl in *.
    destruct (taken x); [|done]. exfalso. apply H2. left. rewrite Hidx. eauto. }
  rewrite Ht. destruct (String.eqb_spec (ClientRef c) "") as [Er|Er]; [split; [done|tauto]|].
  destruct (decide (is_Some (byRef m !! (code_UserID c, ClientRef c)) \/ (code_UserID c, ClientRef c) ∈ sRef)) as [H3|H3].
  - rewrite (bool_decide_eq_true_2 _ H3). split; [tauto|]. intros _. eexists. split; [done|]. right; right.
    split_and!; [done|by apply G3|by intros []].
  - rewrite (bool_decide_eq_false_2 _ H3). split; [done|tauto].
Qed.

(** The ids of the styling profiles a batch inserts. *)
Fixpoint styling_ids (off : nat) (cs : list Code) : list string :=
  match cs with
  | [] => []
  | c :: cs' => styling_ID (code_Styling (kept_code off c)) :: styling_ids (off + styling_draws c) cs'
  end.

Lemma insert_codes_sim m cs off d m' rows sID sCode sRef :
  wf_store m -> rel d m' -> grown_to m m' sID sCode sRef -> Forall row_ok cs ->
  Forall (fun c => is_Some (users m !! code_UserID c)) cs ->
  NoDup (styling_ids off cs) -> Forall (fun id => tb_styling d !! id = None) (styling_ids off cs) ->
  new_rows env off cs = Ok rows ->
  match check_rows m (trunc_code <$> cs) sID sCode sRef with
  | None => exists d', runs (insert_codes env no_fault rows) d (Ok tt) d'
      /\ rel d' (write_rows (env_micro env) off (trunc_code <$> cs) m').2
      /\ (reflect <$> rows) = (write_rows (env_micro env) off (trunc_code <$> cs) m').1
  | Some _ => exists e d', runs (insert_codes env no_fault rows) d (Err e) d'
  end.
Proof.
  intros Hwf. revert off d m' rows sID sCode sRef.
  induction cs as [|c cs IH]; intros off d m' rows sID sCode sRef HR HG Hrows Hus Hnd Hst' Hnew.
  { simpl in Hnew. injection Hnew as <-. exists d. split; [apply runs_return|done]. }
  apply Forall_cons in Hrows as [Hrow Hrows]. apply Forall_cons in Hus as [Hu Hus].
  cbn [styling_ids] in Hnd, Hst'. apply NoDup_cons in Hnd as [Hni Hnd]. apply Forall_cons in Hst' as [Hs Hst'].
  cbn [new_rows] in Hnew. destruct (newCodeRow env off c) as [r|] eqn:En; [|done]. cbn [res_bind] in Hnew.
  destruct (new_rows env (off + styling_draws c) cs) as [rs|] eqn:Ers; [|done]. injection Hnew as <-.
  pose proof (check_rows_step off m m' c (trunc_code <$> cs) sID sCode sRef Hwf HG) as Hstep.
  rewrite En in Hstep. destruct (Hstep eq_refl) as [Hyes Hno]. rewrite fmap_cons.
  assert (Hu' : is_Some (users m' !! code_UserID c)) by (by rewrite (gt_users _ _ _ _ _ HG)).
  destruct (insertCode_runs d m' off c r HR Hrow En Hu' Hs) as [Rok Rerr].
  destruct (fresh_decision m' (kept_code off c)) as [Hf|Hf].
  - rewrite (Hyes Hf). specialize (Rok Hf).
    assert (Hcp : code_ok (kept_code off c)) by (by apply (kept_code_ok off c r)).
    pose proof (after_insert_rel d m' (kept_code off c) HR Hcp Hf Hs) as HR1.
    assert (Hst1 : Forall (fun id => tb_styling (after_insert (kept_code off c) d) !! id = None)
              (styling_ids (off + styling_draws c) cs)).
    { apply Forall_forall. intros id Hid. cbn [after_insert with_reservations with_codes with_styling tb_styling].
      rewrite lookup_insert_ne by (intros E; by rewrite E in Hni). by apply (proj1 (Forall_forall _ _) Hst'). }
    specialize (IH _ _ _ rs _ _ _ HR1 (grown_to_insert _ _ _ _ _ (now env) (kept_code off c) HG) Hrows Hus Hnd Hst1 Ers).
    change (code_ID (kept_code off c)) with (code_ID c) in IH.
    change (ShortCode (kept_code off c)) with (ToLower (ShortCode c)) in IH.
    destruct (check_rows m (trunc_code <$> cs) _ _ _) as [e|].
    + destruct IH as (e' & d' & Hr). exists e', d'. cbn [insert_codes]. eapply runs_try; [exact Rok|exact Hr].
    + destruct IH as (d' & Hr & HR' & Hout). exists d'. split; [cbn [insert_codes]; eapply runs_try; [exact Rok|exact Hr]|].
      cbn [write_rows]. change (stored_row (env_micro env) off (trunc_code c)) with (kept_code off c).
      change (styling_draws (trunc_code c)) with (styling_draws c).
      change (time_Now (env_micro env)) with (now env).
      destruct (write_rows (env_micro env) (off + styling_draws c) (trunc_code <$> cs) (insert_row (now env) (kept_code off c) m')) as [out m2].
      split; [done|]. cbn [fst]. rewrite fmap_cons. f_equal; [by apply (row_codes off c r)|exact Hout].
  - destruct (Hno Hf) as (e & -> & _). destruct (Rerr Hf) as (e' & d' & Hr). exists e', d'.
    cbn [insert_codes]. by eapply runs_try_Err.
Qed.

(** A batch the driver refuses before it starts is one the checking pass
    refuses. *)
Lemma new_rows_Err off m cs sID sCode sRef e :
  new_rows env off cs = Err e -> is_Some (check_rows m (trunc_code <$> cs) sID sCode sRef).
Proof.
  revert off sID sCode sRef. induction cs as [|c cs IH]; intros off sID sCode sRef E; [done|].
  rewrite fmap_cons. cbn [new_rows] in E. cbn [check_rows trunc_code code_ID ShortCode code_UserID ClientRef].
  destruct (String.eqb (code_ID c) "" || String.eqb (ShortCode c) "" || String.eqb (code_UserID c) "") eqn:Eq; [by eexists|].
  assert (Hrow : is_Ok (newCodeRow env off c) = true) by (unfold newCodeRow; by rewrite Eq).
  destruct (newCodeRow env off c) as [r|]; [|done]. cbn [res_bind] in E.
  destruct (new_rows env (off + styling_draws c) cs) as [rs|e'] eqn:En; [done|]. injection E as ->.
  repeat match goal with |- is_Some (if ?b then _ else _) => destruct b end; first [by eexists|by eapply IH].
Qed.

Record batch_ok (cs : list Code) (d : sqliteDB) (m : memStore) : Prop := {
  bok_rows : Forall row_ok cs;
  bok_users : Forall (fun c => is_Some (users m !! code_UserID c)) cs;
  bok_ids : NoDup (styling_ids 0 cs);
  bok_new : Forall (fun id => tb_styling d !! id = None) (styling_ids 0 cs);
}.

Lemma CreateCodes_sim cs d m :
  rel d m -> batch_ok cs d m ->
  exists r d', runs (CreateCodes env no_fault cs) d r d'
    /\ fails_together r (MemStore.CreateCodes (env_micro env) (trunc_code <$> cs) m).1
    /\ rel d' (MemStore.CreateCodes (env_micro env) (trunc_code <$> cs) m).2
    /\ (is_Ok r = false -> d' = d).
Proof.
  intros HR [B1 B2 B3 B4]. pose proof (mok_wf _ (rel_ok _ _ HR)) as Hwf.
  unfold MemStore.CreateCodes, with_ctx. cbn [ctx_Err env_micro]. rewrite Hctx.
  destruct cs as [|c cs]; [by exists (Ok []), d; split_and!; [apply runs_return| | |]|].
  unfold CreateCodes. set (l := c :: cs) in *.
  destruct (new_rows env 0 l) as [rows|e] eqn:En.
  2: { destruct (new_rows_Err 0 m l ∅ ∅ ∅ e En) as [e' ->]. exists (Err e), d. split_and!; [apply runs_return|done|done|done]. }
  pose proof (insert_codes_sim m l 0 d m rows ∅ ∅ ∅ Hwf HR (grown_to_refl m) B1 B2 B3 B4 En) as Hs.
  destruct (check_rows m (trunc_code <$> l) ∅ ∅ ∅) as [e|].
  - destruct Hs as (e' & d' & Hr). exists (Err e'), d. split_and!; [|done|done|done].
    eapply runs_try_Err. by eapply runs_transaction_Err.
  - destruct Hs as (d' & Hr & HR' & Hout). exists (Ok (reflect <$> rows)), d'.
    destruct (write_rows (env_micro env) 0 (trunc_code <$> l) m) as [out m'].
    split_and!; [|done|done|done]. eapply runs_try; [by apply runs_transaction|]. apply runs_return.
Qed.

(** ** The errors *)

(** An error that matches no sentinel of the store. *)
Definition plain (e : error) : Prop := forall s : store_sentinel, errors_Is e s = false.

Definition refused_for (v : list store_sentinel) (e : error) : Prop :=
  match v with [] => plain e | _ => reports v e end.

(** The rows before the first one that lacks an id, a short code or an owner. *)
Fixpoint complete_rows (off : nat) (cs : list Code) : list codeRow :=
  match cs with
  | [] => []
  | c :: cs' =>
      match newCodeRow env off c with
      | Ok r => r :: complete_rows (off + styling_draws c) cs'
      | Err _ => []
      end
  end.

Lemma new_rows_complete off cs rows : new_rows env off cs = Ok rows -> complete_rows off cs = rows.
Proof.
  revert off rows. induction cs as [|c cs IH]; intros off rows E; cbn [new_rows complete_rows] in *; [congruence|].
  destruct (newCodeRow env off c) as [r|]; [|done]. cbn [res_bind] in E.
  destruct (new_rows env (off + styling_draws c) cs) as [rs|] eqn:En; [|done]. injection E as <-. by rewrite (IH _ _ En).
Qed.

Lemma new_rows_plain off cs e : new_rows env off cs = Err e -> plain e.
Proof.
  revert off. induction cs as [|c cs IH]; intros off E; cbn [new_rows] in E; [done|].
  destruct (newCodeRow env off c) as [r|e'] eqn:En; cbn [res_bind] in E.
  - destruct (new_rows env (off + styling_draws c) cs) as [rs|e'] eqn:Er; [done|].
    injection E as ->. exact (IH _ Er).
  - injection E as ->. unfold newCodeRow in En. destruct (_ || _); [|done]. by injection En as <-.
Qed.

(** Codes that cannot go in: the error of SQLite ([e]) is that of a rule that
    the first offending row breaks, and so is that of the in-memory store
    ([e']), unless a row is incomplete.  SQLite looks for an incomplete row
    before it inserts any, the in-memory store when it comes to it. *)
Definition create_errors (cs : list Code) (d : sqliteDB) (e e' : error) : Prop :=
  let v := batch_broken (complete_rows 0 cs) d in
  (if is_Ok (new_rows env 0 cs) then reports v e else plain e)
  /\ refused_for v e'.

Lemma check_rows_error m cs off d m' sID sCode sRef e :
  wf_store m -> rel d m' -> grown_to m m' sID sCode sRef -> Forall row_ok cs ->
  Forall (fun c => is_Some (users m !! code_UserID c)) cs ->
  NoDup (styling_ids off cs) -> Forall (fun id => tb_styling d !! id = None) (styling_ids off cs) ->
  check_rows m (trunc_code <$> cs) sID sCode sRef = Some e ->
  refused_for (batch_broken (complete_rows off cs) d) e.
Proof.
  intros Hwf. revert off d m' sID sCode sRef.
  induction cs as [|c cs IH]; intros off d m' sID sCode sRef HR HG Hrows Hus Hnd Hst' Hc; [done|].
  apply Forall_cons in Hrows as [Hrow Hrows]. apply Forall_cons in Hus as [Hu Hus].
  cbn [styling_ids] in Hnd, Hst'. apply NoDup_cons in Hnd as [Hni Hnd]. apply Forall_cons in Hst' as [Hs Hst'].
  rewrite fmap_cons in Hc. cbn [complete_rows].
  destruct (newCodeRow env off c) as [r|] eqn:En.
  2: { unfold newCodeRow in En. destruct (_ || _) eqn:Eq; [|done].
       cbn [check_rows trunc_code code_ID ShortCode code_UserID] in Hc. rewrite Eq in Hc. by injection Hc as <-. }
  pose proof (check_rows_step off m m' c (trunc_code <$> cs) sID sCode sRef Hwf HG) as Hstep.
  rewrite En in Hstep. destruct (Hstep eq_refl) as [Hyes Hno]. cbn [batch_broken].
  assert (Hu' : is_Some (users m' !! code_UserID c)) by (by rewrite (gt_users _ _ _ _ _ HG)).
  pose proof (broken_fresh d m' off c r HR Hrow En Hu' Hs) as Hb.
  destruct (fresh_decision m' (kept_code off c)) as [Hf|Hf].
  - rewrite (Hyes Hf) in Hc. rewrite (proj2 Hb Hf), (after_row_insert off c r) by done.
    assert (Hcp : code_ok (kept_code off c)) by (by apply (kept_code_ok off c r)).
    apply (IH _ _ (insert_row (now env) (kept_code off c) m') ({[code_ID c]} ∪ sID)
             ({[ToLower (ShortCode c)]} ∪ sCode) (add_ref (kept_code off c) sRef)); try done.
    + by apply after_insert_rel.
    + exact (grown_to_insert _ _ _ _ _ (now env) (kept_code off c) HG).
    + apply Forall_forall. intros id Hid. cbn [after_insert with_reservations with_codes with_styling tb_styling].
      rewrite lookup_insert_ne by (intros E; by rewrite E in Hni). by apply (proj1 (Forall_forall _ _) Hst').
  - destruct (Hno Hf) as (e' & E & Ho). rewrite E in Hc. injection Hc as ->.
    pose proof (offends_broken d m' off c r e HR Hrow En Ho) as Hrep.
    pose proof (reports_nonempty _ _ Hrep). by destruct (broken r d).
Qed.

Lemma CreateCodes_errors cs d m e d' e' :
  rel d m -> batch_ok cs d m -> runs (CreateCodes env no_fault cs) d (Err e) d' ->
  (MemStore.CreateCodes (env_micro env) (trunc_code <$> cs) m).1 = Err e' -> create_errors cs d e e'.
Proof.
  intros HR [B1 B2 B3 B4] Hr Hm. pose proof (mok_wf _ (rel_ok _ _ HR)) as Hwf.
  unfold MemStore.CreateCodes, with_ctx in Hm. cbn [ctx_Err env_micro] in Hm. rewrite Hctx in Hm.
  destruct (check_rows m (trunc_code <$> cs) ∅ ∅ ∅) as [e0|] eqn:Ec; [|by destruct (write_rows _ _ _ _)].
  injection Hm as ->. split; [|by apply (check_rows_error m cs 0 d m ∅ ∅ ∅ e' Hwf HR (grown_to_refl m))].
  destruct cs as [|c cs]; [done|]. unfold CreateCodes in Hr.
  destruct (new_rows env 0 (c :: cs)) as [rows|e0] eqn:En; cbn [is_Ok].
  - rewrite (new_rows_complete _ _ _ En). destruct (insert_codes_spec rows d) as [d1 [[_ Hi]|(e1 & d2 & Hi & He)]].
    + destruct (runs_det _ _ _ _ (Ok (reflect <$> rows)) d1 Hr) as [? _]; [|done].
      eapply runs_try; [by apply runs_transaction|apply runs_return].
    + destruct (runs_det _ _ _ _ (Err e1) d Hr) as [[= ->] _]; [|done].
      eapply runs_try_Err. by eapply runs_transaction_Err.
  - destruct (runs_det _ _ _ _ _ _ Hr (runs_return (Err e0) d)) as [[= ->] _]. by eapply new_rows_plain.
Qed.
End sim.
