(* ===== verification/SqliteScans.v ===== *)
(** * SQLite against the in-memory store: scans, rollups, analytics, retention *)
From Stdlib Require Import Ascii String.
From S2P Require Import GoLib Act Domain Base64 Rollup MemStore MemStoreFacts Listing Sql Sqlite SqliteRel SqliteCodes SqliteCreate.
Local Open Scope string_scope.
Local Open Scope Z_scope.
Local Open Scope go_scope.

Definition trunc_event (ev : ScanEvent) : ScanEvent :=
  {| ev_CodeID := ev_CodeID ev; OccurredAt := trunc (OccurredAt ev); UAFamily := UAFamily ev;
     ev_DeviceCategory := ev_DeviceCategory ev; ReferrerHost := ReferrerHost ev; IsBot := IsBot ev |}.
Definition trunc_batch (b : ScanBatch) : ScanBatch :=
  {| Events := trunc_event <$> Events b; Rollups := Rollups b |}.
Definition trunc_query (q : AnalyticsQuery) : AnalyticsQuery :=
  {| q_CodeID := q_CodeID q; q_From := trunc (q_From q); q_To := trunc (q_To q); q_Bucket := q_Bucket q |}.

(** Folding a step that commutes with itself does not depend on the order. *)
Lemma foldl_Permutation {A B} (f : A -> B -> A) :
  (forall a x y, f (f a x) y = f (f a y) x) -> forall l k a, l ≡ₚ k -> foldl f a l = foldl f a k.
Proof.
  intros Hf l k a Hp. revert a. induction Hp as [|x l k _ IH|x y l|l k j _ IH1 _ IH2]; intros a; simpl.
  - done.
  - apply IH.
  - by rewrite Hf.
  - by rewrite IH1, IH2.
Qed.

Lemma add64_swap a x y : add64 (add64 a x) y = add64 (add64 a y) x.
Proof.
  unfold add64. rewrite (wrap64_add_l (a + x) y), (wrap64_add_l (a + y) x). f_equal. lia.
Qed.

Lemma bump_swap {K} `{Countable K} (k k' : K) x y m : bump k' y (bump k x m) = bump k x (bump k' y m).
Proof.
  apply map_eq. intros j. rewrite !bump_lookup.
  destruct (decide (k' = j)) as [->|], (decide (k = j)) as [->|]; simpl; repeat case_decide; simplify_eq; simpl; try done.
  f_equal. apply add64_swap.
Qed.

Lemma add_row_swap a p q : add_row (add_row a p) q = add_row (add_row a q) p.
Proof.
  destruct p as [[c h d v] n], q as [[c' h' d' v'] n']. unfold add_row. cbn [fst snd rk_hour rk_dim rk_val].
  unfold add.
  destruct (String.eqb_spec d DimTotal) as [->|Hd], (String.eqb_spec d' DimTotal) as [->|Hd'];
    cbn [a_bucket a_total a_series a_breakdown].
  - f_equal; [apply add64_swap|apply bump_swap].
  - done.
  - done.
  - f_equal. destruct (decide (d = d')) as [->|Hne].
    + rewrite !lookup_insert_eq. cbn [default]. rewrite !insert_insert_eq. f_equal. apply bump_swap.
    + by rewrite !lookup_insert_ne, insert_insert_ne by done.
Qed.

Section sim.
Context `{U : UnicodeTable} `{TF : TimeFormat} `{ST : SqlTime} {Hst : SqlTimeOk} `{SE : SqlEngine} {Hse : SqlEngineOk}.
Context (env : Env) (Hctx : ctx_Err env = None).

Lemma micro_hour t : year_ok t -> micro (Truncate t Hour).
Proof.
  intros Ht. pose proof (Truncate_le t Hour ltac:(done)) as Hle.
  pose proof (Truncate_multiple t Hour ltac:(done)) as Hm.
  assert (Hd : (Microsecond | Truncate t Hour)).
  { apply Z.mod_divide in Hm; [|done]. eapply Z.divide_trans; [|exact Hm]. by exists 3600000000. }
  split.
  - unfold year_ok in *. split; [|lia]. unfold Truncate. cbn [Z.leb Hour]. 
    pose proof (Z.mod_le t Hour ltac:(lia) ltac:(done)). simpl. lia.
  - by apply Z.mod_divide in Hd.
Qed.

(** ** Rows of events *)
Lemma events_map m : mem_ok m -> NoDup ((erow <$> events m).*1).
Proof.
  intros Hok. rewrite <- list_fmap_compose. apply (mok_seqs _ Hok).
Qed.

Lemma insert_event_step ev d m :
  rel d m -> year_ok (OccurredAt ev) -> is_Some (codes m !! ev_CodeID ev) ->
  0 <= nextSeq m -> nextSeq m + 1 < 2 ^ 63 ->
  exists d1, sql_insert_event ev d = Ok (tt, d1) /\ rel d1 (append_event m (trunc_event ev)).
Proof.
  intros HR Hy Hc H0 Hlt. pose proof (rel_ok _ _ HR) as Hok.
  unfold sql_insert_event. rewrite (rel_seq _ _ HR).
  assert (Hi : int64_okb (nextSeq m + 1) = true) by (unfold int64_okb; lia).
  rewrite Hi, (rel_codes _ _ HR), references_fmap. unfold references. rewrite (bool_decide_eq_true_2 _ Hc).
  cbn [negb]. eexists. split; [reflexivity|].
  assert (Hs : incr64 (nextSeq m) = nextSeq m + 1) by (unfold incr64; apply wrap64_id; unfold int64_ok; lia).
  assert (Hnew : nextSeq m + 1 ∉ sr_seq <$> events m).
  { intros (r & E & Hr)%list_elem_of_fmap. pose proof (proj2 (mok_events _ Hok r Hr)). lia. }
  unfold append_event. rewrite Hs.
  assert (Hok' : mem_ok (set_events (fun l => l ++ [{| sr_seq := nextSeq m + 1; sr_ev := trunc_event ev |}])%list
                   (set_nextSeq (fun _ => nextSeq m + 1) m))).
  { destruct Hok as [H1 H2 H3 H4 H5 H6 H7 H8]. split; try done.
    - by apply (wf_same_codes m).
    - intros r. cbn. intros [Hr|Hr%list_elem_of_singleton]%elem_of_app.
      + destruct (H6 r Hr). split; [done|lia].
      + subst r. split; [by apply micro_trunc|]. cbn. lia.
    - cbn. rewrite fmap_app. apply NoDup_app. split_and!; [done| |apply NoDup_singleton].
      intros x Hx Hx'%list_elem_of_singleton. by subst x. }
  destruct HR as [_ H2 H3 H4 H5 H6 H7 H8 H9 H10 H11].
  split; cbn [with_events tb_users tb_tokens tb_styling tb_codes tb_reservations tb_events tb_events_seq tb_rollups]; try done.
  cbn. rewrite fmap_app, H7.
  change (erow <$> [{| sr_seq := nextSeq m + 1; sr_ev := trunc_event ev |}])
    with [(nextSeq m + 1, event_row (nextSeq m + 1) (trunc_event ev))].
  rewrite list_to_map_snoc.
  - unfold event_row. cbn [trunc_event OccurredAt ev_CodeID UAFamily ev_DeviceCategory ReferrerHost IsBot].
    by rewrite fmtTime_trunc.
  - by rewrite <- list_fmap_compose.
Qed.

(** The error of a reference that does not resolve. *)
Definition not_found (e : error) : Prop := same_error e (Sentinel ErrNotFound).

Lemma insert_event_unknown ev d m :
  rel d m -> codes m !! ev_CodeID ev = None -> 0 <= nextSeq m -> nextSeq m + 1 < 2 ^ 63 ->
  exists e, sql_insert_event ev d = Err e /\ not_found (translate e).
Proof.
  intros HR Hc H0 Hlt. unfold sql_insert_event. rewrite (rel_seq _ _ HR).
  assert (Hi : int64_okb (nextSeq m + 1) = true) by (unfold int64_okb; lia). rewrite Hi.
  rewrite (rel_codes _ _ HR), references_fmap. unfold references.
  rewrite bool_decide_eq_false_2 by (rewrite Hc; by intros [? ?]). eexists. split; [done|by intros []].
Qed.

Definition known (m : memStore) (id : string) : bool := bool_decide (is_Some (codes m !! id)).

Lemma exec_events evs d m :
  rel d m -> Forall (fun ev => year_ok (OccurredAt ev)) evs ->
  0 <= nextSeq m -> nextSeq m + Z.of_nat (length evs) < 2 ^ 63 ->
  if forallb (fun ev => known m (ev_CodeID ev)) evs
  then exists d1, runs (exec_each env no_fault sql_insert_event evs) d (Ok tt) d1
       /\ rel d1 (foldl append_event m (trunc_event <$> evs))
  else exists e d1, runs (exec_each env no_fault sql_insert_event evs) d (Err e) d1 /\ not_found e.
Proof.
  revert d m. induction evs as [|ev evs IH]; intros d m HR Hy H0 Hlt.
  { exists d. split; [apply runs_return|done]. }
  apply Forall_cons in Hy as [Hy Hys]. cbn [forallb length] in *. unfold known at 1.
  case_bool_decide as Hk; cbn [andb].
  - destruct (insert_event_step ev d m HR Hy Hk H0 ltac:(lia)) as (d1 & E & HR1).
    assert (Hn : nextSeq (append_event m (trunc_event ev)) = nextSeq m + 1).
    { unfold append_event. cbn. unfold incr64. apply wrap64_id. unfold int64_ok. lia. }
    specialize (IH d1 _ HR1 Hys ltac:(lia) ltac:(lia)).
    change (forallb (fun ev0 => known (append_event m (trunc_event ev)) (ev_CodeID ev0)) evs)
      with (forallb (fun ev0 => known m (ev_CodeID ev0)) evs) in IH.
    destruct (forallb _ evs).
    + destruct IH as (d2 & Hr & HR2). exists d2. split; [|exact HR2].
      eapply runs_checked; [by apply runs_statement_Ok|exact Hr].
    + destruct IH as (e & d2 & Hr & He). exists e, d2. split; [|exact He]. eapply runs_checked; [by apply runs_statement_Ok|exact Hr].
  - destruct (insert_event_unknown ev d m HR) as (e & E & He); [|done|lia|].
    { destruct (codes m !! ev_CodeID ev) eqn:Ec; [|done]. by destruct Hk. }
    exists (translate e), d. split; [|exact He]. eapply runs_checked_Err. by apply runs_statement_Err.
Qed.

(** ** Rollups *)
Fixpoint deltas_fit (m : memStore) (rs : list RollupDelta) : Prop :=
  match rs with
  | [] => True
  | r :: rs' =>
      int64_ok (rd_Count r) /\ int64_ok (default 0 (rollups m !! delta_key r) + rd_Count r)
      /\ int64_ok (default 0 (rollups m !! delta_key r)) /\ deltas_fit (apply_delta m r) rs'
  end.

Lemma int64_okb_true z : int64_ok z -> int64_okb z = true.
Proof. unfold int64_ok, int64_okb. lia. Qed.

Lemma upsert_step r d m :
  rel d m -> year_ok (HourBucket r) -> is_Some (codes m !! rd_CodeID r) ->
  int64_ok (rd_Count r) -> int64_ok (default 0 (rollups m !! delta_key r) + rd_Count r) ->
  exists d1, sql_upsert_rollup r d = Ok (tt, d1) /\ rel d1 (apply_delta m r).
Proof.
  intros HR Hy Hc Hn Hs. pose proof (rel_ok _ _ HR) as Hok. pose proof (micro_hour _ Hy) as Hm.
  pose proof (rel_rollups _ _ HR (rd_CodeID r) _ (rd_Dimension r) (rd_Value r) Hm) as Hl.
  fold (rollup_pk r) in Hl. fold (delta_key r) in Hl.
  assert (Hout : sql_upsert_rollup r d = Ok (tt, with_rollups
            (<[rollup_pk r := SqlInt (default 0 (rollups m !! delta_key r) + rd_Count r)]> (tb_rollups d)) d)).
  { unfold sql_upsert_rollup. rewrite Hl. destruct (rollups m !! delta_key r) as [z|]; cbn [fmap option_fmap option_map default].
    - unfold sql_plus. cbn [default] in Hs. rewrite int64_okb_true by done. done.
    - rewrite (rel_codes _ _ HR), references_fmap. unfold references. rewrite (bool_decide_eq_true_2 _ Hc). done. }
  eexists. split; [exact Hout|].
  assert (Hb : bump (delta_key r) (rd_Count r) (rollups m)
            = <[delta_key r := default 0 (rollups m !! delta_key r) + rd_Count r]> (rollups m)).
  { unfold bump, add64. by rewrite wrap64_id. }
  unfold apply_delta.
  assert (Hok' : mem_ok (set_rollups (bump (delta_key r) (rd_Count r)) m)).
  { destruct Hok as [H1 H2 H3 H4 H5 H6 H7 H8]. split; try done.
    - by apply (wf_same_codes m).
    - intros k n. cbn [set_rollups rollups codes]. rewrite Hb. intros [[<- _]|[_ Hk]]%lookup_insert_Some; [by split|by apply (H8 k n)]. }
  destruct HR as [_ H2 H3 H4 H5 H6 H7 H8 H9 H10 H11].
  split; cbn [with_rollups tb_users tb_tokens tb_styling tb_codes tb_reservations tb_events tb_events_seq tb_rollups]; try done.
  - intros code h dim v Hh. cbn [set_rollups rollups]. rewrite Hb, !lookup_insert. unfold rollup_pk at 1.
    destruct (decide (delta_key r = {| rk_code := code; rk_hour := h; rk_dim := dim; rk_val := v |})) as [E|E].
    + pose proof E as E'. unfold delta_key in E'. injection E' as E1 E2 E3 E4. subst code h dim v. by rewrite decide_True.
    + rewrite decide_False; [by apply H9|]. intros [= E1 Eh E3 E4]. apply E. unfold delta_key. f_equal; [done| |done|done].
      by apply fmtTime_inj.
  - intros code hs dim v n [[E _]|[_ Hk]]%lookup_insert_Some; [|by apply (H11 code hs dim v n)].
    unfold rollup_pk in E. injection E as _ <- _ _. eauto.
Qed.

Lemma upsert_unknown r d m :
  rel d m -> year_ok (HourBucket r) -> codes m !! rd_CodeID r = None ->
  exists e, sql_upsert_rollup r d = Err e /\ not_found (translate e).
Proof.
  intros HR Hy Hc. pose proof (rel_ok _ _ HR) as Hok. pose proof (micro_hour _ Hy) as Hm.
  pose proof (rel_rollups _ _ HR (rd_CodeID r) _ (rd_Dimension r) (rd_Value r) Hm) as Hl.
  fold (rollup_pk r) in Hl. fold (delta_key r) in Hl. unfold sql_upsert_rollup. rewrite Hl.
  destruct (rollups m !! delta_key r) as [z|] eqn:E.
  - destruct (mok_rollups _ Hok _ _ E) as [_ [c Hc']]. cbn [delta_key rk_code] in Hc'. congruence.
  - cbn [fmap option_fmap option_map]. rewrite (rel_codes _ _ HR), references_fmap. unfold references.
    rewrite bool_decide_eq_false_2 by (rewrite Hc; by intros [? ?]). eexists. split; [done|by intros []].
Qed.

Lemma upsert_rollups rs d m :
  rel d m -> Forall (fun r => year_ok (HourBucket r)) rs -> deltas_fit m rs ->
  if forallb (fun r => known m (rd_CodeID r)) rs
  then exists d1, runs (exec_each env no_fault sql_upsert_rollup rs) d (Ok tt) d1 /\ rel d1 (foldl apply_delta m rs)
  else exists e d1, runs (exec_each env no_fault sql_upsert_rollup rs) d (Err e) d1 /\ not_found e.
Proof.
  revert d m. induction rs as [|r rs IH]; intros d m HR Hy Hf.
  { exists d. split; [apply runs_return|done]. }
  apply Forall_cons in Hy as [Hy Hys]. destruct Hf as (F1 & F2 & _ & Hf). cbn [forallb]. unfold known at 1.
  case_bool_decide as Hk; cbn [andb].
  - destruct (upsert_step r d m HR Hy Hk F1 F2) as (d1 & E & HR1). specialize (IH d1 _ HR1 Hys Hf).
    change (forallb (fun r0 => known (apply_delta m r) (rd_CodeID r0)) rs)
      with (forallb (fun r0 => known m (rd_CodeID r0)) rs) in IH.
    destruct (forallb _ rs).
    + destruct IH as (d2 & Hr & HR2). exists d2. split; [|exact HR2].
      eapply runs_checked; [by apply runs_statement_Ok|exact Hr].
    + destruct IH as (e & d2 & Hr & He). exists e, d2. split; [|exact He]. eapply runs_checked; [by apply runs_statement_Ok|exact Hr].
  - destruct (upsert_unknown r d m HR Hy) as (e & E & He).
    { destruct (codes m !! rd_CodeID r) eqn:Ec; [|done]. by destruct Hk. }
    exists (translate e), d. split; [|exact He]. eapply runs_checked_Err. by apply runs_statement_Err.
Qed.

(** ** The batch *)
Lemma check_events_spec m evs :
  check_events m evs = None <-> Forall (fun ev => known m (ev_CodeID ev) = true /\ IsZero (OccurredAt ev) = false) evs.
Proof.
  induction evs as [|ev evs IH]; [done|]. cbn [check_events]. rewrite Forall_cons, <- IH. unfold known.
  destruct (codes m !! ev_CodeID ev) eqn:E.
  - rewrite bool_decide_eq_false_2, (bool_decide_eq_true_2 (is_Some _)) by done.
    destruct (IsZero (OccurredAt ev)); naive_solver.
  - rewrite bool_decide_eq_true_2, (bool_decide_eq_false_2 (is_Some _)) by (done || by intros [? ?]). naive_solver.
Qed.

Lemma check_rollups_spec m rs :
  check_rollups m rs = None
  <-> Forall (fun r => known m (rd_CodeID r) = true
                       /\ String.eqb (rd_Dimension r) "" || IsZero (HourBucket r) = false) rs.
Proof.
  induction rs as [|r rs IH]; [done|]. cbn [check_rollups]. rewrite Forall_cons, <- IH. unfold known.
  destruct (codes m !! rd_CodeID r) eqn:E.
  - rewrite bool_decide_eq_false_2, (bool_decide_eq_true_2 (is_Some _)) by done.
    destruct (_ || _); naive_solver.
  - rewrite bool_decide_eq_true_2, (bool_decide_eq_false_2 (is_Some _)) by (done || by intros [? ?]). naive_solver.
Qed.

(** What the theorem asks of a batch: instants in range, room for the ids and
    the counts. *)
Record scans_ok (b : ScanBatch) (m : memStore) : Prop := {
  sok_events : Forall (fun ev => stamp (OccurredAt ev)) (Events b);
  sok_hours : Forall (fun r => year_ok (HourBucket r)) (Rollups b);
  sok_seq : 0 <= nextSeq m;
  sok_room : nextSeq m + Z.of_nat (length (Events b)) < 2 ^ 63;
  sok_fit : deltas_fit m (Rollups b);
}.

Lemma known_id m id : mem_ok m -> known m id = true -> String.eqb id "" = false.
Proof.
  intros Hok Hk. apply bool_decide_eq_true in Hk as [c Hc]. apply String.eqb_neq.
  rewrite <- (wf_codes _ (mok_wf _ Hok) _ _ Hc). by apply (mok_codes _ Hok id).
Qed.

Lemma forallb_Forall' {A} (f : A -> bool) l : forallb f l = true <-> Forall (fun x => f x = true) l.
Proof. rewrite Forall_forall, forallb_forall. by setoid_rewrite list_elem_of_In. Qed.

Lemma prepared_runs {X} (s : X -> sqliteDB -> res dbErr (unit * sqliteDB)) xs d r d' :
  runs (exec_each env no_fault s xs) d r d' -> runs (prepared env no_fault s xs) d r d'.
Proof.
  intros Hr. destruct xs as [|x xs]; [done|]. unfold prepared.
  eapply runs_checked; [apply (runs_query env Hctx (fun _ => Ok tt))|exact Hr].
Qed.

Lemma exec_rollups_fold b m : rollups (foldl append_event m (Events b)) = rollups m.
Proof. apply (foldl_keeps append_event rollups). done. Qed.

Lemma deltas_fit_events evs m rs : deltas_fit m rs -> deltas_fit (foldl append_event m evs) rs.
Proof.
  assert (Hg : forall m' m'', rollups m' = rollups m'' -> forall rs, deltas_fit m' rs -> deltas_fit m'' rs).
  { intros m' m'' E rs'. revert m' m'' E. induction rs' as [|r rs' IH]; intros m' m'' E; [done|]. cbn [deltas_fit].
    intros (F1 & F2 & F3 & F4). rewrite <- E. split_and!; [done..|]. eapply IH; [|exact F4].
    unfold apply_delta. cbn [set_rollups rollups]. by rewrite E. }
  apply Hg. symmetry. apply (foldl_keeps append_event rollups). done.
Qed.

Lemma batch_runs b d m :
  rel d m -> scans_ok b m ->
  let body := _ <-! prepared env no_fault sql_insert_event (Events b);
              prepared env no_fault sql_upsert_rollup (Rollups b) in
  if forallb (fun ev => known m (ev_CodeID ev)) (Events b) && forallb (fun r => known m (rd_CodeID r)) (Rollups b)
  then exists d', runs body d (Ok tt) d'
       /\ rel d' (foldl apply_delta (foldl append_event m (trunc_event <$> Events b)) (Rollups b))
  else exists e d', runs body d (Err e) d' /\ not_found e.
Proof.
  intros HR [S1 S2 S3 S4 S5] body.
  assert (S1' : Forall (fun ev => year_ok (OccurredAt ev)) (Events b)) by (eapply Forall_impl; [exact S1|by intros ? []]).
  pose proof (exec_events (Events b) d m HR S1' S3 S4) as He.
  destruct (forallb (fun ev => known m (ev_CodeID ev)) (Events b)); cbn [andb].
  - destruct He as (d1 & R1 & HR1).
    pose proof (upsert_rollups (Rollups b) d1 _ HR1 S2 (deltas_fit_events _ _ _ S5)) as Hr.
    assert (Hk : forallb (fun r => known (foldl append_event m (trunc_event <$> Events b)) (rd_CodeID r)) (Rollups b)
              = forallb (fun r => known m (rd_CodeID r)) (Rollups b)).
    { unfold known. by rewrite (foldl_keeps append_event codes). }
    rewrite Hk in Hr. destruct (forallb (fun r => known m (rd_CodeID r)) (Rollups b)).
    + destruct Hr as (d2 & R2 & HR2). exists d2. split; [|exact HR2].
      eapply runs_try; [by apply prepared_runs|by apply prepared_runs].
    + destruct Hr as (e & d2 & R2 & Hf). exists e, d2. split; [|exact Hf].
      eapply runs_try; [by apply prepared_runs|by apply prepared_runs].
  - destruct He as (e & d1 & R1 & Hf). exists e, d1. split; [|exact Hf]. eapply runs_try_Err. by apply prepared_runs.
Qed.

Lemma check_events_trunc m evs :
  Forall (fun ev => stamp (OccurredAt ev)) evs -> check_events m (trunc_event <$> evs) = check_events m evs.
Proof.
  induction 1 as [|ev evs Hev _ IH]; [done|]. rewrite fmap_cons. cbn [check_events trunc_event ev_CodeID OccurredAt].
  rewrite IH. by rewrite IsZero_trunc.
Qed.

Lemma InsertScanBatch_sim b d m :
  rel d m -> scans_ok b m ->
  exists r d', runs (InsertScanBatch env no_fault b) d r d'
    /\ fails_together r (MemStore.InsertScanBatch (env_micro env) (trunc_batch b) m).1
    /\ rel d' (MemStore.InsertScanBatch (env_micro env) (trunc_batch b) m).2
    /\ (is_Ok r = false -> d' = d).
Proof.
  intros HR Hs. pose proof (rel_ok _ _ HR) as Hok. pose proof (batch_runs b d m HR Hs) as Hb. cbv zeta in Hb.
  assert (E : MemStore.InsertScanBatch (env_micro env) (trunc_batch b) m =
    match check_events m (Events b) with
    | Some e => (Err e, m)
    | None =>
        match check_rollups m (Rollups b) with
        | Some e => (Err e, m)
        | None => (Ok tt, foldl apply_delta (foldl append_event m (trunc_event <$> Events b)) (Rollups b))
        end
    end).
  { unfold MemStore.InsertScanBatch, with_ctx. cbn [ctx_Err env_micro trunc_batch Events Rollups]. rewrite Hctx.
    by rewrite check_events_trunc by apply Hs. }
  rewrite E. unfold InsertScanBatch.
  destruct (decide (Events b = [] /\ Rollups b = [])) as [[E1 E2]|Hne].
  { rewrite E1, E2. exists (Ok tt), d. split_and!; [apply runs_return|done|done|done]. }
  assert (Hgo : forall (X : Act sqliteDB (result unit)) r d', runs X d r d' ->
            runs (match Events b, Rollups b with [], [] => mret (Ok tt) | _, _ => X end) d r d').
  { intros X r d' HX. destruct (Events b), (Rollups b); try done. by destruct Hne. }
  destruct (existsb malformed_event (Events b)) eqn:M1; [|destruct (existsb malformed_rollup (Rollups b)) eqn:M2].
  - exists (Err (NewErr "sqlite: event is malformed")), d. split; [apply Hgo, runs_return|].
    destruct (check_events m (Events b)) eqn:C1; [done|]. exfalso.
    apply check_events_spec in C1. apply existsb_exists in M1 as (ev & Hin & Hm).
    apply list_elem_of_In in Hin. apply (proj1 (Forall_forall _ _) C1) in Hin as [Hk Hz].
    unfold malformed_event in Hm. by rewrite (known_id m _ Hok Hk), Hz in Hm.
  - exists (Err (NewErr "sqlite: rollup is malformed")), d. split; [apply Hgo, runs_return|].
    destruct (check_events m (Events b)); [done|]. destruct (check_rollups m (Rollups b)) eqn:C2; [done|]. exfalso.
    apply check_rollups_spec in C2. apply existsb_exists in M2 as (r & Hin & Hm).
    apply list_elem_of_In in Hin. apply (proj1 (Forall_forall _ _) C2) in Hin as [Hk Hz].
    unfold malformed_rollup in Hm. rewrite (known_id m _ Hok Hk) in Hm. cbn [orb] in Hm. congruence.
  - destruct (forallb (fun ev => known m (ev_CodeID ev)) (Events b)
              && forallb (fun r => known m (rd_CodeID r)) (Rollups b)) eqn:K.
    + apply andb_prop in K as [K1%forallb_Forall' K2%forallb_Forall'].
      assert (C1 : check_events m (Events b) = None).
      { apply check_events_spec, Forall_forall. intros ev Hin. split; [by apply (proj1 (Forall_forall _ _) K1)|].
        apply not_true_is_false. intros Hz. apply not_true_iff_false in M1. apply M1, existsb_exists.
        exists ev. split; [by apply list_elem_of_In|]. unfold malformed_event. rewrite Hz. apply orb_true_r. }
      assert (C2 : check_rollups m (Rollups b) = None).
      { apply check_rollups_spec, Forall_forall. intros r Hin. split; [by apply (proj1 (Forall_forall _ _) K2)|].
        apply not_true_is_false. intros Hz. apply not_true_iff_false in M2. apply M2, existsb_exists.
        exists r. split; [by apply list_elem_of_In|]. unfold malformed_rollup. rewrite <- orb_assoc, Hz. apply orb_true_r. }
      rewrite C1, C2. destruct Hb as (d' & Hr & HR'). exists (Ok tt), d'.
      split_and!; [|done|done|done]. by apply Hgo, runs_transaction.
    + destruct Hb as (e & d' & Hr & _). exists (Err e), d. split; [apply Hgo; by eapply runs_transaction_Err|].
      destruct (check_events m (Events b)) eqn:C1; [done|]. destruct (check_rollups m (Rollups b)) eqn:C2; [done|].
      exfalso. apply check_events_spec in C1. apply check_rollups_spec in C2.
      apply andb_false_iff in K as [K|K]; apply not_true_iff_false in K; apply K, forallb_Forall';
        (eapply Forall_impl; [eassumption|]); by intros ? [].
Qed.

(** ** The errors of a batch *)

(** What the in-memory store says of a batch. *)
Definition check_batch (m : memStore) (b : ScanBatch) : option error :=
  match check_events m (Events b) with Some e => Some e | None => check_rollups m (Rollups b) end.

Lemma check_batch_error m b e :
  check_batch m b = Some e ->
  not_found e \/ (plain e /\ existsb malformed_event (Events b) || existsb malformed_rollup (Rollups b) = true).
Proof.
  assert (H1 : forall evs, check_events m evs = Some e -> not_found e \/ (plain e /\ existsb malformed_event evs = true)).
  { induction evs as [|ev evs IH]; [done|]. cbn [check_events existsb]. unfold malformed_event at 1.
    case_bool_decide; [intros [= <-]; left; by intros []|].
    destruct (IsZero (OccurredAt ev)); [intros [= <-]; right; split; [by intros []|by rewrite orb_true_r]|].
    intros [?|[? ->]]%IH; [by left|right; split; [done|by rewrite orb_true_r]]. }
  assert (H2 : forall rs, check_rollups m rs = Some e -> not_found e \/ (plain e /\ existsb malformed_rollup rs = true)).
  { induction rs as [|r rs IH]; [done|]. cbn [check_rollups existsb]. unfold malformed_rollup at 1.
    case_bool_decide; [intros [= <-]; left; by intros []|].
    destruct (String.eqb (rd_Dimension r) "" || IsZero (HourBucket r)) eqn:E.
    - intros [= <-]. right. split; [by intros []|]. by rewrite <- (orb_assoc _ _ (IsZero _)), E, orb_true_r.
    - intros [?|[? ->]]%IH; [by left|right; split; [done|by rewrite orb_true_r]]. }
  unfold check_batch. destruct (check_events m (Events b)) as [e0|] eqn:E.
  - intros [= ->]. destruct (H1 _ E) as [?|[? ->]]; [by left|by right].
  - intros [?|[? ->]]%H2; [by left|right; split; [done|by rewrite orb_true_r]].
Qed.

(** A batch that fails: both stores report an unknown code, unless an entry is
    malformed; SQLite looks for those first, with an error of no sentinel,
    the in-memory store takes the entries in turn. *)
Definition scan_errors (b : ScanBatch) (e e' : error) : Prop :=
  if existsb malformed_event (Events b) || existsb malformed_rollup (Rollups b)
  then plain e /\ (not_found e' \/ plain e')
  else not_found e /\ not_found e'.

Lemma InsertScanBatch_errors b d m e d' e' :
  rel d m -> scans_ok b m -> runs (InsertScanBatch env no_fault b) d (Err e) d' ->
  (MemStore.InsertScanBatch (env_micro env) (trunc_batch b) m).1 = Err e' -> scan_errors b e e'.
Proof.
  intros HR Hs Hr Hm.
  assert (Hc : check_batch m b = Some e').
  { unfold MemStore.InsertScanBatch, with_ctx in Hm. cbn [ctx_Err env_micro trunc_batch Events Rollups] in Hm.
    rewrite Hctx, check_events_trunc in Hm by apply Hs. unfold check_batch.
    destruct (check_events _ _); [by simplify_eq/=|]. by destruct (check_rollups _ _); simplify_eq/=. }
  pose proof (check_batch_error m b e' Hc) as He'. unfold scan_errors, InsertScanBatch in *.
  assert (Hne : (Events b, Rollups b) <> ([], [])).
  { intros [= E1 E2]. unfold check_batch in Hc. by rewrite E1, E2 in Hc. }
  assert (Hgo : forall X : Act sqliteDB (result unit),
            match Events b, Rollups b with [], [] => mret (Ok tt) | _, _ => X end = X).
  { intros X. by destruct (Events b), (Rollups b). }
  rewrite Hgo in Hr. destruct (existsb malformed_event (Events b)); cbn [orb] in *.
  { destruct (runs_det _ _ _ _ _ _ Hr (runs_return _ _)) as [[= ->] _]. split; [by intros []|tauto]. }
  destruct (existsb malformed_rollup (Rollups b)).
  { destruct (runs_det _ _ _ _ _ _ Hr (runs_return _ _)) as [[= ->] _]. split; [by intros []|tauto]. }
  split; [|by destruct He' as [?|[_ ?]]]. pose proof (batch_runs b d m HR Hs) as Hb. cbv zeta in Hb.
  destruct (_ && _).
  - destruct Hb as (d1 & Hb & _). by destruct (runs_det _ _ _ _ _ _ Hr (runs_transaction env Hctx _ _ _ _ _ Hb)).
  - destruct Hb as (e1 & d1 & Hb & Hn).
    by destruct (runs_det _ _ _ _ _ _ Hr (runs_transaction_Err env Hctx _ _ _ _ _ _ Hb)) as [[= ->] _].
Qed.

(** ** The query *)
Definition enc (p : rollupKey * Z) : rollupPK * sqlNum :=
  ((rk_code p.1, fmtTime (rk_hour p.1), rk_dim p.1, rk_val p.1), SqlInt p.2).

Lemma enc_inj m p p' : mem_ok m -> p ∈ map_to_list (rollups m) -> p' ∈ map_to_list (rollups m) -> enc p = enc p' -> p = p'.
Proof.
  intros Hok Hk Hk' E. destruct p as [k n], p' as [k' n']. apply elem_of_map_to_list in Hk, Hk'.
  unfold enc in E. cbn [fst snd] in E. injection E as E1 E2 E3 E4 E5.
  destruct k as [c h dm v], k' as [c' h' dm' v']. cbn [rk_code rk_hour rk_dim rk_val] in *. subst.
  assert (h = h') as ->; [|done].
  apply fmtTime_inj; [exact (proj1 (mok_rollups _ Hok _ _ Hk))|exact (proj1 (mok_rollups _ Hok _ _ Hk'))|done].
Qed.

(** The rows of the table are the counters of the store. *)
Lemma rollup_table d m : rel d m -> map_to_list (tb_rollups d) ≡ₚ enc <$> map_to_list (rollups m).
Proof.
  intros HR. pose proof (rel_ok _ _ HR) as Hok. apply NoDup_Permutation.
  - apply NoDup_map_to_list.
  - apply NoDup_fmap_2_strong; [|apply NoDup_map_to_list]. intros p p' Hp Hp'. by apply (enc_inj m).
  - intros [[[[c hs] dm] v] n]. rewrite elem_of_map_to_list, list_elem_of_fmap. split.
    + intros Hl. destruct (rel_hours _ _ HR _ _ _ _ _ Hl) as (h & Hm & ->).
      rewrite (rel_rollups _ _ HR _ _ _ _ Hm) in Hl. apply fmap_Some in Hl as (z & Hz & ->).
      exists ({| rk_code := c; rk_hour := h; rk_dim := dm; rk_val := v |}, z). split; [done|].
      by apply elem_of_map_to_list.
    + intros ([k z] & E & Hk). apply elem_of_map_to_list in Hk.
      pose proof (proj1 (mok_rollups _ Hok _ _ Hk)) as Hm.
      unfold enc in E. cbn [fst snd] in E. injection E as -> -> -> -> ->.
      rewrite (rel_rollups _ _ HR _ _ _ _ Hm).
      assert (Ek : {| rk_code := rk_code k; rk_hour := rk_hour k; rk_dim := rk_dim k; rk_val := rk_val k |} = k) by (by destruct k).
      by rewrite Ek, Hk.
Qed.

Lemma query_rows q d m :
  rel d m -> year_ok (q_From q) -> year_ok (q_To q) ->
  filter (fun p => in_range q p = true) (map_to_list (tb_rollups d))
  ≡ₚ enc <$> filter (fun p : rollupKey * Z => in_query (trunc_query q) p.1 = true) (map_to_list (rollups m)).
Proof.
  intros HR Hf Ht. pose proof (rel_ok _ _ HR) as Hok. rewrite (rollup_table d m HR), filter_fmap.
  rewrite (filter_ext_on _ (fun p : rollupKey * Z => in_query (trunc_query q) p.1 = true)); [done|].
  intros [k n] Hk. apply elem_of_map_to_list in Hk.
  pose proof (proj1 (mok_rollups _ Hok _ _ Hk)) as Hm.
  cbn [compose]. unfold in_range, enc, in_query, Before. cbn [fst snd trunc_query q_CodeID q_From q_To].
  by rewrite <- (fmtTime_trunc (q_From q)), <- (fmtTime_trunc (q_To q)), !fmtTime_ltb by (done || by apply micro_trunc).
Qed.

Lemma add_rows_enc l a :
  Forall (fun p : rollupKey * Z => micro (rk_hour p.1)) l -> add_rows (enc <$> l) a = Ok (foldl add_row a l).
Proof.
  intros Hl. revert a. induction Hl as [|[k n] l Hk _ IH]; intros a; [done|]. rewrite fmap_cons. cbn [foldl].
  unfold enc at 1. cbn [add_rows fst snd scan_int res_bind]. cbn [fst] in Hk.
  rewrite parse_fmtTime by done. cbn [res_bind]. apply IH.
Qed.

Lemma QueryAnalytics_sim q d m :
  rel d m -> year_ok (q_From q) -> year_ok (q_To q) ->
  reads (QueryAnalytics env no_fault q) (MemStore.QueryAnalytics (env_micro env) (trunc_query q) m) d.
Proof.
  intros HR Hf Ht. pose proof (rel_ok _ _ HR) as Hok. eexists. split; [by apply runs_scan|].
  unfold MemStore.QueryAnalytics, read_ctx. cbn [ctx_Err env_micro]. rewrite Hctx.
  pose proof (query_rows q d m HR Hf Ht) as Hp.
  set (L2 := filter (fun p : rollupKey * Z => in_query (trunc_query q) p.1 = true) (map_to_list (rollups m))) in *.
  destruct (Permutation_map_inv _ _ Hp) as (L & E & HL). change (map enc L) with (enc <$> L) in E.
  cbv beta. rewrite E. rewrite add_rows_enc.
  - cbn [res_bind trunc_query q_Bucket]. by rewrite (foldl_Permutation add_row add_row_swap L2 L).
  - apply Forall_forall. intros [k n] Hin. rewrite <- HL in Hin. apply list_elem_of_filter in Hin as [_ Hin].
    apply elem_of_map_to_list in Hin. exact (proj1 (mok_rollups _ Hok _ _ Hin)).
Qed.
End sim.

(** Sorting does not depend on the order of what it is given. *)
Lemma sort_Slice_perm {A} (less : A -> A -> bool) `{!StrictWeakOrder less} l k :
  distinguishes less l -> l ≡ₚ k -> sort_Slice less k = sort_Slice less l.
Proof.
  intros Hd Hp. apply sort_Slice_unique; [done| |by apply sort_Slice_sorted|].
  - intros x y Hx Hy. by apply Hd.
  - by rewrite sort_Slice_Permutation, Hp.
Qed.

Section sim.
Context `{U : UnicodeTable} `{TF : TimeFormat} `{ST : SqlTime} {Hst : SqlTimeOk} `{SE : SqlEngine} {Hse : SqlEngineOk}.
Context (env : Env) (Hctx : ctx_Err env = None).

Definition ev_row (r : scanRow) : scanEventsRow := event_row (sr_seq r) (sr_ev r).

Lemma events_rows d m : rel d m -> rows_of (tb_events d) ≡ₚ ev_row <$> events m.
Proof.
  intros HR. unfold rows_of. rewrite (rel_events _ _ HR).
  rewrite map_to_list_to_map by (apply events_map, (rel_ok _ _ HR)). by rewrite <- list_fmap_compose.
Qed.

Lemma select_events P d m :
  rel d m -> sql_select P (tb_events d) ≡ₚ (fun p : nat * scanRow => ev_row p.2) <$>
    filter (fun p : nat * scanRow => P (ev_row p.2) = true) (indexed (events m)).
Proof.
  intros HR. unfold sql_select. rewrite (events_rows d m HR), filter_fmap.
  rewrite <- (indexed_snd (events m)) at 1. rewrite filter_fmap, <- list_fmap_compose. done.
Qed.

#[local] Instance victim_less_swo : StrictWeakOrder victim_less.
Proof. unfold victim_less, Before. apply _. Qed.
#[local] Instance events_order_swo : StrictWeakOrder events_order.
Proof. unfold events_order. apply _. Qed.

Lemma indexed_seq m p q :
  mem_ok m -> p ∈ indexed (events m) -> q ∈ indexed (events m) -> sr_seq p.2 = sr_seq q.2 -> p = q.
Proof.
  intros Hok Hp Hq E. apply (indexed_inj (events m)); [done|done|].
  apply list_elem_of_lookup in Hp as [i Hi], Hq as [j Hj]. unfold indexed in Hi, Hj.
  destruct p as [a r], q as [b s]. cbn [fst snd] in *.
  apply lookup_zip_Some in Hi as [Hi Hri], Hj as [Hj Hsj]. apply lookup_seq in Hi as [-> _], Hj as [-> _].
  pose proof (mok_seqs _ Hok) as Hnd. f_equal.
  eapply (NoDup_lookup _ _ _ (sr_seq r) Hnd); rewrite list_lookup_fmap; [by rewrite Hri|by rewrite Hsj, E].
Qed.

Lemma indexed_micro m p : mem_ok m -> p ∈ indexed (events m) -> micro (OccurredAt (sr_ev p.2)).
Proof.
  intros Hok Hp. apply (mok_events _ Hok). rewrite <- (indexed_snd (events m)). apply list_elem_of_fmap. by exists p.
Qed.

Lemma victims_distinguished m (P : nat * scanRow -> Prop) `{!forall p, Decision (P p)} :
  mem_ok m -> distinguishes victim_less (filter P (indexed (events m))).
Proof.
  intros Hok p q [_ Hp]%list_elem_of_filter [_ Hq]%list_elem_of_filter. unfold victim_less, lex_less, Before.
  destruct (Z.ltb_spec (OccurredAt (sr_ev p.2)) (OccurredAt (sr_ev q.2))); [done|].
  destruct (Z.ltb_spec (OccurredAt (sr_ev q.2)) (OccurredAt (sr_ev p.2))); [done|].
  intros L1 L2. apply (indexed_seq m); [done..|]. lia.
Qed.

(** The oldest rows in the order of the subquery. *)
Lemma oldest_rows before d m :
  rel d m -> year_ok before ->
  sort_Slice events_order (sql_select (fun r => str_ltb (se_occurred_at r) (fmtTime before)) (tb_events d))
  = (fun p : nat * scanRow => ev_row p.2) <$> old_sorted (trunc before) (events m).
Proof.
  intros HR Hb. pose proof (rel_ok _ _ HR) as Hok. unfold old_sorted.
  set (l := filter (fun p : nat * scanRow => Before (OccurredAt (sr_ev p.2)) (trunc before) = true) (indexed (events m))).
  assert (Hless : forall p q, p ∈ indexed (events m) -> q ∈ indexed (events m) ->
            events_order (ev_row p.2) (ev_row q.2) = victim_less p q).
  { intros p q Hp Hq. unfold events_order, victim_less, lex_less, ev_row, Before. cbn [event_row se_occurred_at se_id].
    by rewrite !fmtTime_ltb by (by eapply indexed_micro). }
  assert (Hl : forall p, p ∈ l -> p ∈ indexed (events m)) by (by intros p [_ ?]%list_elem_of_filter).
  assert (Hd : distinguishes victim_less l) by (by apply victims_distinguished).
  rewrite <- (sort_Slice_fmap_on victim_less events_order) by auto.
  apply (sort_Slice_perm events_order).
  - intros x y (p & -> & Hp)%list_elem_of_fmap (q & -> & Hq)%list_elem_of_fmap.
    rewrite !Hless by auto. intros L1 L2. by rewrite (Hd p q).
  - rewrite (select_events _ d m HR). apply Permutation_refl'. f_equal. unfold l.
    apply filter_ext_on. intros p Hp. unfold Before, ev_row. cbn [event_row se_occurred_at].
    rewrite <- (fmtTime_trunc before), fmtTime_ltb; [done|by eapply indexed_micro|by apply micro_trunc].
Qed.

(** Dropping by id is dropping by index. *)
Lemma drop_by_id m (vs : list (nat * scanRow)) p :
  mem_ok m -> (forall q, q ∈ vs -> q ∈ indexed (events m)) -> p ∈ indexed (events m) ->
  sr_seq p.2 ∈ (list_to_set ((fun q => sr_seq q.2) <$> vs) : gset Z)
  <-> p.1 ∈ (list_to_set vs.*1 : gset nat).
Proof.
  intros Hok Hvs Hp. rewrite !elem_of_list_to_set, !list_elem_of_fmap. split.
  - intros (q & E & Hq). exists q. split; [|done]. by rewrite (indexed_seq m p q) by auto.
  - intros (q & E & Hq). exists q. split; [|done]. by rewrite (indexed_inj (events m) p q) by auto.
Qed.

Lemma kept_map d m (vs : list (nat * scanRow)) :
  rel d m -> (forall q, q ∈ vs -> q ∈ indexed (events m)) ->
  let drop : gset Z := list_to_set ((fun q => sr_seq q.2) <$> vs) in
  let kept := (filter (fun p : nat * scanRow => p.1 ∉ (list_to_set vs.*1 : gset nat)) (indexed (events m))).*2 in
  filter (fun p : Z * scanEventsRow => se_id p.2 ∉ drop) (tb_events d) = list_to_map (erow <$> kept)
  /\ sublist kept (events m).
Proof.
  intros HR Hvs drop kept. pose proof (rel_ok _ _ HR) as Hok.
  assert (Hsub : sublist kept (events m)).
  { unfold kept. rewrite <- (indexed_snd (events m)) at 2. apply fmap_sublist, sublist_filter. }
  split; [|done].
  assert (Hnd : NoDup ((erow <$> kept).*1)).
  { eapply sublist_NoDup; [apply (events_map m Hok)|]. by do 2 apply fmap_sublist. }
  apply map_eq. intros id. apply option_eq. intros row.
  rewrite map_lookup_filter_Some, (rel_events _ _ HR), <- !elem_of_list_to_map by (done || by apply events_map).
  rewrite !list_elem_of_fmap. cbn [snd]. split.
  - intros [(r & E & Hr) Hd]. exists r. split; [done|]. unfold erow in E. injection E as -> ->.
    rewrite <- (indexed_snd (events m)) in Hr. apply list_elem_of_fmap in Hr as (p & -> & Hp).
    unfold kept. apply list_elem_of_fmap. exists p. split; [done|]. apply list_elem_of_filter. split; [|done].
    intros Hi. apply Hd. by apply (drop_by_id m vs p Hok Hvs Hp).
  - intros (r & E & Hr). unfold kept in Hr. apply list_elem_of_fmap in Hr as (p & -> & Hp).
    apply list_elem_of_filter in Hp as [Hi Hp]. split.
    + exists p.2. split; [done|]. rewrite <- (indexed_snd (events m)). apply list_elem_of_fmap. by exists p.
    + unfold erow in E. injection E as -> ->. intros Hd. apply Hi. by apply (drop_by_id m vs p Hok Hvs Hp).
Qed.

Lemma dropped_count d m (vs : list (nat * scanRow)) :
  rel d m -> NoDup vs -> (forall q, q ∈ vs -> q ∈ indexed (events m)) ->
  sql_count (fun r => bool_decide (se_id r ∈ (list_to_set ((fun q => sr_seq q.2) <$> vs) : gset Z))) (tb_events d)
  = Z.of_nat (length vs).
Proof.
  intros HR Hnd Hvs. pose proof (rel_ok _ _ HR) as Hok. unfold sql_count. f_equal.
  rewrite (select_events _ d m HR), length_fmap, <- (Permutation_length (filter_by_index (events m) vs Hnd Hvs)).
  f_equal. apply filter_ext_on. intros p Hp. rewrite bool_decide_eq_true. by apply (drop_by_id m).
Qed.

Lemma PruneScanEvents_sim before limit d m :
  rel d m -> year_ok before ->
  sim (PruneScanEvents env no_fault before limit)
    (MemStore.PruneScanEvents (env_micro env) (trunc before) limit) d m.
Proof.
  intros HR Hb. pose proof (rel_ok _ _ HR) as Hok.
  set (vs := victims (trunc before) limit (events m)).
  set (kept := (filter (fun p : nat * scanRow => p.1 ∉ (list_to_set vs.*1 : gset nat)) (indexed (events m))).*2).
  assert (E : MemStore.PruneScanEvents (env_micro env) (trunc before) limit m =
    if limit <=? 0 then (Ok 0, m) else (Ok (Z.of_nat (length vs)), set_events (fun _ => kept) m)).
  { unfold MemStore.PruneScanEvents, with_ctx. cbn [ctx_Err env_micro]. by rewrite Hctx. }
  unfold PruneScanEvents. destruct (limit <=? 0).
  { eapply (sim_intro _ _ _ _ (Ok 0)); [exact E|apply runs_return|done|done]. }
  assert (Hvs : vs = take (Z.to_nat limit) (old_sorted (trunc before) (events m))) by done.
  assert (Hin : forall q, q ∈ vs -> q ∈ indexed (events m)).
  { intros q Hq. rewrite Hvs in Hq. apply elem_of_take in Hq as (i & Hi & _).
    by apply list_elem_of_lookup_2, old_sorted_elem in Hi as [_ ?]. }
  assert (Hnd : NoDup vs).
  { rewrite Hvs. eapply sublist_NoDup; [apply old_sorted_NoDup|apply sublist_take]. }
  destruct (kept_map d m vs HR Hin) as [Hk Hsub]. fold kept in Hk, Hsub.
  set (d1 := with_events (list_to_map (erow <$> kept)) (tb_events_seq d) d).
  assert (Hst1 : sql_prune (fmtTime before) limit d = Ok (Z.of_nat (length vs), d1)).
  { unfold sql_prune. rewrite (oldest_rows before d m HR Hb), <- fmap_take, <- list_fmap_compose, <- Hvs.
    change (se_id ∘ (fun p : nat * scanRow => ev_row p.2)) with (fun p : nat * scanRow => sr_seq p.2).
    rewrite (dropped_count d m vs HR Hnd Hin), Hk. done. }
  eapply (sim_intro _ _ _ _ (Ok (Z.of_nat (length vs)))); [exact E| |done|].
  - eapply runs_checked; [by apply runs_statement_Ok|apply runs_return].
  - assert (Hok' : mem_ok (set_events (fun _ => kept) m)).
    { destruct Hok as [H1 H2 H3 H4 H5 H6 H7 H8]. split; try done.
      - by apply (wf_same_codes m).
      - intros r. cbn [set_events events nextSeq]. intros Hr. apply H6. by eapply sublist_subseteq.
      - cbn [set_events events]. eapply sublist_NoDup; [exact H7|by apply fmap_sublist]. }
    destruct HR as [_ H2 H3 H4 H5 H6 H7 H8 H9 H10 H11]. by split.
Qed.
End sim.
