(* ===== verification/SqliteProps.v ===== *)
(** * What the SQLite driver guarantees

    The walkers; the operations as one step function, simulated by the
    in-memory store over any history, with what every reading then answers;
    what a failing statement can do; and the two theorems: the refinement of
    the in-memory store, and the harmlessness of failing statements. *)
From Stdlib Require Import Ascii String.
From S2P Require Import GoLib Act Domain Base64 Rollup MemStore MemStoreFacts Listing Sql Sqlite SqliteRel SqliteCodes SqliteCreate SqliteScans.
Local Open Scope string_scope.
Local Open Scope Z_scope.
Local Open Scope go_scope.

(** What an operation returns. *)
Inductive outcome := OUnit | OInt (z : Z) | OCodes (l : list Code).

Definition res_map {A B} (f : A -> B) (r : result A) : result B := res_bind r (fun a => Ok (f a)).

Definition trunc_op (o : op) : op :=
  match o with
  | OpCreateUser u => OpCreateUser (trunc_user u)
  | OpCreateToken t => OpCreateToken (trunc_token t)
  | OpTouchTokenLastUsed id t => OpTouchTokenLastUsed id (trunc t)
  | OpCreateCodes cs => OpCreateCodes (trunc_code <$> cs)
  | OpInsertScanBatch b => OpInsertScanBatch (trunc_batch b)
  | OpPruneScanEvents before limit => OpPruneScanEvents (trunc before) limit
  | _ => o
  end.

Section facts.
Context `{U : UnicodeTable} `{TF : TimeFormat} {HTF : TimeFormatOk} `{ST : SqlTime} {Hst : SqlTimeOk}.
Context `{SE : SqlEngine} {Hse : SqlEngineOk}.

Definition as_out {A} (f : A -> outcome) (a : Act sqliteDB (result A)) : Act sqliteDB (result outcome) :=
  x <-! a; mret (Ok (f x)).
Definition unit_out (u : unit) : outcome := OUnit.

Definition sql_exec (env : Env) (fault : nat -> option dbErr) (o : op) : Act sqliteDB (result outcome) :=
  match o with
  | OpCreateUser u => as_out unit_out (CreateUser env fault u)
  | OpBumpTokenVersion id => as_out OInt (BumpTokenVersion env fault id)
  | OpCreateToken t => as_out unit_out (CreateToken env fault t)
  | OpRevokeToken id u => as_out unit_out (RevokeToken env fault id u)
  | OpTouchTokenLastUsed id t => as_out unit_out (TouchTokenLastUsed env fault id t)
  | OpCreateCodes cs => as_out OCodes (CreateCodes env fault cs)
  | OpUpdateDestination id u dst v => as_out unit_out (UpdateDestination env fault id u dst v)
  | OpSetCodeState id u s => as_out unit_out (SetCodeState env fault id u s)
  | OpDeleteCode id u => as_out unit_out (DeleteCode env fault id u)
  | OpReleaseAlias sc => as_out unit_out (ReleaseAlias env fault sc)
  | OpInsertScanBatch b => as_out unit_out (InsertScanBatch env fault b)
  | OpPruneScanEvents before limit => as_out OInt (PruneScanEvents env fault before limit)
  end.

Definition sql_step (env : Env) (fault : nat -> option dbErr) (o : op) (d : sqliteDB)
    : result outcome * sqliteDB :=
  let '(r, (_, d')) := sql_exec env fault o (0%nat, d) in (r, d').

Definition mem_out {A} (f : A -> outcome) (p : result A * memStore) : result outcome * memStore :=
  (res_map f p.1, p.2).

Definition mem_step (env : Env) (o : op) (m : memStore) : result outcome * memStore :=
  match o with
  | OpCreateUser u => mem_out unit_out (MemStore.CreateUser env u m)
  | OpBumpTokenVersion id => mem_out OInt (MemStore.BumpTokenVersion env id m)
  | OpCreateToken t => mem_out unit_out (MemStore.CreateToken env t m)
  | OpRevokeToken id u => mem_out unit_out (MemStore.RevokeToken env id u m)
  | OpTouchTokenLastUsed id t => mem_out unit_out (MemStore.TouchTokenLastUsed env id t m)
  | OpCreateCodes cs => mem_out OCodes (MemStore.CreateCodes env cs m)
  | OpUpdateDestination id u dst v => mem_out unit_out (MemStore.UpdateDestination env id u dst v m)
  | OpSetCodeState id u s => mem_out unit_out (MemStore.SetCodeState env id u s m)
  | OpDeleteCode id u => mem_out unit_out (MemStore.DeleteCode env id u m)
  | OpReleaseAlias sc => mem_out unit_out (MemStore.ReleaseAlias env sc m)
  | OpInsertScanBatch b => mem_out unit_out (MemStore.InsertScanBatch env b m)
  | OpPruneScanEvents before limit => mem_out OInt (MemStore.PruneScanEvents env before limit m)
  end.

(** The in-memory store's own step function. *)
Lemma mem_step_exec env o m : (mem_step env o m).2 = exec env o m.
Proof. by destruct o. Qed.

(** ** What an operation may be given

    Instants the layout represents, ASCII names, counters with room, and
    references that resolve (SQLite checks them, the in-memory store does not). *)
Definition versions_ok (id : string) (m : memStore) : Prop :=
  forall c, codes m !! id = Some c -> counter_ok (Version c).

Definition op_ok (env : Env) (o : op) (d : sqliteDB) (m : memStore) : Prop :=
  match o with
  | OpCreateUser u =>
      stamp (user_CreatedAt u) /\ stamp_opt (user_LastLoginAt u) /\ ascii_str (user_Email u)
  | OpBumpTokenVersion id => forall u, users m !! id = Some u -> counter_ok (user_TokenVersion u)
  | OpCreateToken t => token_stamps t /\ is_Some (users m !! token_UserID t)
  | OpRevokeToken _ _ => True
  | OpTouchTokenLastUsed _ t => year_ok t
  | OpCreateCodes cs => batch_ok env cs d m
  | OpUpdateDestination id _ _ _ => versions_ok id m
  | OpSetCodeState id _ _ => versions_ok id m
  | OpDeleteCode id _ => versions_ok id m
  | OpReleaseAlias sc => ascii_str sc
  | OpInsertScanBatch b => scans_ok b m
  | OpPruneScanEvents before _ => year_ok before
  end.

(** The errors of the two stores for an operation that fails on [d].  They
    have the same sentinel; of a batch of codes, which may break several rules
    at once, each reports a rule broken by the first row that breaks any. *)
Definition op_errors (env : Env) (o : op) (d : sqliteDB) (e e' : error) : Prop :=
  match o with
  | OpCreateCodes cs => create_errors env cs d e e'
  | OpInsertScanBatch b => scan_errors b e e'
  | _ => same_error e e'
  end.

Definition agree_op (env : Env) (o : op) (d : sqliteDB) (r r' : result outcome) : Prop :=
  match r, r' with
  | Ok x, Ok y => x = y
  | Err e, Err e' => op_errors env o d e e'
  | _, _ => False
  end.

(** Those that fail for one reason at a time. *)
Definition single_errors (o : op) : Prop :=
  match o with OpCreateCodes _ | OpInsertScanBatch _ => False | _ => True end.

Lemma agree_op_same env o d r r' : single_errors o -> agree r r' -> agree_op env o d r r'.
Proof. by destruct o, r, r'. Qed.

Lemma runs_out {A} (f : A -> outcome) (a : Act sqliteDB (result A)) d r d' :
  runs a d r d' -> runs (as_out f a) d (res_map f r) d'.
Proof.
  intros Hr. unfold as_out. destruct r as [x|e]; [eapply runs_try; [exact Hr|apply runs_return]|by apply runs_try_Err].
Qed.

Lemma sim_out {A} (f : A -> outcome) (a : Act sqliteDB (result A)) (g : memStore -> result A * memStore) env o d m :
  single_errors o -> sim a g d m ->
  exists r d', runs (as_out f a) d r d' /\ agree_op env o d r (mem_out f (g m)).1 /\ rel d' (mem_out f (g m)).2.
Proof.
  intros Ho (r & d' & Hr & Ha & HR). exists (res_map f r), d'. split; [by apply runs_out|]. split; [|done].
  apply agree_op_same; [done|]. unfold mem_out. cbn [fst].
  destruct r as [x|e], (g m).1 as [y|e']; try done. simpl in *. by subst.
Qed.

Lemma fails_out {A} (f : A -> outcome) (a : Act sqliteDB (result A)) (p : result A * memStore) env o d r d' :
  runs a d r d' -> fails_together r p.1 -> rel d' p.2 ->
  (forall e e', runs a d (Err e) d' -> p.1 = Err e' -> op_errors env o d e e') ->
  exists r d', runs (as_out f a) d r d' /\ agree_op env o d r (mem_out f p).1 /\ rel d' (mem_out f p).2.
Proof.
  intros Hr Ha HR He. exists (res_map f r), d'. split; [by apply runs_out|]. split; [|done].
  unfold mem_out. cbn [fst]. destruct r as [x|e], p.1 as [y|e']; try done; simpl in *; [by subst|by apply He].
Qed.

Lemma step_sim env o d m :
  ctx_Err env = None -> year_ok (time_Now env) -> rel d m -> op_ok env o d m ->
  exists r d', runs (sql_exec env no_fault o) d r d'
    /\ agree_op env o d r (mem_step (env_micro env) (trunc_op o) m).1
    /\ rel d' (mem_step (env_micro env) (trunc_op o) m).2.
Proof.
  intros Hctx Hnow HR Hok.
  destruct o; cbn [sql_exec mem_step trunc_op op_ok] in *.
  - apply (sim_out _ _ (MemStore.CreateUser (env_micro env) (trunc_user u))); [exact I|]. apply CreateUser_sim; tauto.
  - apply (sim_out _ _ (MemStore.BumpTokenVersion (env_micro env) id)); [exact I|]. by apply BumpTokenVersion_sim.
  - apply (sim_out _ _ (MemStore.CreateToken (env_micro env) (trunc_token t))); [exact I|]. apply CreateToken_sim; tauto.
  - apply (sim_out _ _ (MemStore.RevokeToken (env_micro env) id userID)); [exact I|]. by apply RevokeToken_sim.
  - apply (sim_out _ _ (MemStore.TouchTokenLastUsed (env_micro env) id (trunc at_))); [exact I|]. by apply TouchTokenLastUsed_sim.
  - destruct (CreateCodes_sim env Hctx Hnow cs d m HR Hok) as (r & d' & Hr & Ha & HR' & _).
    apply (fails_out _ _ _ _ _ d r d'); [done..|]. intros e e'. by apply (CreateCodes_errors env Hctx Hnow cs d m).
  - apply (sim_out _ _ (MemStore.UpdateDestination (env_micro env) id userID dest expectedVersion)); [exact I|]. by apply UpdateDestination_sim.
  - apply (sim_out _ _ (MemStore.SetCodeState (env_micro env) id userID state)); [exact I|]. by apply SetCodeState_sim.
  - apply (sim_out _ _ (MemStore.DeleteCode (env_micro env) id userID)); [exact I|]. by apply DeleteCode_sim.
  - apply (sim_out _ _ (MemStore.ReleaseAlias (env_micro env) shortCode)); [exact I|]. by apply ReleaseAlias_sim.
  - destruct (InsertScanBatch_sim env Hctx b d m HR Hok) as (r & d' & Hr & Ha & HR' & _).
    apply (fails_out _ _ _ _ _ d r d'); [done..|]. intros e e'. by apply (InsertScanBatch_errors env Hctx b d m).
  - apply (sim_out _ _ (MemStore.PruneScanEvents (env_micro env) (trunc before) limit)); [exact I|]. by apply PruneScanEvents_sim.
Qed.

Lemma runs_step env fault o d r d' : runs (sql_exec env fault o) d r d' -> sql_step env fault o d = (r, d').
Proof. intros Hr. unfold sql_step. destruct (Hr 0%nat) as [n' ->]. done. Qed.

(** ** Sequences of operations *)
Fixpoint trace_ok (tr : list (Env * op)) (d : sqliteDB) (m : memStore) : Prop :=
  match tr with
  | [] => True
  | (env, o) :: tr' =>
      ctx_Err env = None /\ year_ok (time_Now env) /\ op_ok env o d m
      /\ trace_ok tr' (sql_step env no_fault o d).2 (mem_step (env_micro env) (trunc_op o) m).2
  end.

Fixpoint sql_run (tr : list (Env * op)) (d : sqliteDB) : list (result outcome) * sqliteDB :=
  match tr with
  | [] => ([], d)
  | (env, o) :: tr' =>
      let '(r, d1) := sql_step env no_fault o d in
      let '(rs, d2) := sql_run tr' d1 in (r :: rs, d2)
  end.

Fixpoint mem_run (tr : list (Env * op)) (m : memStore) : list (result outcome) * memStore :=
  match tr with
  | [] => ([], m)
  | (env, o) :: tr' =>
      let '(r, m1) := mem_step (env_micro env) (trunc_op o) m in
      let '(rs, m2) := mem_run tr' m1 in (r :: rs, m2)
  end.

(** The answers agree one by one; [d] is the database the history starts on. *)
Inductive all_agree : list (Env * op) -> sqliteDB -> list (result outcome) -> list (result outcome) -> Prop :=
| agree_nil d : all_agree [] d [] []
| agree_cons env o tr d r r' rs rs' :
    agree_op env o d r r' -> all_agree tr (sql_step env no_fault o d).2 rs rs' ->
    all_agree ((env, o) :: tr) d (r :: rs) (r' :: rs').

Lemma run_sim tr d m :
  rel d m -> trace_ok tr d m ->
  all_agree tr d (sql_run tr d).1 (mem_run tr m).1 /\ rel (sql_run tr d).2 (mem_run tr m).2.
Proof.
  revert d m. induction tr as [|[env o] tr IH]; intros d m HR Ht; [by split; [constructor|]|].
  destruct Ht as (Hctx & Hnow & Hok & Ht).
  destruct (step_sim env o d m Hctx Hnow HR Hok) as (r & d' & Hr & Ha & HR').
  apply runs_step in Hr. cbn [sql_run mem_run]. rewrite Hr in Ht |- *. cbn [snd] in Ht.
  destruct (mem_step (env_micro env) (trunc_op o) m) as [rm m'] eqn:Em. cbn [fst snd] in *.
  destruct (IH d' m' HR' Ht) as [IA IR].
  destruct (sql_run tr d') as [rs d2], (mem_run tr m') as [rs' m2]. cbn [fst snd] in *.
  by split; [constructor; [|rewrite Hr]|].
Qed.

(** ** Reading *)
Inductive read :=
| RdUserByID (id : string) | RdUserByEmail (email : string) | RdCountUsers
| RdTokenByID (id : string) | RdTokens (userID : string)
| RdCodeByShortCode (sc : string) | RdCodeByID (id userID : string) | RdCodeByClientRef (userID ref : string)
| RdAlias (sc : string) | RdAnalytics (q : AnalyticsQuery).

Inductive answer :=
| AUser (u : User) | ACount (z : Z) | AToken (t : APIToken) | ATokens (l : list APIToken)
| ACode (c : Code) | ABool (b : bool) | AAnalytics (a : AnalyticsResult).

Definition sql_ask {A} (f : A -> answer) (a : Act sqliteDB (result A)) (d : sqliteDB) : result answer :=
  res_map f (a (0%nat, d)).1.

Definition sql_read (env : Env) (fault : nat -> option dbErr) (q : read) (d : sqliteDB) : result answer :=
  match q with
  | RdUserByID id => sql_ask AUser (GetUserByID env fault id) d
  | RdUserByEmail e => sql_ask AUser (GetUserByEmail env fault e) d
  | RdCountUsers => sql_ask ACount (CountUsers env fault) d
  | RdTokenByID id => sql_ask AToken (GetTokenByID env fault id) d
  | RdTokens u => sql_ask ATokens (ListTokens env fault u) d
  | RdCodeByShortCode sc => sql_ask ACode (GetCodeByShortCode env fault sc) d
  | RdCodeByID id u => sql_ask ACode (GetCodeByID env fault id u) d
  | RdCodeByClientRef u ref => sql_ask ACode (GetCodeByClientRef env fault u ref) d
  | RdAlias sc => sql_ask ABool (IsAliasAvailable env fault sc) d
  | RdAnalytics q => sql_ask AAnalytics (QueryAnalytics env fault q) d
  end.

Definition mem_read (env : Env) (q : read) (m : memStore) : result answer :=
  match q with
  | RdUserByID id => res_map AUser (MemStore.GetUserByID env id m)
  | RdUserByEmail e => res_map AUser (MemStore.GetUserByEmail env e m)
  | RdCountUsers => res_map ACount (MemStore.CountUsers env m)
  | RdTokenByID id => res_map AToken (MemStore.GetTokenByID env id m)
  | RdTokens u => res_map ATokens (MemStore.ListTokens env u m)
  | RdCodeByShortCode sc => res_map ACode (MemStore.GetCodeByShortCode env sc m)
  | RdCodeByID id u => res_map ACode (MemStore.GetCodeByID env id u m)
  | RdCodeByClientRef u ref => res_map ACode (MemStore.GetCodeByClientRef env u ref m)
  | RdAlias sc => res_map ABool (MemStore.IsAliasAvailable env sc m)
  | RdAnalytics q => res_map AAnalytics (MemStore.QueryAnalytics env (trunc_query q) m)
  end.

Definition read_ok (q : read) : Prop :=
  match q with
  | RdUserByEmail e => ascii_str e
  | RdCodeByShortCode sc => ascii_str sc
  | RdAlias sc => ascii_str sc
  | RdAnalytics q => year_ok (q_From q) /\ year_ok (q_To q)
  | _ => True
  end.

Lemma ask_agree {A} (f : A -> answer) (a : Act sqliteDB (result A)) r d :
  reads a r d -> agree (sql_ask f a d) (res_map f r).
Proof.
  intros (r' & Hr & Ha). unfold sql_ask. destruct (Hr 0%nat) as [n' ->]. cbn [fst].
  destruct r' as [x|e], r as [y|e']; try done. simpl in *. by subst.
Qed.

Lemma read_sim env q d m :
  ctx_Err env = None -> rel d m -> read_ok q ->
  agree (sql_read env no_fault q d) (mem_read (env_micro env) q m).
Proof.
  intros Hctx HR Hq. destruct q; cbn [sql_read mem_read read_ok] in *; apply ask_agree.
  - by apply GetUserByID_sim.
  - by apply GetUserByEmail_sim.
  - by apply CountUsers_sim.
  - by apply GetTokenByID_sim.
  - by apply ListTokens_sim.
  - by apply GetCodeByShortCode_sim.
  - by apply GetCodeByID_sim.
  - by apply GetCodeByClientRef_sim.
  - by apply IsAliasAvailable_sim.
  - apply QueryAnalytics_sim; tauto.
Qed.
End facts.

(** ** Errors change nothing *)
Section keeps.
Context {D : Type}.

(** From [d], the action leaves [d] unless it succeeds. *)
Definition keeps {A} (a : Act D (result A)) (d : D) : Prop :=
  forall n, match a (n, d) with (Ok _, _) => True | (Err _, (_, d')) => d' = d end.

Lemma keeps_ret {A} (r : result A) d : keeps (mret r) d.
Proof. intros n. by destruct r. Qed.

Context (env : Env) (fault : nat -> option dbErr) (tr : dbErr -> error).

Lemma keeps_transaction be ce fn d : keeps (transaction env fault be ce fn) d.
Proof.
  intros n. unfold transaction. destruct (statement_fault env fault n); [done|].
  destruct (fn (S n, d)) as [[x|e] [n' d']]; [|done]. by destruct (statement_fault env fault n').
Qed.

(** One statement, then a decision: it must not say no after a change. *)
Lemma keeps_decide {R A} (s : D -> res dbErr (R * D)) (k : R -> result A) d :
  (forall r d', s d = Ok (r, d') -> is_Ok (k r) = false -> d' = d) ->
  keeps (checked tr (statement env fault s) (fun r => mret (k r))) d.
Proof.
  intros Hk n. unfold checked, mbind, act_bind, statement.
  destruct (statement_fault env fault n); [done|].
  destruct (s d) as [[r d']|e] eqn:E; [|done]. unfold mret, act_ret. specialize (Hk r d' eq_refl).
  destruct (k r); [done|]. by apply Hk.
Qed.

Lemma keeps_query {R A} (s : D -> res dbErr R) (k : R -> result A) d :
  keeps (checked tr (query env fault s) (fun r => mret (k r))) d.
Proof.
  apply keeps_decide. intros r d' E _. destruct (s d); [|done]. by injection E.
Qed.

Lemma keeps_try {A B} (a : Act D (result A)) (f : A -> B) d :
  keeps a d -> keeps (x <-! a; mret (Ok (f x))) d.
Proof.
  intros Ha n. specialize (Ha n). unfold try, mbind, act_bind. destruct (a (n, d)) as [[x|e] [n' d']]; done.
Qed.
End keeps.

Section faults.
Context `{U : UnicodeTable} `{TF : TimeFormat} `{ST : SqlTime} `{SE : SqlEngine}.
Context (env : Env) (fault : nat -> option dbErr).

(** A statement does not fail with [sql.ErrNoRows]: that is what a query that
    found nothing reports. *)
Definition real_faults : Prop := forall n, fault n <> Some ErrNoRows.

Definition calm : Env := {| ctx_Err := None; time_Now := time_Now env; rand_byte := rand_byte env |}.

(** Counters an increment keeps in range, so that what it returns can be read. *)
Definition counters_ok (d : sqliteDB) : Prop :=
  forall k r, tb_users d !! k = Some r -> exists z, users_token_version r = SqlInt z /\ counter_ok z.

Lemma update_zero {K} `{Countable K} {R} (P : R -> bool) f (t : gmap K R) :
  (sql_update P f t).1 = 0 -> (sql_update P f t).2 = t.
Proof.
  intros E. cbn [sql_update fst] in E. pose proof (proj1 (count_zero P t) E) as Hn. by rewrite (update_none P f t Hn).
Qed.

Lemma exec_keeps o d : counters_ok d -> keeps (sql_exec env fault o) d.
Proof.
  intros Hc. destruct o; apply keeps_try.
  - unfold CreateUser. destruct (_ || _); [apply keeps_ret|]. by apply keeps_decide.
  - apply keeps_decide. intros v d' E Hv. cbv zeta in E.
    destruct (query_row _) as [v'|] eqn:Eq; [|done]. cbn [res_bind] in E. injection E as -> <-. exfalso.
    unfold query_row in Eq. destruct (users_token_version <$> _) as [|w l] eqn:El; [done|]. injection Eq as ->.
    assert (Hin : v ∈ users_token_version <$> sql_select (fun r => String.eqb (users_id r) id)
              (sql_update (fun r => String.eqb (users_id r) id) set_token_version (tb_users d)).2)
      by (rewrite El; apply list_elem_of_here).
    apply list_elem_of_fmap in Hin as (r & -> & [HP [k Hk]]%elem_of_select).
    rewrite update_lookup in Hk. apply fmap_Some in Hk as (r0 & Hr0 & ->).
    destruct (Hc k r0 Hr0) as (z & Ez & Hz & Hlt). destruct (String.eqb (users_id r0) id) eqn:Ei.
    + unfold set_token_version in Hv. cbn [users_token_version] in Hv. by rewrite Ez, plus_one in Hv.
    + by rewrite Ei in HP.
  - unfold CreateToken. destruct (_ || _); [apply keeps_ret|]. by apply keeps_decide.
  - apply keeps_decide. intros n d' E Hn. cbn [sql_update] in E. injection E as <- <-.
    destruct (Z.eqb_spec (sql_count (fun r => String.eqb (at_id r) id && String.eqb (at_user_id r) userID) (tb_tokens d)) 0) as [Ez|]; [|done].
    match goal with |- with_tokens ?t d = d => assert (Et : t = tb_tokens d) end.
    { exact (update_zero (fun r => String.eqb (at_id r) id && String.eqb (at_user_id r) userID)
               (fun r => set_token_used_revoked (at_last_used_at r) (Some (default (fmtTime (now env)) (at_revoked_at r))) r)
               (tb_tokens d) Ez). }
    rewrite Et. by destruct d.
  - apply keeps_decide. intros n d' E Hn. cbn [sql_update] in E. injection E as <- <-.
    destruct (Z.eqb_spec (sql_count (fun r => String.eqb (at_id r) id) (tb_tokens d)) 0) as [Ez|]; [|done].
    match goal with |- with_tokens ?t d = d => assert (Et : t = tb_tokens d) end.
    { exact (update_zero (fun r => String.eqb (at_id r) id)
               (fun r => set_token_used_revoked (Some (fmtTime at_)) (at_revoked_at r) r) (tb_tokens d) Ez). }
    rewrite Et. by destruct d.
  - unfold CreateCodes. destruct cs; [apply keeps_ret|].
    destruct (new_rows env 0 _); [|apply keeps_ret].
    apply (keeps_try _ (fun _ => reflect <$> a)). apply keeps_transaction.
  - apply keeps_transaction.
  - unfold SetCodeState. repeat case_match; try apply keeps_ret. apply keeps_transaction.
  - apply keeps_transaction.
  - apply keeps_transaction.
  - unfold InsertScanBatch. repeat case_match; try apply keeps_ret; apply keeps_transaction.
  - unfold PruneScanEvents. case_match; [apply keeps_ret|]. by apply keeps_decide.
Qed.

(** ** Success is the calm success *)
Lemma tracks_out {A} (f : A -> outcome) (a a0 : Act sqliteDB (result A)) :
  tracks a a0 -> tracks (as_out f a) (as_out f a0).
Proof. intros Ha. apply tracks_try; [exact Ha|]. intros x. apply tracks_refl. Qed.

Lemma tracks_ret_checked {R A} (s : sqliteDB -> res dbErr (R * sqliteDB)) (k : R -> result A) :
  tracks (checked translate (statement env fault s) (fun r => mret (k r)))
    (checked translate (statement calm no_fault s) (fun r => mret (k r))).
Proof. apply tracks_checked. intros x. apply tracks_refl. Qed.

Lemma tracks_when_owned id userID present : real_faults ->
  tracks (when_owned env fault id userID present) (when_owned calm no_fault id userID present).
Proof.
  intros Hf. apply tracks_try; [|intros x; apply tracks_refl].
  intros n d. unfold ownedExists, mbind, act_bind, query, statement. cbn [statement_fault ctx_Err calm no_fault].
  unfold statement_fault. pose proof (Hf n) as Hn.
  destruct (ctx_Err env); [done|]. destruct (fault n) as [[|? ?|? ?|?]|]; try done.
  destruct (res_bind _ _) as [[a d']|[|? ?|? ?|?]]; done.
Qed.

Lemma tracks_guarded (s : sqliteDB -> res dbErr (Z * sqliteDB)) id userID present : real_faults ->
  tracks (withTx env fault (checked translate (statement env fault s)
            (fun n => if n =? 1 then mret (Ok tt) else when_owned env fault id userID present)))
    (withTx calm no_fault (checked translate (statement calm no_fault s)
            (fun n => if n =? 1 then mret (Ok tt) else when_owned calm no_fault id userID present))).
Proof.
  intros Hf. apply tracks_transaction, tracks_checked. intros n.
  destruct (n =? 1); [apply tracks_refl|by apply tracks_when_owned].
Qed.

Lemma tracks_insert_codes rs : tracks (insert_codes env fault rs) (insert_codes calm no_fault rs).
Proof.
  induction rs as [|r rs IH]; [apply tracks_refl|]. apply tracks_try; [|intros _; exact IH].
  apply tracks_checked. intros _. apply tracks_checked. intros _. apply tracks_ret_checked.
Qed.

Lemma tracks_exec_each {X} (s : X -> sqliteDB -> res dbErr (unit * sqliteDB)) xs :
  tracks (exec_each env fault s xs) (exec_each calm no_fault s xs).
Proof. induction xs as [|x xs IH]; [apply tracks_refl|]. apply tracks_checked. by intros _. Qed.

Lemma tracks_prepared {X} (s : X -> sqliteDB -> res dbErr (unit * sqliteDB)) xs :
  tracks (prepared env fault s xs) (prepared calm no_fault s xs).
Proof.
  unfold prepared. destruct xs; [apply tracks_refl|]. apply tracks_checked. intros _. apply tracks_exec_each.
Qed.

Lemma new_rows_calm off cs : new_rows env off cs = new_rows calm off cs.
Proof. revert off. induction cs as [|c cs IH]; intros off; [done|]. cbn [new_rows]. by rewrite IH. Qed.

(** A query whose errors the operation looks at, to report an error. *)
Lemma tracks_query_row {R A} (s : sqliteDB -> res dbErr R) (k k0 : res dbErr R -> Act sqliteDB (result A)) :
  (forall e st, is_Ok (k (Err e) st).1 = false) -> (forall r, tracks (k r) (k0 r)) ->
  tracks (r ← query env fault s; k r) (r ← query calm no_fault s; k0 r).
Proof.
  intros He Hk n d. unfold mbind, act_bind, query, statement. rewrite (no_statement_fault calm eq_refl).
  destruct (statement_fault env fault n) as [e|].
  - specialize (He e (S n, d)). by destruct (k (Err e) (S n, d)) as [[x|e'] [n' d']].
  - destruct (res_bind _ _) as [[a d']|e]; apply Hk.
Qed.

Lemma tracks_ReleaseAlias sc : tracks (ReleaseAlias env fault sc) (ReleaseAlias calm no_fault sc).
Proof.
  apply tracks_transaction, tracks_query_row; [by intros [|? ?|? ?|?]|].
  intros [_|[|? ?|? ?|?]]; try apply tracks_refl. apply tracks_checked. intros live.
  destruct (0 <? live); [apply tracks_refl|]. apply tracks_ret_checked.
Qed.

Lemma exec_tracks o : real_faults -> tracks (sql_exec env fault o) (sql_exec calm no_fault o).
Proof.
  intros Hf. destruct o; apply tracks_out.
  - unfold CreateUser. destruct (_ || _); [apply tracks_refl|]. apply tracks_ret_checked.
  - apply tracks_ret_checked.
  - unfold CreateToken. destruct (_ || _); [apply tracks_refl|]. apply tracks_ret_checked.
  - apply tracks_ret_checked.
  - apply tracks_ret_checked.
  - unfold CreateCodes. destruct cs as [|c cs]; [apply tracks_refl|]. rewrite new_rows_calm.
    destruct (new_rows calm 0 (c :: cs)); [|apply tracks_refl].
    apply tracks_try; [|intros x; apply tracks_refl]. apply tracks_transaction, tracks_insert_codes.
  - by apply tracks_guarded.
  - unfold SetCodeState. repeat case_match; try apply tracks_refl. by apply tracks_guarded.
  - by apply tracks_guarded.
  - apply tracks_ReleaseAlias.
  - unfold InsertScanBatch. repeat case_match; try apply tracks_refl;
      apply tracks_transaction, tracks_try; intros; apply tracks_prepared.
  - unfold PruneScanEvents. case_match; [apply tracks_refl|]. apply tracks_ret_checked.
Qed.
End faults.

(** The walk of a list. *)
Fixpoint visit {A S} (fn : A -> S -> result unit * S) (l : list A) (s : S) : result unit * S :=
  match l with
  | [] => (Ok tt, s)
  | a :: l' => match fn a s with (Err e, s') => (Err e, s') | (Ok _, s') => visit fn l' s' end
  end.

(** The callback as an action that leaves the database alone. *)
Definition watching {D A S} (fn : A -> S -> result unit * S) (a : A) (s : S) : Act D (result unit * S) :=
  mret (fn a s).

Section walk.
Context `{U : UnicodeTable} `{TF : TimeFormat} `{ST : SqlTime} {Hst : SqlTimeOk}.
Context (env : Env) (Hctx : ctx_Err env = None).
Context {S : Type}.

Lemma walk_visits {R A} (scan : R -> result A) (fn : A -> S -> result unit * S) rows l s d :
  Forall2 (fun r a => scan r = Ok a) rows l ->
  runs (walk env no_fault scan (watching fn) rows s) d (visit fn l s) d.
Proof.
  intros Hl. revert s. induction Hl as [|r a rows l Hra Hl IH]; intros s; cbn [walk visit].
  - eapply runs_then; [by apply runs_query|]. apply runs_return.
  - eapply runs_then; [by apply runs_query|]. cbn beta iota. rewrite Hra.
    eapply runs_then; [apply runs_return|]. destruct (fn a s) as [[[]|e] s']; [apply IH|apply runs_return].
Qed.

(** A table whose rows are, in some order, the encodings [g x] of entries
    whose decodings are [h x]. *)
Lemma for_each_visits {X R A} (rows : sqliteDB -> list R) (scan : R -> result A)
    (fn : A -> S -> result unit * S) (g : X -> R) (h : X -> A) (xs : list X) s d :
  rows d ≡ₚ g <$> xs -> (forall x, x ∈ xs -> scan (g x) = Ok (h x)) ->
  exists l, l ≡ₚ h <$> xs /\ runs (for_each env no_fault rows scan (watching fn) s) d (visit fn l s) d.
Proof.
  intros Hp Hs. destruct (Permutation_map_inv g xs Hp) as (ys & E & Hys).
  exists (h <$> ys). split; [by rewrite Hys|].
  unfold for_each. eapply runs_then; [by apply runs_query|]. cbn beta iota.
  apply walk_visits. rewrite E, Forall2_fmap_l, Forall2_fmap_r. apply Forall_Forall2_diag, Forall_forall.
  intros x Hx. apply Hs. by rewrite Hys.
Qed.

Context (d : sqliteDB) (m : memStore) (HR : rel d m).

Lemma ForEachUser_visits (fn : User -> S -> result unit * S) s :
  exists l, l ≡ₚ user_rows m /\ runs (ForEachUser env no_fault (watching fn) s) d (visit fn l s) d.
Proof.
  destruct (for_each_visits (fun d => sort_Slice users_order (rows_of (tb_users d))) scanUser fn
              urow id (rows_of (users m)) s d) as (l & Hl & Hr).
  - by rewrite sort_Slice_Permutation, (rel_users _ _ HR), rows_of_fmap.
  - intros u [k Hk]%elem_of_rows. by apply scan_user_row, (mok_users _ (rel_ok _ _ HR) k).
  - exists l. split; [|done]. unfold user_rows. by rewrite sort_Slice_Permutation, Hl, list_fmap_id.
Qed.

Lemma ForEachCode_visits (fn : Code -> S -> result unit * S) s :
  exists l, l ≡ₚ code_rows m /\ runs (ForEachCode env no_fault (watching fn) s) d (visit fn l s) d.
Proof.
  destruct (for_each_visits (fun d => sort_Slice codes_walk_order (join_styling d (rows_of (tb_codes d)))) scanCode fn
              prow id (rows_of (codes m)) s d) as (l & Hl & Hr).
  - rewrite sort_Slice_Permutation, (rel_codes _ _ HR), rows_of_fmap, (join_rows d m); [done|done|].
    apply Forall_forall. intros c [k Hk]%elem_of_rows.
    by rewrite (wf_codes _ (mok_wf _ (rel_ok _ _ HR)) _ _ Hk).
  - intros c [k Hk]%elem_of_rows. by apply (scan_prow m k _ (rel_ok _ _ HR)).
  - exists l. split; [|done]. unfold code_rows. by rewrite sort_Slice_Permutation, Hl, list_fmap_id.
Qed.

Lemma scanRollup_enc k n : micro (rk_hour k) -> scanRollup (enc (k, n)) = Ok (delta_of (k, n)).
Proof. intros Hm. unfold scanRollup, enc. cbn [fst snd scan_int res_bind]. by rewrite parse_fmtTime. Qed.

Lemma ForEachRollup_visits (fn : RollupDelta -> S -> result unit * S) s :
  exists l, l ≡ₚ rollup_rows m /\ runs (ForEachRollup env no_fault (watching fn) s) d (visit fn l s) d.
Proof.
  destruct (for_each_visits (fun d => sort_Slice rollups_order (map_to_list (tb_rollups d))) scanRollup fn
              enc delta_of (map_to_list (rollups m)) s d) as (l & Hl & Hr).
  - rewrite sort_Slice_Permutation. by apply rollup_table.
  - intros [k n] Hk. apply elem_of_map_to_list in Hk.
    apply scanRollup_enc. exact (proj1 (mok_rollups _ (rel_ok _ _ HR) _ _ Hk)).
  - exists l. split; [|done]. unfold rollup_rows. by rewrite sort_Slice_Permutation.
Qed.

Lemma reservation_table_rows :
  rows_of (tb_reservations d) ≡ₚ (fun p => rrow p.1 p.2) <$> map_to_list (reservations m).
Proof.
  assert (Hp : map_to_list (tb_reservations d)
          ≡ₚ (fun p => (p.1, rrow p.1 p.2)) <$> map_to_list (reservations m)).
  { apply NoDup_Permutation; [apply NoDup_map_to_list| |].
    - apply (NoDup_fmap_1 fst). rewrite <- list_fmap_compose. apply NoDup_fst_map_to_list.
    - intros [k r]. rewrite elem_of_map_to_list, (rel_res _ _ HR), list_elem_of_fmap. split.
      + intros (x & Hx & ->)%fmap_Some. exists (k, x). by rewrite elem_of_map_to_list.
      + intros ([k' x] & [= -> ->] & Hx). apply elem_of_map_to_list in Hx. cbn [fst snd]. by rewrite Hx. }
  unfold rows_of. rewrite Hp, <- list_fmap_compose. done.
Qed.

Lemma ForEachReservation_visits (fn : AliasReservation -> S -> result unit * S) s :
  exists l, l ≡ₚ reservation_rows m /\ runs (ForEachReservation env no_fault (watching fn) s) d (visit fn l s) d.
Proof.
  destruct (for_each_visits (fun d => sort_Slice (fun a b => str_ltb (ar_short_code a) (ar_short_code b))
                       (rows_of (tb_reservations d))) scanReservation fn
              (fun p => rrow p.1 p.2) reservation_row (map_to_list (reservations m)) s d) as (l & Hl & Hr).
  - rewrite sort_Slice_Permutation. apply reservation_table_rows.
  - intros [k r] Hk. apply elem_of_map_to_list in Hk.
    destruct (mok_res _ (rel_ok _ _ HR) _ _ Hk) as (_ & Hm & Ho).
    unfold scanReservation, rrow. cbn [fst snd ar_reserved_at ar_released_at].
    rewrite parse_fmtTime by done. cbn [res_bind]. by rewrite parse_fmtTimePtr.
  - exists l. split; [|done]. unfold reservation_rows. by rewrite sort_Slice_Permutation.
Qed.
End walk.

Section props.
Context `{U : UnicodeTable} `{TF : TimeFormat} {HTF : TimeFormatOk} `{ST : SqlTime} {Hst : SqlTimeOk}.
Context `{SE : SqlEngine} {Hse : SqlEngineOk}.

(** The four walkers of the two stores hand out the same rows. *)
Definition same_walks (env : Env) (d : sqliteDB) (m : memStore) : Prop :=
  (forall S (fn : User -> S -> result unit * S) s, exists l, l ≡ₚ user_rows m
     /\ runs (ForEachUser env no_fault (watching fn) s) d (visit fn l s) d)
  /\ (forall S (fn : Code -> S -> result unit * S) s, exists l, l ≡ₚ code_rows m
     /\ runs (ForEachCode env no_fault (watching fn) s) d (visit fn l s) d)
  /\ (forall S (fn : RollupDelta -> S -> result unit * S) s, exists l, l ≡ₚ rollup_rows m
     /\ runs (ForEachRollup env no_fault (watching fn) s) d (visit fn l s) d)
  /\ (forall S (fn : AliasReservation -> S -> result unit * S) s, exists l, l ≡ₚ reservation_rows m
     /\ runs (ForEachReservation env no_fault (watching fn) s) d (visit fn l s) d).

Lemma walks_sim env d m : ctx_Err env = None -> rel d m -> same_walks env d m.
Proof.
  intros Hctx HR. split_and!; intros S fn s.
  - by apply ForEachUser_visits.
  - by apply ForEachCode_visits.
  - by apply ForEachRollup_visits.
  - by apply ForEachReservation_visits.
Qed.

Definition sql_page (env : Env) (f : CodeFilter) (d : sqliteDB) : result (list Code * string) :=
  (ListCodes env no_fault f (0%nat, d)).1.

Lemma page_sim env f cm d m :
  ctx_Err env = None -> rel d m -> filter_ok f m -> cursors (Cursor f) cm ->
  page_agree (sql_page env f d) (MemStore.ListCodes (env_micro env) (mem_filter cm f) m).
Proof.
  intros Hctx HR Hf Hc. destruct (ListCodes_sim env Hctx f cm d m HR Hf Hc) as (r & Hr & Ha).
  unfold sql_page. destruct (Hr 0%nat) as [n' ->]. exact Ha.
Qed.

(** C4: the SQLite driver refines the reference store.  From a freshly
    migrated database, run any history of operations, one at a time and with
    no statement failing, each at its own clock reading and on arguments the
    columns can hold (instants of the layout, ASCII names, counters with room,
    owners that exist, new styling ids).  The driver answers every one of them
    as the in-memory store does at instants truncated to the microsecond: the
    same values, and errors with the same sentinel, but for two cases.  When
    codes cannot be created, each store reports the sentinel of a rule (id,
    short code, client reference) broken by the first row that breaks any,
    hence the same one when it breaks a single rule; and SQLite refuses a
    batch with an incomplete row, or with a malformed event or rollup, up
    front and with no sentinel.  Afterwards every lookup, count, analytics
    query and page of a listing agrees as well, following cursors included,
    and the four walkers of the export hand out the same rows. *)
Theorem sqlite_refines_memstore tr env q f cm :
  trace_ok tr empty_db NewMemStore -> ctx_Err env = None ->
  let d := (sql_run tr empty_db).2 in
  let m := (mem_run tr NewMemStore).2 in
  all_agree tr empty_db (sql_run tr empty_db).1 (mem_run tr NewMemStore).1
  /\ (read_ok q -> agree (sql_read env no_fault q d) (mem_read (env_micro env) q m))
  /\ (filter_ok f m -> cursors (Cursor f) cm ->
      page_agree (sql_page env f d) (MemStore.ListCodes (env_micro env) (mem_filter cm f) m))
  /\ same_walks env d m.
Proof.
  intros Ht Hctx d m. destruct (run_sim tr empty_db NewMemStore rel_empty Ht) as [Ha HR].
  split_and!; [exact Ha| | |].
  - intros Hq. by apply read_sim.
  - intros Hf Hc. by apply page_sim.
  - by apply walks_sim.
Qed.

(** C5: A failing statement does no harm.  Whatever statements of an
    operation of the SQLite driver fail by themselves (a full disk, a busy
    file, a lost connection, a context that is done), at the [BEGIN], inside
    or at the [COMMIT], the operation either reports an error and the
    database is what it was, or does and answers exactly what it does when
    nothing fails. *)
Theorem sqlite_failures_atomic env fault o d :
  real_faults fault -> counters_ok d ->
  match sql_step env fault o d with
  | (Err _, d') => d' = d
  | (Ok x, d') => sql_step (calm env) no_fault o d = (Ok x, d')
  end.
Proof.
  intros Hf Hc. unfold sql_step.
  pose proof (exec_keeps env fault o d Hc 0%nat) as Hk. pose proof (exec_tracks env fault o Hf 0%nat d) as Ht.
  destruct (sql_exec env fault o (0%nat, d)) as [[x|e] [n' d']]; [by rewrite Ht|done].
Qed.
End props.
