(* ===== verification/SqliteDemo.v ===== *)
(** * The SQLite driver on concrete instances

    A layout of time stamps that sorts as text, an engine that reports the
    first violated constraint, and what the simulation of the driver by the
    in-memory store and the study of failing statements give: the refinement
    theorem and the theorem on failures, applied to short histories. *)
From Stdlib Require Import Ascii String.
From S2P Require Import GoLib Act Text Domain Base64 Rollup MemStore MemStoreFacts Listing Concrete Sql Sqlite SqliteRel SqliteCodes SqliteCreate SqliteScans SqliteProps.
Local Open Scope string_scope.
Local Open Scope Z_scope.
Local Open Scope go_scope.

(** ** Fixed-width numerals *)
Fixpoint digits (k : nat) (n : Z) : list ascii :=
  match k with
  | O => []
  | S k' => byte_of (48 + n / 10 ^ Z.of_nat k') :: digits k' (n mod 10 ^ Z.of_nat k')
  end.

Lemma pow10_S k : 10 ^ Z.of_nat (S k) = 10 * 10 ^ Z.of_nat k.
Proof. rewrite Nat2Z.inj_succ, Z.pow_succ_r by lia. done. Qed.

Lemma leading_digit k n : 0 <= n < 10 ^ Z.of_nat (S k) ->
  0 <= n / 10 ^ Z.of_nat k <= 9 /\ 0 <= n mod 10 ^ Z.of_nat k < 10 ^ Z.of_nat k
  /\ n = 10 ^ Z.of_nat k * (n / 10 ^ Z.of_nat k) + n mod 10 ^ Z.of_nat k.
Proof.
  rewrite pow10_S. intros Hn. pose proof (Z.pow_pos_nonneg 10 (Z.of_nat k) ltac:(lia) ltac:(lia)) as Hp.
  split_and!; try (apply Z.mod_pos_bound; lia).
  - apply Z.div_pos; lia.
  - assert (n / 10 ^ Z.of_nat k < 10); [|lia]. apply Z.div_lt_upper_bound; lia.
  - apply Z.div_mod. lia.
Qed.

Lemma digits_fold k : forall a n, 0 <= n < 10 ^ Z.of_nat k ->
  foldl digit_step a (digits k n) = a * 10 ^ Z.of_nat k + n.
Proof.
  induction k as [|k IH]; intros a n Hn; [simpl in *; lia|].
  destruct (leading_digit k n Hn) as (Hd & Hm & E). cbn [digits foldl]. rewrite IH by done.
  unfold digit_step. rewrite code_byte_of, pow10_S by lia. rewrite E at 3. ring.
Qed.

Lemma digits_order k : forall n m, 0 <= n < 10 ^ Z.of_nat k -> 0 <= m < 10 ^ Z.of_nat k ->
  str_ltb (of_bytes (digits k n)) (of_bytes (digits k m)) = (n <? m).
Proof.
  induction k as [|k IH]; intros n m Hn Hm; [simpl in *; symmetry; apply Z.ltb_ge; lia|].
  destruct (leading_digit k n Hn) as (Hd & Hr & E), (leading_digit k m Hm) as (Hd' & Hr' & E').
  cbn [digits of_bytes str_ltb]. rewrite !code_byte_of, IH by lia.
  set (p := 10 ^ Z.of_nat k) in *. clearbody p.
  destruct (Z.ltb_spec (48 + n / p) (48 + m / p)); [symmetry; apply Z.ltb_lt; nia|].
  destruct (Z.ltb_spec (48 + m / p) (48 + n / p)); [symmetry; apply Z.ltb_ge; nia|].
  assert (Eq : n / p = m / p) by lia. apply Bool.eq_iff_eq_true. rewrite !Z.ltb_lt. nia.
Qed.

Lemma digits_no_nul k : forall n, 0 <= n < 10 ^ Z.of_nat k -> "000"%char ∉ digits k n.
Proof.
  induction k as [|k IH]; intros n Hn; [apply not_elem_of_nil|].
  destruct (leading_digit k n Hn) as (Hd & Hr & _). cbn [digits]. apply not_elem_of_cons. split; [|by apply IH].
  intros E. apply (f_equal code) in E. rewrite code_byte_of in E by lia. change (code "000") with 0 in E. lia.
Qed.

(** Nanoseconds since the first year, in 21 digits: as many as the years up to
    9999 need. *)
Definition decimal_format (t : Z) : string := of_bytes (digits 21 t).

#[local] Instance decimal_time : TimeFormat := {|
  Format_RFC3339Nano := decimal_format;
  Parse_RFC3339Nano := fun s => Some (digits_value (bytes s));
|}.
#[local] Instance decimal_layout : SqlTime := {| Format_tsLayout := decimal_format |}.
#[local] Instance first_violation : SqlEngine := {| report := fun es => default ErrNoRows (head es) |}.

Lemma year_digits t : year_ok t -> 0 <= t < 10 ^ Z.of_nat 21.
Proof. unfold year_ok, Day, Hour, Minute, Second. lia. Qed.

Lemma decimal_value t : year_ok t -> digits_value (bytes (decimal_format t)) = t.
Proof.
  intros Ht. unfold decimal_format, digits_value. rewrite bytes_of_bytes, digits_fold by by apply year_digits. lia.
Qed.

Lemma decimal_no_nul t : year_ok t -> "000"%char ∉ bytes (decimal_format t).
Proof. intros Ht. unfold decimal_format. rewrite bytes_of_bytes. by apply digits_no_nul, year_digits. Qed.

#[local] Instance decimal_time_ok : TimeFormatOk.
Proof. split; [|exact decimal_no_nul]. intros t Ht. exact (f_equal Some (decimal_value t Ht)). Qed.

#[local] Instance decimal_layout_ok : SqlTimeOk.
Proof.
  split.
  - intros t [Ht _]. exact (f_equal Some (decimal_value t Ht)).
  - intros t u [Ht _] [Hu _]. by apply digits_order; apply year_digits.
  - intros t [Ht _]. by apply decimal_no_nul.
Qed.

#[local] Instance first_violation_ok : SqlEngineOk.
Proof. split. intros [|e es] Hne; [done|]. apply list_elem_of_here. Qed.

(** ** A history

    A user registers, creates a code, fails to create another under the same
    alias, changes the destination of the first, loses a race on
    its version, deletes it, and tries to release the alias twice. *)
Definition demo_user : User :=
  {| user_ID := "usr_1"; user_Email := "Ada@Example.com"; user_PasswordHash := ""; user_IsAdmin := true;
     user_TokenVersion := 0; user_Source := "bootstrap"; user_CreatedAt := 0; user_LastLoginAt := None |}.

Definition second_code : Code :=
  {| code_ID := "qrc_2"; ShortCode := "card"; IsAlias := true; code_UserID := "usr_1"; Mode := ""; ClientRef := "";
     Destination := "https://example.com/d"; State := ""; code_Styling := set_styling_ID "sty_2" sample_styling;
     BlobKey := "codes/aa/bb/y.png"; BlobETag := "etag"; Version := 0; code_CreatedAt := 0;
     UpdatedAt := 0; DeletedAt := None |}.
(** A second code under the short code of the first. *)
Definition clashing_code : Code :=
  {| code_ID := code_ID second_code; ShortCode := "MENU"; IsAlias := true; code_UserID := "usr_1"; Mode := ""; ClientRef := "";
     Destination := Destination second_code; State := ""; code_Styling := code_Styling second_code;
     BlobKey := BlobKey second_code; BlobETag := "etag"; Version := 0; code_CreatedAt := 0;
     UpdatedAt := 0; DeletedAt := None |}.

Definition demo_trace : list (Env * op) :=
  [(env_at 1, OpCreateUser demo_user);
   (env_at 2, OpCreateCodes [sample_code "qrc_1" "Menu" "usr_1"]);
   (env_at 3, OpCreateCodes [clashing_code]);
   (env_at 3, OpUpdateDestination "qrc_1" "usr_1" "https://example.com/b" 1);
   (env_at 4, OpUpdateDestination "qrc_1" "usr_1" "https://example.com/c" 1);
   (env_at 5, OpDeleteCode "qrc_1" "usr_1");
   (env_at 6, OpReleaseAlias "MENU");
   (env_at 7, OpReleaseAlias "menu")].

(** What the hypotheses ask of a state, as computations. *)
Definition counter_okb (z : Z) : bool := (- 2 ^ 63 <=? z) && (z <? 2 ^ 63 - 1).

Lemma counter_by z : counter_okb z = true -> counter_ok z.
Proof. unfold counter_okb, counter_ok, int64_ok. rewrite andb_true_iff, Z.leb_le, Z.ltb_lt. lia. Qed.

Lemma versions_by id m :
  from_option (fun c => counter_okb (Version c)) true (codes m !! id) = true -> versions_ok id m.
Proof. intros E c Hc. rewrite Hc in E. by apply counter_by. Qed.

Lemma counters_by d :
  forallb (fun r => match users_token_version r with SqlInt z => counter_okb z | SqlReal _ => false end)
    (rows_of (tb_users d)) = true -> counters_ok d.
Proof.
  intros E k r Hk. rewrite forallb_forall in E.
  assert (Hr : In r (rows_of (tb_users d))) by (apply list_elem_of_In, elem_of_rows; eauto).
  specialize (E r Hr). destruct (users_token_version r) as [z|]; [|done]. exists z. split; [done|]. by apply counter_by.
Qed.

Lemma year_by t : (0 <=? t) && (t <? 3652059 * Day) = true -> year_ok t.
Proof. unfold year_ok. rewrite andb_true_iff, Z.leb_le, Z.ltb_lt. lia. Qed.

Lemma stamp_by t : (0 <=? t) && (t <? 3652059 * Day) && ((t =? 0) || (Microsecond <=? t)) = true -> stamp t.
Proof.
  rewrite andb_true_iff, orb_true_iff, Z.eqb_eq, Z.leb_le. intros [Hy Ht]. split; [by apply year_by|done].
Qed.

Ltac by_computation := first [apply versions_by|apply counters_by|apply stamp_by|apply year_by|idtac]; vm_compute; reflexivity.

Lemma demo_trace_ok : trace_ok demo_trace empty_db NewMemStore.
Proof.
  unfold demo_trace. cbn [trace_ok op_ok trunc_op]. split_and!; try exact I; try by_computation.
  all: split; [constructor; [split; by_computation|constructor]|constructor; [eexists; vm_compute; reflexivity|constructor]
    |apply (bool_decide_unpack _); vm_compute; reflexivity|constructor; [vm_compute; reflexivity|constructor]].
Qed.

Definition demo_filter : CodeFilter :=
  {| f_UserID := "usr_1"; CreatedAfter := None; CreatedBefore := None; f_Destination := ""; Limit := 10; Cursor := "" |}.

Lemma demo_filter_ok m : filter_ok demo_filter m.
Proof. split; [exact I|exact I|by left]. Qed.

Lemma sqlite_refines_memstore_witness :
  trace_ok demo_trace empty_db NewMemStore
  /\ (sql_run demo_trace empty_db).1 !! 6%nat = Some (Ok OUnit)
  /\ (sql_run demo_trace empty_db).1 !! 2%nat = Some (Err (Wrap "sqlite" ErrAliasTaken))
  /\ (mem_run demo_trace NewMemStore).1 !! 2%nat = Some (Err (Wrap "memstore: short code" ErrAliasTaken))
  /\ all_agree demo_trace empty_db (sql_run demo_trace empty_db).1 (mem_run demo_trace NewMemStore).1
  /\ agree (sql_read env0 no_fault (RdAlias "Menu") (sql_run demo_trace empty_db).2)
       (mem_read (env_micro env0) (RdAlias "Menu") (mem_run demo_trace NewMemStore).2)
  /\ page_agree (sql_page env0 demo_filter (sql_run demo_trace empty_db).2)
       (MemStore.ListCodes (env_micro env0) (mem_filter "" demo_filter) (mem_run demo_trace NewMemStore).2).
Proof.
  pose proof (sqlite_refines_memstore demo_trace env0 (RdAlias "Menu") demo_filter "" demo_trace_ok eq_refl) as P.
  cbv zeta in P. destruct P as (Ha & Hr & Hp & _).
  split; [exact demo_trace_ok|]. do 3 (split; [vm_compute; reflexivity|]). split; [exact Ha|]. split.
  - refine (Hr _). vm_compute. reflexivity.
  - exact (Hp (demo_filter_ok _) (or_introl (conj eq_refl eq_refl))).
Defined.

(** The disk fills up while the second code's reservation is written. *)
Definition full_disk : nat -> option dbErr := fun n =>
  if Nat.eqb n 6 then Some (SqliteError SQLITE_FULL "database or disk is full") else None.
Definition one_user : sqliteDB := (sql_run (take 1 demo_trace) empty_db).2.
Definition two_codes : op :=
  OpCreateCodes [sample_code "qrc_1" "menu" "usr_1"; second_code].

Lemma sqlite_failures_atomic_witness :
  real_faults full_disk /\ counters_ok one_user
  /\ sql_step env0 full_disk two_codes one_user = (Err (NewErr "database or disk is full"), one_user)
  /\ match sql_step env0 full_disk two_codes one_user with
     | (Err _, d') => d' = one_user
     | (Ok x, d') => sql_step (calm env0) no_fault two_codes one_user = (Ok x, d')
     end.
Proof.
  assert (Hf : real_faults full_disk) by (intros n; unfold full_disk; by destruct (Nat.eqb n 6)).
  assert (Hc : counters_ok one_user) by by_computation.
  split; [exact Hf|]. split; [exact Hc|]. split; [vm_compute; reflexivity|].
  exact (sqlite_failures_atomic env0 full_disk two_codes one_user Hf Hc).
Defined.
