(* ===== verification/RateLimit.v ===== *)
(** * The rate limiter ([internal/httpapi/middleware/ratelimit.go])

    Token buckets, one per client address, in the floating point of the code;
    the eviction of idle buckets and the middleware.  A conversion of a float
    that no [int64] holds is the platform's choice, a parameter; a product and
    a sum are rounded separately, as they are where the platform does not fuse
    them. *)
From Stdlib Require Import Ascii String.
From S2P Require Import GoLib Http Auth Router Public.
Local Open Scope string_scope.
Local Open Scope Z_scope.

(** ** Conversions *)
Class FloatConversion := { unrepresentable : float64 -> Z }.

(** The integer part of a finite value. *)
Definition f64_trunc (f : float64) : option Z :=
  match f with
  | S754_zero _ => Some 0
  | S754_finite s m e =>
      let v := if 0 <=? e then Z.pos m * 2 ^ e else Z.pos m / 2 ^ (- e) in
      Some (if s then - v else v)
  | _ => None
  end.

Definition f64_add (a b : float64) : float64 := SFadd 53 1024 a b.
Definition f64_sub (a b : float64) : float64 := SFsub 53 1024 a b.

(** [time.Time.Sub] stops at the ends of [time.Duration]. *)
Definition Sub (t u : Z) : Z := Z.max (- 2 ^ 63) (Z.min (2 ^ 63 - 1) (t - u)).

(** [time.Duration.Seconds]. *)
Definition Seconds (d : Z) : float64 :=
  f64_add (f64_of_Z (Z.quot d Second)) (f64_div (f64_of_Z (Z.rem d Second)) (f64_of_Z Second)).

Section limiter.
Context `{FC : FloatConversion}.

(** [int64(f)]. *)
Definition int64_of (f : float64) : Z :=
  match f64_trunc f with
  | Some z => if (- 2 ^ 63 <=? z) && (z <? 2 ^ 63) then z else unrepresentable f
  | None => unrepresentable f
  end.

(** ** Buckets *)
Record bucket := { b_tokens : float64; b_last : Z }.

Record RateLimiter := {
  rl_buckets : gmap string bucket;
  rl_rate : float64;      (* tokens per second *)
  rl_burst : float64;
}.

Definition NewRateLimiter (perMinute : Z) : RateLimiter :=
  {| rl_buckets := ∅; rl_rate := f64_div (f64_of_Z perMinute) (f64_of_Z 60); rl_burst := f64_of_Z perMinute |}.

Definition with_bucket (key : string) (b : bucket) (rl : RateLimiter) : RateLimiter :=
  {| rl_buckets := <[key := b]> (rl_buckets rl); rl_rate := rl_rate rl; rl_burst := rl_burst rl |}.

(** What a bucket holds at [now]: refilled, up to the burst. *)
Definition refill (rl : RateLimiter) (now : Z) (b : bucket) : float64 :=
  let tokens := f64_add (b_tokens b) (f64_mul (Seconds (Sub now (b_last b))) (rl_rate rl)) in
  if f64_ltb (rl_burst rl) tokens then rl_burst rl else tokens.

Definition one : float64 := f64_of_Z 1.

(** Whether the request may pass and, if not, when to try again. *)
Definition allow (now : Z) (key : string) (rl : RateLimiter) : bool * Z * RateLimiter :=
  let b := default {| b_tokens := rl_burst rl; b_last := now |} (rl_buckets rl !! key) in
  let tokens := refill rl now b in
  if f64_leb one tokens
  then (true, 0, with_bucket key {| b_tokens := f64_sub tokens one; b_last := now |} rl)
  else (false, wrap64 (int64_of (f64_mul (f64_div (f64_sub one tokens) (rl_rate rl)) (f64_of_Z Second)) + Second),
        with_bucket key {| b_tokens := tokens; b_last := now |} rl).

(** One round of [evictLoop]. *)
Definition evict (now : Z) (rl : RateLimiter) : RateLimiter :=
  let cutoff := now - 10 * Minute in
  {| rl_buckets := filter (fun p => Before (b_last p.2) cutoff = false) (rl_buckets rl);
     rl_rate := rl_rate rl; rl_burst := rl_burst rl |}.

(** ** The middleware *)
Definition limit_page : string :=
  dq "<!doctype html><html lang='en'><head><meta charset='utf-8'><title>Sign-in limit — qurator</title></head><body><p role='alert'>Too many sign-in attempts. Wait before trying again.</p><a href='/ui/signin'>Back to sign in</a></body></html>".

Definition limit_csp : string := "default-src 'none'; frame-ancestors 'none'; base-uri 'none'".

Definition too_many (path : string) (retry : Z) : Response :=
  let secs := int64_of (Seconds retry) in
  let h : gmap string string := {[ "Retry-After" := Itoa secs ]} in
  if String.eqb path "/ui/signin" then
    {| rs_Status := 429;
       rs_Header := <["Content-Security-Policy" := limit_csp]> (<["Cache-Control" := "no-store"]>
                      (<["Content-Type" := "text/html; charset=utf-8"]> h));
       rs_Body := Raw (bytes limit_page) |}
  else WriteError CodeRateLimited "Too many requests." [("retry_after_s", DInt secs)] h.

Definition limiter_key (remoteAddr : string) : string := default remoteAddr (SplitHost remoteAddr).

(** A request served at [now]: the handler behind the limiter runs, or the
    limiter answers. *)
Definition limiter_Middleware {T} (write : Response -> T) (now : Z) (next : Incoming -> T) (r : Incoming)
    (rl : RateLimiter) : T * RateLimiter :=
  let '(ok, retry, rl') := allow now (limiter_key (RemoteAddr (in_Creds r))) rl in
  (if ok : bool then next r else write (too_many (in_Path r) retry), rl').
End limiter.

(** ** Small integers in floating point

    A positive integer of at most 53 binary digits, and [one], as they are kept. *)
Notation dig p := (Z.pos (digits2_pos p)).
Definition shl (j : nat) (p : positive) : positive := Nat.iter j xO p.
Definition canon (p : positive) : float64 :=
  S754_finite false (shl (53 - Pos.to_nat (digits2_pos p)) p) (dig p - 53).

Lemma shl_value j p : Z.pos (shl j p) = Z.pos p * 2 ^ Z.of_nat j.
Proof.
  unfold shl. induction j as [|j IH]; [simpl; lia|].
  change (Nat.iter (S j) xO p) with (xO (Nat.iter j xO p)).
  rewrite Pos2Z.inj_xO, IH, Nat2Z.inj_succ, Z.pow_succ_r by lia. lia.
Qed.

Lemma shl_add i j p : shl i (shl j p) = shl (i + j) p.
Proof. unfold shl. by rewrite Nat.iter_add. Qed.

Lemma shl_digits j p : dig (shl j p) = dig p + Z.of_nat j.
Proof.
  unfold shl. induction j as [|j IH]; [simpl; lia|].
  change (digits2_pos (Nat.iter (S j) xO p)) with (Pos.succ (digits2_pos (Nat.iter j xO p))). lia.
Qed.

Lemma dig_bounds p : 2 ^ (dig p - 1) <= Z.pos p < 2 ^ dig p.
Proof.
  induction p as [p IH|p IH|]; [| |done];
    cbn [digits2_pos]; rewrite Pos2Z.inj_succ, Z.pow_succ_r by lia;
    replace (Z.succ (dig p) - 1) with (Z.succ (dig p - 1)) by lia; rewrite Z.pow_succ_r by lia; lia.
Qed.

Lemma dig_small p k : 0 <= k -> Z.pos p < 2 ^ k -> dig p <= k.
Proof.
  intros Hk Hp. destruct (dig_bounds p) as [Hl _].
  assert (2 ^ (dig p - 1) < 2 ^ k) as Hlt%Z.pow_lt_mono_r_iff by lia; lia.
Qed.

Lemma dig_mono p q : Z.pos p <= Z.pos q -> dig p <= dig q.
Proof. intros Hpq. apply dig_small; [lia|]. pose proof (dig_bounds q). lia. Qed.

Lemma pos_iter_shl n p : Pos.iter xO p n = shl (Pos.to_nat n) p.
Proof. unfold shl. apply Pos2Nat.inj_iter. Qed.

Lemma iter_pos_nat {A} (f : A -> A) (n : positive) (x : A) : SpecFloat.iter_pos f n x = Nat.iter (Pos.to_nat n) f x.
Proof.
  revert x. induction n as [n IH|n IH|]; intros x; cbn [SpecFloat.iter_pos]; [| |done]; rewrite !IH.
  - rewrite Pos2Nat.inj_xI, <- Nat.iter_add, <- Nat.iter_succ_r. f_equal. lia.
  - rewrite Pos2Nat.inj_xO, <- Nat.iter_add. f_equal. lia.
Qed.

Definition exact (m : Z) : shr_record := {| shr_m := m; shr_r := false; shr_s := false |}.

Lemma shr_shl j p : Nat.iter j shr_1 (exact (Z.pos (shl j p))) = exact (Z.pos p).
Proof. induction j as [|j IH]; [done|]. rewrite Nat.iter_succ_r. exact IH. Qed.

(** Shifting out zeros loses nothing. *)
Lemma shr_exact j p e n : n = Z.of_nat j -> shr (exact (Z.pos (shl j p))) e n = (exact (Z.pos p), e + n).
Proof.
  intros ->. destruct j as [|j]; [by rewrite Z.add_0_r|]. unfold shr. change (Z.of_nat (S j)) with (Z.pos (Pos.of_succ_nat j)).
  cbv iota. rewrite iter_pos_nat, SuccNat2Pos.id_succ. by rewrite (shr_shl (S j)).
Qed.

Lemma fexp_canon d : 0 <= d -> fexp 53 1024 d = d - 53.
Proof. unfold fexp, emin. lia. Qed.

Lemma aux_canon p j e : dig p <= 53 -> e = dig p - 53 - Z.of_nat j ->
  binary_round_aux 53 1024 false (Z.pos (shl (j + (53 - Pos.to_nat (digits2_pos p))) p)) e loc_Exact = canon p.
Proof.
  intros Hd ->. set (k := (53 - Pos.to_nat (digits2_pos p))%nat). set (m := shl k p).
  assert (Hm : dig m = 53) by (subst m k; rewrite shl_digits; lia).
  unfold binary_round_aux, shr_fexp. cbn [Zdigits2]. rewrite <- shl_add. fold m.
  rewrite shl_digits, Hm, fexp_canon by lia.
  rewrite (shr_exact j m) by lia. cbn [shr_m exact loc_of_shr_record round_nearest_even Zdigits2].
  rewrite Hm, fexp_canon by lia. change (shr_record_of_loc (Z.pos m) loc_Exact) with (exact (Z.pos (shl 0 m))).
  rewrite (shr_exact 0 m) by lia. cbn [shr_m exact].
  rewrite (proj2 (Z.leb_le _ _)) by lia. unfold canon. f_equal. lia.
Qed.

Lemma round_canon j p : dig p <= 53 -> binary_round 53 1024 false (shl j p) (- Z.of_nat j) = canon p.
Proof.
  intros Hd. unfold binary_round, shl_align. rewrite shl_digits.
  rewrite fexp_canon by lia. set (k := (53 - Pos.to_nat (digits2_pos p))%nat).
  destruct (dig p + Z.of_nat j + - Z.of_nat j - 53 - - Z.of_nat j) as [|n|n] eqn:En.
  - replace j with (0 + k)%nat by lia. apply aux_canon; lia.
  - replace j with ((j - k) + k)%nat at 1 by lia. apply aux_canon; lia.
  - rewrite pos_iter_shl, shl_add. replace (Pos.to_nat n + j)%nat with (0 + k)%nat by lia. apply aux_canon; lia.
Qed.

Lemma of_pos p : dig p <= 53 -> f64_of_Z (Z.pos p) = canon p.
Proof. intros Hd. exact (round_canon 0 p Hd). Qed.

Lemma small_digits p : Z.pos p < 2 ^ 53 -> dig p <= 53.
Proof. by apply dig_small. Qed.

(** Taking a token from a whole number of them. *)
Lemma sub_one m : 0 < m < 2 ^ 53 -> f64_sub (f64_of_Z m) one = f64_of_Z (m - 1).
Proof.
  intros Hm. destruct m as [|p|p]; [lia| |lia]. rewrite of_pos by (apply small_digits; lia).
  change one with (canon 1). unfold f64_sub, canon. cbn [SFsub].
  set (k := (53 - Pos.to_nat (digits2_pos p))%nat). pose proof (small_digits p ltac:(lia)) as Hd.
  replace (Z.min (dig p - 53) (dig 1 - 53)) with (-52) by (cbn [digits2_pos]; lia).
  assert (Hx : fst (shl_align (shl k p) (dig p - 53) (-52)) = shl 52 p).
  { unfold shl_align. destruct (-52 - (dig p - 53)) as [|n|n] eqn:En.
    - cbn [fst]. f_equal. lia.
    - lia.
    - cbn [fst]. rewrite pos_iter_shl, shl_add. f_equal. lia. }
  rewrite Hx. change (fst (shl_align _ (dig 1 - 53) (-52))) with (shl 52 1). cbn [cond_Zopp].
  rewrite !shl_value.
  destruct (Z.pos p - 1) as [|r|r] eqn:Er; [| |lia].
  - replace (Z.pos p * 2 ^ Z.of_nat 52 - 1 * 2 ^ Z.of_nat 52) with 0 by nia. done.
  - replace (Z.pos p * 2 ^ Z.of_nat 52 - 1 * 2 ^ Z.of_nat 52) with (Z.pos (shl 52 r)) by (rewrite shl_value; nia).
    cbn [binary_normalize]. rewrite of_pos by (apply small_digits; lia).
    apply (round_canon 52). apply small_digits. lia.
Qed.

(** *** Comparisons *)
Lemma one_leb m : 0 <= m < 2 ^ 53 -> f64_leb one (f64_of_Z m) = (1 <=? m).
Proof.
  intros Hm. destruct m as [|p|p]; [done| |lia]. rewrite of_pos by (apply small_digits; lia).
  change one with (S754_finite false (2 ^ 52) (-52)). unfold canon, f64_leb, SFleb, SFcompare.
  pose proof (small_digits p ltac:(lia)) as Hd. symmetry. rewrite (proj2 (Z.leb_le 1 _)) by lia.
  destruct (Z.compare_spec (-52) (dig p - 53)) as [E|E|E]; [|done|lia].
  assert (Hp : Z.pos p < 2 ^ 1) by (destruct (dig_bounds p) as [_ Hu]; by replace (dig p) with 1 in Hu by lia).
  assert (p = 1%positive) as -> by lia. done.
Qed.

Lemma burst_not_exceeded n m : 0 <= m <= n -> n < 2 ^ 53 -> f64_ltb (f64_of_Z n) (f64_of_Z m) = false.
Proof.
  intros Hm Hn. destruct n as [|q|q]; [by assert (m = 0) as -> by lia| |lia].
  rewrite (of_pos q) by (apply small_digits; lia).
  destruct m as [|p|p]; [done| |lia]. rewrite of_pos by (apply small_digits; lia).
  unfold canon, f64_ltb, SFltb, SFcompare. pose proof (dig_mono p q ltac:(lia)) as Hd.
  destruct (Z.compare_spec (dig q - 53) (dig p - 53)) as [E|E|E]; [|lia|done].
  assert (Hpq : Z.pos (shl (53 - Pos.to_nat (digits2_pos p)) p) <= Z.pos (shl (53 - Pos.to_nat (digits2_pos q)) q)).
  { rewrite !shl_value. replace (digits2_pos p) with (digits2_pos q) by lia. nia. }
  change (Pos.compare_cont Eq ?a ?b) with (Pos.compare a b).
  destruct (Pos.compare_spec (shl (53 - Pos.to_nat (digits2_pos q)) q) (shl (53 - Pos.to_nat (digits2_pos p)) p)); done || lia.
Qed.

(** *** The rate is a finite number *)
Definition tame (f : float64) : Prop := match f with S754_infinity _ | S754_nan => False | _ => True end.

Lemma shr_1_bound r : 0 <= shr_m r -> 0 <= shr_m (shr_1 r) <= shr_m r.
Proof. destruct r as [m r s]. destruct m as [|[p|p|]|[p|p|]]; cbn [shr_1 shr_m]; lia. Qed.

Lemma shr_bound r e n : 0 <= shr_m r -> 0 <= shr_m (shr r e n).1 <= shr_m r /\ (shr r e n).2 = Z.max e (e + n).
Proof.
  intros Hr. destruct n as [|n|n]; cbn [shr fst snd]; [lia| |lia]. split; [|lia].
  rewrite iter_pos_nat. induction (Pos.to_nat n) as [|k IH]; [simpl; lia|].
  change (Nat.iter (S k) shr_1 r) with (shr_1 (Nat.iter k shr_1 r)).
  pose proof (shr_1_bound (Nat.iter k shr_1 r) ltac:(lia)). lia.
Qed.

Lemma digits_le a b k : 0 <= a <= b -> Zdigits2 b <= k -> 0 <= k -> Zdigits2 a <= k.
Proof.
  intros Hab Hk H0. destruct a as [|p|p]; [done| |lia]. destruct b as [|q|q]; [lia| |lia].
  cbn [Zdigits2] in *. pose proof (dig_mono p q ltac:(lia)). lia.
Qed.

Lemma digits_succ a k : 0 <= a -> Zdigits2 a <= k -> 0 <= k -> Zdigits2 (a + 1) <= k + 1.
Proof.
  intros Ha Hk H0. destruct (Z.eqb_spec a 0) as [->|]; [change (Zdigits2 (0 + 1)) with 1; lia|].
  destruct a as [|p|p]; [done| |lia]. change (Z.pos p + 1) with (Z.pos (p + 1)). cbn [Zdigits2] in *.
  apply dig_small; [lia|]. destruct (dig_bounds p) as [_ Hu].
  assert (2 ^ dig p <= 2 ^ k) by (apply Z.pow_le_mono_r; lia).
  replace (k + 1) with (Z.succ k) by lia. rewrite Z.pow_succ_r by lia. lia.
Qed.

Lemma loc_record_m m l : shr_m (shr_record_of_loc m l) = m.
Proof. by destruct l as [|[]]. Qed.

Lemma nearest_bound m l : 0 <= m -> 0 <= round_nearest_even m l <= m + 1.
Proof. intros Hm. destruct l as [|[]]; cbn [round_nearest_even]; try destruct (Z.even m); lia. Qed.

Lemma aux_tame s m e l : 0 <= m -> Zdigits2 m <= 200 -> e <= 100 -> tame (binary_round_aux 53 1024 s m e l).
Proof.
  intros Hm Hd He. unfold binary_round_aux, shr_fexp.
  pose proof (shr_bound (shr_record_of_loc m l) e (fexp 53 1024 (Zdigits2 m + e) - e)) as Hs.
  rewrite loc_record_m in Hs. specialize (Hs Hm). destruct (shr _ _ _) as [r e1]. cbn [fst snd] in Hs.
  destruct Hs as [Hr ->].
  pose proof (nearest_bound (shr_m r) (loc_of_shr_record r) ltac:(lia)) as Hn.
  set (m2 := round_nearest_even _ _) in *.
  assert (Hd2 : Zdigits2 m2 <= 201).
  { apply (digits_le m2 (m + 1)); [lia| |lia]. apply (digits_succ m 200); lia. }
  set (e1 := Z.max e _). assert (He1 : e1 <= 250) by (unfold e1, fexp, emin; lia).
  pose proof (shr_bound (shr_record_of_loc m2 loc_Exact) e1 (fexp 53 1024 (Zdigits2 m2 + e1) - e1)) as Hs.
  rewrite loc_record_m in Hs. specialize (Hs ltac:(lia)). destruct (shr _ _ _) as [r2 e2]. cbn [fst snd] in Hs.
  destruct Hs as [Hr2 ->].
  destruct (shr_m r2) as [|p|p]; [done| |lia].
  rewrite (proj2 (Z.leb_le _ _)); [done|]. unfold fexp, emin. lia.
Qed.

(** Per minute to per second. *)
Lemma rate_tame n : 0 <= n < 2 ^ 53 -> tame (f64_div (f64_of_Z n) (f64_of_Z 60)).
Proof.
  intros Hn. destruct n as [|p|p]; [done| |lia]. rewrite of_pos by (apply small_digits; lia).
  pose proof (small_digits p ltac:(lia)) as Hd.
  change (f64_of_Z 60) with (S754_finite false 8444249301319680 (-47)).
  unfold f64_div, canon. cbn [SFdiv]. unfold SFdiv_core_binary. cbn [Zdigits2].
  set (m1 := shl _ p). assert (Hm1 : dig m1 = 53) by (unfold m1; rewrite shl_digits; lia). rewrite Hm1.
  change (dig 8444249301319680) with 53.
  set (e' := Z.min _ _). assert (He' : -60 <= e' <= 60) by (unfold e', fexp, emin; lia).
  set (s := dig p - 53 - -47 - e'). assert (Hs : s <= 110) by (unfold s; lia).
  assert (Hq : forall a, 0 <= a -> Zdigits2 a <= 200 ->
    let '(q, r) := Z.div_eucl a 8444249301319680 in 0 <= q /\ Zdigits2 q <= 200).
  { intros a Ha Hda. pose proof (Z_div_mod a 8444249301319680 ltac:(lia)) as Hq.
    destruct (Z.div_eucl a _) as [q r]. destruct Hq as [Hq Hr]. split; [nia|].
    apply (digits_le q a); [nia|done|lia]. }
  assert (Hin : forall a, (a = Z.pos m1 \/ a = Z.shiftl (Z.pos m1) s /\ 0 < s \/ a = 0) -> 0 <= a /\ Zdigits2 a <= 200).
  { intros a [->|[[-> H0]| ->]]; [cbn [Zdigits2]; lia| |cbn; lia].
    rewrite Z.shiftl_mul_pow2 by lia. replace s with (Z.of_nat (Z.to_nat s)) by lia.
    rewrite <- shl_value. cbn [Zdigits2]. rewrite shl_digits. lia. }
  set (a := match s with Z.pos _ => _ | 0 => _ | Z.neg _ => _ end).
  destruct (Hin a) as [Ha Hda]; [unfold a; destruct s eqn:Es; [by left|right; left|by right; right]; rewrite <- ?Es; split; [done|lia]|].
  specialize (Hq a Ha Hda). destruct (Z.div_eucl a _) as [q r]. destruct Hq as [Hq Hdq].
  apply aux_tame; [done|done|lia].
Qed.

(** ** The limiter *)
Section facts.
Context `{FC : FloatConversion}.

Lemma Seconds_zero : Seconds 0 = f64_zero.
Proof. vm_compute. reflexivity. Qed.

(** No time, no tokens. *)
Lemma refill_same rl now m n :
  tame (rl_rate rl) -> rl_burst rl = f64_of_Z n -> 0 <= m <= n -> n < 2 ^ 53 ->
  refill rl now {| b_tokens := f64_of_Z m; b_last := now |} = f64_of_Z m.
Proof.
  intros Hr Hb Hm Hn. unfold refill. cbn [b_tokens b_last].
  unfold Sub. rewrite Z.sub_diag. change (Z.max _ _) with 0. rewrite Seconds_zero.
  assert (E : f64_add (f64_of_Z m) (f64_mul f64_zero (rl_rate rl)) = f64_of_Z m).
  { destruct m as [|p|p]; [by destruct (rl_rate rl) as [[]|[]| |[]]| |lia].
    rewrite of_pos by (apply small_digits; lia). by destruct (rl_rate rl) as [[]|[]| |[]]. }
  rewrite E, Hb, burst_not_exceeded by lia. done.
Qed.

(** [c] requests of [key] so far, all at [now]. *)
Definition spent (now n : Z) (rl : RateLimiter) (key : string) (c : Z) : Prop :=
  match rl_buckets rl !! key with
  | None => c = 0
  | Some b => b_last b = now /\ b_tokens b = f64_of_Z (n - Z.min c n)
  end.

Definition set_up (n : Z) (rl : RateLimiter) : Prop := tame (rl_rate rl) /\ rl_burst rl = f64_of_Z n.

Lemma allow_spent now n rl key c :
  0 <= n < 2 ^ 53 -> 0 <= c -> set_up n rl -> spent now n rl key c ->
  let '(ok, _, rl') := allow now key rl in
  ok = (c <? n) /\ set_up n rl' /\ spent now n rl' key (c + 1)
  /\ forall k, k <> key -> rl_buckets rl' !! k = rl_buckets rl !! k.
Proof.
  intros Hn Hc [Hr Hb] Hs. unfold allow.
  assert (E : refill rl now (default {| b_tokens := rl_burst rl; b_last := now |} (rl_buckets rl !! key))
              = f64_of_Z (n - Z.min c n)).
  { unfold spent in Hs. destruct (rl_buckets rl !! key) as [[tk la]|]; cbn [default from_option b_last b_tokens] in *.
    - destruct Hs as [-> ->]. apply (refill_same _ _ _ n); try done; lia.
    - subst c. rewrite Hb. replace (n - Z.min 0 n) with n by lia. apply (refill_same _ _ _ n); try done; lia. }
  rewrite E, one_leb by lia.
  destruct (Z.leb_spec 1 (n - Z.min c n)) as [Hl|Hl]; split_and!.
  - symmetry. apply Z.ltb_lt. lia.
  - by split.
  - unfold spent, with_bucket. cbn [rl_buckets]. rewrite lookup_insert_eq. cbn [b_last b_tokens].
    split; [done|]. rewrite sub_one by lia. f_equal. lia.
  - intros k Hk. unfold with_bucket. cbn [rl_buckets]. by rewrite lookup_insert_ne.
  - symmetry. apply Z.ltb_ge. lia.
  - by split.
  - unfold spent, with_bucket. cbn [rl_buckets]. rewrite lookup_insert_eq. cbn [b_last b_tokens].
    split; [done|]. f_equal. lia.
  - intros k Hk. unfold with_bucket. cbn [rl_buckets]. by rewrite lookup_insert_ne.
Qed.

(** Requests of these clients, one after the other, all at [now]. *)
Fixpoint attempts (now : Z) (keys : list string) (rl : RateLimiter) : list bool :=
  match keys with
  | [] => []
  | k :: keys' => let '(ok, _, rl') := allow now k rl in ok :: attempts now keys' rl'
  end.

Definition times (k : string) (l : list string) : Z := Z.of_nat (length (filter (fun x => x = k) l)).

Lemma times_app k l l' : times k (l ++ l') = times k l + times k l'.
Proof. unfold times. rewrite filter_app, length_app. lia. Qed.

Lemma attempts_spent now n keys rl seen :
  0 <= n < 2 ^ 53 -> set_up n rl -> (forall k, spent now n rl k (times k seen)) ->
  attempts now keys rl = imap (fun i k => times k (seen ++ take i keys) <? n) keys.
Proof.
  intros Hn. revert rl seen. induction keys as [|key keys IH]; intros rl seen Hset Hs; [done|].
  cbn [attempts imap]. pose proof (allow_spent now n rl key (times key seen) Hn ltac:(unfold times; lia) Hset (Hs key)) as Ha.
  destruct (allow now key rl) as [[ok retry] rl']. destruct Ha as (-> & Hset' & Hs' & Hk').
  cbn [take]. rewrite app_nil_r. f_equal. rewrite (IH rl' (seen ++ [key])%list Hset').
  - apply imap_ext. intros i k _. unfold compose. cbn [take]. by rewrite <- app_assoc.
  - intros k. rewrite times_app. destruct (decide (k = key)) as [->|Hne].
    + unfold times at 2. rewrite filter_cons, decide_True by done. exact Hs'.
    + unfold times at 2. rewrite filter_cons, decide_False by congruence.
      replace (times k seen + _) with (times k seen) by (cbn; lia).
      unfold spent. rewrite Hk' by done. apply Hs.
Qed.

Lemma NewRateLimiter_set_up n : 0 <= n < 2 ^ 53 -> set_up n (NewRateLimiter n).
Proof. intros Hn. split; [by apply rate_tame|done]. Qed.

(** C40: Exactly the budget.  However the requests of any clients are mixed
    at one instant, a new limiter of [perMinute] lets through the first
    [perMinute] requests of each client and refuses every later one: no
    rounding of the buckets gives a request away or takes one, and no client
    uses up the budget of another. *)
Theorem burst_exact perMinute now keys i key :
  0 <= perMinute < 2 ^ 53 -> keys !! i = Some key ->
  attempts now keys (NewRateLimiter perMinute) !! i = Some (times key (take i keys) <? perMinute).
Proof.
  intros Hn Hi. rewrite (attempts_spent now perMinute keys (NewRateLimiter perMinute) []).
  - by rewrite list_lookup_imap, Hi.
  - done.
  - by apply NewRateLimiter_set_up.
  - intros k. unfold spent. cbn [NewRateLimiter rl_buckets]. by rewrite lookup_empty.
Qed.
End facts.

#[local] Instance amd64 : FloatConversion := {| unrepresentable := fun _ => - 2 ^ 63 |}.

Lemma burst_exact_witness :
  (repeat "peer" 12 !! 10%nat = Some "peer" /\ 0 <= 10 < 2 ^ 53)
  /\ attempts 0 (repeat "peer" 12) (NewRateLimiter 10) !! 10%nat = Some false.
Proof.
  split; [split; [reflexivity|lia]|].
  exact (burst_exact 10 0 (repeat "peer" 12) 10 "peer" ltac:(lia) eq_refl).
Defined.

(** The sign-in limiter: the eleventh attempt is told to wait seven seconds,
    and passes then. *)
Example retry_after_suffices :
  let spent_up := snd (allow 0 "peer" (snd (allow 0 "peer" (snd (allow 0 "peer" (snd (allow 0 "peer" (snd (allow 0 "peer"
    (snd (allow 0 "peer" (snd (allow 0 "peer" (snd (allow 0 "peer" (snd (allow 0 "peer" (snd (allow 0 "peer"
    (NewRateLimiter 10)))))))))))))))))))) in
  fst (allow 0 "peer" spent_up) = (false, 7 * Second)
  /\ fst (allow (7 * Second) "peer" (snd (allow 0 "peer" spent_up))) = (true, 0).
Proof. vm_compute. split; reflexivity. Qed.
