(* ===== verification/Postgres.v ===== *)
(** * The PostgreSQL driver ([internal/store/postgres/postgres.go])

    The tables as the migrations leave them on PostgreSQL, one statement per
    query of the driver, and its operations composed of them, one at a time.
    Time stamps are [TIMESTAMPTZ], to the microsecond; [INTEGER] columns hold
    32 bits; a text that the database's encoding has no place for is refused.
    The folding of case, the order of texts, the next value of the identity
    column and the constraint an [INSERT] reports are the server's. *)
From Stdlib Require Import Ascii String.
From S2P Require Import GoLib Act Domain Base64 Rollup MemStore Sql Sqlite.
Local Open Scope string_scope.
Local Open Scope Z_scope.
Local Open Scope go_scope.

(** ** The schema *)
Record pgUser := {
  pu_id : string;
  pu_email : string;
  pu_password_hash : option string;
  pu_is_admin : bool;
  pu_token_version : Z;
  pu_source : string;
  pu_created_at : Z;
  pu_last_login_at : option Z;
}.

Record pgToken := {
  pt_id : string;
  pt_user_id : string;
  pt_name : string;
  pt_secret_hash : list ascii;
  pt_created_at : Z;
  pt_last_used_at : option Z;
  pt_revoked_at : option Z;
  pt_expires_at : option Z;
}.

Record pgStyling := {
  ps_id : string;
  ps_fg_color : string;
  ps_bg_color : string;
  ps_module_shape : string;
  ps_margin_modules : Z;
  ps_size_px : Z;
  ps_ec_level : string;
  ps_ec_level_effective : string;
  ps_logo_blob_key : option string;
  ps_logo_scale : option float64;
}.

Record pgCode := {
  pc_id : string;
  pc_short_code : string;
  pc_is_alias : bool;
  pc_user_id : string;
  pc_mode : string;
  pc_client_ref : option string;
  pc_destination : string;
  pc_state : string;
  pc_styling_id : string;
  pc_blob_key : string;
  pc_blob_etag : string;
  pc_version : Z;
  pc_created_at : Z;
  pc_updated_at : Z;
  pc_deleted_at : option Z;
}.

Record pgReservation := {
  pr_short_code : string;
  pr_code_id : option string;
  pr_reserved_at : Z;
  pr_released_at : option Z;
}.

Record pgEvent := {
  pe_code_id : string;
  pe_occurred_at : Z;
  pe_ua_family : string;
  pe_device_category : string;
  pe_referrer_host : string;
  pe_is_bot : bool;
}.

(** The events by increasing id; [pg_last] is the greatest id a row was given. *)
Record pgDB := {
  pg_users : gmap string pgUser;
  pg_tokens : gmap string pgToken;
  pg_styling : gmap string pgStyling;
  pg_codes : gmap string pgCode;
  pg_reservations : gmap string pgReservation;
  pg_events : list (Z * pgEvent);
  pg_last : Z;
  pg_rollups : gmap (string * Z * string * string) Z;
}.

Definition empty_pg : pgDB :=
  {| pg_users := ∅; pg_tokens := ∅; pg_styling := ∅; pg_codes := ∅; pg_reservations := ∅;
     pg_events := []; pg_last := 0; pg_rollups := ∅ |}.

Definition set_users t (d : pgDB) : pgDB :=
  {| pg_users := t; pg_tokens := pg_tokens d; pg_styling := pg_styling d; pg_codes := pg_codes d;
     pg_reservations := pg_reservations d; pg_events := pg_events d; pg_last := pg_last d; pg_rollups := pg_rollups d |}.
Definition set_tokens t (d : pgDB) : pgDB :=
  {| pg_users := pg_users d; pg_tokens := t; pg_styling := pg_styling d; pg_codes := pg_codes d;
     pg_reservations := pg_reservations d; pg_events := pg_events d; pg_last := pg_last d; pg_rollups := pg_rollups d |}.
Definition set_styling t (d : pgDB) : pgDB :=
  {| pg_users := pg_users d; pg_tokens := pg_tokens d; pg_styling := t; pg_codes := pg_codes d;
     pg_reservations := pg_reservations d; pg_events := pg_events d; pg_last := pg_last d; pg_rollups := pg_rollups d |}.
Definition set_codes t (d : pgDB) : pgDB :=
  {| pg_users := pg_users d; pg_tokens := pg_tokens d; pg_styling := pg_styling d; pg_codes := t;
     pg_reservations := pg_reservations d; pg_events := pg_events d; pg_last := pg_last d; pg_rollups := pg_rollups d |}.
Definition set_reservations t (d : pgDB) : pgDB :=
  {| pg_users := pg_users d; pg_tokens := pg_tokens d; pg_styling := pg_styling d; pg_codes := pg_codes d;
     pg_reservations := t; pg_events := pg_events d; pg_last := pg_last d; pg_rollups := pg_rollups d |}.
Definition set_events t last (d : pgDB) : pgDB :=
  {| pg_users := pg_users d; pg_tokens := pg_tokens d; pg_styling := pg_styling d; pg_codes := pg_codes d;
     pg_reservations := pg_reservations d; pg_events := t; pg_last := last; pg_rollups := pg_rollups d |}.
Definition set_rollups t (d : pgDB) : pgDB :=
  {| pg_users := pg_users d; pg_tokens := pg_tokens d; pg_styling := pg_styling d; pg_codes := pg_codes d;
     pg_reservations := pg_reservations d; pg_events := pg_events d; pg_last := pg_last d; pg_rollups := t |}.

(** ** The server *)
Class Server := {
  pg_lower : string -> string;                 (* the locale's lower() *)
  pg_ltb : string -> string -> bool;           (* the collation's order *)
  storable : string -> bool;                   (* valid in the database's encoding, no NUL *)
  next_id : Env -> nat -> Z -> Z;              (* of the identity column *)
  report_pg : list dbErr -> dbErr;             (* of the constraints an INSERT violates *)
}.

Definition sqlstateUniqueViolation : string := "23505".
Definition sqlstateFKViolation : string := "23503".
Definition out_of_range : dbErr := PgError "22003" "".
Definition bad_text : dbErr := PgError "22021" "".
Definition not_int4 : dbErr := OtherDb (NewErr "unable to encode: value is out of range for int4").
Definition fk_violation : dbErr := PgError sqlstateFKViolation "".

Definition int4_okb (z : Z) : bool := (- 2 ^ 31 <=? z) && (z <? 2 ^ 31).

(** The error of each uniqueness constraint, by its name. *)
Definition unique_violation (constraint : string) : dbErr := PgError sqlstateUniqueViolation constraint.

Definition live_row (r : pgCode) : bool := negb (String.eqb (pc_state r) CodeDeleted).

Section postgres.
Context `{U : UnicodeTable} `{TF : TimeFormat} `{SV : Server}.

Definition ci_eqb (a b : string) : bool := String.eqb (pg_lower a) (pg_lower b).

Definition pg_users_unique : list (unique pgUser) :=
  [{| u_err := unique_violation "users_pkey"; u_clash := fun r s => String.eqb (pu_id r) (pu_id s) |};
   {| u_err := unique_violation "users_email_ci"; u_clash := fun r s => ci_eqb (pu_email r) (pu_email s) |}].

Definition pg_tokens_unique : list (unique pgToken) :=
  [{| u_err := unique_violation "api_tokens_pkey"; u_clash := fun r s => String.eqb (pt_id r) (pt_id s) |}].

Definition pg_styling_unique : list (unique pgStyling) :=
  [{| u_err := unique_violation "styling_profiles_pkey"; u_clash := fun r s => String.eqb (ps_id r) (ps_id s) |}].

Definition pg_codes_unique : list (unique pgCode) :=
  [{| u_err := unique_violation "codes_pkey"; u_clash := fun r s => String.eqb (pc_id r) (pc_id s) |};
   {| u_err := unique_violation "codes_short_code_ci";
      u_clash := fun r s => live_row r && live_row s && ci_eqb (pc_short_code r) (pc_short_code s) |};
   {| u_err := unique_violation "codes_user_client_ref";
      u_clash := fun r s =>
        match pc_client_ref r, pc_client_ref s with
        | Some a, Some b => String.eqb (pc_user_id r) (pc_user_id s) && String.eqb a b
        | _, _ => false
        end |}].

Definition pg_insert {R} (us : list (unique R)) (fk : bool) (k : string) (r : R) (t : gmap string R)
    : res dbErr (gmap string R) :=
  match violated us r t with
  | [] => if fk then Ok (<[k := r]> t) else Err fk_violation
  | es => Err (report_pg es)
  end.

(** A statement's parameters are encoded and sent before it runs. *)
Definition given {A} (texts : list string) (ints : list Z) (s : pgDB -> res dbErr A) (d : pgDB) : res dbErr A :=
  if negb (forallb int4_okb ints) then Err not_int4
  else if negb (forallb storable texts) then Err bad_text
  else s d.

(** An [UPDATE] whose new values are out of range fails as a whole. *)
Definition pg_update {K} `{Countable K} {R} (P fits : R -> bool) (f : R -> R) (t : gmap K R)
    : res dbErr (Z * gmap K R) :=
  if sql_exists (fun r => P r && negb (fits r)) t then Err out_of_range else Ok (sql_update P f t).

(** ** Error translation *)
Definition translate_as (wrapped : error) (e : dbErr) : error :=
  match e with
  | ErrNoRows => Wrap "postgres" ErrNotFound
  | PgError code constraint =>
      if String.eqb code sqlstateUniqueViolation then
        if String.eqb constraint "codes_short_code_ci" || String.eqb constraint "alias_reservations_pkey"
        then Wrap "postgres" ErrAliasTaken
        else if String.eqb constraint "codes_user_client_ref" then Wrap "postgres" ErrClientRefTaken
        else Wrap "postgres" ErrConflict
      else if String.eqb code sqlstateFKViolation then Wrap "postgres" ErrNotFound
      else wrapped
  | SqliteError _ _ | OtherDb _ => wrapped
  end.

Definition translate (e : dbErr) : error := translate_as (db_error e) e.
Definition notFound (what : string) : error := Wrap ("postgres: " +:+ what) ErrNotFound.
Definition conflict (what : string) : error := Wrap ("postgres: " +:+ what) ErrConflict.

(** ** Value helpers *)
Definition utc (t : Z) : Z := Truncate t Microsecond.
Definition utcPtr (t : option Z) : option Z := utc <$> t.
Definition nullStr (s : string) : option string := if String.eqb s "" then None else Some s.
Definition nullFloat (f : float64) : option float64 := if f64_eqb f f64_zero then None else Some f.
Definition now (env : Env) : Z := utc (time_Now env).
(** The texts of nullable parameters. *)
Definition text_of (s : option string) : list string := option_list s.

(** ** Scanning rows *)
Definition scanUser (r : pgUser) : User :=
  {| user_ID := pu_id r; user_Email := pu_email r; user_PasswordHash := default "" (pu_password_hash r);
     user_IsAdmin := pu_is_admin r; user_TokenVersion := pu_token_version r; user_Source := pu_source r;
     user_CreatedAt := pu_created_at r; user_LastLoginAt := pu_last_login_at r |}.

Definition scanToken (r : pgToken) : APIToken :=
  {| token_ID := pt_id r; token_UserID := pt_user_id r; token_Name := pt_name r;
     token_SecretHash := pt_secret_hash r; token_CreatedAt := pt_created_at r;
     token_LastUsedAt := pt_last_used_at r; token_RevokedAt := pt_revoked_at r;
     token_ExpiresAt := pt_expires_at r |}.

Definition scanCode (p : pgCode * pgStyling) : Code :=
  let '(r, sp) := p in
  {| code_ID := pc_id r; ShortCode := pc_short_code r; IsAlias := pc_is_alias r;
     code_UserID := pc_user_id r; Mode := pc_mode r; ClientRef := default "" (pc_client_ref r);
     Destination := pc_destination r; State := pc_state r;
     code_Styling :=
       {| styling_ID := ps_id sp; FgColor := ps_fg_color sp; BgColor := ps_bg_color sp;
          styling_ModuleShape := ps_module_shape sp; MarginModules := ps_margin_modules sp;
          SizePx := ps_size_px sp; styling_ECLevel := ps_ec_level sp;
          ECLevelEffective := ps_ec_level_effective sp;
          LogoBlobKey := default "" (ps_logo_blob_key sp);
          LogoScale := default f64_zero (ps_logo_scale sp) |};
     BlobKey := pc_blob_key r; BlobETag := pc_blob_etag r; Version := pc_version r;
     code_CreatedAt := pc_created_at r; UpdatedAt := pc_updated_at r; DeletedAt := pc_deleted_at r |}.

(** [codeFrom]. *)
Definition join_profiles (d : pgDB) (rs : list pgCode) : list (pgCode * pgStyling) :=
  omap (fun r => (fun sp => (r, sp)) <$> pg_styling d !! pc_styling_id r) rs.

(** ** Operations *)
Section operations.
Context (env : Env) (fault : nat -> option dbErr).
Notation statement := (statement env fault).
Notation query := (query env fault).
Notation "x <-? m ; k" := (checked translate m (fun x => k))
  (at level 20, m at level 100, k at level 200).

(** [s.withTx] *)
Definition withTx (fn : Act pgDB (result unit)) : Act pgDB (result unit) :=
  transaction env fault (fun e => Wrap "postgres: begin" (db_error e))
    (fun e => translate_as (Wrap "postgres: commit" (db_error e)) e) fn.

(** *** Users *)
Definition user_row (created : Z) (u : User) : pgUser :=
  {| pu_id := user_ID u; pu_email := user_Email u; pu_password_hash := nullStr (user_PasswordHash u);
     pu_is_admin := user_IsAdmin u; pu_token_version := user_TokenVersion u; pu_source := user_Source u;
     pu_created_at := utc created; pu_last_login_at := utcPtr (user_LastLoginAt u) |}.

Definition user_texts (u : User) : list string :=
  (user_ID u :: user_Email u :: user_Source u :: text_of (nullStr (user_PasswordHash u)))%list.

Definition CreateUser (u : User) : Act pgDB (result unit) :=
  if String.eqb (user_ID u) "" || String.eqb (user_Email u) ""
  then mret (Err (NewErr "postgres: user id and email are required"))
  else
    let created := if IsZero (user_CreatedAt u) then now env else user_CreatedAt u in
    _ <-? statement (given (user_texts u) [user_TokenVersion u] (fun d =>
      res_bind (pg_insert pg_users_unique true (user_ID u) (user_row created u) (pg_users d))
        (fun t => Ok (tt, set_users t d))));
    mret (Ok tt).

Definition GetUserByID (id : string) : Act pgDB (result User) :=
  r <-? query (given [id] [] (fun d => query_row (sql_select (fun r => String.eqb (pu_id r) id) (pg_users d))));
  mret (Ok (scanUser r)).

Definition GetUserByEmail (email : string) : Act pgDB (result User) :=
  r <-? query (given [email] [] (fun d => query_row (sql_select (fun r => ci_eqb (pu_email r) email) (pg_users d))));
  mret (Ok (scanUser r)).

Definition bump_row (r : pgUser) : pgUser :=
  {| pu_id := pu_id r; pu_email := pu_email r; pu_password_hash := pu_password_hash r;
     pu_is_admin := pu_is_admin r; pu_token_version := pu_token_version r + 1; pu_source := pu_source r;
     pu_created_at := pu_created_at r; pu_last_login_at := pu_last_login_at r |}.

Definition BumpTokenVersion (userID : string) : Act pgDB (result Z) :=
  v <-? statement (given [userID] [] (fun d =>
    let P r := String.eqb (pu_id r) userID in
    res_bind (pg_update P (fun r => int4_okb (pu_token_version r + 1)) bump_row (pg_users d)) (fun nt =>
    res_bind (query_row (pu_token_version <$> sql_select P nt.2)) (fun v => Ok (v, set_users nt.2 d)))));
  mret (Ok v).

Definition CountUsers : Act pgDB (result Z) :=
  n <-? query (fun d => Ok (sql_count (fun _ => true) (pg_users d))); mret (Ok n).

(** *** Tokens *)
Definition token_row (created : Z) (t : APIToken) : pgToken :=
  {| pt_id := token_ID t; pt_user_id := token_UserID t; pt_name := token_Name t;
     pt_secret_hash := token_SecretHash t; pt_created_at := utc created;
     pt_last_used_at := utcPtr (token_LastUsedAt t); pt_revoked_at := utcPtr (token_RevokedAt t);
     pt_expires_at := utcPtr (token_ExpiresAt t) |}.

Definition CreateToken (t : APIToken) : Act pgDB (result unit) :=
  if String.eqb (token_ID t) "" || String.eqb (token_UserID t) ""
  then mret (Err (NewErr "postgres: token id and user id are required"))
  else
    let created := if IsZero (token_CreatedAt t) then now env else token_CreatedAt t in
    _ <-? statement (given [token_ID t; token_UserID t; token_Name t] [] (fun d =>
      res_bind (pg_insert pg_tokens_unique (references (token_UserID t) (pg_users d))
                  (token_ID t) (token_row created t) (pg_tokens d))
        (fun tb => Ok (tt, set_tokens tb d))));
    mret (Ok tt).

Definition GetTokenByID (id : string) : Act pgDB (result APIToken) :=
  r <-? query (given [id] [] (fun d => query_row (sql_select (fun r => String.eqb (pt_id r) id) (pg_tokens d))));
  mret (Ok (scanToken r)).

Definition pg_tokens_order (a b : pgToken) : bool :=
  lex_less (fun a b => pt_created_at a <? pt_created_at b) (fun a b => pg_ltb (pt_id a) (pt_id b)) a b.

Definition ListTokens (userID : string) : Act pgDB (result (list APIToken)) :=
  rs <-? query (given [userID] [] (fun d =>
    Ok (sort_Slice pg_tokens_order (sql_select (fun r => String.eqb (pt_user_id r) userID) (pg_tokens d)))));
  mret (Ok (scanToken <$> rs)).

Definition set_used_revoked (used revoked : option Z) (r : pgToken) : pgToken :=
  {| pt_id := pt_id r; pt_user_id := pt_user_id r; pt_name := pt_name r; pt_secret_hash := pt_secret_hash r;
     pt_created_at := pt_created_at r; pt_last_used_at := used; pt_revoked_at := revoked;
     pt_expires_at := pt_expires_at r |}.

Definition RevokeToken (id userID : string) : Act pgDB (result unit) :=
  n <-? statement (given [id; userID] [] (fun d =>
    let '(n, t) := sql_update (fun r => String.eqb (pt_id r) id && String.eqb (pt_user_id r) userID)
      (fun r => set_used_revoked (pt_last_used_at r) (Some (default (now env) (pt_revoked_at r))) r) (pg_tokens d) in
    Ok (n, set_tokens t d)));
  mret (if n =? 0 then Err (notFound ("token " +:+ id)) else Ok tt).

Definition TouchTokenLastUsed (id : string) (at_ : Z) : Act pgDB (result unit) :=
  n <-? statement (given [id] [] (fun d =>
    let '(n, t) := sql_update (fun r => String.eqb (pt_id r) id)
      (fun r => set_used_revoked (Some (utc at_)) (pt_revoked_at r) r) (pg_tokens d) in
    Ok (n, set_tokens t d)));
  mret (if n =? 0 then Err (notFound ("token " +:+ id)) else Ok tt).

(** *** Codes

    The Go struct [codeRow] is the SQLite driver's. *)
Definition newCodeRow (off : nat) (c : Code) : result codeRow :=
  if String.eqb (code_ID c) "" || String.eqb (ShortCode c) "" || String.eqb (code_UserID c) ""
  then Err (NewErr "postgres: code id, short code and user id are required")
  else
    let created := if IsZero (code_CreatedAt c) then now env else code_CreatedAt c in
    Ok {| cr_c := c; cr_shortCode := ToLower (ShortCode c); cr_created := created;
          cr_updated := if IsZero (UpdatedAt c) then created else UpdatedAt c;
          cr_state := if String.eqb (State c) "" then CodeActive else State c;
          cr_mode := if String.eqb (Mode c) "" then ModeDynamic else Mode c;
          cr_styling := if String.eqb (styling_ID (code_Styling c)) ""
                        then set_styling_ID (NewID (rand_byte env) off "sty") (code_Styling c)
                        else code_Styling c |}.

Fixpoint new_rows (off : nat) (cs : list Code) : result (list codeRow) :=
  match cs with
  | [] => Ok []
  | c :: cs' =>
      res_bind (newCodeRow off c) (fun r =>
      res_bind (new_rows (off + styling_draws c) cs') (fun rs => Ok (r :: rs)))
  end.

Definition reflect (r : codeRow) : Code :=
  let c := cr_c r in
  {| code_ID := code_ID c; ShortCode := cr_shortCode r; IsAlias := IsAlias c;
     code_UserID := code_UserID c; Mode := cr_mode r; ClientRef := ClientRef c;
     Destination := Destination c; State := cr_state r; code_Styling := cr_styling r;
     BlobKey := BlobKey c; BlobETag := BlobETag c; Version := 1;
     code_CreatedAt := utc (cr_created r); UpdatedAt := utc (cr_updated r); DeletedAt := None |}.

Definition styling_row (s : Styling) : pgStyling :=
  {| ps_id := styling_ID s; ps_fg_color := FgColor s; ps_bg_color := BgColor s;
     ps_module_shape := styling_ModuleShape s; ps_margin_modules := MarginModules s;
     ps_size_px := SizePx s; ps_ec_level := styling_ECLevel s;
     ps_ec_level_effective := ECLevelEffective s; ps_logo_blob_key := nullStr (LogoBlobKey s);
     ps_logo_scale := nullFloat (LogoScale s) |}.

Definition codes_row (r : codeRow) : pgCode :=
  let c := cr_c r in
  {| pc_id := code_ID c; pc_short_code := cr_shortCode r; pc_is_alias := IsAlias c;
     pc_user_id := code_UserID c; pc_mode := cr_mode r; pc_client_ref := nullStr (ClientRef c);
     pc_destination := Destination c; pc_state := cr_state r; pc_styling_id := styling_ID (cr_styling r);
     pc_blob_key := BlobKey c; pc_blob_etag := BlobETag c; pc_version := 1;
     pc_created_at := utc (cr_created r); pc_updated_at := utc (cr_updated r); pc_deleted_at := None |}.

Definition styling_texts (s : Styling) : list string :=
  ([styling_ID s; FgColor s; BgColor s; styling_ModuleShape s; styling_ECLevel s; ECLevelEffective s]
   ++ text_of (nullStr (LogoBlobKey s)))%list.

Definition insert_styling (s : Styling) : pgDB -> res dbErr (unit * pgDB) :=
  given (styling_texts s) [MarginModules s; SizePx s] (fun d =>
    res_bind (pg_insert pg_styling_unique true (styling_ID s) (styling_row s) (pg_styling d))
      (fun t => Ok (tt, set_styling t d))).

Definition code_texts (r : codeRow) : list string :=
  let c := cr_c r in
  ([cr_shortCode r; code_ID c; code_UserID c; cr_mode r; Destination c; cr_state r;
    styling_ID (cr_styling r); BlobKey c; BlobETag c] ++ text_of (nullStr (ClientRef c)))%list.

Definition insert_code_row (r : codeRow) : pgDB -> res dbErr (unit * pgDB) :=
  given (code_texts r) [] (fun d =>
    let row := codes_row r in
    res_bind (pg_insert pg_codes_unique
                (references (pc_user_id row) (pg_users d) && references (pc_styling_id row) (pg_styling d))
                (pc_id row) row (pg_codes d))
      (fun t => Ok (tt, set_codes t d))).

Definition reserve (r : codeRow) : pgDB -> res dbErr (Z * pgDB) :=
  given [cr_shortCode r; code_ID (cr_c r)] [] (fun d =>
    let key := cr_shortCode r in
    let row := {| pr_short_code := key; pr_code_id := Some (code_ID (cr_c r));
                  pr_reserved_at := now env; pr_released_at := None |} in
    match pg_reservations d !! key with
    | Some old =>
        match pr_released_at old with
        | Some _ => Ok (1, set_reservations (<[key := row]> (pg_reservations d)) d)
        | None => Ok (0, d)
        end
    | None =>
        if references (code_ID (cr_c r)) (pg_codes d)
        then Ok (1, set_reservations (<[key := row]> (pg_reservations d)) d)
        else Err fk_violation
    end).

Definition insertCode (r : codeRow) : Act pgDB (result unit) :=
  _ <-? statement (insert_styling (cr_styling r));
  _ <-? statement (insert_code_row r);
  n <-? statement (reserve r);
  mret (if n =? 0 then Err (Wrap "postgres: short code reserved" ErrAliasTaken) else Ok tt).

Fixpoint insert_codes (rs : list codeRow) : Act pgDB (result unit) :=
  match rs with
  | [] => mret (Ok tt)
  | r :: rs' => _ <-! insertCode r; insert_codes rs'
  end.

Definition CreateCodes (cs : list Code) : Act pgDB (result (list Code)) :=
  match cs with
  | [] => mret (Ok [])
  | _ =>
      match new_rows 0 cs with
      | Err e => mret (Err e)
      | Ok rows => _ <-! withTx (insert_codes rows); mret (Ok (reflect <$> rows))
      end
  end.

Definition CreateCode (c : Code) : Act pgDB (result Code) :=
  out <-! CreateCodes [c]; mret (Ok (default c (head out))).

Definition pg_shortcode_order (a b : pgCode) : bool :=
  lex_less (fun a b => live_row a && negb (live_row b)) (fun a b => pc_created_at b <? pc_created_at a) a b.

Definition by_short_code (sc : string) (d : pgDB) : list (pgCode * pgStyling) :=
  let holder :=
    match pg_reservations d !! pg_lower sc with
    | Some r => match pr_released_at r with None => pr_code_id r | Some _ => None end
    | None => None
    end in
  let P r := ci_eqb (pc_short_code r) sc
             && (live_row r || match holder with Some id => String.eqb (pc_id r) id | None => false end) in
  take 1 (sort_Slice (fun a b => pg_shortcode_order a.1 b.1) (join_profiles d (sql_select P (pg_codes d)))).

Definition GetCodeByShortCode (sc : string) : Act pgDB (result Code) :=
  r <-? query (given [sc] [] (fun d => query_row (by_short_code sc d)));
  mret (Ok (scanCode r)).

Definition GetCodeByID (id userID : string) : Act pgDB (result Code) :=
  r <-? query (given [id; userID] [] (fun d => query_row (join_profiles d
         (sql_select (fun r => String.eqb (pc_id r) id && String.eqb (pc_user_id r) userID) (pg_codes d)))));
  mret (Ok (scanCode r)).

Definition GetCodeByClientRef (userID ref : string) : Act pgDB (result Code) :=
  if String.eqb ref "" then mret (Err (notFound "client_ref"))
  else
    r <-? query (given [userID; ref] [] (fun d => query_row (join_profiles d
           (sql_select (fun r => String.eqb (pc_user_id r) userID
                                 && bool_decide (pc_client_ref r = Some ref)) (pg_codes d)))));
    mret (Ok (scanCode r)).

(** *** Listing *)
Definition encodeCursor (p : cursorPos) : string :=
  EncodeToString alphabet_url (bytes (Format_RFC3339Nano (cp_createdAt p) +:+ String "000" (cp_id p))).

Definition decodeCursor (s : string) : result cursorPos :=
  match DecodeString alphabet_url s with
  | None => Err (Wrap "postgres: invalid cursor" (NewErr "base64"))
  | Some raw =>
      let '(ts, id, ok) := CutByte (of_bytes raw) "000" in
      if negb ok || String.eqb id "" then Err (NewErr "postgres: invalid cursor")
      else match Parse_RFC3339Nano ts with
      | None => Err (Wrap "postgres: invalid cursor" (NewErr "time"))
      | Some t => Ok {| cp_createdAt := t; cp_id := id |}
      end
  end.

Definition pg_codes_order (a b : pgCode) : bool :=
  lex_less (fun a b => pc_created_at b <? pc_created_at a) (fun a b => pg_ltb (pc_id b) (pc_id a)) a b.

(** A [TIMESTAMPTZ] parameter keeps the microseconds. *)
Definition pg_list_where (f : CodeFilter) (after : option cursorPos) (r : pgCode) : bool :=
  String.eqb (pc_user_id r) (f_UserID f) && live_row r
  && from_option (fun t => utc t <? pc_created_at r) true (CreatedAfter f)
  && from_option (fun t => pc_created_at r <? utc t) true (CreatedBefore f)
  && (String.eqb (f_Destination f) ""
      || Contains (pg_lower (pc_destination r)) (pg_lower (f_Destination f)))
  && from_option (fun p =>
       let ts := utc (cp_createdAt p) in
       (pc_created_at r <? ts) || ((pc_created_at r =? ts) && pg_ltb (pc_id r) (cp_id p))) true after.

Definition ListCodes (f : CodeFilter) : Act pgDB (result (list Code * string)) :=
  let limit := page_limit f in
  match (if String.eqb (Cursor f) "" then Ok None
         else res_bind (decodeCursor (Cursor f)) (fun p => Ok (Some p))) with
  | Err e => mret (Err e)
  | Ok after =>
      rs <-? query (given (f_UserID f :: f_Destination f :: text_of (cp_id <$> after)) [] (fun d =>
             Ok (take (limit + 1)
               (sort_Slice (fun a b => pg_codes_order a.1 b.1)
                  (join_profiles d (sql_select (pg_list_where f after) (pg_codes d)))))));
      let out := scanCode <$> rs in
      mret (if bool_decide (limit < length out)%nat then
              let page := take limit out in
              Ok (page, from_option (fun c => encodeCursor
                          {| cp_createdAt := code_CreatedAt c; cp_id := code_ID c |}) "" (last page))
            else Ok (out, ""))
  end.

(** *** Mutations of one code *)
Definition ownedExists (id userID : string) : Act pgDB (result bool) :=
  r ← query (given [id; userID] [] (fun d => query_row
        (sql_select (fun r => String.eqb (pc_id r) id && String.eqb (pc_user_id r) userID) (pg_codes d))));
  mret match r with
       | Ok _ => Ok true
       | Err ErrNoRows => Ok false
       | Err e => Err (translate e)
       end.

Definition set_code_row (dest state : string) (updated : Z) (deleted : option Z) (r : pgCode) : pgCode :=
  {| pc_id := pc_id r; pc_short_code := pc_short_code r; pc_is_alias := pc_is_alias r;
     pc_user_id := pc_user_id r; pc_mode := pc_mode r; pc_client_ref := pc_client_ref r;
     pc_destination := dest; pc_state := state; pc_styling_id := pc_styling_id r;
     pc_blob_key := pc_blob_key r; pc_blob_etag := pc_blob_etag r; pc_version := pc_version r + 1;
     pc_created_at := pc_created_at r; pc_updated_at := updated; pc_deleted_at := deleted |}.

Definition update_codes (P : pgCode -> bool) (f : pgCode -> pgCode) (d : pgDB) : res dbErr (Z * pgDB) :=
  res_bind (pg_update P (fun r => int4_okb (pc_version r + 1)) f (pg_codes d))
    (fun nt => Ok (nt.1, set_codes nt.2 d)).

Definition when_owned (id userID : string) (present : result unit) : Act pgDB (result unit) :=
  exists_ <-! ownedExists id userID;
  mret (if negb exists_ then Err (notFound ("code " +:+ id)) else present).

Definition UpdateDestination (id userID dest : string) (expectedVersion : Z) : Act pgDB (result unit) :=
  withTx (
    n <-? statement (given [dest; id; userID] [expectedVersion] (update_codes
            (fun r => String.eqb (pc_id r) id && String.eqb (pc_user_id r) userID
                      && (pc_version r =? expectedVersion) && live_row r)
            (fun r => set_code_row dest (pc_state r) (now env) (pc_deleted_at r) r)));
    if n =? 1 then mret (Ok tt)
    else when_owned id userID (Err (conflict ("code " +:+ id +:+ " version mismatch or deleted")))).

Definition SetCodeState (id userID : string) (state : CodeState) : Act pgDB (result unit) :=
  if String.eqb state CodeActive || String.eqb state CodeDisabled then
    withTx (
      n <-? statement (given [state; id; userID] [] (update_codes
              (fun r => String.eqb (pc_id r) id && String.eqb (pc_user_id r) userID && live_row r)
              (fun r => set_code_row (pc_destination r) state (now env) (pc_deleted_at r) r)));
      if n =? 1 then mret (Ok tt)
      else when_owned id userID (Err (conflict ("code " +:+ id +:+ " is deleted"))))
  else if String.eqb state CodeDeleted then mret (Err (NewErr "postgres: use DeleteCode to delete"))
  else mret (Err (NewErr "postgres: unknown state")).

Definition DeleteCode (id userID : string) : Act pgDB (result unit) :=
  withTx (
    let ts := now env in
    n <-? statement (given [id; userID] [] (update_codes
            (fun r => String.eqb (pc_id r) id && String.eqb (pc_user_id r) userID && live_row r)
            (fun r => set_code_row (pc_destination r) CodeDeleted ts (Some ts) r)));
    if n =? 1 then mret (Ok tt) else when_owned id userID (Ok tt)).

(** *** Aliases *)
Definition live_as (sc : string) (r : pgCode) : bool := ci_eqb (pc_short_code r) sc && live_row r.
Definition held_as (key : string) (r : pgReservation) : bool :=
  String.eqb (pr_short_code r) key && bool_decide (pr_released_at r = None).

Definition IsAliasAvailable (sc : string) : Act pgDB (result bool) :=
  n <-? query (given [sc] [] (fun d =>
    Ok (sql_count (live_as sc) (pg_codes d) + sql_count (held_as (pg_lower sc)) (pg_reservations d))));
  mret (Ok (n =? 0)).

Definition release_row (at_ : Z) (r : pgReservation) : pgReservation :=
  {| pr_short_code := pr_short_code r; pr_code_id := pr_code_id r;
     pr_reserved_at := pr_reserved_at r; pr_released_at := Some at_ |}.

(** [SELECT ... FOR UPDATE] locks the row; operations run one at a time here. *)
Definition ReleaseAlias (sc : string) : Act pgDB (result unit) :=
  let key := ToLower sc in
  withTx (
    held ← query (given [key] [] (fun d => query_row (sql_select (held_as key) (pg_reservations d))));
    match held with
    | Err ErrNoRows => mret (Err (notFound ("alias " +:+ key +:+ " not reserved")))
    | Err e => mret (Err (translate e))
    | Ok _ =>
        live <-? query (given [key] [] (fun d => Ok (sql_count (live_as key) (pg_codes d))));
        if 0 <? live then mret (Err (conflict ("alias " +:+ key +:+ " owned by live code")))
        else
          _ <-? statement (given [key] [] (fun d =>
            let '(n, t) := sql_update (held_as key) (release_row (now env)) (pg_reservations d) in
            Ok (n, set_reservations t d)));
          mret (Ok tt)
    end).

(** *** Analytics *)
Definition malformed_event (ev : ScanEvent) : bool := String.eqb (ev_CodeID ev) "" || IsZero (OccurredAt ev).
Definition malformed_rollup (r : RollupDelta) : bool :=
  String.eqb (rd_CodeID r) "" || String.eqb (rd_Dimension r) "" || IsZero (HourBucket r).

Definition event_row (ev : ScanEvent) : pgEvent :=
  {| pe_code_id := ev_CodeID ev; pe_occurred_at := utc (OccurredAt ev); pe_ua_family := UAFamily ev;
     pe_device_category := ev_DeviceCategory ev; pe_referrer_host := ReferrerHost ev; pe_is_bot := IsBot ev |}.

(** [k] tells the executions of the statement apart: each is given an id above
    every earlier one, not always the next. *)
Definition insert_event (k : nat) (ev : ScanEvent) : pgDB -> res dbErr (unit * pgDB) :=
  given [ev_CodeID ev; UAFamily ev; ev_DeviceCategory ev; ReferrerHost ev] [] (fun d =>
    if references (ev_CodeID ev) (pg_codes d)
    then let id := next_id env k (pg_last d) in Ok (tt, set_events (pg_events d ++ [(id, event_row ev)])%list id d)
    else Err fk_violation).

Definition rollup_key (r : RollupDelta) : string * Z * string * string :=
  (rd_CodeID r, utc (Truncate (HourBucket r) Hour), rd_Dimension r, rd_Value r).

Definition upsert_rollup (k : nat) (r : RollupDelta) : pgDB -> res dbErr (unit * pgDB) :=
  given [rd_CodeID r; rd_Dimension r; rd_Value r] [rd_Count r] (fun d =>
    match pg_rollups d !! rollup_key r with
    | Some n =>
        if int4_okb (n + rd_Count r)
        then Ok (tt, set_rollups (<[rollup_key r := n + rd_Count r]> (pg_rollups d)) d)
        else Err out_of_range
    | None =>
        if references (rd_CodeID r) (pg_codes d)
        then Ok (tt, set_rollups (<[rollup_key r := rd_Count r]> (pg_rollups d)) d)
        else Err fk_violation
    end).

Fixpoint exec_each {X} (s : nat -> X -> pgDB -> res dbErr (unit * pgDB)) (k : nat) (xs : list X)
    : Act pgDB (result unit) :=
  match xs with
  | [] => mret (Ok tt)
  | x :: xs' => _ <-? statement (s k x); exec_each s (S k) xs'
  end.

Definition prepared {X} (s : nat -> X -> pgDB -> res dbErr (unit * pgDB)) (xs : list X) : Act pgDB (result unit) :=
  match xs with
  | [] => mret (Ok tt)
  | _ => _ <-? query (fun d => Ok tt); exec_each s 0 xs
  end.

Definition InsertScanBatch (b : ScanBatch) : Act pgDB (result unit) :=
  match Events b, Rollups b with
  | [], [] => mret (Ok tt)
  | _, _ =>
      if existsb malformed_event (Events b) then mret (Err (NewErr "postgres: event is malformed"))
      else if existsb malformed_rollup (Rollups b) then mret (Err (NewErr "postgres: rollup is malformed"))
      else withTx (_ <-! prepared insert_event (Events b); prepared upsert_rollup (Rollups b))
  end.

Definition in_window (q : AnalyticsQuery) (p : (string * Z * string * string) * Z) : bool :=
  let '(code, hour, _, _) := p.1 in
  String.eqb code (q_CodeID q) && (utc (q_From q) <=? hour) && (hour <? utc (q_To q)).

Definition add_row (a : aggregator) (p : (string * Z * string * string) * Z) : aggregator :=
  let '(_, hour, dim, value) := p.1 in add a hour dim value p.2.

Definition QueryAnalytics (q : AnalyticsQuery) : Act pgDB (result AnalyticsResult) :=
  let bucket := if String.eqb (q_Bucket q) "" then BucketDay else q_Bucket q in
  rows <-? query (given [q_CodeID q] [] (fun d =>
            Ok (filter (fun p => in_window q p = true) (map_to_list (pg_rollups d)))));
  mret (Ok (agg_result (foldl add_row (newAggregator bucket) rows))).

Definition pg_events_order (a b : Z * pgEvent) : bool :=
  lex_less (fun a b => pe_occurred_at a.2 <? pe_occurred_at b.2) (fun a b => a.1 <? b.1) a b.

Definition prune (before : Z) (limit : Z) (d : pgDB) : res dbErr (Z * pgDB) :=
  let old := sort_Slice pg_events_order (filter (fun p => pe_occurred_at p.2 < before) (pg_events d)) in
  let drop := fst <$> take (Z.to_nat limit) old in
  let kept := filter (fun p => p.1 ∉ drop) (pg_events d) in
  Ok (Z.of_nat (length (pg_events d)) - Z.of_nat (length kept), set_events kept (pg_last d) d).

Definition PruneScanEvents (before limit : Z) : Act pgDB (result Z) :=
  if limit <=? 0 then mret (Ok 0)
  else n <-? statement (prune (utc before) limit); mret (Ok n).

(** *** Bulk iteration *)
Section walkers.
Context {S : Type}.

Fixpoint walk {R A} (scan : R -> A) (fn : A -> S -> Act pgDB (result unit * S)) (rows : list R) (s : S)
    : Act pgDB (result unit * S) :=
  next ← query (fun d => Ok tt);
  match next with
  | Err e => mret (Err (translate e), s)
  | Ok _ =>
      match rows with
      | [] => mret (Ok tt, s)
      | r :: rows' =>
          rs ← fn (scan r) s;
          match rs with
          | (Err e, s') => mret (Err e, s')
          | (Ok _, s') => walk scan fn rows' s'
          end
      end
  end.

Definition for_each {R A} (rows : pgDB -> list R) (scan : R -> A)
    (fn : A -> S -> Act pgDB (result unit * S)) (s : S) : Act pgDB (result unit * S) :=
  rs ← query (fun d => Ok (rows d));
  match rs with
  | Err e => mret (Err (translate e), s)
  | Ok rs => walk scan fn rs s
  end.

Definition pg_users_order (a b : pgUser) : bool :=
  lex_less (fun a b => pu_created_at a <? pu_created_at b) (fun a b => pg_ltb (pu_id a) (pu_id b)) a b.
Definition ForEachUser := for_each (fun d => sort_Slice pg_users_order (rows_of (pg_users d))) scanUser.

Definition pg_codes_walk_order (a b : pgCode * pgStyling) : bool :=
  lex_less (fun a b => pc_created_at a.1 <? pc_created_at b.1) (fun a b => pg_ltb (pc_id a.1) (pc_id b.1)) a b.
Definition ForEachCode :=
  for_each (fun d => sort_Slice pg_codes_walk_order (join_profiles d (rows_of (pg_codes d)))) scanCode.

Definition pg_rollups_order (a b : (string * Z * string * string) * Z) : bool :=
  lex_less (fun a b => pg_ltb a.1.1.1.1 b.1.1.1.1)
    (lex_less (fun a b => a.1.1.1.2 <? b.1.1.1.2)
      (lex_less (fun a b => pg_ltb a.1.1.2 b.1.1.2) (fun a b => pg_ltb a.1.2 b.1.2))) a b.
Definition scanRollup (p : (string * Z * string * string) * Z) : RollupDelta :=
  let '(code, hour, dim, value) := p.1 in
  {| rd_CodeID := code; HourBucket := hour; rd_Dimension := dim; rd_Value := value; rd_Count := p.2 |}.
Definition ForEachRollup :=
  for_each (fun d => sort_Slice pg_rollups_order (map_to_list (pg_rollups d))) scanRollup.

Definition scanReservation (r : pgReservation) : AliasReservation :=
  {| ar_ShortCode := pr_short_code r; ar_CodeID := default "" (pr_code_id r);
     ReservedAt := pr_reserved_at r; ReleasedAt := pr_released_at r |}.
Definition ForEachReservation :=
  for_each (fun d => sort_Slice (fun a b => pg_ltb (pr_short_code a) (pr_short_code b))
                       (rows_of (pg_reservations d))) scanReservation.
End walkers.
End operations.
End postgres.
