(* ===== verification/PostgresRel.v ===== *)
(** * The PostgreSQL driver against the SQLite driver: rows, lookups, updates

    The relation between a PostgreSQL database and a SQLite database that hold
    the same rows, and the simulation by the SQLite driver of what the
    PostgreSQL driver does with users, tokens and codes, insertions apart. *)
From Stdlib Require Import Ascii String.
From S2P Require Import GoLib Act Domain Base64 Rollup MemStore MemStoreFacts Listing Sql Sqlite SqliteRel SqliteCodes SqliteCreate SqliteScans SqliteProps Postgres.
Local Open Scope string_scope.
Local Open Scope Z_scope.
Local Open Scope go_scope.

(** What is assumed of the server: [lower] folds ASCII letters as everybody
    does, the collation is bytewise, identity values increase. *)
Class ServerOk `{SV : Server} : Prop := {
  lower_ascii_pg s : ascii_str s -> pg_lower s = string_map lower_byte s;
  collation_bytes a b : pg_ltb a b = str_ltb a b;
  next_above env k z : z < next_id env k z;
  report_pg_in es : es <> [] -> report_pg es ∈ es;
}.

(** Values agree; errors are related by [E]: by default, they have the same
    sentinels. *)
Definition answers {A} (E : error -> error -> Prop) (r r' : result A) : Prop :=
  match r, r' with
  | Ok a, Ok a' => a = a'
  | Err e, Err e' => E e e'
  | _, _ => False
  end.

Definition same_failure (E : error -> error -> Prop) (e e' : dbErr) : Prop :=
  E (Postgres.translate e) (Sqlite.translate e').

(** Both errors are those of one of the rules. *)
Definition concur (v : list store_sentinel) (e e' : error) : Prop := reports v e /\ reports v e'.

Lemma sort_Slice_Permutation_any {A} (less : A -> A -> bool) l : sort_Slice less l ≡ₚ l.
Proof. apply merge_sort_Permutation. Qed.

(** Sorting images whose comparisons agree on the elements at hand, whatever
    the comparisons are. *)
Lemma sort_Slice_agree {A B} (less : A -> A -> bool) (less' : B -> B -> bool) (g : A -> B) l :
  (forall x y, x ∈ l -> y ∈ l -> less' (g x) (g y) = less x y) ->
  sort_Slice less' (g <$> l) = g <$> sort_Slice less l.
Proof.
  intros Hg.
  assert (Hl : forall k, (forall x, x ∈ k -> x ∈ l) -> exists k' : list {x | x ∈ l}, proj1_sig <$> k' = k).
  { induction k as [|x k IH]; intros Hk; [by exists []|].
    destruct IH as [k' <-]; [intros; by apply Hk, list_elem_of_further|].
    by exists (exist _ x (Hk x (list_elem_of_here _ _)) :: k'). }
  destruct (Hl l (fun _ Hx => Hx)) as [k Ek].
  set (on_sig := fun x y : {x | x ∈ l} => less (proj1_sig x) (proj1_sig y)).
  pose proof (sort_Slice_fmap on_sig less' (fun x => g (proj1_sig x)) (fun x y => Hg _ _ (proj2_sig x) (proj2_sig y)) k) as E1.
  pose proof (sort_Slice_fmap on_sig less proj1_sig (fun _ _ => eq_refl) k) as E2.
  change (fun x : {x | x ∈ l} => g (proj1_sig x)) with (g ∘ proj1_sig (P := fun x => x ∈ l)) in E1.
  rewrite !list_fmap_compose, Ek in E1. rewrite Ek in E2. by rewrite E1, E2.
Qed.

Section sim.
Context `{U : UnicodeTable} `{TF : TimeFormat} {HTF : TimeFormatOk} `{ST : SqlTime} {Hst : SqlTimeOk}.
Context `{SE : SqlEngine} {Hse : SqlEngineOk} `{SV : Server} {HSV : ServerOk}.

(** ** Rows *)
Definition enc_user (r : pgUser) : usersRow :=
  {| users_id := pu_id r; users_email := pu_email r; users_password_hash := pu_password_hash r;
     users_is_admin := b2i (pu_is_admin r); users_token_version := SqlInt (pu_token_version r);
     users_source := pu_source r; users_created_at := fmtTime (pu_created_at r);
     users_last_login_at := fmtTimePtr (pu_last_login_at r) |}.
Definition enc_token (r : pgToken) : apiTokensRow :=
  {| at_id := pt_id r; at_user_id := pt_user_id r; at_name := pt_name r; at_secret_hash := pt_secret_hash r;
     at_created_at := fmtTime (pt_created_at r); at_last_used_at := fmtTimePtr (pt_last_used_at r);
     at_revoked_at := fmtTimePtr (pt_revoked_at r); at_expires_at := fmtTimePtr (pt_expires_at r) |}.
Definition enc_styling (r : pgStyling) : stylingRow :=
  {| sp_id := ps_id r; sp_fg_color := ps_fg_color r; sp_bg_color := ps_bg_color r;
     sp_module_shape := ps_module_shape r; sp_margin_modules := ps_margin_modules r; sp_size_px := ps_size_px r;
     sp_ec_level := ps_ec_level r; sp_ec_level_effective := ps_ec_level_effective r;
     sp_logo_blob_key := ps_logo_blob_key r; sp_logo_scale := bind_real (ps_logo_scale r) |}.
Definition enc_code (r : pgCode) : codesRow :=
  {| c_id := pc_id r; c_short_code := pc_short_code r; c_is_alias := b2i (pc_is_alias r);
     c_user_id := pc_user_id r; c_mode := pc_mode r; c_client_ref := pc_client_ref r;
     c_destination := pc_destination r; c_state := pc_state r; c_styling_id := pc_styling_id r;
     c_blob_key := pc_blob_key r; c_blob_etag := pc_blob_etag r; c_version := SqlInt (pc_version r);
     c_created_at := fmtTime (pc_created_at r); c_updated_at := fmtTime (pc_updated_at r);
     c_deleted_at := fmtTimePtr (pc_deleted_at r) |}.
Definition enc_res (r : pgReservation) : reservationsRow :=
  {| ar_short_code := pr_short_code r; ar_code_id := pr_code_id r;
     ar_reserved_at := fmtTime (pr_reserved_at r); ar_released_at := fmtTimePtr (pr_released_at r) |}.
Definition enc_event (id : Z) (r : pgEvent) : scanEventsRow :=
  {| se_id := id; se_code_id := pe_code_id r; se_occurred_at := fmtTime (pe_occurred_at r);
     se_ua_family := pe_ua_family r; se_device_category := pe_device_category r;
     se_referrer_host := pe_referrer_host r; se_is_bot := b2i (pe_is_bot r) |}.
Definition enc_key (k : string * Z * string * string) : rollupPK :=
  let '(c, h, dm, v) := k in (c, fmtTime h, dm, v).

(** The same events in the same order, under ids of their own: each event with
    its id in SQLite and its id in PostgreSQL. *)
Definition event_pair (x : Z * (Z * pgEvent)) : Z * scanEventsRow := (x.1, enc_event x.1 x.2.2).
Definition same_events (evs : list (Z * pgEvent)) (last : Z) (t : gmap Z scanEventsRow) (seq : Z) : Prop :=
  exists L : list (Z * (Z * pgEvent)),
    L.*2 = evs /\ t = list_to_map (event_pair <$> L)
    /\ StronglySorted Z.lt L.*1 /\ Forall (fun i => i <= seq) L.*1
    /\ StronglySorted Z.lt evs.*1 /\ Forall (fun i => i <= last) evs.*1.

(** What the encodings need of a row. *)
Definition pg_user_ok (r : pgUser) : Prop :=
  micro (pu_created_at r) /\ micro_opt (pu_last_login_at r) /\ ascii_str (pu_email r).
Definition pg_token_ok (r : pgToken) : Prop :=
  micro (pt_created_at r) /\ micro_opt (pt_last_used_at r) /\ micro_opt (pt_revoked_at r) /\ micro_opt (pt_expires_at r).
Definition pg_code_ok (r : pgCode) : Prop :=
  micro (pc_created_at r) /\ micro (pc_updated_at r) /\ micro_opt (pc_deleted_at r) /\ lowered (pc_short_code r) /\ pc_id r <> "".
Definition pg_res_ok (r : pgReservation) : Prop := micro (pr_reserved_at r) /\ micro_opt (pr_released_at r).

Record same_rows (d : pgDB) (s : sqliteDB) : Prop := {
  sr_users : tb_users s = enc_user <$> pg_users d;
  sr_tokens : tb_tokens s = enc_token <$> pg_tokens d;
  sr_styling : tb_styling s = enc_styling <$> pg_styling d;
  sr_codes : tb_codes s = enc_code <$> pg_codes d;
  sr_res : tb_reservations s = enc_res <$> pg_reservations d;
  sr_events : same_events (pg_events d) (pg_last d) (tb_events s) (tb_events_seq s);
  sr_rollups k : micro k.1.1.2 -> tb_rollups s !! enc_key k = SqlInt <$> pg_rollups d !! k;
  sr_keys k n : tb_rollups s !! k = Some n -> exists k', micro k'.1.1.2 /\ k = enc_key k';
  sr_hours k n : pg_rollups d !! k = Some n -> micro k.1.1.2;
  sr_user_ok k r : pg_users d !! k = Some r -> pg_user_ok r;
  sr_token_ok k r : pg_tokens d !! k = Some r -> pg_token_ok r;
  sr_scale k r : pg_styling d !! k = Some r -> bind_real (ps_logo_scale r) = ps_logo_scale r;
  sr_code_ok k r : pg_codes d !! k = Some r -> pg_code_ok r;
  sr_res_ok k r : pg_reservations d !! k = Some r -> pg_res_ok r;
  sr_event_ok p : p ∈ pg_events d -> micro (pe_occurred_at p.2);
}.

Lemma same_rows_empty : same_rows empty_pg empty_db.
Proof.
  split; cbn; try (intros *; rewrite ?lookup_empty, ?fmap_empty; done).
  - exists []. by split_and!; try constructor.
  - intros p Hp. by apply not_elem_of_nil in Hp.
Qed.

(** ** Statements on encoded tables *)
Section encoded.
Context {K : Type} `{Countable K} {R R' : Type} (enc : R -> R') (t : gmap K R).

Lemma select_enc (P : R -> bool) (P' : R' -> bool) :
  (forall k r, t !! k = Some r -> P' (enc r) = P r) -> sql_select P' (enc <$> t) = enc <$> sql_select P t.
Proof.
  intros HP. rewrite select_fmap. unfold sql_select at 1. f_equal. apply filter_ext_on.
  intros r [k Hk]%elem_of_rows. by rewrite (HP k r Hk).
Qed.

Lemma count_enc P P' : (forall k r, t !! k = Some r -> P' (enc r) = P r) -> sql_count P' (enc <$> t) = sql_count P t.
Proof. intros HP. unfold sql_count. by rewrite (select_enc P P' HP), length_fmap. Qed.

Lemma exists_enc P P' : (forall k r, t !! k = Some r -> P' (enc r) = P r) -> sql_exists P' (enc <$> t) = sql_exists P t.
Proof.
  intros HP. apply Bool.eq_iff_eq_true. rewrite !sql_exists_spec. split.
  - intros (k & r' & Hk & Hr). apply lookup_fmap_Some in Hk as (r & <- & Hk). exists k, r. by rewrite <- (HP k r Hk).
  - intros (k & r & Hk & Hr). exists k, (enc r). by rewrite lookup_fmap, Hk, (HP k r Hk).
Qed.

Lemma update_enc P P' f f' :
  (forall k r, t !! k = Some r -> P' (enc r) = P r) ->
  (forall k r, t !! k = Some r -> P r = true -> f' (enc r) = enc (f r)) ->
  sql_update P' f' (enc <$> t) = ((sql_update P f t).1, enc <$> (sql_update P f t).2).
Proof.
  intros HP Hf. unfold sql_update. rewrite (count_enc P P' HP). cbn [fst snd]. f_equal.
  apply map_eq. intros k. rewrite !lookup_fmap. destruct (t !! k) as [r|] eqn:Hk; [|done]. cbn.
  rewrite (HP k r Hk). destruct (P r) eqn:HPr; [by rewrite (Hf k r Hk HPr)|done].
Qed.

Lemma violated_enc (us : list (unique R)) (us' : list (unique R')) r :
  Forall2 (fun u u' => forall k x, t !! k = Some x -> u_clash u' (enc r) (enc x) = u_clash u r x) us us' ->
  violated us r t = [] <-> violated us' (enc r) (enc <$> t) = [].
Proof.
  intros Hu. rewrite violated_nil, violated_fmap, Forall_forall. split.
  - intros Hn u' Hu' k x Hk. apply list_elem_of_lookup in Hu' as [i Hi].
    destruct (Forall2_lookup_r _ _ _ _ _ Hu Hi) as (u & Hui & Hc). rewrite (Hc k x Hk).
    apply (proj1 (sql_exists_false _ _) (Hn u (list_elem_of_lookup_2 _ _ _ Hui)) k x Hk).
  - intros Hn u Hin. apply sql_exists_false. intros k x Hk. apply list_elem_of_lookup in Hin as [i Hi].
    destruct (Forall2_lookup_l _ _ _ _ _ Hu Hi) as (u' & Hui & Hc). rewrite <- (Hc k x Hk).
    by apply (Hn u' (list_elem_of_lookup_2 _ _ _ Hui) k).
Qed.
End encoded.

(** An insertion: it goes in in both, or fails in both with the error of a
    constraint the row violates. *)
Lemma insert_both {R R'} (E : error -> error -> Prop) (enc : R -> R') (us : list (unique R)) (us' : list (unique R'))
    fk k r (t : gmap string R) :
  Forall2 (fun u u' => forall k x, t !! k = Some x -> u_clash u' (enc r) (enc x) = u_clash u r x) us us' ->
  (forall u u', u ∈ us -> u' ∈ us' -> sql_exists (u_clash u r) t = true ->
     sql_exists (u_clash u' (enc r)) (enc <$> t) = true -> same_failure E (u_err u) (u_err u')) ->
  (fk = false -> same_failure E fk_violation (SqliteError SQLITE_CONSTRAINT_FOREIGNKEY "FOREIGN KEY constraint failed")) ->
  match pg_insert us fk k r t, sql_insert us' fk k (enc r) (enc <$> t) with
  | Ok t1, Ok t2 => t1 = <[k := r]> t /\ t2 = enc <$> t1
  | Err e, Err e' => same_failure E e e'
  | _, _ => False
  end.
Proof.
  intros Hu Hk Hfk. pose proof (violated_enc enc t us us' r Hu) as Hv. unfold pg_insert, sql_insert.
  destruct (violated us r t) as [|e es] eqn:E1, (violated us' (enc r) (enc <$> t)) as [|e' es'] eqn:E2.
  - destruct fk; [by rewrite fmap_insert|by apply Hfk].
  - by discriminate (proj1 Hv eq_refl).
  - by discriminate (proj2 Hv eq_refl).
  - assert (H1 : report_pg (e :: es) ∈ violated us r t) by (rewrite E1; by apply report_pg_in).
    assert (H2 : report (e' :: es') ∈ violated us' (enc r) (enc <$> t)) by (rewrite E2; by apply report_in).
    apply clash_named in H1 as (u & Hin & -> & Hc). apply clash_named in H2 as (u' & Hin' & -> & Hc'). by apply Hk.
Qed.

(** The errors of the two drivers for their constraints have the same
    sentinels. *)
Definition unique_kin {R R'} (us : list (unique R)) (us' : list (unique R')) : Prop :=
  Forall (fun u => Forall (fun u' => same_failure same_error (u_err u) (u_err u')) us') us.

(** ** Programs *)
Section programs.
Context (env : Env) (Hctx : ctx_Err env = None) (Hnow : year_ok (time_Now env)).

(** From [d] and [s] the two programs answer alike and leave the same rows. *)
Definition psim {A} (E : error -> error -> Prop) (a : Act pgDB (result A)) (b : Act sqliteDB (result A))
    (d : pgDB) (s : sqliteDB) : Prop :=
  exists r d' r' s', runs a d r d' /\ runs b s r' s' /\ answers E r r' /\ same_rows d' s'.

Lemma psim_ret {A} E (r r' : result A) d s :
  same_rows d s -> answers E r r' -> psim E (mret r) (mret r') d s.
Proof. intros HR Ha. exists r, d, r', s. split_and!; try done; apply runs_return. Qed.

Definition both {X Y} (E : error -> error -> Prop) (f : res dbErr (X * pgDB)) (g : res dbErr (Y * sqliteDB))
    (Q : X -> Y -> pgDB -> sqliteDB -> Prop) : Prop :=
  match f, g with
  | Ok (x, d'), Ok (y, s') => Q x y d' s'
  | Err e, Err e' => same_failure E e e'
  | _, _ => False
  end.

Lemma both_insert_as {R R'} E (enc : R -> R') us us' fk k r (t : gmap string R)
    (put : gmap string R -> pgDB) (put' : gmap string R' -> sqliteDB) (Q : unit -> unit -> pgDB -> sqliteDB -> Prop) :
  Forall2 (fun u u' => forall k x, t !! k = Some x -> u_clash u' (enc r) (enc x) = u_clash u r x) us us' ->
  (forall u u', u ∈ us -> u' ∈ us' -> sql_exists (u_clash u r) t = true ->
     sql_exists (u_clash u' (enc r)) (enc <$> t) = true -> same_failure E (u_err u) (u_err u')) ->
  (fk = false -> same_failure E fk_violation (SqliteError SQLITE_CONSTRAINT_FOREIGNKEY "FOREIGN KEY constraint failed")) ->
  Q tt tt (put (<[k := r]> t)) (put' (enc <$> <[k := r]> t)) ->
  both E (res_bind (pg_insert us fk k r t) (fun t => Ok (tt, put t)))
    (res_bind (sql_insert us' fk k (enc r) (enc <$> t)) (fun t => Ok (tt, put' t))) Q.
Proof.
  intros Hu Hk Hfk HQ. pose proof (insert_both E enc us us' fk k r t Hu Hk Hfk) as Hins.
  destruct (pg_insert _ _ _ _ _) as [t1|e], (sql_insert _ _ _ _ _) as [t2|e']; try done.
  by destruct Hins as [-> ->].
Qed.

Lemma both_insert {R R'} (enc : R -> R') us us' fk k r (t : gmap string R)
    (put : gmap string R -> pgDB) (put' : gmap string R' -> sqliteDB) (Q : unit -> unit -> pgDB -> sqliteDB -> Prop) :
  Forall2 (fun u u' => forall k x, t !! k = Some x -> u_clash u' (enc r) (enc x) = u_clash u r x) us us' ->
  unique_kin us us' -> Q tt tt (put (<[k := r]> t)) (put' (enc <$> <[k := r]> t)) ->
  both same_error (res_bind (pg_insert us fk k r t) (fun t => Ok (tt, put t)))
    (res_bind (sql_insert us' fk k (enc r) (enc <$> t)) (fun t => Ok (tt, put' t))) Q.
Proof.
  intros Hu Hk HQ. apply both_insert_as; [done| |by intros _ []|done].
  intros u u' Hin Hin' _ _. unfold unique_kin in Hk. rewrite Forall_forall in Hk. specialize (Hk u Hin).
  rewrite Forall_forall in Hk. by apply Hk.
Qed.

Lemma psim_statement {X Y A} E (f : pgDB -> res dbErr (X * pgDB)) (g : sqliteDB -> res dbErr (Y * sqliteDB))
    (k : X -> Act pgDB (result A)) (k' : Y -> Act sqliteDB (result A)) d s :
  same_rows d s -> both E (f d) (g s) (fun x y d' s' => psim E (k x) (k' y) d' s') ->
  psim E (checked Postgres.translate (statement env no_fault f) k)
    (checked Sqlite.translate (statement env no_fault g) k') d s.
Proof.
  intros HR Hb. unfold both in Hb. destruct (f d) as [[x d1]|e] eqn:Ef, (g s) as [[y s1]|e'] eqn:Eg; try done.
  - destruct Hb as (r & d' & r' & s' & H1 & H2 & H3 & H4). exists r, d', r', s'. split_and!; try done.
    + eapply runs_checked; [by apply runs_statement_Ok|done].
    + eapply runs_checked; [by apply runs_statement_Ok|done].
  - exists (Err (Postgres.translate e)), d, (Err (Sqlite.translate e')), s. split_and!; try done.
    + by apply runs_checked_Err, runs_statement_Err.
    + by apply runs_checked_Err, runs_statement_Err.
Qed.

Lemma psim_query {X Y A} E (f : pgDB -> res dbErr X) (g : sqliteDB -> res dbErr Y)
    (k : X -> Act pgDB (result A)) (k' : Y -> Act sqliteDB (result A)) d s :
  same_rows d s ->
  match f d, g s with
  | Ok x, Ok y => psim E (k x) (k' y) d s
  | Err e, Err e' => same_failure E e e'
  | _, _ => False
  end ->
  psim E (checked Postgres.translate (query env no_fault f) k)
    (checked Sqlite.translate (query env no_fault g) k') d s.
Proof. intros HR Hq. apply psim_statement; [done|]. unfold both. by destruct (f d), (g s). Qed.

Lemma psim_try {A B} E (a : Act pgDB (result A)) b (k : A -> Act pgDB (result B)) k' d s :
  psim E a b d s -> (forall x d' s', same_rows d' s' -> psim E (k x) (k' x) d' s') ->
  psim E (try a k) (try b k') d s.
Proof.
  intros (r & d1 & r' & s1 & H1 & H2 & H3 & H4) Hk. destruct r as [x|e], r' as [x'|e']; try done.
  - cbn in H3. subst x'. destruct (Hk x d1 s1 H4) as (r & d2 & r' & s2 & H5 & H6 & H7 & H8).
    exists r, d2, r', s2. split_and!; try done; by eapply runs_try.
  - exists (Err e), d1, (Err e'), s1. split_and!; try done; by apply runs_try_Err.
Qed.

Lemma psim_tx E a b d s :
  same_rows d s -> psim E a b d s ->
  psim E (Postgres.withTx env no_fault a) (Sqlite.withTx env no_fault b) d s.
Proof.
  intros HR (r & d1 & r' & s1 & H1 & H2 & H3 & H4). destruct r as [[]|e], r' as [[]|e']; try done.
  - exists (Ok tt), d1, (Ok tt), s1. split_and!; try done; by apply runs_transaction.
  - exists (Err e), d, (Err e'), s. split_and!; try done; by eapply runs_transaction_Err.
Qed.

Lemma given_ok {A} texts ints (f : pgDB -> res dbErr A) d :
  Forall (fun x => storable x = true) texts -> Forall (fun z => int4_okb z = true) ints ->
  given texts ints f d = f d.
Proof.
  intros Ht Hi. unfold given. rewrite (proj2 (forallb_Forall' _ _) Hi), (proj2 (forallb_Forall' _ _) Ht). done.
Qed.

Lemma now_same : Postgres.now env = Sqlite.now env.
Proof. done. Qed.

Lemma fmtTime_utc t : fmtTime (utc t) = fmtTime t.
Proof. apply fmtTime_trunc. Qed.
Lemma fmtTimePtr_utc t : fmtTimePtr (utcPtr t) = fmtTimePtr t.
Proof. apply fmtTimePtr_trunc. Qed.
Lemma micro_utc t : year_ok t -> micro (utc t).
Proof. apply micro_trunc. Qed.
Lemma micro_utcPtr t : stamp_opt t -> micro_opt (utcPtr t).
Proof. apply micro_opt_trunc. Qed.

Lemma ci_nocase a b : ascii_str a -> ascii_str b -> nocase_eqb a b = ci_eqb a b.
Proof. intros Ha Hb. unfold nocase_eqb, ci_eqb, sql_lower. by rewrite !lower_ascii_pg. Qed.

(** A found row, or none in both. *)
Lemma first_row {R R' A} (enc : R -> R') (l : list R) (k : R -> Act pgDB (result A)) (k' : R' -> Act sqliteDB (result A)) d s :
  (forall r, r ∈ l -> psim same_error (k r) (k' (enc r)) d s) ->
  match query_row l, query_row (enc <$> l) with
  | Ok x, Ok y => psim same_error (k x) (k' y) d s
  | Err e, Err e' => same_failure same_error e e'
  | _, _ => False
  end.
Proof.
  intros Hk. destruct l as [|r l]; [by intros []|]. apply Hk, list_elem_of_here.
Qed.

(** ** Users *)
Definition strings_ok (l : list string) : Prop := Forall (fun x => storable x = true) l.

Lemma scan_enc_user r : pg_user_ok r -> Sqlite.scanUser (enc_user r) = Ok (Postgres.scanUser r).
Proof.
  intros (Hc & Hl & _). unfold Sqlite.scanUser. cbn -[parseTime parseTimePtr].
  rewrite parse_fmtTime by done. cbn [res_bind]. rewrite parse_fmtTimePtr by done. cbn [res_bind].
  by rewrite b2i_bool.
Qed.

Lemma in_users d s P r : same_rows d s -> r ∈ sql_select P (pg_users d) -> pg_user_ok r.
Proof. intros HR [_ [k Hk]]%elem_of_select. by apply (sr_user_ok _ _ HR k). Qed.

Lemma scanned_user d s r :
  same_rows d s -> pg_user_ok r -> psim same_error (mret (Ok (Postgres.scanUser r))) (mret (Sqlite.scanUser (enc_user r))) d s.
Proof. intros HR Hr. apply psim_ret; [done|]. by rewrite scan_enc_user. Qed.

Lemma pg_GetUserByID_sim id d s :
  same_rows d s -> strings_ok [id] ->
  psim same_error (Postgres.GetUserByID env no_fault id) (Sqlite.GetUserByID env no_fault id) d s.
Proof.
  intros HR Ht. apply psim_query; [done|]. rewrite given_ok by (done || constructor).
  rewrite (sr_users _ _ HR), (select_enc enc_user _ (fun r => String.eqb (pu_id r) id)) by done.
  apply first_row. intros r Hr. apply scanned_user; [done|]. by eapply in_users.
Qed.

Lemma pg_GetUserByEmail_sim email d s :
  same_rows d s -> strings_ok [email] -> ascii_str email ->
  psim same_error (Postgres.GetUserByEmail env no_fault email) (Sqlite.GetUserByEmail env no_fault email) d s.
Proof.
  intros HR Ht He. apply psim_query; [done|]. rewrite given_ok by (done || constructor).
  rewrite (sr_users _ _ HR), (select_enc enc_user _ (fun r => ci_eqb (pu_email r) email)).
  - apply first_row. intros r Hr. apply scanned_user; [done|]. by eapply in_users.
  - intros k r Hk. apply ci_nocase; [|done]. apply (sr_user_ok _ _ HR k r Hk).
Qed.

Lemma pg_CountUsers_sim d s :
  same_rows d s -> psim same_error (Postgres.CountUsers env no_fault) (Sqlite.CountUsers env no_fault) d s.
Proof.
  intros HR. apply psim_query; [done|]. rewrite (sr_users _ _ HR), (count_enc enc_user _ (fun _ => true)) by done.
  by apply psim_ret.
Qed.

Lemma same_rows_users d s t :
  same_rows d s -> (forall k r, t !! k = Some r -> pg_user_ok r) ->
  same_rows (set_users t d) (with_users (enc_user <$> t) s).
Proof. intros [] Ht. by split. Qed.

Lemma enc_user_row created u : enc_user (Postgres.user_row created u) = Sqlite.user_row created u.
Proof.
  unfold enc_user, Postgres.user_row, Sqlite.user_row. cbn -[fmtTime fmtTimePtr utc].
  by rewrite fmtTime_utc, fmtTimePtr_utc.
Qed.

Lemma user_row_ok created u :
  year_ok created -> stamp_opt (user_LastLoginAt u) -> ascii_str (user_Email u) -> pg_user_ok (Postgres.user_row created u).
Proof. intros Hc Hl He. split_and!; [by apply micro_utc|by apply micro_utcPtr|done]. Qed.

Lemma created_year t : stamp t -> year_ok (if IsZero t then Sqlite.now env else t).
Proof. intros [Hy _]. destruct (IsZero t); [|done]. by apply micro_trunc. Qed.

Lemma pg_CreateUser_sim u d s :
  same_rows d s -> strings_ok (user_texts u) -> int4_okb (user_TokenVersion u) = true ->
  stamp (user_CreatedAt u) -> stamp_opt (user_LastLoginAt u) -> ascii_str (user_Email u) ->
  psim same_error (Postgres.CreateUser env no_fault u) (Sqlite.CreateUser env no_fault u) d s.
Proof.
  intros HR Ht Hi Hc Hl He. unfold Postgres.CreateUser, Sqlite.CreateUser.
  destruct (_ || _); [by apply psim_ret|].
  rewrite now_same. set (created := if IsZero _ then _ else _).
  apply psim_statement; [done|]. rewrite given_ok by (done || by repeat constructor).
  rewrite (sr_users _ _ HR), <- enc_user_row.
  apply both_insert.
  - repeat constructor. intros k x Hk. apply ci_nocase; [done|]. apply (sr_user_ok _ _ HR k x Hk).
  - repeat constructor; intros [].
  - apply psim_ret; [|done]. apply same_rows_users; [done|].
    intros k r [[_ <-]|[_ Hk]]%lookup_insert_Some; [|by apply (sr_user_ok _ _ HR k)].
    apply user_row_ok; [by apply created_year|done|done].
Qed.

(** *** Incrementing *)
Lemma int4_counter z : int4_okb (z + 1) = true -> counter_ok z.
Proof. unfold int4_okb, counter_ok, int64_ok. rewrite andb_true_iff, Z.leb_le, Z.ltb_lt. lia. Qed.

Lemma plus_one4 z : int4_okb (z + 1) = true ->
  integer_affinity (sql_plus (SqlInt z) (SqlInt 1)) = SqlInt (z + 1) /\ int64_okb (z + 1) = true.
Proof.
  intros Hz. assert (Hok : int64_okb (z + 1) = true).
  { revert Hz. unfold int4_okb, int64_okb. rewrite !andb_true_iff, !Z.leb_le, !Z.ltb_lt. lia. }
  split; [|done]. unfold sql_plus. by rewrite Hok.
Qed.

Lemma pg_update_ok {K} `{Countable K} {R} (P fits : R -> bool) f (t : gmap K R) :
  (forall k r, t !! k = Some r -> P r = true -> fits r = true) -> pg_update P fits f t = Ok (sql_update P f t).
Proof.
  intros Hf. unfold pg_update. rewrite (proj2 (sql_exists_false _ t)); [done|].
  intros k r Hk. destruct (P r) eqn:E; [|done]. by rewrite (Hf k r Hk E).
Qed.

Lemma updated_ok {K} `{Countable K} {R} (ok : R -> Prop) (P : R -> bool) f (t : gmap K R) :
  (forall k r, t !! k = Some r -> ok r) -> (forall r, ok r -> ok (f r)) ->
  forall k r, (sql_update P f t).2 !! k = Some r -> ok r.
Proof.
  intros Ht Hf k r. rewrite update_lookup. intros (r0 & Hr0 & ->)%fmap_Some. destruct (P r0); eauto.
Qed.

Lemma pg_BumpTokenVersion_sim id d s :
  same_rows d s -> strings_ok [id] ->
  (forall k r, pg_users d !! k = Some r -> pu_id r = id -> int4_okb (pu_token_version r + 1) = true) ->
  psim same_error (Postgres.BumpTokenVersion env no_fault id) (Sqlite.BumpTokenVersion env no_fault id) d s.
Proof.
  intros HR Ht Hi. apply psim_statement; [done|]. rewrite given_ok by (done || constructor). cbv zeta.
  rewrite pg_update_ok by (intros k r Hk E%String.eqb_eq; by apply (Hi k)). cbn [res_bind].
  rewrite (sr_users _ _ HR).
  rewrite (update_enc enc_user (pg_users d) (fun r => String.eqb (pu_id r) id) _ bump_row).
  2: done.
  2: { intros k r Hk E%String.eqb_eq. unfold set_token_version, bump_row, enc_user. cbn -[sql_plus integer_affinity Z.add].
       by rewrite (proj1 (plus_one4 _ (Hi k r Hk E))). }
  cbn [snd]. set (t := (sql_update _ bump_row _).2).
  rewrite (select_enc enc_user t (fun r => String.eqb (pu_id r) id)) by done.
  assert (Hrows : forall k r, t !! k = Some r -> pg_user_ok r).
  { apply updated_ok; [exact (sr_user_ok _ _ HR)|by intros r]. }
  rewrite <- list_fmap_compose.
  change (users_token_version ∘ enc_user) with (SqlInt ∘ pu_token_version). rewrite list_fmap_compose.
  destruct (pu_token_version <$> _) as [|v l]; cbn [fmap list_fmap query_row res_bind both].
  - by intros [].
  - apply psim_ret; [|done]. by apply same_rows_users.
Qed.

(** ** Tokens *)
Lemma scan_enc_token r : pg_token_ok r -> Sqlite.scanToken (enc_token r) = Ok (Postgres.scanToken r).
Proof.
  intros (Hc & Hu & Hr & He). unfold Sqlite.scanToken. cbn -[parseTime parseTimePtr].
  rewrite parse_fmtTime by done. cbn [res_bind]. rewrite !parse_fmtTimePtr by done. done.
Qed.

Lemma in_tokens d s P r : same_rows d s -> r ∈ sql_select P (pg_tokens d) -> pg_token_ok r.
Proof. intros HR [_ [k Hk]]%elem_of_select. by apply (sr_token_ok _ _ HR k). Qed.

Lemma same_rows_tokens d s t :
  same_rows d s -> (forall k r, t !! k = Some r -> pg_token_ok r) ->
  same_rows (set_tokens t d) (with_tokens (enc_token <$> t) s).
Proof. intros [] Ht. by split. Qed.

Lemma enc_token_row created t : enc_token (Postgres.token_row created t) = Sqlite.token_row created t.
Proof.
  unfold enc_token, Postgres.token_row, Sqlite.token_row. cbn -[fmtTime fmtTimePtr utc].
  by rewrite fmtTime_utc, !fmtTimePtr_utc.
Qed.

Lemma pg_CreateToken_sim t d s :
  same_rows d s -> strings_ok [token_ID t; token_UserID t; token_Name t] -> token_stamps t ->
  psim same_error (Postgres.CreateToken env no_fault t) (Sqlite.CreateToken env no_fault t) d s.
Proof.
  intros HR Ht [Hc Hu Hr He]. unfold Postgres.CreateToken, Sqlite.CreateToken.
  destruct (_ || _); [by apply psim_ret|].
  rewrite now_same. set (created := if IsZero _ then _ else _).
  apply psim_statement; [done|]. rewrite given_ok by (done || constructor).
  rewrite (sr_tokens _ _ HR), (sr_users _ _ HR), references_fmap, <- enc_token_row.
  apply both_insert.
  - by repeat constructor.
  - repeat constructor; intros [].
  - apply psim_ret; [|done]. apply same_rows_tokens; [done|].
    intros k r [[_ <-]|[_ Hk]]%lookup_insert_Some; [|by apply (sr_token_ok _ _ HR k)].
    split_and!; [by apply micro_utc, created_year|by apply micro_utcPtr..].
Qed.

Lemma pg_GetTokenByID_sim id d s :
  same_rows d s -> strings_ok [id] ->
  psim same_error (Postgres.GetTokenByID env no_fault id) (Sqlite.GetTokenByID env no_fault id) d s.
Proof.
  intros HR Ht. apply psim_query; [done|]. rewrite given_ok by (done || constructor).
  rewrite (sr_tokens _ _ HR), (select_enc enc_token _ (fun r => String.eqb (pt_id r) id)) by done.
  apply first_row. intros r Hr. apply psim_ret; [done|]. rewrite scan_enc_token by (by eapply in_tokens). done.
Qed.

Lemma pg_ListTokens_sim userID d s :
  same_rows d s -> strings_ok [userID] ->
  psim same_error (Postgres.ListTokens env no_fault userID) (Sqlite.ListTokens env no_fault userID) d s.
Proof.
  intros HR Ht. apply psim_query; [done|]. rewrite given_ok by (done || constructor).
  rewrite (sr_tokens _ _ HR), (select_enc enc_token _ (fun r => String.eqb (pt_user_id r) userID)) by done.
  rewrite (sort_Slice_agree pg_tokens_order).
  2: { intros x y Hx%(in_tokens _ _ _ _ HR) Hy%(in_tokens _ _ _ _ HR). unfold tokens_order, pg_tokens_order, lex_less.
       cbn [enc_token at_created_at at_id]. by rewrite !fmtTime_ltb, !collation_bytes by (apply Hx || apply Hy). }
  rewrite (scan_all_rows Sqlite.scanToken enc_token Postgres.scanToken).
  - by apply psim_ret.
  - intros r Hr. rewrite sort_Slice_Permutation_any in Hr. apply scan_enc_token. by eapply in_tokens.
Qed.

(** An update, and the number of rows it touched. *)
Lemma psim_update {K} `{Countable K} {R R' A} E (enc : R -> R') (P : R -> bool) P' f f' (t : gmap K R)
    (put : gmap K R -> pgDB) (put' : gmap K R' -> sqliteDB) (k : Z -> Act pgDB (result A)) k' :
  (forall i r, t !! i = Some r -> P' (enc r) = P r) ->
  (forall i r, t !! i = Some r -> P r = true -> f' (enc r) = enc (f r)) ->
  (let '(n, t') := sql_update P f t in psim E (k n) (k' n) (put t') (put' (enc <$> t'))) ->
  both E (let '(n, t') := sql_update P f t in Ok (n, put t'))
    (let '(n, t') := sql_update P' f' (enc <$> t) in Ok (n, put' t'))
    (fun x y d s => psim E (k x) (k' y) d s).
Proof.
  intros HP Hf Hk. rewrite (update_enc enc t P P' f f' HP Hf). by destruct (sql_update P f t) as [n t'].
Qed.

Lemma answers_decide {A} E (b : bool) (x : A) (e e' : error) :
  (E e e') -> answers E (if b then Err e else Ok x) (if b then Err e' else Ok x).
Proof. by destruct b. Qed.

Lemma pg_RevokeToken_sim id userID d s :
  same_rows d s -> strings_ok [id; userID] ->
  psim same_error (Postgres.RevokeToken env no_fault id userID) (Sqlite.RevokeToken env no_fault id userID) d s.
Proof.
  intros HR Ht. apply psim_statement; [done|]. rewrite given_ok by (done || constructor).
  rewrite (sr_tokens _ _ HR). apply (psim_update same_error enc_token).
  - done.
  - intros k r Hk _. unfold set_token_used_revoked, set_used_revoked, enc_token. cbn. do 2 f_equal.
    by destruct (pt_revoked_at r).
  - destruct (sql_update _ _ _) as [n t] eqn:E. apply psim_ret.
    + apply same_rows_tokens; [done|]. change t with (n, t).2; rewrite <- E.
      apply updated_ok; [exact (sr_token_ok _ _ HR)|]. intros r (H1 & H2 & H3 & H4). split_and!; try done.
      unfold set_used_revoked. cbn [pt_revoked_at micro_opt from_option]. destruct (pt_revoked_at r); [done|].
      by apply micro_now.
    + apply answers_decide. by intros [].
Qed.

Lemma pg_TouchTokenLastUsed_sim id at_ d s :
  same_rows d s -> strings_ok [id] -> year_ok at_ ->
  psim same_error (Postgres.TouchTokenLastUsed env no_fault id at_) (Sqlite.TouchTokenLastUsed env no_fault id at_) d s.
Proof.
  intros HR Ht Hy. apply psim_statement; [done|]. rewrite given_ok by (done || constructor).
  rewrite (sr_tokens _ _ HR). apply (psim_update same_error enc_token).
  - done.
  - intros k r Hk _. unfold set_token_used_revoked, set_used_revoked, enc_token. cbn. f_equal. symmetry. exact (f_equal Some (fmtTime_utc at_)).
  - destruct (sql_update _ _ _) as [n t] eqn:E. apply psim_ret.
    + apply same_rows_tokens; [done|]. change t with (n, t).2; rewrite <- E.
      apply updated_ok; [exact (sr_token_ok _ _ HR)|]. intros r (H1 & H2 & H3 & H4). split_and!; try done.
      by apply micro_utc.
    + apply answers_decide. by intros [].
Qed.

(** ** Codes *)
Definition enc_pair (p : pgCode * pgStyling) : codesRow * stylingRow := (enc_code p.1, enc_styling p.2).
Definition pair_ok (p : pgCode * pgStyling) : Prop := pg_code_ok p.1 /\ bind_real (ps_logo_scale p.2) = ps_logo_scale p.2.

Lemma join_enc d s l : same_rows d s -> join_styling s (enc_code <$> l) = enc_pair <$> join_profiles d l.
Proof.
  intros HR. unfold join_styling, join_profiles. rewrite (sr_styling _ _ HR). induction l as [|r l IH]; [done|].
  rewrite fmap_cons. cbn [omap list_omap]. change (c_styling_id (enc_code r)) with (pc_styling_id r).
  rewrite lookup_fmap. destruct (pg_styling d !! pc_styling_id r); cbn [fmap option_fmap option_map]; by rewrite IH.
Qed.

Lemma joined_ok d s l : same_rows d s -> Forall pg_code_ok l -> Forall pair_ok (join_profiles d l).
Proof.
  intros HR Hl. induction Hl as [|r l Hr Hl IH]; [constructor|]. cbn [join_profiles omap list_omap].
  destruct (pg_styling d !! pc_styling_id r) as [sp|] eqn:E; cbn [fmap option_fmap option_map]; [|exact IH].
  constructor; [|exact IH]. split; [exact Hr|]. by apply (sr_scale _ _ HR (pc_styling_id r)).
Qed.

Lemma codes_rows_ok d s P : same_rows d s -> Forall pg_code_ok (sql_select P (pg_codes d)).
Proof. intros HR. apply Forall_forall. intros r [_ [k Hk]]%elem_of_select. by apply (sr_code_ok _ _ HR k). Qed.

Lemma scan_enc_code p : pair_ok p -> Sqlite.scanCode (enc_pair p) = Ok (Postgres.scanCode p).
Proof.
  destruct p as [r sp]. intros [(Hc & Hu & Hd & _) Hf]. cbn [fst snd] in *.
  unfold Sqlite.scanCode, enc_pair. cbn -[parseTime parseTimePtr bind_real].
  rewrite !parse_fmtTime by done. cbn [res_bind]. rewrite parse_fmtTimePtr by done. cbn [res_bind].
  by rewrite b2i_bool, Hf.
Qed.

Lemma scanned_code d s p :
  same_rows d s -> pair_ok p -> psim same_error (mret (Ok (Postgres.scanCode p))) (mret (Sqlite.scanCode (enc_pair p))) d s.
Proof. intros HR Hp. apply psim_ret; [done|]. by rewrite scan_enc_code. Qed.

Lemma first_code d s (l : list (pgCode * pgStyling)) :
  same_rows d s -> Forall pair_ok l ->
  match query_row l, query_row (enc_pair <$> l) with
  | Ok x, Ok y => psim same_error (mret (Ok (Postgres.scanCode x))) (mret (Sqlite.scanCode y)) d s
  | Err e, Err e' => same_failure same_error e e'
  | _, _ => False
  end.
Proof.
  intros HR Hl. apply (first_row enc_pair l (fun p => mret (Ok (Postgres.scanCode p)))
    (fun p => mret (Sqlite.scanCode p))). rewrite Forall_forall in Hl. intros p Hp. apply scanned_code; auto.
Qed.

Lemma live_enc r : row_live (enc_code r) = live_row r.
Proof. done. Qed.

Lemma pg_GetCodeByID_sim id userID d s :
  same_rows d s -> strings_ok [id; userID] ->
  psim same_error (Postgres.GetCodeByID env no_fault id userID) (Sqlite.GetCodeByID env no_fault id userID) d s.
Proof.
  intros HR Ht. apply psim_query; [done|]. rewrite given_ok by (done || constructor).
  rewrite (sr_codes _ _ HR),
    (select_enc enc_code _ (fun r => String.eqb (pc_id r) id && String.eqb (pc_user_id r) userID)) by done.
  rewrite (join_enc d) by done. apply first_code; [done|]. by eapply joined_ok, codes_rows_ok.
Qed.

Lemma pg_GetCodeByClientRef_sim userID ref d s :
  same_rows d s -> strings_ok [userID; ref] ->
  psim same_error (Postgres.GetCodeByClientRef env no_fault userID ref) (Sqlite.GetCodeByClientRef env no_fault userID ref) d s.
Proof.
  intros HR Ht. unfold Postgres.GetCodeByClientRef, Sqlite.GetCodeByClientRef.
  destruct (String.eqb ref ""); [by apply psim_ret|].
  apply psim_query; [done|]. rewrite given_ok by (done || constructor).
  rewrite (sr_codes _ _ HR), (select_enc enc_code _ (fun r => String.eqb (pc_user_id r) userID
     && bool_decide (pc_client_ref r = Some ref))) by done.
  rewrite (join_enc d) by done. apply first_code; [done|]. by eapply joined_ok, codes_rows_ok.
Qed.

Lemma ci_code r sc : pg_code_ok r -> ascii_str sc -> nocase_eqb (pc_short_code r) sc = ci_eqb (pc_short_code r) sc.
Proof. intros (_ & _ & _ & Hl & _) Hs. apply ci_nocase; [by apply lowered_ascii|done]. Qed.

Lemma res_at d s key : same_rows d s -> tb_reservations s !! key = enc_res <$> pg_reservations d !! key.
Proof. intros HR. by rewrite (sr_res _ _ HR), lookup_fmap. Qed.

Lemma released_enc r : ar_released_at (enc_res r) = None <-> pr_released_at r = None.
Proof. cbn. by destruct (pr_released_at r). Qed.

Lemma by_short_code_enc sc d s :
  same_rows d s -> ascii_str sc -> sql_by_short_code sc s = enc_pair <$> by_short_code sc d.
Proof.
  intros HR Hs. unfold sql_by_short_code, by_short_code. unfold sql_lower at 1.
  rewrite <- lower_ascii_pg, (res_at d), (sr_codes _ _ HR) by done.
  assert (Eh : match enc_res <$> pg_reservations d !! pg_lower sc with
               | Some r => match ar_released_at r with None => ar_code_id r | Some _ => None end
               | None => None end
             = match pg_reservations d !! pg_lower sc with
               | Some r => match pr_released_at r with None => pr_code_id r | Some _ => None end
               | None => None end).
  { destruct (pg_reservations d !! pg_lower sc) as [r|]; [|done]. cbn. by destruct (pr_released_at r). }
  rewrite Eh. clear Eh. set (holder := match pg_reservations d !! pg_lower sc with Some _ => _ | None => _ end). cbv zeta.
  rewrite (select_enc enc_code _ (fun r => ci_eqb (pc_short_code r) sc
     && (live_row r || match holder with Some id => String.eqb (pc_id r) id | None => false end))).
  2: { intros k r Hk. rewrite <- ci_code by (done || by apply (sr_code_ok _ _ HR k)). done. }
  rewrite (join_enc d) by done. rewrite fmap_take. f_equal. apply sort_Slice_agree.
  assert (Hl := joined_ok d s _ HR (codes_rows_ok d s (fun r => ci_eqb (pc_short_code r) sc
     && (live_row r || match holder with Some id => String.eqb (pc_id r) id | None => false end)) HR)).
  rewrite Forall_forall in Hl. intros x y [Hx _]%Hl [Hy _]%Hl.
  unfold shortcode_order, pg_shortcode_order, lex_less. cbn [enc_pair fst]. rewrite !live_enc.
  cbn [enc_code c_created_at]. by rewrite !fmtTime_ltb by (apply Hx || apply Hy).
Qed.

Lemma Forall_by_short_code sc d s : same_rows d s -> Forall pair_ok (by_short_code sc d).
Proof.
  intros HR. unfold by_short_code. cbv zeta. apply Forall_take. rewrite sort_Slice_Permutation_any.
  by eapply joined_ok, codes_rows_ok.
Qed.

Lemma pg_GetCodeByShortCode_sim sc d s :
  same_rows d s -> strings_ok [sc] -> ascii_str sc ->
  psim same_error (Postgres.GetCodeByShortCode env no_fault sc) (Sqlite.GetCodeByShortCode env no_fault sc) d s.
Proof.
  intros HR Ht Hs. apply psim_query; [done|]. rewrite given_ok by (done || constructor).
  rewrite (by_short_code_enc sc d s HR Hs). apply first_code; [done|]. by apply (Forall_by_short_code sc d s).
Qed.

(** ** Listing *)
Lemma pg_decode_same cs : match Postgres.decodeCursor cs, MemStore.decodeCursor cs with
  | Ok p, Ok p' => p = p' | Err _, Err _ => True | _, _ => False end.
Proof.
  unfold Postgres.decodeCursor, MemStore.decodeCursor. destruct (DecodeString alphabet_url cs) as [raw|]; [|done].
  destruct (CutByte (of_bytes raw) "000") as [[ts id] ok]. destruct (negb ok || String.eqb id ""); [done|].
  by destruct (Parse_RFC3339Nano ts).
Qed.

(** A filter PostgreSQL and SQLite read alike. *)
Record pg_filter_ok (f : CodeFilter) (d : pgDB) : Prop := {
  pf_user : storable (f_UserID f) = true;
  pf_dest_text : storable (f_Destination f) = true;
  pf_after : from_option year_ok True (CreatedAfter f);
  pf_before : from_option year_ok True (CreatedBefore f);
  pf_dest : f_Destination f = ""
    \/ (ascii_str (f_Destination f) /\ forall id r, pg_codes d !! id = Some r -> ascii_str (pc_destination r));
}.

Definition with_cursor (c : string) (f : CodeFilter) : CodeFilter :=
  {| f_UserID := f_UserID f; CreatedAfter := CreatedAfter f; CreatedBefore := CreatedBefore f;
     f_Destination := f_Destination f; Limit := Limit f; Cursor := c |}.

Lemma list_where_enc f c d s after id r :
  same_rows d s -> pg_filter_ok f d -> pg_codes d !! id = Some r -> from_option position_ok True after ->
  list_where (with_cursor c f) after (enc_code r) = pg_list_where f after r.
Proof.
  intros HR [F1 F2 F3 F4 F5] Hr Ha. pose proof (sr_code_ok _ _ HR _ _ Hr) as (K1 & _).
  unfold list_where, pg_list_where, with_cursor.
  cbn [enc_code c_user_id c_created_at c_destination c_id f_UserID CreatedAfter CreatedBefore f_Destination].
  rewrite live_enc. f_equal; [f_equal; [f_equal; [f_equal|]|]|].
  - destruct (CreatedAfter f) as [t|]; [|done]. cbn [from_option] in *. rewrite <- (fmtTime_utc t).
    by apply fmtTime_ltb; [apply micro_utc|].
  - destruct (CreatedBefore f) as [t|]; [|done]. cbn [from_option] in *. rewrite <- (fmtTime_utc t).
    by apply fmtTime_ltb; [|apply micro_utc].
  - destruct F5 as [->|[Hd Hds]]; [done|]. unfold sql_lower.
    by rewrite !lower_ascii_pg by (done || by eapply Hds).
  - destruct after as [p|]; [|done]. destruct Ha as [Hp _]. cbn [from_option]. cbv zeta.
    change (utc (cp_createdAt p)) with (trunc (cp_createdAt p)). rewrite trunc_micro by done.
    by rewrite fmtTime_ltb, fmtTime_eqb, collation_bytes.
Qed.

Lemma listed_enc f c d s after :
  same_rows d s -> pg_filter_ok f d -> from_option position_ok True after ->
  sort_Slice (fun a b => codes_order a.1 b.1)
    (join_styling s (sql_select (list_where (with_cursor c f) after) (tb_codes s)))
  = enc_pair <$> sort_Slice (fun a b => pg_codes_order a.1 b.1)
      (join_profiles d (sql_select (pg_list_where f after) (pg_codes d))).
Proof.
  intros HR Hf Ha.
  rewrite (sr_codes _ _ HR), (select_enc enc_code _ (pg_list_where f after))
    by (intros k r Hk; by apply (list_where_enc f c d s after k r)).
  rewrite (join_enc d) by done. apply sort_Slice_agree.
  assert (Hl := joined_ok d s _ HR (codes_rows_ok d s (pg_list_where f after) HR)).
  rewrite Forall_forall in Hl. intros x y [Hx _]%Hl [Hy _]%Hl.
  unfold codes_order, pg_codes_order, lex_less. cbn [enc_pair fst enc_code c_created_at c_id].
  by rewrite !collation_bytes, !fmtTime_ltb by (apply Hx || apply Hy).
Qed.

(** The page, and cursors that name the same position. *)
Definition pages_agree (r r' : result (list Code * string)) : Prop :=
  match r, r' with
  | Ok (rows, cp), Ok (rows', cs) => rows = rows' /\ cursors cs cp
  | Err e, Err e' => same_error e e'
  | _, _ => False
  end.

Definition page_of {D} (encode : cursorPos -> string) (limit : nat) (out : list Code) : Act D (result (list Code * string)) :=
  mret (if bool_decide (limit < length out)%nat then
          let page := take limit out in
          Ok (page, from_option (fun c => encode {| cp_createdAt := code_CreatedAt c; cp_id := code_ID c |}) "" (last page))
        else Ok (out, "")).

Lemma cursor_named (out : list Code) limit :
  Forall (fun c => micro (code_CreatedAt c) /\ code_ID c <> "") out ->
  pages_agree
    (if bool_decide (limit < length out)%nat then
       let page := take limit out in
       Ok (page, from_option (fun c => Postgres.encodeCursor {| cp_createdAt := code_CreatedAt c; cp_id := code_ID c |}) "" (last page))
     else Ok (out, ""))
    (if bool_decide (limit < length out)%nat then
       let page := take limit out in
       Ok (page, from_option (fun c => Sqlite.encodeCursor {| cp_createdAt := code_CreatedAt c; cp_id := code_ID c |}) "" (last page))
     else Ok (out, "")).
Proof.
  intros Ho. destruct (bool_decide _); [|by split; [|left]]. cbv zeta. split; [done|].
  destruct (last (take limit out)) as [c|] eqn:El; [|by left]. right.
  apply last_Some_elem_of in El. apply elem_of_take in El as (i & Hi%list_elem_of_lookup_2 & _).
  rewrite Forall_forall in Ho. exists {| cp_createdAt := code_CreatedAt c; cp_id := code_ID c |}. by split; [exact (Ho c Hi)|].
Qed.

Lemma pg_ListCodes_sim f cs d s :
  same_rows d s -> pg_filter_ok f d -> cursors cs (Cursor f) ->
  (forall p, cs = Sqlite.encodeCursor p -> storable (cp_id p) = true) ->
  exists r r', runs (Postgres.ListCodes env no_fault f) d r d
    /\ runs (Sqlite.ListCodes env no_fault (with_cursor cs f)) s r' s /\ pages_agree r r'.
Proof.
  intros HR Hf Hc Hid. unfold Postgres.ListCodes, Sqlite.ListCodes.
  change (Cursor (with_cursor cs f)) with cs. change (page_limit (with_cursor cs f)) with (page_limit f).
  assert (Hafter : exists after, from_option position_ok True after /\ strings_ok (text_of (cp_id <$> after))
    /\ (if String.eqb (Cursor f) "" then Ok None else res_bind (Postgres.decodeCursor (Cursor f)) (fun p => Ok (Some p))) = Ok after
    /\ (if String.eqb cs "" then Ok None else res_bind (Sqlite.decodeCursor cs) (fun p => Ok (Some p))) = Ok after).
  { destruct Hc as [[-> ->]|(p & [Hp Hi] & -> & ->)]; [exists None; by split_and!; try constructor|].
    exists (Some p). split_and!; [done|repeat constructor; by apply Hid| |].
    - rewrite (proj2 (String.eqb_neq _ _) (encodeCursor_nonempty p)).
      pose proof (pg_decode_same (MemStore.encodeCursor p)) as Hd.
      rewrite decode_encodeCursor in Hd by (done || apply Hp). destruct (Postgres.decodeCursor _); [|done]. by rewrite Hd.
    - rewrite (proj2 (String.eqb_neq _ _) (sql_cursor_nonempty p Hp Hi)). by rewrite decode_encode_cursor. }
  destruct Hafter as (after & Ha & Hs & -> & ->).
  set (rows := sort_Slice (fun a b => pg_codes_order a.1 b.1)
                 (join_profiles d (sql_select (pg_list_where f after) (pg_codes d)))).
  assert (Hrows : Forall pair_ok (take (page_limit f + 1) rows)).
  { apply Forall_take. unfold rows. rewrite sort_Slice_Permutation_any. by eapply joined_ok, codes_rows_ok. }
  eexists _, _. split_and!.
  - eapply runs_checked; [apply runs_statement_Ok; [done|]|apply runs_return].
    rewrite given_ok; [reflexivity| |constructor]. by destruct Hf; repeat constructor.
  - eapply runs_checked; [apply runs_statement_Ok; [done|]|apply runs_return].
    rewrite (listed_enc f cs d s after HR Hf Ha), <- fmap_take. reflexivity.
  - fold rows. rewrite (scan_all_rows Sqlite.scanCode enc_pair Postgres.scanCode).
    2: { intros p Hp. apply scan_enc_code. rewrite Forall_forall in Hrows. by apply Hrows. }
    cbn [res_bind]. apply cursor_named. apply Forall_fmap, (Forall_impl _ _ _ Hrows). intros [r sp] [(H1 & _ & _ & _ & H5) _]. done.
Qed.

(** ** Guarded updates of one code *)
Definition versions4 (id : string) (d : pgDB) : Prop :=
  forall k r, pg_codes d !! k = Some r -> pc_id r = id -> int4_okb (pc_version r + 1) = true.

Lemma same_rows_codes d s t :
  same_rows d s -> (forall k r, t !! k = Some r -> pg_code_ok r) ->
  same_rows (set_codes t d) (with_codes (enc_code <$> t) s).
Proof. intros [] Ht. by split. Qed.

Lemma when_owned_sim id userID present present' d s :
  same_rows d s -> strings_ok [id; userID] -> answers same_error present present' ->
  psim same_error (Postgres.when_owned env no_fault id userID present) (Sqlite.when_owned env no_fault id userID present') d s.
Proof.
  intros HR Ht Hp. set (P := fun r => String.eqb (pc_id r) id && String.eqb (pc_user_id r) userID).
  set (l := sql_select P (pg_codes d)).
  assert (E1 : given [id; userID] [] (fun d => query_row (sql_select P (pg_codes d))) d = query_row l)
    by (by rewrite given_ok by (done || constructor)).
  assert (E2 : query_row (sql_select (fun r => String.eqb (c_id r) id && String.eqb (c_user_id r) userID) (tb_codes s))
             = query_row (enc_code <$> l)) by (by rewrite (sr_codes _ _ HR), (select_enc enc_code _ P)).
  unfold P in E1. clearbody l.
  eexists _, d, _, s. split_and!; [..|exact HR].
  - eapply runs_try; [|apply runs_return]. eapply runs_then; [by apply runs_query|]. rewrite E1.
    assert (Hx : match query_row l with Ok _ => Ok true | Err ErrNoRows => Ok false | Err e => Err (Postgres.translate e) end
               = Ok (match l with [] => false | _ => true end)) by (by destruct l).
    rewrite Hx. apply runs_return.
  - eapply runs_try; [|apply runs_return]. eapply runs_then; [by apply runs_query|]. rewrite E2.
    assert (Hx : match query_row (enc_code <$> l) with Ok _ => Ok true | Err ErrNoRows => Ok false | Err e => Err (Sqlite.translate e) end
               = Ok (match l with [] => false | _ => true end)) by (by destruct l).
    rewrite Hx. apply runs_return.
  - destruct l; [|done]. by intros [].
Qed.

Lemma psim_guarded id userID texts ints (P : pgCode -> bool) P' f f' present present' d s :
  same_rows d s -> strings_ok texts -> Forall (fun z => int4_okb z = true) ints -> strings_ok [id; userID] ->
  (forall r, P' (enc_code r) = P r) -> (forall r, P r = true -> pc_id r = id) -> versions4 id d ->
  (forall r, int4_okb (pc_version r + 1) = true -> f' (enc_code r) = enc_code (f r)) ->
  (forall r, pg_code_ok r -> pg_code_ok (f r)) -> answers same_error present present' ->
  psim same_error
    (Postgres.withTx env no_fault (checked Postgres.translate (statement env no_fault (given texts ints (update_codes P f)))
       (fun n => if n =? 1 then mret (Ok tt) else Postgres.when_owned env no_fault id userID present)))
    (Sqlite.withTx env no_fault (checked Sqlite.translate (statement env no_fault (sql_update_codes P' f'))
       (fun n => if n =? 1 then mret (Ok tt) else Sqlite.when_owned env no_fault id userID present'))) d s.
Proof.
  intros HR Ht Hi Hid HP HPid Hv Hf Hok Hp. apply psim_tx; [done|]. apply psim_statement; [done|].
  rewrite given_ok by done. unfold update_codes, sql_update_codes.
  assert (Hfit : forall k r, pg_codes d !! k = Some r -> P r = true -> int4_okb (pc_version r + 1) = true)
    by (intros k r Hk Hr; apply (Hv k r Hk); auto).
  rewrite pg_update_ok by exact Hfit. cbn [res_bind].
  rewrite (sr_codes _ _ HR), (update_enc enc_code (pg_codes d) P P' f f') by eauto.
  assert (HR2 : same_rows (set_codes (sql_update P f (pg_codes d)).2 d)
                  (with_codes (enc_code <$> (sql_update P f (pg_codes d)).2) s)).
  { apply same_rows_codes; [done|]. apply updated_ok; [exact (sr_code_ok _ _ HR)|done]. }
  destruct (sql_update P f (pg_codes d)) as [n t]. cbn [fst snd both] in *.
  destruct (n =? 1); [by apply psim_ret|]. by apply when_owned_sim.
Qed.

Lemma set_code_enc dest state updated deleted r : int4_okb (pc_version r + 1) = true ->
  set_codes_row dest state (fmtTime updated) (fmtTimePtr deleted) (enc_code r) = enc_code (set_code_row dest state updated deleted r).
Proof.
  intros Hv. unfold set_codes_row, enc_code, set_code_row. cbn -[sql_plus integer_affinity Z.add].
  by rewrite (proj1 (plus_one4 _ Hv)).
Qed.

Lemma set_code_ok dest state updated deleted r :
  micro updated -> micro_opt deleted -> pg_code_ok r -> pg_code_ok (set_code_row dest state updated deleted r).
Proof. intros Hu Hd (H1 & H2 & H3 & H4 & H5). by split_and!. Qed.

Lemma refused {A} (e e' : error) : (forall x : store_sentinel, errors_Is e x = errors_Is e' x) -> answers (A := A) same_error (Err e) (Err e').
Proof. exact id. Qed.

Lemma pg_UpdateDestination_sim id userID dest v d s :
  same_rows d s -> strings_ok [dest; id; userID] -> int4_okb v = true -> versions4 id d ->
  psim same_error (Postgres.UpdateDestination env no_fault id userID dest v) (Sqlite.UpdateDestination env no_fault id userID dest v) d s.
Proof.
  intros HR Ht Hi Hv. apply psim_guarded; try done.
  - by repeat constructor.
  - by inversion Ht.
  - intros r. rewrite !andb_true_iff, String.eqb_eq. tauto.
  - intros r Hr. exact (set_code_enc dest (pc_state r) (Sqlite.now env) (pc_deleted_at r) r Hr).
  - intros r Hr. apply set_code_ok; [by apply micro_now|apply Hr|done].
Qed.

Lemma pg_SetCodeState_sim id userID state d s :
  same_rows d s -> strings_ok [state; id; userID] -> versions4 id d ->
  psim same_error (Postgres.SetCodeState env no_fault id userID state) (Sqlite.SetCodeState env no_fault id userID state) d s.
Proof.
  intros HR Ht Hv. unfold Postgres.SetCodeState, Sqlite.SetCodeState.
  destruct (_ || _).
  - apply psim_guarded; try done.
    + by inversion Ht.
    + intros r. rewrite !andb_true_iff, String.eqb_eq. tauto.
    + intros r Hr. exact (set_code_enc (pc_destination r) state (Sqlite.now env) (pc_deleted_at r) r Hr).
    + intros r Hr. apply set_code_ok; [by apply micro_now|apply Hr|done].
  - destruct (String.eqb state CodeDeleted); by apply psim_ret.
Qed.

Lemma pg_DeleteCode_sim id userID d s :
  same_rows d s -> strings_ok [id; userID] -> versions4 id d ->
  psim same_error (Postgres.DeleteCode env no_fault id userID) (Sqlite.DeleteCode env no_fault id userID) d s.
Proof.
  intros HR Ht Hv. apply psim_guarded; try done.
  - intros r. rewrite !andb_true_iff, String.eqb_eq. tauto.
  - intros r Hr. exact (set_code_enc (pc_destination r) CodeDeleted (Sqlite.now env) (Some (Sqlite.now env)) r Hr).
  - intros r Hr. apply set_code_ok; [by apply micro_now|by apply micro_now|done].
Qed.

(** ** Aliases *)
Lemma live_count_enc sc d s : same_rows d s -> ascii_str sc ->
  sql_count (live_named sc) (tb_codes s) = sql_count (live_as sc) (pg_codes d).
Proof.
  intros HR Hs. rewrite (sr_codes _ _ HR). apply count_enc. intros k r Hk. unfold live_named, live_as.
  rewrite live_enc. f_equal. apply ci_code; [by apply (sr_code_ok _ _ HR k)|done].
Qed.

Lemma held_enc key r : reserved_as key (enc_res r) = held_as key r.
Proof.
  unfold reserved_as, held_as. cbn [enc_res ar_short_code]. f_equal. apply bool_decide_ext, released_enc.
Qed.

Lemma pg_IsAliasAvailable_sim sc d s :
  same_rows d s -> strings_ok [sc] -> ascii_str sc ->
  psim same_error (Postgres.IsAliasAvailable env no_fault sc) (Sqlite.IsAliasAvailable env no_fault sc) d s.
Proof.
  intros HR Ht Hs. apply psim_query; [done|]. rewrite given_ok by (done || constructor).
  rewrite (live_count_enc sc d s HR Hs). unfold sql_lower. rewrite <- lower_ascii_pg by done.
  rewrite (sr_res _ _ HR), (count_enc enc_res _ (held_as (pg_lower sc))) by (intros k r _; apply held_enc).
  by apply psim_ret.
Qed.

Lemma same_rows_res d s t :
  same_rows d s -> (forall k r, t !! k = Some r -> pg_res_ok r) ->
  same_rows (set_reservations t d) (with_reservations (enc_res <$> t) s).
Proof. intros [] Ht. by split. Qed.

Lemma pg_ReleaseAlias_sim sc d s :
  same_rows d s -> strings_ok [ToLower sc] -> ascii_str sc ->
  psim same_error (Postgres.ReleaseAlias env no_fault sc) (Sqlite.ReleaseAlias env no_fault sc) d s.
Proof.
  intros HR Ht Hs. unfold Postgres.ReleaseAlias, Sqlite.ReleaseAlias. cbv zeta. set (key := ToLower sc) in *.
  assert (Hk : ascii_str key) by by apply lowered_ascii, lower_ascii.
  apply psim_tx; [done|].
  assert (E1 : given [key] [] (fun d => query_row (sql_select (held_as key) (pg_reservations d))) d
             = query_row (sql_select (held_as key) (pg_reservations d))) by (by rewrite given_ok by (done || constructor)).
  assert (E2 : query_row (sql_select (reserved_as key) (tb_reservations s))
             = query_row (enc_res <$> sql_select (held_as key) (pg_reservations d)))
    by (by rewrite (sr_res _ _ HR), (select_enc enc_res _ (held_as key)) by (intros k r _; apply held_enc)).
  assert (Hrest : psim same_error
    (checked Postgres.translate (query env no_fault (given [key] [] (fun d => Ok (sql_count (live_as key) (pg_codes d)))))
       (fun live => if 0 <? live then mret (Err (Postgres.conflict ("alias " +:+ key +:+ " owned by live code")))
        else checked Postgres.translate (statement env no_fault (given [key] [] (fun d =>
            let '(n, t) := sql_update (held_as key) (release_row (Postgres.now env)) (pg_reservations d) in
            Ok (n, set_reservations t d)))) (fun _ => mret (Ok tt))))
    (checked Sqlite.translate (query env no_fault (fun d => Ok (sql_count (live_named key) (tb_codes d))))
       (fun live => if 0 <? live then mret (Err (Sqlite.conflict ("alias " +:+ key +:+ " owned by live code")))
        else checked Sqlite.translate (statement env no_fault (fun d =>
            let '(n, t) := sql_update (reserved_as key) (set_released (fmtTime (Sqlite.now env))) (tb_reservations d) in
            Ok (n, with_reservations t d))) (fun _ => mret (Ok tt)))) d s).
  { apply psim_query; [done|]. rewrite given_ok by (done || constructor).
    rewrite (live_count_enc key d s HR Hk). destruct (0 <? _); [by apply psim_ret; [|apply refused; intros []]|].
    apply psim_statement; [done|]. rewrite given_ok by (done || constructor). rewrite (sr_res _ _ HR).
    apply (psim_update same_error enc_res); [intros k r _; apply held_enc|done|].
    destruct (sql_update _ _ _) as [n t] eqn:E. apply psim_ret; [|done]. apply same_rows_res; [done|].
    change t with (n, t).2. rewrite <- E. apply updated_ok; [exact (sr_res_ok _ _ HR)|].
    intros r [H1 H2]. split; [done|]. by apply micro_now. }
  destruct Hrest as (r & d' & r' & s' & H1 & H2 & H3 & H4).
  destruct (sql_select (held_as key) (pg_reservations d)) as [|x l] eqn:El.
  - eexists _, d, _, s. split_and!; [..|exact HR].
    + eapply runs_then; [by apply runs_query|]. rewrite E1. apply runs_return.
    + eapply runs_then; [by apply runs_query|]. rewrite E2. apply runs_return.
    + apply refused. by intros [].
  - exists r, d', r', s'. split_and!; [| |done|done].
    + eapply runs_then; [by apply runs_query|]. rewrite E1. exact H1.
    + eapply runs_then; [by apply runs_query|]. rewrite E2. exact H2.
Qed.
End programs.
End sim.
