(* ===== verification/PostgresScans.v ===== *)
(** * The PostgreSQL driver against the SQLite driver: insertions and scans

    The simulation of the insertion of codes, of batches of scans, of the
    analytics query and of retention. *)
From Stdlib Require Import Ascii String.
From S2P Require Import GoLib Act Domain Base64 Rollup MemStore MemStoreFacts Listing Sql Sqlite SqliteRel SqliteCodes SqliteCreate SqliteScans SqliteProps Postgres PostgresRel.
Local Open Scope string_scope.
Local Open Scope Z_scope.
Local Open Scope go_scope.

Section sim.
Context `{U : UnicodeTable} `{TF : TimeFormat} {HTF : TimeFormatOk} `{ST : SqlTime} {Hst : SqlTimeOk}.
Context `{SE : SqlEngine} {Hse : SqlEngineOk} `{SV : Server} {HSV : ServerOk}.
Context (env : Env) (Hctx : ctx_Err env = None) (Hnow : year_ok (time_Now env)).
Local Notation psim_statement := (psim_statement env Hctx).
Local Notation psim_query := (psim_query env Hctx).
Local Notation psim_tx := (psim_tx env Hctx).

(** ** Inserting codes *)
Lemma newCodeRow_same off c :
  match Postgres.newCodeRow env off c, Sqlite.newCodeRow env off c with
  | Ok r, Ok r' => r = r' | Err e, Err e' => same_error e e' | _, _ => False end.
Proof. unfold Postgres.newCodeRow, Sqlite.newCodeRow. by destruct (_ || _); [intros []|]. Qed.

Lemma new_rows_same off cs :
  match Postgres.new_rows env off cs, Sqlite.new_rows env off cs with
  | Ok rs, Ok rs' => rs = rs' | Err e, Err e' => same_error e e' | _, _ => False end.
Proof.
  revert off. induction cs as [|c cs IH]; intros off; [done|]. cbn [Postgres.new_rows Sqlite.new_rows].
  pose proof (newCodeRow_same off c) as H1. specialize (IH (off + styling_draws c)%nat).
  destruct (Postgres.newCodeRow env off c), (Sqlite.newCodeRow env off c); try done. subst. cbn [res_bind].
  destruct (Postgres.new_rows _ _ _), (Sqlite.new_rows _ _ _); try done. by subst.
Qed.

(** What the columns need of a row to insert. *)
Definition new_row_ok (r : codeRow) : Prop :=
  year_ok (cr_created r) /\ year_ok (cr_updated r) /\ lowered (cr_shortCode r) /\ code_ID (cr_c r) <> ""
  /\ bind_real (Postgres.nullFloat (LogoScale (cr_styling r))) = Postgres.nullFloat (LogoScale (cr_styling r)).

Lemma real_ok_bind f : real_ok f -> bind_real (Postgres.nullFloat f) = Postgres.nullFloat f.
Proof.
  unfold real_ok, Sqlite.nullFloat, Postgres.nullFloat. destruct (f64_eqb f f64_zero); [done|]. by destruct f.
Qed.

Lemma new_rows_ok off cs rows :
  Forall row_ok cs -> Postgres.new_rows env off cs = Ok rows -> Forall new_row_ok rows.
Proof.
  intros Hcs. revert off rows. induction Hcs as [|c cs [Hc Hu Hs Hf] _ IH]; intros off rows E.
  - injection E as <-. constructor.
  - cbn [Postgres.new_rows] in E. destruct (Postgres.newCodeRow env off c) as [r|] eqn:Er; [|done]. cbn [res_bind] in E.
    destruct (Postgres.new_rows env _ cs) as [rs|] eqn:Ers; [|done]. injection E as <-.
    constructor; [|by apply (IH _ _ Ers)]. unfold Postgres.newCodeRow in Er.
    destruct (_ || _) eqn:Ei; [done|]. injection Er as <-.
    assert (Hy : year_ok (if IsZero (code_CreatedAt c) then Postgres.now env else code_CreatedAt c)) by by apply created_year.
    split_and!; cbn.
    + done.
    + destruct (IsZero (UpdatedAt c)); [done|apply Hu].
    + by apply lower_ascii.
    + intros E. rewrite E in Ei. discriminate.
    + apply real_ok_bind. by destruct (String.eqb (styling_ID (code_Styling c)) "").
Qed.

(** What PostgreSQL needs of it besides. *)
Definition row_encodable (r : codeRow) : Prop :=
  strings_ok (styling_texts (cr_styling r)) /\ strings_ok (code_texts r)
  /\ int4_okb (MarginModules (cr_styling r)) = true /\ int4_okb (SizePx (cr_styling r)) = true.

Lemma enc_styling_row st : enc_styling (Postgres.styling_row st) = Sqlite.styling_row st.
Proof. done. Qed.

Lemma enc_codes_row r : enc_code (Postgres.codes_row r) = Sqlite.codes_row r.
Proof.
  unfold enc_code, Postgres.codes_row, Sqlite.codes_row. cbn -[fmtTime utc]. by rewrite !fmtTime_utc.
Qed.

Lemma same_rows_styling d s t :
  same_rows d s -> (forall k r, t !! k = Some r -> bind_real (ps_logo_scale r) = ps_logo_scale r) ->
  same_rows (set_styling t d) (with_styling (enc_styling <$> t) s).
Proof. intros [] Ht. by split. Qed.

Lemma codes_row_ok r : new_row_ok r -> pg_code_ok (Postgres.codes_row r).
Proof. intros (H1 & H2 & H3 & H4 & _). unfold pg_code_ok, Postgres.codes_row. cbn. split_and!; [exact (micro_utc _ H1)|exact (micro_utc _ H2)|done..]. Qed.

Lemma codes_clash_enc r x : pg_code_ok r -> pg_code_ok x ->
  row_live (enc_code r) && row_live (enc_code x) && nocase_eqb (c_short_code (enc_code r)) (c_short_code (enc_code x))
  = live_row r && live_row x && ci_eqb (pc_short_code r) (pc_short_code x).
Proof. intros (_ & _ & _ & Hr & _) Hx. rewrite !live_enc. f_equal. apply ci_nocase; apply lowered_ascii; [done|apply Hx]. Qed.

Lemma reserve_sim E r d s :
  same_rows d s -> strings_ok (code_texts r) -> references (code_ID (cr_c r)) (pg_codes d) = true ->
  (reserved (cr_shortCode r) s = true ->
     E (Wrap "postgres: short code reserved" ErrAliasTaken) (Wrap "sqlite: short code reserved" ErrAliasTaken)) ->
  both E (reserve env r d) (sql_reserve env r s) (fun n n' d' s' =>
    psim E (mret (if n =? 0 then Err (Wrap "postgres: short code reserved" ErrAliasTaken) else Ok tt))
      (mret (if n' =? 0 then Err (Wrap "sqlite: short code reserved" ErrAliasTaken) else Ok tt)) d' s').
Proof.
  intros HR Ht Hcode HE. assert (Ht2 : strings_ok [cr_shortCode r; code_ID (cr_c r)]) by (inversion Ht as [|? ? H1 H2]; inversion H2; by repeat constructor).
  unfold reserved in HE. revert HE. unfold reserve, sql_reserve. rewrite given_ok by (done || constructor). cbv zeta. rewrite (res_at d) by done.
  set (row := {| pr_short_code := cr_shortCode r; pr_code_id := _; pr_reserved_at := Postgres.now env; pr_released_at := _ |}).
  set (row' := {| ar_short_code := _; ar_code_id := _; ar_reserved_at := _; ar_released_at := _ |}). intros HE.
  assert (Hins : same_rows (set_reservations (<[cr_shortCode r := row]> (pg_reservations d)) d)
                   (with_reservations (<[cr_shortCode r := row']> (tb_reservations s)) s)).
  { rewrite (sr_res _ _ HR). change row' with (enc_res row). rewrite <- fmap_insert.
    apply same_rows_res; [done|].
    intros k x [[_ <-]|[_ Hk]]%lookup_insert_Some; [|by apply (sr_res_ok _ _ HR k)]. split; [by apply micro_now|done]. }
  destruct (pg_reservations d !! cr_shortCode r) as [old|]; cbn [fmap option_fmap option_map] in *.
  - destruct (pr_released_at old) eqn:Eo; cbn [enc_res ar_released_at] in *; rewrite Eo in *; cbn [fmtTimePtr fmap option_fmap option_map both] in *.
    + by apply psim_ret.
    + apply psim_ret; [done|]. by apply HE.
  - rewrite (sr_codes _ _ HR), references_fmap, Hcode. by apply psim_ret.
Qed.

(** The constraints of the two tables of codes, by the rule they enforce. *)
Lemma codes_unique_enc d s r :
  same_rows d s -> new_row_ok r ->
  Forall2 (fun u u' => forall k x, pg_codes d !! k = Some x ->
             u_clash u' (enc_code (Postgres.codes_row r)) (enc_code x) = u_clash u (Postgres.codes_row r) x)
    pg_codes_unique codes_unique.
Proof.
  intros HR Hr. repeat constructor. intros k x Hk.
  apply codes_clash_enc; [by apply codes_row_ok|by apply (sr_code_ok _ _ HR k)].
Qed.

Definition code_rules : list store_sentinel := [ErrConflict; ErrAliasTaken; ErrClientRefTaken].

Lemma pg_rules : Forall2 (fun u x => same_error (Postgres.translate (u_err u)) (Sentinel (SStore x))) pg_codes_unique code_rules.
Proof. repeat constructor; by intros []. Qed.

Lemma sqlite_rules : Forall2 (fun u x => same_error (Sqlite.translate (u_err u)) (Sentinel (SStore x))) codes_unique code_rules.
Proof. repeat constructor; by intros []. Qed.

Lemma rule_broken r s i u x :
  codes_unique !! i = Some u -> code_rules !! i = Some x ->
  sql_exists (u_clash u (Sqlite.codes_row r)) (tb_codes s) = true -> x ∈ broken r s.
Proof.
  intros Hu Hx Hc. unfold broken, code_broken. rewrite !elem_of_app. right; left.
  destruct i as [|[|[|i]]]; cbn in Hu, Hx; simplify_eq/=;
    [left|right; left|right; right; left]; by apply in_when.
Qed.

Lemma insert_code_concur r d s u u' :
  same_rows d s -> new_row_ok r -> u ∈ pg_codes_unique -> u' ∈ codes_unique ->
  sql_exists (u_clash u (Postgres.codes_row r)) (pg_codes d) = true ->
  sql_exists (u_clash u' (enc_code (Postgres.codes_row r))) (enc_code <$> pg_codes d) = true ->
  same_failure (concur (broken r s)) (u_err u) (u_err u').
Proof.
  intros HR Hr [i Hi]%list_elem_of_lookup [j Hj]%list_elem_of_lookup Hu Hu'.
  pose proof (codes_unique_enc d s r HR Hr) as H2.
  rewrite enc_codes_row, <- (sr_codes _ _ HR) in Hu'. split.
  - destruct (Forall2_lookup_l _ _ _ _ _ H2 Hi) as (u1 & H1 & Hc).
    destruct (Forall2_lookup_l _ _ _ _ _ pg_rules Hi) as (x & Hx & He). apply (reports_in x); [done|].
    apply (rule_broken r s i u1); [done..|]. rewrite <- enc_codes_row, (sr_codes _ _ HR).
    by rewrite (exists_enc enc_code (pg_codes d) (u_clash u (Postgres.codes_row r))).
  - destruct (Forall2_lookup_l _ _ _ _ _ sqlite_rules Hj) as (x & Hx & He). apply (reports_in x); [done|].
    by apply (rule_broken r s j u').
Qed.

Lemma insert_styling_concur r d s u u' :
  same_rows d s -> u ∈ pg_styling_unique -> u' ∈ styling_unique ->
  sql_exists (u_clash u' (enc_styling (Postgres.styling_row (cr_styling r)))) (enc_styling <$> pg_styling d) = true ->
  same_failure (concur (broken r s)) (u_err u) (u_err u').
Proof.
  intros HR ->%list_elem_of_singleton ->%list_elem_of_singleton Hc. rewrite <- (sr_styling _ _ HR) in Hc.
  assert (Hin : ErrConflict ∈ broken r s) by (unfold broken; rewrite elem_of_app; left; by apply in_when).
  split; (apply (reports_in ErrConflict); [by intros []|done]).
Qed.

Lemma insertCode_sim r d s :
  same_rows d s -> new_row_ok r -> row_encodable r ->
  psim (concur (broken r s)) (Postgres.insertCode env no_fault r) (Sqlite.insertCode env no_fault r) d s.
Proof.
  intros HR Hr (Ht1 & Ht2 & Hi1 & Hi2). unfold Postgres.insertCode, Sqlite.insertCode.
  apply psim_statement; [done|]. unfold insert_styling, sql_insert_styling.
  rewrite given_ok by (done || by repeat constructor). rewrite (sr_styling _ _ HR), <- enc_styling_row.
  apply both_insert_as; [by repeat constructor|intros; by eapply insert_styling_concur|done|].
  set (d1 := set_styling _ d). set (s1 := with_styling _ s).
  assert (HR1 : same_rows d1 s1).
  { apply same_rows_styling; [done|].
    intros k x [[_ <-]|[_ Hk]]%lookup_insert_Some; [apply Hr|by apply (sr_scale _ _ HR k)]. }
  apply psim_statement; [done|]. unfold insert_code_row, sql_insert_code. rewrite given_ok by (done || constructor). cbv zeta.
  rewrite <- enc_codes_row, (sr_codes _ _ HR1), (sr_users _ _ HR1), (sr_styling _ _ HR1), !references_fmap.
  change (c_id (enc_code (Postgres.codes_row r))) with (pc_id (Postgres.codes_row r)).
  assert (Hsty : references (pc_styling_id (Postgres.codes_row r)) (pg_styling d1) = true).
  { apply bool_decide_eq_true_2. cbn. rewrite lookup_insert_eq. by eexists. }
  change (c_styling_id (enc_code (Postgres.codes_row r))) with (pc_styling_id (Postgres.codes_row r)).
  change (c_user_id (enc_code (Postgres.codes_row r))) with (pc_user_id (Postgres.codes_row r)). rewrite Hsty, andb_true_r.
  apply both_insert_as; [by apply (codes_unique_enc d1 s1)|intros u u'; by apply (insert_code_concur r d s)| |].
  - change (pg_users d1) with (pg_users d). change (pc_user_id (Postgres.codes_row r)) with (code_UserID (cr_c r)).
    intros Hu. assert (Hin : ErrNotFound ∈ broken r s).
    { unfold broken, code_broken. rewrite !elem_of_app. right; left; right; right; right.
      apply in_when. by rewrite (sr_users _ _ HR), references_fmap, Hu. }
    split; (apply (reports_in ErrNotFound); [by intros []|done]).
  - set (d2 := set_codes _ d1). set (s2 := with_codes _ s1).
    assert (HR2 : same_rows d2 s2).
    { apply same_rows_codes; [done|].
      intros k x [[_ <-]|[_ Hk]]%lookup_insert_Some; [by apply codes_row_ok|by apply (sr_code_ok _ _ HR1 k)]. }
    apply psim_statement; [done|]. apply reserve_sim; [done|done| |].
    + apply bool_decide_eq_true_2. cbn. rewrite lookup_insert_eq. by eexists.
    + intros Hres. assert (Hin : ErrAliasTaken ∈ broken r s).
      { unfold broken. rewrite !elem_of_app. right; right. by apply in_when. }
      split; (apply (reports_in ErrAliasTaken); [by intros []|done]).
Qed.

Lemma insert_codes_same rows d s :
  same_rows d s -> Forall new_row_ok rows -> Forall row_encodable rows ->
  psim (concur (batch_broken env rows s)) (Postgres.insert_codes env no_fault rows)
    (Sqlite.insert_codes env no_fault rows) d s.
Proof.
  intros HR Hr. revert d s HR. induction Hr as [|r rows Hr _ IH]; intros d s HR He; [by apply psim_ret|].
  apply Forall_cons in He as [H1 H2]. cbn [batch_broken Postgres.insert_codes Sqlite.insert_codes].
  destruct (insertCode_sim r d s HR Hr H1) as (x & d1 & x' & s1 & R1 & R2 & Ha & HR1).
  destruct (insertCode_spec env Hctx Hnow r s) as [[Hb Hs]|(e & s2 & Hs & Hb)];
    destruct (runs_det _ _ _ _ _ _ R2 Hs) as [-> ->].
  - rewrite Hb. destruct x as [[]|]; [|done].
    destruct (IH d1 (after_row env r s) HR1 H2) as (y & d2 & y' & s2 & R3 & R4 & Ha' & HR2).
    exists y, d2, y', s2. split_and!; try done; by eapply runs_try.
  - destruct x as [|e']; [done|]. exists (Err e'), d1, (Err e), s2. split_and!; try done; [by apply runs_try_Err..|].
    destruct (broken r s) as [|b bs] eqn:Eb; [by destruct (reports_nonempty _ _ Hb)|exact Ha].
Qed.

(** How the errors of a batch of codes compare. *)
Definition codes_concur (cs : list Code) (s : sqliteDB) (e e' : error) : Prop :=
  match Sqlite.new_rows env 0 cs with
  | Ok rows => concur (batch_broken env rows s) e e'
  | Err _ => same_error e e'
  end.

Lemma pg_CreateCodes_sim cs d s :
  same_rows d s -> Forall row_ok cs ->
  (forall rows, Postgres.new_rows env 0 cs = Ok rows -> Forall row_encodable rows) ->
  psim (codes_concur cs s) (Postgres.CreateCodes env no_fault cs) (Sqlite.CreateCodes env no_fault cs) d s.
Proof.
  intros HR Hcs He. unfold Postgres.CreateCodes, Sqlite.CreateCodes, codes_concur. destruct cs as [|c cs]; [by apply psim_ret|].
  pose proof (new_rows_same 0 (c :: cs)) as Hs. pose proof (new_rows_ok 0 (c :: cs)) as Hok.
  destruct (Postgres.new_rows env 0 (c :: cs)) as [rows|], (Sqlite.new_rows env 0 (c :: cs)) as [rows'|]; try done.
  - subst rows'. apply psim_try; [apply psim_tx; [done|]|].
    + apply insert_codes_same; [done|by apply Hok|by apply He].
    + intros _ d1 s1 HR1. by apply psim_ret.
  - by apply psim_ret.
Qed.

(** ** Scans *)
Lemma sorted_snoc (l : list Z) b x :
  StronglySorted Z.lt l -> Forall (fun i => i <= b) l -> b < x -> StronglySorted Z.lt (l ++ [x])%list.
Proof.
  intros Hs Hb Hx. apply StronglySorted_app_2; [|done|by repeat constructor].
  intros y z Hy ->%list_elem_of_singleton. rewrite Forall_forall in Hb. specialize (Hb y Hy). lia.
Qed.

Lemma bounded_snoc (l : list Z) b x : Forall (fun i => i <= b) l -> b < x -> Forall (fun i => i <= x) (l ++ [x])%list.
Proof.
  intros Hb Hx. apply Forall_app. split; [|by repeat constructor]. apply (Forall_impl _ _ _ Hb). lia.
Qed.

Lemma same_events_snoc evs last t seq id r :
  same_events evs last t seq -> last < id ->
  same_events (evs ++ [(id, r)])%list id (<[seq + 1 := enc_event (seq + 1) r]> t) (seq + 1).
Proof.
  intros (L & <- & -> & H1 & H2 & H3 & H4) Hid. exists (L ++ [(seq + 1, (id, r))])%list. rewrite !fmap_app. cbn [fmap list_fmap fst snd].
  split_and!; [done| |apply (sorted_snoc _ seq); [done..|lia]|apply (bounded_snoc _ seq); [done|lia]|by apply (sorted_snoc _ last)|by apply (bounded_snoc _ last)].
  etransitivity; [symmetry; apply list_to_map_snoc|done]. rewrite <- list_fmap_compose. change (fst ∘ event_pair) with (fst (A := Z) (B := Z * pgEvent)).
  intros Hin. rewrite Forall_forall in H2. specialize (H2 _ Hin). lia.
Qed.

Lemma same_rows_events d s t last t' seq :
  same_rows d s -> same_events t last t' seq -> (forall p, p ∈ t -> micro (pe_occurred_at p.2)) ->
  same_rows (set_events t last d) (with_events t' seq s).
Proof. intros [] Ht Hm. by split. Qed.

Lemma enc_event_row id ev : enc_event id (Postgres.event_row ev) = Sqlite.event_row id ev.
Proof. unfold enc_event, Postgres.event_row, Sqlite.event_row. cbn -[fmtTime utc]. by rewrite fmtTime_utc. Qed.

Definition event_texts (ev : ScanEvent) : list string := [ev_CodeID ev; UAFamily ev; ev_DeviceCategory ev; ReferrerHost ev].

Lemma insert_event_same k ev d s :
  same_rows d s -> strings_ok (event_texts ev) -> year_ok (OccurredAt ev) -> 0 <= tb_events_seq s -> tb_events_seq s + 1 < 2 ^ 63 ->
  both same_error (insert_event env k ev d) (sql_insert_event ev s) (fun _ _ d' s' =>
    same_rows d' s' /\ tb_events_seq s' = tb_events_seq s + 1 /\ pg_rollups d' = pg_rollups d).
Proof.
  intros HR Ht Hy H0 Hseq. unfold insert_event, sql_insert_event. rewrite given_ok by (done || constructor).
  assert (Hid : int64_okb (tb_events_seq s + 1) = true).
  { unfold int64_okb. rewrite andb_true_iff, Z.leb_le, Z.ltb_lt. lia. }
  cbv zeta. rewrite Hid. cbn [negb]. rewrite (sr_codes _ _ HR), references_fmap.
  destruct (references _ _); cbn [negb both]; [|by intros []]. split; [|done].
  rewrite <- enc_event_row. apply same_rows_events; [done| |].
  - apply (same_events_snoc _ (pg_last d)); [apply HR|apply next_above].
  - intros p [Hp| ->%list_elem_of_singleton]%elem_of_app; [by apply (sr_event_ok _ _ HR)|]. by apply micro_utc.
Qed.

(** *** Rollups *)
Lemma enc_key_inj k k' : micro k.1.1.2 -> micro k'.1.1.2 -> enc_key k = enc_key k' -> k = k'.
Proof.
  destruct k as [[[c h] dm] v], k' as [[[c' h'] dm'] v']. cbn [fst snd enc_key]. intros Hh Hh' [= -> E -> ->].
  by rewrite (fmtTime_inj h h').
Qed.

Definition add_count (m : gmap (string * Z * string * string) Z) (r : RollupDelta) : gmap (string * Z * string * string) Z :=
  <[rollup_key r := default 0 (m !! rollup_key r) + rd_Count r]> m.

(** The counts stay in 32 bits. *)
Fixpoint counts_fit (m : gmap (string * Z * string * string) Z) (rs : list RollupDelta) : Prop :=
  match rs with
  | [] => True
  | r :: rs' => int4_okb (rd_Count r) = true
                /\ int4_okb (default 0 (m !! rollup_key r) + rd_Count r) = true /\ counts_fit (add_count m r) rs'
  end.

Lemma rollup_key_hour r : year_ok (HourBucket r) -> micro (rollup_key r).1.1.2.
Proof. intros Hy. unfold rollup_key. cbn [fst snd]. apply micro_utc. apply (micro_hour _ Hy). Qed.

Lemma rollup_pk_enc r : rollup_pk r = enc_key (rollup_key r).
Proof. unfold rollup_pk, enc_key, rollup_key. by rewrite fmtTime_utc. Qed.

Lemma same_rows_count d s r :
  same_rows d s -> year_ok (HourBucket r) ->
  same_rows (set_rollups (add_count (pg_rollups d) r) d)
    (with_rollups (<[rollup_pk r := SqlInt (default 0 (pg_rollups d !! rollup_key r) + rd_Count r)]> (tb_rollups s)) s).
Proof.
  intros [] Hy. pose proof (rollup_key_hour r Hy) as Hk. rewrite rollup_pk_enc. unfold add_count. split; try done; cbn.
  - intros k Hm. rewrite !lookup_insert. destruct (decide (rollup_key r = k)) as [<-|Hne]; [by rewrite decide_True|].
    rewrite decide_False by (intros E; by apply Hne, enc_key_inj). by apply sr_rollups.
  - intros k n [[<- _]|[_ Hn]]%lookup_insert_Some; [by exists (rollup_key r)|by apply (sr_keys k n)].
  - intros k n [[<- _]|[_ Hn]]%lookup_insert_Some; [done|by apply (sr_hours k n)].
Qed.

Definition rollup_texts (r : RollupDelta) : list string := [rd_CodeID r; rd_Dimension r; rd_Value r].

Lemma int4_int64 z : int4_okb z = true -> int64_okb z = true.
Proof. unfold int4_okb, int64_okb. rewrite !andb_true_iff, !Z.leb_le, !Z.ltb_lt. lia. Qed.

Lemma upsert_same k r rs d s :
  same_rows d s -> strings_ok (rollup_texts r) -> year_ok (HourBucket r) -> counts_fit (pg_rollups d) (r :: rs) ->
  both same_error (upsert_rollup k r d) (sql_upsert_rollup r s) (fun _ _ d' s' =>
    same_rows d' s' /\ counts_fit (pg_rollups d') rs).
Proof.
  intros HR Ht Hy (Hc & Hf & Hrest). unfold upsert_rollup, sql_upsert_rollup. rewrite given_ok by (done || by repeat constructor).
  pose proof (same_rows_count d s r HR Hy) as HR'. unfold add_count in *.
  rewrite rollup_pk_enc in *. rewrite (sr_rollups _ _ HR) by by apply rollup_key_hour.
  destruct (pg_rollups d !! rollup_key r) as [n|]; cbn [fmap option_fmap option_map default] in *.
  - change (id n) with n in Hf, HR', Hrest. rewrite Hf. cbn [both]. unfold sql_plus. rewrite (int4_int64 _ Hf). by cbn [integer_affinity].
  - rewrite (sr_codes _ _ HR), references_fmap. destruct (references _ _); cbn [both]; [done|by intros []].
Qed.

(** *** Prepared statements *)
Lemma exec_each_sim {X} (sp : nat -> X -> pgDB -> res dbErr (unit * pgDB)) (sl : X -> sqliteDB -> res dbErr (unit * sqliteDB))
    (I : list X -> pgDB -> sqliteDB -> Prop) :
  (forall k x xs d s, I (x :: xs) d s -> both same_error (sp k x d) (sl x s) (fun _ _ => I xs)) ->
  forall xs k d s, I xs d s -> exists r d' r' s' ys,
    runs (Postgres.exec_each env no_fault sp k xs) d r d' /\ runs (Sqlite.exec_each env no_fault sl xs) s r' s'
    /\ answers same_error r r' /\ I ys d' s' /\ (is_Ok r = true -> ys = []).
Proof.
  intros Hstep. induction xs as [|x xs IH]; intros k d s HI.
  - exists (Ok tt), d, (Ok tt), s, []. split_and!; try done; apply runs_return.
  - specialize (Hstep k x xs d s HI). cbn [Postgres.exec_each Sqlite.exec_each].
    destruct (sp k x d) as [[[] d1]|e] eqn:E1, (sl x s) as [[[] s1]|e'] eqn:E2; try done; cbn [both] in Hstep.
    + destruct (IH (S k) d1 s1 Hstep) as (r & d' & r' & s' & ys & H1 & H2 & H3 & H4 & H5).
      exists r, d', r', s', ys. split_and!; try done; (eapply runs_checked; [by apply runs_statement_Ok|done]).
    + exists (Err (Postgres.translate e)), d, (Err (Sqlite.translate e')), s, (x :: xs).
      split_and!; try done; by apply runs_checked_Err, runs_statement_Err.
Qed.

Lemma prepared_sim {X} (sp : nat -> X -> pgDB -> res dbErr (unit * pgDB)) sl (I : list X -> pgDB -> sqliteDB -> Prop) xs d s :
  (forall k x xs d s, I (x :: xs) d s -> both same_error (sp k x d) (sl x s) (fun _ _ => I xs)) -> I xs d s ->
  exists r d' r' s' ys,
    runs (Postgres.prepared env no_fault sp xs) d r d' /\ runs (Sqlite.prepared env no_fault sl xs) s r' s'
    /\ answers same_error r r' /\ I ys d' s' /\ (is_Ok r = true -> ys = []).
Proof.
  intros Hstep HI. destruct (exec_each_sim sp sl I Hstep xs 0 d s HI) as (r & d' & r' & s' & ys & H1 & H2 & H).
  exists r, d', r', s', ys. split_and!; [| |apply H..]; (destruct xs; [done|]);
    (eapply runs_checked; [by apply runs_statement_Ok|done]).
Qed.

(** A batch PostgreSQL can encode and count. *)
Record pg_batch_ok (b : ScanBatch) (d : pgDB) (s : sqliteDB) : Prop := {
  pb_events : Forall (fun ev => strings_ok (event_texts ev) /\ year_ok (OccurredAt ev)) (Events b);
  pb_rollups : Forall (fun r => strings_ok (rollup_texts r) /\ year_ok (HourBucket r)) (Rollups b);
  pb_seq : 0 <= tb_events_seq s /\ tb_events_seq s + Z.of_nat (length (Events b)) < 2 ^ 63;
  pb_counts : counts_fit (pg_rollups d) (Rollups b);
}.

Lemma batch_sim b d s :
  same_rows d s -> pg_batch_ok b d s ->
  psim same_error (_ <-! Postgres.prepared env no_fault (insert_event env) (Events b);
              Postgres.prepared env no_fault upsert_rollup (Rollups b))
    (_ <-! Sqlite.prepared env no_fault sql_insert_event (Events b);
     Sqlite.prepared env no_fault sql_upsert_rollup (Rollups b)) d s.
Proof.
  intros HR [He Hr [H0 Hs] Hc].
  destruct (prepared_sim (insert_event env) sql_insert_event (fun evs d' s' =>
      same_rows d' s' /\ Forall (fun ev => strings_ok (event_texts ev) /\ year_ok (OccurredAt ev)) evs
      /\ 0 <= tb_events_seq s' /\ tb_events_seq s' + Z.of_nat (length evs) < 2 ^ 63 /\ pg_rollups d' = pg_rollups d)
    (Events b) d s) as (r1 & d1 & r1' & s1 & ys & H1 & H2 & H3 & (HR1 & _ & _ & _ & Er) & _).
  { intros k ev evs d1 s1 (HR1 & [[Ht Hy] Hevs]%Forall_cons & G1 & G2 & G3). cbn [length] in G2.
    pose proof (insert_event_same k ev d1 s1 HR1 Ht Hy G1 ltac:(lia)) as Hb. unfold both in *.
    destruct (insert_event env k ev d1) as [[[] d2]|], (sql_insert_event ev s1) as [[[] s2]|]; try done.
    destruct Hb as (HR2 & -> & ->). split_and!; try done; lia. }
  { done. }
  destruct r1 as [[]|e], r1' as [[]|e']; try done.
  2: { exists (Err e), d1, (Err e'), s1. split_and!; try done; by apply runs_try_Err. }
  destruct (prepared_sim upsert_rollup sql_upsert_rollup (fun rs d' s' =>
      same_rows d' s' /\ Forall (fun r => strings_ok (rollup_texts r) /\ year_ok (HourBucket r)) rs
      /\ counts_fit (pg_rollups d') rs) (Rollups b) d1 s1) as (r2 & d2 & r2' & s2 & zs & H4 & H5 & H6 & (HR2 & _) & _).
  { intros k r rs d2 s2 (HR2 & [[Ht Hy] Hrs]%Forall_cons & Hf).
    pose proof (upsert_same k r rs d2 s2 HR2 Ht Hy Hf) as Hb. unfold both in *.
    destruct (upsert_rollup k r d2) as [[[] d3]|], (sql_upsert_rollup r s2) as [[[] s3]|]; try done. by destruct Hb. }
  { by rewrite Er. }
  exists r2, d2, r2', s2. split_and!; try done; by eapply runs_try.
Qed.

Lemma pg_InsertScanBatch_sim b d s :
  same_rows d s -> pg_batch_ok b d s ->
  psim same_error (Postgres.InsertScanBatch env no_fault b) (Sqlite.InsertScanBatch env no_fault b) d s.
Proof.
  intros HR Hb. unfold Postgres.InsertScanBatch, Sqlite.InsertScanBatch.
  change Postgres.malformed_event with Sqlite.malformed_event.
  change Postgres.malformed_rollup with Sqlite.malformed_rollup.
  pose proof (batch_sim b d s HR Hb) as Hsim.
  destruct (Events b) as [|ev evs] eqn:Ee, (Rollups b) as [|r rs] eqn:Er; [by apply psim_ret|..];
    (destruct (existsb _ _); [apply psim_ret; [done|by intros []]|];
     destruct (existsb _ _); [apply psim_ret; [done|by intros []]|]; by apply psim_tx).
Qed.

(** ** Analytics *)
Definition enc_count (p : (string * Z * string * string) * Z) : rollupPK * sqlNum := (enc_key p.1, SqlInt p.2).

Lemma rollup_rows_same d s :
  same_rows d s -> map_to_list (tb_rollups s) ≡ₚ enc_count <$> map_to_list (pg_rollups d).
Proof.
  intros HR. apply NoDup_Permutation.
  - apply NoDup_map_to_list.
  - apply NoDup_fmap_2_strong; [|apply NoDup_map_to_list].
    intros [k n] [k' n'] Hk Hk' [= E ->]. apply elem_of_map_to_list in Hk, Hk'.
    by rewrite (enc_key_inj k k' (sr_hours _ _ HR _ _ Hk) (sr_hours _ _ HR _ _ Hk') E).
  - intros [k n]. rewrite elem_of_map_to_list, list_elem_of_fmap. split.
    + intros Hl. destruct (sr_keys _ _ HR _ _ Hl) as (k' & Hm & ->).
      rewrite (sr_rollups _ _ HR k' Hm) in Hl. apply fmap_Some in Hl as (z & Hz & ->).
      exists (k', z). split; [done|]. by apply elem_of_map_to_list.
    + intros ([k' z] & [= -> ->] & Hk). apply elem_of_map_to_list in Hk.
      by rewrite (sr_rollups _ _ HR k' (sr_hours _ _ HR _ _ Hk)), Hk.
Qed.

Lemma pg_add_row_swap a p q : Postgres.add_row (Postgres.add_row a p) q = Postgres.add_row (Postgres.add_row a q) p.
Proof.
  destruct p as [[[[c h] dm] v] n], q as [[[[c' h'] dm'] v'] n'].
  exact (add_row_swap a ({| rk_code := c; rk_hour := h; rk_dim := dm; rk_val := v |}, n)
           ({| rk_code := c'; rk_hour := h'; rk_dim := dm'; rk_val := v' |}, n')).
Qed.

Lemma add_rows_count l a :
  Forall (fun p : (string * Z * string * string) * Z => micro p.1.1.1.2) l ->
  add_rows (enc_count <$> l) a = Ok (foldl Postgres.add_row a l).
Proof.
  intros Hl. revert a. induction Hl as [|[[[[c h] dm] v] n] l Hk _ IH]; intros a; [done|]. rewrite fmap_cons. cbn [foldl].
  unfold enc_count at 1. cbn [enc_key add_rows fst snd scan_int res_bind] in *. rewrite parse_fmtTime by done. cbn [res_bind]. apply IH.
Qed.

Lemma window_enc q p : year_ok (q_From q) -> year_ok (q_To q) -> micro p.1.1.1.2 -> in_range q (enc_count p) = in_window q p.
Proof.
  destruct p as [[[[c h] dm] v] n]. cbn [fst snd]. intros Hf Ht Hm. unfold in_range, in_window, enc_count. cbn [enc_key fst snd].
  rewrite <- (fmtTime_utc (q_From q)), <- (fmtTime_utc (q_To q)), !fmtTime_ltb by (done || by apply micro_utc).
  f_equal. f_equal. by rewrite <- Z.leb_antisym.
Qed.

Lemma pg_QueryAnalytics_sim q d s :
  same_rows d s -> strings_ok [q_CodeID q] -> year_ok (q_From q) -> year_ok (q_To q) ->
  psim same_error (Postgres.QueryAnalytics env no_fault q) (Sqlite.QueryAnalytics env no_fault q) d s.
Proof.
  intros HR Ht Hf Hto. apply psim_query; [done|]. rewrite given_ok by (done || constructor).
  assert (Hm : forall p, p ∈ map_to_list (pg_rollups d) -> micro p.1.1.1.2).
  { intros [k n] Hk. apply elem_of_map_to_list in Hk. by apply (sr_hours _ _ HR k n). }
  assert (Hp : filter (fun p => in_range q p = true) (map_to_list (tb_rollups s))
             ≡ₚ enc_count <$> filter (fun p => in_window q p = true) (map_to_list (pg_rollups d))).
  { rewrite (rollup_rows_same d s HR), filter_fmap. apply Permutation_refl'. f_equal. apply filter_ext_on.
    intros p Hin. cbn [compose]. by rewrite window_enc by auto. }
  destruct (Permutation_map_inv _ _ Hp) as (L & E & HL). change (map enc_count L) with (enc_count <$> L) in E. rewrite E.
  apply psim_ret; [done|]. rewrite add_rows_count.
  - cbn [res_bind answers]. by rewrite (foldl_Permutation Postgres.add_row pg_add_row_swap _ _ _ HL).
  - apply Forall_forall. intros p Hin. rewrite <- HL in Hin. apply list_elem_of_filter in Hin as [_ Hin]. by apply Hm.
Qed.

(** ** Retention *)
Section prune.
Context (L : list (Z * (Z * pgEvent))).
Context (Hids : StronglySorted Z.lt L.*1) (Hids' : StronglySorted Z.lt L.*2.*1).
Context (Hmicro : forall x, x ∈ L -> micro (pe_occurred_at x.2.2)).

(** The two orders by id are one. *)
Lemma sorted_before {A} (f g : A -> Z) l x y :
  StronglySorted Z.lt (f <$> l) -> StronglySorted Z.lt (g <$> l) -> x ∈ l -> y ∈ l -> f x < f y -> g x < g y.
Proof.
  induction l as [|a l IH]; intros Hf Hg Hx Hy Hlt; [by apply not_elem_of_nil in Hx|].
  rewrite fmap_cons in Hf, Hg. inversion Hf as [|? ? Hf1 Hf2]; subst. inversion Hg as [|? ? Hg1 Hg2]; subst.
  rewrite Forall_fmap, Forall_forall in Hf2, Hg2. apply elem_of_cons in Hx as [->|Hx], Hy as [->|Hy].
  - lia.
  - by apply Hg2.
  - specialize (Hf2 x Hx). cbn in Hf2. lia.
  - by apply IH.
Qed.

Lemma sorted_inj {A} (f : A -> Z) l x y : StronglySorted Z.lt (f <$> l) -> x ∈ l -> y ∈ l -> f x = f y -> x = y.
Proof.
  induction l as [|a l IH]; intros Hf Hx Hy E; [by apply not_elem_of_nil in Hx|].
  rewrite fmap_cons in Hf. inversion Hf as [|? ? Hf1 Hf2]; subst. rewrite Forall_fmap, Forall_forall in Hf2.
  apply elem_of_cons in Hx as [->|Hx], Hy as [->|Hy].
  - done.
  - specialize (Hf2 y Hy). cbn in Hf2. lia.
  - specialize (Hf2 x Hx). cbn in Hf2. lia.
  - by apply IH.
Qed.

Lemma sorted_nodup l : StronglySorted Z.lt l -> NoDup l.
Proof.
  induction 1 as [|x l Hl IH Hx]; constructor; [|done]. rewrite Forall_forall in Hx. intros Hin. specialize (Hx x Hin). lia.
Qed.

Lemma ids_order x y : x ∈ L -> y ∈ L -> (x.1 <? y.1) = (x.2.1 <? y.2.1).
Proof.
  rewrite <- list_fmap_compose in Hids'. intros Hx Hy. apply Bool.eq_iff_eq_true. rewrite !Z.ltb_lt. split.
  - by apply (sorted_before fst (fst ∘ snd) L).
  - by apply (sorted_before (fst ∘ snd) fst L).
Qed.

Definition pair_order (x y : Z * (Z * pgEvent)) : bool := pg_events_order x.2 y.2.

#[local] Instance events_swo : StrictWeakOrder events_order.
Proof. unfold events_order. apply _. Qed.
#[local] Instance pg_events_swo : StrictWeakOrder pg_events_order.
Proof. unfold pg_events_order. apply _. Qed.

Lemma events_order_enc x y : x ∈ L -> y ∈ L -> events_order (event_pair x).2 (event_pair y).2 = pair_order x y.
Proof.
  intros Hx Hy. unfold events_order, pair_order, pg_events_order, lex_less. cbn [event_pair enc_event snd se_occurred_at se_id].
  by rewrite !fmtTime_ltb, (ids_order x y) by auto.
Qed.

Lemma rows_of_events : rows_of (list_to_map (event_pair <$> L) : gmap Z scanEventsRow) ≡ₚ snd <$> (event_pair <$> L).
Proof.
  unfold rows_of. rewrite map_to_list_to_map; [done|]. rewrite <- list_fmap_compose.
  by apply sorted_nodup.
Qed.

Context (before : Z) (Hbefore : year_ok before) (limit : Z).

(** The events to drop, the oldest first. *)
Definition doomed : list (Z * (Z * pgEvent)) :=
  take (Z.to_nat limit) (sort_Slice pair_order (filter (fun x => pe_occurred_at x.2.2 < utc before) L)).

Lemma oldest_pg :
  take (Z.to_nat limit) (sort_Slice pg_events_order (filter (fun p => pe_occurred_at p.2 < utc before) L.*2)) = doomed.*2.
Proof.
  unfold doomed. rewrite filter_fmap, (sort_Slice_agree pair_order) by done. by rewrite fmap_take.
Qed.

Lemma old_select :
  sql_select (fun r => str_ltb (se_occurred_at r) (fmtTime before)) (list_to_map (event_pair <$> L) : gmap Z scanEventsRow)
  ≡ₚ (snd ∘ event_pair) <$> filter (fun x => pe_occurred_at x.2.2 < utc before) L.
Proof.
  unfold sql_select. rewrite rows_of_events, <- list_fmap_compose, filter_fmap. apply Permutation_refl'. f_equal.
  apply filter_ext_on. intros x Hx. cbn [compose event_pair enc_event snd se_occurred_at].
  rewrite <- (fmtTime_utc before), fmtTime_ltb, Z.ltb_lt; [done|by apply Hmicro|by apply micro_utc].
Qed.

Lemma oldest_sql :
  take (Z.to_nat limit) (sort_Slice events_order
    (sql_select (fun r => str_ltb (se_occurred_at r) (fmtTime before)) (list_to_map (event_pair <$> L) : gmap Z scanEventsRow)))
  = (snd ∘ event_pair) <$> doomed.
Proof.
  unfold doomed. rewrite fmap_take. f_equal.
  set (l := filter (fun x => pe_occurred_at x.2.2 < utc before) L).
  assert (Hl : forall x, x ∈ l -> x ∈ L) by (by intros x [_ Hx]%list_elem_of_filter).
  assert (Hagree : sort_Slice events_order ((snd ∘ event_pair) <$> l) = (snd ∘ event_pair) <$> sort_Slice pair_order l).
  { apply sort_Slice_agree. intros x y Hx Hy. apply events_order_enc; auto. }
  rewrite <- Hagree. apply (sort_Slice_perm events_order); [|by rewrite old_select].
  intros ? ? (x & -> & Hx)%list_elem_of_fmap (y & -> & Hy)%list_elem_of_fmap. apply Hl in Hx, Hy.
  cbn [compose]. rewrite !events_order_enc by done. unfold pair_order, pg_events_order, lex_less.
  destruct (Z.ltb_spec (pe_occurred_at x.2.2) (pe_occurred_at y.2.2)); [done|].
  destruct (Z.ltb_spec (pe_occurred_at y.2.2) (pe_occurred_at x.2.2)); [done|].
  intros H1%Z.ltb_ge H2%Z.ltb_ge. rewrite <- list_fmap_compose in Hids'.
  assert (x = y) as ->; [|done]. apply (sorted_inj (fst ∘ snd) L); [done..|]. cbn [compose]. lia.
Qed.

(** The rows kept. *)
Definition spared : list (Z * (Z * pgEvent)) := filter (fun x => x.1 ∉ doomed.*1) L.

Lemma doomed_in x : x ∈ doomed -> x ∈ L.
Proof.
  intros Hx. apply elem_of_take in Hx as (i & Hi%list_elem_of_lookup_2 & _).
  rewrite sort_Slice_Permutation_any in Hi. by apply list_elem_of_filter in Hi as [_ Hi].
Qed.

Lemma doomed_by_id x : x ∈ L -> x.1 ∈ doomed.*1 <-> x.2.1 ∈ doomed.*2.*1.
Proof.
  intros Hx. rewrite <- (list_fmap_compose snd fst), !list_elem_of_fmap. split; intros (y & E & Hy); exists y; split; try done.
  - by rewrite (sorted_inj fst L x y Hids Hx (doomed_in y Hy) E).
  - rewrite <- list_fmap_compose in Hids'. by rewrite (sorted_inj (fst ∘ snd) L x y Hids' Hx (doomed_in y Hy) E).
Qed.

Lemma kept_pg : filter (fun p => p.1 ∉ doomed.*2.*1) L.*2 = spared.*2.
Proof.
  unfold spared. rewrite filter_fmap. f_equal. apply filter_ext_on. intros x Hx.
  change (x.2.1 ∉ doomed.*2.*1 <-> x.1 ∉ doomed.*1). pose proof (doomed_by_id x Hx). tauto.
Qed.

Notation dropped := (list_to_set (se_id <$> ((snd ∘ event_pair) <$> doomed)) : gset Z).

Lemma dropped_id i : i ∈ dropped <-> i ∈ doomed.*1.
Proof. by rewrite elem_of_list_to_set, <- list_fmap_compose. Qed.

Lemma kept_sql :
  filter (fun p : Z * scanEventsRow => se_id p.2 ∉ dropped) (list_to_map (event_pair <$> L) : gmap Z scanEventsRow)
  = list_to_map (event_pair <$> spared).
Proof.
  assert (Hnd : NoDup (event_pair <$> L).*1) by (rewrite <- list_fmap_compose; by apply sorted_nodup).
  assert (Hnd' : NoDup (event_pair <$> spared).*1).
  { eapply sublist_NoDup; [exact Hnd|]. do 2 apply fmap_sublist. apply sublist_filter. }
  apply map_eq. intros id. apply option_eq. intros row.
  rewrite map_lookup_filter_Some, <- !elem_of_list_to_map by done. cbn [snd].
  rewrite dropped_id, !(list_elem_of_fmap event_pair). split.
  - intros [(x & [= -> ->] & Hx) Hd]. exists x. split; [done|]. by apply list_elem_of_filter.
  - intros (x & [= -> ->] & [Hd Hx]%list_elem_of_filter). split; [by exists x|done].
Qed.

Lemma gone_sql :
  sql_count (fun r => bool_decide (se_id r ∈ dropped)) (list_to_map (event_pair <$> L) : gmap Z scanEventsRow)
  = Z.of_nat (length L) - Z.of_nat (length spared).
Proof.
  unfold sql_count, sql_select. rewrite rows_of_events, <- (list_fmap_compose event_pair snd), filter_fmap, length_fmap.
  rewrite (filter_ext_on _ (fun x => x.1 ∈ doomed.*1))
    by (intros x Hx; cbn [compose]; rewrite bool_decide_eq_true; apply dropped_id).
  pose proof (Permutation_length (filter_app_complement (fun x => x.1 ∈ doomed.*1) L)) as Hl.
  rewrite length_app in Hl. unfold spared. lia.
Qed.
End prune.

Lemma sublist_kept {A} (R : A -> A -> Prop) (P : A -> Prop) k l :
  sublist k l -> StronglySorted R l /\ Forall P l -> StronglySorted R k /\ Forall P k.
Proof.
  induction 1 as [|x k l Hs IH|x k l Hs IH]; [done|..].
  - intros [[H1 H2]%StronglySorted_inv [H3 H4]%Forall_cons]. destruct IH as [IH1 IH2]; [done|].
    split; constructor; try done. rewrite Forall_forall in *. intros y Hy. apply H2. by eapply sublist_subseteq.
  - intros [[H1 H2]%StronglySorted_inv [H3 H4]%Forall_cons]. by apply IH.
Qed.

Lemma prune_same before limit d s :
  same_rows d s -> year_ok before ->
  both same_error (prune (utc before) limit d) (sql_prune (fmtTime before) limit s) (fun n n' d' s' => n = n' /\ same_rows d' s').
Proof.
  intros HR Hb. destruct (sr_events _ _ HR) as (L & El & Et & H1 & H2 & H3 & H4).
  assert (Hm : forall x, x ∈ L -> micro (pe_occurred_at x.2.2)).
  { intros x Hx. apply (sr_event_ok _ _ HR x.2). rewrite <- El. by apply list_elem_of_fmap_2. }
  unfold prune, sql_prune. rewrite <- El in H3, H4 |- *. rewrite Et.
  rewrite (oldest_pg L before limit), (oldest_sql L H1 H3 Hm before Hb limit), (kept_pg L H1 H3 before limit).
  rewrite (kept_sql L H1 before limit), (gone_sql L H1 before limit), !length_fmap. cbn [both]. split; [done|].
  apply same_rows_events; [done| |].
  - assert (Hsub : sublist (spared L before limit) L) by apply sublist_filter.
    destruct (sublist_kept Z.lt (fun i => i <= tb_events_seq s) _ _ (fmap_sublist fst _ _ Hsub) (conj H1 H2)) as [G1 G2].
    destruct (sublist_kept Z.lt (fun i => i <= pg_last d) _ _ (fmap_sublist fst _ _ (fmap_sublist snd _ _ Hsub)) (conj H3 H4)) as [G3 G4].
    exists (spared L before limit). by split_and!.
  - intros p (x & -> & [_ Hx]%list_elem_of_filter)%list_elem_of_fmap. by apply Hm.
Qed.

Lemma pg_PruneScanEvents_sim before limit d s :
  same_rows d s -> year_ok before ->
  psim same_error (Postgres.PruneScanEvents env no_fault before limit) (Sqlite.PruneScanEvents env no_fault before limit) d s.
Proof.
  intros HR Hb. unfold Postgres.PruneScanEvents, Sqlite.PruneScanEvents.
  destruct (limit <=? 0); [by apply psim_ret|]. apply psim_statement; [done|].
  pose proof (prune_same before limit d s HR Hb) as Hp. unfold both in *.
  destruct (prune _ _ _) as [[n d']|], (sql_prune _ _ _) as [[n' s']|]; try done. destruct Hp as [-> HR']. by apply psim_ret.
Qed.
End sim.
