(* ===== verification/PostgresProps.v ===== *)
(** * What the PostgreSQL driver guarantees

    The walkers; the operations as one step function, simulated over any
    history by the SQLite driver; and the theorem: the two drivers agree, on
    a server that orders texts bytewise and folds ASCII letters, as long as
    the values fit what PostgreSQL can hold. *)
From Stdlib Require Import Ascii String.
From S2P Require Import GoLib Act Domain Base64 Rollup MemStore MemStoreFacts Listing Concrete Sql Sqlite SqliteRel SqliteCodes SqliteCreate SqliteScans SqliteProps SqliteDemo Postgres PostgresRel PostgresScans.
Local Open Scope string_scope.
Local Open Scope Z_scope.
Local Open Scope go_scope.

Section props.
Context `{U : UnicodeTable} `{TF : TimeFormat} {HTF : TimeFormatOk} `{ST : SqlTime} {Hst : SqlTimeOk}.
Context `{SE : SqlEngine} {Hse : SqlEngineOk} `{SV : Server} {HSV : ServerOk}.

(** ** Walking *)
Section walk.
Context (env : Env) (Hctx : ctx_Err env = None).
Context {S : Type}.

Lemma pg_walk_visits {R A} (scan : R -> A) (fn : A -> S -> result unit * S) rows st d :
  runs (Postgres.walk env no_fault scan (watching fn) rows st) d (visit fn (scan <$> rows) st) d.
Proof.
  revert st. induction rows as [|r rows IH]; intros st; cbn [Postgres.walk fmap list_fmap visit].
  - eapply runs_then; [by apply runs_query|]. apply runs_return.
  - eapply runs_then; [by apply runs_query|]. cbn beta iota.
    eapply runs_then; [apply runs_return|]. destruct (fn (scan r) st) as [[[]|e] st']; [apply IH|apply runs_return].
Qed.

(** Two walks hand out the same rows in the same order. *)
Definition walks_alike {A} (p : (A -> S -> Act pgDB (result unit * S)) -> S -> Act pgDB (result unit * S))
    (q : (A -> S -> Act sqliteDB (result unit * S)) -> S -> Act sqliteDB (result unit * S)) (d : pgDB) (s : sqliteDB) : Prop :=
  forall fn st, exists l, runs (p (watching fn) st) d (visit fn l st) d /\ runs (q (watching fn) st) s (visit fn l st) s.

Lemma for_each_alike {R R' A} (enc : R -> R') (rows : pgDB -> list R) (rows' : sqliteDB -> list R')
    (scan : R -> A) (scan' : R' -> result A) d s :
  rows' s = enc <$> rows d -> (forall r, r ∈ rows d -> scan' (enc r) = Ok (scan r)) ->
  walks_alike (Postgres.for_each env no_fault rows scan) (Sqlite.for_each env no_fault rows' scan') d s.
Proof.
  intros Hr Hs fn st. exists (scan <$> rows d). split.
  - unfold Postgres.for_each. eapply runs_then; [by apply runs_query|]. cbn beta iota. apply pg_walk_visits.
  - unfold Sqlite.for_each. eapply runs_then; [by apply runs_query|]. cbn beta iota.
    apply walk_visits; [done|]. rewrite Hr, Forall2_fmap_l, Forall2_fmap_r. by apply Forall_Forall2_diag, Forall_forall.
Qed.
End walk.

Lemma users_walk env d s {S} : ctx_Err env = None -> same_rows d s ->
  walks_alike (S := S) (Postgres.ForEachUser env no_fault) (Sqlite.ForEachUser env no_fault) d s.
Proof.
  intros Hctx HR. assert (Hok : forall r, r ∈ rows_of (pg_users d) -> pg_user_ok r)
    by (intros r [k Hk]%elem_of_rows; by apply (sr_user_ok _ _ HR k)).
  apply (for_each_alike env Hctx enc_user).
  - rewrite (sr_users _ _ HR), rows_of_fmap. apply sort_Slice_agree. intros x y Hx%Hok Hy%Hok.
    unfold users_order, pg_users_order, lex_less. cbn [enc_user users_created_at users_id].
    by rewrite !fmtTime_ltb, !collation_bytes by (apply Hx || apply Hy).
  - intros r Hr. rewrite sort_Slice_Permutation_any in Hr. apply scan_enc_user; auto.
Qed.

Lemma codes_walk env d s {S} : ctx_Err env = None -> same_rows d s ->
  walks_alike (S := S) (Postgres.ForEachCode env no_fault) (Sqlite.ForEachCode env no_fault) d s.
Proof.
  intros Hctx HR. assert (Hok : Forall pair_ok (join_profiles d (rows_of (pg_codes d)))).
  { apply (joined_ok d s); [done|]. apply Forall_forall. intros r [k Hk]%elem_of_rows. by apply (sr_code_ok _ _ HR k). }
  rewrite Forall_forall in Hok. apply (for_each_alike env Hctx enc_pair).
  - rewrite (sr_codes _ _ HR), rows_of_fmap, (join_enc d) by done. apply sort_Slice_agree.
    intros x y [Hx _]%Hok [Hy _]%Hok.
    unfold codes_walk_order, pg_codes_walk_order, lex_less. cbn [enc_pair fst enc_code c_created_at c_id].
    by rewrite !fmtTime_ltb, !collation_bytes by (apply Hx || apply Hy).
  - intros r Hr. rewrite sort_Slice_Permutation_any in Hr. apply scan_enc_code; auto.
Qed.

Lemma reservations_walk env d s {S} : ctx_Err env = None -> same_rows d s ->
  walks_alike (S := S) (Postgres.ForEachReservation env no_fault) (Sqlite.ForEachReservation env no_fault) d s.
Proof.
  intros Hctx HR. apply (for_each_alike env Hctx enc_res).
  - rewrite (sr_res _ _ HR), rows_of_fmap. apply sort_Slice_agree. intros x y _ _. by rewrite collation_bytes.
  - intros r Hr. rewrite sort_Slice_Permutation_any in Hr. apply elem_of_rows in Hr as [k Hk].
    destruct (sr_res_ok _ _ HR _ _ Hk) as [H1 H2]. unfold Sqlite.scanReservation. cbn [enc_res ar_reserved_at ar_released_at].
    rewrite parse_fmtTime by done. cbn [res_bind]. by rewrite parse_fmtTimePtr.
Qed.

#[local] Instance rollups_order_swo : StrictWeakOrder rollups_order.
Proof. unfold rollups_order. apply _. Qed.

Lemma rollups_order_total x y : rollups_order x y = false -> rollups_order y x = false -> x.1 = y.1.
Proof.
  destruct x as [[[[c h] dm] v] n], y as [[[[c' h'] dm'] v'] n']. unfold rollups_order, lex_less. cbn [fst snd].
  destruct (str_ltb c c') eqn:E1; [done|]. destruct (str_ltb c' c) eqn:E2; [done|].
  destruct (str_ltb h h') eqn:E3; [done|]. destruct (str_ltb h' h) eqn:E4; [done|].
  destruct (str_ltb dm dm') eqn:E5; [done|]. destruct (str_ltb dm' dm) eqn:E6; [done|]. intros E7 E8.
  by rewrite (str_ltb_total _ _ E1 E2), (str_ltb_total _ _ E3 E4), (str_ltb_total _ _ E5 E6), (str_ltb_total _ _ E7 E8).
Qed.

Lemma rollups_walk env d s {S} : ctx_Err env = None -> same_rows d s ->
  walks_alike (S := S) (Postgres.ForEachRollup env no_fault) (Sqlite.ForEachRollup env no_fault) d s.
Proof.
  intros Hctx HR. assert (Hm : forall p, p ∈ map_to_list (pg_rollups d) -> micro p.1.1.1.2)
    by (intros [k n] Hk; apply elem_of_map_to_list in Hk; by apply (sr_hours _ _ HR k n)).
  apply (for_each_alike env Hctx enc_count).
  - rewrite (sort_Slice_perm rollups_order (enc_count <$> map_to_list (pg_rollups d))).
    + apply sort_Slice_agree. intros x y Hx%Hm Hy%Hm. destruct x as [[[[c h] dm] v] n], y as [[[[c' h'] dm'] v'] n'].
      unfold rollups_order, pg_rollups_order, lex_less, enc_count. cbn [enc_key fst snd] in *.
      by rewrite !fmtTime_ltb, !collation_bytes.
    + intros ? ? ([k n] & -> & Hk)%list_elem_of_fmap ([k' n'] & -> & Hk')%list_elem_of_fmap H1 H2.
      pose proof (rollups_order_total _ _ H1 H2) as E. cbn [enc_count fst] in E. pose proof (Hm _ Hk) as M. pose proof (Hm _ Hk') as M'.
      cbn [fst] in M, M'. apply elem_of_map_to_list in Hk, Hk'. rewrite (enc_key_inj k k' M M' E) in *. congruence.
    + symmetry. by apply rollup_rows_same.
  - intros [[[[c h] dm] v] n] Hr. rewrite sort_Slice_Permutation_any in Hr. apply Hm in Hr. cbn [fst snd] in Hr.
    unfold Sqlite.scanRollup, enc_count. cbn [enc_key fst snd scan_int res_bind]. by rewrite parse_fmtTime.
Qed.

(** The four walkers. *)
Definition same_exports (env : Env) (d : pgDB) (s : sqliteDB) : Prop :=
  (forall S, walks_alike (S := S) (Postgres.ForEachUser env no_fault) (Sqlite.ForEachUser env no_fault) d s)
  /\ (forall S, walks_alike (S := S) (Postgres.ForEachCode env no_fault) (Sqlite.ForEachCode env no_fault) d s)
  /\ (forall S, walks_alike (S := S) (Postgres.ForEachRollup env no_fault) (Sqlite.ForEachRollup env no_fault) d s)
  /\ (forall S, walks_alike (S := S) (Postgres.ForEachReservation env no_fault) (Sqlite.ForEachReservation env no_fault) d s).

Lemma exports_same env d s : ctx_Err env = None -> same_rows d s -> same_exports env d s.
Proof.
  intros Hctx HR. split_and!; intros S.
  - by apply users_walk.
  - by apply codes_walk.
  - by apply rollups_walk.
  - by apply reservations_walk.
Qed.

(** ** One step *)
Definition pg_out {A} (f : A -> outcome) (a : Act pgDB (result A)) : Act pgDB (result outcome) :=
  x <-! a; mret (Ok (f x)).

Definition pg_exec (env : Env) (fault : nat -> option dbErr) (o : op) : Act pgDB (result outcome) :=
  match o with
  | OpCreateUser u => pg_out unit_out (Postgres.CreateUser env fault u)
  | OpBumpTokenVersion id => pg_out OInt (Postgres.BumpTokenVersion env fault id)
  | OpCreateToken t => pg_out unit_out (Postgres.CreateToken env fault t)
  | OpRevokeToken id u => pg_out unit_out (Postgres.RevokeToken env fault id u)
  | OpTouchTokenLastUsed id t => pg_out unit_out (Postgres.TouchTokenLastUsed env fault id t)
  | OpCreateCodes cs => pg_out OCodes (Postgres.CreateCodes env fault cs)
  | OpUpdateDestination id u dst v => pg_out unit_out (Postgres.UpdateDestination env fault id u dst v)
  | OpSetCodeState id u s => pg_out unit_out (Postgres.SetCodeState env fault id u s)
  | OpDeleteCode id u => pg_out unit_out (Postgres.DeleteCode env fault id u)
  | OpReleaseAlias sc => pg_out unit_out (Postgres.ReleaseAlias env fault sc)
  | OpInsertScanBatch b => pg_out unit_out (Postgres.InsertScanBatch env fault b)
  | OpPruneScanEvents before limit => pg_out OInt (Postgres.PruneScanEvents env fault before limit)
  end.

Definition pg_step (env : Env) (fault : nat -> option dbErr) (o : op) (d : pgDB) : result outcome * pgDB :=
  let '(r, (_, d')) := pg_exec env fault o (0%nat, d) in (r, d').

(** What an operation may be given for PostgreSQL to hold it. *)
Definition pg_op_ok (env : Env) (o : op) (d : pgDB) (s : sqliteDB) : Prop :=
  match o with
  | OpCreateUser u =>
      strings_ok (user_texts u) /\ int4_okb (user_TokenVersion u) = true
      /\ stamp (user_CreatedAt u) /\ stamp_opt (user_LastLoginAt u) /\ ascii_str (user_Email u)
  | OpBumpTokenVersion id =>
      strings_ok [id] /\ forall k r, pg_users d !! k = Some r -> pu_id r = id -> int4_okb (pu_token_version r + 1) = true
  | OpCreateToken t => strings_ok [token_ID t; token_UserID t; token_Name t] /\ token_stamps t
  | OpRevokeToken id u => strings_ok [id; u]
  | OpTouchTokenLastUsed id t => strings_ok [id] /\ year_ok t
  | OpCreateCodes cs =>
      Forall row_ok cs /\ forall rows, Postgres.new_rows env 0 cs = Ok rows -> Forall row_encodable rows
  | OpUpdateDestination id u dst v => strings_ok [dst; id; u] /\ int4_okb v = true /\ versions4 id d
  | OpSetCodeState id u st => strings_ok [st; id; u] /\ versions4 id d
  | OpDeleteCode id u => strings_ok [id; u] /\ versions4 id d
  | OpReleaseAlias sc => strings_ok [ToLower sc] /\ ascii_str sc
  | OpInsertScanBatch b => pg_batch_ok b d s
  | OpPruneScanEvents before _ => year_ok before
  end.

(** How the errors compare, on the SQLite database [s]: they have the same
    sentinels; of a batch of codes, whose rows may break several rules at
    once, each driver reports a rule broken by the first row that breaks any. *)
Definition pg_op_errors (env : Env) (o : op) (s : sqliteDB) (e e' : error) : Prop :=
  match o with
  | OpCreateCodes cs => codes_concur env cs s e e'
  | _ => same_error e e'
  end.

Lemma psim_out {A} E (f : A -> outcome) (a : Act pgDB (result A)) b d s :
  psim E a b d s -> psim E (pg_out f a) (as_out f b) d s.
Proof.
  intros (r & d' & r' & s' & H1 & H2 & H3 & H4). exists (res_map f r), d', (res_map f r'), s'. split_and!; try done.
  - unfold pg_out. destruct r; [eapply runs_try; [exact H1|apply runs_return]|by apply runs_try_Err].
  - by apply runs_out.
  - destruct r, r'; try done. cbn in *. by subst.
Qed.

Lemma pg_exec_sim env o d s :
  ctx_Err env = None -> year_ok (time_Now env) -> same_rows d s -> pg_op_ok env o d s ->
  psim (pg_op_errors env o s) (pg_exec env no_fault o) (sql_exec env no_fault o) d s.
Proof.
  intros Hctx Hnow HR Hok. destruct o; cbn [pg_exec sql_exec pg_op_errors pg_op_ok] in *; apply psim_out.
  - apply pg_CreateUser_sim; tauto.
  - apply pg_BumpTokenVersion_sim; tauto.
  - apply pg_CreateToken_sim; tauto.
  - by apply pg_RevokeToken_sim.
  - apply pg_TouchTokenLastUsed_sim; tauto.
  - apply pg_CreateCodes_sim; tauto.
  - apply pg_UpdateDestination_sim; tauto.
  - apply pg_SetCodeState_sim; tauto.
  - apply pg_DeleteCode_sim; tauto.
  - apply pg_ReleaseAlias_sim; tauto.
  - by apply pg_InsertScanBatch_sim.
  - by apply pg_PruneScanEvents_sim.
Qed.

(** ** Histories *)
Fixpoint pg_trace_ok (tr : list (Env * op)) (d : pgDB) (s : sqliteDB) : Prop :=
  match tr with
  | [] => True
  | (env, o) :: tr' =>
      ctx_Err env = None /\ year_ok (time_Now env) /\ pg_op_ok env o d s
      /\ pg_trace_ok tr' (pg_step env no_fault o d).2 (sql_step env no_fault o s).2
  end.

Fixpoint pg_run (tr : list (Env * op)) (d : pgDB) : list (result outcome) * pgDB :=
  match tr with
  | [] => ([], d)
  | (env, o) :: tr' =>
      let '(r, d1) := pg_step env no_fault o d in
      let '(rs, d2) := pg_run tr' d1 in (r :: rs, d2)
  end.

Inductive all_answered : list (Env * op) -> sqliteDB -> list (result outcome) -> list (result outcome) -> Prop :=
| answered_nil s : all_answered [] s [] []
| answered_cons env o tr s r r' rs rs' :
    answers (pg_op_errors env o s) r r' -> all_answered tr (sql_step env no_fault o s).2 rs rs' ->
    all_answered ((env, o) :: tr) s (r :: rs) (r' :: rs').

Lemma pg_run_sim tr d s :
  same_rows d s -> pg_trace_ok tr d s ->
  all_answered tr s (pg_run tr d).1 (sql_run tr s).1 /\ same_rows (pg_run tr d).2 (sql_run tr s).2.
Proof.
  revert d s. induction tr as [|[env o] tr IH]; intros d s HR Ht; [by split; [constructor|]|].
  destruct Ht as (Hctx & Hnow & Hok & Ht).
  destruct (pg_exec_sim env o d s Hctx Hnow HR Hok) as (r & d' & r' & s' & H1 & H2 & H3 & HR').
  assert (E1 : pg_step env no_fault o d = (r, d')) by (unfold pg_step; by destruct (H1 0%nat) as [n' ->]).
  apply runs_step in H2. cbn [pg_run sql_run]. rewrite E1, H2 in *. cbn [snd] in Ht.
  destruct (IH d' s' HR' Ht) as [IA IR].
  destruct (pg_run tr d') as [rs d2], (sql_run tr s') as [rs' s2]. cbn [fst snd] in *.
  by split; [constructor; [|rewrite H2]|].
Qed.

(** ** Reading *)
Definition pg_ask {A} (f : A -> answer) (a : Act pgDB (result A)) (d : pgDB) : result answer := res_map f (a (0%nat, d)).1.

Definition pg_read (env : Env) (q : read) (d : pgDB) : result answer :=
  match q with
  | RdUserByID id => pg_ask AUser (Postgres.GetUserByID env no_fault id) d
  | RdUserByEmail e => pg_ask AUser (Postgres.GetUserByEmail env no_fault e) d
  | RdCountUsers => pg_ask ACount (Postgres.CountUsers env no_fault) d
  | RdTokenByID id => pg_ask AToken (Postgres.GetTokenByID env no_fault id) d
  | RdTokens u => pg_ask ATokens (Postgres.ListTokens env no_fault u) d
  | RdCodeByShortCode sc => pg_ask ACode (Postgres.GetCodeByShortCode env no_fault sc) d
  | RdCodeByID id u => pg_ask ACode (Postgres.GetCodeByID env no_fault id u) d
  | RdCodeByClientRef u ref => pg_ask ACode (Postgres.GetCodeByClientRef env no_fault u ref) d
  | RdAlias sc => pg_ask ABool (Postgres.IsAliasAvailable env no_fault sc) d
  | RdAnalytics q => pg_ask AAnalytics (Postgres.QueryAnalytics env no_fault q) d
  end.

Definition pg_read_ok (q : read) : Prop :=
  match q with
  | RdUserByID id | RdTokenByID id | RdTokens id => strings_ok [id]
  | RdUserByEmail x | RdCodeByShortCode x | RdAlias x => strings_ok [x] /\ ascii_str x
  | RdCountUsers => True
  | RdCodeByID x y | RdCodeByClientRef x y => strings_ok [x; y]
  | RdAnalytics q => strings_ok [q_CodeID q] /\ year_ok (q_From q) /\ year_ok (q_To q)
  end.

Lemma asked {A} (f : A -> answer) (a : Act pgDB (result A)) b d s :
  psim same_error a b d s -> answers same_error (pg_ask f a d) (sql_ask f b s).
Proof.
  intros (r & d' & r' & s' & H1 & H2 & H3 & _). unfold pg_ask, sql_ask.
  destruct (H1 0%nat) as [n ->], (H2 0%nat) as [n' ->]. cbn [fst]. destruct r, r'; try done. cbn in *. by subst.
Qed.

Lemma pg_read_sim env q d s :
  ctx_Err env = None -> same_rows d s -> pg_read_ok q -> answers same_error (pg_read env q d) (sql_read env no_fault q s).
Proof.
  intros Hctx HR Hq. destruct q; cbn [pg_read sql_read pg_read_ok] in *; apply asked.
  - by apply pg_GetUserByID_sim.
  - apply pg_GetUserByEmail_sim; tauto.
  - by apply pg_CountUsers_sim.
  - by apply pg_GetTokenByID_sim.
  - by apply pg_ListTokens_sim.
  - apply pg_GetCodeByShortCode_sim; tauto.
  - by apply pg_GetCodeByID_sim.
  - by apply pg_GetCodeByClientRef_sim.
  - apply pg_IsAliasAvailable_sim; tauto.
  - apply pg_QueryAnalytics_sim; tauto.
Qed.

Definition pg_page (env : Env) (f : CodeFilter) (d : pgDB) : result (list Code * string) :=
  (Postgres.ListCodes env no_fault f (0%nat, d)).1.

Lemma pg_page_sim env f cs d s :
  ctx_Err env = None -> same_rows d s -> pg_filter_ok f d -> cursors cs (Cursor f) ->
  (forall p, cs = Sqlite.encodeCursor p -> storable (cp_id p) = true) ->
  pages_agree (pg_page env f d) (sql_page env (with_cursor cs f) s).
Proof.
  intros Hctx HR Hf Hc Hp. destruct (pg_ListCodes_sim env Hctx f cs d s HR Hf Hc Hp) as (r & r' & H1 & H2 & H3).
  unfold pg_page, sql_page. destruct (H1 0%nat) as [n ->], (H2 0%nat) as [n' ->]. exact H3.
Qed.

(** C6: PostgreSQL and SQLite are interchangeable.  Run any history of
    operations against the two drivers, one at a time and with no statement
    failing, from freshly migrated databases, on a server that folds ASCII
    letters and orders texts bytewise and on values PostgreSQL can hold (texts
    of its encoding, 32-bit counters, ASCII names): they answer every
    operation alike, the same values and errors with the same sentinel, but
    that when codes cannot be created each reports the sentinel of a rule (id,
    short code, client reference, owner) broken by the first row that breaks
    any, hence the same one when it breaks a single rule.  Afterwards they
    answer alike every lookup, count, analytics query and page of a listing,
    with cursors that name the same position, and every export walk, row by
    row in the same order. *)
Theorem postgres_agrees_with_sqlite tr env q f cs :
  pg_trace_ok tr empty_pg empty_db -> ctx_Err env = None ->
  let d := (pg_run tr empty_pg).2 in
  let s := (sql_run tr empty_db).2 in
  all_answered tr empty_db (pg_run tr empty_pg).1 (sql_run tr empty_db).1
  /\ (pg_read_ok q -> answers same_error (pg_read env q d) (sql_read env no_fault q s))
  /\ (pg_filter_ok f d -> cursors cs (Cursor f) ->
      (forall p, cs = Sqlite.encodeCursor p -> storable (cp_id p) = true) ->
      pages_agree (pg_page env f d) (sql_page env (with_cursor cs f) s))
  /\ same_exports env d s.
Proof.
  intros Ht Hctx d s. destruct (pg_run_sim tr empty_pg empty_db same_rows_empty Ht) as [Ha HR].
  split_and!; [exact Ha| | |].
  - intros Hq. by apply pg_read_sim.
  - intros Hf Hc Hp. by apply pg_page_sim.
  - by apply exports_same.
Qed.
End props.

(** ** On a concrete server

    Case folded by bytes, texts in byte order, every text storable, identity
    values with gaps, and the first violated constraint reported. *)
#[local] Existing Instance decimal_time.
#[local] Existing Instance decimal_time_ok.
#[local] Existing Instance decimal_layout.
#[local] Existing Instance decimal_layout_ok.
#[local] Existing Instance first_violation.
#[local] Existing Instance first_violation_ok.

#[local] Instance c_server : Server := {|
  pg_lower := fun s => string_map lower_byte s;
  pg_ltb := str_ltb;
  storable := fun _ => true;
  next_id := fun _ k z => z + 1 + Z.of_nat k;
  report_pg := fun es => default ErrNoRows (head es);
|}.

#[local] Instance c_server_ok : ServerOk.
Proof.
  split; cbn.
  - done.
  - done.
  - intros _ k z. lia.
  - intros [|e es] Hne; [done|]. apply list_elem_of_here.
Qed.

Lemma all_storable l : strings_ok l.
Proof. by apply Forall_true. Qed.

Definition versions4b (id : string) (d : pgDB) : bool :=
  forallb (fun r => negb (String.eqb (pc_id r) id) || int4_okb (pc_version r + 1)) (rows_of (pg_codes d)).

Lemma versions4_by id d : versions4b id d = true -> versions4 id d.
Proof.
  unfold versions4b. rewrite forallb_forall. intros E k r Hk Hid.
  assert (Hr : In r (rows_of (pg_codes d))) by (apply list_elem_of_In, elem_of_rows; eauto).
  specialize (E r Hr). by rewrite Hid, String.eqb_refl in E.
Qed.

Ltac pg_computation :=
  lazymatch goal with
  | |- True => exact I
  | |- strings_ok _ => apply all_storable
  | |- versions4 _ _ => apply versions4_by; vm_compute; reflexivity
  | |- stamp _ => apply stamp_by; vm_compute; reflexivity
  | |- year_ok _ => apply year_by; vm_compute; reflexivity
  | |- stamp_opt _ => exact I
  | |- real_ok _ => vm_compute; reflexivity
  | |- ascii_str _ => vm_compute; reflexivity
  | |- @eq bool _ true => vm_compute; reflexivity
  | |- @eq (option _) _ _ => reflexivity
  | |- _ => idtac
  end.

Lemma demo_encodable env c : 
  match Postgres.new_rows env 0 [c] with
  | Ok rows => forallb (fun r => int4_okb (MarginModules (cr_styling r)) && int4_okb (SizePx (cr_styling r))) rows = true
  | Err _ => True
  end -> forall rows, Postgres.new_rows env 0 [c] = Ok rows -> Forall row_encodable rows.
Proof.
  intros E rows Er. rewrite Er, forallb_forall in E. apply Forall_forall. intros r Hr%list_elem_of_In.
  specialize (E r Hr). apply andb_true_iff in E as [E1 E2]. by split_and!; try apply all_storable.
Qed.

Lemma demo_pg_trace_ok : pg_trace_ok demo_trace empty_pg empty_db.
Proof.
  unfold demo_trace. cbn [pg_trace_ok pg_op_ok].
  split_and!; pg_computation.
  all: first [apply demo_encodable; vm_compute; reflexivity|constructor; [split; pg_computation|constructor]].
Qed.

Lemma demo_pg_filter_ok d : pg_filter_ok demo_filter d.
Proof. split; try exact I; try reflexivity. by left. Qed.

Lemma postgres_agrees_with_sqlite_witness :
  pg_trace_ok demo_trace empty_pg empty_db
  /\ (pg_run demo_trace empty_pg).1 !! 6%nat = Some (Ok OUnit)
  /\ (pg_run demo_trace empty_pg).1 !! 2%nat = Some (Err (Wrap "postgres" ErrAliasTaken))
  /\ all_answered demo_trace empty_db (pg_run demo_trace empty_pg).1 (sql_run demo_trace empty_db).1
  /\ answers same_error (pg_read env0 (RdCodeByID "qrc_1" "usr_1") (pg_run demo_trace empty_pg).2)
       (sql_read env0 no_fault (RdCodeByID "qrc_1" "usr_1") (sql_run demo_trace empty_db).2)
  /\ is_Ok (pg_read env0 (RdCodeByID "qrc_1" "usr_1") (pg_run demo_trace empty_pg).2) = true
  /\ pages_agree (pg_page env0 demo_filter (pg_run demo_trace empty_pg).2)
       (sql_page env0 (with_cursor "" demo_filter) (sql_run demo_trace empty_db).2).
Proof.
  pose proof (postgres_agrees_with_sqlite demo_trace env0 (RdCodeByID "qrc_1" "usr_1") demo_filter "" demo_pg_trace_ok eq_refl) as P.
  cbv zeta in P. destruct P as (Ha & Hr & Hp & _).
  split; [exact demo_pg_trace_ok|]. do 2 (split; [vm_compute; reflexivity|]). split; [exact Ha|]. split; [|split; [vm_compute; reflexivity|]].
  - exact (Hr (all_storable _)).
  - exact (Hp (demo_pg_filter_ok _) (or_introl (conj eq_refl eq_refl)) (fun p _ => eq_refl)).
Defined.
