(* ===== verification/S3Blob.v ===== *)
(** * The S3 blob store ([internal/blob/s3blob/s3blob.go])

    Every operation of the driver over the client of an object service, which
    is a parameter: [PutObject], [GetObject], [StatObject], [RemoveObject] and
    the rest of minio-go.  On a service that answers, the driver satisfies the
    laws of [BlobStore], so that what holds of the code service over any blob
    store holds over S3; and it answers a sequence of operations as the
    in-memory driver does, entity tags and times apart. *)
From Stdlib Require Import Ascii String.
From S2P Require Import GoLib GoUrl Base64 Blob Concrete.
Local Open Scope string_scope.
Local Open Scope Z_scope.

(** ** The client *)

(** An error of the client, with the code [minio.ToErrorResponse] reads off it. *)
Record s3Err := { resp_Code : string; resp_err : error }.

Record ObjectInfo := { oi_Size : Z; oi_ContentType : string; oi_ETag : string; oi_LastModified : Z }.

Class Minio (B : Type) := {
  s3Object : Type;                                        (* *minio.Object, which reads on demand *)
  PutObject : Env -> string -> string -> list ascii -> Z -> string -> B -> res s3Err string * B;
  GetObject : Env -> string -> string -> B -> res s3Err s3Object;
  obj_Stat : Env -> s3Object -> B -> res s3Err ObjectInfo;
  obj_Bytes : s3Object -> B -> list ascii;
  StatObject : Env -> string -> string -> B -> res s3Err ObjectInfo;
  RemoveObject : Env -> string -> string -> B -> res s3Err unit * B;
  BucketExists : Env -> string -> B -> res s3Err bool;
  PresignedGetObject : Env -> string -> string -> Z -> res s3Err string;
}.

(** ** The driver *)
Definition translate (e : s3Err) : error :=
  if String.eqb (resp_Code e) "NoSuchKey" || String.eqb (resp_Code e) "NotFound"
  then Wrap "s3blob" ErrBlobNotFound
  else Wrap "s3blob" (resp_err e).

(** [strings.Trim] with a double quote as the cutset. *)
Definition quote : ascii := "034".
Definition trimETag (s : string) : string := of_bytes (drop_while_byte quote (bytes (TrimRightByte s quote))).

Definition toInfo (key : string) (oi : ObjectInfo) : BlobInfo :=
  {| bi_Key := key; bi_Size := oi_Size oi; bi_ContentType := oi_ContentType oi;
     bi_ETag := trimETag (oi_ETag oi); bi_ModTime := oi_LastModified oi |}.

Section driver.
Context {B : Type} `{M : Minio B} (bucket : string).

Definition s3_Put (env : Env) (key : string) (r : list ascii) (size : Z) (contentType : string) (b : B)
    : result string * B :=
  match ValidateKey key with
  | Some e => (Err e, b)
  | None =>
      match PutObject env bucket key r size contentType b with
      | (Err e, b') => (Err (translate e), b')
      | (Ok etag, b') => (Ok (trimETag etag), b')
      end
  end.

Definition s3_Get (env : Env) (key : string) (b : B) : result (list ascii * BlobInfo) :=
  match ValidateKey key with
  | Some e => Err e
  | None =>
      match GetObject env bucket key b with
      | Err e => Err (translate e)
      | Ok obj =>
          match obj_Stat env obj b with
          | Err e => Err (translate e)
          | Ok oi => Ok (obj_Bytes obj b, toInfo key oi)
          end
      end
  end.

Definition s3_Stat (env : Env) (key : string) (b : B) : result BlobInfo :=
  match ValidateKey key with
  | Some e => Err e
  | None =>
      match StatObject env bucket key b with
      | Err e => Err (translate e)
      | Ok oi => Ok (toInfo key oi)
      end
  end.

(** [Delete] asks first, since the service removes what is not there without a
    word: two calls. *)
Definition delete_asks (env : Env) (key : string) (b : B) : result unit :=
  match StatObject env bucket key b with
  | Err e => Err (translate e)
  | Ok _ => Ok tt
  end.
Definition delete_removes (env : Env) (key : string) (b : B) : result unit * B :=
  match RemoveObject env bucket key b with
  | (Err e, b') => (Err (translate e), b')
  | (Ok _, b') => (Ok tt, b')
  end.
Definition s3_Delete (env : Env) (key : string) (b : B) : result unit * B :=
  match ValidateKey key with
  | Some e => (Err e, b)
  | None =>
      match delete_asks env key b with
      | Err e => (Err e, b)
      | Ok _ => delete_removes env key b
      end
  end.

Definition s3_Ping (env : Env) (b : B) : result unit :=
  match BucketExists env bucket b with
  | Err e => Err (Wrap "s3blob" (resp_err e))
  | Ok ok => if negb ok then Err (NewErr "s3blob: bucket does not exist") else Ok tt
  end.

Definition s3_PublicURL (key base : string) : result string :=
  match ValidateKey key with
  | Some e => Err e
  | None =>
      if String.eqb base "" then Err (NewErr "s3blob: public base URL is empty")
      else Ok (TrimRightByte base "/" +:+ "/" +:+ key)
  end.

Definition s3_PresignedURL (env : Env) (key : string) (ttl : Z) : result string :=
  match ValidateKey key with
  | Some e => Err e
  | None =>
      if ttl <=? 0 then Err (NewErr "s3blob: presign ttl must be positive")
      else match PresignedGetObject env bucket key ttl with
           | Err e => Err (Wrap "s3blob: presign" (resp_err e))
           | Ok u => Ok u
           end
  end.

Definition s3_store : BlobStore B := {|
  blob_Put := s3_Put; blob_Get := s3_Get; blob_Stat := s3_Stat; blob_Delete := s3_Delete |}.
Definition s3_urler : URLer := {| url_PublicURL := s3_PublicURL; url_PresignedURL := s3_PresignedURL |}.
End driver.

(** ** Opening ([Open]) *)
Record s3Config := {
  cf_Endpoint : string; cf_Bucket : string; cf_Region : string;
  cf_AccessKey : string; cf_SecretKey : string; cf_UseSSL : bool; cf_PathStyle : bool;
}.
Inductive credentials := StaticV4 (id secret : string) | IAM.
Inductive bucketLookup := BucketLookupAuto | BucketLookupPath.
Record minioOptions := { mo_Creds : credentials; mo_Secure : bool; mo_Region : string; mo_BucketLookup : bucketLookup }.

Section open.
Context `{U : UnicodeTable} `{IP : IPParser} {C : Type} (minio_New : string -> minioOptions -> res error C).

(** The endpoint and whether it is reached over TLS: a scheme in the endpoint
    overrides the option. *)
Definition s3_endpoint (cfg : s3Config) : result (string * bool) :=
  if Contains (cf_Endpoint cfg) "://" then
    match Parse (cf_Endpoint cfg) with
    | None => Err (Wrap "s3blob: endpoint" (NewErr "parse"))
    | Some u => Ok (Host u, String.eqb (Scheme u) "https")
    end
  else Ok (cf_Endpoint cfg, cf_UseSSL cfg).

Definition s3_options (cfg : s3Config) (secure : bool) : minioOptions :=
  {| mo_Creds := if negb (String.eqb (cf_AccessKey cfg) "") || negb (String.eqb (cf_SecretKey cfg) "")
                 then StaticV4 (cf_AccessKey cfg) (cf_SecretKey cfg) else IAM;
     mo_Secure := secure; mo_Region := cf_Region cfg;
     mo_BucketLookup := if cf_PathStyle cfg then BucketLookupPath else BucketLookupAuto |}.

Definition s3_Open (cfg : s3Config) : result (C * string) :=
  if String.eqb (cf_Endpoint cfg) "" || String.eqb (cf_Bucket cfg) ""
  then Err (NewErr "s3blob: endpoint and bucket are required")
  else res_bind (s3_endpoint cfg) (fun '(endpoint, secure) =>
    match minio_New endpoint (s3_options cfg secure) with
    | Err e => Err (Wrap "s3blob: client" e)
    | Ok c => Ok (c, cf_Bucket cfg)
    end).
End open.

(** ** A service that answers

    What the driver relies on: a bucket is a map from keys to objects; an
    answer tells the truth; an object is read lazily; the client sends as many
    bytes as it was told; and an error of the client is not one of ours. *)
Record stored := { so_data : list ascii; so_ContentType : string; so_ETag : string; so_ModTime : Z }.

Definition stat_of (o : stored) : ObjectInfo :=
  {| oi_Size := Z.of_nat (length (so_data o)); oi_ContentType := so_ContentType o; oi_ETag := so_ETag o;
     oi_LastModified := so_ModTime o |}.

Definition missing_code (c : string) : bool := String.eqb c "NoSuchKey" || String.eqb c "NotFound".
Definition ours (e : error) : bool :=
  errors_Is e ErrBlobNotFound || errors_Is e ErrInvalidKey || errors_Is e blob_ErrUnknownDriver.

Class MinioLaws (B : Type) `{M : Minio B} := {
  bucket_of : B -> string -> gmap string stored;
  put_done env bk k d n ct b etag b' :
    PutObject env bk k d n ct b = (Ok etag, b') ->
    exists t, bucket_of b' bk = <[k := {| so_data := d; so_ContentType := ct; so_ETag := etag; so_ModTime := t |}]> (bucket_of b bk);
  put_refused env bk k d n ct b e b' :
    PutObject env bk k d n ct b = (Err e, b') -> forall k', k' <> k -> bucket_of b' bk !! k' = bucket_of b bk !! k';
  stat_found env bk k b o : bucket_of b bk !! k = Some o -> StatObject env bk k b = Ok (stat_of o);
  stat_missing env bk k b : bucket_of b bk !! k = None ->
    exists e, StatObject env bk k b = Err e /\ missing_code (resp_Code e) = true;
  remove_done env bk k b b' : RemoveObject env bk k b = (Ok tt, b') -> bucket_of b' bk = delete k (bucket_of b bk);
  remove_refused env bk k b e b' : RemoveObject env bk k b = (Err e, b') ->
    (forall k', k' <> k -> bucket_of b' bk !! k' = bucket_of b bk !! k')
    /\ missing_code (resp_Code e) = false /\ ours (resp_err e) = false;
  get_lazy env bk k b : exists obj, GetObject env bk k b = Ok obj
    /\ obj_Stat env obj b = StatObject env bk k b
    /\ forall o, bucket_of b bk !! k = Some o -> obj_Bytes obj b = so_data o;
}.

Section laws.
Context {B : Type} `{M : Minio B} {L : MinioLaws B} (bucket : string).

Definition s3_objects (b : B) : gmap string (list ascii * string) :=
  (fun o => (so_data o, so_ContentType o)) <$> bucket_of b bucket.

(** What each operation does and answers. *)
Lemma s3_Stat_spec env k b : ValidateKey k = None ->
  s3_Stat bucket env k b = match bucket_of b bucket !! k with
                           | Some o => Ok (toInfo k (stat_of o))
                           | None => Err (Wrap "s3blob" ErrBlobNotFound)
                           end.
Proof.
  intros Hv. unfold s3_Stat. rewrite Hv. destruct (bucket_of b bucket !! k) as [o|] eqn:E.
  - by rewrite (stat_found env bucket k b o E).
  - destruct (stat_missing env bucket k b E) as (e & -> & He). unfold translate, missing_code in *. by rewrite He.
Qed.

Lemma s3_Get_spec env k b : ValidateKey k = None ->
  s3_Get bucket env k b = match bucket_of b bucket !! k with
                          | Some o => Ok (so_data o, toInfo k (stat_of o))
                          | None => Err (Wrap "s3blob" ErrBlobNotFound)
                          end.
Proof.
  intros Hv. unfold s3_Get. rewrite Hv. destruct (get_lazy env bucket k b) as (obj & -> & Es & Eb). rewrite Es.
  destruct (bucket_of b bucket !! k) as [o|] eqn:E.
  - by rewrite (stat_found env bucket k b o E), (Eb o).
  - destruct (stat_missing env bucket k b E) as (e & -> & He). unfold translate, missing_code in *. by rewrite He.
Qed.

(** A removal never reports a missing object: [Delete] does, having asked. *)
Lemma s3_Delete_spec env k b : ValidateKey k = None ->
  match bucket_of b bucket !! k with
  | None => s3_Delete bucket env k b = (Err (Wrap "s3blob" ErrBlobNotFound), b)
  | Some _ => exists r b', s3_Delete bucket env k b = (r, b')
      /\ match r with
         | Ok _ => bucket_of b' bucket = delete k (bucket_of b bucket)
         | Err e => (forall k', k' <> k -> bucket_of b' bucket !! k' = bucket_of b bucket !! k')
                    /\ errors_Is e ErrBlobNotFound = false
         end
  end.
Proof.
  intros Hv. unfold s3_Delete, delete_asks, delete_removes. rewrite Hv. destruct (bucket_of b bucket !! k) as [o|] eqn:E.
  - rewrite (stat_found env bucket k b o E). destruct (RemoveObject env bucket k b) as [[[]|e] b'] eqn:Er.
    + eexists _, _. split; [done|]. by apply remove_done in Er.
    + eexists _, _. split; [done|]. apply remove_refused in Er as (Hb & Hc & Ho). split; [done|].
      unfold translate, missing_code, ours in *. rewrite Hc. cbn [errors_Is].
      by apply orb_false_iff in Ho as [[Ho _]%orb_false_iff _].
  - destruct (stat_missing env bucket k b E) as (e & -> & He). unfold translate, missing_code in *. by rewrite He.
Qed.

(** The driver is a blob store: what the clients rely on. *)
Program Definition s3_laws : BlobLaws B (H := s3_store bucket) := {| objects := s3_objects |}.
Next Obligation.
  intros env k d n ct b etag b'. cbn. unfold s3_Put. destruct (ValidateKey k) eqn:Hv; [done|].
  destruct (PutObject env bucket k d n ct b) as [[e|e] b1] eqn:Ep; [|done]. intros [= <- <-].
  destruct (put_done _ _ _ _ _ _ _ _ _ Ep) as [t Eb]. unfold s3_objects. rewrite Eb, fmap_insert. split; [done|].
  intros env'. rewrite s3_Stat_spec, Eb, lookup_insert_eq by done. by exists t.
Qed.
Next Obligation.
  intros env k d n ct b e b'. cbn. unfold s3_Put. destruct (ValidateKey k); [by intros [= _ <-]|].
  destruct (PutObject env bucket k d n ct b) as [[x|x] b1] eqn:Ep; [done|]. intros [= _ <-].
  intros k' Hk. unfold s3_objects. by rewrite !lookup_fmap, (put_refused _ _ _ _ _ _ _ _ _ Ep).
Qed.
Next Obligation.
  intros env k b b'. cbn. destruct (ValidateKey k) eqn:Hv; [unfold s3_Delete; by rewrite Hv|].
  pose proof (s3_Delete_spec env k b Hv) as Hd. destruct (bucket_of b bucket !! k); [|by rewrite Hd].
  destruct Hd as (r & b1 & -> & Hr). intros [= -> ->]. unfold s3_objects. by rewrite Hr, fmap_delete.
Qed.
Next Obligation.
  intros env k b e b'. cbn. destruct (ValidateKey k) eqn:Hv.
  { unfold s3_Delete. rewrite Hv. intros [= <- <-]. split; [done|].
    unfold ValidateKey in Hv. by repeat case_match; simplify_eq. }
  pose proof (s3_Delete_spec env k b Hv) as Hd. unfold s3_objects. destruct (bucket_of b bucket !! k) eqn:Ek.
  - destruct Hd as (r & b1 & -> & Hr). intros [= -> ->]. destruct Hr as [Hb Hn]. split; [|congruence].
    intros k' Hk. by rewrite !lookup_fmap, Hb.
  - rewrite Hd. intros [= <- <-]. split; [done|]. intros _. split; [done|]. by rewrite lookup_fmap, Ek.
Qed.
Next Obligation.
  intros env k b d info. cbn. destruct (ValidateKey k) eqn:Hv; [unfold s3_Get; by rewrite Hv|].
  rewrite s3_Get_spec, s3_Stat_spec by done. unfold s3_objects. rewrite lookup_fmap.
  destruct (bucket_of b bucket !! k) as [o|]; [|done]. by intros [= <- <-].
Qed.
End laws.

(** ** Against the in-memory driver *)
Inductive blob_op :=
| BPut (key : string) (r : list ascii) (size : Z) (ct : string)
| BGet (key : string)
| BStat (key : string)
| BDelete (key : string).
Inductive blob_out :=
| RTag (r : result string)
| RObject (r : result (list ascii * BlobInfo))
| RInfo (r : result BlobInfo)
| RDone (r : result unit).

Definition blob_step {B} (S : BlobStore B) (env : Env) (o : blob_op) (b : B) : blob_out * B :=
  match o with
  | BPut k r n ct => let '(x, b') := blob_Put (BlobStore := S) env k r n ct b in (RTag x, b')
  | BGet k => (RObject (blob_Get (BlobStore := S) env k b), b)
  | BStat k => (RInfo (blob_Stat (BlobStore := S) env k b), b)
  | BDelete k => let '(x, b') := blob_Delete (BlobStore := S) env k b in (RDone x, b')
  end.

Fixpoint blob_run {B} (S : BlobStore B) (tr : list (Env * blob_op)) (b : B) : list blob_out :=
  match tr with
  | [] => []
  | (env, o) :: tr' => let '(x, b') := blob_step S env o b in x :: blob_run S tr' b'
  end.

(** Alike up to the entity tag and the time, which each service chooses. *)
Definition like_info (i j : BlobInfo) : Prop :=
  bi_Key i = bi_Key j /\ bi_Size i = bi_Size j /\ bi_ContentType i = bi_ContentType j.
Definition like {A} (R : A -> A -> Prop) (r r' : result A) : Prop :=
  match r, r' with
  | Ok a, Ok a' => R a a'
  | Err e, Err e' => forall s : blob_sentinel, errors_Is e s = errors_Is e' s
  | _, _ => False
  end.
Definition like_out (x y : blob_out) : Prop :=
  match x, y with
  | RTag r, RTag r' => like (fun _ _ => True) r r'
  | RObject r, RObject r' => like (fun p q => p.1 = q.1 /\ like_info p.2 q.2) r r'
  | RInfo r, RInfo r' => like like_info r r'
  | RDone r, RDone r' => like (fun _ _ => True) r r'
  | _, _ => False
  end.

Section refine.
Context {B : Type} `{M : Minio B} {L : MinioLaws B} `{D : SHA256} (bucket : string).

(** A service that takes every upload of the announced size, and removes. *)
Context (Hput : forall env k d n ct b, n < 0 \/ n = Z.of_nat (length d) -> is_Ok (PutObject env bucket k d n ct b).1 = true).
Context (Hremove : forall env k b, is_Ok (RemoveObject env bucket k b).1 = true).

Definition sized (o : blob_op) : Prop :=
  match o with BPut _ d n _ => n < 0 \/ n = Z.of_nat (length d) | _ => True end.

Definition same_objects (b : B) (m : memBlob) : Prop := s3_objects bucket b = mem_objects m.

Lemma same_at b m k : same_objects b m ->
  match bucket_of b bucket !! k, m !! k with
  | Some o, Some e => so_data o = me_data e /\ so_ContentType o = me_contentType e
  | None, None => True
  | _, _ => False
  end.
Proof.
  intros E. apply (f_equal (lookup k)) in E. unfold s3_objects, mem_objects in E. rewrite !lookup_fmap in E.
  destruct (bucket_of b bucket !! k), (m !! k); cbn in E; by simplify_eq.
Qed.

Lemma step_alike env o b m :
  sized o -> same_objects b m ->
  like_out (blob_step (s3_store bucket) env o b).1 (blob_step memBlob_store env o m).1
  /\ same_objects (blob_step (s3_store bucket) env o b).2 (blob_step memBlob_store env o m).2.
Proof.
  intros Hs HR. destruct o as [k d n ct|k|k|k]; cbn [blob_step s3_store memBlob_store blob_Put blob_Get blob_Stat blob_Delete].
  - unfold s3_Put, mb_Put. destruct (ValidateKey k); [done|].
    pose proof (Hput env k d n ct b Hs) as Ho.
    destruct (PutObject env bucket k d n ct b) as [[e|e] b1] eqn:Ep; [|done]. cbn [fst snd]. split; [done|].
    destruct (put_done _ _ _ _ _ _ _ _ _ Ep) as [t Eb]. unfold same_objects, s3_objects, mem_objects in *.
    by rewrite Eb, !fmap_insert, HR.
  - split; [|done]. cbn [fst]. destruct (ValidateKey k) eqn:Hv; [unfold s3_Get, mb_Get; by rewrite Hv|].
    rewrite s3_Get_spec by done. unfold mb_Get. rewrite Hv. pose proof (same_at b m k HR) as Hk.
    destruct (bucket_of b bucket !! k), (m !! k); try done. destruct Hk as [E1 E2].
    unfold like_out, like, like_info, toInfo, info_of, stat_of. cbn. rewrite E1, E2. by split_and!.
  - split; [|done]. cbn [fst]. destruct (ValidateKey k) eqn:Hv; [unfold s3_Stat, mb_Stat; by rewrite Hv|].
    rewrite s3_Stat_spec by done. unfold mb_Stat. rewrite Hv. pose proof (same_at b m k HR) as Hk.
    destruct (bucket_of b bucket !! k), (m !! k); try done. destruct Hk as [E1 E2]. cbn.
    unfold like_info, toInfo, info_of, stat_of. cbn. rewrite E1, E2. by split_and!.
  - destruct (ValidateKey k) eqn:Hv; [unfold s3_Delete, mb_Delete; by rewrite Hv|].
    pose proof (s3_Delete_spec bucket env k b Hv) as Hd. unfold mb_Delete. rewrite Hv. pose proof (same_at b m k HR) as Hk.
    destruct (bucket_of b bucket !! k) as [o|] eqn:Ek, (m !! k) as [e|]; try done; [|by rewrite Hd].
    unfold s3_Delete, delete_asks, delete_removes in *. rewrite Hv in *. rewrite (stat_found env bucket k b o Ek) in *.
    pose proof (Hremove env k b) as Ho. destruct (RemoveObject env bucket k b) as [[[]|x] b1] eqn:Er; [|done].
    cbn [fst snd]. split; [done|]. apply remove_done in Er. unfold same_objects, s3_objects, mem_objects in *.
    by rewrite Er, !fmap_delete, HR.
Qed.

(** On a service that takes what it is given, the driver answers any sequence
    of operations as the in-memory driver does: the same objects, the same
    sentinel errors, sizes and content types; only entity tags and times are
    the service's. *)
Lemma s3_refines_memblob tr b m :
  Forall (fun p => sized p.2) tr -> same_objects b m ->
  Forall2 like_out (blob_run (s3_store bucket) tr b) (blob_run memBlob_store tr m).
Proof.
  intros Hs. revert b m. induction Hs as [|[env o] tr Ho _ IH]; intros b m HR; [constructor|].
  cbn [blob_run]. destruct (step_alike env o b m Ho HR) as [Hx HR'].
  destruct (blob_step (s3_store bucket) env o b) as [x b'], (blob_step memBlob_store env o m) as [y m']. by constructor; [|apply IH].
Qed.
End refine.

(** ** A service in memory *)
Notation memService := (gmap string (gmap string stored)).
Definition no_such_key : s3Err := {| resp_Code := "NoSuchKey"; resp_err := NewErr "The specified key does not exist." |}.
Definition bucket_in (b : memService) (bk : string) : gmap string stored := default ∅ (b !! bk).

Lemma bucket_in_insert b bk m : bucket_in (<[bk := m]> b) bk = m.
Proof. unfold bucket_in. by rewrite lookup_insert_eq. Qed.

#[local] Instance mem_minio : Minio memService := {|
  s3Object := string * string;
  PutObject := fun env bk k d n ct b =>
    if (n <? 0) || (n =? Z.of_nat (length d))
    then let o := {| so_data := d; so_ContentType := ct; so_ETag := String quote (String quote ""); so_ModTime := time_Now env |} in
         (Ok (so_ETag o), <[bk := <[k := o]> (bucket_in b bk)]> b)
    else (Err {| resp_Code := "IncompleteBody"; resp_err := NewErr "size" |}, b);
  GetObject := fun _ bk k b => Ok (bk, k);
  obj_Stat := fun _ o b => match bucket_in b o.1 !! o.2 with Some x => Ok (stat_of x) | None => Err no_such_key end;
  obj_Bytes := fun o b => match bucket_in b o.1 !! o.2 with Some x => so_data x | None => [] end;
  StatObject := fun _ bk k b => match bucket_in b bk !! k with Some x => Ok (stat_of x) | None => Err no_such_key end;
  RemoveObject := fun _ bk k b => (Ok tt, <[bk := delete k (bucket_in b bk)]> b);
  BucketExists := fun _ bk b => Ok (bool_decide (is_Some (b !! bk)));
  PresignedGetObject := fun _ bk k ttl => Ok ("https://s3.example/" +:+ bk +:+ "/" +:+ k);
|}.

#[local] Program Instance mem_minio_laws : MinioLaws memService := {| bucket_of := bucket_in |}.
Next Obligation.
  intros env bk k d n ct b etag b'. cbn. destruct (_ || _); [|done]. intros [= <- <-].
  exists (time_Now env). apply bucket_in_insert.
Qed.
Next Obligation. intros env bk k d n ct b e b'. cbn. destruct (_ || _); [done|]. by intros [= _ <-]. Qed.
Next Obligation. intros env bk k b o E. cbn. by rewrite E. Qed.
Next Obligation. intros env bk k b E. cbn. rewrite E. by eexists. Qed.
Next Obligation. intros env bk k b b' [= <-]. apply bucket_in_insert. Qed.
Next Obligation. done. Qed.
Next Obligation.
  intros env bk k b. exists (bk, k). split_and!; [done|done|]. intros o E. cbn. by rewrite E.
Qed.

Example s3_example :
  blob_run (s3_store "qr") [(env0, BPut "codes/aa/bb/x.png" (bytes "png") 3 "image/png"); (env0, BStat "codes/aa/bb/x.png");
                            (env0, BDelete "codes/aa/bb/x.png"); (env0, BDelete "codes/aa/bb/x.png")] (∅ : memService)
  = [RTag (Ok "");
     RInfo (Ok {| bi_Key := "codes/aa/bb/x.png"; bi_Size := 3; bi_ContentType := "image/png"; bi_ETag := ""; bi_ModTime := epoch |});
     RDone (Ok tt); RDone (Err (Wrap "s3blob" ErrBlobNotFound))].
Proof. vm_compute. reflexivity. Qed.

(** Two clients delete one object: each asks, then each removes, and both are
    told that they deleted it. *)
Example deletes_race b k o :
  bucket_of b "qr" !! k = Some o ->
  delete_asks (M := mem_minio) "qr" env0 k b = Ok tt
  /\ let '(first, b1) := delete_removes (M := mem_minio) "qr" env0 k b in
     let '(second, _) := delete_removes (M := mem_minio) "qr" env0 k b1 in
     first = Ok tt /\ second = Ok tt.
Proof. intros E. unfold delete_asks. by rewrite (stat_found env0 "qr" k b o E). Qed.
