(* ===== verification/Cli.v ===== *)
(** * The command line ([cmd/qurator/main.go], export_cmd.go, healthcheck_cmd.go)

    What a run of the process does, in order, and how it ends: which command
    the arguments select, the flags of the subcommands, the files of an export
    or import, the probe of the health check, the start of the server and its
    shutdown, the registries of drivers ([internal/store/open.go],
    [internal/blob/open.go]) and the exit status.  The host (files, network,
    standard output) and the components are a record of outcomes. *)
From Stdlib Require Import Ascii String.
From S2P Require Import GoLib GoUrl Auth Config ConfigFacts.
Local Open Scope string_scope.
Local Open Scope Z_scope.

(** ** Registries of drivers *)
Section registry.
Context {O : Type} (unknown : error).

(** [None] is the panic on a name that is taken. *)
Definition Register (name : string) (o : O) (openers : gmap string O) : option (gmap string O) :=
  match openers !! name with Some _ => None | None => Some (<[name := o]> openers) end.

Definition Drivers (openers : gmap string O) : list string := sort_Slice str_ltb (map_to_list openers).*1.

Definition open_driver {A} (openers : gmap string O) (driver : string) (open : O -> result A) : result A :=
  match openers !! driver with
  | None => Err unknown
  | Some o => open o
  end.

(** [init] of each driver package that main.go imports. *)
Fixpoint register_all (l : list (string * O)) (openers : gmap string O) : option (gmap string O) :=
  match l with
  | [] => Some openers
  | (n, o) :: l' => match Register n o openers with Some m => register_all l' m | None => None end
  end.
End registry.

(** ** [net.SplitHostPort], [net.JoinHostPort] *)
Definition SplitHostPort (hostport : string) : result (string * string) :=
  let bad := Err (NewErr "address") in
  match CutLastByte hostport ":" with
  | None => bad
  | Some (before, port) =>
      match hostport with
      | String "[" rest =>
          let '(host, post, ok) := CutByte rest "]" in
          if negb ok then bad
          else match CutLastByte post ":" with
          | Some ("", port) => if ascii_in "[" rest || ascii_in "]" post then bad else Ok (host, port)
          | _ => bad
          end
      | _ =>
          if ascii_in ":" before || ascii_in "[" hostport || ascii_in "]" hostport then bad
          else Ok (before, port)
      end
  end.

Definition JoinHostPort (host port : string) : string :=
  if ascii_in ":" host then "[" +:+ host +:+ "]:" +:+ port else host +:+ ":" +:+ port.

(** ** The [flag] package: sets with string and boolean flags *)
Inductive flag_error := ErrHelp | FlagError.

Definition ParseBool (s : string) : option bool :=
  if bool_decide (s ∈ ["1"; "t"; "T"; "TRUE"; "true"; "True"]) then Some true
  else if bool_decide (s ∈ ["0"; "f"; "F"; "FALSE"; "false"; "False"]) then Some false else None.

(** An argument that is a flag: its name and the value after an equals sign. *)
Inductive arg := NotFlag | Terminator | BadFlag | Flag (name : string) (value : option string).
Definition read_arg (s : string) : arg :=
  match s with
  | String "-" (String "-" "") => Terminator
  | String "-" (String "-" name) | String "-" name =>
      match name with
      | "" => NotFlag
      | String "-" _ | String "=" _ => BadFlag
      | _ => let '(n, v, has) := CutByte name "=" in Flag n (if has then Some v else None)
      end
  | _ => NotFlag
  end.

(** [flags] tells which names exist and which are boolean; what follows the
    flags is left. *)
Fixpoint flag_Parse (flags : gmap string bool) (args : list string) (acc : gmap string string)
    : res flag_error (gmap string string * list string) :=
  match args with
  | [] => Ok (acc, [])
  | a :: args' =>
      match read_arg a with
      | NotFlag => Ok (acc, args)
      | Terminator => Ok (acc, args')
      | BadFlag => Err FlagError
      | Flag n v =>
          match flags !! n with
          | None => Err (if String.eqb n "help" || String.eqb n "h" then ErrHelp else FlagError)
          | Some true =>
              match ParseBool (default "true" v) with
              | Some _ => flag_Parse flags args' (<[n := default "true" v]> acc)
              | None => Err FlagError
              end
          | Some false =>
              match v, args' with
              | Some v, _ => flag_Parse flags args' (<[n := v]> acc)
              | None, v :: args'' => flag_Parse flags args'' (<[n := v]> acc)
              | None, [] => Err FlagError
              end
          end
      end
  end.

(** ** Runs of the process *)
Inductive effect :=
| Printed (line : string)
| MadeDir (path : string) | Created (path : string) | Opened (path : string) | WroteArchive (path : string)
| ClosedFile (path : string) | ReadArchive (path : string) (force : bool)
| Probed (url : string)
| SecretReady (path : string)
| OpenedStore (driver dsn : string) | Migrated | ClosedStore
| OpenedBlob (driver : string) | BuiltAuth | Bootstrapped
| StartedRecorder | StartedRetention | Listening (addr : string) | MetricsListening (addr : string)
| Drained (budget : Z) | MetricsStopped (budget : Z) | Flushed (budget : Z).

(** [usageError] matches [errUsage], nothing else does. *)
Inductive run_error := UsageError | RunError (e : error).

Definition M (A : Type) : Type := list effect * res run_error A.
Definition ret {A} (a : A) : M A := ([], Ok a).
Definition failed {A} (e : error) : M A := ([], Err (RunError e)).
Definition bind {A B} (m : M A) (k : A -> M B) : M B :=
  match m with
  | (l, Ok a) => let '(l', r) := k a in ((l ++ l')%list, r)
  | (l, Err e) => (l, Err e)
  end.
(** One effect that may fail; it leaves its mark when it succeeds. *)
Definition attempt (x : effect) (wrapped : error -> error) (o : option error) : M unit :=
  match o with None => ([x], Ok tt) | Some e => ([], Err (RunError (wrapped e))) end.
(** [defer] *)
Definition finally {A} (x : effect) (m : M A) : M A := let '(l, r) := m in ((l ++ [x])%list, r).
Definition lift {A} (r : res run_error A) : M A := ([], r).

Notation "x <== m ; k" := (bind m (fun x => k)) (at level 20, m at level 100, k at level 200).

(** How the server's life ends. *)
Inductive ending := ServerFailed (e : error) | MetricsFailed (e : error) | Signalled.

(** Outcomes of the calls that leave the process or the modelled components. *)
Record host := {
  h_Load : list string -> res load_error Config;     (* config.Load with this environment *)
  h_Print : string -> option error;
  h_IsDir : string -> option bool;                   (* os.Stat *)
  h_MkdirAll : string -> option error;
  h_Create : string -> option error;
  h_OpenFile : string -> option error;
  h_Close : string -> option error;
  h_Write : option error;                            (* export.Write *)
  h_Read : bool -> option error;                     (* export.Read *)
  h_Get : string -> res error Z;                     (* an HTTP GET and its status *)
  h_Secret : string -> res error string;             (* auth.LoadOrCreateSigningSecret *)
  h_OpenStore : string -> string -> option error;    (* of a registered driver *)
  h_Migrate : option error;
  h_OpenBlob : string -> option error;
  h_rand : nat -> ascii;
  h_Bootstrap : option error;
  h_End : ending;
}.

(** *** Joining paths ([path/filepath] on Unix) *)
Definition filepath_Join (a b : string) : string := path_Clean (a +:+ "/" +:+ b).
Definition filepath_Dir (p : string) : string :=
  match CutLastByte p "/" with Some (d, _) => path_Clean (d +:+ "/") | None => path_Clean "" end.

Section run.
Context `{U : UnicodeTable} `{IP : IPParser} `{NT : IPNets}.
Context (h : host) (store_drivers blob_drivers : gmap string unit) (version : string).

Definition config_error (e : load_error) : error :=
  match e with
  | LoadError e => e
  | UnexpectedArgument a => NewErr "config: unexpected argument"
  | Invalid es => default (NewErr "config") (head es)
  end.
Definition load (wrapped : error -> error) (args : list string) : M Config :=
  match h_Load h args with Ok c => ret c | Err e => failed (wrapped (config_error e)) end.
(** [store.Open], [blob.Open]: an unknown driver, or what the driver says. *)
Definition store_Open (c : Config) : option error :=
  match open_driver ErrUnknownDriver store_drivers (db_Driver (c_DB c)) (fun _ => Ok tt) with
  | Err e => Some e
  | Ok _ => h_OpenStore h (db_Driver (c_DB c)) (db_DSN (c_DB c))
  end.
Definition blob_Open (c : Config) : option error :=
  match open_driver blob_ErrUnknownDriver blob_drivers (bl_Driver (c_Blob c)) (fun _ => Ok tt) with
  | Err e => Some e
  | Ok _ => h_OpenBlob h (bl_Driver (c_Blob c))
  end.
Definition auth_New (secret : string) (c : Config) : option error :=
  match Auth.New (h_rand h) (auth_options secret c) with Ok _ => None | Err e => Some e end.

Definition open_store (wrapped : error -> error) (c : Config) : M unit :=
  attempt (OpenedStore (db_Driver (c_DB c)) (db_DSN (c_DB c))) wrapped (store_Open c).

(** *** [qurator export] *)
Definition exportArchiveName : string := "export.tar".
Definition ends_in_slash (s : string) : bool := match rev (bytes s) with "/"%char :: _ => true | _ => false end.

Definition resolveExportDest (out : string) : M string :=
  if default false (h_IsDir h out) then ret (filepath_Join out exportArchiveName)
  else if ends_in_slash out then
    _ <== attempt (MadeDir out) (fun e => Wrap "export: create" e) (h_MkdirAll h out);
    ret (filepath_Join out exportArchiveName)
  else
    let dir := filepath_Dir out in
    if String.eqb dir "." then ret out
    else _ <== attempt (MadeDir dir) (fun e => Wrap "export: create" e) (h_MkdirAll h dir); ret out.

Definition parse_flags (flags : gmap string bool) (args : list string) : M (gmap string string) :=
  match flag_Parse flags args ∅ with
  | Ok (vals, _) => ret vals
  | Err ErrHelp => failed (NewErr "flag: help requested")
  | Err FlagError => failed (NewErr "flag")
  end.

Definition runExport (args : list string) : M unit :=
  vals <== parse_flags {["out" := false]} args;
  let out := default "" (vals !! "out") in
  if String.eqb out "" then failed (NewErr "export: --out is required")
  else
    dest <== resolveExportDest out;
    cfg <== load (Wrap "export") [];
    _ <== open_store (Wrap "export: open store") cfg;
    finally ClosedStore (
      _ <== attempt (Created dest) (Wrap "export: create") (h_Create h dest);
      finally (ClosedFile dest) (
        _ <== attempt (WroteArchive dest) (Wrap "export") (h_Write h);
        _ <== attempt (ClosedFile dest) (Wrap "export: close") (h_Close h dest);
        attempt (Printed ("export written to " +:+ dest)) (Wrap "export") (h_Print h dest))).

(** *** [qurator import] *)
Definition runImport (args : list string) : M unit :=
  vals <== parse_flags {["in" := false; "force" := true]} args;
  let src := default "" (vals !! "in") in
  let force := default false (vals !! "force" ≫= ParseBool) in
  if String.eqb src "" then failed (NewErr "import: --in is required")
  else
    let src := if default false (h_IsDir h src) then filepath_Join src exportArchiveName else src in
    cfg <== load (Wrap "import") [];
    _ <== open_store (Wrap "import: open store") cfg;
    finally ClosedStore (
      _ <== attempt Migrated (Wrap "import: migrate") (h_Migrate h);
      _ <== attempt (Opened src) (Wrap "import: open") (h_OpenFile h src);
      finally (ClosedFile src) (
        _ <== attempt (ReadArchive src force) (Wrap "import") (h_Read h force);
        attempt (Printed ("import complete from " +:+ src)) (Wrap "import") (h_Print h src))).

(** *** [qurator healthcheck] *)
Definition probe_path (args : list string) : string :=
  if bool_decide ("--live" ∈ args) then "/healthz" else "/readyz".
Definition probe_host (host : string) : string :=
  if String.eqb host "" || String.eqb host "0.0.0.0" || String.eqb host "::" then "127.0.0.1" else host.

Definition runHealthcheck (args : list string) : M unit :=
  let path := probe_path args in
  cfg <== load (Wrap "healthcheck") (filter (fun a => a <> "--live") args);
  match SplitHostPort (sv_Listen (c_Server cfg)) with
  | Err e => failed (Wrap "healthcheck: parse server.listen" e)
  | Ok (host, port) =>
      let url := "http://" +:+ JoinHostPort (probe_host host) port +:+ path in
      match h_Get h url with
      | Err e => failed (Wrap "healthcheck" e)
      | Ok status =>
          _ <== attempt (Probed url) (fun e => e) None;
          if negb (status =? 200) then failed (NewErr "healthcheck: returned")
          else ([Printed ("ok " +:+ path)], Ok tt)
      end
  end.

(** *** The server *)
Definition shutdownBudget : Z := 15 * Second.
Definition flushBudget : Z := 5 * Second.
Definition SigningKeyFile : string := "signing.key".

(** The configured signing secret, or the one kept in the data directory. *)
Definition signing_secret (c : Config) : M string :=
  let s := ac_SigningSecret (c_Auth c) in
  if negb (IsSet s) && negb (ac_DevMode (c_Auth c)) then
    let keyPath := filepath_Join (sv_DataDir (c_Server c)) SigningKeyFile in
    match h_Secret h keyPath with
    | Err e => failed e
    | Ok s => _ <== attempt (SecretReady keyPath) (fun e => e) None; ret s
    end
  else ret (Reveal s).

(** What follows a signal: drain, then flush, each within its own budget;
    failures are logged. *)
Definition shutdown (c : Config) : M unit :=
  ([Drained shutdownBudget]
     ++ (if String.eqb (sv_MetricsListen (c_Server c)) "" then [] else [MetricsStopped shutdownBudget])
     ++ [Flushed flushBudget], Ok tt)%list.

Definition listen (c : Config) : M unit :=
  ([Listening (sv_Listen (c_Server c))]
     ++ (if String.eqb (sv_MetricsListen (c_Server c)) "" then [] else [MetricsListening (sv_MetricsListen (c_Server c))]), Ok tt)%list.

Definition serve_with (cfg : Config) (secret : string) : M unit :=
  _ <== open_store (Wrap "open metadata store") cfg;
  finally ClosedStore (
    _ <== attempt Migrated (Wrap "migrate") (h_Migrate h);
    _ <== attempt (OpenedBlob (bl_Driver (c_Blob cfg))) (Wrap "open blob store") (blob_Open cfg);
    _ <== attempt BuiltAuth (Wrap "auth") (auth_New secret cfg);
    _ <== (if String.eqb (ac_BootstrapEmail (c_Auth cfg)) "" then ret tt
           else attempt Bootstrapped (Wrap "bootstrap admin") (h_Bootstrap h));
    _ <== ([StartedRecorder; StartedRetention], Ok tt);
    _ <== listen cfg;
    match h_End h with
    | ServerFailed e => failed e
    | MetricsFailed e => failed (Wrap "metrics listen" e)
    | Signalled => shutdown cfg
    end).

Definition serve (cfg : Config) : M unit := secret <== signing_secret cfg; serve_with cfg secret.

(** *** [run] *)
Definition has (names : list string) (args : list string) : bool := existsb (fun a => bool_decide (a ∈ names)) args.
Definition print (line : string) : M unit := attempt (Printed line) (fun e => e) (h_Print h line).

Definition start (args : list string) : M unit :=
  if has ["--help"; "-h"] args then print "usage"
  else match h_Load h args with
       | Err (UnexpectedArgument _) => ([], Err UsageError)
       | Err e => failed (config_error e)
       | Ok cfg => serve cfg
       end.

Definition run (args : list string) : M unit :=
  if has ["--version"; "-v"] args then print ("qurator " +:+ version)
  else match args with
       | [] => start args
       | cmd :: rest =>
           if String.eqb cmd "export" then runExport rest
           else if String.eqb cmd "import" then runImport rest
           else if String.eqb cmd "healthcheck" then runHealthcheck rest
           else if negb (HasPrefix cmd "-") then ([], Err UsageError)
           else start args
       end.

Definition exitCode (e : run_error) : Z := match e with UsageError => 2 | RunError _ => 1 end.
Definition exit_status (args : list string) : Z := match (run args).2 with Ok _ => 0 | Err e => exitCode e end.
End run.

(** ** The order of effects *)
Lemma bind_attempt {A} x w o (k : unit -> M A) :
  bind (attempt x w o) k = match o with None => (x :: (k tt).1, (k tt).2) | Some e => ([], Err (RunError (w e))) end.
Proof. destruct o; [done|]. cbn. by destruct (k tt). Qed.

Lemma bind_ret {A B} (a : A) (k : A -> M B) : bind (ret a) k = k a.
Proof. cbn. by destruct (k a). Qed.

Section facts.
Context `{U : UnicodeTable} `{IP : IPParser} `{NT : IPNets}.
Context (h : host) (store_drivers blob_drivers : gmap string unit) (version : string).

(** What a start leaves behind up to the point where requests are served. *)
Definition started (c : Config) : list effect :=
  ([OpenedStore (db_Driver (c_DB c)) (db_DSN (c_DB c)); Migrated; OpenedBlob (bl_Driver (c_Blob c)); BuiltAuth]
   ++ (if String.eqb (ac_BootstrapEmail (c_Auth c)) "" then [] else [Bootstrapped])
   ++ [StartedRecorder; StartedRetention] ++ (listen c).1)%list.

Definition is_opened (x : effect) : bool := match x with OpenedStore _ _ => true | _ => false end.
Definition is_served (x : effect) : bool := match x with Listening _ => true | _ => false end.
Definition is_drained (x : effect) : bool := match x with Drained _ => true | _ => false end.
Definition is_flushed (x : effect) : bool := match x with Flushed _ => true | _ => false end.
Definition closed_last (l : list effect) : bool := match last l with Some ClosedStore => true | _ => false end.

(** How a life of the server is told by its effects [l] and its result [r]:
    it succeeds only by a signal, with the requests drained and the events
    flushed; a failure does neither; the store is closed, last, exactly when it
    was opened; nothing is served before everything is ready. *)
Record life (c : Config) (l : list effect) (r : res run_error unit) : Prop := {
  life_ok : r = Ok tt -> h_End h = Signalled /\ l = (started c ++ (shutdown c).1 ++ [ClosedStore])%list;
  life_err : r <> Ok tt -> existsb is_drained l = false /\ existsb is_flushed l = false;
  life_closed : closed_last l = existsb is_opened l;
  life_serves : existsb is_served l = true -> started c `prefix_of` l;
}.

Ltac leaf := split; cbn; try (intros; first [done | split; reflexivity | by eexists]).

Lemma serve_with_life c secret :
  life c (serve_with h store_drivers blob_drivers c secret).1 (serve_with h store_drivers blob_drivers c secret).2.
Proof.
  unfold serve_with, open_store, attempt.
  destruct (store_Open h store_drivers c) as [e|]; [leaf|].
  destruct (h_Migrate h) as [e|]; [leaf|].
  destruct (blob_Open h blob_drivers c) as [e|]; [leaf|].
  destruct (auth_New h secret c) as [e|]; [leaf|].
  destruct (String.eqb (ac_BootstrapEmail (c_Auth c)) "") eqn:Eb.
  2: destruct (h_Bootstrap h) as [e|]; [leaf|].
  all: unfold listen, shutdown; destruct (String.eqb (sv_MetricsListen (c_Server c)) "") eqn:Em.
  all: destruct (h_End h) eqn:Ee.
  all: split; cbn; unfold started, shutdown, listen; rewrite ?Eb, ?Em; cbn;
    intros; first [done | split; reflexivity | by eexists].
Qed.

(** The signing secret is in place before anything else happens, and a start
    succeeds only by a signal, with everything flushed. *)
Lemma serve_life c : let m := serve h store_drivers blob_drivers c in
  (m.2 = Ok tt -> h_End h = Signalled /\ exists pre, m.1 = (pre ++ started c ++ (shutdown c).1 ++ [ClosedStore])%list)
  /\ (m.2 <> Ok tt -> existsb is_drained m.1 = false /\ existsb is_flushed m.1 = false)
  /\ closed_last m.1 = existsb is_opened m.1.
Proof.
  cbv zeta. unfold serve, signing_secret. destruct (_ && _).
  - destruct (h_Secret h _) as [s|e]; [|by split].
    pose proof (serve_with_life c s) as [L1 L2 L3 _]. cbn. destruct (serve_with _ _ _ c s) as [l r]. cbn in *.
    split_and!; [intros Hr; destruct (L1 Hr) as [-> ->]; split; [done|by eexists [_]]|exact L2|].
    destruct l as [|x l]; [done|exact L3].
  - rewrite bind_ret. pose proof (serve_with_life c (Reveal (ac_SigningSecret (c_Auth c)))) as [L1 L2 L3 _].
    split_and!; [intros Hr; destruct (L1 Hr) as [-> ->]; split; [done|by exists []]|exact L2|exact L3].
Qed.

(** *** Usage errors *)
Definition no_usage {A} (m : M A) : Prop := m.2 <> Err UsageError.

Lemma no_usage_bind {A B} (m : M A) (k : A -> M B) : no_usage m -> (forall a, no_usage (k a)) -> no_usage (bind m k).
Proof.
  destruct m as [l [a|e]]; intros Hm Hk; [|intros [= ->]; by apply Hm]. specialize (Hk a). cbn. by destruct (k a).
Qed.
Lemma no_usage_attempt x w o : no_usage (attempt x w o).
Proof. by destruct o. Qed.
Lemma no_usage_finally {A} x (m : M A) : no_usage m -> no_usage (finally x m).
Proof. by destruct m. Qed.
Lemma no_usage_load w args : no_usage (load h w args).
Proof. unfold load. by destruct (h_Load h args). Qed.
Lemma no_usage_flags flags args : no_usage (parse_flags flags args).
Proof. unfold parse_flags. by destruct (flag_Parse flags args ∅) as [[??]|[]]. Qed.

Create HintDb usage.
#[local] Hint Resolve no_usage_attempt no_usage_finally no_usage_load no_usage_flags : usage.
Ltac no_usage_steps := repeat first [apply no_usage_bind; [eauto with usage|intros ?] | apply no_usage_finally | progress eauto with usage | done | case_match].

Lemma no_usage_dest out : no_usage (resolveExportDest h out).
Proof. unfold resolveExportDest. no_usage_steps. Qed.
#[local] Hint Resolve no_usage_dest : usage.

Lemma no_usage_export args : no_usage (runExport h store_drivers args).
Proof. unfold runExport, open_store. cbv zeta. no_usage_steps. Qed.
Lemma no_usage_import args : no_usage (runImport h store_drivers args).
Proof. unfold runImport, open_store. cbv zeta. no_usage_steps. Qed.
Lemma no_usage_healthcheck args : no_usage (runHealthcheck h args).
Proof. unfold runHealthcheck. cbv zeta. no_usage_steps. Qed.
Lemma no_usage_serve c : no_usage (serve h store_drivers blob_drivers c).
Proof.
  unfold serve, signing_secret, serve_with, open_store. apply no_usage_bind; [destruct (_ && _); no_usage_steps|intros s].
  no_usage_steps.
Qed.

(** The exit status is 2 for an unknown command or a stray argument after the
    flags of the server, and for nothing else. *)
Lemma exit_status_usage args :
  exit_status h store_drivers blob_drivers version args = 2 <->
  has ["--version"; "-v"] args = false
  /\ ((exists cmd rest, args = cmd :: rest /\ cmd ∉ ["export"; "import"; "healthcheck"] /\ HasPrefix cmd "-" = false)
      \/ (forall cmd rest, args = cmd :: rest -> HasPrefix cmd "-" = true)
         /\ has ["--help"; "-h"] args = false /\ exists a, h_Load h args = Err (UnexpectedArgument a)).
Proof.
  assert (Hp : forall m : M unit, no_usage m -> match m.2 with Ok _ => 0 | Err e => exitCode e end <> 2).
  { intros m Hm. unfold no_usage in Hm. by destruct (m.2) as [|[]]. }
  assert (Hstart : match (start h store_drivers blob_drivers args).2 with Ok _ => 0 | Err e => exitCode e end = 2
    <-> has ["--help"; "-h"] args = false /\ exists a, h_Load h args = Err (UnexpectedArgument a)).
  { unfold start. destruct (has ["--help"; "-h"] args).
    - split; [intros H; by apply Hp in H; [|apply no_usage_attempt]|by intros [? _]].
    - destruct (h_Load h args) as [c|[e|a|es]].
      + split; [intros H; by apply Hp in H; [|apply no_usage_serve]|by intros (_ & ? & ?)].
      + by split; [|intros (_ & ? & ?)].
      + split; [intros _; eauto|done].
      + by split; [|intros (_ & ? & ?)]. }
  unfold exit_status, run. destruct (has ["--version"; "-v"] args).
  { split; [intros H; by apply Hp in H; [|apply no_usage_attempt]|by intros [? _]]. }
  destruct args as [|cmd rest].
  { rewrite Hstart. split; [intros H; split; [done|right; split; [done|exact H]]|].
    intros [_ [(c & r & [=] & _)|[_ H]]]. exact H. }
  assert (Hsub : forall m : M unit, no_usage m -> cmd ∈ ["export"; "import"; "healthcheck"] -> HasPrefix cmd "-" = false ->
    match m.2 with Ok _ => 0 | Err e => exitCode e end = 2 <-> false = false /\ 
    ((exists c r, cmd :: rest = c :: r /\ c ∉ ["export"; "import"; "healthcheck"] /\ HasPrefix c "-" = false)
      \/ (forall c r, cmd :: rest = c :: r -> HasPrefix c "-" = true)
         /\ has ["--help"; "-h"] (cmd :: rest) = false /\ exists a, h_Load h (cmd :: rest) = Err (UnexpectedArgument a))).
  { intros m Hm Hin Hd. split; [intros H; by apply Hp in H|].
    intros [_ [(c & r & [= <- <-] & Hc & _)|[H _]]]; [done|]. by rewrite (H cmd rest) in Hd. }
  destruct (String.eqb_spec cmd "export") as [->|N1]; [apply Hsub; [apply no_usage_export|set_solver|done]|].
  destruct (String.eqb_spec cmd "import") as [->|N2]; [apply Hsub; [apply no_usage_import|set_solver|done]|].
  destruct (String.eqb_spec cmd "healthcheck") as [->|N3]; [apply Hsub; [apply no_usage_healthcheck|set_solver|done]|].
  destruct (HasPrefix cmd "-") eqn:Hd; cbn [negb].
  - rewrite Hstart. split; [intros H; split; [done|right; split; [by intros ? ? [= <- <-]|exact H]]|].
    intros [_ [(c & r & [= <- <-] & _ & Hc)|[_ H]]]; [congruence|exact H].
  - split; [intros _; split; [done|left; exists cmd, rest; split_and!; [done|set_solver|done]]|done].
Qed.

(** *** Archives *)
Definition is_made_dir (x : effect) : bool := match x with MadeDir _ => true | _ => false end.
Definition is_printed (x : effect) : bool := match x with Printed _ => true | _ => false end.
Definition is_read (x : effect) : bool := match x with ReadArchive _ _ => true | _ => false end.

Lemma resolveExportDest_effects out : forallb is_made_dir (resolveExportDest h out).1 = true.
Proof.
  unfold resolveExportDest. destruct (default false _); [done|]. destruct (ends_in_slash out).
  - by destruct (h_MkdirAll h out).
  - destruct (String.eqb _ "."); [done|]. by destruct (h_MkdirAll h _).
Qed.

Lemma closed_last_app pre l : forallb is_made_dir pre = true -> l <> [] -> closed_last (pre ++ l) = closed_last l.
Proof. intros _ Hl. unfold closed_last. rewrite last_app. by destruct (last l) eqn:E; [|apply last_None in E]. Qed.
Lemma made_dirs pre : forallb is_made_dir pre = true ->
  closed_last pre = false /\ existsb is_opened pre = false /\ existsb is_printed pre = false.
Proof.
  induction pre as [|x pre IH]; [done|]. intros [Hx Hp]%andb_prop. destruct (IH Hp) as (I1 & I2 & I3).
  destruct x; try done. split_and!; [|exact I2|exact I3]. destruct pre; [done|exact I1].
Qed.

(** An export that succeeds has written the whole archive, closed the file, and
    said so last; one that fails says nothing; the store is closed either way. *)
Lemma export_life args : let m := runExport h store_drivers args in
  (m.2 = Ok tt -> exists pre c dest, forallb is_made_dir pre = true /\ m.1 =
     (pre ++ [OpenedStore (db_Driver (c_DB c)) (db_DSN (c_DB c)); Created dest; WroteArchive dest; ClosedFile dest;
              Printed ("export written to " +:+ dest); ClosedFile dest; ClosedStore])%list)
  /\ (m.2 <> Ok tt -> existsb is_printed m.1 = false)
  /\ closed_last m.1 = existsb is_opened m.1.
Proof.
  cbv zeta. unfold runExport, parse_flags. destruct (flag_Parse _ _ _) as [[vals ?]|[]]; [|by split..].
  rewrite bind_ret. cbv zeta. destruct (String.eqb (default "" (vals !! "out")) ""); [by split|].
  pose proof (resolveExportDest_effects (default "" (vals !! "out"))) as Hd.
  destruct (resolveExportDest h _) as [pre [dest|e]]; cbn in Hd |- *; destruct (made_dirs pre Hd) as (M1 & M2 & M3).
  2: by rewrite M1, M2, M3.
  unfold load. destruct (h_Load h []) as [c|e]; [rewrite bind_ret|cbn; by rewrite app_nil_r, M1, M2, M3].
  unfold open_store, attempt.
  destruct (store_Open h store_drivers c) as [e|]; [cbn; by rewrite app_nil_r, M1, M2, M3|].
  destruct (h_Create h dest) as [e|]; [|destruct (h_Write h) as [e|]; [|destruct (h_Close h dest) as [e|]; [|destruct (h_Print h _) as [e|]]]].
  all: cbn; rewrite closed_last_app, !existsb_app, M2, M3 by done; cbn.
  all: split_and!; try done. by intros _; exists pre, c, dest.
Qed.

(** An import reads its archive only into a store whose schema is in place. *)
Lemma import_life args : let m := runImport h store_drivers args in
  (m.2 = Ok tt -> exists c src force, m.1 =
     [OpenedStore (db_Driver (c_DB c)) (db_DSN (c_DB c)); Migrated; Opened src; ReadArchive src force;
      Printed ("import complete from " +:+ src); ClosedFile src; ClosedStore])
  /\ (existsb is_read m.1 = true -> existsb is_printed m.1 = false -> m.2 <> Ok tt)
  /\ closed_last m.1 = existsb is_opened m.1.
Proof.
  cbv zeta. unfold runImport, parse_flags. destruct (flag_Parse _ _ _) as [[vals ?]|[]]; [|by split..].
  rewrite bind_ret. cbv zeta. destruct (String.eqb (default "" (vals !! "in")) ""); [by split|].
  generalize (if default false (h_IsDir h (default "" (vals !! "in"))) then filepath_Join (default "" (vals !! "in")) exportArchiveName
    else default "" (vals !! "in")) as src. intros src.
  generalize (default false (vals !! "force" ≫= ParseBool)) as force. intros force.
  unfold load. destruct (h_Load h []) as [c|e]; [rewrite bind_ret|by split].
  unfold open_store, attempt.
  destruct (store_Open h store_drivers c) as [e|]; [by split|].
  destruct (h_Migrate h) as [e|]; [by split|]. destruct (h_OpenFile h src) as [e|]; [by split|].
  destruct (h_Read h force) as [e|]; [by split|]. destruct (h_Print h _) as [e|]; cbn; split_and!; try done.
  by intros _; exists c, src, force.
Qed.
End facts.

(** ** Registries *)
Section registry_facts.
Context {O : Type}.

Lemma register_all_spec (l : list (string * O)) m : NoDup l.*1 -> (forall n, n ∈ l.*1 -> m !! n = None) ->
  register_all l m = Some (list_to_map l ∪ m).
Proof.
  revert m. induction l as [|[n o] l IH]; intros m Hnd Hm; cbn [register_all list_to_map foldr].
  { by rewrite (left_id_L ∅ (∪)). }
  apply NoDup_cons in Hnd as [Hn Hnd]. unfold Register. rewrite (Hm n) by left.
  rewrite IH; [|done|].
  - f_equal. cbn. rewrite <- insert_union_r by (by apply not_elem_of_list_to_map_1). by rewrite insert_union_l.
  - intros k Hk. rewrite lookup_insert_ne by (intros ->; done). apply Hm. by right.
Qed.

(** A name that is taken makes the process panic at start. *)
Lemma register_all_duplicate (l1 l2 l3 : list (string * O)) n a b m : register_all (l1 ++ (n, a) :: l2 ++ (n, b) :: l3) m = None.
Proof.
  assert (Hin : forall l m', is_Some (m' !! n) -> register_all (l ++ (n, b) :: l3) m' = None).
  { induction l as [|[k o] l IH]; intros m' [x Hx]; cbn [register_all app]; unfold Register.
    - by rewrite Hx.
    - destruct (m' !! k) eqn:E; [done|]. apply IH. rewrite lookup_insert_ne; [by eexists|congruence]. }
  revert m. induction l1 as [|[k o] l1 IH]; intros m; cbn [register_all app]; unfold Register.
  - destruct (m !! n); [done|]. apply Hin. rewrite lookup_insert_eq. by eexists.
  - destruct (m !! k); [done|]. apply IH.
Qed.

#[local] Instance str_ltb_swo : StrictWeakOrder str_ltb.
Proof. split; [apply str_ltb_irrefl|apply str_ltb_trans|apply str_ltb_cotrans]. Qed.

(** [Drivers]: the registered names, in order, whatever the order of the map. *)
Lemma Drivers_spec (m : gmap string O) :
  StronglySorted (not_less str_ltb) (Drivers m) /\ NoDup (Drivers m) /\ forall n, n ∈ Drivers m <-> is_Some (m !! n).
Proof.
  unfold Drivers. split_and!.
  - apply (sort_Slice_sorted str_ltb).
  - rewrite sort_Slice_Permutation. apply NoDup_fst_map_to_list.
  - intros n. rewrite sort_Slice_Permutation. rewrite list_elem_of_fmap. split.
    + intros ([k o] & -> & Hk%elem_of_map_to_list). by eexists.
    + intros [o Ho]. exists (n, o). by rewrite elem_of_map_to_list.
Qed.
End registry_facts.

(** The packages main.go imports for their [init]. *)
Definition store_packages : list (string * unit) := [("postgres", tt); ("sqlite", tt)].
Definition blob_packages : list (string * unit) := [("fs", tt); ("s3", tt)].

(** What the process registers is what the configuration accepts, so an accepted
    configuration never names an unknown driver. *)
Lemma accepted_drivers_known `{U : UnicodeTable} `{IP : IPParser} `{NT : IPNets} `{CM : !CIDRMask} h c stores blobs :
  register_all store_packages ∅ = Some stores -> register_all blob_packages ∅ = Some blobs -> accepted c ->
  store_Open h stores c = h_OpenStore h (db_Driver (c_DB c)) (db_DSN (c_DB c))
  /\ blob_Open h blobs c = h_OpenBlob h (bl_Driver (c_Blob c)).
Proof.
  intros [= <-] [= <-] Ha. destruct (ok_drivers c Ha) as [Hd Hb]. unfold store_Open, blob_Open, open_driver. split.
  - apply elem_of_cons in Hd as [->|[->|[]%elem_of_nil]%elem_of_cons]; reflexivity.
  - apply elem_of_cons in Hb as [->|[->|[]%elem_of_nil]%elem_of_cons]; reflexivity.
Qed.

(** ** Host and port *)
Lemma ascii_in_false c s : c ∉ bytes s -> ascii_in c s = false.
Proof. intros H. by apply bool_decide_eq_false. Qed.

Lemma CutLastByte_app s t c : c ∉ bytes t -> CutLastByte (s +:+ String c t) c = Some (s, t).
Proof.
  intros Ht. assert (Hn : CutLastByte t c = None).
  { induction t as [|d t IH]; [done|]. apply not_elem_of_cons in Ht as [H1 H2]. cbn. rewrite (IH H2).
    destruct (Ascii.eqb_spec d c); [congruence|done]. }
  induction s as [|d s IH].
  - change ("" +:+ String c t) with (String c t). cbn. by rewrite Hn, Ascii.eqb_refl.
  - change (String d s +:+ String c t) with (String d (s +:+ String c t)). cbn. by rewrite IH.
Qed.

(** [JoinHostPort] and [SplitHostPort] are inverse on hosts without brackets,
    IPv6 addresses included: the probe reaches the port the server listens on. *)
Lemma SplitHostPort_JoinHostPort h p :
  "["%char ∉ bytes h -> "]"%char ∉ bytes h -> "["%char ∉ bytes p -> "]"%char ∉ bytes p -> ":"%char ∉ bytes p ->
  SplitHostPort (JoinHostPort h p) = Ok (h, p).
Proof.
  intros H1 H2 P1 P2 P3. unfold JoinHostPort, SplitHostPort. destruct (ascii_in ":" h) eqn:E.
  - change ("[" +:+ h +:+ "]:" +:+ p) with (String "[" (h +:+ "]" +:+ String ":" p)).
    replace (String "[" (h +:+ "]" +:+ String ":" p)) with ((String "[" (h +:+ "]")) +:+ String ":" p) at 1
      by (apply bytes_inj; cbn; repeat (rewrite ?bytes_app; cbn); by rewrite <- ?app_assoc).
    rewrite CutLastByte_app by done. change (h +:+ "]" +:+ String ":" p) with (h +:+ String "]" (":" +:+ p)).
    rewrite CutByte_app by done. cbn [negb].
    change (":" +:+ p) with ("" +:+ String ":" p). rewrite CutLastByte_app by done.
    rewrite !ascii_in_false; [done| |]; cbn; rewrite ?bytes_app; cbn; set_solver.
  - change (h +:+ ":" +:+ p) with (h +:+ String ":" p). rewrite CutLastByte_app by done.
    assert (Hb : forall c, c ∉ bytes h -> c ∉ bytes p -> c <> ":"%char -> ascii_in c (h +:+ String ":" p) = false).
    { intros c C1 C2 C3. apply ascii_in_false. rewrite bytes_app. cbn. set_solver. }
    rewrite E, !Hb by done.
    destruct h as [|d h]; [done|]. change (String d h +:+ String ":" p) with (String d (h +:+ String ":" p)).
    destruct (decide (d = "["%char)) as [->|Hd]; [cbn in H1; set_solver|].
    destruct d as [[] [] [] [] [] [] [] []]; done.
Qed.

(** ** Examples *)

(** A host on which every call succeeds, until a signal. *)
Definition demo_host (c : Config) (e : ending) : host := {|
  h_Load := fun _ => Ok c; h_Print := fun _ => None; h_IsDir := fun p => if String.eqb p "/backups" then Some true else None;
  h_MkdirAll := fun _ => None; h_Create := fun _ => None; h_OpenFile := fun _ => None; h_Close := fun _ => None;
  h_Write := None; h_Read := fun _ => None; h_Get := fun _ => Ok 200; h_Secret := fun _ => Ok "secret";
  h_OpenStore := fun _ _ => None; h_Migrate := None; h_OpenBlob := fun _ => None; h_rand := fun _ => "a"%char;
  h_Bootstrap := None; h_End := e |}.

Example healthcheck_demo listen cidrs :
  listen = "[::]:9000" ->
  runHealthcheck (demo_host (demo_config listen cidrs) Signalled) ["--live"]
  = ([Probed "http://127.0.0.1:9000/healthz"; Printed "ok /healthz"], Ok tt).
Proof. by intros ->. Qed.

Example export_demo cidrs :
  runExport (demo_host (demo_config ":8080" cidrs) Signalled) {["sqlite" := tt]} ["--out"; "/backups"]
  = ([OpenedStore "sqlite" "./data/qurator.db"; Created "/backups/export.tar"; WroteArchive "/backups/export.tar";
      ClosedFile "/backups/export.tar"; Printed "export written to /backups/export.tar"; ClosedFile "/backups/export.tar";
      ClosedStore], Ok tt).
Proof. reflexivity. Qed.

(** [qurator export --help] ends with status 1, as a failure does: the flag set
    of the subcommand reports the request for help as an error. *)
Example export_help `{U : UnicodeTable} `{IP : IPParser} `{NT : IPNets} h stores blobs v :
  exit_status h stores blobs v ["export"; "--help"] = 1.
Proof. reflexivity. Qed.
