(* ===== verification/Middleware.v ===== *)
(** * Middleware around the routes ([internal/httpapi/middleware/requestid.go],
    recover.go, logging.go, [internal/observability/log.go], metrics.go)

    What a handler does to its [http.ResponseWriter], in order, and how it ends:
    by returning or by a panic.  The wrappers that watch the writer, what they
    log and count, and the chain main.go builds around the router.  Durations
    are the clock's and stand outside. *)
From Stdlib Require Import Ascii String.
From S2P Require Import GoLib Http GoUrl Blob Mux Auth AccountApi Router RouterFacts.
Local Open Scope string_scope.
Local Open Scope Z_scope.

(** ** What happens while a request is served *)
Record LogLine := { lg_Method : string; lg_Route : string; lg_Status : Z; lg_Bytes : Z }.
Record Labels := { lb_Route : string; lb_Method : string; lb_Status : string }.

(** Calls on the writer, log lines with the request id of their context, and
    the two collectors of the middleware. *)
Inductive event :=
| HeadersSet (h : gmap string string)
| WroteHeader (status : Z)
| Wrote (b : Body) (n : Z)
| LoggedRequest (request_id : option string) (l : LogLine)
| LoggedPanic (request_id : option string)
| Counted (l : Labels).

Inductive ending := Returned | Panicked (abort : bool).

(** A request is served under the request id its context carries. *)
Definition Served : Type := option string -> list event * ending.

(** What the client gets: the first status that is not informational, 200 when
    the body comes first, and the bytes taken. *)
Definition final (status : Z) : bool := (200 <=? status) || (status =? 101).
Definition wire_step (st : option Z) (e : event) : option Z :=
  match e, st with
  | WroteHeader c, None => if final c then Some c else None
  | Wrote _ _, None => Some 200
  | _, _ => st
  end.
Definition wire_status (evs : list event) : Z := default 200 (foldl wire_step None evs).
Definition wire_bytes (evs : list event) : Z := foldr (fun e z => match e with Wrote _ n => n + z | _ => z end) 0 evs.

(** ** [observability.RoutePattern], [NewRequestID] *)
Definition RoutePattern (r : Incoming) : string :=
  if negb (String.eqb (in_Route r) "") then in_Route r
  else if negb (String.eqb (hr_Pattern (in_Http r)) "") then hr_Pattern (in_Http r)
  else "unmatched".

Definition NewRequestID (random : list ascii) : string := hex_EncodeToString random.

(** The threshold of the logger, and its format. *)
Inductive Level := LevelDebug | LevelInfo | LevelWarn | LevelError.
Definition log_level (level : string) : Level :=
  if String.eqb level "debug" then LevelDebug else if String.eqb level "warn" then LevelWarn
  else if String.eqb level "error" then LevelError else LevelInfo.
Definition log_json (format : string) : bool := negb (String.eqb format "text").

(** ** [statusWriter] of logging.go *)
Record statusWriter := { sw_status : Z; sw_bytes : Z; sw_wrote : bool }.
Definition sw_new : statusWriter := {| sw_status := 200; sw_bytes := 0; sw_wrote := false |}.
Definition sw_WriteHeader (code : Z) (s : statusWriter) : statusWriter :=
  if sw_wrote s then s else {| sw_status := code; sw_bytes := sw_bytes s; sw_wrote := true |}.
Definition sw_Write (n : Z) (s : statusWriter) : statusWriter :=
  {| sw_status := sw_status s; sw_bytes := sw_bytes s + n; sw_wrote := true |}.
Definition sw_step (s : statusWriter) (e : event) : statusWriter :=
  match e with WroteHeader c => sw_WriteHeader c s | Wrote _ n => sw_Write n s | _ => s end.

(** ** [statusRecorder] of metrics.go *)
Record statusRecorder := { rec_status : Z; rec_wroteHeader : bool }.
Definition rec_new : statusRecorder := {| rec_status := 0; rec_wroteHeader := false |}.
Definition rec_WriteHeader (status : Z) (r : statusRecorder) : statusRecorder :=
  if rec_wroteHeader r then r else {| rec_status := status; rec_wroteHeader := true |}.
Definition rec_Write (r : statusRecorder) : statusRecorder :=
  if rec_wroteHeader r then r else {| rec_status := 200; rec_wroteHeader := true |}.
Definition rec_step (r : statusRecorder) (e : event) : statusRecorder :=
  match e with WroteHeader c => rec_WriteHeader c r | Wrote _ _ => rec_Write r | _ => r end.

Section middleware.
Context `{RD : Redirects} (size : Body -> Z).
Notation Handler := (Handler (T:=Served)).
Notation Middleware := (Middleware (T:=Served)).

(** A response written as a whole; [size] is what the writer takes of a body. *)
Definition reply (resp : Response) : Served := fun _ =>
  (HeadersSet (rs_Header resp) :: WroteHeader (rs_Status resp)
     :: match rs_Body resp with NoBody => [] | b => [Wrote b (size b)] end, Returned).

(** *** [RequestID] *)
Definition RequestID (random : list ascii) : Middleware := fun next r _ =>
  let id := NewRequestID random in
  let '(evs, e) := next r (Some id) in (HeadersSet {["X-Request-Id" := id]} :: evs, e).

(** *** [Recover] *)
Definition Recover : Middleware := fun next r id =>
  match next r id with
  | (evs, Panicked false) =>
      ((evs ++ LoggedPanic id :: (reply (WriteError CodeInternal "An unexpected error occurred." [] ∅) id).1)%list, Returned)
  | done => done
  end.

(** *** [Logging] *)
Definition Logging : Middleware := fun next r id =>
  match next r id with
  | (evs, Returned) =>
      let sw := foldl sw_step sw_new evs in
      ((evs ++ [LoggedRequest id {| lg_Method := hr_Method (in_Http r); lg_Route := RoutePattern r;
                                    lg_Status := sw_status sw; lg_Bytes := sw_bytes sw |}])%list, Returned)
  | panicked => panicked
  end.

(** *** [Metrics.Middleware] *)
Definition Metrics : Middleware := fun next r id =>
  match next r id with
  | (evs, Returned) =>
      let status := rec_status (foldl rec_step rec_new evs) in
      let status := if status =? 0 then 200 else status in
      ((evs ++ [Counted {| lb_Route := RoutePattern r; lb_Method := hr_Method (in_Http r); lb_Status := Itoa status |}])%list, Returned)
  | panicked => panicked
  end.

(** The chains main.go gives the router. *)
Definition common (random : list ascii) : list Middleware := [RequestID random; Recover].
Definition per_route : list Middleware := [Metrics; Logging].
End middleware.

(** ** What is logged and counted *)
Definition is_observation (e : event) : bool := match e with LoggedRequest _ _ | Counted _ => true | _ => false end.
Definition observations (evs : list event) : list event := List.filter is_observation evs.
Definition plain (e : event) : bool :=
  match e with LoggedRequest _ _ | Counted _ | LoggedPanic _ => false | WroteHeader c => final c | _ => true end.

Lemma observations_app l k : observations (l ++ k) = (observations l ++ observations k)%list.
Proof. apply List.filter_app. Qed.
Lemma observations_plain evs : forallb plain evs = true -> observations evs = [].
Proof. induction evs as [|e evs IH]; [done|]. intros [He Hs]%andb_prop. specialize (IH Hs). by destruct e. Qed.

Lemma wire_bytes_app l k : wire_bytes (l ++ k) = wire_bytes l + wire_bytes k.
Proof. induction l as [|e l IH]; [done|]. unfold wire_bytes in *. cbn [foldr app]. rewrite IH. destruct e; lia. Qed.
Lemma wire_status_app l k : foldl wire_step None k = None -> (forall c, foldl wire_step (Some c) k = Some c) ->
  wire_status (l ++ k) = wire_status l.
Proof. intros H1 H2. unfold wire_status. rewrite foldl_app. by destruct (foldl wire_step None l); rewrite ?H1, ?H2. Qed.

(** The state of both wrappers, from what has reached the client. *)
Definition tracked (st : option Z) (n : Z) (sw : statusWriter) (r : statusRecorder) : Prop :=
  sw = {| sw_status := default 200 st; sw_bytes := n; sw_wrote := bool_decide (is_Some st) |}
  /\ r = {| rec_status := default 0 st; rec_wroteHeader := bool_decide (is_Some st) |} /\ st <> Some 0.

Lemma tracked_step st n sw r e : plain e = true -> tracked st n sw r ->
  tracked (wire_step st e) (n + wire_bytes [e]) (sw_step sw e) (rec_step r e).
Proof.
  intros He (-> & -> & Hz). unfold wire_bytes.
  destruct e as [h|c|b k|id l|id|l], st as [c0|]; try done; cbn in *; rewrite ?Z.add_0_r; try done.
  rewrite He. split_and!; [done|done|]. intros [= ->]. done.
Qed.

Lemma tracked_all evs st n sw r : forallb plain evs = true -> tracked st n sw r ->
  tracked (foldl wire_step st evs) (n + wire_bytes evs) (foldl sw_step sw evs) (foldl rec_step r evs).
Proof.
  revert st n sw r. induction evs as [|e evs IH]; intros st n sw r Hp Ht; cbn [foldl].
  - change (wire_bytes []) with 0. by rewrite Z.add_0_r.
  - apply andb_prop in Hp as [He Hp]. change (e :: evs) with ([e] ++ evs)%list. rewrite wire_bytes_app, Z.add_assoc.
    apply IH; [done|]. by apply tracked_step.
Qed.

(** Both wrappers see what the client gets. *)
Lemma watchers_agree evs : forallb plain evs = true ->
  sw_status (foldl sw_step sw_new evs) = wire_status evs
  /\ sw_bytes (foldl sw_step sw_new evs) = wire_bytes evs
  /\ (let s := rec_status (foldl rec_step rec_new evs) in if s =? 0 then 200 else s) = wire_status evs.
Proof.
  intros Hp. assert (Ht : tracked None 0 sw_new rec_new) by done.
  destruct (tracked_all evs None 0 sw_new rec_new Hp Ht) as (-> & -> & Hz). unfold wire_status. cbn.
  split_and!; [done|lia|]. destruct (foldl wire_step None evs) as [c|]; [|done]. cbn. by destruct (Z.eqb_spec c 0) as [->|].
Qed.

(** ** Around the router *)
Section composed.
Context `{RD : Redirects} (size : Body -> Z).
Notation Handler := (Handler (T:=Served)).
Notation Middleware := (Middleware (T:=Served)).
Notation write := (reply size).

(** A handler of the program writes; logging requests and counting them is not
    its business, and its statuses are final. *)
Definition quiet (hd : Handler) : Prop := forall r id, forallb plain (hd r id).1 = true.

(** Middleware that lets a request through, perhaps with an identity, or
    answers itself: authentication, the CSRF check, the limiters. *)
Definition gate (m : Middleware) : Prop := forall next r,
  (exists i, m next r = next (set_Identity i r)) \/ m next r = next r
  \/ exists resp, final (rs_Status resp) = true /\ m next r = write resp.
Definition opt_gate (m : option Middleware) : Prop := forall m', m = Some m' -> gate m'.

Lemma reply_plain resp id : final (rs_Status resp) = true -> forallb plain (write resp id).1 = true.
Proof. intros H. cbn. rewrite H. by destruct (rs_Body resp). Qed.
Lemma reply_observations resp id : observations (write resp id).1 = [].
Proof. cbn. by destruct (rs_Body resp). Qed.

Lemma gate_quiet m hd : gate m -> quiet hd -> quiet (m hd).
Proof. intros Hm Hq r id. destruct (Hm hd r) as [[i ->]|[->|(resp & Hs & ->)]]; [apply Hq|apply Hq|by apply reply_plain]. Qed.

(** *** One request is told at most once

    No line and no count, or one of each, after the handler returned, with the
    method, a registered pattern, and the status and size the client got. *)
Definition told (m : string) (id : option string) (t : list event * ending) : Prop :=
  observations t.1 = []
  \/ exists rt, rt ∈ Routes /\ t.2 = Returned /\ observations t.1 =
       [LoggedRequest id {| lg_Method := m; lg_Route := rt_Pattern rt; lg_Status := wire_status t.1; lg_Bytes := wire_bytes t.1 |};
        Counted {| lb_Route := rt_Pattern rt; lb_Method := m; lb_Status := Itoa (wire_status t.1) |}].
Definition tells (hd : Handler) : Prop := forall r id, in_Route r = "" -> told (hr_Method (in_Http r)) id (hd r id).

Lemma gate_tells m hd : gate m -> tells hd -> tells (m hd).
Proof.
  intros Hm Ht r id Hr. destruct (Hm hd r) as [[i ->]|[->|(resp & _ & ->)]]; [exact (Ht (set_Identity i r) id Hr)|by apply Ht|].
  left. apply reply_observations.
Qed.
Lemma wrap_tells m hd : opt_gate m -> tells hd -> tells (wrap m hd).
Proof. intros Hm Ht. destruct m as [m|]; [|done]. by apply gate_tells; [apply Hm|]. Qed.

(** What the two watchers add to a handler that only writes. *)
Lemma per_route_adds hd r id : quiet hd -> wrap_all per_route hd r id =
  match hd r id with
  | (evs, Returned) =>
      ((evs ++ [LoggedRequest id {| lg_Method := hr_Method (in_Http r); lg_Route := RoutePattern r;
                                    lg_Status := wire_status evs; lg_Bytes := wire_bytes evs |};
                Counted {| lb_Route := RoutePattern r; lb_Method := hr_Method (in_Http r); lb_Status := Itoa (wire_status evs) |}])%list,
       Returned)
  | panicked => panicked
  end.
Proof.
  intros Hq. specialize (Hq r id). unfold wrap_all, per_route, foldr, Metrics, Logging.
  destruct (hd r id) as [evs [|a]]; [|done]. cbn [fst] in Hq.
  destruct (watchers_agree evs Hq) as (E1 & E2 & E3). cbv zeta in E3 |- *. rewrite foldl_app. cbn [foldl rec_step].
  by rewrite E1, E2, E3, <- app_assoc.
Qed.

Lemma watched_wire evs l k : wire_status (evs ++ [LoggedRequest l k]) = wire_status evs.
Proof. by apply wire_status_app. Qed.

Lemma per_route_tells hd rt r id : quiet hd -> rt ∈ Routes -> RoutePattern r = rt_Pattern rt ->
  told (hr_Method (in_Http r)) id (wrap_all per_route hd r id).
Proof.
  intros Hq Hrt Hp. rewrite per_route_adds by done. specialize (Hq r id). destruct (hd r id) as [evs [|a]]; cbn [fst] in Hq.
  - right. exists rt. rewrite Hp. cbn [fst snd]. split_and!; [done|done|].
    rewrite wire_bytes_app, wire_status_app by done. rewrite observations_app, observations_plain by done. cbn. by rewrite Z.add_0_r.
  - left. by apply observations_plain.
Qed.

(** *** Through the muxes *)
Context (h : Handlers (T:=Served)) (o : RouterOptions (T:=Served)) (random : list ascii).
Context (Hcommon : Common o = common size random) (Hroute : PerRoute o = per_route).
Context (Hhandlers : forall name, quiet (lookup write h name)).
Context (Hauth : opt_gate (o_Auth o)) (Hcsrf : opt_gate (o_CSRF o)) (Hlimit : opt_gate (SigninLimiter o)).

Lemma lookup_limited_quiet rt limit : gate limit -> quiet (limit (withPattern (rt_Pattern rt) (lookup write h (rt_Handler rt)))).
Proof. intros Hl. apply gate_quiet; [done|]. intros r id. apply Hhandlers. Qed.

Lemma route_tells rt r id : rt ∈ Routes -> RoutePattern r = rt_Pattern rt ->
  told (hr_Method (in_Http r)) id (route_handler write h o rt r id).
Proof.
  intros Hrt Hp. unfold route_handler. rewrite Hroute. apply (per_route_tells _ rt); [|done|done].
  assert (Hb : quiet (withPattern (rt_Pattern rt) (lookup write h (rt_Handler rt)))) by (intros r' id'; apply Hhandlers).
  destruct (SigninLimiter o) as [limit|] eqn:El; [pose proof (Hlimit limit eq_refl) as Hl|].
  - assert (Hs : quiet (if String.eqb (rt_Pattern rt) SigninPattern
        then wrap (Some limit) (withPattern (rt_Pattern rt) (lookup write h (rt_Handler rt)))
        else withPattern (rt_Pattern rt) (lookup write h (rt_Handler rt)))) by (destruct (String.eqb _ _); [by apply gate_quiet|done]).
    destruct (rt_Group rt); [done|done|]. intros r' id'. destruct (_ && _); [by apply gate_quiet|apply Hs].
  - destruct (rt_Group rt), (String.eqb _ _); done.
Qed.

Lemma mux_tells (mux : Mux Handler) :
  (forall e r id, e ∈ mux -> in_Route r = "" -> hr_Pattern (in_Http r) = e_Pattern e -> told (hr_Method (in_Http r)) id (e_Handler e r id)) ->
  tells (mux_ServeHTTP write mux).
Proof.
  intros Hm r id Hr. unfold mux_ServeHTTP. destruct (findHandler _ _ _) as [e ms|path|allowed|] eqn:E.
  - apply findHandler_fits in E as [Hin _]. exact (Hm e (with_match r (e_Pattern e) ms) id Hin Hr eq_refl).
  - left. apply reply_observations.
  - left. apply reply_observations.
  - left. apply reply_observations.
Qed.

Lemma group_tells g : tells (mux_ServeHTTP write (group_mux write h o g)).
Proof.
  apply mux_tells. intros e r id Hin Hr Hp. apply list_elem_of_fmap in Hin as (rt & -> & Hrt).
  apply list_elem_of_filter in Hrt as [_ Hrt]. apply route_tells; [done|]. unfold RoutePattern. rewrite Hr, Hp. cbn [e_Pattern].
  assert (Hne : Forall (fun rt => String.eqb (rt_Pattern rt) "" = false) Routes) by (repeat constructor).
  rewrite Forall_forall in Hne. rewrite (Hne rt Hrt). reflexivity.
Qed.

Lemma root_tells : tells (mux_ServeHTTP write (root write h o)).
Proof.
  assert (Hpub : tells (mux_ServeHTTP write (group_mux write h o GroupPublic))) by apply group_tells.
  assert (Hprot : tells (protectedChain write h o)).
  { apply wrap_tells, wrap_tells; [done|done|]. intros r id Hr. unfold jsonNotFound.
    destruct (findHandler _ _ _); try by apply group_tells. left. apply reply_observations. }
  assert (Hcon : tells (consoleChain write h o)) by (apply wrap_tells; [done|apply group_tells]).
  apply mux_tells. intros e r id Hin Hr _. unfold root in Hin. rewrite !elem_of_cons in Hin.
  destruct_or! Hin; try (apply elem_of_nil in Hin; done); subst e; cbn [e_Handler]; try by auto.
  left. apply reply_observations.
Qed.

(** One request is told at most once, under the pattern of a registered route
    and never under its path, with the status and the size the client got, and
    with the identifier the response carries. *)
Lemma requests_told r : in_Route r = "" ->
  let t := NewRouter write h o r None in
  told (hr_Method (in_Http r)) (Some (NewRequestID random)) t
  /\ head t.1 = Some (HeadersSet {["X-Request-Id" := NewRequestID random]}) /\ t.2 <> Panicked false.
Proof.
  intros Hr. unfold NewRouter. rewrite Hcommon. unfold common, wrap_all, foldr, RequestID, Recover. cbv zeta.
  pose proof (root_tells r (Some (NewRequestID random)) Hr) as Ht.
  destruct (mux_ServeHTTP write (root write h o) r (Some (NewRequestID random))) as [evs [|[]]]; cbn [fst snd] in *; try by split_and!.
  split_and!; [|done|done]. left. destruct Ht as [Ht|(rt & _ & [=] & _)]. cbn [fst] in *.
  transitivity (observations evs ++ [])%list; [|by rewrite Ht]. rewrite app_comm_cons, observations_app. f_equal.
Qed.
End composed.

(** ** Panics *)

(** A handler of a route that panics: the client gets the envelope of an
    internal error, with status 500 unless a status was already sent, and
    neither the log of requests nor the counters hear of the request. *)
Lemma panic_answered `{RD : Redirects} size (hd : Handler (T:=Served)) r id evs :
  quiet hd -> hd r id = (evs, Panicked false) ->
  let t := Recover size (wrap_all per_route hd) r id in
  t.2 = Returned /\ observations t.1 = []
  /\ wire_status t.1 = default 500 (foldl wire_step None evs)
  /\ last t.1 = Some (Wrote (ErrorJSON CodeInternal "An unexpected error occurred." [])
                            (size (ErrorJSON CodeInternal "An unexpected error occurred." []))).
Proof.
  intros Hq E. pose proof (Hq r id) as Hp. unfold Recover. rewrite per_route_adds, E by done. rewrite E in Hp. cbn [fst snd] in *. cbv zeta.
  split_and!; [done| | |].
  - by rewrite observations_app, observations_plain.
  - unfold wire_status. rewrite foldl_app. by destruct (foldl wire_step None evs).
  - by rewrite last_app.
Qed.

(** ** Examples *)
Section examples.
#[local] Instance demo_redirects : Redirects := {|
  mux_redirect := fun _ p _ => {| rs_Status := 307; rs_Header := {[ "Location" := p ]}; rs_Body := NoBody |};
  RedirectHandler := fun _ u s => {| rs_Status := s; rs_Header := {[ "Location" := u ]}; rs_Body := NoBody |} |}.
Definition demo_size (b : Body) : Z := match b with Raw d => Z.of_nat (length d) | _ => 100 end.

(** The health endpoint answers, a scan panics before writing. *)
Definition demo_handlers : Handlers (T:=Served) := {|
  Public := Some (fun _ _ => ([], Panicked false)); QR := None; Codes := None; Auth_ := None; Tokens := None; Admin := None;
  Analytics := None; Export_ := None; Console := None;
  Healthz := Some (fun _ => reply demo_size (WriteJSON 200 (JObject [("status", JString "ok")]) ∅)); Readyz := None |}.
Definition demo_options : RouterOptions (T:=Served) := {|
  Common := common demo_size ["a"%char]; PerRoute := per_route; o_Auth := None; o_CSRF := Some (csrf (reply demo_size));
  SigninLimiter := None |}.
Definition demo_request (m p : string) : Incoming := {|
  in_Http := {| hr_Method := m; hr_Pattern := ""; hr_PathValue := fun _ => ""; hr_Query := ∅; hr_Header := fun _ => ""; hr_Body := [] |};
  in_EscapedPath := p; in_Path := p; in_RawQuery := ""; in_Creds := {| Header_Values := fun _ => []; Cookie_ := fun _ => None; RemoteAddr := "" |};
  in_Identity := None; in_Route := "" |}.
Definition demo (m p : string) : list event * Z :=
  let t := NewRouter (reply demo_size) demo_handlers demo_options (demo_request m p) None in (observations t.1, wire_status t.1).

Example demo_served : demo "GET" "/healthz"
  = ([LoggedRequest (Some "61") {| lg_Method := "GET"; lg_Route := "GET /healthz"; lg_Status := 200; lg_Bytes := 100 |};
      Counted {| lb_Route := "GET /healthz"; lb_Method := "GET"; lb_Status := "200" |}], 200).
Proof. vm_compute. reflexivity. Qed.

(** A path that no route has, and a request whose handler panics, are answered
    and leave no trace in the log of requests or in the counters. *)
Example demo_unmatched : demo "GET" "/v1/nothing" = ([], 404).
Proof. vm_compute. reflexivity. Qed.
Example demo_panicked : demo "GET" "/r/abc" = ([], 500).
Proof. vm_compute. reflexivity. Qed.

(** The hypotheses of [requests_told] hold of this router. *)
Example demo_told r : in_Route r = "" ->
  told (hr_Method (in_Http r)) (Some "61") (NewRouter (reply demo_size) demo_handlers demo_options r None).
Proof.
  intros Hr. refine (proj1 (requests_told demo_size demo_handlers demo_options ["a"%char] eq_refl eq_refl _ _ _ _ r Hr)).
  - intros [] q id; reflexivity.
  - intros m [=].
  - intros m [= <-] next q. unfold csrf, CSRF. case_bool_decide; [by right; left|].
    destruct (_ && _); [|by right; left]. right; right. eexists. split; [|reflexivity]. reflexivity.
  - intros m [=].
Qed.
End examples.
